(* ===== verification/_CoqProject ===== *)
-Q . S2P
Prelude.v
Errors.v
Decoder.v
Encoder.v
Codec.v
Wire.v
Endian.v
Types.v
Dva.v
BlockPointer.v
Stream.v
Fletcher.v
Simd.v
FletcherSimd.v
Sha256.v
Simd32.v
Sha256Simd.v
LabelChecksum.v
Lzjb.v
Cksum.v
Compress.v
Vdev.v
Heal.v
Dnode.v
FileRead.v
ObjectSet.v
Zap.v
Walk.v
WalkSafe.v
Dsl.v
Acl.v
Zpl.v
SpaceMap.v
BpObject.v
FixedStr.v
Vocab.v
Dataset.v
Uberblock.v
Label.v
Nv.v
NvSpec.v
Feature.v
LabelConfig.v
Pool.v
PoolSpec.v
Zfs.v
Safe.v
Session.v
ErrorText.v
ErrorRecords.v
ErrorConfig.v
Clients.v
