(* ===== verification/Prelude.v ===== *)
(** * lamzfs: a read-only ZFS pool reader, verified

    lamzfs reads files from a ZFS pool without writing to it.  An embedder
    hands it block devices; it reads the configuration in their labels, picks
    the newest uberblock, follows block pointers to the meta object set, walks
    the dataset tree and a dataset's directories, and returns the bytes of a
    file.  Everything it reads is untrusted until it matches a checksum.  This
    library models that path, from the bytes of the devices to the bytes of a
    file, and the on-disk records with their decoders and encoders.

    ** Conventions

    A Rust function of type [Result<A, E>] is a function into [outcome E A],
    whose third constructor, [Panic], stands for an index out of range, a
    failed [unwrap] or an arithmetic overflow.  Code that reads through
    members threads them in the state monad [SM] below: the members are part
    of the result, on success and on error.  Integers are [Z] with the
    wrapping of their width written out; bytes are integers in a byte's range.
    [safe P m] says that [m] does not panic and returns values in [P].

    ** Files, in the order of their dependencies

    - Prelude: outcomes, the state monad, bytes and words, list and integer
      lemmas, the hint databases and tactics.
    - Errors (src/src/error.rs, block_read.rs): the error type with its tokens;
      the class [BlockRead] of an embedder's reader, whose one law is that a
      read that succeeds gives as many bytes as were asked for.
    - Decoder, Encoder (phys/binary.rs): the buffers with their cursors, the
      two interfaces as classes, their big-endian, little-endian and XDR
      instances, and the laws that every record uses.  Codec: the steps of
      record codecs with the tactics that take them.  Wire: the decoders that
      own their bytes, and [get], [put] and their counted forms, for values
      behind the decoder and encoder traits.  Endian (phys/endian.rs): the
      older encoder that chooses its byte order when it is made.
    - Types (phys/compression.rs, checksum.rs, dmu.rs), Dva (phys/dva.rs,
      checksum.rs), BlockPointer (phys/block_pointer.rs), Dnode (phys/dnode.rs),
      ObjectSet (phys/object_set.rs, zil.rs), Zap (phys/zap.rs), Dsl
      (phys/dsl.rs), Uberblock (phys/uberblock.rs, spa.rs), Label
      (phys/label.rs): the records of a pool.  Acl (phys/acl.rs), Zpl
      (phys/zpl.rs), SpaceMap (phys/space_map.rs), BpObject
      (phys/block_pointer.rs): those that no path from the devices to a file
      reads.  FixedStr (util/fixed_str.rs), Vocab (phys/pool.rs, vdev.rs,
      sector.rs), Feature (phys/feature.rs): strings of fixed capacity, the
      named constants of a configuration, and sets of features.  LabelConfig
      (phys/label.rs): a configuration as a typed record.
    - Stream, Fletcher, Sha256 (checksum/): the streaming hashers.  Simd: the
      x86 vector registers and the intrinsics that are used; FletcherSimd
      (checksum/fletcher2.rs, fletcher4.rs): the vector implementations.
      Simd32: registers by their 32-bit lanes, and the SHA instructions;
      Sha256Simd (checksum/sha256.rs): the BMI, SSSE3, AVX, AVX2 and SHA
      implementations.
      LabelChecksum (checksum/label.rs): the signature of label blocks.
    - Lzjb (compression/lzjb.rs), Compress (compress.rs): decompression;
      Cksum (cksum.rs): the check of a block.  [Build] in Cksum holds the Cargo
      features and the functions of the crates that are called (SHA-512/256,
      BLAKE3, LZ4, zlib, zstd), and [BuildLaws] what they promise.
    - Vdev, Heal (vdev.rs): reading a block from a disk, a mirror or RAID-Z1.
    - FileRead (file.rs): the block tree of an object.
    - Walk, WalkSafe (walk.rs): objects and ZAP listings.
    - Dataset (dataset.rs): datasets and paths.
    - Nv, NvSpec (phys/nv.rs): the name-value lists of a label.
    - Pool, PoolSpec (pool.rs): importing a pool.
    - Zfs (lib.rs): the interface of the crate.
    - Safe, Session: importing and serving requests on devices that return
      anything; the rules for panics that only a named fault allows.
    - ErrorText, ErrorRecords, ErrorConfig (every error type, the most
      of them in phys/): the texts and sources of errors behind the
      class [StdError].
    - Clients (examples/zfsdump.rs, fuzz/fuzz_targets/): the inspection tool and
      the fuzz targets, programs on the interface.

    ** What is shown

    - Refinement.  A pool is described by abstract objects: what the labels
      say ([description] in PoolSpec), the tree of datasets and the tree of files
      (Dataset), the flat bytes of an object (FileRead).  When the devices hold
      them, importing gives what the labels say ([import_refines]), opening and
      resolving are lookups in the trees ([open_dataset_refines],
      [resolve_path_refines]), reading, [stat] and [exists] are lookups with the
      documented limits and errors ([files_refine]) and a range of an object is a slice of
      its bytes ([read_range_exact]).  [imported_pool_reads] composes them from
      the devices to the file, and [dump_prints] to the output of the
      inspection tool.
    - Integrity.  Whatever the devices answer, a block that is returned matches
      the checksum of its pointer ([read_is_authentic], with
      [verify_block_verdict]); a mirror with one good copy and a RAID-Z1 with
      one bad column read ([mirror_heals], [raidz1_heals],
      [raidz_map_geometry]); the newest valid uberblock is selected
      ([uberblock_newest]).
    - Hash functions and compression.  SHA-256 is FIPS 180-4
      ([sha256_refines_fips]) in every implementation
      ([sha256_any_implementation]); the vector implementations of Fletcher-4
      agree with the one-pass definition whatever the split
      ([fletcher4_simd_any_split], as [fletcher4_any_split] for the scalar
      ones), the ones for AVX-512 excepted ([fletcher4_avx512_forgets]); LZJB decompression
      inverts compression ([lzjb_roundtrip]).
    - Records.  Round trips through the encoders, and decoding of the on-disk
      layouts where an encoder cannot succeed ([bp_roundtrip],
      [uberblock_roundtrip], [dataset_roundtrip], [zap_leaf_roundtrip],
      [wire_roundtrip], [dnode_decodes_layout], [object_set_decodes_layout]);
      words that decode are the words that encode ([space_map_entry_exact],
      [bp_object_exact]); what lists and labels say is read back
      ([nv_reads_back], [nv_lists_exact], [label_config_reads_back],
      [peek_reads_label], [label_offsets_match]); ZAP and directory listings are
      what their blocks stand for ([zap_micro_lists], [zap_fat_lists],
      [read_object_exact], [read_dir_lists]); a set of features is a finite set
      of the named ones ([feature_set_refines]).
    - Totality and bounds, on any input: [read_is_total], [read_range_total],
      [decompress_exact_size], [lzjb_decompress_total], [dnode_decode_safe],
      [uberblock_decode_safe], [nv_reachable_total].  [hostile_devices] composes
      them: whatever the devices return, importing and serving any requests
      panics on a single disk or a mirror only through a ZAP object whose first
      block is shorter than a word, answers stay within their limits and the
      members are only read; [clients_survive] says so of the fuzz targets and
      the tool, on labels that do not describe RAID-Z and on Unicode arguments.
      [read_is_total] covers RAID-Z1 for addresses below 2^54 sectors;
      [read_range_total] is for a single disk or a mirror.  [datasets_all_listed] adds that within the bounds no dataset is
      missed.
    - Errors.  The text of an error ends in the texts of all its causes, and no
      two error types share one, three texts excepted ([error_texts]).
    - Where the code does otherwise than meant: [zap_panics_on_short_block],
      [l2cache_never_decodes], [fletcher4_avx512_forgets], and, outside the
      main list, [directory_encoding_is_short], [fletcher2_avx512_forgets],
      [dnode_never_encodes], [embedded_never_encodes], [label_offset_wraps],
      [raidz_offset_overflows], [dataset_flags_misattributed],
      [endian_str_cut] and [walk_budget_unused].

    ** Fuel

    Loops that are not structural take a number of turns that the code cannot
    exceed.  Where running out would cut a loop short it gives [Panic], and the
    totality theorems exclude it.  The LZJB and ZLE decoders take the size of the
    output, each turn producing a byte at least; the LZJB compressor the length
    of its source, each turn consuming one; [range_loop] the number of bytes
    asked for, each turn filling at least one; the micro ZAP iterator one more
    than the bytes of its block; [chunks_loop] two more than the chunks of a
    leaf, the code's own guard stopping it earlier; [each_pair] of a name-value
    list the length of its input, since each pair takes at least eight bytes;
    [datasets] 256 turns, since every path of its queue is one of at most 256
    listed paths.  For [find_null], [chunks_exact], [leaf_loop] and
    [leaf_blocks] the number of turns is the bound of the loop in the code (the
    positions left, the length, the chunks of a leaf, the largest number of
    leaf blocks), and reaching it ends the loop as it does there;
    [utf8_lossy] takes one more than the bytes left, and consumes one a turn.
    [take_all] of an access control list takes one more than an eighth of its
    bytes, each entry being eight at least; [fold_pairs] what [each_pair] takes;
    [collect] of a compatibility list one more than its bytes; [next_loop] and
    [collect] of a feature set run over the features there are; [schedule_loop]
    and [sha_loop] of SHA-256 one turn more than their bounds of 48 and 52
    rounds allow.

    ** Not modelled

    Which vector implementations are compiled and what the processor supports
    are decided by features and by a module that the crate does not have; the
    block path uses the scalar ones, and the vector ones are modelled apart for
    a little-endian target. phys/endian.rs is modelled though no module of the
    crate declares it. A RAID-Z layout is outside [hostile_devices] and
    [clients_survive], since the offsets of its columns can overflow. A closed
    standard output, on which printing panics, is outside the tool. Module roots, tests and the derived
    [Debug] of types other than the reader's error are left out. Memory is
    unbounded and devices are read in sequence, as in the code. *)

From Stdlib Require Export ZArith Lia Bool.
From stdpp Require Export base tactics numbers list option strings.

#[global] Open Scope Z_scope.
#[global] Open Scope list_scope.

(** ** Outcomes

    A Rust function of type [Result<A, E>] becomes a function into
    [outcome E A].  The third constructor is a Rust panic: an index out of
    range, a failed [unwrap] or an arithmetic overflow with overflow checks
    enabled. *)
Inductive outcome (E A : Type) : Type :=
| Ok (a : A)
| Err (e : E)
| Panic.
Arguments Ok {E A} a.
Arguments Err {E A} e.
Arguments Panic {E A}.

#[global] Instance outcome_ret {E} : MRet (outcome E) := fun A a => Ok a.
#[global] Instance outcome_bind {E} : MBind (outcome E) :=
  fun A B f m => match m with Ok a => f a | Err e => Err e | Panic => Panic end.

#[global] Instance outcome_fmap {E} : FMap (outcome E) :=
  fun A B f m => match m with Ok a => Ok (f a) | Err e => Err e | Panic => Panic end.

(** [o.ok_or(e)?] *)
Definition ok_or {E A} (o : option A) (e : E) : outcome E A :=
  match o with Some a => Ok a | None => Err e end.

(** [o.unwrap()], and indexing a slice. *)
Definition unwrap {E A} (o : option A) : outcome E A :=
  match o with Some a => Ok a | None => Panic end.

(** [if b { return Err(e) }] *)
Definition guard_err {E} (b : bool) (e : E) : outcome E unit :=
  if b then Err e else Ok tt.

Definition map_err {E F A} (f : E -> F) (m : outcome E A) : outcome F A :=
  match m with Ok a => Ok a | Err e => Err (f e) | Panic => Panic end.

(** [m.ok()] on a computation that does not panic. *)
Definition ok {E A} (m : outcome E A) : option A :=
  match m with Ok a => Some a | _ => None end.

(** [safe P m]: [m] does not panic, and a value it returns satisfies [P]. *)
Definition safe {E A} (P : A -> Prop) (m : outcome E A) : Prop :=
  match m with Ok a => P a | Err _ => True | Panic => False end.

Lemma safe_bind {E A B} (P : A -> Prop) (Q : B -> Prop)
    (m : outcome E A) (f : A -> outcome E B) :
  safe P m -> (forall a, P a -> safe Q (f a)) -> safe Q (m ≫= f).
Proof. destruct m; cbn; auto. Qed.

Lemma safe_mono {E A} (P Q : A -> Prop) (m : outcome E A) :
  safe P m -> (forall a, P a -> Q a) -> safe Q m.
Proof. destruct m; cbn; auto. Qed.

(** No panic unless [F]: the fault that a panic stands for. *)
Definition safe_upto {E A} (F : Prop) (P : A -> Prop) (m : outcome E A) : Prop :=
  match m with Ok a => P a | Err _ => True | Panic => F end.
Lemma safe_upto_safe {E A} (F : Prop) (P : A -> Prop) (m : outcome E A) : safe P m -> safe_upto F P m.
Proof. now destruct m. Qed.

Lemma safe_map_err {E F A} (P : A -> Prop) (f : E -> F) (m : outcome E A) :
  safe P m -> safe P (map_err f m).
Proof. destruct m; cbn; auto. Qed.

Lemma safe_ok_or {E A} (P : A -> Prop) (o : option A) (e : E) :
  (forall a, o = Some a -> P a) -> safe P (ok_or o e).
Proof. destruct o; cbn; auto. Qed.

Lemma safe_guard {E} (b : bool) (e : E) :
  safe (fun _ => b = false) (guard_err b e).
Proof. destruct b; cbn; auto. Qed.

(** ** State passing with errors

    [SM S E A] is the type of code that mutates a state [S] (a decoder, an
    encoder, the pool members) and returns a [Result<A, E>].  The state that
    an early return leaves behind is kept. *)
Definition SM (S E A : Type) : Type := S -> outcome E A * S.

#[global] Instance SM_ret {S E} : MRet (SM S E) := fun A a s => (Ok a, s).
#[global] Instance SM_bind {S E} : MBind (SM S E) :=
  fun A B f m s =>
    match m s with
    | (Ok a, s') => f a s'
    | (Err e, s') => (Err e, s')
    | (Panic, s') => (Panic, s')
    end.

(** A state transformer given as a function. *)
Definition sm_fun {S E A} (f : S -> outcome E A * S) : SM S E A := f.
Definition sm_err {S E A} (e : E) : SM S E A := fun s => (Err e, s).
Definition sm_panic {S E A} : SM S E A := fun s => (Panic, s).
Definition sm_get {S E} : SM S E S := fun s => (Ok s, s).
Definition sm_put {S E} (s : S) : SM S E unit := fun _ => (Ok tt, s).
Definition sm_gets {S E A} (f : S -> A) : SM S E A := fun s => (Ok (f s), s).
Definition sm_lift {S E A} (m : outcome E A) : SM S E A := fun s => (m, s).
Definition sm_map_err {S E F A} (f : E -> F) (m : SM S E A) : SM S F A :=
  fun s => let '(r, s') := m s in (map_err f r, s').
(** A [match] on the [Result] of a call, instead of [?]. *)
Definition sm_catch {S E F A B} (m : SM S E A)
    (k : A -> SM S F B) (h : E -> SM S F B) : SM S F B :=
  fun s => match m s with
           | (Ok a, s') => k a s'
           | (Err e, s') => h e s'
           | (Panic, s') => (Panic, s')
           end.
Definition sm_guard {S E} (b : bool) (e : E) : SM S E unit :=
  sm_lift (guard_err b e).

(** [wp m Q s]: the outcome and the state in which [m] ends from [s] satisfy
    [Q]. *)
Definition wp {S E A} (m : SM S E A) (Q : outcome E A -> S -> Prop) (s : S) : Prop :=
  Q (fst (m s)) (snd (m s)).

(** [hoare I m P]: from every state in [I], [m] does not panic, ends in a
    state in [I] and returns only values in [P]. *)
Definition hoare {S E A} (I : S -> Prop) (m : SM S E A) (P : A -> Prop) : Prop :=
  forall s, I s -> wp m (fun r s' => I s' /\ safe P r) s.

Section hoare_rules.
Context {S : Type} (I : S -> Prop).

Lemma hoare_ret {E A} (a : A) (P : A -> Prop) :
  P a -> hoare (E := E) I (mret a) P.
Proof. intros HP s Hs; unfold wp; cbn; auto. Qed.

Lemma hoare_bind {E A B} (m : SM S E A) (f : A -> SM S E B) P Q :
  hoare I m P -> (forall a, P a -> hoare I (f a) Q) -> hoare I (m ≫= f) Q.
Proof.
  intros Hm Hf s Hs. specialize (Hm s Hs). unfold wp in *.
  cbn. unfold mbind, SM_bind.
  destruct (m s) as [[a|e|] s']; cbn in *; [|tauto|tauto].
  destruct Hm as [Hs' Ha]. apply (Hf a Ha s' Hs').
Qed.

Lemma hoare_mono {E A} (m : SM S E A) (P Q : A -> Prop) :
  hoare I m P -> (forall a, P a -> Q a) -> hoare I m Q.
Proof.
  intros Hm HPQ s Hs. destruct (Hm s Hs) as [H1 H2].
  split; [exact H1 | eapply safe_mono; eauto].
Qed.

Lemma hoare_err {E A} (e : E) (P : A -> Prop) : hoare I (sm_err e) P.
Proof. intros s Hs; unfold wp; cbn; auto. Qed.

Lemma hoare_lift {E A} (m : outcome E A) (P : A -> Prop) :
  safe P m -> hoare I (sm_lift m) P.
Proof. intros Hm s Hs; unfold wp; cbn; auto. Qed.

Lemma hoare_guard {E} (b : bool) (e : E) :
  hoare I (sm_guard b e) (fun _ => b = false).
Proof. apply hoare_lift, safe_guard. Qed.

Lemma hoare_map_err {E F A} (f : E -> F) (m : SM S E A) P :
  hoare I m P -> hoare I (sm_map_err f m) P.
Proof.
  intros Hm s Hs. specialize (Hm s Hs). unfold wp, sm_map_err in *.
  destruct (m s) as [r s']; cbn in *. destruct Hm; split; auto.
  now apply safe_map_err.
Qed.

Lemma hoare_catch {E F A B} (m : SM S E A) (k : A -> SM S F B) h P Q :
  hoare I m P -> (forall a, P a -> hoare I (k a) Q) ->
  (forall e, hoare I (h e) Q) -> hoare I (sm_catch m k h) Q.
Proof.
  intros Hm Hk Hh s Hs. specialize (Hm s Hs). unfold wp, sm_catch in *.
  destruct (m s) as [[a|e|] s']; cbn in *.
  - destruct Hm as [Hs' Ha]. apply (Hk a Ha s' Hs').
  - apply (Hh e s'); tauto.
  - tauto.
Qed.

Lemma hoare_get {E} : hoare (E := E) I sm_get I.
Proof. intros s Hs; unfold wp; cbn; auto. Qed.

Lemma hoare_gets {E A} (f : S -> A) (P : A -> Prop) :
  (forall s, I s -> P (f s)) -> hoare (E := E) I (sm_gets f) P.
Proof. intros HP s Hs; unfold wp; cbn; auto. Qed.

Lemma hoare_put {E} (s0 : S) (P : unit -> Prop) :
  I s0 -> P tt -> hoare (E := E) I (sm_put s0) P.
Proof. intros Hs0 HP s Hs; unfold wp; cbn; auto. Qed.
End hoare_rules.

(** [hoare_upto F I m P]: as [hoare], but a panic is allowed where [F] holds,
    the fault that is to blame for it. *)
Definition ends_upto {S E A} (F : Prop) (I : S -> Prop) (P : A -> Prop) (r : outcome E A) (s : S) : Prop :=
  I s /\ safe_upto F P r.
Definition hoare_upto {S E A} (F : Prop) (I : S -> Prop) (m : SM S E A) (P : A -> Prop) : Prop :=
  forall s, I s -> wp m (ends_upto F I P) s.

Section upto_rules.
Context {S : Type} (F : Prop) (I : S -> Prop).

Lemma wp_bind {E A B} (m : SM S E A) (f : A -> SM S E B) Q s :
  wp m (fun r s' => match r with Ok a => wp (f a) Q s' | Err e => Q (Err e) s' | Panic => Q Panic s' end) s ->
  wp (m ≫= f) Q s.
Proof. unfold wp, mbind, SM_bind. now destruct (m s) as [[a|e|] s']. Qed.

Lemma wp_upto_bind {E A B} (m : SM S E A) (f : A -> SM S E B) P Q s :
  wp m (ends_upto F I P) s -> (forall a s', m s = (Ok a, s') -> I s' -> P a -> wp (f a) (ends_upto F I Q) s') ->
  wp (m ≫= f) (ends_upto F I Q) s.
Proof.
  intros Hm Hf. apply wp_bind. unfold wp in *. destruct (m s) as [[a|e|] s']; cbn in *; destruct Hm; [|done..]. now apply Hf.
Qed.

(** A pure step leaves the state alone. *)
Lemma wp_upto_lift {E A B} (m : outcome E A) (f : A -> SM S E B) P Q s :
  I s -> safe P m -> (forall a, m = Ok a -> P a -> wp (f a) (ends_upto F I Q) s) ->
  wp (sm_lift m ≫= f) (ends_upto F I Q) s.
Proof. intros Hs Hm Hf. apply wp_bind. destruct m; cbn in *; [now apply Hf|done..]. Qed.

Lemma upto_hoare {E A} (m : SM S E A) P : hoare I m P -> hoare_upto F I m P.
Proof. intros Hm s Hs. destruct (Hm s Hs). split; [done|]. now apply safe_upto_safe. Qed.

Lemma upto_bind {E A B} (m : SM S E A) (f : A -> SM S E B) P Q :
  hoare_upto F I m P -> (forall a, P a -> hoare_upto F I (f a) Q) -> hoare_upto F I (m ≫= f) Q.
Proof. intros Hm Hf s Hs. eapply wp_upto_bind; [exact (Hm s Hs)|]. intros a s' _ Hs' Ha. now apply Hf. Qed.

Lemma upto_mono {E A} (m : SM S E A) (P Q : A -> Prop) :
  hoare_upto F I m P -> (forall a, P a -> Q a) -> hoare_upto F I m Q.
Proof.
  intros Hm HPQ s Hs. specialize (Hm s Hs). unfold wp, ends_upto in *. destruct (m s) as [[a|e|] s']; cbn in *; intuition.
Qed.

Lemma upto_catch {E G A B} (m : SM S E A) (k : A -> SM S G B) h P Q :
  hoare_upto F I m P -> (forall a, P a -> hoare_upto F I (k a) Q) ->
  (forall e, hoare_upto F I (h e) Q) -> hoare_upto F I (sm_catch m k h) Q.
Proof.
  intros Hm Hk Hh s Hs. specialize (Hm s Hs). unfold wp, sm_catch, ends_upto in *.
  destruct (m s) as [[a|e|] s']; cbn in *; destruct Hm; [now apply Hk|now apply Hh|done].
Qed.
End upto_rules.

Lemma SM_run {S E A B} (m : SM S E A) (f : A -> SM S E B) s a s' : m s = (Ok a, s') -> (m ≫= f) s = f a s'.
Proof. intros Hm. unfold mbind, SM_bind. now rewrite Hm. Qed.

Lemma SM_assoc {S E A B C} (m : SM S E A) (f : A -> SM S E B) (g : B -> SM S E C) s :
  ((m ≫= f) ≫= g) s = (m ≫= (fun a => f a ≫= g)) s.
Proof. unfold mbind, SM_bind. now destruct (m s) as [[a|e|] s1]. Qed.
Lemma SM_run_lift {S E A B} (x : outcome E A) (f : A -> SM S E B) s a : x = Ok a -> (sm_lift x ≫= f) s = f a s.
Proof. now intros ->. Qed.

(** Binding is monotone in success: what a bind that succeeds says. *)
Lemma SM_bind_ok {S E A B} (m : SM S E A) (f : A -> SM S E B) s b s' :
  (m ≫= f) s = (Ok b, s') <-> exists a s1, m s = (Ok a, s1) /\ f a s1 = (Ok b, s').
Proof.
  unfold mbind, SM_bind. destruct (m s) as [[a|e|] s1]; split.
  - eauto.
  - intros (a' & s1' & [= <- <-] & H); exact H.
  - discriminate.
  - intros (? & ? & [=] & _).
  - discriminate.
  - intros (? & ? & [=] & _).
Qed.

(** [m] returns only values in [P]. *)
Definition returns {S E A} (P : A -> Prop) (m : SM S E A) : Prop :=
  forall s a s', m s = (Ok a, s') -> P a.

Lemma returns_bind {S E A C} (P : A -> Prop) (Q : C -> Prop) (m : SM S E A) (f : A -> SM S E C) :
  returns P m -> (forall a, P a -> returns Q (f a)) -> returns Q (m ≫= f).
Proof. intros Hm Hf s c s' (a & s1 & H1 & H2)%SM_bind_ok. eapply Hf; eauto. Qed.
Lemma returns_lift {S E A} (P : A -> Prop) (m : outcome E A) :
  (forall a, m = Ok a -> P a) -> returns P (sm_lift (S := S) m).
Proof. intros H s a s' [= Hm _]. auto. Qed.
Lemma returns_ret {S E A} (P : A -> Prop) (a : A) : P a -> returns P (mret a : SM S E A).
Proof. now intros H s b s' [= <- _]. Qed.
Lemma returns_err {S E A} (P : A -> Prop) (e : E) : returns P (sm_err e : SM S E A).
Proof. now intros s a s'. Qed.
Lemma returns_panic {S E A} (P : A -> Prop) : returns P (sm_panic : SM S E A).
Proof. now intros s a s'. Qed.
Lemma returns_true {S E A} (m : SM S E A) : returns (fun _ => True) m.
Proof. done. Qed.
Lemma returns_catch {S E F A C} (P : A -> Prop) (Q : C -> Prop) (m : SM S E A)
    (k : A -> SM S F C) (h : E -> SM S F C) :
  returns P m -> (forall a, P a -> returns Q (k a)) -> (forall e, returns Q (h e)) ->
  returns Q (sm_catch m k h).
Proof.
  intros Hm Hk Hh s c s'. unfold sm_catch. destruct (m s) as [[a|e|] s1] eqn:E1; [|apply Hh|done].
  apply Hk. eapply Hm; eauto.
Qed.

Lemma outcome_bind_ok {E A B} (m : outcome E A) (f : A -> outcome E B) b :
  m ≫= f = Ok b <-> exists a, m = Ok a /\ f a = Ok b.
Proof.
  destruct m; cbn; split.
  - eauto.
  - now intros (? & [= <-] & ?).
  - discriminate.
  - now intros (? & [=] & ?).
  - discriminate.
  - now intros (? & [=] & ?).
Qed.

(** ** Machine integers

    Unsigned integers are kept as [Z]; [wrap w] is the wrap-around of a
    [w]-bit register and [fits w] its range. *)
Definition wrap (w x : Z) : Z := x mod 2 ^ w.
Definition fits (w x : Z) : Prop := 0 <= x < 2 ^ w.
Definition fitsb (w x : Z) : bool := (0 <=? x) && (x <? 2 ^ w).

Lemma fitsb_spec w x : fitsb w x = true <-> fits w x.
Proof. unfold fitsb, fits; rewrite andb_true_iff, Z.leb_le, Z.ltb_lt; lia. Qed.

Lemma wrap_fits w x : 0 <= w -> fits w (wrap w x).
Proof. intros; apply Z.mod_pos_bound; lia. Qed.

Lemma wrap_id w x : fits w x -> wrap w x = x.
Proof. intros; now apply Z.mod_small. Qed.

(** [a.checked_add(b)], [a.checked_mul(b)] and [a.checked_sub(b)] on an
    unsigned type of [w] bits. *)
Definition checked_add (w a b : Z) : option Z :=
  if a + b <? 2 ^ w then Some (a + b) else None.
Definition checked_mul (w a b : Z) : option Z :=
  if a * b <? 2 ^ w then Some (a * b) else None.
Definition checked_sub (a b : Z) : option Z :=
  if b <=? a then Some (a - b) else None.
Definition saturating_sub (a b : Z) : Z := Z.max 0 (a - b).

Lemma checked_add_Some w a b c : checked_add w a b = Some c -> c = a + b /\ a + b < 2 ^ w.
Proof. unfold checked_add. destruct (Z.ltb_spec (a + b) (2 ^ w)); [|done]. now intros [= <-]. Qed.
Lemma checked_add_ok w a b : a + b < 2 ^ w -> checked_add w a b = Some (a + b).
Proof. intros. unfold checked_add. now destruct (Z.ltb_spec (a + b) (2 ^ w)); [|lia]. Qed.
Lemma checked_mul_ok w a b : a * b < 2 ^ w -> checked_mul w a b = Some (a * b).
Proof. intros. unfold checked_mul. now destruct (Z.ltb_spec (a * b) (2 ^ w)); [|lia]. Qed.
Lemma checked_sub_ok a b : b <= a -> checked_sub a b = Some (a - b).
Proof. intros. unfold checked_sub. now destruct (Z.leb_spec b a); [|lia]. Qed.

(** [x as iN]: the two's complement reading of a [w]-bit word, and back. *)
Definition to_signed (w x : Z) : Z := if x <? 2 ^ (w - 1) then x else x - 2 ^ w.
Definition of_signed (w x : Z) : Z := x mod 2 ^ w.

Lemma of_to_signed w x : 0 < w -> fits w x -> of_signed w (to_signed w x) = x.
Proof.
  intros Hw [H0 H1]. unfold of_signed, to_signed.
  destruct (Z.ltb_spec x (2 ^ (w - 1))); [now apply Z.mod_small|].
  replace (x - 2 ^ w) with (x + (-1) * 2 ^ w) by lia.
  rewrite Z.mod_add by lia. now apply Z.mod_small.
Qed.

Lemma to_of_signed w x :
  0 < w -> - 2 ^ (w - 1) <= x < 2 ^ (w - 1) -> to_signed w (of_signed w x) = x.
Proof.
  intros Hw Hx. unfold of_signed, to_signed.
  assert (H2 : 2 ^ w = 2 * 2 ^ (w - 1)).
  { rewrite <- Z.pow_succ_r by lia. f_equal; lia. }
  destruct (Z.le_gt_cases 0 x).
  - rewrite Z.mod_small by lia. destruct (Z.ltb_spec x (2 ^ (w - 1))); lia.
  - rewrite <- (Z.mod_add x 1) by lia. rewrite Z.mod_small by lia.
    destruct (Z.ltb_spec (x + 1 * 2 ^ w) (2 ^ (w - 1))); lia.
Qed.

(** ** Byte strings *)
Abbreviation bytes := (list Z).
Definition is_byte (b : Z) : Prop := 0 <= b < 256.
Definition is_byteb (b : Z) : bool := (0 <=? b) && (b <? 256).
Abbreviation bytes_ok := (Forall is_byte).

#[global] Instance is_byte_dec b : Decision (is_byte b).
Proof. unfold is_byte; apply _. Defined.

(** [l.len()], as a [usize]. *)
Definition blen {A} (l : list A) : Z := Z.of_nat (length l).

(** The first [n], and all but the first [n], elements: clipped at the end of
    the list, so that they can be evaluated at any [n]. *)
Definition ztake {A} (n : Z) (l : list A) : list A :=
  take (Z.to_nat (Z.min n (blen l))) l.
Definition zdrop {A} (n : Z) (l : list A) : list A :=
  drop (Z.to_nat (Z.min n (blen l))) l.

(** [l[i]]: [None] out of range. *)
Definition zget {A} (l : list A) (i : Z) : option A :=
  if (0 <=? i) && (i <? blen l) then l !! Z.to_nat i else None.

(** [l.get(lo..hi)] *)
Definition get_range {A} (l : list A) (lo hi : Z) : option (list A) :=
  if (0 <=? lo) && (lo <=? hi) && (hi <=? blen l)
  then Some (ztake (hi - lo) (zdrop lo l)) else None.

(** [vec![x; n]] *)
Definition zrep {A} (n : Z) (x : A) : list A := replicate (Z.to_nat n) x.

Section zlists.
Context {A : Type}.
Implicit Types (l k : list A) (n m lo hi : Z).

Lemma blen_nonneg l : 0 <= blen l.
Proof. unfold blen; lia. Qed.

Lemma blen_app l k : blen (l ++ k) = blen l + blen k.
Proof. unfold blen; rewrite length_app; lia. Qed.

Lemma blen_cons (x : A) l : blen (x :: l) = 1 + blen l.
Proof. unfold blen; cbn [length]; lia. Qed.

Lemma blen_nil : blen (@nil A) = 0.
Proof. reflexivity. Qed.

Lemma blen_0 l : blen l = 0 -> l = [].
Proof. destruct l; [easy|]. rewrite blen_cons. pose proof (blen_nonneg l); lia. Qed.

Lemma blen_zrep n (x : A) : 0 <= n -> blen (zrep n x) = n.
Proof. unfold blen, zrep; rewrite length_replicate; lia. Qed.

Lemma ztake_take n l : 0 <= n -> ztake n l = take (Z.to_nat n) l.
Proof.
  unfold ztake, blen; intros. destruct (Z.le_gt_cases n (Z.of_nat (length l))).
  - now rewrite Z.min_l by lia.
  - rewrite Z.min_r by lia. rewrite !take_ge; auto; lia.
Qed.

Lemma zdrop_drop n l : 0 <= n -> zdrop n l = drop (Z.to_nat n) l.
Proof.
  unfold zdrop, blen; intros. destruct (Z.le_gt_cases n (Z.of_nat (length l))).
  - now rewrite Z.min_l by lia.
  - rewrite Z.min_r by lia. rewrite !drop_ge; auto; lia.
Qed.

Lemma blen_ztake n l : 0 <= n -> blen (ztake n l) = Z.min n (blen l).
Proof. intros; unfold blen, ztake; rewrite length_take; unfold blen; lia. Qed.

Lemma blen_zdrop n l : 0 <= n -> blen (zdrop n l) = Z.max 0 (blen l - n).
Proof. intros; unfold zdrop; unfold blen; rewrite length_drop; unfold blen; lia. Qed.

Lemma ztake_zdrop n l : ztake n l ++ zdrop n l = l.
Proof. apply take_drop. Qed.

Lemma ztake_app_le n l k : 0 <= n <= blen l -> ztake n (l ++ k) = ztake n l.
Proof.
  intros. rewrite !ztake_take by lia. apply take_app_le. unfold blen in *; lia.
Qed.

Lemma ztake_app_ge n l k : blen l <= n -> ztake n (l ++ k) = l ++ ztake (n - blen l) k.
Proof.
  intros. pose proof (blen_nonneg l). rewrite !ztake_take by lia. rewrite take_app_ge by (unfold blen in *; lia).
  do 2 f_equal. unfold blen. lia.
Qed.

Lemma ztake_app_length l k : ztake (blen l) (l ++ k) = l.
Proof.
  rewrite ztake_take by apply blen_nonneg. unfold blen. rewrite Nat2Z.id.
  apply take_app_length.
Qed.

Lemma ztake_app_exact n l k : n = blen l -> ztake n (l ++ k) = l.
Proof. intros ->. apply ztake_app_length. Qed.

Lemma zdrop_app_length l k : zdrop (blen l) (l ++ k) = k.
Proof.
  rewrite zdrop_drop by apply blen_nonneg. unfold blen. rewrite Nat2Z.id.
  apply drop_app_length.
Qed.

Lemma zdrop_app_le n l k : 0 <= n <= blen l -> zdrop n (l ++ k) = zdrop n l ++ k.
Proof.
  intros. rewrite !zdrop_drop by lia. apply drop_app_le. unfold blen in *; lia.
Qed.

Lemma ztake_ge n l : blen l <= n -> ztake n l = l.
Proof.
  intros. pose proof (blen_nonneg l). rewrite ztake_take by lia.
  apply take_ge; unfold blen in *; lia.
Qed.

Lemma zdrop_ge n l : blen l <= n -> zdrop n l = [].
Proof.
  intros. pose proof (blen_nonneg l). rewrite zdrop_drop by lia.
  apply drop_ge; unfold blen in *; lia.
Qed.

Lemma zdrop_0 l : zdrop 0 l = l.
Proof. now rewrite zdrop_drop by lia. Qed.

Lemma zdrop_zdrop n m l : 0 <= n -> 0 <= m -> zdrop n (zdrop m l) = zdrop (m + n) l.
Proof.
  intros. rewrite !zdrop_drop by lia. rewrite drop_drop.
  f_equal; lia.
Qed.

Lemma ztake_ztake n m l : 0 <= n <= m -> ztake n (ztake m l) = ztake n l.
Proof.
  intros. rewrite !ztake_take by lia. rewrite take_take. f_equal; lia.
Qed.

Lemma zdrop_ztake n m l :
  0 <= n <= m -> zdrop n (ztake m l) = ztake (m - n) (zdrop n l).
Proof.
  intros. rewrite !zdrop_drop, !ztake_take by lia.
  rewrite skipn_firstn_comm. f_equal; lia.
Qed.

Lemma get_range_Some l lo hi r :
  get_range l lo hi = Some r <->
  0 <= lo <= hi /\ hi <= blen l /\ r = ztake (hi - lo) (zdrop lo l).
Proof.
  unfold get_range.
  destruct (Z.leb_spec 0 lo), (Z.leb_spec lo hi), (Z.leb_spec hi (blen l)); cbn;
    split; try discriminate; try lia; try (intros [= <-]; auto with lia);
    intros (? & ? & ->); auto.
Qed.

Lemma blen_get_range l lo hi r : get_range l lo hi = Some r -> blen r = hi - lo.
Proof.
  rewrite get_range_Some. intros (? & ? & ->).
  rewrite blen_ztake, blen_zdrop by lia. lia.
Qed.

Lemma get_range_ok l lo hi :
  0 <= lo <= hi -> hi <= blen l ->
  get_range l lo hi = Some (ztake (hi - lo) (zdrop lo l)).
Proof. intros; apply get_range_Some; auto. Qed.

Lemma get_range_past l lo hi : blen l < hi -> get_range l lo hi = None.
Proof.
  intros. unfold get_range. destruct (0 <=? lo), (lo <=? hi), (Z.leb_spec hi (blen l)); cbn; done || lia.
Qed.

Lemma get_range_middle l k r :
  get_range (l ++ k ++ r) (blen l) (blen l + blen k) = Some k.
Proof.
  pose proof (blen_nonneg l); pose proof (blen_nonneg k); pose proof (blen_nonneg r).
  rewrite get_range_ok by (rewrite ?blen_app; lia). rewrite zdrop_app_length.
  replace (blen l + blen k - blen l) with (blen k) by lia. now rewrite ztake_app_length.
Qed.

Lemma get_range_at bs l k r lo hi :
  bs = l ++ k ++ r -> lo = blen l -> hi = blen l + blen k -> get_range bs lo hi = Some k.
Proof. intros -> -> ->. apply get_range_middle. Qed.

Lemma zget_lookup l i x : zget l i = Some x -> 0 <= i < blen l /\ l !! Z.to_nat i = Some x.
Proof.
  unfold zget. destruct (Z.leb_spec 0 i), (Z.ltb_spec i (blen l)); cbn; try discriminate.
  auto.
Qed.

Lemma zget_in l i : 0 <= i < blen l -> exists x, zget l i = Some x.
Proof.
  unfold zget, blen. intros [H0 H1].
  destruct (Z.leb_spec 0 i), (Z.ltb_spec i (Z.of_nat (length l))); cbn; try lia.
  apply lookup_lt_is_Some. lia.
Qed.

Lemma zget_none l i : blen l <= i -> zget l i = None.
Proof.
  unfold zget. intros. destruct (Z.leb_spec 0 i), (Z.ltb_spec i (blen l)); cbn; auto; lia.
Qed.

Lemma zget_elem l i x : zget l i = Some x -> x ∈ l.
Proof. intros (_ & H)%zget_lookup. eapply list_elem_of_lookup_2; eauto. Qed.
End zlists.

Lemma bytes_ok_ztake n l : bytes_ok l -> bytes_ok (ztake n l).
Proof. apply Forall_take. Qed.
Lemma bytes_ok_zdrop n l : bytes_ok l -> bytes_ok (zdrop n l).
Proof. apply Forall_drop. Qed.
Lemma bytes_ok_zrep n : bytes_ok (zrep n 0).
Proof. apply Forall_replicate. unfold is_byte; lia. Qed.
Lemma bytes_ok_get_range l lo hi r :
  bytes_ok l -> get_range l lo hi = Some r -> bytes_ok r.
Proof. intros H (_ & _ & ->)%get_range_Some. now apply bytes_ok_ztake, bytes_ok_zdrop. Qed.

(** The bytes of a string literal. *)
Definition ascii_bytes (s : string) : bytes := (fun c => Z.of_N (Stdlib.Strings.Ascii.N_of_ascii c)) <$> Stdlib.Strings.String.list_ascii_of_string s.

(** ** Fixed-width integers as bytes *)
Fixpoint le_split (n : nat) (x : Z) : bytes :=
  match n with O => [] | S n' => x mod 256 :: le_split n' (x / 256) end.
Fixpoint le_combine (l : bytes) : Z :=
  match l with [] => 0 | b :: l' => b + 256 * le_combine l' end.

Lemma length_le_split n x : length (le_split n x) = n.
Proof. revert x; induction n; cbn; auto. Qed.

Lemma bytes_ok_le_split n x : bytes_ok (le_split n x).
Proof.
  revert x; induction n; cbn; constructor; auto. apply Z.mod_pos_bound; lia.
Qed.

Lemma le_combine_split n x : le_combine (le_split n x) = x mod 256 ^ Z.of_nat n.
Proof.
  revert x; induction n as [|n IH]; intros x.
  - cbn. now rewrite Z.mod_1_r.
  - cbn [le_split le_combine]. rewrite IH, Nat2Z.inj_succ, Z.pow_succ_r by lia.
    rewrite Z.rem_mul_r by lia. reflexivity.
Qed.

Lemma le_combine_bound l : bytes_ok l -> 0 <= le_combine l < 256 ^ blen l.
Proof.
  induction 1 as [|b l Hb Hl IH]; [now vm_compute|].
  rewrite blen_cons. cbn [le_combine]. unfold is_byte in Hb.
  rewrite Z.pow_add_r by (pose proof (blen_nonneg l); lia).
  change (256 ^ 1) with 256. lia.
Qed.

Lemma le_split_combine l : bytes_ok l -> le_split (length l) (le_combine l) = l.
Proof.
  induction 1 as [|b l Hb Hl IH]; [done|]. cbn [le_split le_combine length].
  unfold is_byte in Hb.
  replace (b + 256 * le_combine l) with (b + le_combine l * 256) by lia.
  rewrite Z.mod_add, Z.div_add by lia.
  rewrite (Z.mod_small b), (Z.div_small b), Z.add_0_l, IH by lia. done.
Qed.

(** ** Hint database and tactics *)
Create HintDb zfs discriminated.
#[export] Hint Resolve blen_nonneg bytes_ok_ztake bytes_ok_zdrop bytes_ok_zrep
  bytes_ok_le_split wrap_fits : zfs.
#[export] Hint Resolve returns_lift returns_ret returns_err returns_panic returns_true : zfs.

(** Case analysis on the first boolean comparison of the goal, with its
    meaning as a hypothesis. *)
Ltac zcase :=
  match goal with
  | |- context [Z.leb ?a ?b] => destruct (Z.leb_spec a b)
  | |- context [Z.ltb ?a ?b] => destruct (Z.ltb_spec a b)
  | |- context [Z.eqb ?a ?b] => destruct (Z.eqb_spec a b)
  | |- context [Z.geb ?a ?b] => rewrite (Z.geb_leb a b)
  | |- context [Z.gtb ?a ?b] => rewrite (Z.gtb_ltb a b)
  end.

(** One step of a [hoare] goal. *)
Ltac hstep :=
  first
    [ apply hoare_err
    | apply hoare_ret
    | eapply hoare_bind; [| intros ]
    | apply hoare_map_err ].

(** Unfold the state monad in the goal. *)
Ltac smunfold :=
  unfold mbind, SM_bind, mret, SM_ret, sm_fun, sm_gets, sm_err, sm_panic,
    sm_lift, sm_map_err, sm_catch, sm_guard in *;
  cbv beta zeta in *.

(** ** Bit fields

    Encoders build words with [<<] and [|] and decoders take them apart with
    [>>] and [&]; both sides are brought to sums, quotients and remainders. *)
Lemma lor_shiftl_add lo hi n :
  0 <= n -> 0 <= lo < 2 ^ n -> Z.lor lo (Z.shiftl hi n) = lo + hi * 2 ^ n.
Proof.
  intros Hn Hlo. rewrite Z.shiftl_mul_pow2 by done.
  assert (Hz : Z.land lo (hi * 2 ^ n) = 0).
  { apply Z.bits_inj'; intros i Hi. rewrite Z.land_spec, Z.bits_0.
    destruct (Z.lt_ge_cases i n).
    - rewrite Z.mul_pow2_bits_low by lia. apply andb_false_r.
    - assert (lo = 0 \/ 0 < lo) as [->|] by lia; [now rewrite Z.bits_0|].
      assert (Z.log2 lo < n) by (apply Z.log2_lt_pow2; lia).
      rewrite (Z.bits_above_log2 lo) by lia. done. }
  pose proof (Z.add_lor_land lo (hi * 2 ^ n)). lia.
Qed.

Lemma land_ones_mod x m : 0 <= m -> Z.land x (2 ^ m - 1) = x mod 2 ^ m.
Proof. intros. rewrite <- Z.land_ones by done. now rewrite Z.ones_equiv, <- Z.sub_1_r. Qed.

Lemma shiftr_div x n : 0 <= n -> Z.shiftr x n = x / 2 ^ n.
Proof. apply Z.shiftr_div_pow2. Qed.

(** [(x & (1 << n)) != 0] *)
Definition bit_set (x n : Z) : bool := negb (Z.land x (Z.shiftl 1 n) =? 0).

Lemma bit_set_testbit x n : 0 <= n -> bit_set x n = Z.testbit x n.
Proof.
  intros Hn. unfold bit_set. destruct (Z.testbit x n) eqn:E.
  - destruct (Z.eqb_spec (Z.land x (Z.shiftl 1 n)) 0) as [Hz|]; [|done].
    apply (f_equal (fun v => Z.testbit v n)) in Hz.
    rewrite Z.land_spec, Z.bits_0, E, Z.shiftl_spec, Z.sub_diag in Hz by done. done.
  - replace (Z.land x (Z.shiftl 1 n)) with 0; [done|].
    symmetry. apply Z.bits_inj'; intros i Hi.
    rewrite Z.land_spec, Z.bits_0, Z.shiftl_spec by done.
    destruct (Z.eq_dec i n) as [->|]; [now rewrite E|].
    replace (Z.testbit 1 (i - n)) with false; [apply andb_false_r|].
    symmetry. destruct (Z.lt_ge_cases (i - n) 0); [now apply Z.testbit_neg_r|].
    rewrite Z.bits_above_log2; [done | lia | cbn; lia].
Qed.

Lemma bit_set_div x n : 0 <= n -> bit_set x n = negb ((x / 2 ^ n) mod 2 =? 0).
Proof.
  intros. rewrite bit_set_testbit, Z.testbit_eqb by done.
  pose proof (Z.mod_pos_bound (x / 2 ^ n) 2).
  destruct (Z.eqb_spec ((x / 2 ^ n) mod 2) 1), (Z.eqb_spec ((x / 2 ^ n) mod 2) 0); cbn; lia.
Qed.

(** A field of [m] bits at position [n], above [lo] and below [hi]. *)
Lemma field_at x n m lo f hi :
  0 <= n -> 0 <= m -> 0 <= lo < 2 ^ n -> 0 <= f < 2 ^ m ->
  x = lo + (f + hi * 2 ^ m) * 2 ^ n -> (x / 2 ^ n) mod 2 ^ m = f.
Proof.
  intros Hn Hm Hlo Hf ->. rewrite Z.div_add, (Z.div_small lo) by lia.
  rewrite Z.add_0_l, Z.mod_add by lia. now apply Z.mod_small.
Qed.

(** [lia] with quotients and remainders by constants. *)
Ltac dlia := Z.to_euclidean_division_equations; lia.

(** Split the conjunctions of the goal, leaving ranges such as [fits] whole. *)
Ltac splits := repeat match goal with |- _ /\ _ => split end.
