(* ===== verification/Errors.v ===== *)
(** * The reader's error type

    [Error], [LabelReason] and [Location] of src/error.rs with their stable
    tokens, and the [BlockRead] reader of src/block_read.rs. *)

From S2P Require Import Prelude.

Inductive LabelReason : Type :=
| BadMagic | BadChecksum | NoLabels | PoolGuidMismatch | NotAZfsMember.

Inductive Location : Type :=
| LVdev (guid : Z)
| LUberblock
| LMos
| LDsl (obj : Z)
| LDnode (obj : Z)
| LIndirect (obj level : Z)
| LZap (obj : Z)
| LZpl (obj : Z).

Inductive Error : Type :=
| Io (token : string) (vdev offset : Z)
| BadLabel (r : LabelReason)
| NoValidUberblock
| UnsupportedFeature (t : string)
| UnsupportedTopology (t : string)
| Unsupported (t : string)
| ChecksumMismatch (vdev offset : Z) (what : string)
| Inconsistent (token : string) (where_ : Location)
| UnsupportedCompression (comp : Z)
| BadCompression (comp : Z) (token : string)
| NotFound (component : string)
| NotARegularFile
| NotADirectory
| NotASymlink
| FileTooLarge (size max : Z)
| OutOfMemory (site : string).

#[global] Instance LabelReason_eq_dec : EqDecision LabelReason.
Proof. solve_decision. Defined.
#[global] Instance Location_eq_dec : EqDecision Location.
Proof. solve_decision. Defined.
#[global] Instance Error_eq_dec : EqDecision Error.
Proof. solve_decision. Defined.

Open Scope string_scope.

Definition LabelReason_token (r : LabelReason) : string :=
  match r with
  | BadMagic => "label_bad_magic"
  | BadChecksum => "label_bad_checksum"
  | NoLabels => "label_none"
  | PoolGuidMismatch => "label_pool_guid_mismatch"
  | NotAZfsMember => "label_not_a_member"
  end.

Definition Error_token (e : Error) : string :=
  match e with
  | Io token _ _ | Inconsistent token _ | BadCompression _ token => token
  | BadLabel r => LabelReason_token r
  | NoValidUberblock => "no_valid_uberblock"
  | UnsupportedFeature t | UnsupportedTopology t | Unsupported t => t
  | ChecksumMismatch _ _ what => what
  | UnsupportedCompression _ => "comp_unsupported"
  | NotFound _ => "not_found"
  | NotARegularFile => "not_a_regular_file"
  | NotADirectory => "not_a_directory"
  | NotASymlink => "not_a_symlink"
  | FileTooLarge _ _ => "file_too_large"
  | OutOfMemory site => site
  end.

(** The [Display] instance. *)
Definition Error_display (e : Error) : string := "lamzfs: " ++ Error_token e.

Close Scope string_scope.

(** ** The block reader

    [BlockRead::read_at] fills a buffer of a given length at a byte offset, or
    fails.  The implementation is the embedder's, so it is an operation of a
    class; [read_at_len] is the contract of the trait: on success the whole
    buffer is filled, with bytes. *)
Class BlockRead (R : Type) := {
  read_at : R -> Z -> Z -> option bytes * R;
  read_at_len : forall r off n bs r',
    0 <= n -> read_at r off n = (Some bs, r') -> blen bs = n /\ bytes_ok bs
}.

Record PoolMember (R : Type) : Type := {
  reader : R;
  device_size_bytes : Z
}.
Arguments reader {R} _.
Arguments device_size_bytes {R} _.
Arguments Build_PoolMember {R} _ _.

(** [read_exact] on a reader: the buffer, or [Error::Io] at the offset. *)
Definition read_exact {R} `{BlockRead R} (offset len vdev : Z) (token : string) : SM R Error bytes :=
  fun r => match read_at r offset len with
           | (Some bs, r') => (Ok bs, r')
           | (None, r') => (Err (Io token vdev offset), r')
           end.

(** ** What reads do to the members

    The members after reads of any of them, in any order: each read leaves
    every other member alone, and of the one that is read changes the reader as
    its own [read_at] says. *)
Section reads.
Context {R : Type} `{BlockRead R}.

Definition after_read (ms : list (PoolMember R)) (mi : Z) (m : PoolMember R) (off len : Z) : list (PoolMember R) :=
  <[Z.to_nat mi := Build_PoolMember (snd (read_at (reader m) off len)) (device_size_bytes m)]> ms.

Inductive after_reads : list (PoolMember R) -> list (PoolMember R) -> Prop :=
| after_reads_none ms : after_reads ms ms
| after_reads_one ms ms' mi m off len : after_reads ms ms' -> zget ms' mi = Some m -> after_reads ms (after_read ms' mi m off len).

Lemma after_reads_trans a b c : after_reads a b -> after_reads b c -> after_reads a c.
Proof using. intros Hab. induction 1; eauto using after_reads_one. Qed.

(** The devices are the same ones, of the same sizes. *)
Lemma after_reads_sizes ms ms' : after_reads ms ms' -> device_size_bytes <$> ms' = device_size_bytes <$> ms.
Proof using.
  induction 1 as [|ms ms' mi m off len _ IH Hm]; [done|]. unfold after_read. rewrite list_fmap_insert, IH. cbn.
  apply list_insert_id. rewrite <- IH, list_lookup_fmap. apply zget_lookup in Hm as [_ Hm]. now rewrite Hm.
Qed.

(** A predicate on the members that reads preserve. *)
Class ReadClosed (I : list (PoolMember R) -> Prop) : Prop :=
  read_closed : forall ms mi m off len, I ms -> zget ms mi = Some m -> I (after_read ms mi m off len).
#[global] Instance any_closed : ReadClosed (fun _ => True).
Proof using. done. Qed.
#[global] Instance after_reads_closed ms : ReadClosed (after_reads ms).
Proof using. repeat intro. eauto using after_reads_one. Qed.
End reads.
