(* ===== verification/Decoder.v ===== *)
(** * Binary decoders (src/phys/binary.rs, decoding half)

    [BinaryDecoderBuffer] with its cursor operations, UTF-8 validation as
    [core::str::from_utf8] performs it, the [BinaryDecoder] interface as a
    class of operations on the buffer, and its big-endian, little-endian and
    XDR instances.  The laws of the interface ([BinaryDecoderLaws]) say that
    no operation panics or leaves the clamped window; they are proved once for
    the three instances and used by every structure decoder. *)

From S2P Require Import Prelude.

Inductive EndianOrder : Type := Big | Little.
#[global] Instance EndianOrder_eq_dec : EqDecision EndianOrder.
Proof. solve_decision. Defined.

(** ** UTF-8 *)
Record Utf8Error : Type := { valid_up_to : Z; error_len : option Z }.

Definition utf8_char_width (b : Z) : Z :=
  if b <? 128 then 1
  else if (0xC2 <=? b) && (b <=? 0xDF) then 2
  else if (0xE0 <=? b) && (b <=? 0xEF) then 3
  else if (0xF0 <=? b) && (b <=? 0xF4) then 4
  else 0.

Definition between (lo hi b : Z) : bool := (lo <=? b) && (b <=? hi).
Definition utf8_cont (b : Z) : bool := between 0x80 0xBF b.

(** The second byte that may follow a three- and a four-byte lead. *)
Definition utf8_second3 (b0 b1 : Z) : bool :=
  if b0 =? 0xE0 then between 0xA0 0xBF b1
  else if b0 =? 0xED then between 0x80 0x9F b1
  else utf8_cont b1.
Definition utf8_second4 (b0 b1 : Z) : bool :=
  if b0 =? 0xF0 then between 0x90 0xBF b1
  else if b0 =? 0xF4 then between 0x80 0x8F b1
  else utf8_cont b1.

(** The first error of [l], whose first byte is at position [pos]. *)
Fixpoint utf8_validate (pos : Z) (l : bytes) : option Utf8Error :=
  let bad n := Some {| valid_up_to := pos; error_len := n |} in
  match l with
  | [] => None
  | b0 :: l1 =>
      match utf8_char_width b0 with
      | 1 => utf8_validate (pos + 1) l1
      | 2 => match l1 with
             | [] => bad None
             | b1 :: l2 => if utf8_cont b1 then utf8_validate (pos + 2) l2 else bad (Some 1)
             end
      | 3 => match l1 with
             | [] => bad None
             | b1 :: l2 =>
                 if utf8_second3 b0 b1 then
                   match l2 with
                   | [] => bad None
                   | b2 :: l3 =>
                       if utf8_cont b2 then utf8_validate (pos + 3) l3 else bad (Some 2)
                   end
                 else bad (Some 1)
             end
      | 4 => match l1 with
             | [] => bad None
             | b1 :: l2 =>
                 if utf8_second4 b0 b1 then
                   match l2 with
                   | [] => bad None
                   | b2 :: l3 =>
                       if utf8_cont b2 then
                         match l3 with
                         | [] => bad None
                         | b3 :: l4 =>
                             if utf8_cont b3 then utf8_validate (pos + 4) l4 else bad (Some 3)
                         end
                       else bad (Some 2)
                   end
                 else bad (Some 1)
             end
      | _ => bad (Some 1)
      end
  end.

(** [core::str::from_utf8]; a [&str] is the list of its bytes. *)
Definition from_utf8 (l : bytes) : outcome Utf8Error bytes :=
  match utf8_validate 0 l with None => Ok l | Some e => Err e end.

(** [String::from_utf8_lossy]: each invalid sequence becomes U+FFFD. *)
Definition replacement_char : bytes := [0xEF; 0xBF; 0xBD].
Fixpoint utf8_lossy (fuel : nat) (l : bytes) : bytes :=
  match fuel with
  | O => []
  | S fuel' =>
      match utf8_validate 0 l with
      | None => l
      | Some e =>
          ztake (valid_up_to e) l ++ replacement_char ++
          match error_len e with
          | None => []
          | Some n => utf8_lossy fuel' (zdrop (valid_up_to e + n) l)
          end
      end
  end.
Definition from_utf8_lossy (l : bytes) : bytes := utf8_lossy (S (length l)) l.

(** ** Errors *)
Inductive BinaryDecodeError : Type :=
| EndOfInput (offset max_offset capacity count : Z)
| I32toI8Conversion (offset value : Z)
| I32toI16Conversion (offset value : Z)
| InvalidBoolean (offset value : Z)
| InvalidClamp (capacity offset length : Z)
| InvalidU64Magic (expected : Z) (actual : bytes)
| InvalidStr (offset length : Z) (err : Utf8Error)
| NonZero (offset count : Z)
| DecodeNotSupported (operation : string)
| MissingNull (offset : Z)
| RewindAlignment (count alignment : Z)
| RewindPastStart (offset min_offset count : Z)
| SeekAlignment (offset alignment : Z)
| SeekPastEnd (offset max_offset capacity : Z)
| SeekPastStart (offset min_offset capacity : Z)
| SkipAlignment (count alignment : Z)
| U32toU8Conversion (offset value : Z)
| U32toU16Conversion (offset value : Z)
| UsizeConversion (offset value : Z).

(** ** The decoder buffer *)
Record BinaryDecoderBuffer : Type := {
  data : bytes;
  offset : Z;
  min_offset : Z;
  max_offset : Z
}.

Module DecoderBuffer.

Abbreviation D := (SM BinaryDecoderBuffer BinaryDecodeError).

Definition with_offset (o : Z) (b : BinaryDecoderBuffer) : BinaryDecoderBuffer :=
  {| data := data b; offset := o; min_offset := min_offset b; max_offset := max_offset b |}.

Definition from_bytes (l : bytes) : BinaryDecoderBuffer :=
  {| data := l; offset := 0; min_offset := 0; max_offset := blen l |}.

Definition from_bytes_clamped (l : bytes) (o n : Z)
    : outcome BinaryDecodeError BinaryDecoderBuffer :=
  if (blen l <? o) || (blen l - o <? n) then Err (InvalidClamp (blen l) o n)
  else Ok {| data := l; offset := o; min_offset := o; max_offset := o + n |}.

Definition capacity (b : BinaryDecoderBuffer) : Z :=
  saturating_sub (max_offset b) (min_offset b).
Definition len (b : BinaryDecoderBuffer) : Z :=
  saturating_sub (max_offset b) (offset b).
Definition is_empty (b : BinaryDecoderBuffer) : bool := len b =? 0.

Definition check_need (count : Z) : D unit := fun b =>
  if count <=? len b then (Ok tt, b)
  else (Err (EndOfInput (offset b) (max_offset b) (capacity b) count), b).

Definition reset : D unit := fun b => (Ok tt, with_offset (min_offset b) b).

Definition rewind (count : Z) : D unit := fun b =>
  if (offset b <? count) || (offset b - count <? min_offset b)
  then (Err (RewindPastStart (offset b) (min_offset b) count), b)
  else (Ok tt, with_offset (offset b - count) b).

Definition seek (o : Z) : D unit := fun b =>
  if o <? min_offset b then (Err (SeekPastStart o (min_offset b) (capacity b)), b)
  else if max_offset b <? o then (Err (SeekPastEnd o (max_offset b) (capacity b)), b)
  else (Ok tt, with_offset o b).

Definition skip (count : Z) : D unit :=
  check_need count ;;
  sm_fun (fun b => (Ok tt, with_offset (offset b + count) b)).

(** [get_bytes]: the slice index panics out of range. *)
Definition get_bytes (length : Z) : D bytes :=
  check_need length ;;
  sm_fun (fun b =>
    let start := offset b in
    let stop := start + length in
    match get_range (data b) start stop with
    | Some v => (Ok v, with_offset stop b)
    | None => (Panic, b)
    end).

Definition skip_zeros (count : Z) : D unit :=
  o ← sm_gets offset;
  bs ← get_bytes count;
  if forallb (Z.eqb 0) bs then mret tt else sm_err (NonZero o count).

Definition is_skip_zeros (count : Z) : D bool :=
  o ← sm_gets offset;
  bs ← get_bytes count;
  if forallb (Z.eqb 0) bs then mret true
  else sm_fun (fun b => (Ok false, with_offset o b)).

Definition get_1_byte : D Z :=
  check_need 1 ;;
  sm_fun (fun b =>
    match zget (data b) (offset b) with
    | Some v => (Ok v, with_offset (offset b + 1) b)
    | None => (Panic, b)
    end).

(** [get_2_bytes], [get_4_bytes], [get_8_bytes]: the cursor moves before the
    slice is taken. *)
Definition get_n_bytes (n : Z) : D bytes :=
  check_need n ;;
  sm_fun (fun b =>
    let start := offset b in
    let stop := start + n in
    let b' := with_offset stop b in
    match get_range (data b') start stop with
    | Some v => (Ok v, b')
    | None => (Panic, b')
    end).
Definition get_2_bytes : D bytes := get_n_bytes 2.
Definition get_4_bytes : D bytes := get_n_bytes 4.
Definition get_8_bytes : D bytes := get_n_bytes 8.

Definition get_str (length : Z) : D bytes :=
  o ← sm_gets offset;
  bs ← get_bytes length;
  match from_utf8 bs with
  | Ok v => mret v
  | Err e => sm_fun (fun b => (Err (InvalidStr o length e), with_offset o b))
  | Panic => sm_panic
  end.

(** The position of the first zero byte in [data[i..max_offset]]; [fuel] is the
    number of positions left, as in the [while] loop. *)
Fixpoint find_null (fuel : nat) (l : bytes) (i : Z) : outcome unit (option Z) :=
  match fuel with
  | O => Ok None
  | S fuel' =>
      match zget l i with
      | None => Panic
      | Some c => if c =? 0 then Ok (Some i) else find_null fuel' l (i + 1)
      end
  end.

Definition get_str_null : D bytes := fun b =>
  match find_null (Z.to_nat (max_offset b - offset b)) (data b) (offset b) with
  | Ok (Some i) =>
      match get_range (data b) (offset b) i with
      | Some bs =>
          match from_utf8 bs with
          | Ok v => (Ok v, with_offset (i + 1) b)
          | Err e => (Err (InvalidStr (offset b) (i - offset b) e), b)
          | Panic => (Panic, b)
          end
      | None => (Panic, b)
      end
  | Ok None => (Err (MissingNull (offset b)), b)
  | _ => (Panic, b)
  end.

(** *** The cursor invariant *)
Definition wf (b : BinaryDecoderBuffer) : Prop :=
  0 <= min_offset b <= offset b /\ offset b <= max_offset b <= blen (data b) /\
  bytes_ok (data b).

(** What an operation never changes: the data and the clamped window. *)
Definition window (b : BinaryDecoderBuffer) : bytes * Z * Z :=
  (data b, min_offset b, max_offset b).

Definition inv (w : bytes * Z * Z) (b : BinaryDecoderBuffer) : Prop :=
  wf b /\ window b = w.

(** The input that is left. *)
Definition remaining (b : BinaryDecoderBuffer) : bytes :=
  ztake (max_offset b - offset b) (zdrop (offset b) (data b)).

Definition advance (n : Z) (b : BinaryDecoderBuffer) : BinaryDecoderBuffer :=
  with_offset (offset b + n) b.

Lemma wf_from_bytes l : bytes_ok l -> wf (from_bytes l).
Proof. intros; unfold wf; cbn. pose proof (blen_nonneg l); repeat split; auto; lia. Qed.

Lemma remaining_from_bytes l : remaining (from_bytes l) = l.
Proof.
  unfold remaining; cbn. rewrite zdrop_0, Z.sub_0_r. now apply ztake_ge.
Qed.

Lemma blen_remaining b : wf b -> blen (remaining b) = max_offset b - offset b.
Proof.
  intros (? & ? & ?). unfold remaining. rewrite blen_ztake, blen_zdrop by lia. lia.
Qed.

Lemma len_remaining b : wf b -> len b = blen (remaining b).
Proof. intros H. rewrite blen_remaining by done. destruct H as (? & ? & ?).
  unfold len, saturating_sub. lia. Qed.

Lemma bytes_ok_remaining b : wf b -> bytes_ok (remaining b).
Proof. intros (_ & _ & H). unfold remaining. auto with zfs. Qed.

Lemma wf_advance b n : wf b -> 0 <= n <= blen (remaining b) -> wf (advance n b).
Proof.
  intros Hw Hn. rewrite blen_remaining in Hn by done. destruct Hw as (? & ? & ?).
  unfold wf; cbn. repeat split; auto; lia.
Qed.

Lemma remaining_advance b n :
  wf b -> 0 <= n <= blen (remaining b) -> remaining (advance n b) = zdrop n (remaining b).
Proof.
  intros Hw Hn. rewrite blen_remaining in Hn by done. destruct Hw as (? & ? & ?).
  unfold remaining; cbn. rewrite zdrop_ztake, zdrop_zdrop by lia. f_equal; lia.
Qed.

Lemma get_range_remaining b n :
  wf b -> 0 <= n <= blen (remaining b) ->
  get_range (data b) (offset b) (offset b + n) = Some (ztake n (remaining b)).
Proof.
  intros Hw Hn. rewrite blen_remaining in Hn by done. destruct Hw as (? & ? & ?).
  rewrite get_range_ok by lia. unfold remaining. rewrite ztake_ztake by lia.
  do 2 f_equal. lia.
Qed.

(** *** Operations on the remaining input *)
Lemma check_need_spec b n :
  wf b -> check_need n b =
    (if n <=? blen (remaining b) then Ok tt
     else Err (EndOfInput (offset b) (max_offset b) (capacity b) n), b).
Proof. intros H. unfold check_need. rewrite (len_remaining b H). now destruct (_ <=? _). Qed.

Lemma get_bytes_spec b n :
  wf b -> 0 <= n -> get_bytes n b =
    if n <=? blen (remaining b) then (Ok (ztake n (remaining b)), advance n b)
    else (Err (EndOfInput (offset b) (max_offset b) (capacity b) n), b).
Proof.
  intros H Hn. unfold get_bytes; smunfold. rewrite check_need_spec by done.
  destruct (Z.leb_spec n (blen (remaining b))); [|done].
  now rewrite get_range_remaining.
Qed.

Lemma get_n_bytes_spec b n : wf b -> 0 <= n -> get_n_bytes n b = get_bytes n b.
Proof.
  intros H Hn. rewrite get_bytes_spec by done.
  unfold get_n_bytes; smunfold. rewrite check_need_spec by done.
  destruct (Z.leb_spec n (blen (remaining b))); [|done].
  cbn [data with_offset]. now rewrite get_range_remaining.
Qed.

Lemma inv_advance w b n : inv w b -> 0 <= n <= blen (remaining b) -> inv w (advance n b).
Proof. intros [H1 H2] ?; split; [now apply wf_advance | done]. Qed.

Lemma hoare_get_bytes w n :
  0 <= n -> hoare (inv w) (get_bytes n) (fun v => blen v = n /\ bytes_ok v).
Proof.
  intros Hn b [Hb Hw]. unfold wp. rewrite get_bytes_spec by done.
  destruct (Z.leb_spec n (blen (remaining b))); cbn; [|done].
  split; [now apply inv_advance | split].
  - rewrite blen_ztake by done. lia.
  - apply bytes_ok_ztake. now apply bytes_ok_remaining.
Qed.

Lemma hoare_get_n_bytes w n :
  0 <= n -> hoare (inv w) (get_n_bytes n) (fun v => blen v = n /\ bytes_ok v).
Proof.
  intros Hn b Hb. unfold wp. rewrite get_n_bytes_spec by (try apply Hb; done).
  now apply hoare_get_bytes.
Qed.

Lemma hoare_check_need w n : hoare (inv w) (check_need n) (fun _ => True).
Proof.
  intros b Hb. unfold wp. rewrite check_need_spec by apply Hb.
  now destruct (_ <=? _); cbn.
Qed.

Lemma hoare_skip w n : 0 <= n -> hoare (inv w) (skip n) (fun _ => True).
Proof.
  intros Hn b [Hb Hw]. unfold wp, skip; smunfold. rewrite check_need_spec by done.
  destruct (Z.leb_spec n (blen (remaining b))); cbn; [|done].
  split; [|done]. now apply (inv_advance w b n).
Qed.

Lemma hoare_rewind w n : 0 <= n -> hoare (inv w) (rewind n) (fun _ => True).
Proof.
  intros Hn b [Hb Hw]. pose proof Hb as (? & ? & ?). unfold wp, rewind.
  destruct (Z.ltb_spec (offset b) n), (Z.ltb_spec (offset b - n) (min_offset b)); cbn; try done.
  repeat split; cbn; auto; lia.
Qed.

Lemma hoare_seek w n : hoare (inv w) (seek n) (fun _ => True).
Proof.
  intros b [Hb Hw]. pose proof Hb as (? & ? & ?). unfold wp, seek.
  destruct (Z.ltb_spec n (min_offset b)), (Z.ltb_spec (max_offset b) n); cbn; try done.
  repeat split; cbn; auto; lia.
Qed.

Lemma hoare_offset w : hoare (E := BinaryDecodeError) (inv w) (sm_gets offset)
  (fun o => snd (fst w) <= o <= snd w).
Proof.
  intros b [Hb Hw]. unfold wp; cbn. pose proof Hb as (? & ? & ?). subst w; cbn.
  repeat split; auto; lia.
Qed.

Lemma inv_with_offset w b o :
  inv w b -> snd (fst w) <= o <= snd w -> inv w (with_offset o b).
Proof.
  intros [(?&?&?) <-] Ho. cbn in Ho. repeat split; cbn; auto; lia.
Qed.

Lemma hoare_skip_zeros w n : 0 <= n -> hoare (inv w) (skip_zeros n) (fun _ => True).
Proof.
  intros. unfold skip_zeros.
  eapply hoare_bind; [apply hoare_offset|]; intros o Ho.
  eapply hoare_bind; [now apply hoare_get_bytes|]; intros v Hv.
  destruct (forallb _ _); [now apply hoare_ret | apply hoare_err].
Qed.

Lemma hoare_is_skip_zeros w n : 0 <= n -> hoare (inv w) (is_skip_zeros n) (fun _ => True).
Proof.
  intros. unfold is_skip_zeros.
  eapply hoare_bind; [apply hoare_offset|]; intros o Ho.
  eapply hoare_bind; [now apply hoare_get_bytes|]; intros v Hv.
  destruct (forallb _ _); [now apply hoare_ret|].
  intros b Hb. unfold wp; cbn. split; [|done]. now apply inv_with_offset.
Qed.

Lemma hoare_get_1_byte w : hoare (inv w) get_1_byte is_byte.
Proof.
  intros b [Hb Hw]. unfold wp, get_1_byte; smunfold. rewrite check_need_spec by done.
  destruct (Z.leb_spec 1 (blen (remaining b))) as [H1|]; cbn; [|done].
  destruct (zget_in (data b) (offset b)) as [v Hv].
  { rewrite blen_remaining in H1 by done. destruct Hb as (?&?&?). lia. }
  rewrite Hv; cbn. split; [apply (inv_advance w b 1); [done|lia]|].
  apply zget_elem in Hv. destruct Hb as (_ & _ & Hb).
  rewrite Forall_forall in Hb. auto.
Qed.

Lemma hoare_get_str w n :
  0 <= n -> hoare (inv w) (get_str n) (fun v => blen v = n /\ bytes_ok v).
Proof.
  intros. unfold get_str.
  eapply hoare_bind; [apply hoare_offset|]; intros o Ho.
  eapply hoare_bind; [now apply hoare_get_bytes|]; intros v Hv.
  unfold from_utf8. destruct (utf8_validate 0 v); [|now apply hoare_ret].
  intros b Hb. unfold wp; cbn. split; [|done]. now apply inv_with_offset.
Qed.

Lemma find_null_spec fuel l i :
  0 <= i -> i + Z.of_nat fuel <= blen l ->
  match find_null fuel l i with
  | Ok (Some j) => i <= j < i + Z.of_nat fuel
  | Ok None => True
  | _ => False
  end.
Proof.
  revert i; induction fuel as [|fuel IH]; intros i H0 H1; cbn [find_null]; [done|].
  destruct (zget_in l i) as [v ->]; [lia|].
  destruct (v =? 0); [lia|].
  specialize (IH (i + 1)). destruct (find_null fuel l (i + 1)) as [[j|]| |];
    first [done | apply IH; lia | (assert (i + 1 <= j < i + 1 + Z.of_nat fuel) by (apply IH; lia); lia)].
Qed.

Lemma hoare_get_str_null w : hoare (inv w) get_str_null bytes_ok.
Proof.
  intros b Hb. pose proof Hb as [(?&?&?) Hw]. unfold wp, get_str_null.
  pose proof (find_null_spec (Z.to_nat (max_offset b - offset b)) (data b) (offset b)
    ltac:(lia) ltac:(lia)) as Hf.
  destruct (find_null _ _ _) as [[j|]| |]; cbn; try done.
  rewrite get_range_ok by lia. unfold from_utf8.
  destruct (utf8_validate _ _); cbn; [done|]. split; [|auto with zfs].
  apply inv_with_offset; [done|]. subst w; cbn. lia.
Qed.

End DecoderBuffer.

(** ** Fixed-width integers in an order *)
Definition int_from (o : EndianOrder) (bs : bytes) : Z :=
  match o with Little => le_combine bs | Big => le_combine (rev bs) end.
Definition int_to (o : EndianOrder) (n : nat) (x : Z) : bytes :=
  match o with Little => le_split n x | Big => rev (le_split n x) end.

Lemma blen_int_to o n x : blen (int_to o n x) = Z.of_nat n.
Proof. unfold blen. destruct o; cbn; rewrite ?length_rev, length_le_split; done. Qed.

Lemma bytes_ok_int_to o n x : bytes_ok (int_to o n x).
Proof.
  destruct o; cbn; [|apply bytes_ok_le_split].
  apply Forall_rev, bytes_ok_le_split.
Qed.

Lemma int_from_to o n x : fits (8 * Z.of_nat n) x -> int_from o (int_to o n x) = x.
Proof.
  intros Hx. assert (le_combine (le_split n x) = x).
  { rewrite le_combine_split. change 256 with (2 ^ 8). rewrite <- Z.pow_mul_r by lia.
    now apply Z.mod_small. }
  destruct o; cbn; [now rewrite rev_involutive | done].
Qed.

Lemma int_to_from o bs : bytes_ok bs -> int_to o (length bs) (int_from o bs) = bs.
Proof.
  intros H. destruct o; cbn; [|now apply le_split_combine].
  rewrite <- (length_rev bs), le_split_combine, rev_involutive; [done|].
  now apply Forall_rev.
Qed.

Lemma int_from_fits o bs n : bytes_ok bs -> blen bs = n -> fits (8 * n) (int_from o bs).
Proof.
  intros H <-. unfold fits. rewrite Z.pow_mul_r by (pose proof (blen_nonneg bs); lia).
  change (2 ^ 8) with 256. destruct o; cbn; [|now apply le_combine_bound].
  replace (blen bs) with (blen (rev bs)) by (unfold blen; now rewrite length_rev).
  now apply le_combine_bound, Forall_rev.
Qed.

#[export] Hint Resolve bytes_ok_int_to : zfs.

(** ** The decoder interface

    The trait [BinaryDecoder]: what the three decoders implement on the buffer
    they wrap.  The cursor queries are the buffer's own. *)
Class BinaryDecoder := {
  d_rewind : Z -> DecoderBuffer.D unit;
  d_seek : Z -> DecoderBuffer.D unit;
  d_skip : Z -> DecoderBuffer.D unit;
  d_skip_zeros : Z -> DecoderBuffer.D unit;
  d_is_skip_zeros : Z -> DecoderBuffer.D bool;
  get_bool : DecoderBuffer.D bool;
  get_bytes : DecoderBuffer.D bytes;
  get_bytes_n : Z -> DecoderBuffer.D bytes;
  get_str : DecoderBuffer.D bytes;
  get_str_n : Z -> DecoderBuffer.D bytes;
  get_f32 : DecoderBuffer.D Z;
  get_f64 : DecoderBuffer.D Z;
  get_i8 : DecoderBuffer.D Z;
  get_i16 : DecoderBuffer.D Z;
  get_i32 : DecoderBuffer.D Z;
  get_i64 : DecoderBuffer.D Z;
  get_u8 : DecoderBuffer.D Z;
  get_u16 : DecoderBuffer.D Z;
  get_u32 : DecoderBuffer.D Z;
  get_u64 : DecoderBuffer.D Z
}.

Section provided_methods.
Context {BD : BinaryDecoder}.
Definition get_usize_16 : DecoderBuffer.D Z := get_u16.
Definition get_usize_32 : DecoderBuffer.D Z :=
  o ← sm_gets offset;
  v ← get_u32;
  if fitsb 64 v then mret v else sm_err (UsizeConversion o v).
Definition get_usize_64 : DecoderBuffer.D Z :=
  o ← sm_gets offset;
  v ← get_u64;
  if fitsb 64 v then mret v else sm_err (UsizeConversion o v).
End provided_methods.

(** A boolean is a [u32] that is 0 or 1. *)
Definition bool_of_u32 (get : DecoderBuffer.D Z) : DecoderBuffer.D bool :=
  o ← sm_gets offset;
  v ← get;
  if v =? 0 then mret false
  else if v =? 1 then mret true
  else sm_err (InvalidBoolean o v).

(** An integer of [n] bytes; a float is kept as its bit pattern. *)
Definition get_int (o : EndianOrder) (n : Z) : DecoderBuffer.D Z :=
  bs ← DecoderBuffer.get_n_bytes n; mret (int_from o bs).

Definition endian_decoder (o : EndianOrder) : BinaryDecoder := {|
  d_rewind := DecoderBuffer.rewind;
  d_seek := DecoderBuffer.seek;
  d_skip := DecoderBuffer.skip;
  d_skip_zeros := DecoderBuffer.skip_zeros;
  d_is_skip_zeros := DecoderBuffer.is_skip_zeros;
  get_bool := bool_of_u32 (get_int o 4);
  get_bytes := sm_err (DecodeNotSupported "get_bytes");
  get_bytes_n := DecoderBuffer.get_bytes;
  get_str := DecoderBuffer.get_str_null;
  get_str_n := DecoderBuffer.get_str;
  get_f32 := get_int o 4;
  get_f64 := get_int o 8;
  get_i8 := (v ← DecoderBuffer.get_1_byte; mret (to_signed 8 v));
  get_i16 := (v ← get_int o 2; mret (to_signed 16 v));
  get_i32 := (v ← get_int o 4; mret (to_signed 32 v));
  get_i64 := (v ← get_int o 8; mret (to_signed 64 v));
  get_u8 := DecoderBuffer.get_1_byte;
  get_u16 := get_int o 2;
  get_u32 := get_int o 4;
  get_u64 := get_int o 8
|}.

Definition BigEndianDecoder : BinaryDecoder := endian_decoder Big.
Definition LittleEndianDecoder : BinaryDecoder := endian_decoder Little.

Module Xdr.

Definition ALIGNMENT : Z := 4.

Definition consume_padding (length : Z) : DecoderBuffer.D unit :=
  let remainder := length mod ALIGNMENT in
  if remainder =? 0 then mret tt
  else DecoderBuffer.skip_zeros (ALIGNMENT - remainder).

(** Alignment is checked before the buffer's operation. *)
Definition aligned {A} (err : Z -> Z -> BinaryDecodeError)
    (op : Z -> DecoderBuffer.D A) (n : Z) : DecoderBuffer.D A :=
  if n mod ALIGNMENT =? 0 then op n else sm_err (err n ALIGNMENT).

Definition get_u32 : DecoderBuffer.D Z := get_int Big 4.
Definition get_i32 : DecoderBuffer.D Z := v ← get_u32; mret (to_signed 32 v).

Definition get_u8 : DecoderBuffer.D Z :=
  o ← sm_gets offset;
  v0 ← get_u32;
  let v := if 0xffffff80 <=? v0 then v0 - 0xffffff00 else v0 in
  if fitsb 8 v then mret v else sm_err (U32toU8Conversion o v).

Definition get_u16 : DecoderBuffer.D Z :=
  o ← sm_gets offset;
  v ← get_u32;
  if fitsb 16 v then mret v else sm_err (U32toU16Conversion o v).

(** [i8::try_from] and [i16::try_from] of an [i32]. *)
Definition get_narrow (w : Z) (err : Z -> Z -> BinaryDecodeError) : DecoderBuffer.D Z :=
  o ← sm_gets offset;
  v ← get_i32;
  if (- 2 ^ (w - 1) <=? v) && (v <? 2 ^ (w - 1)) then mret v else sm_err (err o v).

Definition get_usize_32 : DecoderBuffer.D Z :=
  o ← sm_gets offset;
  v ← get_u32;
  if fitsb 64 v then mret v else sm_err (UsizeConversion o v).

Definition get_bytes_n (length : Z) : DecoderBuffer.D bytes :=
  v ← DecoderBuffer.get_bytes length;
  consume_padding length;;
  mret v.

Definition get_str_n (length : Z) : DecoderBuffer.D bytes :=
  v ← DecoderBuffer.get_str length;
  consume_padding length;;
  mret v.

Definition decoder : BinaryDecoder := {|
  d_rewind := aligned RewindAlignment DecoderBuffer.rewind;
  d_seek := aligned SeekAlignment DecoderBuffer.seek;
  d_skip := aligned SkipAlignment DecoderBuffer.skip;
  d_skip_zeros := aligned SkipAlignment DecoderBuffer.skip_zeros;
  d_is_skip_zeros := aligned SkipAlignment DecoderBuffer.is_skip_zeros;
  get_bool := bool_of_u32 get_u32;
  get_bytes := (length ← get_usize_32; get_bytes_n length);
  Decoder.get_bytes_n := get_bytes_n;
  get_str := (length ← get_usize_32; get_str_n length);
  Decoder.get_str_n := get_str_n;
  get_f32 := get_int Big 4;
  get_f64 := get_int Big 8;
  get_i8 := get_narrow 8 I32toI8Conversion;
  get_i16 := get_narrow 16 I32toI16Conversion;
  Decoder.get_i32 := get_i32;
  get_i64 := (v ← get_int Big 8; mret (to_signed 64 v));
  Decoder.get_u8 := get_u8;
  Decoder.get_u16 := get_u16;
  Decoder.get_u32 := get_u32;
  get_u64 := get_int Big 8
|}.

End Xdr.

Definition XdrDecoder : BinaryDecoder := Xdr.decoder.

(** [BigLittleEndianDecoder::from_u64_magic]: the order under which the first
    eight bytes are the magic, and the decoder past them. *)
Definition from_u64_magic (l : bytes) (magic : Z)
    : outcome BinaryDecodeError (EndianOrder * BinaryDecoderBuffer) :=
  match get_int Little 8 (DecoderBuffer.from_bytes l) with
  | (Ok v, b) =>
      if v =? magic then Ok (Little, b)
      else
        match get_int Big 8 (DecoderBuffer.from_bytes l) with
        | (Ok v', b') =>
            if v' =? magic then Ok (Big, b')
            else Err (InvalidU64Magic magic (int_to Little 8 v'))
        | (Err e, _) => Err e
        | (Panic, _) => Panic
        end
  | (Err e, _) => Err e
  | (Panic, _) => Panic
  end.

(** ** Laws of the interface

    No operation of a decoder panics, each keeps the cursor inside the clamped
    window and never changes data or window, and each value is in the range of
    its Rust type. *)
Class BinaryDecoderLaws (BD : BinaryDecoder) := {
  law_skip w n : 0 <= n -> hoare (DecoderBuffer.inv w) (d_skip n) (fun _ => True);
  law_rewind w n : 0 <= n -> hoare (DecoderBuffer.inv w) (d_rewind n) (fun _ => True);
  law_seek w n : hoare (DecoderBuffer.inv w) (d_seek n) (fun _ => True);
  law_skip_zeros w n : 0 <= n -> hoare (DecoderBuffer.inv w) (d_skip_zeros n) (fun _ => True);
  law_is_skip_zeros w n :
    0 <= n -> hoare (DecoderBuffer.inv w) (d_is_skip_zeros n) (fun _ => True);
  law_bool w : hoare (DecoderBuffer.inv w) get_bool (fun _ => True);
  law_bytes w : hoare (DecoderBuffer.inv w) get_bytes bytes_ok;
  law_bytes_n w n :
    0 <= n -> hoare (DecoderBuffer.inv w) (get_bytes_n n) (fun v => blen v = n /\ bytes_ok v);
  law_str w : hoare (DecoderBuffer.inv w) get_str bytes_ok;
  law_str_n w n :
    0 <= n -> hoare (DecoderBuffer.inv w) (get_str_n n) (fun v => blen v = n /\ bytes_ok v);
  law_f32 w : hoare (DecoderBuffer.inv w) get_f32 (fits 32);
  law_f64 w : hoare (DecoderBuffer.inv w) get_f64 (fits 64);
  law_i8 w : hoare (DecoderBuffer.inv w) get_i8 (fun v => - 2 ^ 7 <= v < 2 ^ 7);
  law_i16 w : hoare (DecoderBuffer.inv w) get_i16 (fun v => - 2 ^ 15 <= v < 2 ^ 15);
  law_i32 w : hoare (DecoderBuffer.inv w) get_i32 (fun v => - 2 ^ 31 <= v < 2 ^ 31);
  law_i64 w : hoare (DecoderBuffer.inv w) get_i64 (fun v => - 2 ^ 63 <= v < 2 ^ 63);
  law_u8 w : hoare (DecoderBuffer.inv w) get_u8 (fits 8);
  law_u16 w : hoare (DecoderBuffer.inv w) get_u16 (fits 16);
  law_u32 w : hoare (DecoderBuffer.inv w) get_u32 (fits 32);
  law_u64 w : hoare (DecoderBuffer.inv w) get_u64 (fits 64)
}.

Section laws.
Context (w : bytes * Z * Z).
Notation "'{{' m '}}' P" := (hoare (DecoderBuffer.inv w) m P) (at level 10, only parsing).

Lemma hoare_get_int o n : 0 <= n -> {{ get_int o n }} (fits (8 * n)).
Proof.
  intros. eapply hoare_bind; [now apply DecoderBuffer.hoare_get_n_bytes|].
  intros v [Hl Hv]. apply hoare_ret. now apply int_from_fits.
Qed.

Lemma to_signed_range k x : 0 < k -> fits k x -> - 2 ^ (k - 1) <= to_signed k x < 2 ^ (k - 1).
Proof.
  intros Hk [H0 H1]. unfold to_signed.
  assert (2 ^ k = 2 * 2 ^ (k - 1)).
  { rewrite <- Z.pow_succ_r by lia. f_equal; lia. }
  destruct (Z.ltb_spec x (2 ^ (k - 1))); lia.
Qed.

Lemma hoare_signed (m : DecoderBuffer.D Z) k :
  0 < k -> {{ m }} (fits k) ->
  {{ (v ← m; mret (to_signed k v)) }} (fun v => - 2 ^ (k - 1) <= v < 2 ^ (k - 1)).
Proof.
  intros Hk Hm. eapply hoare_bind; [exact Hm|]. intros v Hv.
  apply hoare_ret. now apply to_signed_range.
Qed.

Lemma hoare_bool_of_u32 m : {{ m }} (fits 32) -> {{ bool_of_u32 m }} (fun _ => True).
Proof.
  intros Hm. eapply hoare_bind; [apply DecoderBuffer.hoare_offset|]; intros o _.
  eapply hoare_bind; [exact Hm|]; intros v _.
  destruct (v =? 0), (v =? 1); first [now apply hoare_ret | apply hoare_err].
Qed.

Lemma hoare_checked (P Q : Z -> Prop) (m : DecoderBuffer.D Z) (f : Z -> Z) (t : Z -> bool) err :
  {{ m }} P -> (forall v, P v -> t (f v) = true -> Q (f v)) ->
  {{ (o ← sm_gets offset; v ← m; if t (f v) then mret (f v) else sm_err (err o (f v))) }} Q.
Proof.
  intros Hm Ht. eapply hoare_bind; [apply DecoderBuffer.hoare_offset|]; intros o _.
  eapply hoare_bind; [exact Hm|]; intros v Hv.
  destruct (t (f v)) eqn:E; [apply hoare_ret; auto | apply hoare_err].
Qed.

Lemma hoare_aligned {A} err (op : Z -> DecoderBuffer.D A) n P :
  {{ op n }} P -> {{ Xdr.aligned err op n }} P.
Proof. intros. unfold Xdr.aligned. destruct (_ =? 0); [done | apply hoare_err]. Qed.

Lemma hoare_padded {A} (m : DecoderBuffer.D A) n P :
  {{ m }} P -> {{ (v ← m; Xdr.consume_padding n;; mret v) }} P.
Proof.
  intros Hm. eapply hoare_bind; [exact Hm|]; intros v Hv.
  eapply (hoare_bind _ _ _ (fun _ => True)).
  - unfold Xdr.consume_padding. destruct (_ =? 0); [now apply hoare_ret|].
    apply DecoderBuffer.hoare_skip_zeros.
    pose proof (Z.mod_pos_bound n Xdr.ALIGNMENT). unfold Xdr.ALIGNMENT in *. lia.
  - intros _ _. now apply hoare_ret.
Qed.

Lemma hoare_sized {A} (m : Z -> DecoderBuffer.D A) P :
  (forall n, 0 <= n -> {{ m n }} P) -> {{ (n ← Xdr.get_usize_32; m n) }} P.
Proof.
  intros Hm. eapply (hoare_bind _ _ _ (fun n => 0 <= n)); [|exact Hm].
  eapply (hoare_checked (fits 32) (fun n => 0 <= n) _ id); [now apply hoare_get_int|].
  intros v [Hv _]; cbn; auto.
Qed.
End laws.

#[export] Hint Resolve DecoderBuffer.hoare_skip DecoderBuffer.hoare_rewind
  DecoderBuffer.hoare_seek DecoderBuffer.hoare_skip_zeros
  DecoderBuffer.hoare_is_skip_zeros DecoderBuffer.hoare_get_bytes
  DecoderBuffer.hoare_get_str DecoderBuffer.hoare_get_str_null
  DecoderBuffer.hoare_get_1_byte : zfs.

#[export] Instance endian_decoder_laws o : BinaryDecoderLaws (endian_decoder o).
Proof.
  split; cbn; intros; auto with zfs.
  - now apply hoare_bool_of_u32, hoare_get_int.
  - apply hoare_err.
  - now apply hoare_get_int.
  - now apply hoare_get_int.
  - apply (hoare_signed w _ 8); [done | apply DecoderBuffer.hoare_get_1_byte].
  - apply (hoare_signed w _ 16); [done | now apply hoare_get_int].
  - apply (hoare_signed w _ 32); [done | now apply hoare_get_int].
  - apply (hoare_signed w _ 64); [done | now apply hoare_get_int].
  - now apply hoare_get_int.
  - now apply hoare_get_int.
  - now apply hoare_get_int.
Qed.

#[export] Instance xdr_decoder_laws : BinaryDecoderLaws XdrDecoder.
Proof.
  assert (Hu : forall w, hoare (DecoderBuffer.inv w) Xdr.get_u32 (fits 32))
    by (intros; now apply hoare_get_int).
  assert (Hi : forall w, hoare (DecoderBuffer.inv w) Xdr.get_i32 (fun v => - 2 ^ 31 <= v < 2 ^ 31))
    by (intros; now apply hoare_signed).
  split; cbn; intros; auto using hoare_aligned with zfs.
  - now apply hoare_bool_of_u32.
  - apply hoare_sized; intros. apply hoare_padded.
    eapply hoare_mono; [auto with zfs|]. tauto.
  - apply hoare_padded; auto with zfs.
  - apply hoare_sized; intros. apply hoare_padded.
    eapply hoare_mono; [auto with zfs|]. tauto.
  - apply hoare_padded; auto with zfs.
  - now apply hoare_get_int.
  - eapply (hoare_checked w _ (fun v => - 2 ^ 7 <= v < 2 ^ 7) _ id
      (fun v => (- 2 ^ 7 <=? v) && (v <? 2 ^ 7))); [apply Hi|]. unfold id; intros v _.
    rewrite andb_true_iff, Z.leb_le, Z.ltb_lt. tauto.
  - eapply (hoare_checked w _ (fun v => - 2 ^ 15 <= v < 2 ^ 15) _ id
      (fun v => (- 2 ^ 15 <=? v) && (v <? 2 ^ 15))); [apply Hi|]. unfold id; intros v _.
    rewrite andb_true_iff, Z.leb_le, Z.ltb_lt. tauto.
  - apply (hoare_signed w _ 64); [done | now apply hoare_get_int].
  - eapply (hoare_checked w (fits 32) (fits 8) _
      (fun v0 => if 0xffffff80 <=? v0 then v0 - 0xffffff00 else v0)); [apply Hu|].
    intros. now apply fitsb_spec.
  - eapply (hoare_checked w (fits 32) (fits 16) _ id); [apply Hu|].
    intros. now apply fitsb_spec.
  - now apply hoare_get_int.
Qed.

(** ** Reading an encoding

    [reads m bs a]: wherever the remaining input starts with [bs], [m] consumes
    exactly [bs] and returns [a].  It composes with bind, so the decoding half
    of a round trip is a walk over the decoder. *)
Definition reads {E A} (m : SM BinaryDecoderBuffer E A) (bs : bytes) (a : A) : Prop :=
  forall b r, DecoderBuffer.wf b -> DecoderBuffer.remaining b = bs ++ r ->
    m b = (Ok a, DecoderBuffer.advance (blen bs) b).

Section reads.
Import DecoderBuffer.

Lemma advance_0 b : advance 0 b = b.
Proof. destruct b; unfold advance, with_offset; cbn. f_equal. lia. Qed.

Lemma advance_advance n m b : advance n (advance m b) = advance (m + n) b.
Proof. unfold advance, with_offset; cbn. f_equal. lia. Qed.

Lemma remaining_app b bs r :
  wf b -> remaining b = bs ++ r ->
  wf (advance (blen bs) b) /\ remaining (advance (blen bs) b) = r.
Proof.
  intros Hb Hr. assert (0 <= blen bs <= blen (remaining b)).
  { rewrite Hr, blen_app. pose proof (blen_nonneg bs); pose proof (blen_nonneg r); lia. }
  split; [now apply wf_advance|].
  rewrite remaining_advance, Hr by done. apply zdrop_app_length.
Qed.

Lemma reads_ret {E A} (a : A) : reads (E := E) (mret a) [] a.
Proof. intros b r _ _. cbn. now rewrite advance_0. Qed.

Lemma reads_bind {E A B} (m : SM BinaryDecoderBuffer E A) (f : A -> SM _ E B) bs1 bs2 a c :
  reads m bs1 a -> reads (f a) bs2 c -> reads (m ≫= f) (bs1 ++ bs2) c.
Proof.
  intros Hm Hf b r Hb Hr. rewrite <- app_assoc in Hr.
  destruct (remaining_app b bs1 (bs2 ++ r) Hb Hr) as [Hb' Hr'].
  unfold mbind, SM_bind. rewrite (Hm b _ Hb Hr), (Hf _ _ Hb' Hr').
  rewrite advance_advance, blen_app. done.
Qed.

Lemma reads_map_err {E F A} (g : E -> F) (m : SM BinaryDecoderBuffer E A) bs a :
  reads m bs a -> reads (sm_map_err g m) bs a.
Proof. intros Hm b r Hb Hr. unfold sm_map_err. now rewrite (Hm b r Hb Hr). Qed.

Lemma reads_guard {E} b (e : E) : b = false -> reads (sm_guard b e) [] tt.
Proof. intros -> b' r _ _. cbn. now rewrite advance_0. Qed.

Lemma reads_get_bytes bs n : n = blen bs -> reads (DecoderBuffer.get_bytes n) bs bs.
Proof.
  intros -> b r Hb Hr. rewrite get_bytes_spec by auto with zfs.
  rewrite Hr, blen_app.
  pose proof (blen_nonneg r). destruct (Z.leb_spec (blen bs) (blen bs + blen r)); [|lia].
  now rewrite ztake_app_length.
Qed.

Lemma reads_get_n_bytes bs n : n = blen bs -> reads (get_n_bytes n) bs bs.
Proof.
  intros -> b r Hb Hr. rewrite get_n_bytes_spec by auto with zfs.
  eapply reads_get_bytes; eauto.
Qed.

Lemma reads_get_int o n x k :
  Z.of_nat n = k -> fits (8 * k) x -> reads (get_int o k) (int_to o n x) x.
Proof.
  intros <- Hx. rewrite <- (app_nil_r (int_to o n x)). unfold get_int.
  eapply reads_bind; [apply reads_get_n_bytes; now rewrite blen_int_to|].
  rewrite int_from_to by done. apply reads_ret.
Qed.

Lemma reads_get_1_byte x : is_byte x -> reads get_1_byte [x] x.
Proof.
  intros Hx b r Hb Hr. unfold get_1_byte; smunfold. rewrite check_need_spec by done.
  rewrite Hr. cbn [app]. rewrite blen_cons.
  pose proof (blen_nonneg r). destruct (Z.leb_spec 1 (1 + blen r)); [|lia].
  assert (Hg : zget (data b) (offset b) = Some x).
  { pose proof (get_range_remaining b 1 Hb) as Hg. rewrite Hr in Hg. cbn [app] in Hg.
    specialize (Hg ltac:(rewrite blen_cons; lia)).
    apply get_range_Some in Hg as (? & Hle & Hg).
    destruct (zget_in (data b) (offset b)) as [y Hy]; [lia|]. rewrite Hy.
    apply zget_lookup in Hy as [_ Hy].
    rewrite (ztake_take 1), (ztake_take (_ - _)), zdrop_drop in Hg by lia.
    replace (offset b + 1 - offset b) with 1 in Hg by lia.
    change (Z.to_nat 1) with 1%nat in Hg. apply (f_equal (lookup 0%nat)) in Hg.
    rewrite !lookup_take_lt, lookup_drop in Hg by lia. cbn in Hg.
    rewrite Nat.add_0_r, Hy in Hg. congruence. }
  now rewrite Hg.
Qed.

Lemma reads_get_str bs n :
  n = blen bs -> from_utf8 bs = Ok bs -> reads (DecoderBuffer.get_str n) bs bs.
Proof.
  intros Hn Hu. unfold DecoderBuffer.get_str. intros b r Hb Hr. smunfold.
  rewrite (reads_get_bytes bs n Hn b r Hb Hr), Hu. done.
Qed.

Lemma forallb_zrep n : forallb (Z.eqb 0) (zrep n 0) = true.
Proof. unfold zrep. induction (Z.to_nat n); cbn; auto. Qed.

Lemma reads_skip_zeros n : 0 <= n -> reads (skip_zeros n) (zrep n 0) tt.
Proof.
  intros Hn b r Hb Hr. unfold skip_zeros. smunfold.
  rewrite (reads_get_bytes (zrep n 0) n ltac:(now rewrite blen_zrep) b r Hb Hr).
  rewrite forallb_zrep. done.
Qed.

Lemma reads_skip bs n : n = blen bs -> reads (skip n) bs tt.
Proof.
  intros -> b r Hb Hr. unfold skip; smunfold. rewrite check_need_spec, Hr, blen_app by done.
  pose proof (blen_nonneg r). now destruct (Z.leb_spec (blen bs) (blen bs + blen r)); [|lia].
Qed.

(** Reading a whole slice. *)
Lemma reads_run {E A} (m : SM BinaryDecoderBuffer E A) bs r a :
  bytes_ok (bs ++ r) -> reads m bs a -> fst (m (from_bytes (bs ++ r))) = Ok a.
Proof.
  intros Hok Hm. rewrite (Hm _ r); [done | now apply wf_from_bytes|].
  apply remaining_from_bytes.
Qed.
End reads.

Lemma reads_bind_nil {E A B} (m : SM BinaryDecoderBuffer E A) (f : A -> SM _ E B) bs a c :
  reads m [] a -> reads (f a) bs c -> reads (m ≫= f) bs c.
Proof. apply (reads_bind m f []). Qed.

Lemma reads_last {E A} (m : SM BinaryDecoderBuffer E A) bs a :
  reads m (bs ++ []) a -> reads m bs a.
Proof. now rewrite app_nil_r. Qed.
