(* ===== verification/Encoder.v ===== *)
(** * Binary encoders (src/phys/binary.rs, encoding half)

    [BinaryEncoderBuffer], the [BinaryEncoder] interface and its big-endian,
    little-endian and XDR instances.  [writes m bs] says that [m] appends
    exactly [bs] to the output when it fits, and [writes]/[reads] together give
    the round trips of the structures. *)

From S2P Require Import Prelude Decoder.

Inductive BinaryEncodeError : Type :=
| EndOfOutput (offset capacity count : Z)
| EncodeNotSupported (operation : string)
| EncodeRewindPastStart (offset count : Z)
| EncodeSeekPastEnd (offset capacity : Z)
| EncodeUsizeConversion (offset value : Z).

Record BinaryEncoderBuffer : Type := { edata : bytes; eoffset : Z }.

Module EncoderBuffer.

Abbreviation W := (SM BinaryEncoderBuffer BinaryEncodeError).

Definition available (e : BinaryEncoderBuffer) : Z :=
  saturating_sub (blen (edata e)) (eoffset e).
Definition capacity (e : BinaryEncoderBuffer) : Z := blen (edata e).
Definition is_empty (e : BinaryEncoderBuffer) : bool := eoffset e =? 0.
Definition is_full (e : BinaryEncoderBuffer) : bool := blen (edata e) <=? eoffset e.

(** [finish]: the slice [data[0..offset]]. *)
Definition finish (e : BinaryEncoderBuffer) : outcome BinaryEncodeError bytes :=
  unwrap (get_range (edata e) 0 (eoffset e)).

Definition at_offset (o : Z) (e : BinaryEncoderBuffer) : BinaryEncoderBuffer :=
  {| edata := edata e; eoffset := o |}.

Definition check_need (count : Z) : W unit := fun e =>
  if count <=? available e then (Ok tt, e)
  else (Err (EndOfOutput (eoffset e) (capacity e) count), e).

Definition reset : W unit := fun e => (Ok tt, at_offset 0 e).

Definition rewind (count : Z) : W unit := fun e =>
  if eoffset e <? count then (Err (EncodeRewindPastStart (eoffset e) count), e)
  else (Ok tt, at_offset (eoffset e - count) e).

Definition seek (o : Z) : W unit := fun e =>
  if capacity e <? o then (Err (EncodeSeekPastEnd o (capacity e)), e)
  else (Ok tt, at_offset o e).

Definition skip (count : Z) : W unit :=
  check_need count ;;
  sm_fun (fun e => (Ok tt, at_offset (eoffset e + count) e)).

(** [data[start..end].copy_from_slice(bs)]: a slice out of range panics. *)
Definition copy_at (l : bytes) (start : Z) (bs : bytes) : option bytes :=
  match get_range l start (start + blen bs) with
  | Some _ => Some (ztake start l ++ bs ++ zdrop (start + blen bs) l)
  | None => None
  end.

Definition put_bytes (bs : bytes) : W unit :=
  check_need (blen bs) ;;
  sm_fun (fun e =>
    let start := eoffset e in
    let stop := start + blen bs in
    match copy_at (edata e) start bs with
    | Some l => (Ok tt, {| edata := l; eoffset := stop |})
    | None => (Panic, at_offset stop e)
    end).

Definition put_zeros (count : Z) : W unit :=
  check_need count ;;
  sm_fun (fun e =>
    let start := eoffset e in
    let stop := start + count in
    match copy_at (edata e) start (zrep count 0) with
    | Some l => (Ok tt, {| edata := l; eoffset := stop |})
    | None => (Panic, at_offset stop e)
    end).

Definition put_1_byte (v : Z) : W unit :=
  check_need 1 ;;
  sm_fun (fun e =>
    match copy_at (edata e) (eoffset e) [v] with
    | Some l => (Ok tt, {| edata := l; eoffset := eoffset e + 1 |})
    | None => (Panic, e)
    end).
Definition put_2_bytes (bs : bytes) : W unit := put_bytes bs.
Definition put_4_bytes (bs : bytes) : W unit := put_bytes bs.
Definition put_8_bytes (bs : bytes) : W unit := put_bytes bs.

Definition wf (e : BinaryEncoderBuffer) : Prop := 0 <= eoffset e <= blen (edata e).

(** [bs] appended at the cursor. *)
Definition append (bs : bytes) (e : BinaryEncoderBuffer) : BinaryEncoderBuffer :=
  {| edata := ztake (eoffset e) (edata e) ++ bs ++ zdrop (eoffset e + blen bs) (edata e);
     eoffset := eoffset e + blen bs |}.

(** What has been written. *)
Definition written (e : BinaryEncoderBuffer) : bytes := ztake (eoffset e) (edata e).

Lemma available_wf e : wf e -> available e = blen (edata e) - eoffset e.
Proof. unfold wf, available, saturating_sub; lia. Qed.

Lemma finish_written e : wf e -> finish e = Ok (written e).
Proof.
  intros [H0 H1]. unfold finish. rewrite get_range_ok by lia.
  now rewrite zdrop_0, Z.sub_0_r.
Qed.

Lemma append_spec e bs :
  wf e -> blen bs <= available e ->
  wf (append bs e) /\ written (append bs e) = written e ++ bs /\
  blen (edata (append bs e)) = blen (edata e) /\
  available (append bs e) = available e - blen bs.
Proof.
  intros Hw Ha. rewrite (available_wf e) in Ha |- * by exact Hw. destruct Hw as [H0 H1].
  pose proof (blen_nonneg bs).
  assert (Hl : blen (edata (append bs e)) = blen (edata e)).
  { cbn. rewrite !blen_app, blen_ztake, blen_zdrop by lia. lia. }
  assert (Hw' : wf (append bs e)) by (split; [cbn; lia | rewrite Hl; cbn; lia]).
  split; [done|]. split; [|split; [done | rewrite available_wf, Hl by done; cbn; lia]].
  unfold written; cbn. rewrite app_assoc.
  replace (eoffset e + blen bs) with (blen (ztake (eoffset e) (edata e) ++ bs)) at 1.
  - apply ztake_app_length.
  - rewrite blen_app, blen_ztake by lia. lia.
Qed.

Lemma append_nil e : wf e -> append [] e = e.
Proof.
  intros [H0 H1]. unfold append. cbn [app]. rewrite blen_nil, Z.add_0_r, ztake_zdrop.
  now destruct e.
Qed.

Lemma append_append e bs1 bs2 :
  wf e -> blen bs1 + blen bs2 <= available e ->
  append bs2 (append bs1 e) = append (bs1 ++ bs2) e.
Proof.
  intros Hw Ha. pose proof (blen_nonneg bs1). pose proof (blen_nonneg bs2).
  destruct (append_spec e bs1 Hw ltac:(lia)) as (Hw1 & Hwr & Hl & Hav).
  unfold append at 1. unfold written in Hwr. rewrite Hwr. unfold append.
  cbn [eoffset edata]. rewrite blen_app, <- !app_assoc.
  rewrite (available_wf e) in Ha by exact Hw. destruct Hw as [Ho Hle]. f_equal; [|lia].
  do 3 f_equal. rewrite app_assoc.
  set (p := ztake (eoffset e) (edata e) ++ bs1).
  assert (Hp : blen p = eoffset e + blen bs1) by (unfold p; rewrite blen_app, blen_ztake by lia; lia).
  replace (eoffset e + blen bs1 + blen bs2) with (blen p + blen bs2) by lia.
  rewrite <- zdrop_zdrop by auto with zfs. rewrite zdrop_app_length.
  rewrite zdrop_zdrop by lia. f_equal. lia.
Qed.

Lemma put_bytes_spec e bs :
  wf e -> put_bytes bs e =
    if blen bs <=? available e then (Ok tt, append bs e)
    else (Err (EndOfOutput (eoffset e) (capacity e) (blen bs)), e).
Proof.
  intros Hw. unfold put_bytes, check_need; smunfold.
  destruct (Z.leb_spec (blen bs) (available e)); [|done].
  rewrite available_wf in * by done. destruct Hw as [H0 H1].
  pose proof (blen_nonneg bs). unfold copy_at. rewrite get_range_ok by lia. done.
Qed.

Lemma put_zeros_spec e n : wf e -> 0 <= n -> put_zeros n e = put_bytes (zrep n 0) e.
Proof. intros. unfold put_zeros, put_bytes. now rewrite blen_zrep. Qed.

Lemma put_1_byte_spec e v : wf e -> put_1_byte v e = put_bytes [v] e.
Proof.
  intros Hw. rewrite put_bytes_spec by done. unfold put_1_byte, check_need; smunfold.
  change (blen [v]) with 1. destruct (Z.leb_spec 1 (available e)); [|done].
  rewrite available_wf in * by done. destruct Hw as [H0 H1].
  unfold copy_at. change (blen [v]) with 1. rewrite get_range_ok by lia. done.
Qed.

End EncoderBuffer.

(** ** The encoder interface *)
Class BinaryEncoder := {
  put_bool : bool -> EncoderBuffer.W unit;
  put_bytes : bytes -> EncoderBuffer.W unit;
  put_bytes_n : bytes -> EncoderBuffer.W unit;
  put_str : bytes -> EncoderBuffer.W unit;
  put_str_n : bytes -> EncoderBuffer.W unit;
  put_f32 : Z -> EncoderBuffer.W unit;
  put_f64 : Z -> EncoderBuffer.W unit;
  put_i8 : Z -> EncoderBuffer.W unit;
  put_i16 : Z -> EncoderBuffer.W unit;
  put_i32 : Z -> EncoderBuffer.W unit;
  put_i64 : Z -> EncoderBuffer.W unit;
  put_u8 : Z -> EncoderBuffer.W unit;
  put_u16 : Z -> EncoderBuffer.W unit;
  put_u32 : Z -> EncoderBuffer.W unit;
  put_u64 : Z -> EncoderBuffer.W unit;
  put_zeros : Z -> EncoderBuffer.W unit
}.

Section provided_methods.
Context {BE : BinaryEncoder}.
Definition put_usize_32 (v : Z) : EncoderBuffer.W unit :=
  o ← sm_gets eoffset;
  if fitsb 32 v then put_u32 v else sm_err (EncodeUsizeConversion o v).
Definition put_usize_64 (v : Z) : EncoderBuffer.W unit :=
  o ← sm_gets eoffset;
  if fitsb 64 v then put_u64 v else sm_err (EncodeUsizeConversion o v).
End provided_methods.

Definition put_int (o : EndianOrder) (n : nat) (x : Z) : EncoderBuffer.W unit :=
  EncoderBuffer.put_bytes (int_to o n x).

Definition endian_encoder (o : EndianOrder) : BinaryEncoder := {|
  put_bool v := put_int o 4 (if v then 1 else 0);
  put_bytes _ := sm_err (EncodeNotSupported "put_bytes");
  put_bytes_n := EncoderBuffer.put_bytes;
  put_str v := (EncoderBuffer.put_bytes v;; EncoderBuffer.put_1_byte 0);
  put_str_n := EncoderBuffer.put_bytes;
  put_f32 := put_int o 4;
  put_f64 := put_int o 8;
  put_i8 v := EncoderBuffer.put_1_byte (of_signed 8 v);
  put_i16 v := put_int o 2 (of_signed 16 v);
  put_i32 v := put_int o 4 (of_signed 32 v);
  put_i64 v := put_int o 8 (of_signed 64 v);
  put_u8 := EncoderBuffer.put_1_byte;
  put_u16 := put_int o 2;
  put_u32 := put_int o 4;
  put_u64 := put_int o 8;
  put_zeros := EncoderBuffer.put_zeros
|}.

Definition BigEndianEncoder : BinaryEncoder := endian_encoder Big.
Definition LittleEndianEncoder : BinaryEncoder := endian_encoder Little.

Module XdrEnc.

Definition produce_padding (length : Z) : EncoderBuffer.W unit :=
  let remainder := length mod 4 in
  if remainder =? 0 then mret tt else EncoderBuffer.put_zeros (4 - remainder).

Definition put_bytes_n (v : bytes) : EncoderBuffer.W unit :=
  EncoderBuffer.put_bytes v;;
  produce_padding (blen v).

Definition put_u32 : Z -> EncoderBuffer.W unit := put_int Big 4.
Definition put_i32 (v : Z) : EncoderBuffer.W unit := put_int Big 4 (of_signed 32 v).

Definition put_bytes (v : bytes) : EncoderBuffer.W unit :=
  (o ← sm_gets eoffset;
   if fitsb 32 (blen v) then put_u32 (blen v)
   else sm_err (EncodeUsizeConversion o (blen v)));;
  put_bytes_n v.

(** A byte above 127 is sign-extended. *)
Definition put_u8 (v : Z) : EncoderBuffer.W unit :=
  put_u32 (if 127 <? v then v + 0xffffff00 else v).

Definition encoder : BinaryEncoder := {|
  put_bool v := put_u32 (if v then 1 else 0);
  Encoder.put_bytes := put_bytes;
  Encoder.put_bytes_n := put_bytes_n;
  put_str := put_bytes;
  put_str_n := put_bytes_n;
  put_f32 := put_int Big 4;
  put_f64 := put_int Big 8;
  put_i8 := put_i32;
  put_i16 := put_i32;
  Encoder.put_i32 := put_i32;
  put_i64 v := put_int Big 8 (of_signed 64 v);
  Encoder.put_u8 := put_u8;
  put_u16 := put_u32;
  Encoder.put_u32 := put_u32;
  put_u64 := put_int Big 8;
  put_zeros := EncoderBuffer.put_zeros
|}.

End XdrEnc.

Definition XdrEncoder : BinaryEncoder := XdrEnc.encoder.

(** ** Writing an encoding *)
Definition writes {E} (m : SM BinaryEncoderBuffer E unit) (bs : bytes) : Prop :=
  forall e, EncoderBuffer.wf e -> blen bs <= EncoderBuffer.available e ->
    m e = (Ok tt, EncoderBuffer.append bs e).

Lemma writes_ret {E} : writes (E := E) (mret tt) [].
Proof. intros e He _. cbn. now rewrite EncoderBuffer.append_nil. Qed.

Lemma writes_bind {E} (m : SM BinaryEncoderBuffer E unit) (f : unit -> SM _ E unit) bs1 bs2 :
  writes m bs1 -> writes (f tt) bs2 -> writes (m ≫= f) (bs1 ++ bs2).
Proof.
  intros Hm Hf e He Ha. rewrite blen_app in Ha.
  pose proof (blen_nonneg bs1). pose proof (blen_nonneg bs2).
  destruct (EncoderBuffer.append_spec e bs1 He ltac:(lia)) as (Hw1 & _ & _ & Hav).
  smunfold. rewrite Hm by (auto; lia). rewrite Hf by (auto; lia).
  rewrite EncoderBuffer.append_append by (auto; lia). done.
Qed.

Lemma writes_guard {E} b (e : E) : b = false -> writes (sm_guard b e) [].
Proof. intros -> e' He _. cbn. now rewrite EncoderBuffer.append_nil. Qed.

Lemma writes_bind_nil {E} (m : SM BinaryEncoderBuffer E unit) (f : unit -> SM _ E unit) bs :
  writes m [] -> writes (f tt) bs -> writes (m ≫= f) bs.
Proof. apply (writes_bind m f []). Qed.

Lemma writes_map_err {E F} (g : E -> F) (m : SM BinaryEncoderBuffer E unit) bs :
  writes m bs -> writes (sm_map_err g m) bs.
Proof. intros Hm e He Ha. unfold sm_map_err. now rewrite Hm. Qed.

Lemma writes_put_bytes bs : writes (EncoderBuffer.put_bytes bs) bs.
Proof.
  intros e He Ha. rewrite EncoderBuffer.put_bytes_spec by done.
  destruct (Z.leb_spec (blen bs) (EncoderBuffer.available e)); [done | lia].
Qed.

Lemma writes_put_int o n x : writes (put_int o n x) (int_to o n x).
Proof. apply writes_put_bytes. Qed.

Lemma writes_put_zeros n : 0 <= n -> writes (EncoderBuffer.put_zeros n) (zrep n 0).
Proof.
  intros Hn e He Ha. rewrite EncoderBuffer.put_zeros_spec by done.
  now apply writes_put_bytes.
Qed.

Lemma writes_put_1_byte v : writes (EncoderBuffer.put_1_byte v) [v].
Proof.
  intros e He Ha. rewrite EncoderBuffer.put_1_byte_spec by done.
  now apply writes_put_bytes.
Qed.

(** The bytes that an encoder run on an empty buffer of [n] bytes returns from
    [finish]. *)
Definition encode_into {E} (n : Z) (m : SM BinaryEncoderBuffer E unit) : outcome E bytes :=
  match m {| edata := zrep n 0; eoffset := 0 |} with
  | (Ok _, e) => match EncoderBuffer.finish e with Ok bs => Ok bs | _ => Panic end
  | (Err er, _) => Err er
  | (Panic, _) => Panic
  end.

Lemma writes_encode {E} (m : SM BinaryEncoderBuffer E unit) bs n :
  writes m bs -> blen bs <= n -> encode_into n m = Ok bs.
Proof.
  intros Hm Hn. pose proof (blen_nonneg bs). unfold encode_into.
  set (e0 := {| edata := zrep n 0; eoffset := 0 |}).
  assert (He : EncoderBuffer.wf e0) by (split; cbn; rewrite ?blen_zrep; lia).
  assert (Ha : EncoderBuffer.available e0 = n).
  { rewrite EncoderBuffer.available_wf by done. cbn. rewrite blen_zrep; lia. }
  rewrite Hm by (auto; lia).
  destruct (EncoderBuffer.append_spec e0 bs He ltac:(lia)) as (Hw & Hwr & _).
  rewrite EncoderBuffer.finish_written, Hwr by done.
  unfold EncoderBuffer.written. cbn [eoffset e0 edata]. now rewrite ztake_take by lia.
Qed.

#[export] Hint Resolve writes_put_bytes writes_put_int writes_put_zeros
  writes_put_1_byte : zfs.
