(* ===== verification/Codec.v ===== *)
(** * Record codecs

    The steps that every record decoder and encoder of src/phys is built from,
    with the caller's error injected around each: what each step reads from a
    laid-out record and what it writes, in either byte order, and that it never
    panics.  The tactics [cread], [cwrite] and [ccall] take one step of such a
    decoder or encoder. *)

From S2P Require Import Prelude Errors Decoder Encoder.

Open Scope Z_scope.
Open Scope list_scope.

Create HintDb codec.

Section steps.
Context {E : Type} (g : BinaryDecodeError -> E) (h : BinaryEncodeError -> E) (o : EndianOrder).
Abbreviation DL := (endian_decoder o).
Abbreviation EL := (endian_encoder o).

Lemma r_u8 x : is_byte x -> reads (sm_map_err g (@get_u8 DL)) [x] x.
Proof. intros. now apply reads_map_err, reads_get_1_byte. Qed.
Lemma r_u16 x : fits 16 x -> reads (sm_map_err g (@get_u16 DL)) (int_to o 2 x) x.
Proof. intros. apply reads_map_err. now apply (reads_get_int o 2). Qed.
Lemma r_u32 x : fits 32 x -> reads (sm_map_err g (@get_u32 DL)) (int_to o 4 x) x.
Proof. intros. apply reads_map_err. now apply (reads_get_int o 4). Qed.
Lemma r_u64 x : fits 64 x -> reads (sm_map_err g (@get_u64 DL)) (int_to o 8 x) x.
Proof. intros. apply reads_map_err. now apply (reads_get_int o 8). Qed.
Lemma r_zeros n : 0 <= n -> reads (sm_map_err g (@d_skip_zeros DL n)) (zrep n 0) tt.
Proof. intros. now apply reads_map_err, reads_skip_zeros. Qed.
Lemma r_skip bs n : n = blen bs -> reads (sm_map_err g (@d_skip DL n)) bs tt.
Proof. intros. now apply reads_map_err, reads_skip. Qed.
Lemma r_bytes bs n : n = blen bs -> reads (sm_map_err g (@get_bytes_n DL n)) bs bs.
Proof. intros. now apply reads_map_err, reads_get_bytes. Qed.
Lemma r_code {C F T} (f : C -> outcome F T) (e : F -> E) x y :
  f x = Ok y -> reads (sm_lift (map_err e (f x))) [] y.
Proof. intros -> b r _ _. unfold sm_lift. cbn. now rewrite advance_0. Qed.

(** The test for an empty record in front of a decoder. *)
Lemma r_empty_test {A} n (m : SM BinaryDecoderBuffer E (option A)) bs x :
  blen bs = n -> (forallb (Z.eqb 0) bs = true -> x = None) ->
  (forallb (Z.eqb 0) bs = false -> reads m bs x) ->
  reads (e ← sm_map_err g (@d_is_skip_zeros DL n); if (e : bool) then mret None else m) bs x.
Proof.
  intros Hn Ht Hf b r Hb Hr. unfold mbind at 1, SM_bind at 1. cbn [d_is_skip_zeros endian_decoder].
  unfold DecoderBuffer.is_skip_zeros, sm_map_err at 1.
  unfold sm_gets at 1, mbind at 1, SM_bind at 1, mbind at 1, SM_bind at 1.
  rewrite (reads_get_bytes bs n ltac:(lia) b r Hb Hr).
  destruct (forallb (Z.eqb 0) bs) eqn:E0; [now rewrite Ht|]. cbn [map_err sm_fun].
  replace (DecoderBuffer.with_offset (offset b) (DecoderBuffer.advance (blen bs) b))
    with b by (now destruct b).
  exact (Hf eq_refl b r Hb Hr).
Qed.

Lemma w_u8 x : writes (sm_map_err h (@put_u8 EL x)) [x].
Proof. apply writes_map_err, writes_put_1_byte. Qed.
Lemma w_u16 x : writes (sm_map_err h (@put_u16 EL x)) (int_to o 2 x).
Proof. apply writes_map_err, writes_put_int. Qed.
Lemma w_u32 x : writes (sm_map_err h (@put_u32 EL x)) (int_to o 4 x).
Proof. apply writes_map_err, writes_put_int. Qed.
Lemma w_u64 x : writes (sm_map_err h (@put_u64 EL x)) (int_to o 8 x).
Proof. apply writes_map_err, writes_put_int. Qed.
Lemma w_zeros n : 0 <= n -> writes (sm_map_err h (@put_zeros EL n)) (zrep n 0).
Proof. intros. now apply writes_map_err, writes_put_zeros. Qed.

(** The endian encoders refuse length-prefixed bytes. *)
Lemma w_bytes_refused bs : returns (fun _ => False) (sm_map_err h (@put_bytes EL bs)).
Proof. unfold sm_map_err. cbn. now intros e0 u e1. Qed.
End steps.

(** Going back over what was read leaves the decoder where it was. *)
Lemma reads_peek {E A} o (g : BinaryDecodeError -> E) (m : DecoderBuffer.D Z) (k : Z -> SM BinaryDecoderBuffer E A)
    x n pre bs c :
  n = blen pre -> reads (sm_map_err g m) pre x -> reads (k x) (pre ++ bs) c ->
  reads (v ← sm_map_err g m; sm_map_err g (@d_rewind (endian_decoder o) n);; k v) (pre ++ bs) c.
Proof.
  intros -> Hm Hk b r Hb Hr. rewrite <- (Hk b r Hb Hr). unfold mbind, SM_bind.
  rewrite <- app_assoc in Hr. rewrite (Hm b _ Hb Hr).
  unfold sm_map_err. cbn [d_rewind endian_decoder]. unfold DecoderBuffer.rewind.
  cbn [offset min_offset DecoderBuffer.advance DecoderBuffer.with_offset].
  destruct Hb as (Hlo & _). pose proof (blen_nonneg pre).
  rewrite !(proj2 (Z.ltb_ge _ _)) by lia. cbn. rewrite Z.add_simpl_r. now destruct b.
Qed.

(** Reading ahead and seeking back. *)
Lemma seek_back o n b : DecoderBuffer.wf b -> @d_seek (endian_decoder o) (offset b) (DecoderBuffer.advance n b) = (Ok tt, b).
Proof.
  intros (H1 & H2 & _). cbn [d_seek endian_decoder]. unfold DecoderBuffer.seek.
  cbn [min_offset max_offset DecoderBuffer.advance DecoderBuffer.with_offset].
  rewrite !(proj2 (Z.ltb_ge _ _)) by lia. now destruct b.
Qed.
Lemma reads_look_ahead {E A} o (g : BinaryDecodeError -> E) (k : Z -> SM BinaryDecoderBuffer E A) n x pre post c :
  n = blen pre -> fits 16 x -> reads (k x) (pre ++ int_to o 2 x ++ post) c ->
  reads (off ← sm_gets offset; sm_map_err g (@d_skip (endian_decoder o) n);;
         v ← sm_map_err g (@get_u16 (endian_decoder o)); sm_map_err g (@d_seek (endian_decoder o) off);; k v)
    (pre ++ int_to o 2 x ++ post) c.
Proof.
  intros Hn Hx Hk b r Hb Hr. rewrite (SM_run (sm_gets offset) _ b (offset b) b eq_refl).
  pose proof Hr as Hr'. rewrite <- !app_assoc in Hr'. rewrite (SM_run _ _ _ _ _ (r_skip g o pre n Hn b _ Hb Hr')).
  destruct (remaining_app b _ _ Hb Hr') as [Hb1 Hr1]. rewrite (SM_run _ _ _ _ _ (r_u16 g o x Hx _ _ Hb1 Hr1)), advance_advance.
  erewrite (SM_run _ _ _ tt b); [exact (Hk b r Hb Hr)|]. unfold sm_map_err. now rewrite seek_back.
Qed.

(** [ends m bs a]: with exactly [bs] left, [m] reads it all and returns [a]. *)
Definition ends {E A} (m : SM BinaryDecoderBuffer E A) (bs : bytes) (a : A) : Prop :=
  forall b, DecoderBuffer.wf b -> DecoderBuffer.remaining b = bs -> m b = (Ok a, DecoderBuffer.advance (blen bs) b).

Lemma reads_ends {E A} (m : SM BinaryDecoderBuffer E A) bs a : reads m bs a -> ends m bs a.
Proof. intros Hm b Hb Hr. apply (Hm b []); [done|]. now rewrite app_nil_r. Qed.

Lemma ends_bind {E A B} (m : SM BinaryDecoderBuffer E A) (f : A -> SM _ E B) bs1 bs2 a c :
  reads m bs1 a -> ends (f a) bs2 c -> ends (m ≫= f) (bs1 ++ bs2) c.
Proof.
  intros Hm Hf b Hb Hr. destruct (remaining_app b bs1 bs2 Hb Hr) as [Hb' Hr'].
  unfold mbind, SM_bind. rewrite (Hm b bs2 Hb Hr), (Hf _ Hb' Hr'). f_equal.
  rewrite advance_advance, blen_app. done.
Qed.
Lemma ends_bind_nil {E A B} (m : SM BinaryDecoderBuffer E A) (f : A -> SM _ E B) bs a c :
  reads m [] a -> ends (f a) bs c -> ends (m ≫= f) bs c.
Proof. apply (ends_bind m f []). Qed.

Lemma ends_then {E A B} (m : SM BinaryDecoderBuffer E A) (f : A -> SM _ E B) bs a c :
  ends m bs a -> ends (f a) [] c -> ends (m ≫= f) bs c.
Proof.
  intros Hm Hf b Hb Hr. assert (Hr0 : DecoderBuffer.remaining b = bs ++ []) by now rewrite app_nil_r.
  destruct (remaining_app b bs [] Hb Hr0) as [Hb' Hr'].
  unfold mbind, SM_bind. rewrite (Hm b Hb Hr), (Hf _ Hb' Hr'), advance_0. done.
Qed.
Lemma ends_last {E A B} (m : SM BinaryDecoderBuffer E A) (f : A -> SM _ E B) bs a c :
  ends m bs a -> reads (f a) [] c -> ends (m ≫= f) bs c.
Proof. intros Hm Hf. eapply ends_then; [exact Hm|]. now apply reads_ends. Qed.

(** Whether anything is left. *)
Lemma ends_empty {E A} (x y : SM BinaryDecoderBuffer E A) bs a :
  (bs = [] -> ends x bs a) -> (bs <> [] -> ends y bs a) ->
  ends (b ← sm_get; if DecoderBuffer.is_empty b then x else y) bs a.
Proof.
  intros Hx Hy b Hb Hr. unfold mbind, SM_bind, sm_get, DecoderBuffer.is_empty.
  rewrite DecoderBuffer.len_remaining, Hr by done. destruct bs as [|v bs].
  - now apply Hx.
  - rewrite (proj2 (Z.eqb_neq _ _)) by (rewrite blen_cons; pose proof (blen_nonneg bs); lia). now apply Hy.
Qed.

(** [stops m bs P]: with exactly [bs] left, [m] fails with an error in [P]. *)
Definition stops {E A} (m : SM BinaryDecoderBuffer E A) (bs : bytes) (P : E -> Prop) : Prop :=
  forall b, DecoderBuffer.wf b -> DecoderBuffer.remaining b = bs -> exists e, fst (m b) = Err e /\ P e.

Lemma stops_bind {E A B} (m : SM BinaryDecoderBuffer E A) (f : A -> SM _ E B) bs1 bs2 a P :
  reads m bs1 a -> stops (f a) bs2 P -> stops (m ≫= f) (bs1 ++ bs2) P.
Proof.
  intros Hm Hf b Hb Hr. destruct (remaining_app b bs1 bs2 Hb Hr) as [Hb' Hr'].
  unfold mbind, SM_bind. rewrite (Hm b bs2 Hb Hr). exact (Hf _ Hb' Hr').
Qed.
Lemma stops_bind_nil {E A B} (m : SM BinaryDecoderBuffer E A) (f : A -> SM _ E B) bs a P :
  reads m [] a -> stops (f a) bs P -> stops (m ≫= f) bs P.
Proof. apply (stops_bind m f []). Qed.
Lemma stops_here {E A B} (m : SM BinaryDecoderBuffer E A) (f : A -> SM _ E B) bs P :
  stops m bs P -> stops (m ≫= f) bs P.
Proof.
  intros Hm b Hb Hr. destruct (Hm b Hb Hr) as (e & He & Hp). exists e. split; [|done].
  unfold mbind, SM_bind. destruct (m b) as [r b']. cbn in He. now subst r.
Qed.
Lemma stops_skip_zeros {E} o (g : BinaryDecodeError -> E) n bs :
  0 <= n -> blen bs < n ->
  stops (sm_map_err g (@d_skip_zeros (endian_decoder o) n)) bs
    (fun e => exists off max cap, e = g (EndOfInput off max cap n)).
Proof.
  intros Hn Hl b Hb Hr. unfold sm_map_err. cbn [d_skip_zeros endian_decoder]. unfold DecoderBuffer.skip_zeros.
  smunfold. rewrite DecoderBuffer.get_bytes_spec by done.
  rewrite Hr, (proj2 (Z.leb_gt _ _)) by lia. cbn. eexists. split; [reflexivity|]. eauto.
Qed.

(** [gives m bs a]: with exactly [bs] left, [m] returns [a], wherever it stops. *)
Definition gives {E A} (m : SM BinaryDecoderBuffer E A) (bs : bytes) (a : A) : Prop :=
  forall b, DecoderBuffer.wf b -> DecoderBuffer.remaining b = bs -> fst (m b) = Ok a.

Lemma gives_bind {E A B} (m : SM BinaryDecoderBuffer E A) (f : A -> SM _ E B) bs1 bs2 a c :
  reads m bs1 a -> gives (f a) bs2 c -> gives (m ≫= f) (bs1 ++ bs2) c.
Proof.
  intros Hm Hf b Hb Hr. destruct (remaining_app b bs1 bs2 Hb Hr) as [Hb' Hr'].
  unfold mbind, SM_bind. rewrite (Hm b bs2 Hb Hr). exact (Hf _ Hb' Hr').
Qed.
Lemma gives_bind_nil {E A B} (m : SM BinaryDecoderBuffer E A) (f : A -> SM _ E B) bs a c :
  reads m [] a -> gives (f a) bs c -> gives (m ≫= f) bs c.
Proof. apply (gives_bind m f []). Qed.

Lemma writes_last {E} (m : SM BinaryEncoderBuffer E unit) bs : writes m (bs ++ []) -> writes m bs.
Proof. now rewrite app_nil_r. Qed.

(** An encoder that asks for length-prefixed bytes somewhere produces nothing. *)
Lemma encode_refused {E} n (m : SM BinaryEncoderBuffer E unit) bs :
  returns (fun _ => False) m -> encode_into n m <> Ok bs.
Proof.
  intros Hr. unfold encode_into. destruct (m _) as [[u|e|] s'] eqn:Ed; [|done|done].
  now apply Hr in Ed.
Qed.

#[export] Hint Resolve r_u8 r_u16 r_u32 r_u64 r_zeros r_skip r_bytes : codec.
#[export] Hint Resolve w_u8 w_u16 w_u32 w_u64 w_zeros : codec.

Ltac cread := eapply reads_bind; [solve [eauto with codec]|].
Ltac sread := eapply stops_bind; [solve [eauto with codec]|].
Ltac gread := eapply gives_bind; [solve [eauto with codec]|].
Ltac eread := eapply ends_bind; [solve [eauto with codec]|].
Ltac cguard := eapply reads_bind_nil; [apply reads_guard|].
Ltac cwrite := eapply writes_bind; [solve [auto with codec]|].

Section laws.
Context {BD : BinaryDecoder} {L : BinaryDecoderLaws BD} {E : Type} (g : BinaryDecodeError -> E) (w : bytes * Z * Z).
Abbreviation I := (DecoderBuffer.inv w).
Lemma h_u8 : hoare I (sm_map_err g get_u8) (fits 8).
Proof. apply hoare_map_err, law_u8. Qed.
Lemma h_u16 : hoare I (sm_map_err g get_u16) (fits 16).
Proof. apply hoare_map_err, law_u16. Qed.
Lemma h_u32 : hoare I (sm_map_err g get_u32) (fits 32).
Proof. apply hoare_map_err, law_u32. Qed.
Lemma h_u64 : hoare I (sm_map_err g get_u64) (fits 64).
Proof. apply hoare_map_err, law_u64. Qed.
Lemma h_zeros n : 0 <= n -> hoare I (sm_map_err g (d_skip_zeros n)) (fun _ => True).
Proof. intros. now apply hoare_map_err, law_skip_zeros. Qed.
Lemma h_empty n : 0 <= n -> hoare I (sm_map_err g (d_is_skip_zeros n)) (fun _ => True).
Proof. intros. now apply hoare_map_err, law_is_skip_zeros. Qed.
Lemma h_skip n : 0 <= n -> hoare I (sm_map_err g (d_skip n)) (fun _ => True).
Proof. intros. now apply hoare_map_err, law_skip. Qed.
Lemma h_rewind n : 0 <= n -> hoare I (sm_map_err g (d_rewind n)) (fun _ => True).
Proof. intros. now apply hoare_map_err, law_rewind. Qed.
Lemma h_bytes n : 0 <= n -> hoare I (sm_map_err g (get_bytes_n n)) (fun v => blen v = n /\ bytes_ok v).
Proof. intros. now apply hoare_map_err, law_bytes_n. Qed.
Lemma h_code {C F T} (f : C -> outcome F T) (e : F -> E) x :
  safe (fun _ => True) (f x) -> hoare I (sm_lift (map_err e (f x))) (fun _ => True).
Proof. intros. now apply hoare_lift, safe_map_err. Qed.
Lemma h_guard b (e : E) : hoare I (sm_guard b e) (fun _ => b = false).
Proof. apply hoare_guard. Qed.
End laws.

#[export] Hint Resolve h_u8 h_u16 h_u32 h_u64 h_zeros h_empty h_skip h_rewind h_bytes h_code h_guard : codec.

(** One step of a decoder, for a proof that it does not panic. *)
Ltac ccall := eapply hoare_bind; [solve [eauto with codec zfs | apply h_code; auto with zfs | apply h_zeros; done
                                       | apply h_bytes; done | apply h_skip; done | apply h_empty; done]
                                 | intros ? ?].

(** Running a decoder on a byte string from its start ([with_decoder] of
    src/file.rs). *)
Definition with_decoder {E A} (o : EndianOrder) (m : BinaryDecoder -> SM BinaryDecoderBuffer E A) (l : bytes) :
    outcome E A :=
  fst (m (endian_decoder o) (DecoderBuffer.from_bytes l)).

Lemma with_decoder_safe {E A} o (m : BinaryDecoder -> SM BinaryDecoderBuffer E A) P l :
  (forall w, hoare (DecoderBuffer.inv w) (m (endian_decoder o)) P) -> bytes_ok l -> safe P (with_decoder o m l).
Proof.
  intros Hm Hl. assert (Hi : DecoderBuffer.inv (l, 0, blen l) (DecoderBuffer.from_bytes l)).
  { split; [now apply DecoderBuffer.wf_from_bytes | done]. }
  exact (proj2 (Hm (l, 0, blen l) _ Hi)).
Qed.

Lemma with_decoder_reads {E A} o (m : BinaryDecoder -> SM BinaryDecoderBuffer E A) bs r a :
  reads (m (endian_decoder o)) bs a -> bytes_ok (bs ++ r) -> with_decoder o m (bs ++ r) = Ok a.
Proof. intros Hm Hb. unfold with_decoder. now apply reads_run. Qed.

Lemma with_decoder_ends {E A} o (m : BinaryDecoder -> SM BinaryDecoderBuffer E A) bs a :
  ends (m (endian_decoder o)) bs a -> bytes_ok bs -> with_decoder o m bs = Ok a.
Proof.
  intros Hm Hb. unfold with_decoder.
  now rewrite (Hm _ (DecoderBuffer.wf_from_bytes _ Hb) (DecoderBuffer.remaining_from_bytes bs)).
Qed.

Lemma with_decoder_stops {E A} o (m : BinaryDecoder -> SM BinaryDecoderBuffer E A) bs P :
  stops (m (endian_decoder o)) bs P -> bytes_ok bs -> exists e, with_decoder o m bs = Err e /\ P e.
Proof.
  intros Hm Hb. apply Hm; [now apply DecoderBuffer.wf_from_bytes|apply DecoderBuffer.remaining_from_bytes].
Qed.

(** ** Arrays of records: the same step for every element. *)
Fixpoint get_each {S E A} (m : SM S E A) (n : nat) : SM S E (list A) :=
  match n with
  | O => mret []
  | Datatypes.S n' => x ← m; xs ← get_each m n'; mret (x :: xs)
  end.
Fixpoint put_each {S E A} (m : A -> SM S E unit) (xs : list A) : SM S E unit :=
  match xs with
  | [] => mret tt
  | x :: xs' => m x;; put_each m xs'
  end.

Lemma hoare_get_each {S E A} (I : S -> Prop) (m : SM S E A) P n :
  hoare I m P -> hoare I (get_each m n) (fun xs => length xs = n /\ Forall P xs).
Proof.
  intros Hm. induction n as [|n IH]; cbn [get_each]; [now apply hoare_ret|].
  eapply hoare_bind; [exact Hm|]. intros x Hx. eapply hoare_bind; [exact IH|]. intros xs [Hn Hxs].
  apply hoare_ret. split; [cbn; now rewrite Hn|now constructor].
Qed.
Lemma reads_get_each {E A} (m : SM BinaryDecoderBuffer E A) (f : A -> bytes) xs :
  Forall (fun x => reads m (f x) x) xs -> reads (get_each m (length xs)) (flat_map f xs) xs.
Proof.
  induction 1 as [|x xs Hx _ IH]; cbn [get_each length flat_map]; [apply reads_ret|].
  eapply reads_bind; [exact Hx|]. apply reads_last. eapply reads_bind; [exact IH|]. apply reads_ret.
Qed.
Lemma writes_put_each {E A} (m : A -> SM BinaryEncoderBuffer E unit) (f : A -> bytes) xs :
  Forall (fun x => writes (m x) (f x)) xs -> writes (put_each m xs) (flat_map f xs).
Proof.
  induction 1 as [|x xs Hx _ IH]; cbn [put_each flat_map]; [apply writes_ret|]. now eapply writes_bind.
Qed.
Lemma bytes_ok_flat_map {A} (f : A -> bytes) l : Forall (fun x => bytes_ok (f x)) l -> bytes_ok (flat_map f l).
Proof. induction 1; cbn [flat_map]; [constructor|]. now apply Forall_app_2. Qed.
Lemma blen_flat_map {A} (f : A -> bytes) n l :
  Forall (fun x => blen (f x) = n) l -> blen (flat_map f l) = n * blen l.
Proof. induction 1 as [|x l Hx _ IH]; cbn [flat_map]; [unfold blen; cbn; lia|]. rewrite blen_app, blen_cons, Hx, IH. lia. Qed.

(** ** How much a decoder takes *)

(** [consumes n m]: when [m] succeeds it has taken [n] bytes. *)
Definition consumes {E A} (n : Z) (m : SM BinaryDecoderBuffer E A) : Prop :=
  forall b a b', DecoderBuffer.wf b -> m b = (Ok a, b') ->
    DecoderBuffer.wf b' /\ DecoderBuffer.len b' = DecoderBuffer.len b - n.

Lemma consumes_bind {E A C} n m (x : SM BinaryDecoderBuffer E A) (f : A -> SM _ E C) :
  consumes n x -> (forall a, consumes m (f a)) -> consumes (n + m) (x ≫= f).
Proof.
  intros Hx Hf b c b' Hb Hr. apply SM_bind_ok in Hr as (a & b1 & H1 & H2).
  destruct (Hx b a b1 Hb H1) as [Hb1 Hl1]. destruct (Hf a b1 c b' Hb1 H2) as [Hb2 Hl2]. split; [done|lia].
Qed.
Lemma consumes_map_err {E F A} n (g : E -> F) (x : SM BinaryDecoderBuffer E A) : consumes n x -> consumes n (sm_map_err g x).
Proof.
  intros Hx b a b' Hb. unfold sm_map_err. destruct (x b) as [[v|e|] s] eqn:E0; cbn; try done.
  intros [= -> ->]. eauto.
Qed.
Lemma consumes_pure {E A} (m : outcome E A) : consumes 0 (sm_lift m).
Proof. intros b a b' Hb [= _ ->]. split; [done|lia]. Qed.
Lemma consumes_err {E A} n (e : E) : consumes (A := A) n (sm_err e).
Proof. intros b a b' _ [=]. Qed.
Lemma consumes_get_bytes n : 0 <= n -> consumes n (DecoderBuffer.get_bytes n).
Proof.
  intros Hn b a b' Hb. rewrite DecoderBuffer.get_bytes_spec by done.
  destruct (Z.leb_spec n (blen (DecoderBuffer.remaining b))); [|done]. intros [= _ <-].
  split; [now apply DecoderBuffer.wf_advance|].
  rewrite !DecoderBuffer.len_remaining, DecoderBuffer.remaining_advance, blen_zdrop by (done || now apply DecoderBuffer.wf_advance).
  lia.
Qed.
Lemma consumes_int o n : 0 <= n -> consumes n (get_int o n).
Proof.
  intros Hn. replace n with (n + 0) at 1 by lia. apply consumes_bind; [|intros; apply (consumes_pure (Ok _))].
  intros b a b' Hb. rewrite DecoderBuffer.get_n_bytes_spec by done. now apply consumes_get_bytes.
Qed.
Lemma consumes_skip_zeros n : 0 <= n -> consumes n (DecoderBuffer.skip_zeros n).
Proof.
  intros Hn b a b' Hb Hr. apply SM_bind_ok in Hr as (off & b1 & [= <- <-] & Hr).
  apply SM_bind_ok in Hr as (bs & b2 & H1 & H2). destruct (consumes_get_bytes n Hn b bs b2 Hb H1) as [Hb2 Hl2].
  destruct (forallb _ bs); [|done]. now injection H2 as <- <-.
Qed.

(** The emptiness test takes the bytes only when they are all zero. *)
Lemma is_skip_zeros_consumes n b r b' :
  0 <= n -> DecoderBuffer.wf b -> DecoderBuffer.is_skip_zeros n b = (Ok r, b') ->
  if (r : bool) then DecoderBuffer.wf b' /\ DecoderBuffer.len b' = DecoderBuffer.len b - n else b' = b.
Proof.
  intros Hn Hb Hr. apply SM_bind_ok in Hr as (off & b1 & [= <- <-] & Hr).
  apply SM_bind_ok in Hr as (bs & b2 & H1 & H2).
  pose proof (consumes_get_bytes n Hn b bs b2 Hb H1) as [Hb2 Hl2].
  destruct (forallb _ bs); [injection H2 as <- <-; done|]. unfold sm_fun in H2. injection H2 as <- <-.
  rewrite DecoderBuffer.get_bytes_spec in H1 by done. destruct (n <=? _); [|done]. injection H1 as _ <-. now destruct b.
Qed.

(** The word a decoder returned is the one that was there. *)
Lemma u64_taken {E} (g : BinaryDecodeError -> E) o b v b' :
  DecoderBuffer.wf b -> sm_map_err g (@get_u64 (endian_decoder o)) b = (Ok v, b') ->
  fits 64 v /\ DecoderBuffer.remaining b = int_to o 8 v ++ DecoderBuffer.remaining b' /\ DecoderBuffer.wf b'.
Proof.
  intros Hb. unfold sm_map_err. cbn [get_u64 endian_decoder]. unfold get_int, mbind, SM_bind.
  rewrite DecoderBuffer.get_n_bytes_spec, DecoderBuffer.get_bytes_spec by done.
  destruct (Z.leb_spec 8 (blen (DecoderBuffer.remaining b))) as [Hl|]; [|done]. cbn. intros [= <- <-].
  assert (Hn : blen (ztake 8 (DecoderBuffer.remaining b)) = 8) by (rewrite blen_ztake; lia).
  pose proof (DecoderBuffer.bytes_ok_remaining b Hb) as Hok. split; [|split].
  - apply (int_from_fits o _ 8); [now apply bytes_ok_ztake|done].
  - rewrite DecoderBuffer.remaining_advance by done.
    replace 8%nat with (length (ztake 8 (DecoderBuffer.remaining b))) by (unfold blen in Hn; lia).
    rewrite int_to_from by now apply bytes_ok_ztake. now rewrite ztake_zdrop.
  - now apply DecoderBuffer.wf_advance.
Qed.
