(* ===== verification/Wire.v ===== *)
(** * The generic values of the binary codecs (src/phys/binary.rs)

    The owned decoders and encoders that carry their byte order, and the
    conveniences [get], [get_n], [put] and [put_n], which dispatch on the Rust
    type of the value: one constructor of [Wire.t] per implementor of
    [GetValueFromBinaryDecoder] and [PutValueIntoBinaryEncode].  A sequence of values
    put through any of the three codecs is read back by the decoder of that codec. *)

From S2P Require Import Prelude Errors Decoder Encoder Codec.

Open Scope Z_scope.
Open Scope list_scope.

(** ** Decoders and encoders that carry their order *)
Inductive BigLittleEndianDecoder : Type :=
| BigDecoder (buffer : BinaryDecoderBuffer)
| LittleDecoder (buffer : BinaryDecoderBuffer).
Inductive BigLittleXdrEndianDecoder : Type :=
| BigLittle (decoder : BigLittleEndianDecoder)
| XdrBuffer (buffer : BinaryDecoderBuffer).
Inductive BigLittleEndianEncoder : Type :=
| BigEncoder (buffer : BinaryEncoderBuffer)
| LittleEncoder (buffer : BinaryEncoderBuffer).

Module Owned.
Definition from_bytes (l : bytes) (order : EndianOrder) : BigLittleEndianDecoder :=
  match order with
  | Big => BigDecoder (DecoderBuffer.from_bytes l)
  | Little => LittleDecoder (DecoderBuffer.from_bytes l)
  end.
Definition from_bytes_clamped (l : bytes) (offset length : Z) (order : EndianOrder)
    : outcome BinaryDecodeError BigLittleEndianDecoder :=
  match order with
  | Big => b ← DecoderBuffer.from_bytes_clamped l offset length; Ok (BigDecoder b)
  | Little => b ← DecoderBuffer.from_bytes_clamped l offset length; Ok (LittleDecoder b)
  end.

(** [decoder_as_mut] and [decoder_as_ref]: the operations and the buffer they work on. *)
Definition decoder (d : BigLittleEndianDecoder) : BinaryDecoder * BinaryDecoderBuffer :=
  match d with
  | BigDecoder b => (BigEndianDecoder, b)
  | LittleDecoder b => (LittleEndianDecoder, b)
  end.
Definition xdr_decoder (d : BigLittleXdrEndianDecoder) : BinaryDecoder * BinaryDecoderBuffer :=
  match d with
  | BigLittle d' => decoder d'
  | XdrBuffer b => (XdrDecoder, b)
  end.

(** [EndianDecoder::order] behind [decoder_as_ref]. *)
Definition order (d : BigLittleEndianDecoder) : EndianOrder :=
  match d with BigDecoder _ => Big | LittleDecoder _ => Little end.

Definition to_bytes (l : bytes) (order : EndianOrder) : BigLittleEndianEncoder :=
  let buffer := {| edata := l; eoffset := 0 |} in
  match order with
  | Big => BigEncoder buffer
  | Little => LittleEncoder buffer
  end.
Definition encoder (e : BigLittleEndianEncoder) : BinaryEncoder * BinaryEncoderBuffer :=
  match e with
  | BigEncoder b => (BigEndianEncoder, b)
  | LittleEncoder b => (LittleEndianEncoder, b)
  end.
(** [EndianEncoder::order] behind [encoder]. *)
Definition encoder_order (e : BigLittleEndianEncoder) : EndianOrder :=
  match e with BigEncoder _ => Big | LittleEncoder _ => Little end.
End Owned.

(** ** Values by their Rust type *)
Module Wire.
Inductive t : Type :=
| Bool | Slice | Str | F32 | F64 | I8 | I16 | I32 | I64 | U8 | U16 | U32 | U64.
(** A value with its type; a float is its bit pattern. *)
Inductive value : Type :=
| VBool (b : bool) | VSlice (l : bytes) | VStr (s : bytes) | VF32 (x : Z) | VF64 (x : Z)
| VI8 (x : Z) | VI16 (x : Z) | VI32 (x : Z) | VI64 (x : Z)
| VU8 (x : Z) | VU16 (x : Z) | VU32 (x : Z) | VU64 (x : Z).
Definition type_of (v : value) : t :=
  match v with
  | VBool _ => Bool | VSlice _ => Slice | VStr _ => Str | VF32 _ => F32 | VF64 _ => F64
  | VI8 _ => I8 | VI16 _ => I16 | VI32 _ => I32 | VI64 _ => I64
  | VU8 _ => U8 | VU16 _ => U16 | VU32 _ => U32 | VU64 _ => U64
  end.

Definition get {BD : BinaryDecoder} (w : t) : DecoderBuffer.D value :=
  match w with
  | Bool => v ← get_bool; mret (VBool v)
  | Slice => v ← get_bytes; mret (VSlice v)
  | Str => v ← get_str; mret (VStr v)
  | F32 => v ← get_f32; mret (VF32 v)
  | F64 => v ← get_f64; mret (VF64 v)
  | I8 => v ← get_i8; mret (VI8 v)
  | I16 => v ← get_i16; mret (VI16 v)
  | I32 => v ← get_i32; mret (VI32 v)
  | I64 => v ← get_i64; mret (VI64 v)
  | U8 => v ← get_u8; mret (VU8 v)
  | U16 => v ← get_u16; mret (VU16 v)
  | U32 => v ← get_u32; mret (VU32 v)
  | U64 => v ← get_u64; mret (VU64 v)
  end.
Definition put {BE : BinaryEncoder} (v : value) : EncoderBuffer.W unit :=
  match v with
  | VBool x => put_bool x
  | VSlice x => put_bytes x
  | VStr x => put_str x
  | VF32 x => put_f32 x
  | VF64 x => put_f64 x
  | VI8 x => put_i8 x
  | VI16 x => put_i16 x
  | VI32 x => put_i32 x
  | VI64 x => put_i64 x
  | VU8 x => put_u8 x
  | VU16 x => put_u16 x
  | VU32 x => put_u32 x
  | VU64 x => put_u64 x
  end.

(** The two implementors of the counted forms. *)
Inductive nt : Type := NSlice (length : Z) | NStr (length : Z).
Inductive nvalue : Type := NVSlice (l : bytes) | NVStr (s : bytes).
Definition ntype_of (v : nvalue) : nt :=
  match v with NVSlice l => NSlice (blen l) | NVStr s => NStr (blen s) end.
Definition get_n {BD : BinaryDecoder} (w : nt) : DecoderBuffer.D nvalue :=
  match w with
  | NSlice length => v ← get_bytes_n length; mret (NVSlice v)
  | NStr length => v ← get_str_n length; mret (NVStr v)
  end.
Definition put_n {BE : BinaryEncoder} (v : nvalue) : EncoderBuffer.W unit :=
  match v with NVSlice l => put_bytes_n l | NVStr s => put_str_n s end.
End Wire.

(** ** Codecs *)
Inductive codec : Type := Endian (o : EndianOrder) | XdrCodec.
Definition decoder_of (c : codec) : BinaryDecoder :=
  match c with Endian o => endian_decoder o | XdrCodec => XdrDecoder end.
Definition encoder_of (c : codec) : BinaryEncoder :=
  match c with Endian o => endian_encoder o | XdrCodec => XdrEncoder end.

(** A sequence of values, plain or counted, and what it is read as. *)
Definition item : Type := (Wire.value + Wire.nvalue)%type.
Definition put_item (c : codec) (i : item) : EncoderBuffer.W unit :=
  match i with inl v => @Wire.put (encoder_of c) v | inr v => @Wire.put_n (encoder_of c) v end.
Definition get_item (c : codec) (i : Wire.t + Wire.nt) : DecoderBuffer.D item :=
  match i with
  | inl w => v ← @Wire.get (decoder_of c) w; mret (inl v)
  | inr w => v ← @Wire.get_n (decoder_of c) w; mret (inr v)
  end.
Definition item_type (i : item) : Wire.t + Wire.nt :=
  match i with inl v => inl (Wire.type_of v) | inr v => inr (Wire.ntype_of v) end.
Fixpoint get_items (c : codec) (ts : list (Wire.t + Wire.nt)) : DecoderBuffer.D (list item) :=
  match ts with
  | [] => mret []
  | w :: ts' => x ← get_item c w; xs ← get_items c ts'; mret (x :: xs)
  end.

(** The values of a Rust type that the codec has an encoding for: a slice of unknown
    length only in XDR, a string without a zero byte where it is terminated by one. *)
Definition signed (w x : Z) : Prop := - 2 ^ (w - 1) <= x < 2 ^ (w - 1).
Definition utf8_ok (s : bytes) : Prop := bytes_ok s /\ from_utf8 s = Ok s.
Definition value_ok (c : codec) (v : Wire.value) : Prop :=
  match v with
  | Wire.VBool _ => True
  | Wire.VSlice l => c = XdrCodec /\ bytes_ok l /\ fits 32 (blen l)
  | Wire.VStr s => utf8_ok s /\ match c with Endian _ => ~ In 0 s | XdrCodec => fits 32 (blen s) end
  | Wire.VI8 x => signed 8 x | Wire.VI16 x => signed 16 x | Wire.VI32 x => signed 32 x | Wire.VI64 x => signed 64 x
  | Wire.VU8 x => fits 8 x | Wire.VU16 x => fits 16 x | Wire.VF32 x | Wire.VU32 x => fits 32 x
  | Wire.VF64 x | Wire.VU64 x => fits 64 x
  end.
Definition item_ok (c : codec) (i : item) : Prop :=
  match i with
  | inl v => value_ok c v
  | inr (Wire.NVSlice l) => bytes_ok l
  | inr (Wire.NVStr s) => utf8_ok s
  end.

(** ** The bytes of a value *)
Abbreviation xdr_padded l := (l ++ zrep (- blen l mod 4) 0).
Definition endian_image (o : EndianOrder) (v : Wire.value) : bytes :=
  match v with
  | Wire.VBool b => int_to o 4 (if b then 1 else 0)
  | Wire.VSlice _ => []
  | Wire.VStr s => s ++ [0]
  | Wire.VI8 x => [of_signed 8 x] | Wire.VI16 x => int_to o 2 (of_signed 16 x)
  | Wire.VI32 x => int_to o 4 (of_signed 32 x) | Wire.VI64 x => int_to o 8 (of_signed 64 x)
  | Wire.VU8 x => [x] | Wire.VU16 x => int_to o 2 x
  | Wire.VF32 x | Wire.VU32 x => int_to o 4 x | Wire.VF64 x | Wire.VU64 x => int_to o 8 x
  end.
Definition xdr_image (v : Wire.value) : bytes :=
  match v with
  | Wire.VBool b => int_to Big 4 (if b then 1 else 0)
  | Wire.VSlice l | Wire.VStr l => int_to Big 4 (blen l) ++ xdr_padded l
  | Wire.VI8 x | Wire.VI16 x | Wire.VI32 x => int_to Big 4 (of_signed 32 x)
  | Wire.VI64 x => int_to Big 8 (of_signed 64 x)
  | Wire.VU8 x => int_to Big 4 (if 127 <? x then x + 0xffffff00 else x)
  | Wire.VU16 x | Wire.VF32 x | Wire.VU32 x => int_to Big 4 x
  | Wire.VF64 x | Wire.VU64 x => int_to Big 8 x
  end.
Definition image (c : codec) (i : item) : bytes :=
  match c, i with
  | Endian o, inl v => endian_image o v
  | XdrCodec, inl v => xdr_image v
  | Endian _, inr (Wire.NVSlice l) | Endian _, inr (Wire.NVStr l) => l
  | XdrCodec, inr (Wire.NVSlice l) | XdrCodec, inr (Wire.NVStr l) => xdr_padded l
  end.

(** ** Steps *)
Lemma reads_fmap {E A C} (m : SM BinaryDecoderBuffer E A) (f : A -> C) bs a :
  reads m bs a -> reads (v ← m; mret (f v)) bs (f a).
Proof. intros Hm. apply reads_last. eapply reads_bind; [exact Hm|apply reads_ret]. Qed.

(** A step that looks at the offset only to report it. *)
Lemma reads_at_offset {A} (k : Z -> DecoderBuffer.D A) bs a :
  (forall p, reads (k p) bs a) -> reads (p ← sm_gets offset; k p) bs a.
Proof. intros Hk b r Hb Hr. now apply Hk with r. Qed.

Lemma reads_checked (m : DecoderBuffer.D Z) (f : Z -> Z) (ok : Z -> bool) err bs x :
  reads m bs x -> ok (f x) = true ->
  reads (p ← sm_gets offset; v ← m; if ok (f v) then mret (f v) else sm_err (err p (f v))) bs (f x).
Proof.
  intros Hm Hok. apply reads_at_offset. intros p. apply reads_last.
  eapply reads_bind; [exact Hm|]. rewrite Hok. apply reads_ret.
Qed.

Lemma reads_bool o (b : bool) : reads (bool_of_u32 (get_int o 4)) (int_to o 4 (if b then 1 else 0)) b.
Proof.
  apply reads_at_offset. intros p. apply reads_last.
  eapply reads_bind; [apply (reads_get_int o 4 (if b then 1 else 0) 4); destruct b; done|].
  destruct b; apply reads_ret.
Qed.

Lemma reads_usize x : fits 32 x -> reads Xdr.get_usize_32 (int_to Big 4 x) x.
Proof.
  intros Hx. apply (reads_checked _ id (fitsb 64) UsizeConversion); [now apply reads_get_int|].
  apply fitsb_spec. unfold id, fits in *. lia.
Qed.

Lemma reads_padded {A} (m : DecoderBuffer.D A) n bs a :
  0 <= n -> reads m bs a -> reads (v ← m; Xdr.consume_padding n;; mret v) (bs ++ zrep (- n mod 4) 0) a.
Proof.
  intros Hn Hm. eapply reads_bind; [exact Hm|]. apply reads_last. eapply reads_bind; [|apply reads_ret].
  unfold Xdr.consume_padding, Xdr.ALIGNMENT. destruct (Z.eqb_spec (n mod 4) 0) as [E|E].
  - replace (- n mod 4) with 0 by (Z.div_mod_to_equations; lia). apply reads_ret.
  - replace (- n mod 4) with (4 - n mod 4) by (Z.div_mod_to_equations; lia). apply reads_skip_zeros.
    pose proof (Z.mod_pos_bound n 4 ltac:(lia)). lia.
Qed.

Lemma reads_signed (m : DecoderBuffer.D Z) k bs x :
  0 < k -> signed k x -> reads m bs (of_signed k x) -> reads (v ← m; mret (to_signed k v)) bs x.
Proof. intros Hk Hx Hm. rewrite <- (to_of_signed k x Hk Hx). now apply (reads_fmap m (to_signed k)). Qed.

Lemma fits_of_signed k x : 0 <= k -> fits k (of_signed k x).
Proof. intros Hk. apply Z.mod_pos_bound, Z.pow_pos_nonneg; lia. Qed.

Lemma reads_signed_int o n k x :
  0 < k -> 8 * Z.of_nat n = k -> signed k x ->
  reads (v ← get_int o (Z.of_nat n); mret (to_signed k v)) (int_to o n (of_signed k x)) x.
Proof.
  intros H0 Hk Hx. apply reads_signed; [done|done|]. apply reads_get_int; [done|]. rewrite Hk.
  apply fits_of_signed; lia.
Qed.

Lemma reads_narrow w err x :
  0 < w <= 32 -> signed w x -> reads (Xdr.get_narrow w err) (int_to Big 4 (of_signed 32 x)) x.
Proof.
  intros Hw Hx.
  apply (reads_checked Xdr.get_i32 id (fun v => (- 2 ^ (w - 1) <=? v) && (v <? 2 ^ (w - 1))) err).
  - apply (reads_signed_int Big 4 32); [lia|done|]. unfold signed in *.
    pose proof (Z.pow_le_mono_r 2 (w - 1) (32 - 1)). lia.
  - unfold signed in Hx. apply andb_true_intro. split; [now apply Z.leb_le|now apply Z.ltb_lt].
Qed.

Lemma reads_xdr_u8 x :
  fits 8 x -> reads Xdr.get_u8 (int_to Big 4 (if 127 <? x then x + 0xffffff00 else x)) x.
Proof.
  intros Hx. set (y := if 127 <? x then x + 0xffffff00 else x).
  pose (f := fun v0 => if 0xffffff80 <=? v0 then v0 - 0xffffff00 else v0).
  assert (Hy : fits 32 y /\ f y = x).
  { unfold fits in *. unfold f, y. destruct (Z.ltb_spec 127 x).
    - destruct (Z.leb_spec 0xffffff80 (x + 0xffffff00)); lia.
    - destruct (Z.leb_spec 0xffffff80 x); lia. }
  destruct Hy as [Hy Hf]. rewrite <- Hf.
  apply (reads_checked _ f (fitsb 8) U32toU8Conversion); [now apply reads_get_int|].
  rewrite Hf. now apply fitsb_spec.
Qed.

(** *** Strings up to a zero byte *)
Lemma zget_app_length {A} (p : list A) x r : zget (p ++ x :: r) (blen p) = Some x.
Proof.
  destruct (zget_in (p ++ x :: r) (blen p)) as [y Hy].
  { rewrite blen_app, blen_cons. pose proof (blen_nonneg p). pose proof (blen_nonneg r). lia. }
  rewrite Hy. apply zget_lookup in Hy as [_ Hy]. unfold blen in Hy. rewrite Nat2Z.id in Hy.
  rewrite lookup_app_r, Nat.sub_diag in Hy by lia. now injection Hy as ->.
Qed.
Lemma find_null_app (p s r : bytes) fuel :
  ~ In 0 s -> (length s < fuel)%nat ->
  DecoderBuffer.find_null fuel (p ++ s ++ 0 :: r) (blen p) = Ok (Some (blen p + blen s)).
Proof.
  revert p fuel. induction s as [|c s IH]; intros p [|fuel] Hz Hf; cbn [length] in Hf; try lia;
    cbn [DecoderBuffer.find_null app].
  - rewrite zget_app_length. cbn. rewrite blen_nil. f_equal. f_equal. lia.
  - rewrite zget_app_length. destruct (Z.eqb_spec c 0) as [->|Hc]; [destruct Hz; now left|].
    specialize (IH (p ++ [c]) fuel). rewrite <- app_assoc, blen_app in IH. cbn [app] in IH.
    change (blen [c]) with 1 in IH. rewrite IH; [rewrite blen_cons; do 2 f_equal; lia| |lia].
    intros Hin. apply Hz. now right.
Qed.

Lemma data_split b bs r :
  DecoderBuffer.wf b -> DecoderBuffer.remaining b = bs ++ r ->
  exists p q, data b = p ++ bs ++ r ++ q /\ blen p = offset b /\ blen bs + blen r = max_offset b - offset b.
Proof.
  intros Hb Hr. pose proof (DecoderBuffer.blen_remaining b Hb) as Hl. rewrite Hr, blen_app in Hl.
  destruct Hb as (H0 & H1 & _).
  exists (ztake (offset b) (data b)), (zdrop (max_offset b - offset b) (zdrop (offset b) (data b))).
  split; [|split; [rewrite blen_ztake by lia; lia|lia]].
  rewrite (app_assoc bs r), <- Hr. unfold DecoderBuffer.remaining. now rewrite !ztake_zdrop.
Qed.

Lemma reads_str_null s :
  from_utf8 s = Ok s -> ~ In 0 s -> reads DecoderBuffer.get_str_null (s ++ [0]) s.
Proof.
  intros Hu Hz b r Hb Hr. destruct (data_split b _ _ Hb Hr) as (p & q & Hd & Hp & Hl).
  pose proof (DecoderBuffer.get_range_remaining b (blen s) Hb) as Hg.
  rewrite Hr, <- app_assoc in Hg. cbn [app] in Hg.
  rewrite ztake_app_length in Hg.
  rewrite <- !app_assoc in Hd. cbn [app] in Hd. rewrite blen_app in Hl. change (blen [0]) with 1 in Hl.
  pose proof (blen_nonneg s). pose proof (blen_nonneg r).
  unfold DecoderBuffer.get_str_null. rewrite Hd at 1. rewrite <- Hp at 2.
  rewrite find_null_app by (auto; unfold blen in *; lia). rewrite Hp, Hg.
  - rewrite Hu, blen_app. change (blen [0]) with 1. unfold DecoderBuffer.advance. do 2 f_equal. lia.
  - rewrite blen_app, blen_cons. lia.
Qed.

(** *** Writing *)
Lemma writes_padded l : writes (XdrEnc.put_bytes_n l) (xdr_padded l).
Proof.
  eapply writes_bind; [apply writes_put_bytes|]. unfold XdrEnc.produce_padding.
  pose proof (Z.mod_pos_bound (blen l) 4 ltac:(lia)). destruct (Z.eqb_spec (blen l mod 4) 0) as [E|E].
  - replace (- blen l mod 4) with 0 by (Z.div_mod_to_equations; lia). apply writes_ret.
  - replace (- blen l mod 4) with (4 - blen l mod 4) by (Z.div_mod_to_equations; lia). apply writes_put_zeros. lia.
Qed.

Lemma writes_xdr_bytes l : fits 32 (blen l) -> writes (XdrEnc.put_bytes l) (int_to Big 4 (blen l) ++ xdr_padded l).
Proof.
  intros Hl. eapply writes_bind; [|apply writes_padded]. intros e He Ha. smunfold.
  rewrite (proj2 (fitsb_spec 32 (blen l)) Hl). now apply writes_put_int.
Qed.

(** ** One value *)

Lemma value_written c v : value_ok c v -> writes (put_item c (inl v)) (image c (inl v)).
Proof.
  destruct c as [o|], v; cbn [value_ok put_item image endian_image xdr_image]; intros Hv;
    try (apply writes_put_int); try apply writes_put_1_byte.
  - now destruct Hv.
  - eapply writes_bind; [apply writes_put_bytes|apply writes_put_1_byte].
  - now apply writes_xdr_bytes.
  - now apply writes_xdr_bytes.
Qed.

Lemma endian_value_read o v : value_ok (Endian o) v -> reads (@Wire.get (endian_decoder o) (Wire.type_of v)) (endian_image o v) v.
Proof.
  destruct v; cbn [value_ok Wire.type_of Wire.get endian_image]; intros Hv; apply reads_fmap;
    try (now apply reads_get_int).
  - apply reads_bool.
  - now destruct Hv.
  - apply reads_str_null; apply Hv.
  - apply (reads_signed DecoderBuffer.get_1_byte 8); [lia|exact Hv|]. apply reads_get_1_byte, (fits_of_signed 8). lia.
  - now apply (reads_signed_int o 2 16).
  - now apply (reads_signed_int o 4 32).
  - now apply (reads_signed_int o 8 64).
  - now apply reads_get_1_byte.
Qed.

Lemma xdr_value_read v : value_ok XdrCodec v -> reads (@Wire.get XdrDecoder (Wire.type_of v)) (xdr_image v) v.
Proof.
  destruct v; cbn [value_ok Wire.type_of Wire.get xdr_image]; intros Hv; apply reads_fmap;
    try (now apply reads_get_int).
  - apply reads_bool.
  - eapply reads_bind; [apply reads_usize, Hv|]. apply reads_padded; [apply blen_nonneg|now apply reads_get_bytes].
  - eapply reads_bind; [apply reads_usize, Hv|]. apply reads_padded; [apply blen_nonneg|now apply reads_get_str; [|apply Hv]].
  - now apply reads_narrow.
  - now apply reads_narrow.
  - now apply (reads_signed_int Big 4 32).
  - now apply (reads_signed_int Big 8 64).
  - now apply reads_xdr_u8.
  - apply (reads_checked _ id (fitsb 16) U32toU16Conversion); [|now apply fitsb_spec].
    apply reads_get_int; [done|]. unfold fits in *. lia.
Qed.

Lemma item_written c i : item_ok c i -> writes (put_item c i) (image c i).
Proof.
  destruct i as [v|[l|s]]; [apply value_written| |]; destruct c; intros _; first [apply writes_put_bytes|apply writes_padded].
Qed.

Lemma item_read c i : item_ok c i -> reads (get_item c (item_type i)) (image c i) i.
Proof.
  destruct i as [v|v]; intros Hi.
  - apply (reads_fmap (Wire.get _) inl). destruct c; [now apply endian_value_read|now apply xdr_value_read].
  - apply (reads_fmap (Wire.get_n _) inr). destruct v as [l|s], c; cbn [Wire.ntype_of Wire.get_n image item_ok] in *; apply reads_fmap.
    + now apply reads_get_bytes.
    + apply reads_padded; [apply blen_nonneg|now apply reads_get_bytes].
    + now apply reads_get_str; [|apply Hi].
    + apply reads_padded; [apply blen_nonneg|now apply reads_get_str; [|apply Hi]].
Qed.

Lemma items_read c xs : Forall (item_ok c) xs -> reads (get_items c (map item_type xs)) (flat_map (image c) xs) xs.
Proof.
  induction 1 as [|i xs Hi _ IH]; cbn [map get_items flat_map]; [apply reads_ret|].
  eapply reads_bind; [now apply item_read|]. now apply (reads_fmap _ (cons i)).
Qed.

(** *** Alignment *)
Lemma padded_aligned {A} (l : list A) : (blen l + (- blen l) mod 4) mod 4 = 0.
Proof. pose proof (blen_nonneg l). Z.div_mod_to_equations; lia. Qed.

Lemma xdr_aligned i : blen (image XdrCodec i) mod 4 = 0.
Proof.
  assert (Hp : forall l : bytes, blen (xdr_padded l) mod 4 = 0).
  { intros l. rewrite blen_app, blen_zrep by (apply Z.mod_pos_bound; lia). apply padded_aligned. }
  destruct i as [v|[l|s]]; [|apply Hp|apply Hp].
  destruct v; cbn [image xdr_image]; rewrite ?blen_app, ?blen_int_to; try done.
  - specialize (Hp l). rewrite blen_app in Hp. Z.div_mod_to_equations; lia.
  - specialize (Hp s). rewrite blen_app in Hp. Z.div_mod_to_equations; lia.
Qed.

Lemma items_aligned xs : blen (flat_map (image XdrCodec) xs) mod 4 = 0.
Proof.
  induction xs as [|i xs IH]; cbn [flat_map]; [done|]. rewrite blen_app. pose proof (xdr_aligned i).
  Z.div_mod_to_equations; lia.
Qed.

Lemma image_ok c i : item_ok c i -> bytes_ok (image c i).
Proof.
  assert (Hz : forall n, bytes_ok (zrep n 0)) by auto with zfs.
  assert (Hp : forall l, bytes_ok l -> bytes_ok (xdr_padded l)) by (intros; now apply Forall_app_2).
  destruct i as [v|[l|s]], c; cbn [item_ok image]; intros Hi; try (now apply Hp); try done; try apply Hi; try apply Hp, Hi.
  - destruct v; cbn [endian_image]; auto with zfs; cbn [value_ok] in Hi.
    + apply Forall_app_2; [apply Hi|repeat constructor; lia].
    + repeat constructor; apply (fits_of_signed 8); lia.
  - destruct v; cbn [xdr_image]; auto with zfs; cbn [value_ok] in Hi; (apply Forall_app_2; [auto with zfs|]); apply Hp, Hi.
Qed.

(** C36: What an encoder writes for a sequence of values, its decoder reads back and stops
    behind: [put] and [put_n] succeed where the bytes fit, [get] and [get_n] at the types
    of the values return them whatever follows, and in XDR every value ends on a
    four-byte boundary.  The values are those of [item_ok]: in XDR lengths of 32 bits; in a fixed byte
    order no slice of unknown length, which is refused, and no string with a zero byte, which is cut. *)
Theorem wire_roundtrip (c : codec) (xs : list item) (n : Z) (rest : bytes) :
  Forall (item_ok c) xs -> bytes_ok rest -> blen (flat_map (image c) xs) <= n ->
  exists bs,
    encode_into n (put_each (put_item c) xs) = Ok bs /\
    get_items c (map item_type xs) (DecoderBuffer.from_bytes (bs ++ rest)) =
      (Ok xs, DecoderBuffer.advance (blen bs) (DecoderBuffer.from_bytes (bs ++ rest))) /\
    (c = XdrCodec -> blen bs mod 4 = 0).
Proof.
  intros Hx Hr Hn. exists (flat_map (image c) xs). split; [|split].
  - apply writes_encode; [|done]. apply writes_put_each. eapply Forall_impl; [exact Hx|apply item_written].
  - apply (items_read c xs Hx _ rest); [|apply DecoderBuffer.remaining_from_bytes].
    apply DecoderBuffer.wf_from_bytes, Forall_app_2; [|done].
    apply bytes_ok_flat_map. eapply Forall_impl; [exact Hx|apply image_ok].
  - intros ->. apply items_aligned.
Qed.

Definition sample_items : list item :=
  [inl (Wire.VU8 200); inl (Wire.VI16 (-3)); inl (Wire.VStr [122; 102; 115]); inr (Wire.NVSlice [1; 2; 3; 4; 5]); inl (Wire.VBool true)].
Lemma wire_roundtrip_witness : exists bs,
    encode_into 64 (put_each (put_item XdrCodec) sample_items) = Ok bs /\
    get_items XdrCodec (map item_type sample_items) (DecoderBuffer.from_bytes (bs ++ [7])) =
      (Ok sample_items, DecoderBuffer.advance (blen bs) (DecoderBuffer.from_bytes (bs ++ [7]))) /\
    (XdrCodec = XdrCodec -> blen bs mod 4 = 0).
Proof.
  apply (wire_roundtrip XdrCodec sample_items 64 [7]).
  - unfold sample_items. repeat constructor; cbn; unfold signed, is_byte, fits; try lia; try done.
  - repeat constructor; done.
  - vm_compute. discriminate.
Defined.

(** A slice of unknown length has no encoding in a fixed byte order: both sides refuse it. *)
Lemma endian_slices_refused o l e b :
  @Wire.put (endian_encoder o) (Wire.VSlice l) e = (Err (EncodeNotSupported "put_bytes"), e) /\
  @Wire.get (endian_decoder o) Wire.Slice b = (Err (DecodeNotSupported "get_bytes"), b).
Proof. split; reflexivity. Qed.

(** A string with a zero byte is written whole in a fixed byte order, and read back only up to that byte. *)
Lemma endian_str_cut o head tail n :
  from_utf8 head = Ok head -> bytes_ok (head ++ 0 :: tail) -> ~ In 0 head -> blen (head ++ 0 :: tail) + 1 <= n ->
  exists bs, encode_into n (put_item (Endian o) (inl (Wire.VStr (head ++ 0 :: tail)))) = Ok bs /\
    get_item (Endian o) (inl Wire.Str) (DecoderBuffer.from_bytes bs) =
      (Ok (inl (Wire.VStr head)), DecoderBuffer.advance (blen head + 1) (DecoderBuffer.from_bytes bs)).
Proof.
  intros Hu Hok Hz Hn. exists ((head ++ 0 :: tail) ++ [0]). split.
  - apply writes_encode; [|rewrite blen_app; exact Hn]. cbn [put_item Wire.put]. eapply writes_bind; [apply writes_put_bytes|apply writes_put_1_byte].
  - assert (Hr : reads (get_item (Endian o) (inl Wire.Str)) (head ++ [0]) (inl (Wire.VStr head))).
    { cbn [get_item]. apply (reads_fmap _ inl). cbn [Wire.get]. apply (reads_fmap _ Wire.VStr). now apply reads_str_null. }
    replace (blen head + 1) with (blen (head ++ [0])) by (rewrite blen_app; done). apply (Hr _ (tail ++ [0])).
    + apply DecoderBuffer.wf_from_bytes, Forall_app_2; [done|]. constructor; [unfold is_byte; lia|constructor].
    + rewrite DecoderBuffer.remaining_from_bytes. now rewrite <- !app_assoc.
Qed.

(** [order] is that of the operations [decoder] gives. *)
Lemma owned_decoder l o :
  Owned.decoder (Owned.from_bytes l o) = (endian_decoder o, DecoderBuffer.from_bytes l) /\
  Owned.order (Owned.from_bytes l o) = o /\
  Owned.encoder (Owned.to_bytes l o) = (endian_encoder o, {| edata := l; eoffset := 0 |}) /\
  Owned.encoder_order (Owned.to_bytes l o) = o.
Proof. destruct o; repeat split; reflexivity. Qed.
