(* ===== verification/Endian.v ===== *)
(** * The standalone endian encoder (src/phys/endian.rs)

    An encoder that carries its byte order as a table of functions.  It is the
    predecessor of [BinaryEncoder] (Encoder.v); the theorem is a simulation between
    the two: every sequence of writes leaves the same bytes and fails at the same
    write, and no write panics. *)

From S2P Require Import Prelude Errors Decoder Encoder.

Open Scope Z_scope.
Open Scope list_scope.

Record EndianEncoderImpl : Type := {
  i_order : EndianOrder;
  i_put_u16 : Z -> bytes;
  i_put_u32 : Z -> bytes;
  i_put_u64 : Z -> bytes
}.
Definition BIG_ENDIAN_ENCODER : EndianEncoderImpl :=
  {| i_order := Big; i_put_u16 := int_to Big 2; i_put_u32 := int_to Big 4; i_put_u64 := int_to Big 8 |}.
Definition LITTLE_ENDIAN_ENCODER : EndianEncoderImpl :=
  {| i_order := Little; i_put_u16 := int_to Little 2; i_put_u32 := int_to Little 4; i_put_u64 := int_to Little 8 |}.

Record EndianEncoder : Type := { n_data : bytes; n_offset : Z; n_encoder : EndianEncoderImpl }.
Inductive EndianEncodeError : Type := EndianEndOfOutput (offset capacity count : Z).

Module EndianEnc.
Abbreviation W := (SM EndianEncoder EndianEncodeError).

Definition to_bytes (l : bytes) (order : EndianOrder) : EndianEncoder :=
  {| n_data := l; n_offset := 0;
     n_encoder := match order with Big => BIG_ENDIAN_ENCODER | Little => LITTLE_ENDIAN_ENCODER end |}.

Definition available (e : EndianEncoder) : Z := saturating_sub (blen (n_data e)) (n_offset e).
Definition capacity (e : EndianEncoder) : Z := blen (n_data e).
Definition get_offset (e : EndianEncoder) : Z := n_offset e.
Definition order (e : EndianEncoder) : EndianOrder := i_order (n_encoder e).
Definition is_empty (e : EndianEncoder) : bool := n_offset e =? 0.
Definition is_full (e : EndianEncoder) : bool := blen (n_data e) <=? n_offset e.
Definition len (e : EndianEncoder) : Z := n_offset e.

Definition check_need (count : Z) : W unit := fun e =>
  if count <=? available e then (Ok tt, e)
  else (Err (EndianEndOfOutput (n_offset e) (capacity e) count), e).

(** [self.data[start..end].copy_from_slice(bs)] behind the new offset; out of range it
    panics. *)
Definition store (start : Z) (bs : bytes) (e : EndianEncoder) : outcome EndianEncodeError unit * EndianEncoder :=
  let e' l := {| n_data := l; n_offset := start + blen bs; n_encoder := n_encoder e |} in
  match EncoderBuffer.copy_at (n_data e) start bs with
  | Some l => (Ok tt, e' l)
  | None => (Panic, e' (n_data e))
  end.

Definition put_2_bytes (bs : bytes) : W unit := check_need 2;; sm_fun (fun e => store (n_offset e) bs e).
Definition put_4_bytes (bs : bytes) : W unit := check_need 4;; sm_fun (fun e => store (n_offset e) bs e).
Definition put_8_bytes (bs : bytes) : W unit := check_need 8;; sm_fun (fun e => store (n_offset e) bs e).
Definition put_bytes (bs : bytes) : W unit := check_need (blen bs);; sm_fun (fun e => store (n_offset e) bs e).
(** [self.data[self.offset] = value], then the offset moves. *)
Definition put_u8 (v : Z) : W unit :=
  check_need 1;;
  sm_fun (fun e =>
    match EncoderBuffer.copy_at (n_data e) (n_offset e) [v] with
    | Some l => (Ok tt, {| n_data := l; n_offset := n_offset e + 1; n_encoder := n_encoder e |})
    | None => (Panic, e)
    end).
Definition put_u16 (v : Z) : W unit := i ← sm_gets n_encoder; put_2_bytes (i_put_u16 i v).
Definition put_u32 (v : Z) : W unit := i ← sm_gets n_encoder; put_4_bytes (i_put_u32 i v).
Definition put_u64 (v : Z) : W unit := i ← sm_gets n_encoder; put_8_bytes (i_put_u64 i v).
Definition put_zero_padding (length : Z) : W unit :=
  check_need length;; sm_fun (fun e => store (n_offset e) (zrep length 0) e).
End EndianEnc.

(** ** A write, on either encoder *)
Inductive write : Type :=
| WBytes (bs : bytes) | WU8 (v : Z) | WU16 (v : Z) | WU32 (v : Z) | WU64 (v : Z) | WZeros (n : Z).
Definition write_ok (w : write) : Prop := match w with WZeros n => 0 <= n | _ => True end.
Definition endian_write (w : write) : EndianEnc.W unit :=
  match w with
  | WBytes bs => EndianEnc.put_bytes bs
  | WU8 v => EndianEnc.put_u8 v
  | WU16 v => EndianEnc.put_u16 v
  | WU32 v => EndianEnc.put_u32 v
  | WU64 v => EndianEnc.put_u64 v
  | WZeros n => EndianEnc.put_zero_padding n
  end.
Definition binary_write (o : EndianOrder) (w : write) : EncoderBuffer.W unit :=
  let EO := endian_encoder o in
  match w with
  | WBytes bs => put_bytes_n bs
  | WU8 v => put_u8 v
  | WU16 v => put_u16 v
  | WU32 v => put_u32 v
  | WU64 v => put_u64 v
  | WZeros n => put_zeros n
  end.
Fixpoint writes_all {S E} (f : write -> SM S E unit) (ws : list write) : SM S E unit :=
  match ws with
  | [] => mret tt
  | w :: ws' => f w;; writes_all f ws'
  end.

(** ** The simulation *)
Record sim (o : EndianOrder) (e : EndianEncoder) (b : BinaryEncoderBuffer) : Prop := {
  sim_data : n_data e = edata b;
  sim_offset : n_offset e = eoffset b;
  sim_impl : n_encoder e = match o with Big => BIG_ENDIAN_ENCODER | Little => LITTLE_ENDIAN_ENCODER end;
  sim_wf : EncoderBuffer.wf b
}.
(** The same success, or the same end of output. *)
Definition same_result (r : outcome EndianEncodeError unit) (s : outcome BinaryEncodeError unit) : Prop :=
  match r, s with
  | Ok _, Ok _ => True
  | Err (EndianEndOfOutput o c n), Err (EndOfOutput o' c' n') => o = o' /\ c = c' /\ n = n'
  | _, _ => False
  end.
Definition simulates (o : EndianOrder) (m : EndianEnc.W unit) (k : EncoderBuffer.W unit) : Prop :=
  forall e b, sim o e b ->
    same_result (fst (m e)) (fst (k b)) /\ sim o (snd (m e)) (snd (k b)).

Lemma sim_start l o : sim o (EndianEnc.to_bytes l o) {| edata := l; eoffset := 0 |}.
Proof. split; [done|done|now destruct o|]. split; cbn; [lia|apply blen_nonneg]. Qed.

Lemma sim_available o e b : sim o e b -> EndianEnc.available e = EncoderBuffer.available b.
Proof. intros H. unfold EndianEnc.available, EncoderBuffer.available. now rewrite (sim_data _ _ _ H), (sim_offset _ _ _ H). Qed.

(** Every write is a check of the room and a copy at the cursor. *)
Lemma simulates_store o n bs :
  n = blen bs ->
  simulates o (EndianEnc.check_need n;; sm_fun (fun e => EndianEnc.store (n_offset e) bs e)) (EncoderBuffer.put_bytes bs).
Proof.
  intros -> e b H. rewrite (EncoderBuffer.put_bytes_spec b bs (sim_wf _ _ _ H)).
  unfold EndianEnc.check_need; smunfold. rewrite (sim_available _ _ _ H).
  destruct (Z.leb_spec (blen bs) (EncoderBuffer.available b)) as [Ha|Ha]; cbn [fst snd].
  - destruct (EncoderBuffer.append_spec b bs (sim_wf _ _ _ H) Ha) as (Hw & _).
    rewrite (EncoderBuffer.available_wf b (sim_wf _ _ _ H)) in Ha. pose proof (sim_wf _ _ _ H) as [H0 H1].
    unfold EndianEnc.store, EncoderBuffer.copy_at. rewrite (sim_data _ _ _ H), (sim_offset _ _ _ H).
    pose proof (blen_nonneg bs). rewrite get_range_ok by lia. split; [done|].
    split; [done|done|apply H|exact Hw].
  - split; [|done]. unfold same_result, EndianEnc.capacity, EncoderBuffer.capacity.
    now rewrite (sim_data _ _ _ H), (sim_offset _ _ _ H).
Qed.

Lemma simulates_u8 o v : simulates o (EndianEnc.put_u8 v) (EncoderBuffer.put_1_byte v).
Proof.
  intros e b H. rewrite (EncoderBuffer.put_1_byte_spec b v (sim_wf _ _ _ H)).
  pose proof (simulates_store o 1 [v] eq_refl e b H) as Hs. revert Hs.
  unfold EndianEnc.put_u8, EndianEnc.check_need, EndianEnc.store; smunfold.
  destruct (1 <=? EndianEnc.available e); [|done]. change (blen [v]) with 1.
  destruct (EncoderBuffer.copy_at (n_data e) (n_offset e) [v]); [done|]. intros [Hs _].
  cbn in Hs. now destruct (fst _).
Qed.

(** The table holds the functions of the order. *)
Lemma simulates_int o n k (field : EndianEncoderImpl -> Z -> bytes) v (m : bytes -> EndianEnc.W unit) :
  field (match o with Big => BIG_ENDIAN_ENCODER | Little => LITTLE_ENDIAN_ENCODER end) v = int_to o n v ->
  k = Z.of_nat n ->
  (forall bs, m bs = (EndianEnc.check_need k;; sm_fun (fun e => EndianEnc.store (n_offset e) bs e))) ->
  simulates o (i ← sm_gets n_encoder; m (field i v)) (put_int o n v).
Proof.
  intros Hf -> Hm e b H. rewrite (SM_run (sm_gets n_encoder) _ e (n_encoder e) e eq_refl).
  rewrite (sim_impl _ _ _ H), Hf, Hm. apply simulates_store; [now rewrite blen_int_to|done].
Qed.

Lemma simulates_write o w : write_ok w -> simulates o (endian_write w) (binary_write o w).
Proof.
  destruct w as [bs|v|v|v|v|n]; intros Hw; cbn [endian_write].
  - now apply simulates_store.
  - apply simulates_u8.
  - now apply (simulates_int o 2 2 i_put_u16 v EndianEnc.put_2_bytes); [destruct o| |].
  - now apply (simulates_int o 4 4 i_put_u32 v EndianEnc.put_4_bytes); [destruct o| |].
  - now apply (simulates_int o 8 8 i_put_u64 v EndianEnc.put_8_bytes); [destruct o| |].
  - intros e b H. cbn [binary_write]. change (@put_zeros (endian_encoder o) n b) with (EncoderBuffer.put_zeros n b).
    rewrite (EncoderBuffer.put_zeros_spec b n (sim_wf _ _ _ H) Hw).
    apply simulates_store; [now rewrite blen_zrep|done].
Qed.

Lemma simulates_all o ws :
  Forall write_ok ws -> simulates o (writes_all endian_write ws) (writes_all (binary_write o) ws).
Proof.
  induction 1 as [|w ws Hw _ IH]; intros e b H; [now split|]. cbn [writes_all].
  destruct (simulates_write o w Hw e b H) as [Hr Hs]. unfold mbind, SM_bind.
  destruct (endian_write w e) as [[[]|[]|] e'], (binary_write o w b) as [[[]|[]|] b']; cbn in *; try done.
  now apply IH.
Qed.

(** The standalone encoder and the crate's encoder of the same order agree on every
    sequence of writes to the same buffer: both succeed, or both report the end of the
    output at the same offset with the same capacity and count; neither panics, the
    bytes are the same, and so are the room left and the flags. *)
Theorem endian_encoder_simulates (l : bytes) (o : EndianOrder) (ws : list write) :
  Forall write_ok ws ->
  let r := writes_all endian_write ws (EndianEnc.to_bytes l o) in
  let s := writes_all (binary_write o) ws {| edata := l; eoffset := 0 |} in
  same_result (fst r) (fst s) /\ n_data (snd r) = edata (snd s) /\ EndianEnc.order (snd r) = o /\
  EndianEnc.len (snd r) = eoffset (snd s) /\ EndianEnc.available (snd r) = EncoderBuffer.available (snd s) /\
  EndianEnc.is_full (snd r) = EncoderBuffer.is_full (snd s) /\
  EndianEnc.is_empty (snd r) = EncoderBuffer.is_empty (snd s) /\ 0 <= EndianEnc.get_offset (snd r) <= EndianEnc.capacity (snd r).
Proof.
  intros Hw r s. destruct (simulates_all o ws Hw _ _ (sim_start l o)) as [Hr Hs]. fold r s in Hr, Hs.
  split; [done|]. pose proof (sim_available _ _ _ Hs) as Ha. destruct Hs as [Hd Ho Hi [H0 H1]].
  split; [done|]. split; [unfold EndianEnc.order; rewrite Hi; now destruct o|].
  split; [done|]. split; [done|].
  unfold EndianEnc.is_full, EncoderBuffer.is_full, EndianEnc.is_empty, EncoderBuffer.is_empty,
    EndianEnc.get_offset, EndianEnc.capacity.
  rewrite Hd, Ho. repeat split; done.
Qed.

Lemma endian_encoder_simulates_witness :
  let ws := [WU16 258; WZeros 2; WU64 1] in
  let r := writes_all endian_write ws (EndianEnc.to_bytes (zrep 6 9) Little) in
  let s := writes_all (binary_write Little) ws {| edata := zrep 6 9; eoffset := 0 |} in
  fst r = Err (EndianEndOfOutput 4 6 8) /\ n_data (snd r) = [2; 1; 0; 0; 9; 9] /\
  same_result (fst r) (fst s).
Proof.
  split; [reflexivity|]. split; [reflexivity|].
  apply (endian_encoder_simulates (zrep 6 9) Little [WU16 258; WZeros 2; WU64 1]). repeat constructor; cbn; lia.
Defined.
