(* ===== verification/Types.v ===== *)
(** * The on-disk enumerations

    [CompressionType] (src/phys/compression.rs), [ChecksumType]
    (src/phys/checksum.rs), [BlockPointerEmbeddedType]
    (src/phys/block_pointer.rs), [DmuType] and [DmuGenericObjectType]
    (src/phys/dmu.rs): the discriminants, the fallible conversion from a byte
    and the [Display] names. *)

From S2P Require Import Prelude.

Module CompressionType.

Inductive t : Type :=
| Inherit | On | Off | Lzjb | Empty | Gzip1 | Gzip2 | Gzip3 | Gzip4 | Gzip5 | Gzip6
| Gzip7 | Gzip8 | Gzip9 | Zle | Lz4 | Zstd.

#[global] Instance eq_dec : EqDecision t.
Proof. solve_decision. Defined.

(** [From<CompressionType> for u8]: the discriminant. *)
Definition into_u8 (x : t) : Z :=
  match x with
  | Inherit => 0
  | On => 1
  | Off => 2
  | Lzjb => 3
  | Empty => 4
  | Gzip1 => 5
  | Gzip2 => 6
  | Gzip3 => 7
  | Gzip4 => 8
  | Gzip5 => 9
  | Gzip6 => 10
  | Gzip7 => 11
  | Gzip8 => 12
  | Gzip9 => 13
  | Zle => 14
  | Lz4 => 15
  | Zstd => 16
  end.

(** [TryFrom<u8>]; the error is the unknown code. *)
Definition try_from (b : Z) : outcome Z t :=
  match b with
  | 0 => Ok Inherit
  | 1 => Ok On
  | 2 => Ok Off
  | 3 => Ok Lzjb
  | 4 => Ok Empty
  | 5 => Ok Gzip1
  | 6 => Ok Gzip2
  | 7 => Ok Gzip3
  | 8 => Ok Gzip4
  | 9 => Ok Gzip5
  | 10 => Ok Gzip6
  | 11 => Ok Gzip7
  | 12 => Ok Gzip8
  | 13 => Ok Gzip9
  | 14 => Ok Zle
  | 15 => Ok Lz4
  | 16 => Ok Zstd
  | _ => Err b
  end.

Definition display (x : t) : string :=
  match x with
  | Inherit => "Inherit"
  | On => "On"
  | Off => "Off"
  | Lzjb => "Lzjb"
  | Empty => "Empty"
  | Gzip1 => "Gzip1"
  | Gzip2 => "Gzip2"
  | Gzip3 => "Gzip3"
  | Gzip4 => "Gzip4"
  | Gzip5 => "Gzip5"
  | Gzip6 => "Gzip6"
  | Gzip7 => "Gzip7"
  | Gzip8 => "Gzip8"
  | Gzip9 => "Gzip9"
  | Zle => "Zle"
  | Lz4 => "Lz4"
  | Zstd => "Zstd"
  end.

Lemma CompressionType_try_from_into x : try_from (into_u8 x) = Ok x.
Proof. now destruct x. Qed.

Lemma CompressionType_into_u8_byte x : is_byte (into_u8 x).
Proof. destruct x; split; reflexivity || discriminate. Qed.

End CompressionType.

Module ChecksumType.

Inductive t : Type :=
| Inherit | On | Off | Label | GangHeader | Zilog | Fletcher2 | Fletcher4 | Sha256
| Zilog2 | NoParity | Sha512_256 | Skein | Edonr | Blake3.

#[global] Instance eq_dec : EqDecision t.
Proof. solve_decision. Defined.

(** [From<ChecksumType> for u8]: the discriminant. *)
Definition into_u8 (x : t) : Z :=
  match x with
  | Inherit => 0
  | On => 1
  | Off => 2
  | Label => 3
  | GangHeader => 4
  | Zilog => 5
  | Fletcher2 => 6
  | Fletcher4 => 7
  | Sha256 => 8
  | Zilog2 => 9
  | NoParity => 10
  | Sha512_256 => 11
  | Skein => 12
  | Edonr => 13
  | Blake3 => 14
  end.

(** [TryFrom<u8>]; the error is the unknown code. *)
Definition try_from (b : Z) : outcome Z t :=
  match b with
  | 0 => Ok Inherit
  | 1 => Ok On
  | 2 => Ok Off
  | 3 => Ok Label
  | 4 => Ok GangHeader
  | 5 => Ok Zilog
  | 6 => Ok Fletcher2
  | 7 => Ok Fletcher4
  | 8 => Ok Sha256
  | 9 => Ok Zilog2
  | 10 => Ok NoParity
  | 11 => Ok Sha512_256
  | 12 => Ok Skein
  | 13 => Ok Edonr
  | 14 => Ok Blake3
  | _ => Err b
  end.

Definition display (x : t) : string :=
  match x with
  | Inherit => "Inherit"
  | On => "On"
  | Off => "Off"
  | Label => "Label"
  | GangHeader => "GangHeader"
  | Zilog => "Zilog"
  | Fletcher2 => "Fletcher2"
  | Fletcher4 => "Fletcher4"
  | Sha256 => "Sha256"
  | Zilog2 => "Zilog2"
  | NoParity => "NoParity"
  | Sha512_256 => "Sha512_256"
  | Skein => "Skein"
  | Edonr => "Edonr"
  | Blake3 => "Blake3"
  end.

Lemma ChecksumType_try_from_into x : try_from (into_u8 x) = Ok x.
Proof. now destruct x. Qed.

Lemma ChecksumType_into_u8_byte x : is_byte (into_u8 x).
Proof. destruct x; split; reflexivity || discriminate. Qed.

End ChecksumType.

Module BlockPointerEmbeddedType.

Inductive t : Type :=
| Data | Reserved | Redacted.

#[global] Instance eq_dec : EqDecision t.
Proof. solve_decision. Defined.

(** [From<BlockPointerEmbeddedType> for u8]: the discriminant. *)
Definition into_u8 (x : t) : Z :=
  match x with
  | Data => 0
  | Reserved => 1
  | Redacted => 2
  end.

(** [TryFrom<u8>]; the error is the unknown code. *)
Definition try_from (b : Z) : outcome Z t :=
  match b with
  | 0 => Ok Data
  | 1 => Ok Reserved
  | 2 => Ok Redacted
  | _ => Err b
  end.

Definition display (x : t) : string :=
  match x with
  | Data => "Data"
  | Reserved => "Reserved"
  | Redacted => "Redacted"
  end.

Lemma BlockPointerEmbeddedType_try_from_into x : try_from (into_u8 x) = Ok x.
Proof. now destruct x. Qed.

Lemma BlockPointerEmbeddedType_into_u8_byte x : is_byte (into_u8 x).
Proof. destruct x; split; reflexivity || discriminate. Qed.

End BlockPointerEmbeddedType.

Module DmuGenericObjectType.

Inductive t : Type :=
| Uint8 | Uint16 | Uint32 | Uint64 | Zap | Dnode | ObjectSet | Znode | AclV0 | AclV1.

Definition into_u8 (x : t) : Z :=
  match x with
  | Uint8 => 0
  | Uint16 => 1
  | Uint32 => 2
  | Uint64 => 3
  | Zap => 4
  | Dnode => 5
  | ObjectSet => 6
  | Znode => 7
  | AclV0 => 8
  | AclV1 => 9
  end.

End DmuGenericObjectType.

Module DmuType.

Definition GENERIC_DATA : Z := 0x80.
Definition GENERIC_METADATA : Z := Z.lor 0x80 0x40.
Definition ENCRYPTED : Z := 0x20.

Inductive t : Type :=
| None | ObjectDirectory | ObjectArray | PackedNvList | PackedNvListSize | BpObject
| BpObjectHeader | SpaceMapHeader | SpaceMap | IntentLog | Dnode | ObjectSet
| DslDirectory | DslDirectoryChildMap | DslDsSnapshotMap | DslProperties | DslDataSet
| Znode | AclV0 | PlainFileContents | DirectoryContents | MasterNode | UnlinkedSet | Zvol
| ZvolProperty | PlainOther | Uint64Other | ZapOther | ErrorLog | SpaHistory
| SpaHistoryOffsets | PoolProperties | DslPermissions | AclV1 | SysAcl | Fuid | FuidSize
| NextClones | ScanQueue | UserGroupUsed | UserGroupQuota | UserRefs | DdtZap | DdtStats
| SystemAttribute | SystemAttributeMasterNode | SystemAttributeRegistration
| SystemAttributeLayouts | ScanXlate | Dedup | DeadList | DeadListHeader | DslClones
| BpObjectSubObject | Uint8Data | Uint16Data | Uint32Data | Uint64Data | ZapData
| Uint8DataEncrypted | Uint16DataEncrypted | Uint32DataEncrypted | Uint64DataEncrypted
| ZapDataEncrypted | Uint8Metadata | Uint16Metadata | Uint32Metadata | Uint64Metadata
| ZapMetadata | Uint8MetadataEncrypted | Uint16MetadataEncrypted
| Uint32MetadataEncrypted | Uint64MetadataEncrypted | ZapMetadataEncrypted.

#[global] Instance eq_dec : EqDecision t.
Proof. solve_decision. Defined.

(** [From<DmuType> for u8]: the discriminant. *)
Definition into_u8 (x : t) : Z :=
  match x with
  | None => 0
  | ObjectDirectory => 1
  | ObjectArray => 2
  | PackedNvList => 3
  | PackedNvListSize => 4
  | BpObject => 5
  | BpObjectHeader => 6
  | SpaceMapHeader => 7
  | SpaceMap => 8
  | IntentLog => 9
  | Dnode => 10
  | ObjectSet => 11
  | DslDirectory => 12
  | DslDirectoryChildMap => 13
  | DslDsSnapshotMap => 14
  | DslProperties => 15
  | DslDataSet => 16
  | Znode => 17
  | AclV0 => 18
  | PlainFileContents => 19
  | DirectoryContents => 20
  | MasterNode => 21
  | UnlinkedSet => 22
  | Zvol => 23
  | ZvolProperty => 24
  | PlainOther => 25
  | Uint64Other => 26
  | ZapOther => 27
  | ErrorLog => 28
  | SpaHistory => 29
  | SpaHistoryOffsets => 30
  | PoolProperties => 31
  | DslPermissions => 32
  | AclV1 => 33
  | SysAcl => 34
  | Fuid => 35
  | FuidSize => 36
  | NextClones => 37
  | ScanQueue => 38
  | UserGroupUsed => 39
  | UserGroupQuota => 40
  | UserRefs => 41
  | DdtZap => 42
  | DdtStats => 43
  | SystemAttribute => 44
  | SystemAttributeMasterNode => 45
  | SystemAttributeRegistration => 46
  | SystemAttributeLayouts => 47
  | ScanXlate => 48
  | Dedup => 49
  | DeadList => 50
  | DeadListHeader => 51
  | DslClones => 52
  | BpObjectSubObject => 53
  | Uint8Data => Z.lor GENERIC_DATA (DmuGenericObjectType.into_u8 DmuGenericObjectType.Uint8)
  | Uint16Data => Z.lor GENERIC_DATA (DmuGenericObjectType.into_u8 DmuGenericObjectType.Uint16)
  | Uint32Data => Z.lor GENERIC_DATA (DmuGenericObjectType.into_u8 DmuGenericObjectType.Uint32)
  | Uint64Data => Z.lor GENERIC_DATA (DmuGenericObjectType.into_u8 DmuGenericObjectType.Uint64)
  | ZapData => Z.lor GENERIC_DATA (DmuGenericObjectType.into_u8 DmuGenericObjectType.Zap)
  | Uint8DataEncrypted => Z.lor (Z.lor ENCRYPTED GENERIC_DATA) (DmuGenericObjectType.into_u8 DmuGenericObjectType.Uint8)
  | Uint16DataEncrypted => Z.lor (Z.lor ENCRYPTED GENERIC_DATA) (DmuGenericObjectType.into_u8 DmuGenericObjectType.Uint16)
  | Uint32DataEncrypted => Z.lor (Z.lor ENCRYPTED GENERIC_DATA) (DmuGenericObjectType.into_u8 DmuGenericObjectType.Uint32)
  | Uint64DataEncrypted => Z.lor (Z.lor ENCRYPTED GENERIC_DATA) (DmuGenericObjectType.into_u8 DmuGenericObjectType.Uint64)
  | ZapDataEncrypted => Z.lor (Z.lor ENCRYPTED GENERIC_DATA) (DmuGenericObjectType.into_u8 DmuGenericObjectType.Zap)
  | Uint8Metadata => Z.lor GENERIC_METADATA (DmuGenericObjectType.into_u8 DmuGenericObjectType.Uint8)
  | Uint16Metadata => Z.lor GENERIC_METADATA (DmuGenericObjectType.into_u8 DmuGenericObjectType.Uint16)
  | Uint32Metadata => Z.lor GENERIC_METADATA (DmuGenericObjectType.into_u8 DmuGenericObjectType.Uint32)
  | Uint64Metadata => Z.lor GENERIC_METADATA (DmuGenericObjectType.into_u8 DmuGenericObjectType.Uint64)
  | ZapMetadata => Z.lor GENERIC_METADATA (DmuGenericObjectType.into_u8 DmuGenericObjectType.Zap)
  | Uint8MetadataEncrypted => Z.lor (Z.lor ENCRYPTED GENERIC_METADATA) (DmuGenericObjectType.into_u8 DmuGenericObjectType.Uint8)
  | Uint16MetadataEncrypted => Z.lor (Z.lor ENCRYPTED GENERIC_METADATA) (DmuGenericObjectType.into_u8 DmuGenericObjectType.Uint16)
  | Uint32MetadataEncrypted => Z.lor (Z.lor ENCRYPTED GENERIC_METADATA) (DmuGenericObjectType.into_u8 DmuGenericObjectType.Uint32)
  | Uint64MetadataEncrypted => Z.lor (Z.lor ENCRYPTED GENERIC_METADATA) (DmuGenericObjectType.into_u8 DmuGenericObjectType.Uint64)
  | ZapMetadataEncrypted => Z.lor (Z.lor ENCRYPTED GENERIC_METADATA) (DmuGenericObjectType.into_u8 DmuGenericObjectType.Zap)
  end.

(** [TryFrom<u8>]; the error is the unknown code. *)
Definition try_from (b : Z) : outcome Z t :=
  match b with
  | 0 => Ok None
  | 1 => Ok ObjectDirectory
  | 2 => Ok ObjectArray
  | 3 => Ok PackedNvList
  | 4 => Ok PackedNvListSize
  | 5 => Ok BpObject
  | 6 => Ok BpObjectHeader
  | 7 => Ok SpaceMapHeader
  | 8 => Ok SpaceMap
  | 9 => Ok IntentLog
  | 10 => Ok Dnode
  | 11 => Ok ObjectSet
  | 12 => Ok DslDirectory
  | 13 => Ok DslDirectoryChildMap
  | 14 => Ok DslDsSnapshotMap
  | 15 => Ok DslProperties
  | 16 => Ok DslDataSet
  | 17 => Ok Znode
  | 18 => Ok AclV0
  | 19 => Ok PlainFileContents
  | 20 => Ok DirectoryContents
  | 21 => Ok MasterNode
  | 22 => Ok UnlinkedSet
  | 23 => Ok Zvol
  | 24 => Ok ZvolProperty
  | 25 => Ok PlainOther
  | 26 => Ok Uint64Other
  | 27 => Ok ZapOther
  | 28 => Ok ErrorLog
  | 29 => Ok SpaHistory
  | 30 => Ok SpaHistoryOffsets
  | 31 => Ok PoolProperties
  | 32 => Ok DslPermissions
  | 33 => Ok AclV1
  | 34 => Ok SysAcl
  | 35 => Ok Fuid
  | 36 => Ok FuidSize
  | 37 => Ok NextClones
  | 38 => Ok ScanQueue
  | 39 => Ok UserGroupUsed
  | 40 => Ok UserGroupQuota
  | 41 => Ok UserRefs
  | 42 => Ok DdtZap
  | 43 => Ok DdtStats
  | 44 => Ok SystemAttribute
  | 45 => Ok SystemAttributeMasterNode
  | 46 => Ok SystemAttributeRegistration
  | 47 => Ok SystemAttributeLayouts
  | 48 => Ok ScanXlate
  | 49 => Ok Dedup
  | 50 => Ok DeadList
  | 51 => Ok DeadListHeader
  | 52 => Ok DslClones
  | 53 => Ok BpObjectSubObject
  | 0x80 => Ok Uint8Data
  | 0x81 => Ok Uint16Data
  | 0x82 => Ok Uint32Data
  | 0x83 => Ok Uint64Data
  | 0x84 => Ok ZapData
  | 0xa0 => Ok Uint8DataEncrypted
  | 0xa1 => Ok Uint16DataEncrypted
  | 0xa2 => Ok Uint32DataEncrypted
  | 0xa3 => Ok Uint64DataEncrypted
  | 0xa4 => Ok ZapDataEncrypted
  | 0xc0 => Ok Uint8Metadata
  | 0xc1 => Ok Uint16Metadata
  | 0xc2 => Ok Uint32Metadata
  | 0xc3 => Ok Uint64Metadata
  | 0xc4 => Ok ZapMetadata
  | 0xe0 => Ok Uint8MetadataEncrypted
  | 0xe1 => Ok Uint16MetadataEncrypted
  | 0xe2 => Ok Uint32MetadataEncrypted
  | 0xe3 => Ok Uint64MetadataEncrypted
  | 0xe4 => Ok ZapMetadataEncrypted
  | _ => Err b
  end.

Definition display (x : t) : string :=
  match x with
  | None => "None"
  | ObjectDirectory => "ObjectDirectory"
  | ObjectArray => "ObjectArray"
  | PackedNvList => "PackedNvList"
  | PackedNvListSize => "PackedNvListSize"
  | BpObject => "BpObject"
  | BpObjectHeader => "BpObjectHeader"
  | SpaceMapHeader => "SpaceMapHeader"
  | SpaceMap => "SpaceMap"
  | IntentLog => "IntentLog"
  | Dnode => "Dnode"
  | ObjectSet => "ObjectSet"
  | DslDirectory => "DslDirectory"
  | DslDirectoryChildMap => "DslDirectoryChildMap"
  | DslDsSnapshotMap => "DslDsSnapshotMap"
  | DslProperties => "DslProperties"
  | DslDataSet => "DslDataSet"
  | Znode => "Znode"
  | AclV0 => "AclV0"
  | PlainFileContents => "PlainFileContents"
  | DirectoryContents => "DirectoryContents"
  | MasterNode => "MasterNode"
  | UnlinkedSet => "UnlinkedSet"
  | Zvol => "Zvol"
  | ZvolProperty => "ZvolProperty"
  | PlainOther => "PlainFileContents"
  | Uint64Other => "Uint64Other"
  | ZapOther => "ZapOther"
  | ErrorLog => "ErrorLog"
  | SpaHistory => "SpaHistory"
  | SpaHistoryOffsets => "SpaHistoryOffsets"
  | PoolProperties => "PoolProperties"
  | DslPermissions => "DslPermissions"
  | AclV1 => "AclV1"
  | SysAcl => "SysAcl"
  | Fuid => "Fuid"
  | FuidSize => "FuidSize"
  | NextClones => "NextClones"
  | ScanQueue => "ScanQueue"
  | UserGroupUsed => "UserGroupUsed"
  | UserGroupQuota => "UserGroupQuota"
  | UserRefs => "UserRefs"
  | DdtZap => "DdtZap"
  | DdtStats => "DdtStats"
  | SystemAttribute => "SystemAttribute"
  | SystemAttributeMasterNode => "SystemAttributeMasterNode"
  | SystemAttributeRegistration => "SystemAttributeRegistration"
  | SystemAttributeLayouts => "SystemAttributeLayouts"
  | ScanXlate => "ScanXlate"
  | Dedup => "Dedup"
  | DeadList => "DeadList"
  | DeadListHeader => "DeadListHeader"
  | DslClones => "DslClones"
  | BpObjectSubObject => "BpObjectSubObject"
  | Uint8Data => "Uint8Data"
  | Uint16Data => "Uint16Data"
  | Uint32Data => "Uint32Data"
  | Uint64Data => "Uint64Data"
  | ZapData => "ZapData"
  | Uint8DataEncrypted => "Uint8DataEncrypted"
  | Uint16DataEncrypted => "Uint16DataEncrypted"
  | Uint32DataEncrypted => "Uint32DataEncrypted"
  | Uint64DataEncrypted => "Uint64DataEncrypted"
  | ZapDataEncrypted => "ZapDataEncrypted"
  | Uint8Metadata => "Uint8Metadata"
  | Uint16Metadata => "Uint16Metadata"
  | Uint32Metadata => "Uint32Metadata"
  | Uint64Metadata => "Uint64Metadata"
  | ZapMetadata => "ZapMetadata"
  | Uint8MetadataEncrypted => "Uint8MetadataEncrypted"
  | Uint16MetadataEncrypted => "Uint16MetadataEncrypted"
  | Uint32MetadataEncrypted => "Uint32MetadataEncrypted"
  | Uint64MetadataEncrypted => "Uint64MetadataEncrypted"
  | ZapMetadataEncrypted => "ZapMetadataEncrypted"
  end.

Lemma DmuType_try_from_into x : try_from (into_u8 x) = Ok x.
Proof. now destruct x. Qed.

Lemma DmuType_into_u8_byte x : is_byte (into_u8 x).
Proof. destruct x; split; reflexivity || discriminate. Qed.

(** [DmuGenericObjectType::from_dmu_type] *)
Definition generic (x : t) : option DmuGenericObjectType.t :=
  match x with
  | Uint8Data | Uint8DataEncrypted | Uint8Metadata | Uint8MetadataEncrypted =>
      Some DmuGenericObjectType.Uint8
  | Uint16Data | Uint16DataEncrypted | Uint16Metadata | Uint16MetadataEncrypted =>
      Some DmuGenericObjectType.Uint16
  | Uint32Data | Uint32DataEncrypted | Uint32Metadata | Uint32MetadataEncrypted =>
      Some DmuGenericObjectType.Uint32
  | Uint64Data | Uint64DataEncrypted | Uint64Metadata | Uint64MetadataEncrypted =>
      Some DmuGenericObjectType.Uint64
  | ZapData | ZapDataEncrypted | ZapMetadata | ZapMetadataEncrypted =>
      Some DmuGenericObjectType.Zap
  | _ => Datatypes.None
  end.

End DmuType.

(** ** Conversions are inverse to each other *)

(** A byte that [try_from] accepts is the discriminant of the value it
    returns: checked on the 256 bytes. *)
Definition code_ok {T} (try_from : Z -> outcome Z T) (into : T -> Z) (b : Z) : bool :=
  match try_from b with Ok x => into x =? b | Err e => e =? b | Panic => false end.

Definition all_bytes : list Z := Z.of_nat <$> seq 0 256.

Lemma all_bytes_spec b : is_byte b -> b ∈ all_bytes.
Proof.
  intros [H0 H1]. unfold all_bytes. apply list_elem_of_fmap. exists (Z.to_nat b).
  rewrite elem_of_seq. lia.
Qed.

Lemma code_ok_all {T} (try_from : Z -> outcome Z T) into :
  forallb (code_ok try_from into) all_bytes = true ->
  forall b, is_byte b ->
  match try_from b with Ok x => into x = b | Err e => e = b | Panic => False end.
Proof.
  intros H b Hb. apply all_bytes_spec in Hb.
  rewrite forallb_forall in H. specialize (H b).
  rewrite <- list_elem_of_In in H. specialize (H Hb).
  unfold code_ok in H. destruct (try_from b); [now apply Z.eqb_eq in H..|done].
Qed.

Lemma CompressionType_code b :
  is_byte b ->
  match CompressionType.try_from b with
  | Ok x => CompressionType.into_u8 x = b | Err e => e = b | Panic => False end.
Proof. apply code_ok_all. now vm_compute. Qed.

Lemma ChecksumType_code b :
  is_byte b ->
  match ChecksumType.try_from b with
  | Ok x => ChecksumType.into_u8 x = b | Err e => e = b | Panic => False end.
Proof. apply code_ok_all. now vm_compute. Qed.

Lemma DmuType_code b :
  is_byte b ->
  match DmuType.try_from b with
  | Ok x => DmuType.into_u8 x = b | Err e => e = b | Panic => False end.
Proof. apply code_ok_all. now vm_compute. Qed.

(** The conversions never panic. *)
Lemma CompressionType_safe b : safe (fun _ => True) (CompressionType.try_from b).
Proof. unfold CompressionType.try_from; repeat case_match; exact I. Qed.
Lemma ChecksumType_safe b : safe (fun _ => True) (ChecksumType.try_from b).
Proof. unfold ChecksumType.try_from; repeat case_match; exact I. Qed.
Lemma BlockPointerEmbeddedType_safe b :
  safe (fun _ => True) (BlockPointerEmbeddedType.try_from b).
Proof. unfold BlockPointerEmbeddedType.try_from; repeat case_match; exact I. Qed.
Lemma DmuType_safe b : safe (fun _ => True) (DmuType.try_from b).
Proof. unfold DmuType.try_from; repeat case_match; exact I. Qed.

#[export] Hint Resolve CompressionType_safe ChecksumType_safe
  BlockPointerEmbeddedType_safe DmuType_safe : zfs.
