(* ===== verification/Dva.v ===== *)
(** * Data virtual addresses and checksum values

    [Dva] (src/phys/dva.rs), [ChecksumValue] and [ChecksumTail]
    (src/phys/checksum.rs): decoders, encoders, their ranges and the round
    trips in both directions. *)

From S2P Require Import Prelude Decoder Encoder.

(** A step of a [reads] walk over a decoder: the call it starts with. *)
Ltac rstep :=
  first
    [ apply reads_ret
    | apply reads_map_err
    | apply reads_get_int; [reflexivity|]
    | apply reads_get_bytes
    | apply reads_skip_zeros; [done]
    | apply reads_guard ].
Ltac rbind := eapply reads_bind; [repeat rstep | cbv beta].
Ltac rbind0 := eapply reads_bind_nil; [repeat rstep | cbv beta].

Section wsteps.
Context (o : EndianOrder).
Lemma writes_u64 x : writes (@put_u64 (endian_encoder o) x) (int_to o 8 x).
Proof. apply writes_put_int. Qed.
End wsteps.

Record Dva_t : Type := {
  allocated : Z;
  offset_ : Z;
  is_gang : bool;
  vdev : Z
}.

#[global] Instance Dva_eq_dec : EqDecision Dva_t.
Proof. solve_decision. Defined.

Module Dva.

Definition SIZE : Z := 16.
Definition ALLOCATED_MIN : Z := 1.
Definition ALLOCATED_MAX : Z := 2 ^ 24 - 1.
Definition OFFSET_MASK : Z := 2 ^ 63 - 1.
Definition OFFSET_MAX : Z := OFFSET_MASK.
Definition VDEV_MAX : Z := 2 ^ 24 - 1.
Definition ASIZE_MASK_DOWN_SHIFTED : Z := 2 ^ 24 - 1.
Definition ASIZE_SHIFT : Z := 0.
Definition GRID_SHIFT : Z := 24.
Definition VDEV_MASK_DOWN_SHIFTED : Z := 2 ^ 24 - 1.
Definition VDEV_SHIFT : Z := 32.
Definition PADDING_SHIFT : Z := 56.
Definition GANG_BIT : Z := 63.

Inductive DecodeError : Type :=
| Binary (err : BinaryDecodeError)
| InvalidOffset (offset : Z)
| NonZeroGrid (grid : Z)
| NonZeroPadding (padding : Z).

Inductive EncodeError : Type :=
| EBinary (err : BinaryEncodeError)
| EInvalidAllocated (allocated : Z)
| EInvalidOffset (offset : Z)
| EInvalidVdev (vdev : Z).

(** [usize::checked_shl] fails only for a shift by 64 or more; the shifted
    value wraps at 64 bits. *)
Definition get_size (d : Dva_t) : option Z :=
  if fitsb 64 (allocated d) then Some (wrap 64 (Z.shiftl (allocated d) 9)) else None.

Section decode.
Context {BD : BinaryDecoder}.

(** The two words of an address; all zeros is an empty one. *)
Definition from_words (a b : Z) : outcome DecodeError (option Dva_t) :=
  if (a =? 0) && (b =? 0) then Ok None
  else
    let grid := wrap 8 (Z.shiftr a GRID_SHIFT) in
    guard_err (negb (grid =? 0)) (NonZeroGrid grid);;
    let padding := wrap 8 (Z.shiftr a PADDING_SHIFT) in
    guard_err (negb (padding =? 0)) (NonZeroPadding padding);;
    Ok (Some {|
      vdev := Z.land (Z.shiftr a VDEV_SHIFT) VDEV_MASK_DOWN_SHIFTED;
      allocated := Z.land (Z.shiftr a ASIZE_SHIFT) ASIZE_MASK_DOWN_SHIFTED;
      offset_ := Z.land b OFFSET_MASK;
      is_gang := bit_set b GANG_BIT
    |}).

Definition from_decoder : SM BinaryDecoderBuffer DecodeError (option Dva_t) :=
  a ← sm_map_err Binary get_u64;
  b ← sm_map_err Binary get_u64;
  sm_lift (from_words a b).
End decode.

Section encode.
Context {BE : BinaryEncoder}.

Definition word_a (d : Dva_t) : Z :=
  Z.lor (Z.lor (Z.shiftl (vdev d) VDEV_SHIFT) (Z.shiftl 0 GRID_SHIFT))
    (Z.shiftl (allocated d) ASIZE_SHIFT).
Definition word_b (d : Dva_t) : Z :=
  Z.lor (if is_gang d then Z.shiftl 1 GANG_BIT else 0) (offset_ d).

Definition to_encoder (d : Dva_t) : SM BinaryEncoderBuffer EncodeError unit :=
  sm_guard (VDEV_MAX <? vdev d) (EInvalidVdev (vdev d));;
  sm_guard ((ALLOCATED_MAX <? allocated d) || (allocated d <? ALLOCATED_MIN))
    (EInvalidAllocated (allocated d));;
  sm_guard (OFFSET_MAX <? offset_ d) (EInvalidOffset (offset_ d));;
  sm_map_err EBinary (put_u64 (word_a d));;
  sm_map_err EBinary (put_u64 (word_b d)).

Definition empty_to_encoder : SM BinaryEncoderBuffer EncodeError unit :=
  sm_map_err EBinary (put_zeros SIZE).

Definition option_to_encoder (d : option Dva_t) : SM BinaryEncoderBuffer EncodeError unit :=
  match d with Some v => to_encoder v | None => empty_to_encoder end.
End encode.

(** The range of a decoded address, and of one that can be encoded. *)
Definition wf (d : Dva_t) : Prop :=
  fits 24 (allocated d) /\ fits 63 (offset_ d) /\ fits 24 (vdev d).
Definition encodable (d : Dva_t) : Prop := wf d /\ 1 <= allocated d.

Lemma from_words_spec a b :
  fits 64 a -> fits 64 b ->
  safe (fun r => match r with
                 | None => a = 0 /\ b = 0
                 | Some d => wf d /\ word_a d = a /\ word_b d = b
                 end) (from_words a b).
Proof.
  unfold fits. intros Ha Hb. unfold from_words.
  destruct ((a =? 0) && (b =? 0)) eqn:E0.
  { apply andb_true_iff in E0. rewrite !Z.eqb_eq in E0. exact E0. }
  clear E0. eapply safe_bind; [apply safe_guard|]; intros ? Hg;
    eapply safe_bind; [apply safe_guard|]; intros ? Hp;
    cbn [safe]; unfold wf, word_a, word_b, fits, wrap in *; cbn [vdev allocated offset_ is_gang];
    unfold GRID_SHIFT, PADDING_SHIFT, VDEV_SHIFT, ASIZE_SHIFT, VDEV_MASK_DOWN_SHIFTED,
      ASIZE_MASK_DOWN_SHIFTED, OFFSET_MASK, GANG_BIT in *;
    rewrite ?bit_set_div by lia;
    rewrite !land_ones_mod, !shiftr_div in * by lia;
    change (Z.shiftl 0 24) with 0; rewrite ?Z.lor_0_r, Z.shiftl_0_r, ?Z.pow_0_r, ?Z.div_1_r;
    rewrite negb_false_iff, Z.eqb_eq in Hg, Hp.
  rewrite (Z.lor_comm (Z.shiftl _ 32)), lor_shiftl_add by dlia.
  split; [dlia|]; split; [dlia|].
  rewrite (Z.lor_comm _ (_ mod 2 ^ 63)).
  destruct (Z.eqb_spec ((b / 2 ^ 63) mod 2) 0); cbn [negb];
    rewrite ?Z.lor_0_r, ?lor_shiftl_add by dlia; dlia.
Qed.

Lemma words_from d : encodable d -> from_words (word_a d) (word_b d) = Ok (Some d).
Proof.
  intros [(Ha & Ho & Hv) H1]. unfold fits in *.
  assert (Ea : word_a d = allocated d + vdev d * 2 ^ 32).
  { unfold word_a, VDEV_SHIFT, GRID_SHIFT, ASIZE_SHIFT.
    change (Z.shiftl 0 24) with 0. rewrite Z.lor_0_r, Z.shiftl_0_r, Z.lor_comm.
    now rewrite lor_shiftl_add by dlia. }
  assert (Eb : word_b d = offset_ d + (if is_gang d then 1 else 0) * 2 ^ 63).
  { unfold word_b, GANG_BIT. rewrite Z.lor_comm. destruct (is_gang d).
    - now rewrite lor_shiftl_add by dlia.
    - rewrite Z.lor_0_r. lia. }
  unfold from_words. rewrite Ea, Eb.
  unfold wrap, GRID_SHIFT, PADDING_SHIFT, VDEV_SHIFT, ASIZE_SHIFT, VDEV_MASK_DOWN_SHIFTED,
      ASIZE_MASK_DOWN_SHIFTED, OFFSET_MASK, GANG_BIT.
  destruct (Z.eqb_spec (allocated d + vdev d * 2 ^ 32) 0); [dlia|]. cbn [andb].
  rewrite bit_set_div, !land_ones_mod, !shiftr_div by dlia.
  rewrite Z.pow_0_r, Z.div_1_r.
  replace (((allocated d + vdev d * 2 ^ 32) / 2 ^ 24) mod 2 ^ 8) with 0 by dlia.
  replace (((allocated d + vdev d * 2 ^ 32) / 2 ^ 56) mod 2 ^ 8) with 0 by dlia.
  cbn [negb Z.eqb guard_err mbind outcome_bind].
  replace (((allocated d + vdev d * 2 ^ 32) / 2 ^ 32) mod 2 ^ 24) with (vdev d) by dlia.
  replace ((allocated d + vdev d * 2 ^ 32) mod 2 ^ 24) with (allocated d) by dlia.
  replace ((offset_ d + (if is_gang d then 1 else 0) * 2 ^ 63) mod 2 ^ 63) with (offset_ d)
    by (destruct (is_gang d); dlia).
  replace (negb _) with (is_gang d).
  - now destruct d.
  - destruct (is_gang d); symmetry; [apply negb_true_iff, Z.eqb_neq | apply negb_false_iff, Z.eqb_eq];
      dlia.
Qed.

Lemma to_encoder_writes o d :
  encodable d ->
  writes (@to_encoder (endian_encoder o) d) (int_to o 8 (word_a d) ++ int_to o 8 (word_b d)).
Proof.
  intros [(Ha & Ho & Hv) H1]. unfold fits in *. unfold to_encoder.
  unfold VDEV_MAX, ALLOCATED_MAX, ALLOCATED_MIN, OFFSET_MAX, OFFSET_MASK.
  do 3 (apply writes_bind_nil; [apply writes_guard; rewrite ?orb_false_iff, ?Z.ltb_ge; lia|]).
  apply writes_bind; apply writes_map_err, writes_u64.
Qed.

Lemma words_fit d : wf d -> fits 64 (word_a d) /\ fits 64 (word_b d).
Proof.
  intros (Ha & Ho & Hv). unfold fits in *.
  unfold word_a, word_b, VDEV_SHIFT, GRID_SHIFT, ASIZE_SHIFT, GANG_BIT.
  change (Z.shiftl 0 24) with 0. rewrite Z.lor_0_r, Z.shiftl_0_r, Z.lor_comm.
  rewrite lor_shiftl_add by lia. split; [lia|].
  rewrite Z.lor_comm. destruct (is_gang d); [rewrite lor_shiftl_add by lia|rewrite Z.lor_0_r]; lia.
Qed.

Lemma from_decoder_reads_words o a b r :
  fits 64 a -> fits 64 b -> from_words a b = Ok r ->
  reads (@from_decoder (endian_decoder o)) (int_to o 8 a ++ int_to o 8 b) r.
Proof.
  intros Ha Hb Hr. unfold from_decoder.
  rbind; [done|]. apply reads_last. rbind; [done|].
  rewrite Hr. apply reads_ret.
Qed.

Lemma from_decoder_reads o d :
  encodable d ->
  reads (@from_decoder (endian_decoder o))
    (int_to o 8 (word_a d) ++ int_to o 8 (word_b d)) (Some d).
Proof.
  intros Hd. pose proof (words_fit d (proj1 Hd)) as [Ha Hb].
  apply from_decoder_reads_words; auto. now apply words_from.
Qed.

(** The bytes of an optional address. *)
Definition encoding (o : EndianOrder) (d : option Dva_t) : bytes :=
  match d with
  | Some d => int_to o 8 (word_a d) ++ int_to o 8 (word_b d)
  | None => zrep SIZE 0
  end.

Lemma option_reads o d :
  (forall v, d = Some v -> encodable v) ->
  reads (@from_decoder (endian_decoder o)) (encoding o d) d.
Proof.
  destruct d as [d|]; intros Hd; [now apply from_decoder_reads, Hd|].
  change (encoding o None) with (zrep 16 0).
  replace (zrep 16 0) with (int_to o 8 0 ++ int_to o 8 0) by (now destruct o).
  now apply from_decoder_reads_words.
Qed.

Lemma option_writes o d :
  (forall v, d = Some v -> encodable v) ->
  writes (@option_to_encoder (endian_encoder o) d) (encoding o d).
Proof.
  destruct d as [d|]; intros Hd; [now apply to_encoder_writes, Hd|].
  apply writes_map_err, writes_put_zeros. done.
Qed.

Lemma blen_encoding o d : blen (encoding o d) = 16.
Proof. destruct d; unfold encoding; [now rewrite blen_app, !blen_int_to|]. now rewrite blen_zrep. Qed.

Lemma bytes_ok_encoding o d : bytes_ok (encoding o d).
Proof. destruct d; unfold encoding; [apply Forall_app; auto with zfs | apply bytes_ok_zrep]. Qed.

(** Decoding never panics, and what it returns is in range. *)
Lemma hoare_from_decoder {BD} `{!BinaryDecoderLaws BD} w :
  hoare (DecoderBuffer.inv w) from_decoder
    (fun r => match r with Some d => wf d | None => True end).
Proof.
  eapply hoare_bind; [apply hoare_map_err, law_u64|]; intros a Ha.
  eapply hoare_bind; [apply hoare_map_err, law_u64|]; intros b Hb.
  apply hoare_lift. eapply safe_mono; [now apply from_words_spec|].
  intros [d|]; tauto.
Qed.

End Dva.

(** ** Checksum values and tails *)
Definition ChecksumValue : Type := (Z * Z * Z * Z)%type.

Module ChecksumValue_.

Definition SIZE : Z := 32.

Definition from_decoder {BD : BinaryDecoder}
    : SM BinaryDecoderBuffer BinaryDecodeError ChecksumValue :=
  w0 ← get_u64; w1 ← get_u64; w2 ← get_u64; w3 ← get_u64;
  mret (w0, w1, w2, w3).

Definition to_encoder {BE : BinaryEncoder} (c : ChecksumValue)
    : SM BinaryEncoderBuffer BinaryEncodeError unit :=
  let '(w0, w1, w2, w3) := c in
  put_u64 w0;; put_u64 w1;; put_u64 w2;; put_u64 w3.

Definition wf (c : ChecksumValue) : Prop :=
  let '(w0, w1, w2, w3) := c in fits 64 w0 /\ fits 64 w1 /\ fits 64 w2 /\ fits 64 w3.

Definition encoding (o : EndianOrder) (c : ChecksumValue) : bytes :=
  let '(w0, w1, w2, w3) := c in
  int_to o 8 w0 ++ int_to o 8 w1 ++ int_to o 8 w2 ++ int_to o 8 w3.

Lemma cksum_value_reads o c :
  wf c -> reads (@from_decoder (endian_decoder o)) (encoding o c) c.
Proof.
  destruct c as [[[w0 w1] w2] w3]. intros (H0 & H1 & H2 & H3). unfold from_decoder. cbn.
  do 3 (rbind; [done|]). apply reads_last. rbind; [done|]. apply reads_ret.
Qed.

Lemma cksum_value_writes o c : writes (@to_encoder (endian_encoder o) c) (encoding o c).
Proof.
  destruct c as [[[w0 w1] w2] w3]. unfold to_encoder. cbn.
  repeat (apply writes_bind; [apply writes_put_int|]). apply writes_put_int.
Qed.

Lemma blen_cksum_encoding o c : blen (encoding o c) = 32.
Proof. destruct c as [[[w0 w1] w2] w3]. cbn. now rewrite !blen_app, !blen_int_to. Qed.

Lemma bytes_ok_cksum_encoding o c : bytes_ok (encoding o c).
Proof. destruct c as [[[w0 w1] w2] w3]. cbn. rewrite !Forall_app. auto 6 with zfs. Qed.

Lemma hoare_cksum_value {BD} `{!BinaryDecoderLaws BD} w :
  hoare (DecoderBuffer.inv w) from_decoder wf.
Proof.
  do 4 (eapply hoare_bind; [apply law_u64|]; intros ? ?).
  apply hoare_ret. repeat split; try apply H; try apply H0; try apply H1; apply H2.
Qed.

End ChecksumValue_.

Record ChecksumTail : Type := { ct_order : EndianOrder; ct_value : ChecksumValue }.

Module ChecksumTail_.

Definition SIZE : Z := 8 + ChecksumValue_.SIZE.
Definition MAGIC : Z := 0x0210da7ab10c7a11.

(** The error of a checksum value is the one variant it has, a binary error. *)
Inductive DecodeError : Type := DBinary (err : BinaryDecodeError) | DChecksumValue (err : BinaryDecodeError).
Inductive EncodeError : Type := EBinary (err : BinaryEncodeError) | EChecksumValue (err : BinaryEncodeError).

Definition from_bytes (l : bytes) : outcome DecodeError ChecksumTail :=
  '(o, b) ← map_err DBinary (from_u64_magic l MAGIC);
  match @ChecksumValue_.from_decoder (endian_decoder o) b with
  | (Ok v, _) => Ok {| ct_order := o; ct_value := v |}
  | (Err e, _) => Err (DChecksumValue e)
  | (Panic, _) => Panic
  end.

Definition to_encoder (t : ChecksumTail) : SM BinaryEncoderBuffer EncodeError unit :=
  let BE := endian_encoder (ct_order t) in
  sm_map_err EBinary (put_u64 MAGIC);; sm_map_err EChecksumValue (ChecksumValue_.to_encoder (ct_value t)).

(** [to_bytes] fills the [SIZE] bytes it is given. *)
Definition to_bytes (t : ChecksumTail) : outcome EncodeError bytes :=
  encode_into SIZE (to_encoder t).

Lemma tail_encoding t :
  to_bytes t = Ok (int_to (ct_order t) 8 MAGIC ++ ChecksumValue_.encoding (ct_order t) (ct_value t)).
Proof.
  apply writes_encode.
  - apply writes_bind; apply writes_map_err; [apply writes_put_int | apply ChecksumValue_.cksum_value_writes].
  - rewrite blen_app, blen_int_to, ChecksumValue_.blen_cksum_encoding. done.
Qed.

End ChecksumTail_.
