(* ===== verification/BlockPointer.v ===== *)
(** * Block pointers (src/phys/block_pointer.rs)

    The 128-byte block pointer in its three forms.  [Regular] and [Encrypted]
    pointers round-trip through the encoder; an encoding of zeros reads back
    as a hole.  Decoding never panics and returns sizes in range, which is
    what the vdev layer's size arithmetic rests on. *)

From S2P Require Import Prelude Decoder Encoder Types Dva.

Record BlockPointerEmbedded : Type := {
  e_compression : CompressionType.t;
  e_dmu : DmuType.t;
  e_embedded_type : BlockPointerEmbeddedType.t;
  e_order : EndianOrder;
  e_level : Z;
  e_logical_birth_txg : Z;
  e_logical_size : Z;
  e_physical_size : Z;
  e_payload : bytes
}.

Record BlockPointerEncrypted : Type := {
  c_checksum_type : ChecksumType.t;
  c_checksum_value : Z * Z;
  c_compression : CompressionType.t;
  c_dedup : bool;
  c_dmu : DmuType.t;
  c_dvas : option Dva_t * option Dva_t;
  c_order : EndianOrder;
  c_fill_count : Z;
  c_iv_1 : Z;
  c_iv_2 : Z;
  c_level : Z;
  c_logical_birth_txg : Z;
  c_logical_sectors : Z;
  c_mac : Z * Z;
  c_physical_birth_txg : Z;
  c_physical_sectors : Z;
  c_salt : Z
}.

Record BlockPointerRegular : Type := {
  checksum_type : ChecksumType.t;
  checksum_value : ChecksumValue;
  compression : CompressionType.t;
  dedup : bool;
  dmu : DmuType.t;
  dva0 : option Dva_t;
  dva1 : option Dva_t;
  dva2 : option Dva_t;
  order : EndianOrder;
  fill_count : Z;
  level : Z;
  logical_birth_txg : Z;
  logical_sectors : Z;
  physical_birth_txg : Z;
  physical_sectors : Z
}.

(** [r.dvas], and the addresses [r.dvas.iter().flatten()] visits. *)
Definition dvas (r : BlockPointerRegular) : list (option Dva_t) := [dva0 r; dva1 r; dva2 r].
Definition present_dvas (r : BlockPointerRegular) : list Dva_t := omap id (dvas r).

Inductive BlockPointer : Type :=
| Embedded (e : BlockPointerEmbedded)
| Encrypted (c : BlockPointerEncrypted)
| Regular (r : BlockPointerRegular).

Module Bp.

Definition SIZE : Z := 3 * Dva.SIZE + 48 + ChecksumValue_.SIZE.
Definition LOGICAL_SECTORS_MAX : Z := 2 ^ 16.
Definition PHYSICAL_SECTORS_MAX : Z := 2 ^ 16.
Definition COMPRESSION_MASK_DOWN_SHIFTED : Z := 0x1f.
Definition COMPRESSION_SHIFT : Z := 32.
Definition CHECKSUM_SHIFT : Z := 40.
Definition DMU_SHIFT : Z := 48.
Definition LEVEL_MASK_DOWN_SHIFTED : Z := 0x1f.
Definition LEVEL_SHIFT : Z := 56.
Definition EMBEDDED_BIT : Z := 39.
Definition ENCRYPTED_BIT : Z := 61.
Definition DEDUP_BIT : Z := 62.
Definition LITTLE_ENDIAN_BIT : Z := 63.
Definition SECTORS_MASK : Z := 2 ^ 16 - 1.
Definition PHYSICAL_SECTORS_SHIFT : Z := 16.
Definition PADDING_SIZE : Z := 16.
Definition EMB_LOGICAL_SIZE_MASK : Z := 2 ^ 25 - 1.
Definition EMB_PHYSICAL_SIZE_MAX : Z := 112.
Definition EMB_PHYSICAL_SIZE_MASK_DOWN_SHIFTED : Z := 0x7f.
Definition EMB_PHYSICAL_SIZE_SHIFT : Z := 25.
Definition IV_2_SHIFT : Z := 32.
Definition IV_FILL_MASK : Z := 2 ^ 32 - 1.

Inductive DecodeError : Type :=
| DEmbeddedType (code : Z)
| DChecksumType (code : Z)
| DChecksumValue (err : BinaryDecodeError)
| DCompressionType (code : Z)
| DDmuType (code : Z)
| DDva (err : Dva.DecodeError)
| DBinary (err : BinaryDecodeError)
| InvalidBlockPointerType (embedded encrypted : bool)
| InvalidDedupValue (dedup : bool)
| InvalidEmbeddedLength (length : Z)
| LogicalSizeTooLarge (logical_size : Z).

Inductive EncodeError : Type :=
| EChecksumValue (err : BinaryEncodeError)
| EDva (err : Dva.EncodeError)
| EEndian (err : BinaryEncodeError)
| EInvalidEmbeddedLength (length : Z)
| EInvalidLevel (level : Z)
| EInvalidLogicalSectors (sectors : Z)
| EInvalidLogicalSize (logical_size : Z)
| EInvalidPhysicalSectors (sectors : Z).

Abbreviation D := (SM BinaryDecoderBuffer DecodeError).
Abbreviation W := (SM BinaryEncoderBuffer EncodeError).

(** *** The fields of the flags word *)
Definition flag_order (flags : Z) : EndianOrder :=
  if bit_set flags LITTLE_ENDIAN_BIT then Little else Big.
Definition flag_level (flags : Z) : Z :=
  Z.land (Z.shiftr flags LEVEL_SHIFT) LEVEL_MASK_DOWN_SHIFTED.
Definition flag_dmu (flags : Z) : Z := wrap 8 (Z.shiftr flags DMU_SHIFT).
Definition flag_checksum (flags : Z) : Z := wrap 8 (Z.shiftr flags CHECKSUM_SHIFT).
Definition flag_compression (flags : Z) : Z :=
  Z.land (Z.shiftr flags COMPRESSION_SHIFT) COMPRESSION_MASK_DOWN_SHIFTED.
Definition flag_logical_sectors (flags : Z) : Z := Z.land flags SECTORS_MASK + 1.
Definition flag_physical_sectors (flags : Z) : Z :=
  Z.land (Z.shiftr flags PHYSICAL_SECTORS_SHIFT) SECTORS_MASK + 1.

(** [(embedded, encrypted) != (em, en)] *)
Definition check_type (flags : Z) (em en : bool) : outcome DecodeError unit :=
  let embedded := bit_set flags EMBEDDED_BIT in
  let encrypted := bit_set flags ENCRYPTED_BIT in
  guard_err (negb (Bool.eqb embedded em && Bool.eqb encrypted en))
    (InvalidBlockPointerType embedded encrypted).

Section decode.
Context {BD : BinaryDecoder}.
Definition u64 : D Z := sm_map_err DBinary get_u64.
Definition dva : D (option Dva_t) := sm_map_err DDva Dva.from_decoder.
Definition bytes_n (n : Z) : D bytes := sm_map_err DBinary (get_bytes_n n).

Definition embedded_from_decoder : D BlockPointerEmbedded :=
  part_1 ← bytes_n 48;
  flags ← u64;
  part_2 ← bytes_n 24;
  logical_birth_txg ← u64;
  part_3 ← bytes_n 40;
  let payload := part_1 ++ part_2 ++ part_3 in
  sm_lift (check_type flags true false);;
  let dedup := bit_set flags DEDUP_BIT in
  sm_guard dedup (InvalidDedupValue dedup);;
  dmu ← sm_lift (map_err DDmuType (DmuType.try_from (flag_dmu flags)));
  embedded_type ←
    sm_lift (map_err DEmbeddedType (BlockPointerEmbeddedType.try_from (flag_checksum flags)));
  compression ←
    sm_lift (map_err DCompressionType (CompressionType.try_from (flag_compression flags)));
  let logical_size := Z.land flags EMB_LOGICAL_SIZE_MASK + 1 in
  sm_guard (negb (fitsb 64 logical_size)) (LogicalSizeTooLarge logical_size);;
  let physical_size :=
    Z.land (Z.shiftr flags EMB_PHYSICAL_SIZE_SHIFT) EMB_PHYSICAL_SIZE_MASK_DOWN_SHIFTED + 1 in
  sm_guard (blen payload <? physical_size) (InvalidEmbeddedLength physical_size);;
  mret {|
    e_compression := compression; e_dmu := dmu; e_embedded_type := embedded_type;
    e_order := flag_order flags; e_level := flag_level flags;
    e_logical_birth_txg := logical_birth_txg; e_logical_size := logical_size;
    e_physical_size := physical_size; e_payload := payload
  |}.

Definition encrypted_from_decoder : D BlockPointerEncrypted :=
  d0 ← dva; d1 ← dva;
  salt ← u64;
  iv_1 ← u64;
  flags ← u64;
  sm_lift (check_type flags false true);;
  dmu ← sm_lift (map_err DDmuType (DmuType.try_from (flag_dmu flags)));
  checksum_type ← sm_lift (map_err DChecksumType (ChecksumType.try_from (flag_checksum flags)));
  compression ←
    sm_lift (map_err DCompressionType (CompressionType.try_from (flag_compression flags)));
  sm_map_err DBinary (d_skip_zeros PADDING_SIZE);;
  physical_birth_txg ← u64;
  logical_birth_txg ← u64;
  iv_fill ← u64;
  k0 ← u64; k1 ← u64;
  m0 ← u64; m1 ← u64;
  mret {|
    c_checksum_type := checksum_type; c_checksum_value := (k0, k1);
    c_compression := compression; c_dedup := bit_set flags DEDUP_BIT; c_dmu := dmu;
    c_dvas := (d0, d1); c_order := flag_order flags;
    c_fill_count := Z.land iv_fill IV_FILL_MASK;
    c_iv_1 := iv_1; c_iv_2 := wrap 32 (Z.shiftr iv_fill IV_2_SHIFT);
    c_level := flag_level flags; c_logical_birth_txg := logical_birth_txg;
    c_logical_sectors := flag_logical_sectors flags; c_mac := (m0, m1);
    c_physical_birth_txg := physical_birth_txg;
    c_physical_sectors := flag_physical_sectors flags; c_salt := salt
  |}.

Definition regular_from_decoder : D BlockPointerRegular :=
  d0 ← dva; d1 ← dva; d2 ← dva;
  flags ← u64;
  sm_lift (check_type flags false false);;
  dmu ← sm_lift (map_err DDmuType (DmuType.try_from (flag_dmu flags)));
  checksum_type ← sm_lift (map_err DChecksumType (ChecksumType.try_from (flag_checksum flags)));
  compression ←
    sm_lift (map_err DCompressionType (CompressionType.try_from (flag_compression flags)));
  sm_map_err DBinary (d_skip_zeros PADDING_SIZE);;
  physical_birth_txg ← u64;
  logical_birth_txg ← u64;
  fill_count ← u64;
  checksum_value ← sm_map_err DChecksumValue ChecksumValue_.from_decoder;
  mret {|
    checksum_type := checksum_type; checksum_value := checksum_value;
    compression := compression; dedup := bit_set flags DEDUP_BIT; dmu := dmu;
    dva0 := d0; dva1 := d1; dva2 := d2; order := flag_order flags;
    fill_count := fill_count; level := flag_level flags;
    logical_birth_txg := logical_birth_txg;
    logical_sectors := flag_logical_sectors flags;
    physical_birth_txg := physical_birth_txg;
    physical_sectors := flag_physical_sectors flags
  |}.

(** The form is chosen by two bits of the flags word, which is read ahead. *)
Definition from_decoder : D (option BlockPointer) :=
  empty ← sm_map_err DBinary (d_is_skip_zeros SIZE);
  if (empty : bool) then mret None
  else
    offset ← sm_gets offset;
    sm_map_err DBinary (d_skip (3 * Dva.SIZE));;
    flags ← u64;
    sm_map_err DBinary (d_seek offset);;
    match bit_set flags EMBEDDED_BIT, bit_set flags ENCRYPTED_BIT with
    | false, false => r ← regular_from_decoder; mret (Some (Regular r))
    | false, true => c ← encrypted_from_decoder; mret (Some (Encrypted c))
    | true, false => e ← embedded_from_decoder; mret (Some (Embedded e))
    | true, true => sm_err (InvalidBlockPointerType true true)
    end.
End decode.

Definition order_flag (o : EndianOrder) : Z :=
  match o with Little => Z.shiftl 1 LITTLE_ENDIAN_BIT | Big => 0 end.
Definition dedup_flag (d : bool) : Z := if d then Z.shiftl 1 DEDUP_BIT else 0.

Section encode.
Context {BE : BinaryEncoder}.
Definition put_dva (d : option Dva_t) : W unit := sm_map_err EDva (Dva.option_to_encoder d).
Definition pu64 (x : Z) : W unit := sm_map_err EEndian (put_u64 x).

Definition embedded_flags (e : BlockPointerEmbedded) : Z :=
  let or := Z.lor in
  or (or (or (or (or (or (or (e_logical_size e)
    (Z.shiftl (e_physical_size e) EMB_PHYSICAL_SIZE_SHIFT))
    (Z.shiftl (CompressionType.into_u8 (e_compression e)) COMPRESSION_SHIFT))
    (Z.shiftl 1 EMBEDDED_BIT))
    (Z.shiftl (BlockPointerEmbeddedType.into_u8 (e_embedded_type e)) CHECKSUM_SHIFT))
    (Z.shiftl (DmuType.into_u8 (e_dmu e)) DMU_SHIFT))
    (Z.shiftl (e_level e) LEVEL_SHIFT))
    (order_flag (e_order e)).

Definition embedded_to_encoder (e : BlockPointerEmbedded) : W unit :=
  sm_guard (blen (e_payload e) <? e_physical_size e) (EInvalidEmbeddedLength (e_physical_size e));;
  sm_map_err EEndian (put_bytes (ztake 48 (e_payload e)));;
  sm_guard (LEVEL_MASK_DOWN_SHIFTED <? e_level e) (EInvalidLevel (e_level e));;
  sm_guard (EMB_LOGICAL_SIZE_MASK <? e_logical_size e) (EInvalidLogicalSize (e_logical_size e));;
  pu64 (embedded_flags e);;
  sm_map_err EEndian (put_bytes (ztake 24 (zdrop 48 (e_payload e))));;
  pu64 (e_logical_birth_txg e);;
  sm_map_err EEndian (put_bytes (ztake 40 (zdrop 72 (e_payload e)))).

Definition encrypted_flags (c : BlockPointerEncrypted) : Z :=
  let or := Z.lor in
  or (or (or (or (or (or (or (or (c_logical_sectors c - 1)
    (Z.shiftl (c_physical_sectors c - 1) PHYSICAL_SECTORS_SHIFT))
    (Z.shiftl (CompressionType.into_u8 (c_compression c)) COMPRESSION_SHIFT))
    (Z.shiftl (ChecksumType.into_u8 (c_checksum_type c)) CHECKSUM_SHIFT))
    (Z.shiftl (DmuType.into_u8 (c_dmu c)) DMU_SHIFT))
    (Z.shiftl (c_level c) LEVEL_SHIFT))
    (Z.shiftl 1 ENCRYPTED_BIT))
    (dedup_flag (c_dedup c)))
    (order_flag (c_order c)).

Definition encrypted_to_encoder (c : BlockPointerEncrypted) : W unit :=
  put_dva (fst (c_dvas c));; put_dva (snd (c_dvas c));;
  sm_guard ((c_logical_sectors c <? 1) || (LOGICAL_SECTORS_MAX <? c_logical_sectors c))
    (EInvalidLogicalSectors (c_logical_sectors c));;
  sm_guard ((c_physical_sectors c <? 1) || (PHYSICAL_SECTORS_MAX <? c_physical_sectors c))
    (EInvalidPhysicalSectors (c_physical_sectors c));;
  pu64 (c_salt c);;
  pu64 (c_iv_1 c);;
  sm_guard (LEVEL_MASK_DOWN_SHIFTED <? c_level c) (EInvalidLevel (c_level c));;
  pu64 (encrypted_flags c);;
  sm_map_err EEndian (put_zeros PADDING_SIZE);;
  pu64 (c_physical_birth_txg c);;
  pu64 (c_logical_birth_txg c);;
  pu64 (Z.lor (c_fill_count c) (Z.shiftl (c_iv_2 c) IV_2_SHIFT));;
  pu64 (fst (c_checksum_value c));; pu64 (snd (c_checksum_value c));;
  pu64 (fst (c_mac c));; pu64 (snd (c_mac c)).

Definition regular_flags (r : BlockPointerRegular) : Z :=
  let or := Z.lor in
  or (or (or (or (or (or (or (logical_sectors r - 1)
    (Z.shiftl (physical_sectors r - 1) PHYSICAL_SECTORS_SHIFT))
    (Z.shiftl (CompressionType.into_u8 (compression r)) COMPRESSION_SHIFT))
    (Z.shiftl (ChecksumType.into_u8 (checksum_type r)) CHECKSUM_SHIFT))
    (Z.shiftl (DmuType.into_u8 (dmu r)) DMU_SHIFT))
    (Z.shiftl (level r) LEVEL_SHIFT))
    (dedup_flag (dedup r)))
    (order_flag (order r)).

Definition regular_to_encoder (r : BlockPointerRegular) : W unit :=
  put_dva (dva0 r);; put_dva (dva1 r);; put_dva (dva2 r);;
  sm_guard ((logical_sectors r <? 1) || (LOGICAL_SECTORS_MAX <? logical_sectors r))
    (EInvalidLogicalSectors (logical_sectors r));;
  sm_guard ((physical_sectors r <? 1) || (PHYSICAL_SECTORS_MAX <? physical_sectors r))
    (EInvalidPhysicalSectors (physical_sectors r));;
  sm_guard (LEVEL_MASK_DOWN_SHIFTED <? level r) (EInvalidLevel (level r));;
  pu64 (regular_flags r);;
  sm_map_err EEndian (put_zeros PADDING_SIZE);;
  pu64 (physical_birth_txg r);;
  pu64 (logical_birth_txg r);;
  pu64 (fill_count r);;
  sm_map_err EChecksumValue (ChecksumValue_.to_encoder (checksum_value r)).

Definition to_encoder (bp : BlockPointer) : W unit :=
  match bp with
  | Embedded e => embedded_to_encoder e
  | Encrypted c => encrypted_to_encoder c
  | Regular r => regular_to_encoder r
  end.

Definition empty_to_encoder : W unit := sm_map_err EEndian (put_zeros SIZE).
Definition option_to_encoder (bp : option BlockPointer) : W unit :=
  match bp with Some v => to_encoder v | None => empty_to_encoder end.
End encode.

(** [order()] of a pointer. *)
Definition bp_order (bp : BlockPointer) : EndianOrder :=
  match bp with Embedded e => e_order e | Encrypted c => c_order c | Regular r => order r end.

(** *** Well-formed pointers *)
Definition dva_wf (d : option Dva_t) : Prop :=
  match d with Some d => Dva.wf d | None => True end.

Definition regular_wf (r : BlockPointerRegular) : Prop :=
  ChecksumValue_.wf (checksum_value r) /\
  dva_wf (dva0 r) /\ dva_wf (dva1 r) /\ dva_wf (dva2 r) /\
  fits 64 (fill_count r) /\ fits 5 (level r) /\
  fits 64 (logical_birth_txg r) /\ 1 <= logical_sectors r <= 2 ^ 16 /\
  fits 64 (physical_birth_txg r) /\ 1 <= physical_sectors r <= 2 ^ 16.

Definition embedded_wf (e : BlockPointerEmbedded) : Prop :=
  fits 5 (e_level e) /\ fits 64 (e_logical_birth_txg e) /\
  1 <= e_logical_size e <= 2 ^ 25 /\ 1 <= e_physical_size e <= 112 /\
  blen (e_payload e) = 112 /\ bytes_ok (e_payload e).

Definition encrypted_wf (c : BlockPointerEncrypted) : Prop :=
  dva_wf (fst (c_dvas c)) /\ dva_wf (snd (c_dvas c)) /\
  fits 64 (fst (c_checksum_value c)) /\ fits 64 (snd (c_checksum_value c)) /\
  fits 32 (c_fill_count c) /\ fits 64 (c_iv_1 c) /\ fits 32 (c_iv_2 c) /\
  fits 5 (c_level c) /\ fits 64 (c_logical_birth_txg c) /\
  1 <= c_logical_sectors c <= 2 ^ 16 /\
  fits 64 (fst (c_mac c)) /\ fits 64 (snd (c_mac c)) /\
  fits 64 (c_physical_birth_txg c) /\ 1 <= c_physical_sectors c <= 2 ^ 16 /\
  fits 64 (c_salt c).

Definition bp_wf (bp : BlockPointer) : Prop :=
  match bp with
  | Embedded e => embedded_wf e
  | Encrypted c => encrypted_wf c
  | Regular r => regular_wf r
  end.

(** *** Decoding is total and in range *)
Lemma land_mask_range x m : 0 <= m -> 0 <= Z.land x (2 ^ m - 1) < 2 ^ m.
Proof. intros. rewrite land_ones_mod by done. apply Z.mod_pos_bound. lia. Qed.

Section hoare.
Context {BD : BinaryDecoder} {L : BinaryDecoderLaws BD} (w : bytes * Z * Z).

Lemma hoare_u64 : hoare (DecoderBuffer.inv w) u64 (fits 64).
Proof. apply hoare_map_err, law_u64. Qed.
Lemma hoare_dva : hoare (DecoderBuffer.inv w) dva dva_wf.
Proof. apply hoare_map_err, Dva.hoare_from_decoder. Qed.
Lemma hoare_bytes_n n :
  0 <= n -> hoare (DecoderBuffer.inv w) (bytes_n n) (fun v => blen v = n /\ bytes_ok v).
Proof. intros. now apply hoare_map_err, law_bytes_n. Qed.
Lemma hoare_check_type flags em en :
  hoare (DecoderBuffer.inv w) (sm_lift (check_type flags em en)) (fun _ => True).
Proof. apply hoare_lift. eapply safe_mono; [apply safe_guard|done]. Qed.
Lemma hoare_code {T} (f : Z -> outcome Z T) (g : Z -> DecodeError) x :
  safe (fun _ => True) (f x) ->
  hoare (DecoderBuffer.inv w) (sm_lift (map_err g (f x))) (fun _ => True).
Proof. intros. now apply hoare_lift, safe_map_err. Qed.
Lemma hoare_padding n :
  0 <= n -> hoare (DecoderBuffer.inv w) (sm_map_err DBinary (d_skip_zeros n)) (fun _ => True).
Proof. intros. now apply hoare_map_err, law_skip_zeros. Qed.

(** One call of a pointer decoder. *)
Local Ltac hcall :=
  eapply hoare_bind;
  [ first [ apply hoare_u64 | apply hoare_dva | apply hoare_check_type
          | apply hoare_code; solve [auto with zfs] | apply hoare_guard
          | now apply hoare_padding | now apply hoare_bytes_n
          | apply hoare_map_err, ChecksumValue_.hoare_cksum_value ]
  | intros ? ? ].

Lemma hoare_regular : hoare (DecoderBuffer.inv w) regular_from_decoder regular_wf.
Proof.
  repeat hcall. apply hoare_ret. unfold regular_wf; cbn.
  unfold flag_level, flag_logical_sectors, flag_physical_sectors, SECTORS_MASK.
  pose proof (land_mask_range a2 16). pose proof (land_mask_range (Z.shiftr a2 PHYSICAL_SECTORS_SHIFT) 16).
  splits; try assumption; try lia. now apply (land_mask_range _ 5).
Qed.

Lemma hoare_encrypted : hoare (DecoderBuffer.inv w) encrypted_from_decoder encrypted_wf.
Proof.
  repeat hcall. apply hoare_ret. unfold encrypted_wf; cbn [fst snd c_dvas c_checksum_value
    c_fill_count c_iv_1 c_iv_2 c_level c_logical_birth_txg c_logical_sectors c_mac
    c_physical_birth_txg c_physical_sectors c_salt].
  unfold flag_level, flag_logical_sectors, flag_physical_sectors, SECTORS_MASK, IV_FILL_MASK.
  pose proof (land_mask_range a3 16). pose proof (land_mask_range (Z.shiftr a3 PHYSICAL_SECTORS_SHIFT) 16).
  splits; try assumption; try lia; first [now apply (land_mask_range _ 5)
    | now apply (land_mask_range _ 32) | now apply wrap_fits].
Qed.

Lemma hoare_embedded : hoare (DecoderBuffer.inv w) embedded_from_decoder embedded_wf.
Proof.
  unfold embedded_from_decoder. repeat hcall. apply hoare_ret. unfold embedded_wf. cbn [e_level
    e_logical_birth_txg e_logical_size e_physical_size e_payload].
  unfold flag_level, EMB_LOGICAL_SIZE_MASK in *.
  destruct H as [Hl1 Hb1], H1 as [Hl2 Hb2], H3 as [Hl3 Hb3].
  assert (Hp : blen (a ++ a1 ++ a3) = 112) by (rewrite !blen_app; lia).
  pose proof (land_mask_range a0 25).
  pose proof (land_mask_range (Z.shiftr a0 EMB_PHYSICAL_SIZE_SHIFT) 7).
  change (2 ^ 7 - 1) with EMB_PHYSICAL_SIZE_MASK_DOWN_SHIFTED in *.
  rewrite Hp in H10. apply Z.ltb_ge in H10.
  splits; try assumption; try lia; [now apply (land_mask_range _ 5)|].
  rewrite !Forall_app. auto.
Qed.

Lemma hoare_bp :
  hoare (DecoderBuffer.inv w) from_decoder
    (fun r => match r with Some bp => bp_wf bp | None => True end).
Proof.
  unfold from_decoder. eapply hoare_bind; [now apply hoare_map_err, law_is_skip_zeros|].
  intros [] _; [now apply hoare_ret|].
  eapply hoare_bind; [apply (hoare_gets _ _ (fun _ => True)); done|]; intros o _.
  eapply hoare_bind; [now apply hoare_map_err, law_skip|]; intros _ _.
  hcall. eapply hoare_bind; [apply hoare_map_err, law_seek|]; intros _ _.
  destruct (bit_set a EMBEDDED_BIT), (bit_set a ENCRYPTED_BIT); [apply hoare_err|..];
    (eapply hoare_bind; [first [apply hoare_embedded | apply hoare_encrypted | apply hoare_regular]
                        | intros ? ?; now apply hoare_ret]).
Qed.
End hoare.

(** *** The flags word as a sum of fields *)
Definition pack (l p c k d v x1 x2 x3 : Z) : Z :=
  l + p * 2 ^ 16 + c * 2 ^ 32 + k * 2 ^ 40 + d * 2 ^ 48 + v * 2 ^ 56 +
  x1 * 2 ^ 61 + x2 * 2 ^ 62 + x3 * 2 ^ 63.

Section pack.
Context (l p c k d v x1 x2 x3 : Z).
Context (Hl : fits 16 l) (Hp : fits 16 p) (Hc : fits 5 c) (Hk : fits 8 k) (Hd : fits 8 d)
  (Hv : fits 5 v) (H1 : fits 1 x1) (H2 : fits 1 x2) (H3 : fits 1 x3).
Let f := pack l p c k d v x1 x2 x3.

Local Ltac field n m lo fl hi :=
  apply (field_at _ n m lo fl hi); unfold fits, f, pack in *; lia.

Lemma pack_fits : fits 64 f.
Proof using All. unfold fits, f, pack in *; lia. Qed.
Lemma pack_logical : flag_logical_sectors f = l + 1.
Proof using All.
  unfold flag_logical_sectors, SECTORS_MASK. f_equal. rewrite land_ones_mod by lia.
  rewrite <- (Z.div_1_r f). change 1 with (2 ^ 0) at 1.
  field 0 16 0 l (p + c * 2 ^ 16 + k * 2 ^ 24 + d * 2 ^ 32 + v * 2 ^ 40 + x1 * 2 ^ 45 + x2 * 2 ^ 46 + x3 * 2 ^ 47).
Qed.
Lemma pack_physical : flag_physical_sectors f = p + 1.
Proof using All.
  unfold flag_physical_sectors, SECTORS_MASK, PHYSICAL_SECTORS_SHIFT. f_equal.
  rewrite land_ones_mod, shiftr_div by lia.
  field 16 16 l p (c + k * 2 ^ 8 + d * 2 ^ 16 + v * 2 ^ 24 + x1 * 2 ^ 29 + x2 * 2 ^ 30 + x3 * 2 ^ 31).
Qed.
Lemma pack_compression : flag_compression f = c.
Proof using All.
  unfold flag_compression, COMPRESSION_SHIFT. change COMPRESSION_MASK_DOWN_SHIFTED with (2 ^ 5 - 1).
  rewrite land_ones_mod, shiftr_div by lia.
  field 32 5 (l + p * 2 ^ 16) c (k * 2 ^ 3 + d * 2 ^ 11 + v * 2 ^ 19 + x1 * 2 ^ 24 + x2 * 2 ^ 25 + x3 * 2 ^ 26).
Qed.
Lemma pack_checksum : flag_checksum f = k.
Proof using All.
  unfold flag_checksum, CHECKSUM_SHIFT, wrap. rewrite shiftr_div by lia.
  field 40 8 (l + p * 2 ^ 16 + c * 2 ^ 32) k (d + v * 2 ^ 8 + x1 * 2 ^ 13 + x2 * 2 ^ 14 + x3 * 2 ^ 15).
Qed.
Lemma pack_dmu : flag_dmu f = d.
Proof using All.
  unfold flag_dmu, DMU_SHIFT, wrap. rewrite shiftr_div by lia.
  field 48 8 (l + p * 2 ^ 16 + c * 2 ^ 32 + k * 2 ^ 40) d (v + x1 * 2 ^ 5 + x2 * 2 ^ 6 + x3 * 2 ^ 7).
Qed.
Lemma pack_level : flag_level f = v.
Proof using All.
  unfold flag_level, LEVEL_SHIFT. change LEVEL_MASK_DOWN_SHIFTED with (2 ^ 5 - 1).
  rewrite land_ones_mod, shiftr_div by lia.
  field 56 5 (l + p * 2 ^ 16 + c * 2 ^ 32 + k * 2 ^ 40 + d * 2 ^ 48) v (x1 + x2 * 2 ^ 1 + x3 * 2 ^ 2).
Qed.

Lemma pack_bit n x lo hi :
  0 <= n -> 0 <= lo < 2 ^ n -> fits 1 x -> f = lo + (x + hi * 2 ^ 1) * 2 ^ n ->
  bit_set f n = negb (x =? 0).
Proof using.
  intros Hn Hlo Hx Hf. rewrite bit_set_div by done.
  change ((f / 2 ^ n) mod 2) with ((f / 2 ^ n) mod 2 ^ 1).
  rewrite (field_at f n 1 lo x hi); unfold fits in *; auto; lia.
Qed.
Local Ltac bit n x lo hi := apply (pack_bit n x lo hi); unfold fits, f, pack in *; lia.

Lemma pack_embedded : bit_set f EMBEDDED_BIT = false.
Proof using All.
  unfold EMBEDDED_BIT.
  bit 39 0 (l + p * 2 ^ 16 + c * 2 ^ 32) (k + d * 2 ^ 8 + v * 2 ^ 16 + x1 * 2 ^ 21 + x2 * 2 ^ 22 + x3 * 2 ^ 23).
Qed.
Lemma pack_encrypted : bit_set f ENCRYPTED_BIT = negb (x1 =? 0).
Proof using All.
  unfold ENCRYPTED_BIT.
  bit 61 x1 (l + p * 2 ^ 16 + c * 2 ^ 32 + k * 2 ^ 40 + d * 2 ^ 48 + v * 2 ^ 56) (x2 + x3 * 2 ^ 1).
Qed.
Lemma pack_dedup : bit_set f DEDUP_BIT = negb (x2 =? 0).
Proof using All.
  unfold DEDUP_BIT.
  bit 62 x2 (l + p * 2 ^ 16 + c * 2 ^ 32 + k * 2 ^ 40 + d * 2 ^ 48 + v * 2 ^ 56 + x1 * 2 ^ 61) x3.
Qed.
Lemma pack_order : flag_order f = if x3 =? 0 then Big else Little.
Proof using All.
  unfold flag_order, LITTLE_ENDIAN_BIT.
  rewrite (pack_bit 63 x3 (l + p * 2 ^ 16 + c * 2 ^ 32 + k * 2 ^ 40 + d * 2 ^ 48 + v * 2 ^ 56 +
    x1 * 2 ^ 61 + x2 * 2 ^ 62) 0); [now destruct (x3 =? 0)|..]; unfold fits, f, pack in *; lia.
Qed.
End pack.

Definition b2z (b : bool) : Z := if b then 1 else 0.
Definition order_bit (o : EndianOrder) : Z := match o with Little => 1 | Big => 0 end.

Lemma fits_b2z b : fits 1 (b2z b).
Proof. destruct b; now split. Qed.
Lemma fits_order_bit o : fits 1 (order_bit o).
Proof. destruct o; now split. Qed.
Lemma compression_fits c : fits 5 (CompressionType.into_u8 c).
Proof. destruct c; now split. Qed.
Lemma sectors_fits n : 1 <= n <= 2 ^ 16 -> fits 16 (n - 1).
Proof. unfold fits; lia. Qed.

#[local] Hint Resolve fits_b2z fits_order_bit compression_fits sectors_fits
  DmuType.DmuType_into_u8_byte ChecksumType.ChecksumType_into_u8_byte : zfs.

Lemma lor_dedup x d : 0 <= x < 2 ^ 62 -> Z.lor x (dedup_flag d) = x + b2z d * 2 ^ 62.
Proof.
  intros. unfold dedup_flag, DEDUP_BIT. destruct d; cbn [b2z]; [now apply lor_shiftl_add|].
  rewrite Z.lor_0_r. lia.
Qed.
Lemma lor_order x o : 0 <= x < 2 ^ 63 -> Z.lor x (order_flag o) = x + order_bit o * 2 ^ 63.
Proof.
  intros. unfold order_flag, LITTLE_ENDIAN_BIT. destruct o; cbn [order_bit];
    [rewrite Z.lor_0_r; lia | now apply lor_shiftl_add].
Qed.

(** The packed fields of a pointer's flags word, as the encoder builds it. *)
Lemma regular_flags_pack r :
  regular_wf r ->
  regular_flags r = pack (logical_sectors r - 1) (physical_sectors r - 1)
    (CompressionType.into_u8 (compression r)) (ChecksumType.into_u8 (checksum_type r))
    (DmuType.into_u8 (dmu r)) (level r) 0 (b2z (dedup r)) (order_bit (order r)).
Proof.
  intros Hr. unfold regular_wf in Hr. decompose [and] Hr. clear Hr. unfold fits in *.
  pose proof (compression_fits (compression r)).
  pose proof (ChecksumType.ChecksumType_into_u8_byte (checksum_type r)).
  pose proof (DmuType.DmuType_into_u8_byte (dmu r)).
  pose proof (fits_b2z (dedup r)). unfold fits, is_byte in *.
  unfold regular_flags, pack, PHYSICAL_SECTORS_SHIFT, COMPRESSION_SHIFT, CHECKSUM_SHIFT,
    DMU_SHIFT, LEVEL_SHIFT.
  rewrite (lor_shiftl_add (_ - 1)), !(lor_shiftl_add (_ + _)) by lia.
  rewrite lor_dedup, lor_order by lia. lia.
Qed.

Lemma encrypted_flags_pack c :
  encrypted_wf c ->
  encrypted_flags c = pack (c_logical_sectors c - 1) (c_physical_sectors c - 1)
    (CompressionType.into_u8 (c_compression c)) (ChecksumType.into_u8 (c_checksum_type c))
    (DmuType.into_u8 (c_dmu c)) (c_level c) 1 (b2z (c_dedup c)) (order_bit (c_order c)).
Proof.
  intros Hr. unfold encrypted_wf in Hr. decompose [and] Hr. clear Hr. unfold fits in *.
  pose proof (compression_fits (c_compression c)).
  pose proof (ChecksumType.ChecksumType_into_u8_byte (c_checksum_type c)).
  pose proof (DmuType.DmuType_into_u8_byte (c_dmu c)).
  pose proof (fits_b2z (c_dedup c)). unfold fits, is_byte in *.
  unfold encrypted_flags, pack, PHYSICAL_SECTORS_SHIFT, COMPRESSION_SHIFT, CHECKSUM_SHIFT,
    DMU_SHIFT, LEVEL_SHIFT, ENCRYPTED_BIT.
  rewrite (lor_shiftl_add (_ - 1)), !(lor_shiftl_add (_ + _)) by lia.
  rewrite lor_dedup, lor_order by lia. lia.
Qed.

(** What the decoder reads from a packed flags word. *)
Lemma pack_decode l p ct kt dt v x1 dd oo :
  fits 16 l -> fits 16 p -> fits 5 v ->
  let f := pack l p (CompressionType.into_u8 ct) (ChecksumType.into_u8 kt)
    (DmuType.into_u8 dt) v (b2z x1) (b2z dd) (order_bit oo) in
  fits 64 f /\ bit_set f EMBEDDED_BIT = false /\ bit_set f ENCRYPTED_BIT = x1 /\
  check_type f false x1 = Ok tt /\
  map_err DDmuType (DmuType.try_from (flag_dmu f)) = Ok dt /\
  map_err DChecksumType (ChecksumType.try_from (flag_checksum f)) = Ok kt /\
  map_err DCompressionType (CompressionType.try_from (flag_compression f)) = Ok ct /\
  bit_set f DEDUP_BIT = dd /\ flag_order f = oo /\ flag_level f = v /\
  flag_logical_sectors f = l + 1 /\ flag_physical_sectors f = p + 1.
Proof.
  intros Hl Hp Hv f. subst f.
  pose proof (compression_fits ct). pose proof (ChecksumType.ChecksumType_into_u8_byte kt).
  pose proof (DmuType.DmuType_into_u8_byte dt).
  pose proof (fits_b2z x1). pose proof (fits_b2z dd). pose proof (fits_order_bit oo).
  assert (Hb : forall b, negb (b2z b =? 0) = b) by now intros [].
  unfold check_type.
  rewrite pack_dmu, pack_checksum, pack_compression, pack_embedded, pack_encrypted,
    pack_dedup, pack_order, pack_level, pack_logical, pack_physical by done.
  rewrite !Hb, DmuType.DmuType_try_from_into, ChecksumType.ChecksumType_try_from_into,
    CompressionType.CompressionType_try_from_into, eqb_reflx.
  splits; try done; [now apply pack_fits | now destruct x1 | now destruct oo].
Qed.

(** *** Round trips *)
Definition dva_encodable (d : option Dva_t) : Prop := forall v, d = Some v -> Dva.encodable v.

Definition regular_encodable (r : BlockPointerRegular) : Prop :=
  regular_wf r /\ dva_encodable (dva0 r) /\ dva_encodable (dva1 r) /\ dva_encodable (dva2 r).
Definition encrypted_encodable (c : BlockPointerEncrypted) : Prop :=
  encrypted_wf c /\ dva_encodable (fst (c_dvas c)) /\ dva_encodable (snd (c_dvas c)).

Section roundtrip.
Context (o : EndianOrder).

Definition regular_encoding (r : BlockPointerRegular) : bytes :=
  Dva.encoding o (dva0 r) ++ Dva.encoding o (dva1 r) ++ Dva.encoding o (dva2 r) ++
  int_to o 8 (regular_flags r) ++ zrep 16 0 ++
  int_to o 8 (physical_birth_txg r) ++ int_to o 8 (logical_birth_txg r) ++
  int_to o 8 (fill_count r) ++ ChecksumValue_.encoding o (checksum_value r).

Definition encrypted_encoding (c : BlockPointerEncrypted) : bytes :=
  Dva.encoding o (fst (c_dvas c)) ++ Dva.encoding o (snd (c_dvas c)) ++
  int_to o 8 (c_salt c) ++ int_to o 8 (c_iv_1 c) ++
  int_to o 8 (encrypted_flags c) ++ zrep 16 0 ++
  int_to o 8 (c_physical_birth_txg c) ++ int_to o 8 (c_logical_birth_txg c) ++
  int_to o 8 (Z.lor (c_fill_count c) (Z.shiftl (c_iv_2 c) IV_2_SHIFT)) ++
  int_to o 8 (fst (c_checksum_value c)) ++ int_to o 8 (snd (c_checksum_value c)) ++
  int_to o 8 (fst (c_mac c)) ++ int_to o 8 (snd (c_mac c)).

Lemma writes_pu64 x : writes (@pu64 (endian_encoder o) x) (int_to o 8 x).
Proof. apply writes_map_err, writes_put_int. Qed.
Lemma writes_dva d : dva_encodable d -> writes (@put_dva (endian_encoder o) d) (Dva.encoding o d).
Proof. intros. now apply writes_map_err, Dva.option_writes. Qed.
Lemma writes_padding n :
  0 <= n -> writes (sm_map_err EEndian (@put_zeros (endian_encoder o) n)) (zrep n 0).
Proof. intros. now apply writes_map_err, writes_put_zeros. Qed.

Local Ltac wcall :=
  first
    [ apply writes_bind_nil;
      [ apply writes_guard; rewrite ?orb_false_iff, ?Z.ltb_ge;
        unfold LOGICAL_SECTORS_MAX, PHYSICAL_SECTORS_MAX, LEVEL_MASK_DOWN_SHIFTED, fits in *; lia | ]
    | apply writes_bind; [ first [now apply writes_dva | apply writes_pu64 | now apply writes_padding] | ] ].

Lemma regular_writes r :
  regular_encodable r ->
  writes (@regular_to_encoder (endian_encoder o) r) (regular_encoding r).
Proof using.
  intros (Hr & H0 & H1 & H2). unfold regular_wf in Hr. decompose [and] Hr.
  unfold regular_to_encoder, regular_encoding. repeat wcall.
  apply writes_map_err, ChecksumValue_.cksum_value_writes.
Qed.

Lemma encrypted_writes c :
  encrypted_encodable c ->
  writes (@encrypted_to_encoder (endian_encoder o) c) (encrypted_encoding c).
Proof using.
  intros (Hr & H0 & H1). unfold encrypted_wf in Hr. decompose [and] Hr.
  unfold encrypted_to_encoder, encrypted_encoding. repeat wcall. apply writes_pu64.
Qed.

Lemma reads_u64 x : fits 64 x -> reads (@u64 (endian_decoder o)) (int_to o 8 x) x.
Proof. intros. now apply reads_map_err, reads_get_int. Qed.
Lemma reads_dva d : dva_encodable d -> reads (@dva (endian_decoder o)) (Dva.encoding o d) d.
Proof. intros. now apply reads_map_err, Dva.option_reads. Qed.
Lemma reads_padding :
  reads (sm_map_err DBinary (@d_skip_zeros (endian_decoder o) PADDING_SIZE)) (zrep 16 0) tt.
Proof. now apply reads_map_err, reads_skip_zeros. Qed.
Lemma reads_lift {E A} (m : outcome E A) a : m = Ok a -> reads (sm_lift m) [] a.
Proof. intros ->. apply reads_ret. Qed.

Local Ltac rcall :=
  first
    [ eapply reads_bind_nil; [ apply reads_lift; solve [eauto] | cbv beta zeta ]
    | eapply reads_bind;
      [ first [now apply reads_dva | now apply reads_u64 | apply reads_padding] | cbv beta zeta ] ].

Lemma regular_reads r :
  regular_encodable r ->
  reads (@regular_from_decoder (endian_decoder o)) (regular_encoding r) r.
Proof using.
  intros (Hw & Hd0 & Hd1 & Hd2). pose proof (regular_flags_pack r Hw) as Hf.
  unfold regular_wf in Hw. decompose [and] Hw.
  pose proof (pack_decode (logical_sectors r - 1) (physical_sectors r - 1) (compression r)
    (checksum_type r) (dmu r) (level r) false (dedup r) (order r)) as Hp.
  cbn [b2z] in Hp. rewrite <- Hf in Hp.
  destruct Hp as (Hfit & _ & _ & Ht & Hdm & Hck & Hcm & Hdd & Ho & Hlv & Hl & Hps); auto with zfs.
  unfold regular_from_decoder, regular_encoding. repeat rcall.
  apply reads_last. eapply reads_bind;
    [now apply reads_map_err, ChecksumValue_.cksum_value_reads|].
  rewrite Hdd, Ho, Hlv, Hl, Hps, !Z.sub_add. destruct r. apply reads_ret.
Qed.

Lemma encrypted_reads c :
  encrypted_encodable c ->
  reads (@encrypted_from_decoder (endian_decoder o)) (encrypted_encoding c) c.
Proof using.
  intros (Hw & Hd0 & Hd1). pose proof (encrypted_flags_pack c Hw) as Hf.
  unfold encrypted_wf in Hw. decompose [and] Hw.
  pose proof (pack_decode (c_logical_sectors c - 1) (c_physical_sectors c - 1) (c_compression c)
    (c_checksum_type c) (c_dmu c) (c_level c) true (c_dedup c) (c_order c)) as Hp.
  cbn [b2z] in Hp. rewrite <- Hf in Hp.
  destruct Hp as (Hfit & _ & _ & Ht & Hdm & Hck & Hcm & Hdd & Ho & Hlv & Hl & Hps); auto with zfs.
  assert (Hiv : Z.lor (c_fill_count c) (Z.shiftl (c_iv_2 c) IV_2_SHIFT) =
    c_fill_count c + c_iv_2 c * 2 ^ 32)
    by (unfold fits, IV_2_SHIFT in *; now rewrite lor_shiftl_add by lia).
  unfold encrypted_from_decoder, encrypted_encoding. rewrite Hiv.
  assert (fits 64 (c_fill_count c + c_iv_2 c * 2 ^ 32)) by (unfold fits in *; lia).
  repeat rcall. apply reads_last. eapply reads_bind; [now apply reads_u64|].
  rewrite Hdd, Ho, Hlv, Hl, Hps, !Z.sub_add. unfold IV_FILL_MASK, IV_2_SHIFT, wrap.
  rewrite land_ones_mod, shiftr_div by lia. unfold fits in *.
  replace ((c_fill_count c + c_iv_2 c * 2 ^ 32) mod 2 ^ 32) with (c_fill_count c) by dlia.
  replace (((c_fill_count c + c_iv_2 c * 2 ^ 32) / 2 ^ 32) mod 2 ^ 32) with (c_iv_2 c) by dlia.
  rewrite <- !surjective_pairing. destruct c. apply reads_ret.
Qed.

Definition encoding (bp : BlockPointer) : bytes :=
  match bp with
  | Regular r => regular_encoding r
  | Encrypted c => encrypted_encoding c
  | Embedded _ => []
  end.
Definition encodable (bp : BlockPointer) : Prop :=
  match bp with
  | Regular r => regular_encodable r
  | Encrypted c => encrypted_encodable c
  | Embedded _ => False
  end.

Lemma blen_encoding_bp bp : encodable bp -> blen (encoding bp) = SIZE.
Proof using.
  destruct bp as [|c|r]; cbn [encodable encoding]; [done|..]; intros _;
    unfold regular_encoding, encrypted_encoding;
    rewrite !blen_app, !blen_int_to, blen_zrep, ?Dva.blen_encoding,
      ?ChecksumValue_.blen_cksum_encoding by lia; done.
Qed.

Lemma writes_bp bp :
  encodable bp -> writes (@to_encoder (endian_encoder o) bp) (encoding bp).
Proof using.
  destruct bp as [|c|r]; cbn [encodable encoding to_encoder];
    [done | apply encrypted_writes | apply regular_writes].
Qed.

Lemma bytes_ok_bp bp : bytes_ok (encoding bp).
Proof using.
  destruct bp; cbn [encoding]; unfold regular_encoding, encrypted_encoding; [constructor|..];
    rewrite !Forall_app; splits; auto using Dva.bytes_ok_encoding, bytes_ok_zrep with zfs.
  apply ChecksumValue_.bytes_ok_cksum_encoding.
Qed.

(** The flags word sits after 48 bytes, and its form bits select the decoder. *)
Lemma encoding_flags bp :
  encodable bp ->
  exists p flags q, encoding bp = p ++ int_to o 8 flags ++ q /\ blen p = 48 /\
    fits 64 flags /\ bit_set flags EMBEDDED_BIT = false /\
    bit_set flags ENCRYPTED_BIT = match bp with Encrypted _ => true | _ => false end.
Proof using.
  destruct bp as [|c|r]; cbn [encodable encoding]; [done|..]; intros [Hw _].
  - pose proof (encrypted_flags_pack c Hw) as Hf. unfold encrypted_wf in Hw. decompose [and] Hw.
    edestruct (pack_decode (c_logical_sectors c - 1) (c_physical_sectors c - 1) (c_compression c)
      (c_checksum_type c) (c_dmu c) (c_level c) true (c_dedup c) (c_order c))
      as (Hfit & He & Hn & _); auto with zfs.
    cbn [b2z] in *. rewrite <- Hf in *. unfold encrypted_encoding.
    rewrite 3!app_assoc. eexists _, (encrypted_flags c), _. splits; eauto.
    rewrite !blen_app, !Dva.blen_encoding, !blen_int_to. done.
  - pose proof (regular_flags_pack r Hw) as Hf. unfold regular_wf in Hw. decompose [and] Hw.
    edestruct (pack_decode (logical_sectors r - 1) (physical_sectors r - 1) (compression r)
      (checksum_type r) (dmu r) (level r) false (dedup r) (order r))
      as (Hfit & He & Hn & _); auto with zfs.
    cbn [b2z] in *. rewrite <- Hf in *. unfold regular_encoding.
    rewrite 2!app_assoc. eexists _, (regular_flags r), _. splits; eauto.
    rewrite !blen_app, !Dva.blen_encoding. done.
Qed.

(** The look-ahead at the flags word leaves the cursor where it was. *)
Lemma peek_flags b p flags q :
  DecoderBuffer.wf b -> DecoderBuffer.remaining b = p ++ int_to o 8 flags ++ q ->
  blen p = 48 -> fits 64 flags ->
  forall {A} (k : Z -> D A),
  (sm_map_err DBinary (@d_skip (endian_decoder o) (3 * Dva.SIZE));;
   fl ← @u64 (endian_decoder o);
   sm_map_err DBinary (@d_seek (endian_decoder o) (offset b));;
   k fl) b = k flags b.
Proof using.
  intros Hb Hr Hp Hf A k.
  pose proof (reads_map_err DBinary _ _ _ (reads_skip p (3 * Dva.SIZE) (eq_sym Hp))) as Hs.
  destruct (remaining_app _ _ _ Hb Hr) as [Hb1 Hr1].
  unfold mbind at 1, SM_bind at 1. cbn [d_skip endian_decoder].
  rewrite (Hs _ _ Hb Hr). unfold mbind at 1, SM_bind at 1.
  rewrite (reads_u64 flags Hf _ _ Hb1 Hr1). unfold mbind, SM_bind, sm_map_err.
  cbn [d_seek endian_decoder]. unfold DecoderBuffer.seek. destruct Hb as (? & ? & ?).
  cbn [min_offset max_offset DecoderBuffer.advance DecoderBuffer.with_offset].
  destruct (Z.ltb_spec (offset b) (min_offset b)); [lia|].
  destruct (Z.ltb_spec (max_offset b) (offset b)); [lia|].
  cbn [map_err]. unfold DecoderBuffer.with_offset; cbn. now destruct b.
Qed.

Lemma bp_reads bp :
  encodable bp ->
  reads (@from_decoder (endian_decoder o)) (encoding bp)
    (if forallb (Z.eqb 0) (encoding bp) then None else Some bp).
Proof using.
  intros He b r Hb Hr. unfold from_decoder. unfold mbind at 1, SM_bind at 1.
  cbn [d_is_skip_zeros endian_decoder]. unfold DecoderBuffer.is_skip_zeros, sm_map_err at 1.
  unfold sm_gets at 1, mbind at 1, SM_bind at 1, mbind at 1, SM_bind at 1.
  rewrite (reads_get_bytes (encoding bp) SIZE ltac:(now rewrite blen_encoding_bp) b r Hb Hr).
  destruct (forallb (Z.eqb 0) (encoding bp)); [done|]. cbn [map_err sm_fun].
  replace (DecoderBuffer.with_offset (offset b) (DecoderBuffer.advance (blen (encoding bp)) b))
    with b by (now destruct b).
  destruct (encoding_flags bp He) as (p & flags & q & Hq & Hp & Hf & Hem & Hen).
  unfold mbind at 1, SM_bind at 1, sm_gets at 1.
  rewrite (peek_flags b p flags (q ++ r)); [|done|now rewrite Hr, Hq, <- !app_assoc|done|done].
  rewrite Hem, Hen. clear p flags q Hq Hp Hf Hem Hen.
  destruct bp as [|c|rg]; cbn [encodable encoding] in *; [done|..]; smunfold.
  - rewrite (encrypted_reads c He b r Hb Hr). done.
  - rewrite (regular_reads rg He b r Hb Hr). done.
Qed.
End roundtrip.

Definition decode (o : EndianOrder) (l : bytes) : outcome DecodeError (option BlockPointer) :=
  fst (@from_decoder (endian_decoder o) (DecoderBuffer.from_bytes l)).
Definition encode (o : EndianOrder) (bp : BlockPointer) : outcome EncodeError bytes :=
  encode_into SIZE (@to_encoder (endian_encoder o) bp).

(** C13: Encoding then decoding a regular or encrypted pointer, in either byte
    order, gives the pointer back; the one exception is an encoding that is all
    zeros, which is a hole. *)
Theorem bp_roundtrip o bp :
  encodable bp ->
  exists bs, encode o bp = Ok bs /\ blen bs = 128 /\
    decode o bs = Ok (if forallb (Z.eqb 0) bs then None else Some bp).
Proof.
  intros He. exists (encoding o bp). split; [|split].
  - apply writes_encode; [now apply writes_bp | now rewrite blen_encoding_bp].
  - now apply blen_encoding_bp.
  - unfold decode. rewrite <- (app_nil_r (encoding o bp)) at 1.
    apply reads_run; [rewrite app_nil_r; apply bytes_ok_bp | now apply bp_reads].
Qed.

Definition sample_regular : BlockPointerRegular := {|
  checksum_type := ChecksumType.Sha256; checksum_value := (1, 2, 3, 4);
  compression := CompressionType.Lz4; dedup := true; dmu := DmuType.PlainFileContents;
  dva0 := Some {| allocated := 9; offset_ := 77; is_gang := false; vdev := 1 |};
  dva1 := None; dva2 := Some {| allocated := 2 ^ 24 - 1; offset_ := 2 ^ 63 - 1; is_gang := true; vdev := 0 |};
  order := Little; fill_count := 5; level := 31; logical_birth_txg := 7; logical_sectors := 2 ^ 16;
  physical_birth_txg := 8; physical_sectors := 1 |}.

Lemma sample_regular_encodable : encodable (Regular sample_regular).
Proof.
  assert (Hd : forall v, Dva.wf v -> 1 <= allocated v -> dva_encodable (Some v)).
  { intros v Hv Ha w [= <-]. now split. }
  split; [|split; [|split]]; try (intros v [=]; fail).
  - repeat split; vm_compute; congruence.
  - apply Hd; [repeat split|]; vm_compute; congruence.
  - apply Hd; [repeat split|]; vm_compute; congruence.
Qed.

Lemma bp_roundtrip_witness :
  exists bs, encode Big (Regular sample_regular) = Ok bs /\ blen bs = 128 /\
    decode Big bs = Ok (if forallb (Z.eqb 0) bs then None else Some (Regular sample_regular)).
Proof. apply (bp_roundtrip Big (Regular sample_regular)). exact sample_regular_encodable. Defined.

Lemma decode_safe o l :
  bytes_ok l ->
  safe (fun r => match r with Some bp => bp_wf bp | None => True end) (decode o l).
Proof.
  intros Hl. assert (Hi : DecoderBuffer.inv (l, 0, blen l) (DecoderBuffer.from_bytes l)).
  { split; [now apply DecoderBuffer.wf_from_bytes | done]. }
  exact (proj2 (hoare_bp (L := endian_decoder_laws o) (l, 0, blen l) _ Hi)).
Qed.

(** Decoding any bytes, in either order, ends in a pointer whose fields are in
    range, a hole or an error; it does not panic. *)
Theorem bp_decode_safe o l :
  bytes_ok l ->
  safe (fun r => match r with Some bp => bp_wf bp | None => True end) (decode o l).
Proof. exact (decode_safe o l). Qed.

Lemma bp_decode_safe_witness :
  safe (fun r => match r with Some bp => bp_wf bp | None => True end) (decode Little (zrep 128 3)).
Proof. apply (bp_decode_safe Little (zrep 128 3)). apply Forall_replicate. unfold is_byte. lia. Defined.

(** The endian encoders have no length-prefixed byte strings, so an embedded
    pointer, whose encoder asks for them, is never encoded. *)
Theorem embedded_never_encodes o e n :
  exists err, encode_into n (@to_encoder (endian_encoder o) (Embedded e)) = Err err.
Proof.
  unfold encode_into, to_encoder, embedded_to_encoder. smunfold. cbn [put_bytes endian_encoder sm_err].
  destruct (blen (e_payload e) <? e_physical_size e); cbn; eauto.
Qed.

End Bp.
