(* ===== verification/Stream.v ===== *)
(** * Block-buffered hashing

    The [update] methods of [Fletcher2], [Fletcher4] and [Sha256]
    (src/checksum/) share one buffering scheme: a partial block is kept, filled
    up by the next call, and whole blocks are absorbed directly.  [update] is
    that code over an abstract block function, and [absorbed] the invariant
    that makes the digest independent of how the input was split. *)

From S2P Require Import Prelude Encoder.

(** [data.chunks_exact(n)] *)
Fixpoint chunks_exact_aux (fuel : nat) (n : Z) (l : bytes) : list bytes :=
  match fuel with
  | O => []
  | S fuel' =>
      if blen l <? n then [] else ztake n l :: chunks_exact_aux fuel' n (zdrop n l)
  end.
Definition chunks_exact (n : Z) (l : bytes) : list bytes :=
  chunks_exact_aux (length l) n l.

Lemma chunks_exact_aux_enough fuel fuel' n l :
  0 < n -> (length l <= fuel)%nat -> (length l <= fuel')%nat ->
  chunks_exact_aux fuel n l = chunks_exact_aux fuel' n l.
Proof.
  intros Hn. revert fuel' l. induction fuel as [|fuel IH]; intros [|fuel'] l H1 H2;
    cbn [chunks_exact_aux]; auto.
  - destruct (Z.ltb_spec (blen l) n); [done|]. unfold blen in *; lia.
  - destruct (Z.ltb_spec (blen l) n); [done|]. unfold blen in *; lia.
  - destruct (Z.ltb_spec (blen l) n); [done|]. f_equal.
    assert (blen (zdrop n l) = blen l - n) by (rewrite blen_zdrop by lia; lia).
    apply IH; unfold blen in *; lia.
Qed.

Lemma chunks_exact_eq n l :
  0 < n ->
  chunks_exact n l = if blen l <? n then [] else ztake n l :: chunks_exact n (zdrop n l).
Proof.
  intros Hn. unfold chunks_exact. destruct (length l) eqn:E.
  - cbn. destruct (Z.ltb_spec (blen l) n); [done|]. unfold blen in *; lia.
  - cbn [chunks_exact_aux]. destruct (Z.ltb_spec (blen l) n); [done|]. f_equal.
    assert (blen (zdrop n l) = blen l - n) by (rewrite blen_zdrop by lia; lia).
    apply chunks_exact_aux_enough; unfold blen in *; lia.
Qed.

Lemma chunks_exact_app n l k :
  0 < n -> (n | blen l) -> chunks_exact n (l ++ k) = chunks_exact n l ++ chunks_exact n k.
Proof.
  intros Hn [q Hq]. assert (Hq0 : 0 <= q) by (pose proof (blen_nonneg l); nia).
  revert l Hq. pattern q. apply Zlt_0_ind; [|done]. clear q Hq0. intros q IH Hq0 l Hq.
  rewrite (chunks_exact_eq n (l ++ k)), (chunks_exact_eq n l) by done.
  rewrite blen_app, Hq. destruct (Z.ltb_spec (q * n) n).
  - assert (q = 0) as -> by nia. apply blen_0 in Hq as ->. cbn [app].
    rewrite (chunks_exact_eq n k) by done. cbn. now destruct (_ <? _).
  - destruct (Z.ltb_spec (q * n + blen k) n); [pose proof (blen_nonneg k); lia|].
    rewrite ztake_app_le, zdrop_app_le by lia. cbn [app]. f_equal.
    apply (IH (q - 1)); [nia|]. rewrite blen_zdrop by lia. lia.
Qed.

Lemma chunks_exact_short n l : 0 < n -> blen l < n -> chunks_exact n l = [].
Proof. intros. rewrite chunks_exact_eq by done. now destruct (Z.ltb_spec (blen l) n); [|lia]. Qed.

Lemma chunks_exact_cons n l :
  0 < n -> n <= blen l -> chunks_exact n l = ztake n l :: chunks_exact n (zdrop n l).
Proof. intros. rewrite chunks_exact_eq by done. now destruct (Z.ltb_spec (blen l) n); [lia|]. Qed.

Lemma chunks_exact_lengths n l : 0 < n -> Forall (fun b => blen b = n) (chunks_exact n l).
Proof.
  intros Hn. unfold chunks_exact. generalize (length l) as fuel. intros fuel. revert l.
  induction fuel as [|fuel IH]; intros l; cbn [chunks_exact_aux]; [constructor|].
  destruct (Z.ltb_spec (blen l) n); [constructor|]. constructor; [|apply IH].
  rewrite blen_ztake by lia. lia.
Qed.

Lemma chunks_exact_all n l (P : Z -> Prop) : Forall P l -> Forall (Forall P) (chunks_exact n l).
Proof.
  unfold chunks_exact. generalize (length l) as fuel. intros fuel. revert l.
  induction fuel as [|fuel IH]; intros l Hl; cbn [chunks_exact_aux]; [constructor|].
  destruct (blen l <? n); constructor; [now apply Forall_take|]. now apply IH, Forall_drop.
Qed.

(** Two folds over the same blocks. *)
Lemma fold_left_sim {S T A} (f : S -> A -> S) (g : T -> A -> T) (R : S -> T -> Prop) (P : A -> Prop) :
  (forall s t b, P b -> R s t -> R (f s b) (g t b)) ->
  forall bs s t, Forall P bs -> R s t -> R (fold_left f bs s) (fold_left g bs t).
Proof.
  intros Hstep bs s t Hbs. revert s t. induction Hbs as [|b bs Hb Hbs IH]; intros s t HR; cbn; auto.
Qed.

(** A fold over blocks of [B] bytes simulates a fold over blocks of [W]: it is
    enough that it does so on one block, of elements in [P]. *)
Section fold_blocks.
Context {S T : Type} (P : Z -> Prop) (B W : Z) (f : S -> bytes -> S) (g : T -> bytes -> T) (R : S -> T -> Prop).
Hypothesis B_pos : 0 < B.
Hypothesis W_pos : 0 < W.
Hypothesis W_div : (W | B).
Hypothesis block_sim : forall s t b, R s t -> Forall P b -> blen b = B ->
  R (f s b) (fold_left g (chunks_exact W b) t).

Lemma fold_blocks_sim_on x s t :
  Forall P x -> (B | blen x) -> R s t ->
  R (fold_left f (chunks_exact B x) s) (fold_left g (chunks_exact W x) t).
Proof using All.
  intros HP [q Hq]. assert (Hq0 : 0 <= q) by (pose proof (blen_nonneg x); nia).
  revert x s t HP Hq. pattern q. apply Zlt_0_ind; [|done]. clear q Hq0. intros q IH Hq0 x s t HP Hq HR.
  destruct (Z.eq_dec q 0) as [->|Hq1].
  - apply blen_0 in Hq as ->. exact HR.
  - assert (HB : blen (ztake B x) = B) by (rewrite blen_ztake by lia; nia).
    rewrite chunks_exact_cons by nia. cbn [fold_left].
    rewrite <- (ztake_zdrop B x) at 3. rewrite chunks_exact_app, fold_left_app by (rewrite ?HB; done).
    apply (IH (q - 1)); [lia|now apply Forall_drop| |apply block_sim; [done|now apply Forall_take|done]].
    rewrite blen_zdrop by lia. nia.
Qed.
End fold_blocks.

Lemma fold_blocks_sim {S T} (B W : Z) (f : S -> bytes -> S) (g : T -> bytes -> T) (R : S -> T -> Prop) :
  0 < B -> 0 < W -> (W | B) ->
  (forall s t b, R s t -> blen b = B -> R (f s b) (fold_left g (chunks_exact W b) t)) ->
  forall x s t, (B | blen x) -> R s t ->
  R (fold_left f (chunks_exact B x) s) (fold_left g (chunks_exact W x) t).
Proof.
  intros HB HW Hd Hs x s t Hx. apply (fold_blocks_sim_on (fun _ => True)); auto. now apply Forall_true.
Qed.

Record hasher (S : Type) : Type := { buffer_fill : Z; buffer : bytes; state : S }.
Arguments buffer_fill {S} _.
Arguments buffer {S} _.
Arguments state {S} _.
Arguments Build_hasher {S} _ _ _.

Section update.
Context {St : Type} (B : Z) (upd : St -> bytes -> St).

(** Filling up a partial block: the hasher and the input that is left. *)
Definition fill_buffer (h : hasher St) (data : bytes) : outcome unit (hasher St * bytes) :=
  if 0 <? buffer_fill h then
    let todo := Z.min (B - buffer_fill h) (blen data) in
    buf ← unwrap (EncoderBuffer.copy_at (buffer h) (buffer_fill h) (ztake todo data));
    let fill := buffer_fill h + todo in
    let rest := zdrop todo data in
    if fill =? B then
      full ← unwrap (get_range buf 0 fill);
      Ok (Build_hasher 0 buf (upd (state h) full), rest)
    else Ok (Build_hasher fill buf (state h), rest)
  else Ok (h, data).

(** Whole blocks, and the tail kept for the next call. *)
Definition absorb_blocks (h : hasher St) (data : bytes) : outcome unit (hasher St) :=
  let remainder := blen data mod B in
  let st := upd (state h) (ztake (blen data - remainder) data) in
  if 0 <? remainder then
    buf ← unwrap (EncoderBuffer.copy_at (buffer h) 0 (zdrop (blen data - remainder) data));
    Ok (Build_hasher remainder buf st)
  else Ok (Build_hasher (buffer_fill h) (buffer h) st).

Definition update (h : hasher St) (data : bytes) : outcome unit (hasher St) :=
  '(h1, rest) ← fill_buffer h data; absorb_blocks h1 rest.

Context (init : St).
Hypothesis B_pos : 0 < B.
Hypothesis upd_app : forall x y, (B | blen x) -> upd init (x ++ y) = upd (upd init x) y.

(** [h] has absorbed [m]: whole blocks in the state, the rest in the buffer. *)
Definition absorbed (h : hasher St) (m : bytes) : Prop :=
  B <= blen (buffer h) /\ buffer_fill h = blen m mod B /\
  ztake (buffer_fill h) (buffer h) = zdrop (blen m - blen m mod B) m /\
  state h = upd init (ztake (blen m - blen m mod B) m).

Lemma absorbed_full h m :
  (B | blen m) ->
  absorbed h m <-> B <= blen (buffer h) /\ buffer_fill h = 0 /\ state h = upd init m.
Proof using B_pos.
  intros Hm%Z.mod_divide; [|lia]. unfold absorbed. rewrite Hm, Z.sub_0_r.
  rewrite (ztake_ge (blen m)), (zdrop_ge (blen m)) by lia.
  split; [tauto|]. intros (H1 & H2 & H3). rewrite H2. splits; auto.
  now rewrite ztake_take by lia.
Qed.

Lemma copy_at_take (l bs : bytes) o :
  0 <= o -> o + blen bs <= blen l ->
  exists l', EncoderBuffer.copy_at l o bs = Some l' /\ blen l' = blen l /\
    ztake (o + blen bs) l' = ztake o l ++ bs.
Proof using.
  intros Ho Hl. pose proof (blen_nonneg bs). unfold EncoderBuffer.copy_at.
  rewrite get_range_ok by lia. eexists; split; [done|]. split.
  - rewrite !blen_app, blen_ztake, blen_zdrop by lia. lia.
  - rewrite app_assoc.
    replace (o + blen bs) with (blen (ztake o l ++ bs)) at 1
      by (rewrite blen_app, blen_ztake by lia; lia).
    apply ztake_app_length.
Qed.

(** Absorbing into an empty buffer. *)
Lemma absorb_blocks_full h m data :
  (B | blen m) -> absorbed h m ->
  exists h', absorb_blocks h data = Ok h' /\ absorbed h' (m ++ data).
Proof using B_pos upd_app.
  intros Hd (Hb & Hf & Hs)%absorbed_full; [|done].
  pose proof (Z.mod_pos_bound (blen data) B B_pos) as Hr.
  pose proof (Z.mod_le (blen data) B ltac:(auto with zfs) B_pos) as Hle.
  assert (Hmod : blen (m ++ data) mod B = blen data mod B).
  { rewrite blen_app. destruct Hd as [q ->]. now rewrite Z.add_comm, Z.mod_add by lia. }
  set (r := blen data mod B) in *.
  assert (Hcut : ztake (blen (m ++ data) - r) (m ++ data) = m ++ ztake (blen data - r) data /\
                 zdrop (blen (m ++ data) - r) (m ++ data) = zdrop (blen data - r) data).
  { apply app_inj_1.
    - rewrite blen_app. apply Nat2Z.inj. fold (blen (ztake (blen m + blen data - r) (m ++ data))).
      fold (blen (m ++ ztake (blen data - r) data)). pose proof (blen_nonneg m).
      rewrite blen_app, !blen_ztake, blen_app by lia. lia.
    - now rewrite ztake_zdrop, <- app_assoc, ztake_zdrop. }
  destruct Hcut as [Hc1 Hc2].
  unfold absorb_blocks. fold r. destruct (Z.ltb_spec 0 r).
  - assert (Hbl : blen (zdrop (blen data - r) data) = r) by (rewrite blen_zdrop by lia; lia).
    destruct (copy_at_take (buffer h) (zdrop (blen data - r) data) 0) as (buf & Hcp & Hlen & Htk);
      [lia|lia|].
    rewrite Hcp. eexists; split; [done|]. unfold absorbed; cbn [buffer_fill buffer state].
    rewrite Hmod, Hc1, Hc2. rewrite Z.add_0_l, Hbl in Htk. splits; [lia|done| |].
    + rewrite Htk, ztake_take by lia. done.
    + rewrite Hs, upd_app by done. done.
  - eexists; split; [done|]. unfold absorbed; cbn [buffer_fill buffer state].
    assert (r = 0) as Hr0 by lia. rewrite Hmod, Hc1, Hc2, Hf, Hr0, Z.sub_0_r.
    rewrite (zdrop_ge (blen data)) by lia. splits; auto.
    + now rewrite ztake_take by lia.
    + rewrite Hs, upd_app by done. done.
Qed.

(** Filling the partial block: either it becomes whole, or the input is used up. *)
Lemma fill_buffer_absorbed h m data :
  absorbed h m ->
  exists h1 rest, fill_buffer h data = Ok (h1, rest) /\
    exists m1, m ++ data = m1 ++ rest /\ absorbed h1 m1 /\ ((B | blen m1) \/ rest = []).
Proof using B_pos upd_app.
  intros Ha. pose proof Ha as (Hb & Hf & Ht & Hs).
  pose proof (Z.mod_pos_bound (blen m) B B_pos) as Hr.
  pose proof (Z.mod_le (blen m) B ltac:(auto with zfs) B_pos) as Hle.
  unfold fill_buffer. destruct (Z.ltb_spec 0 (buffer_fill h)).
  2:{ exists h, data. split; [done|]. exists m. splits; auto. left. apply Z.mod_divide; lia. }
  set (todo := Z.min (B - buffer_fill h) (blen data)).
  assert (Htodo : 0 <= todo <= blen data) by (pose proof (blen_nonneg data); lia).
  assert (Hbt : blen (ztake todo data) = todo) by (rewrite blen_ztake by lia; lia).
  destruct (copy_at_take (buffer h) (ztake todo data) (buffer_fill h)) as (buf & -> & Hlen & Htk);
    [lia|lia|]. cbn [unwrap mbind outcome_bind].
  assert (Hm1 : m ++ data = (m ++ ztake todo data) ++ zdrop todo data)
    by (now rewrite <- app_assoc, ztake_zdrop).
  set (m1 := m ++ ztake todo data) in *.
  assert (Hbm1 : blen m1 = blen m + todo) by (unfold m1; rewrite blen_app; lia).
  assert (Hsplit : ztake (blen m - blen m mod B) m1 = ztake (blen m - blen m mod B) m /\
                   zdrop (blen m - blen m mod B) m1 = zdrop (blen m - blen m mod B) m ++ ztake todo data)
    by (unfold m1; rewrite ztake_app_le, zdrop_app_le by lia; done).
  destruct Hsplit as [Hs1 Hs2]. rewrite Hbt in Htk.
  destruct (Z.eqb_spec (buffer_fill h + todo) B) as [HB|HB].
  - rewrite get_range_ok by lia. cbn [unwrap mbind outcome_bind].
    eexists _, _. split; [done|]. exists m1. split; [done|].
    assert (Hdiv : (B | blen m1)).
    { rewrite Hbm1. replace todo with (B - blen m mod B) by lia.
      exists (blen m / B + 1). pose proof (Z.div_mod (blen m) B ltac:(lia)). lia. }
    split; [|now left]. apply absorbed_full; [done|]. cbn [buffer buffer_fill state].
    splits; [lia|done|]. rewrite zdrop_0, Z.sub_0_r, Htk, Ht, Hs, <- Hs2.
    rewrite <- upd_app; [now rewrite <- Hs1, ztake_zdrop|].
    rewrite blen_ztake by lia. rewrite Z.min_l by lia.
    exists (blen m / B). pose proof (Z.div_mod (blen m) B ltac:(lia)). lia.
  - assert (todo = blen data) as Hall by lia.
    eexists _, _. split; [done|]. exists m1. split; [done|]. split.
    2:{ right. apply zdrop_ge. lia. }
    assert (Hmod : blen m1 mod B = buffer_fill h + todo).
    { rewrite Hbm1. pose proof (Z.div_mod (blen m) B ltac:(lia)).
      symmetry. apply (Z.mod_unique _ _ (blen m / B)); lia. }
    unfold absorbed; cbn [buffer_fill buffer state]. rewrite Hmod.
    replace (blen m1 - (buffer_fill h + todo)) with (blen m - blen m mod B) by lia.
    rewrite Hs1, Hs2, <- Ht. splits; auto; lia.
Qed.

Theorem update_absorbed h m data :
  absorbed h m -> exists h', update h data = Ok h' /\ absorbed h' (m ++ data).
Proof using B_pos upd_app.
  intros Ha. destruct (fill_buffer_absorbed h m data Ha) as (h1 & rest & Hf & m1 & Hm & Ha1 & Hc).
  unfold update. rewrite Hf, Hm. cbn [mbind outcome_bind].
  destruct Hc as [Hd|Hn].
  - now apply absorb_blocks_full.
  - rewrite Hn, app_nil_r. unfold absorb_blocks. cbn. rewrite Z.mod_0_l by lia. cbn.
    eexists; split; [done|]. unfold absorbed in *; cbn [buffer_fill buffer state].
    destruct Ha1 as (H1 & H2 & H3 & H4). splits; auto. rewrite H4.
    change (ztake (0 - 0) []) with (@nil Z). rewrite <- upd_app, app_nil_r; [done|].
    pose proof (Z.mod_pos_bound (blen m1) B B_pos).
    pose proof (Z.mod_le (blen m1) B ltac:(auto with zfs) B_pos).
    rewrite blen_ztake by lia. rewrite Z.min_l by lia.
    exists (blen m1 / B). pose proof (Z.div_mod (blen m1) B ltac:(lia)). lia.
Qed.

(** [updates]: a sequence of [update] calls. *)
Fixpoint updates (h : hasher St) (parts : list bytes) : outcome unit (hasher St) :=
  match parts with
  | [] => Ok h
  | p :: ps => h' ← update h p; updates h' ps
  end.

Lemma updates_absorbed parts h m :
  absorbed h m -> exists h', updates h parts = Ok h' /\ absorbed h' (m ++ concat parts).
Proof using B_pos upd_app.
  revert h m. induction parts as [|p ps IH]; intros h m Ha; cbn [updates concat].
  - exists h. now rewrite app_nil_r.
  - destruct (update_absorbed h m p Ha) as (h1 & -> & Ha1). cbn.
    destruct (IH h1 _ Ha1) as (h2 & H2 & Ha2). exists h2. now rewrite app_assoc.
Qed.
End update.

(** Two block functions that agree on the states and the data that occur. *)
Section agree.
Context {St : Type} (B : Z) (upd upd' : St -> bytes -> St) (I : St -> Prop) (P : Z -> Prop).
Hypothesis upd_same : forall s x, I s -> Forall P x -> upd s x = upd' s x.
Hypothesis upd_inv : forall s x, I s -> I (upd' s x).

Definition agreeable (h : hasher St) : Prop := I (state h) /\ Forall P (buffer h).

Lemma copy_at_all l o bs r : EncoderBuffer.copy_at l o bs = Some r -> Forall P l -> Forall P bs -> Forall P r.
Proof using.
  unfold EncoderBuffer.copy_at. destruct (get_range _ _ _); [|done]. intros [= <-] Hl Hbs.
  apply Forall_app_2; [now apply Forall_take|]. apply Forall_app_2; [done|now apply Forall_drop].
Qed.
Lemma fill_buffer_agree h data :
  agreeable h -> Forall P data ->
  fill_buffer B upd h data = fill_buffer B upd' h data /\
  forall h1 rest, fill_buffer B upd' h data = Ok (h1, rest) -> agreeable h1 /\ Forall P rest.
Proof using upd_same upd_inv.
  intros [Hs Hb] Hd. unfold fill_buffer. destruct (0 <? buffer_fill h).
  2:{ split; [done|]. now intros h1 rest [= <- <-]. }
  destruct (EncoderBuffer.copy_at _ _ _) as [buf|] eqn:E; cbn [unwrap mbind outcome_bind]; [|done].
  assert (Hbuf : Forall P buf) by (eapply copy_at_all; [exact E|done|now apply Forall_take]).
  assert (Hrest : forall n, Forall P (zdrop n data)) by (intros n; now apply Forall_drop).
  destruct (_ =? B).
  - destruct (get_range buf 0 _) as [full|] eqn:G; cbn [unwrap mbind outcome_bind]; [|done].
    apply get_range_Some in G as (_ & _ & ->).
    rewrite upd_same by (try done; now apply Forall_take, Forall_drop).
    split; [done|]. intros h1 rest [= <- <-]. repeat split; cbn; auto.
  - split; [done|]. intros h1 rest [= <- <-]. repeat split; cbn; auto.
Qed.
Lemma absorb_blocks_agree h data :
  agreeable h -> Forall P data ->
  absorb_blocks B upd h data = absorb_blocks B upd' h data /\
  forall h1, absorb_blocks B upd' h data = Ok h1 -> agreeable h1.
Proof using upd_same upd_inv.
  intros [Hs Hb] Hd. unfold absorb_blocks. rewrite upd_same by (try done; now apply Forall_take).
  destruct (0 <? _).
  - destruct (EncoderBuffer.copy_at _ _ _) as [buf|] eqn:E; cbn [unwrap mbind outcome_bind]; [|done].
    split; [done|]. intros h1 [= <-]. split; cbn; auto. eapply copy_at_all; [exact E|done|now apply Forall_drop].
  - split; [done|]. intros h1 [= <-]. split; cbn; auto.
Qed.
Lemma updates_agree parts : forall h,
  agreeable h -> Forall P (concat parts) ->
  updates B upd h parts = updates B upd' h parts /\
  forall h1, updates B upd' h parts = Ok h1 -> agreeable h1.
Proof using upd_same upd_inv.
  induction parts as [|p ps IH]; intros h Hh Hp; cbn [updates concat] in *; [split; [done|]; now intros h1 [= <-]|].
  apply Forall_app in Hp as [Hp Hps]. unfold update.
  destruct (fill_buffer_agree h p Hh Hp) as [-> Hfill].
  destruct (fill_buffer B upd' h p) as [[h1 rest]|e|]; cbn [mbind outcome_bind]; try done.
  destruct (Hfill h1 rest eq_refl) as [Hh1 Hr]. destruct (absorb_blocks_agree h1 rest Hh1 Hr) as [-> Habs].
  destruct (absorb_blocks B upd' h1 rest) as [h2|e|]; cbn [mbind outcome_bind]; try done. eauto.
Qed.
End agree.
