(* ===== verification/Fletcher.v ===== *)
(** * Fletcher checksums (src/checksum/fletcher2.rs, src/checksum/fletcher4.rs)

    The generic, two-lane and four-lane block functions with their lane
    recombinations, and the streaming hasher over each.  Words are 64 bits and
    wrap; [eqm] is equality modulo 2^64, under which the wrapped operations are
    plain arithmetic.  The main results: every implementation and every split
    of the input gives the digest of the one-pass definition, and Fletcher-4's
    digest is the four weighted sums of the words modulo 2^64.  The SIMD
    implementations are compiled out by the crate and report [Unsupported]
    here; FletcherSimd models what they compute. *)

From S2P Require Import Prelude Decoder Encoder Types Stream.

(** ** Arithmetic modulo 2^64 *)
Definition eqm (x y : Z) : Prop := x mod 2 ^ 64 = y mod 2 ^ 64.
Infix "≡64" := eqm (at level 70).

#[global] Instance eqm_equiv : Equivalence eqm.
Proof. split; unfold eqm; red; congruence. Qed.
#[global] Instance eqm_add : Proper (eqm ==> eqm ==> eqm) Z.add.
Proof. intros a a' Ha b b' Hb. unfold eqm in *. rewrite Z.add_mod, Ha, Hb, <- Z.add_mod; done. Qed.
#[global] Instance eqm_sub : Proper (eqm ==> eqm ==> eqm) Z.sub.
Proof.
  intros a a' Ha b b' Hb. unfold eqm in *.
  now rewrite Zminus_mod, Ha, Hb, <- Zminus_mod.
Qed.
#[global] Instance eqm_mul : Proper (eqm ==> eqm ==> eqm) Z.mul.
Proof. intros a a' Ha b b' Hb. unfold eqm in *. rewrite Z.mul_mod, Ha, Hb, <- Z.mul_mod; done. Qed.

Lemma wrap_eqm x : wrap 64 x ≡64 x.
Proof. unfold eqm, wrap. now rewrite Z.mod_mod. Qed.

Lemma wrap_eq x y : x ≡64 y -> wrap 64 x = wrap 64 y.
Proof. done. Qed.

Definition wadd (a b : Z) : Z := wrap 64 (a + b).
Definition wsub (a b : Z) : Z := wrap 64 (a - b).
Definition wmul (a b : Z) : Z := wrap 64 (a * b).

(** Prove an equality of wrapped expressions by ring arithmetic. *)
Ltac wring :=
  unfold wadd, wsub, wmul; apply wrap_eq;
  repeat setoid_rewrite wrap_eqm; unfold eqm; f_equal; ring.

(** Equality of digests, word by word. *)
Ltac words :=
  repeat match goal with |- _ :: _ = _ :: _ => apply f_equal2 end; try reflexivity.

Inductive FletcherImplementation : Type :=
| Generic | SuperScalar2 | SuperScalar4 | SSE2 | SSSE3 | AVX2 | AVX512F | AVX512BW.

Definition implementation_to_str (i : FletcherImplementation) : string :=
  match i with
  | Generic => "generic"
  | SuperScalar2 => "superscalar2"
  | SuperScalar4 => "superscalar4"
  | SSE2 => "sse2"
  | SSSE3 => "ssse3"
  | AVX2 => "avx2"
  | AVX512F => "avx512f"
  | AVX512BW => "avx512bw"
  end.

Inductive ChecksumError : Type :=
| ChecksumUnsupported (checksum : ChecksumType.t) (implementation : string).

(** What [Fletcher4ImplementationCtx] and [Fletcher2ImplementationCtx] hold. *)
Record FletcherCtx : Type := {
  block_size : Z;
  update_blocks : EndianOrder -> list Z -> bytes -> list Z;
  finish_blocks : list Z -> list Z
}.

Definition word4 (o : EndianOrder) (block : bytes) (i : Z) : Z :=
  int_from o (ztake 4 (zdrop (4 * i) block)).
Definition word8 (o : EndianOrder) (block : bytes) (i : Z) : Z :=
  int_from o (ztake 8 (zdrop (8 * i) block)).

(** ** The hasher over a context

    [reset], [update], [finalize] and [hash] are the same code in both files,
    up to the size [W] of a block of the generic function [gen] and the
    recombination [single] of one stream. *)
Section hasher.
Context (W : Z) (gen : EndianOrder -> list Z -> bytes -> list Z) (single : list Z -> list Z).
Context (buffer_len state_len : Z).

Definition reset : hasher (list Z) :=
  Build_hasher 0 (zrep buffer_len 0) (zrep state_len 0).

Definition update (ctx : FletcherCtx) (o : EndianOrder) (h : hasher (list Z)) (data : bytes)
    : outcome unit (hasher (list Z)) :=
  Stream.update (block_size ctx) (update_blocks ctx o) h data.

(** Whole words left in the buffer go through the generic function. *)
Definition finalize (ctx : FletcherCtx) (o : EndianOrder) (h : hasher (list Z))
    : outcome unit (list Z) :=
  let result := finish_blocks ctx (state h) in
  let remainder := buffer_fill h mod W in
  let full_block_bytes := buffer_fill h - remainder in
  if 0 <? full_block_bytes then
    full ← unwrap (get_range (buffer h) 0 full_block_bytes);
    Ok (single (gen o result full))
  else Ok result.

(** A sequence of [update] calls after [reset], then [finalize]. *)
Definition hash_parts (ctx : FletcherCtx) (o : EndianOrder) (parts : list bytes)
    : outcome unit (list Z) :=
  h ← Stream.updates (block_size ctx) (update_blocks ctx o) reset parts; finalize ctx o h.

Definition hash (ctx : FletcherCtx) (o : EndianOrder) (data : bytes) : outcome unit (list Z) :=
  h ← update ctx o reset data; finalize ctx o h.

Context (ctx : FletcherCtx) (o : EndianOrder) (P : Z -> Prop).
Hypothesis W_pos : 0 < W.
Hypothesis B_pos : 0 < block_size ctx.
Hypothesis W_div_B : (W | block_size ctx).
Hypothesis B_fits : block_size ctx <= buffer_len.
Hypothesis upd_app : forall x y,
  (block_size ctx | blen x) ->
  update_blocks ctx o (zrep state_len 0) (x ++ y) =
  update_blocks ctx o (update_blocks ctx o (zrep state_len 0) x) y.
Hypothesis upd_nil : update_blocks ctx o (zrep state_len 0) [] = zrep state_len 0.
Hypothesis gen_app : forall s x y, (W | blen x) -> gen o s (x ++ y) = gen o (gen o s x) y.
Hypothesis gen_short : forall s x, blen x < W -> gen o s x = s.
Hypothesis gen_single : forall s x, length s = 4%nat -> single (gen o s x) = gen o s x.
Hypothesis gen_length : forall s x, length (gen o s x) = length s.
Hypothesis lanes_ok : forall x, Forall P x -> (block_size ctx | blen x) ->
  finish_blocks ctx (update_blocks ctx o (zrep state_len 0) x) = gen o [0; 0; 0; 0] x.

Lemma gen_full s x : gen o s x = gen o s (ztake (blen x - blen x mod W) x).
Proof using W_pos gen_app gen_short.
  pose proof (Z.mod_pos_bound (blen x) W W_pos).
  pose proof (Z.mod_le (blen x) W ltac:(auto with zfs) W_pos).
  rewrite <- (ztake_zdrop (blen x - blen x mod W) x) at 1. rewrite gen_app.
  - apply gen_short. rewrite blen_zdrop by lia. lia.
  - rewrite blen_ztake by lia. rewrite Z.min_l by lia.
    exists (blen x / W). pose proof (Z.div_mod (blen x) W ltac:(lia)). lia.
Qed.

Lemma finalize_absorbed h m :
  Forall P m -> absorbed (block_size ctx) (update_blocks ctx o) (zrep state_len 0) h m ->
  finalize ctx o h = Ok (gen o [0; 0; 0; 0] m).
Proof using All.
  intros HP (Hb & Hf & Ht & Hs). set (B := block_size ctx) in *.
  pose proof (Z.mod_pos_bound (blen m) B B_pos) as Hr.
  pose proof (Z.mod_le (blen m) B ltac:(auto with zfs) B_pos) as Hle.
  assert (Hdiv : (B | blen m - blen m mod B)).
  { exists (blen m / B). pose proof (Z.div_mod (blen m) B ltac:(lia)). lia. }
  set (k := blen m - blen m mod B) in *.
  assert (Hk : blen (ztake k m) = k) by (rewrite blen_ztake by lia; lia).
  rewrite <- (ztake_zdrop k m), gen_app by (rewrite Hk; now apply (Z.divide_trans _ B)).
  rewrite (gen_full _ (zdrop k m)).
  assert (Hrest : blen (zdrop k m) = buffer_fill h) by (rewrite blen_zdrop by lia; lia).
  rewrite Hrest. unfold finalize. rewrite Hs, lanes_ok by first [now apply Forall_take | now rewrite Hk].
  pose proof (Z.mod_pos_bound (buffer_fill h) W W_pos).
  pose proof (Z.mod_le (buffer_fill h) W ltac:(lia) W_pos).
  destruct (Z.ltb_spec 0 (buffer_fill h - buffer_fill h mod W)).
  - rewrite get_range_ok by lia. cbn [unwrap mbind outcome_bind].
    rewrite zdrop_0, Z.sub_0_r. rewrite gen_single by now rewrite gen_length.
    do 2 f_equal. rewrite <- Ht, ztake_ztake by lia. done.
  - rewrite (ztake_take (_ - _)) by lia.
    replace (Z.to_nat _) with 0%nat by lia. now rewrite take_0, (gen_short _ []) by done.
Qed.

Lemma reset_absorbed :
  absorbed (block_size ctx) (update_blocks ctx o) (zrep state_len 0) reset [].
Proof using B_pos B_fits upd_nil.
  unfold absorbed, reset; cbn [buffer buffer_fill state].
  change (blen (@nil Z)) with 0. rewrite Z.mod_0_l by lia.
  change (ztake (0 - 0) []) with (@nil Z). rewrite upd_nil, blen_zrep by lia.
  splits; auto. now rewrite ztake_take by lia.
Qed.

Lemma hash_parts_gen parts :
  Forall P (concat parts) -> hash_parts ctx o parts = Ok (gen o [0; 0; 0; 0] (concat parts)).
Proof using All.
  intros HP. destruct (updates_absorbed _ _ (zrep state_len 0) B_pos upd_app parts reset []
    reset_absorbed) as (h & Hh & Ha).
  unfold hash_parts. rewrite Hh. cbn. now apply finalize_absorbed in Ha.
Qed.

Lemma hash_hash_parts data : hash ctx o data = hash_parts ctx o [data].
Proof using.
  unfold hash, hash_parts, update. cbn [Stream.updates].
  now destruct (Stream.update _ _ reset data).
Qed.
End hasher.

Module Fletcher4.

Definition BLOCK_SIZE : Z := 4.
Definition MAX_SIMD_WIDTH : Z := 8.
Definition U64_COUNT : Z := 4.

(** One stream: four running sums. *)
Definition lane : Type := (Z * Z * Z * Z)%type.
Definition lane_step (s : lane) (v : Z) : lane :=
  let '(a, b, c, d) := s in
  let a := wadd a v in
  let b := wadd b a in
  let c := wadd c b in
  let d := wadd d c in
  (a, b, c, d).

(** The state is an array of 32 words, of which an implementation uses the
    first 4, 8 or 16. *)
Definition update_blocks_generic (o : EndianOrder) (st : list Z) (data : bytes) : list Z :=
  match st with
  | a :: b :: c :: d :: rest =>
      let '(a, b, c, d) :=
        fold_left (fun s block => lane_step s (word4 o block 0))
          (chunks_exact BLOCK_SIZE data) (a, b, c, d) in
      a :: b :: c :: d :: rest
  | _ => st
  end.

Definition lanes2 : Type := (lane * lane)%type.
Definition lanes2_step (o : EndianOrder) (s : lanes2) (block : bytes) : lanes2 :=
  (lane_step (fst s) (word4 o block 0), lane_step (snd s) (word4 o block 1)).

Definition update_blocks_superscalar2 (o : EndianOrder) (st : list Z) (data : bytes) : list Z :=
  match st with
  | a0 :: a1 :: b0 :: b1 :: c0 :: c1 :: d0 :: d1 :: rest =>
      let '((a0, b0, c0, d0), (a1, b1, c1, d1)) :=
        fold_left (lanes2_step o) (chunks_exact (2 * BLOCK_SIZE) data)
          ((a0, b0, c0, d0), (a1, b1, c1, d1)) in
      a0 :: a1 :: b0 :: b1 :: c0 :: c1 :: d0 :: d1 :: rest
  | _ => st
  end.

Definition lanes4 : Type := (lane * lane * lane * lane)%type.
Definition lanes4_step (o : EndianOrder) (s : lanes4) (block : bytes) : lanes4 :=
  let '(s0, s1, s2, s3) := s in
  (lane_step s0 (word4 o block 0), lane_step s1 (word4 o block 1),
   lane_step s2 (word4 o block 2), lane_step s3 (word4 o block 3)).

Definition update_blocks_superscalar4 (o : EndianOrder) (st : list Z) (data : bytes) : list Z :=
  match st with
  | a0 :: a1 :: a2 :: a3 :: b0 :: b1 :: b2 :: b3 ::
    c0 :: c1 :: c2 :: c3 :: d0 :: d1 :: d2 :: d3 :: rest =>
      let '((a0, b0, c0, d0), (a1, b1, c1, d1), (a2, b2, c2, d2), (a3, b3, c3, d3)) :=
        fold_left (lanes4_step o) (chunks_exact (4 * BLOCK_SIZE) data)
          ((a0, b0, c0, d0), (a1, b1, c1, d1), (a2, b2, c2, d2), (a3, b3, c3, d3)) in
      a0 :: a1 :: a2 :: a3 :: b0 :: b1 :: b2 :: b3 ::
      c0 :: c1 :: c2 :: c3 :: d0 :: d1 :: d2 :: d3 :: rest
  | _ => st
  end.

(** [sum_and_mul] and [mul_and_sum] *)
Definition sum_and_mul (v : list Z) (m : Z) : Z := wmul (fold_left wadd v 0) m.
Fixpoint mul_and_sum_from (r : Z) (v m : list Z) : Z :=
  match v, m with
  | x :: v', k :: m' => mul_and_sum_from (wadd r (wmul x k)) v' m'
  | _, _ => r
  end.
Definition mul_and_sum (v m : list Z) : Z := mul_and_sum_from 0 v m.

Definition finish_blocks_single_stream (st : list Z) : list Z :=
  match st with a :: b :: c :: d :: _ => [a; b; c; d] | _ => st end.

Definition finish_blocks_dual_stream (st : list Z) : list Z :=
  match st with
  | a0 :: a1 :: b0 :: b1 :: c0 :: c1 :: d0 :: d1 :: _ =>
      let ra := wadd a0 a1 in
      let rb := wsub (wmul (wadd b0 b1) 2) a1 in
      let rc := wsub (wmul (wadd c0 c1) 4) (wadd b0 (wmul b1 3)) in
      let rd := wadd (wsub (wmul (wadd d0 d1) 8) (wadd (wmul c0 4) (wmul c1 8))) b1 in
      [ra; rb; rc; rd]
  | _ => st
  end.

Definition finish_blocks_quad_stream (st : list Z) : list Z :=
  match st with
  | a0 :: a1 :: a2 :: a3 :: b0 :: b1 :: b2 :: b3 ::
    c0 :: c1 :: c2 :: c3 :: d0 :: d1 :: d2 :: d3 :: _ =>
      let a := [a0; a1; a2; a3] in
      let b := [b0; b1; b2; b3] in
      let c := [c0; c1; c2; c3] in
      let d := [d0; d1; d2; d3] in
      let ra := sum_and_mul a 1 in
      let rb := wsub (sum_and_mul b 4) (wadd (wadd a1 (wmul a2 2)) (wmul a3 3)) in
      let rc := wadd (wadd (wsub (sum_and_mul c 16) (mul_and_sum b [6; 10; 14; 18])) a2) (wmul a3 3) in
      let rd := wsub (wadd (wsub (sum_and_mul d 64) (mul_and_sum c [48; 64; 80; 96]))
                        (mul_and_sum b [4; 10; 20; 34])) a3 in
      [ra; rb; rc; rd]
  | _ => st
  end.

Definition ctx_of (i : FletcherImplementation) : outcome ChecksumError FletcherCtx :=
  match i with
  | Generic => Ok {| block_size := BLOCK_SIZE; update_blocks := update_blocks_generic;
                     finish_blocks := finish_blocks_single_stream |}
  | SuperScalar2 => Ok {| block_size := 2 * BLOCK_SIZE; update_blocks := update_blocks_superscalar2;
                          finish_blocks := finish_blocks_dual_stream |}
  | SuperScalar4 => Ok {| block_size := 4 * BLOCK_SIZE; update_blocks := update_blocks_superscalar4;
                          finish_blocks := finish_blocks_quad_stream |}
  | _ => Err (ChecksumUnsupported ChecksumType.Fletcher4 (implementation_to_str i))
  end.

Definition BUFFER_LEN : Z := BLOCK_SIZE * MAX_SIMD_WIDTH.
Definition STATE_LEN : Z := U64_COUNT * MAX_SIMD_WIDTH.

(** [new(i)] and [hash(data, order)]; and the same with the input split over
    several [update] calls. *)
Definition new_hash (i : FletcherImplementation) (o : EndianOrder) (data : bytes)
    : outcome ChecksumError (list Z) :=
  ctx ← ctx_of i;
  match hash BLOCK_SIZE update_blocks_generic finish_blocks_single_stream BUFFER_LEN STATE_LEN
          ctx o data with
  | Ok d => Ok d | _ => Panic
  end.
Definition new_hash_parts (i : FletcherImplementation) (o : EndianOrder) (parts : list bytes)
    : outcome ChecksumError (list Z) :=
  ctx ← ctx_of i;
  match hash_parts BLOCK_SIZE update_blocks_generic finish_blocks_single_stream BUFFER_LEN STATE_LEN
          ctx o parts with
  | Ok d => Ok d | _ => Panic
  end.

(** The digest in one pass over all the words. *)
Definition one_pass (o : EndianOrder) (data : bytes) : list Z :=
  update_blocks_generic o [0; 0; 0; 0] data.

(** *** The lanes recombine to the single stream *)
Definition lane_list (s : lane) : list Z := let '(a, b, c, d) := s in [a; b; c; d].
Definition lanes2_list (s : lanes2) : list Z :=
  let '((a0, b0, c0, d0), (a1, b1, c1, d1)) := s in [a0; a1; b0; b1; c0; c1; d0; d1].
Definition lanes4_list (s : lanes4) : list Z :=
  let '((a0, b0, c0, d0), (a1, b1, c1, d1), (a2, b2, c2, d2), (a3, b3, c3, d3)) := s in
  [a0; a1; a2; a3; b0; b1; b2; b3; c0; c1; c2; c3; d0; d1; d2; d3].

Lemma dual_step s0 s1 rest r v w :
  finish_blocks_dual_stream (lanes2_list (s0, s1) ++ rest) = lane_list r ->
  finish_blocks_dual_stream (lanes2_list (lane_step s0 v, lane_step s1 w) ++ rest) =
  lane_list (lane_step (lane_step r v) w).
Proof.
  destruct s0 as [[[a0 b0] c0] d0], s1 as [[[a1 b1] c1] d1], r as [[[a b] c] d].
  cbn. intros [= <- <- <- <-]. words; wring.
Qed.

Lemma quad_step s0 s1 s2 s3 rest r v w x y :
  finish_blocks_quad_stream (lanes4_list (s0, s1, s2, s3) ++ rest) = lane_list r ->
  finish_blocks_quad_stream
    (lanes4_list (lane_step s0 v, lane_step s1 w, lane_step s2 x, lane_step s3 y) ++ rest) =
  lane_list (lane_step (lane_step (lane_step (lane_step r v) w) x) y).
Proof.
  destruct s0 as [[[a0 b0] c0] d0], s1 as [[[a1 b1] c1] d1], s2 as [[[a2 b2] c2] d2],
    s3 as [[[a3 b3] c3] d3], r as [[[a b] c] d].
  unfold lanes4_list, lane_list, lane_step, finish_blocks_quad_stream, sum_and_mul, mul_and_sum.
  cbn [app fold_left mul_and_sum_from]. intros [= <- <- <- <-]. words; wring.
Qed.

Lemma word4_0 o b : blen b = 4 -> word4 o b 0 = int_from o b.
Proof. intros. unfold word4. rewrite Z.mul_0_r, zdrop_0, ztake_ge by lia. done. Qed.

Definition gen_step (o : EndianOrder) (s : lane) (block : bytes) : lane :=
  lane_step s (word4 o block 0).

(** A block of two or four words, through the single stream. *)
Lemma gen_block o (k : nat) b s :
  blen b = 4 * Z.of_nat k ->
  fold_left (gen_step o) (chunks_exact 4 b) s =
  fold_left lane_step (map (fun i => word4 o b (Z.of_nat i)) (seq 0 k)) s.
Proof.
  revert b s. induction k as [|k IH]; intros b s Hb.
  - apply blen_0 in Hb as ->. done.
  - rewrite chunks_exact_cons by lia. cbn [fold_left seq map].
    rewrite IH by (rewrite blen_zdrop by lia; lia).
    rewrite <- seq_shift, map_map. f_equal.
    + apply map_ext_in. intros i _. unfold word4. rewrite zdrop_zdrop by lia. do 3 f_equal. lia.
    + unfold gen_step. rewrite word4_0 by (rewrite blen_ztake by lia; lia).
      unfold word4. now rewrite Z.mul_0_r, zdrop_0.
Qed.

Lemma dual_lanes o x rest s0 s1 r :
  (8 | blen x) -> finish_blocks_dual_stream (lanes2_list (s0, s1) ++ rest) = lane_list r ->
  finish_blocks_dual_stream (lanes2_list (fold_left (lanes2_step o) (chunks_exact 8 x) (s0, s1)) ++ rest)
  = lane_list (fold_left (gen_step o) (chunks_exact 4 x) r).
Proof.
  intros Hx Hr.
  apply (fold_blocks_sim 8 4 (lanes2_step o) (gen_step o)
    (fun s t => finish_blocks_dual_stream (lanes2_list s ++ rest) = lane_list t));
    try lia; [now exists 2 | | done | done].
  intros [t0 t1] t b Ht Hb. rewrite (gen_block o 2 b) by done. now apply dual_step.
Qed.

Lemma quad_lanes o x rest s r :
  (16 | blen x) -> finish_blocks_quad_stream (lanes4_list s ++ rest) = lane_list r ->
  finish_blocks_quad_stream (lanes4_list (fold_left (lanes4_step o) (chunks_exact 16 x) s) ++ rest)
  = lane_list (fold_left (gen_step o) (chunks_exact 4 x) r).
Proof.
  intros Hx Hr.
  apply (fold_blocks_sim 16 4 (lanes4_step o) (gen_step o)
    (fun s t => finish_blocks_quad_stream (lanes4_list s ++ rest) = lane_list t));
    try lia; [now exists 4 | | done | done].
  intros [[[t0 t1] t2] t3] t b Ht Hb. rewrite (gen_block o 4 b) by done. now apply quad_step.
Qed.

(** *** The hypotheses of the hasher *)
Lemma gen_list o s rest x :
  update_blocks_generic o (lane_list s ++ rest) x =
  lane_list (fold_left (gen_step o) (chunks_exact 4 x) s) ++ rest.
Proof.
  destruct s as [[[a b] c] d]. cbn [lane_list app update_blocks_generic].
  change (fun s block => lane_step s (word4 o block 0)) with (gen_step o).
  destruct (fold_left (gen_step o) (chunks_exact BLOCK_SIZE x) (a, b, c, d)) as [[[a' b'] c'] d'] eqn:E.
  change BLOCK_SIZE with 4 in E. now rewrite E.
Qed.

Lemma ss2_list o s rest x :
  update_blocks_superscalar2 o (lanes2_list s ++ rest) x =
  lanes2_list (fold_left (lanes2_step o) (chunks_exact 8 x) s) ++ rest.
Proof.
  destruct s as [[[[a b] c] d] [[[a1 b1] c1] d1]]. cbn [lanes2_list app update_blocks_superscalar2].
  change (2 * BLOCK_SIZE) with 8.
  now destruct (fold_left _ _ _) as [[[[? ?] ?] ?] [[[? ?] ?] ?]].
Qed.

Lemma ss4_list o s rest x :
  update_blocks_superscalar4 o (lanes4_list s ++ rest) x =
  lanes4_list (fold_left (lanes4_step o) (chunks_exact 16 x) s) ++ rest.
Proof.
  destruct s as [[[[[[a b] c] d] [[[a1 b1] c1] d1]] [[[a2 b2] c2] d2]] [[[a3 b3] c3] d3]].
  cbn [lanes4_list app update_blocks_superscalar4]. change (4 * BLOCK_SIZE) with 16.
  now destruct (fold_left _ _ _) as [[[[[[? ?] ?] ?] [[[? ?] ?] ?]] [[[? ?] ?] ?]] [[[? ?] ?] ?]].
Qed.

(** An array either holds the lanes or is left alone. *)
Lemma generic_cases st :
  (exists s rest, st = lane_list s ++ rest) \/ forall o x, update_blocks_generic o st x = st.
Proof.
  destruct st as [|a [|b [|c [|d rest]]]]; try (right; reflexivity).
  left. now exists (a, b, c, d), rest.
Qed.
Lemma ss2_cases st :
  (exists s rest, st = lanes2_list s ++ rest) \/ forall o x, update_blocks_superscalar2 o st x = st.
Proof.
  destruct st as [|a0 [|a1 [|b0 [|b1 [|c0 [|c1 [|d0 [|d1 rest]]]]]]]]; try (right; reflexivity).
  left. now exists ((a0, b0, c0, d0), (a1, b1, c1, d1)), rest.
Qed.
Lemma ss4_cases st :
  (exists s rest, st = lanes4_list s ++ rest) \/ forall o x, update_blocks_superscalar4 o st x = st.
Proof.
  destruct st as [|a0 [|a1 [|a2 [|a3 [|b0 [|b1 [|b2 [|b3
    [|c0 [|c1 [|c2 [|c3 [|d0 [|d1 [|d2 [|d3 rest]]]]]]]]]]]]]]]]; try (right; reflexivity).
  left. now exists ((a0, b0, c0, d0), (a1, b1, c1, d1), (a2, b2, c2, d2), (a3, b3, c3, d3)), rest.
Qed.

Lemma generic_app o st x y :
  (4 | blen x) ->
  update_blocks_generic o st (x ++ y) = update_blocks_generic o (update_blocks_generic o st x) y.
Proof.
  intros Hx. destruct (generic_cases st) as [(s & rest & ->)|H]; [|now rewrite !H].
  now rewrite !gen_list, chunks_exact_app, fold_left_app.
Qed.
Lemma ss2_app o st x y :
  (8 | blen x) ->
  update_blocks_superscalar2 o st (x ++ y) =
  update_blocks_superscalar2 o (update_blocks_superscalar2 o st x) y.
Proof.
  intros Hx. destruct (ss2_cases st) as [(s & rest & ->)|H]; [|now rewrite !H].
  now rewrite !ss2_list, chunks_exact_app, fold_left_app.
Qed.
Lemma ss4_app o st x y :
  (16 | blen x) ->
  update_blocks_superscalar4 o st (x ++ y) =
  update_blocks_superscalar4 o (update_blocks_superscalar4 o st x) y.
Proof.
  intros Hx. destruct (ss4_cases st) as [(s & rest & ->)|H]; [|now rewrite !H].
  now rewrite !ss4_list, chunks_exact_app, fold_left_app.
Qed.

Lemma generic_short o st x : blen x < 4 -> update_blocks_generic o st x = st.
Proof.
  intros Hx. destruct (generic_cases st) as [(s & rest & ->)|H]; [|done].
  now rewrite gen_list, chunks_exact_short.
Qed.

Lemma generic_length o st x : length (update_blocks_generic o st x) = length st.
Proof.
  destruct (generic_cases st) as [(s & rest & ->)|H]; [|now rewrite H].
  rewrite gen_list, !length_app. f_equal.
  destruct s as [[[? ?] ?] ?], (fold_left _ _ _) as [[[? ?] ?] ?]. done.
Qed.

Lemma single_id st : length st = 4%nat -> finish_blocks_single_stream st = st.
Proof. destruct st as [|? [|? [|? [|? [|]]]]]; done. Qed.

Lemma zero_words : lane_list (0, 0, 0, 0) = [0; 0; 0; 0].
Proof. done. Qed.

(** Each supported implementation recombines to the single stream. *)
Lemma lanes_single o x :
  finish_blocks_single_stream (update_blocks_generic o (zrep STATE_LEN 0) x) =
  update_blocks_generic o [0; 0; 0; 0] x.
Proof.
  change (zrep STATE_LEN 0) with (lane_list (0, 0, 0, 0) ++ zrep 28 0).
  rewrite gen_list. rewrite <- (app_nil_r [0; 0; 0; 0]), <- zero_words, gen_list.
  now destruct (fold_left _ _ _) as [[[? ?] ?] ?].
Qed.
Lemma lanes_dual o x :
  (8 | blen x) ->
  finish_blocks_dual_stream (update_blocks_superscalar2 o (zrep STATE_LEN 0) x) =
  update_blocks_generic o [0; 0; 0; 0] x.
Proof.
  intros Hx. change (zrep STATE_LEN 0) with (lanes2_list ((0, 0, 0, 0), (0, 0, 0, 0)) ++ zrep 24 0).
  rewrite ss2_list, (dual_lanes o x _ _ _ (0, 0, 0, 0)) by done.
  rewrite <- (app_nil_r [0; 0; 0; 0]), <- zero_words, gen_list. now rewrite app_nil_r.
Qed.
Lemma lanes_quad o x :
  (16 | blen x) ->
  finish_blocks_quad_stream (update_blocks_superscalar4 o (zrep STATE_LEN 0) x) =
  update_blocks_generic o [0; 0; 0; 0] x.
Proof.
  intros Hx. change (zrep STATE_LEN 0) with
    (lanes4_list ((0, 0, 0, 0), (0, 0, 0, 0), (0, 0, 0, 0), (0, 0, 0, 0)) ++ zrep 16 0).
  rewrite ss4_list, (quad_lanes o x _ _ (0, 0, 0, 0)) by done.
  rewrite <- (app_nil_r [0; 0; 0; 0]), <- zero_words, gen_list. now rewrite app_nil_r.
Qed.

Lemma gen_nil o s : update_blocks_generic o s [] = s.
Proof. now apply generic_short. Qed.
Lemma ss2_nil o s : update_blocks_superscalar2 o s [] = s.
Proof.
  destruct (ss2_cases s) as [([[[[? ?] ?] ?] [[[? ?] ?] ?]] & rest & ->)|H]; [now rewrite ss2_list | done].
Qed.
Lemma ss4_nil o s : update_blocks_superscalar4 o s [] = s.
Proof. destruct (ss4_cases s) as [(l & rest & ->)|H]; [now rewrite ss4_list | done]. Qed.

Lemma new_hash_parts_ok i o parts :
  new_hash_parts i o parts =
  match i with
  | Generic | SuperScalar2 | SuperScalar4 => Ok (one_pass o (concat parts))
  | _ => Err (ChecksumUnsupported ChecksumType.Fletcher4 (implementation_to_str i))
  end.
Proof.
  destruct i; try reflexivity; unfold new_hash_parts; cbn [ctx_of mbind outcome_bind];
    rewrite hash_parts_gen with (P := fun _ => True); cbn [block_size update_blocks finish_blocks];
    auto using generic_app, generic_short, generic_length, gen_nil, ss2_app, ss2_nil, ss4_app,
      ss4_nil, lanes_single, lanes_dual, lanes_quad, Forall_true; try easy;
    first [ intros; apply single_id; now rewrite generic_length
          | now exists 1 | now exists 2 | now exists 4 ].
Qed.

Lemma new_hash_ok o data : new_hash Generic o data = Ok (one_pass o data).
Proof.
  pose proof (new_hash_parts_ok Generic o [data]) as H. unfold new_hash, new_hash_parts in *.
  cbn [ctx_of mbind outcome_bind] in *. rewrite hash_hash_parts. cbn [concat] in H.
  now rewrite app_nil_r in H.
Qed.

(** Every implementation that is compiled in, with the input split in any way
    over the [update] calls and in either byte order, gives the digest of the
    single pass over the whole input; the others are refused. *)
Theorem fletcher4_any_split i o parts :
  new_hash_parts i o parts =
  match i with
  | Generic | SuperScalar2 | SuperScalar4 => Ok (one_pass o (concat parts))
  | _ => Err (ChecksumUnsupported ChecksumType.Fletcher4 (implementation_to_str i))
  end.
Proof. exact (new_hash_parts_ok i o parts). Qed.

(** *** The digest in closed form

    [g2 n] and [g3 n] are the triangular and tetrahedral numbers; a word with
    [k] words after it has weight 1, [k+1], [g2 (k+1)] and [g3 (k+1)] in the
    four sums. *)
Fixpoint g2 (n : nat) : Z := match n with O => 0 | S m => g2 m + Z.of_nat (S m) end.
Fixpoint g3 (n : nat) : Z := match n with O => 0 | S m => g3 m + g2 (S m) end.

Fixpoint weighted (coef : nat -> Z) (ws : list Z) : Z :=
  match ws with [] => 0 | w :: t => coef (S (length t)) * w + weighted coef t end.

Definition words_of (o : EndianOrder) (data : bytes) : list Z :=
  map (fun b => word4 o b 0) (chunks_exact BLOCK_SIZE data).

Definition closed_form (o : EndianOrder) (data : bytes) : list Z :=
  let ws := words_of o data in
  [wrap 64 (weighted (fun _ => 1) ws); wrap 64 (weighted Z.of_nat ws);
   wrap 64 (weighted g2 ws); wrap 64 (weighted g3 ws)].

Definition lane_eqm (s t : lane) : Prop :=
  let '(a, b, c, d) := s in let '(a', b', c', d') := t in
  (a ≡64 a' /\ b ≡64 b') /\ c ≡64 c' /\ d ≡64 d'.

Lemma lane_step_eqm a b c d v :
  lane_eqm (lane_step (a, b, c, d) v) (a + v, b + a + v, c + b + a + v, d + c + b + a + v).
Proof.
  cbn. unfold wadd. repeat setoid_rewrite wrap_eqm. rewrite !Z.add_assoc. repeat split; reflexivity.
Qed.

Lemma fold_lane_eqm ws a b c d :
  let n := Z.of_nat (length ws) in
  lane_eqm (fold_left lane_step ws (a, b, c, d))
    (a + weighted (fun _ => 1) ws,
     b + n * a + weighted Z.of_nat ws,
     c + n * b + g2 (length ws) * a + weighted g2 ws,
     d + n * c + g2 (length ws) * b + g3 (length ws) * a + weighted g3 ws).
Proof.
  revert a b c d. induction ws as [|w t IH]; intros a b c d; cbn zeta in *.
  - cbn. rewrite !Z.add_0_r. repeat split; reflexivity.
  - cbn [fold_left length weighted]. pose proof (lane_step_eqm a b c d w) as Hs.
    destruct (lane_step (a, b, c, d) w) as [[[a1 b1] c1] d1].
    specialize (IH a1 b1 c1 d1). destruct (fold_left lane_step t (a1, b1, c1, d1)) as [[[a2 b2] c2] d2].
    cbn in IH, Hs. destruct Hs as ((Ha & Hb) & Hc & Hd), IH as ((Ha2 & Hb2) & Hc2 & Hd2).
    rewrite Ha in *. rewrite Hb in *. rewrite Hc in *. rewrite Hd in *.
    unfold lane_eqm. rewrite Ha2, Hb2, Hc2, Hd2. cbn [g2 g3]. rewrite !Nat2Z.inj_succ, <- !Z.add_1_r.
    repeat split; unfold eqm; f_equal; ring.
Qed.

Lemma fold_lane_fits ws s :
  (let '(a, b, c, d) := s in fits 64 a /\ fits 64 b /\ fits 64 c /\ fits 64 d) ->
  let '(a, b, c, d) := fold_left lane_step ws s in
  fits 64 a /\ fits 64 b /\ fits 64 c /\ fits 64 d.
Proof.
  revert s. induction ws as [|w t IH]; intros [[[a b] c] d] H; cbn [fold_left]; [exact H|].
  apply IH. cbn. unfold wadd. splits; now apply wrap_fits.
Qed.

Lemma one_pass_closed o data : one_pass o data = closed_form o data.
Proof.
  unfold one_pass, closed_form. rewrite <- (app_nil_r [0; 0; 0; 0]), <- zero_words, gen_list.
  rewrite app_nil_r.
  replace (fold_left (gen_step o) (chunks_exact 4 data) (0, 0, 0, 0))
    with (fold_left lane_step (words_of o data) (0, 0, 0, 0)).
  - pose proof (fold_lane_eqm (words_of o data) 0 0 0 0) as He.
    pose proof (fold_lane_fits (words_of o data) (0, 0, 0, 0)) as Hf.
    destruct (fold_left lane_step (words_of o data) (0, 0, 0, 0)) as [[[a b] c] d].
    destruct Hf as (Ha & Hb & Hc & Hd); [repeat split; lia|].
    cbn in He. rewrite !Z.mul_0_r, !Z.add_0_l in He. destruct He as ((Ea & Eb) & Ec & Ed).
    cbn [lane_list]. rewrite <- (wrap_id 64 a), <- (wrap_id 64 b), <- (wrap_id 64 c), <- (wrap_id 64 d) by done.
    words; now apply wrap_eq.
  - unfold words_of. change BLOCK_SIZE with 4. generalize (chunks_exact 4 data) as bs.
    generalize (0, 0, 0, 0) as s. intros s bs. revert s.
    induction bs as [|b bs IH]; intros s; cbn; auto.
Qed.

(** The Fletcher-4 digest the hasher returns for any input is the four weighted sums of its 32-bit
    words modulo 2^64. *)
Theorem fletcher4_closed_form o data : new_hash Generic o data = Ok (closed_form o data).
Proof. now rewrite new_hash_ok, one_pass_closed. Qed.

End Fletcher4.

Module Fletcher2.

Definition BLOCK_SIZE : Z := 16.
Definition MAX_SIMD_WIDTH : Z := 4.
Definition U64_COUNT : Z := 4.

Definition lane : Type := (Z * Z * Z * Z)%type.
Definition lane_step (s : lane) (vw : Z * Z) : lane :=
  let '(a, b, c, d) := s in
  let '(v, w) := vw in
  let a := wadd a v in
  let b := wadd b w in
  let c := wadd c a in
  let d := wadd d b in
  (a, b, c, d).

(** The [i]-th pair of words of a block. *)
Definition pair8 (o : EndianOrder) (block : bytes) (i : Z) : Z * Z :=
  (word8 o block (2 * i), word8 o block (2 * i + 1)).

Definition update_blocks_generic (o : EndianOrder) (st : list Z) (data : bytes) : list Z :=
  match st with
  | a :: b :: c :: d :: rest =>
      let '(a, b, c, d) :=
        fold_left (fun s block => lane_step s (pair8 o block 0))
          (chunks_exact BLOCK_SIZE data) (a, b, c, d) in
      a :: b :: c :: d :: rest
  | _ => st
  end.

Definition lanes2 : Type := (lane * lane)%type.
Definition lanes2_step (o : EndianOrder) (s : lanes2) (block : bytes) : lanes2 :=
  (lane_step (fst s) (pair8 o block 0), lane_step (snd s) (pair8 o block 1)).

Definition update_blocks_superscalar2 (o : EndianOrder) (st : list Z) (data : bytes) : list Z :=
  match st with
  | a0 :: b0 :: a1 :: b1 :: c0 :: d0 :: c1 :: d1 :: rest =>
      let '((a0, b0, c0, d0), (a1, b1, c1, d1)) :=
        fold_left (lanes2_step o) (chunks_exact (2 * BLOCK_SIZE) data)
          ((a0, b0, c0, d0), (a1, b1, c1, d1)) in
      a0 :: b0 :: a1 :: b1 :: c0 :: d0 :: c1 :: d1 :: rest
  | _ => st
  end.

Definition lanes4 : Type := (lane * lane * lane * lane)%type.
Definition lanes4_step (o : EndianOrder) (s : lanes4) (block : bytes) : lanes4 :=
  let '(s0, s1, s2, s3) := s in
  (lane_step s0 (pair8 o block 0), lane_step s1 (pair8 o block 1),
   lane_step s2 (pair8 o block 2), lane_step s3 (pair8 o block 3)).

Definition update_blocks_superscalar4 (o : EndianOrder) (st : list Z) (data : bytes) : list Z :=
  match st with
  | a0 :: b0 :: a1 :: b1 :: a2 :: b2 :: a3 :: b3 ::
    c0 :: d0 :: c1 :: d1 :: c2 :: d2 :: c3 :: d3 :: rest =>
      let '((a0, b0, c0, d0), (a1, b1, c1, d1), (a2, b2, c2, d2), (a3, b3, c3, d3)) :=
        fold_left (lanes4_step o) (chunks_exact (4 * BLOCK_SIZE) data)
          ((a0, b0, c0, d0), (a1, b1, c1, d1), (a2, b2, c2, d2), (a3, b3, c3, d3)) in
      a0 :: b0 :: a1 :: b1 :: a2 :: b2 :: a3 :: b3 ::
      c0 :: d0 :: c1 :: d1 :: c2 :: d2 :: c3 :: d3 :: rest
  | _ => st
  end.

Definition finish_blocks_single_stream (st : list Z) : list Z :=
  match st with a :: b :: c :: d :: _ => [a; b; c; d] | _ => st end.

Definition finish_blocks_dual_stream (st : list Z) : list Z :=
  match st with
  | a0 :: b0 :: a1 :: b1 :: c0 :: d0 :: c1 :: d1 :: _ =>
      let ra := wadd a0 a1 in
      let rb := wadd b0 b1 in
      let rc := wsub (wmul (wadd c0 c1) 2) a1 in
      let rd := wsub (wmul (wadd d0 d1) 2) b1 in
      [ra; rb; rc; rd]
  | _ => st
  end.

Definition finish_blocks_quad_stream (st : list Z) : list Z :=
  match st with
  | a0 :: b0 :: a1 :: b1 :: a2 :: b2 :: a3 :: b3 ::
    c0 :: d0 :: c1 :: d1 :: c2 :: d2 :: c3 :: d3 :: _ =>
      let ra := wadd (wadd (wadd a0 a1) a2) a3 in
      let rb := wadd (wadd (wadd b0 b1) b2) b3 in
      let rc := wsub (wmul (wadd (wadd (wadd c0 c1) c2) c3) 4)
                  (wadd (wadd a1 (wmul a2 2)) (wmul a3 3)) in
      let rd := wsub (wmul (wadd (wadd (wadd d0 d1) d2) d3) 4)
                  (wadd (wadd b1 (wmul b2 2)) (wmul b3 3)) in
      [ra; rb; rc; rd]
  | _ => st
  end.

Definition ctx_of (i : FletcherImplementation) : outcome ChecksumError FletcherCtx :=
  match i with
  | Generic => Ok {| block_size := BLOCK_SIZE; update_blocks := update_blocks_generic;
                     finish_blocks := finish_blocks_single_stream |}
  | SuperScalar2 => Ok {| block_size := 2 * BLOCK_SIZE; update_blocks := update_blocks_superscalar2;
                          finish_blocks := finish_blocks_dual_stream |}
  | SuperScalar4 => Ok {| block_size := 4 * BLOCK_SIZE; update_blocks := update_blocks_superscalar4;
                          finish_blocks := finish_blocks_quad_stream |}
  | _ => Err (ChecksumUnsupported ChecksumType.Fletcher2 (implementation_to_str i))
  end.

Definition BUFFER_LEN : Z := BLOCK_SIZE * MAX_SIMD_WIDTH.
Definition STATE_LEN : Z := U64_COUNT * MAX_SIMD_WIDTH.

Definition new_hash (i : FletcherImplementation) (o : EndianOrder) (data : bytes)
    : outcome ChecksumError (list Z) :=
  ctx ← ctx_of i;
  match hash BLOCK_SIZE update_blocks_generic finish_blocks_single_stream BUFFER_LEN STATE_LEN
          ctx o data with
  | Ok d => Ok d | _ => Panic
  end.
Definition new_hash_parts (i : FletcherImplementation) (o : EndianOrder) (parts : list bytes)
    : outcome ChecksumError (list Z) :=
  ctx ← ctx_of i;
  match hash_parts BLOCK_SIZE update_blocks_generic finish_blocks_single_stream BUFFER_LEN STATE_LEN
          ctx o parts with
  | Ok d => Ok d | _ => Panic
  end.

(** The digest in one pass over all the words. *)
Definition one_pass (o : EndianOrder) (data : bytes) : list Z :=
  update_blocks_generic o [0; 0; 0; 0] data.

Definition lane_list (s : lane) : list Z := let '(a, b, c, d) := s in [a; b; c; d].
Definition lanes2_list (s : lanes2) : list Z :=
  let '((a0, b0, c0, d0), (a1, b1, c1, d1)) := s in [a0; b0; a1; b1; c0; d0; c1; d1].
Definition lanes4_list (s : lanes4) : list Z :=
  let '((a0, b0, c0, d0), (a1, b1, c1, d1), (a2, b2, c2, d2), (a3, b3, c3, d3)) := s in
  [a0; b0; a1; b1; a2; b2; a3; b3; c0; d0; c1; d1; c2; d2; c3; d3].

Lemma f2_dual_step s0 s1 rest r v w :
  finish_blocks_dual_stream (lanes2_list (s0, s1) ++ rest) = lane_list r ->
  finish_blocks_dual_stream (lanes2_list (lane_step s0 v, lane_step s1 w) ++ rest) =
  lane_list (lane_step (lane_step r v) w).
Proof.
  destruct s0 as [[[a0 b0] c0] d0], s1 as [[[a1 b1] c1] d1], r as [[[a b] c] d], v, w.
  cbn. intros [= <- <- <- <-]. words; wring.
Qed.

Lemma f2_quad_step s0 s1 s2 s3 rest r v w x y :
  finish_blocks_quad_stream (lanes4_list (s0, s1, s2, s3) ++ rest) = lane_list r ->
  finish_blocks_quad_stream
    (lanes4_list (lane_step s0 v, lane_step s1 w, lane_step s2 x, lane_step s3 y) ++ rest) =
  lane_list (lane_step (lane_step (lane_step (lane_step r v) w) x) y).
Proof.
  destruct s0 as [[[a0 b0] c0] d0], s1 as [[[a1 b1] c1] d1], s2 as [[[a2 b2] c2] d2],
    s3 as [[[a3 b3] c3] d3], r as [[[a b] c] d], v, w, x, y.
  cbn. intros [= <- <- <- <-]. words; wring.
Qed.

Definition gen_step (o : EndianOrder) (s : lane) (block : bytes) : lane :=
  lane_step s (pair8 o block 0).

Lemma word8_cut o b k i :
  0 <= k -> 0 <= i < 2 -> 16 * k + 16 <= blen b ->
  word8 o (ztake 16 (zdrop (16 * k) b)) i = word8 o b (2 * k + i).
Proof.
  intros. unfold word8. rewrite zdrop_ztake, ztake_ztake, zdrop_zdrop by lia.
  do 3 f_equal. lia.
Qed.

Lemma f2_gen_block o (k : nat) b s :
  blen b = 16 * Z.of_nat k ->
  fold_left (gen_step o) (chunks_exact 16 b) s =
  fold_left lane_step (map (fun i => pair8 o b (Z.of_nat i)) (seq 0 k)) s.
Proof.
  revert b s. induction k as [|k IH]; intros b s Hb.
  - apply blen_0 in Hb as ->. done.
  - rewrite chunks_exact_cons by lia. cbn [fold_left seq map].
    rewrite IH by (rewrite blen_zdrop by lia; lia).
    rewrite <- seq_shift, map_map. f_equal.
    + apply map_ext_in. intros i _. unfold pair8, word8. rewrite !zdrop_zdrop by lia.
      f_equal; do 3 f_equal; lia.
    + unfold gen_step, pair8. apply f_equal.
      pose proof (word8_cut o b 0 0 ltac:(lia) ltac:(lia) ltac:(lia)) as H0.
      pose proof (word8_cut o b 0 1 ltac:(lia) ltac:(lia) ltac:(lia)) as H1.
      rewrite Z.mul_0_r, zdrop_0 in H0, H1. apply f_equal2; [exact H0 | exact H1].
Qed.

Lemma f2_dual_lanes o x rest s0 s1 r :
  (32 | blen x) -> finish_blocks_dual_stream (lanes2_list (s0, s1) ++ rest) = lane_list r ->
  finish_blocks_dual_stream (lanes2_list (fold_left (lanes2_step o) (chunks_exact 32 x) (s0, s1)) ++ rest)
  = lane_list (fold_left (gen_step o) (chunks_exact 16 x) r).
Proof.
  intros Hx Hr.
  apply (fold_blocks_sim 32 16 (lanes2_step o) (gen_step o)
    (fun s t => finish_blocks_dual_stream (lanes2_list s ++ rest) = lane_list t));
    try lia; [now exists 2 | | done | done].
  intros [t0 t1] t b Ht Hb. rewrite (f2_gen_block o 2 b) by done. now apply f2_dual_step.
Qed.

Lemma f2_quad_lanes o x rest s r :
  (64 | blen x) -> finish_blocks_quad_stream (lanes4_list s ++ rest) = lane_list r ->
  finish_blocks_quad_stream (lanes4_list (fold_left (lanes4_step o) (chunks_exact 64 x) s) ++ rest)
  = lane_list (fold_left (gen_step o) (chunks_exact 16 x) r).
Proof.
  intros Hx Hr.
  apply (fold_blocks_sim 64 16 (lanes4_step o) (gen_step o)
    (fun s t => finish_blocks_quad_stream (lanes4_list s ++ rest) = lane_list t));
    try lia; [now exists 4 | | done | done].
  intros [[[t0 t1] t2] t3] t b Ht Hb. rewrite (f2_gen_block o 4 b) by done. now apply f2_quad_step.
Qed.

Lemma f2_gen_list o s rest x :
  update_blocks_generic o (lane_list s ++ rest) x =
  lane_list (fold_left (gen_step o) (chunks_exact 16 x) s) ++ rest.
Proof.
  destruct s as [[[a b] c] d]. cbn [lane_list app update_blocks_generic].
  change (fun s block => lane_step s (pair8 o block 0)) with (gen_step o).
  change BLOCK_SIZE with 16. now destruct (fold_left _ _ _) as [[[? ?] ?] ?].
Qed.

Lemma f2_ss2_list o s rest x :
  update_blocks_superscalar2 o (lanes2_list s ++ rest) x =
  lanes2_list (fold_left (lanes2_step o) (chunks_exact 32 x) s) ++ rest.
Proof.
  destruct s as [[[[a b] c] d] [[[a1 b1] c1] d1]]. cbn [lanes2_list app update_blocks_superscalar2].
  change (2 * BLOCK_SIZE) with 32.
  now destruct (fold_left _ _ _) as [[[[? ?] ?] ?] [[[? ?] ?] ?]].
Qed.

Lemma f2_ss4_list o s rest x :
  update_blocks_superscalar4 o (lanes4_list s ++ rest) x =
  lanes4_list (fold_left (lanes4_step o) (chunks_exact 64 x) s) ++ rest.
Proof.
  destruct s as [[[[[[a b] c] d] [[[a1 b1] c1] d1]] [[[a2 b2] c2] d2]] [[[a3 b3] c3] d3]].
  cbn [lanes4_list app update_blocks_superscalar4]. change (4 * BLOCK_SIZE) with 64.
  now destruct (fold_left _ _ _) as [[[[[[? ?] ?] ?] [[[? ?] ?] ?]] [[[? ?] ?] ?]] [[[? ?] ?] ?]].
Qed.

Lemma f2_generic_cases st :
  (exists s rest, st = lane_list s ++ rest) \/ forall o x, update_blocks_generic o st x = st.
Proof.
  destruct st as [|a [|b [|c [|d rest]]]]; try (right; reflexivity).
  left. now exists (a, b, c, d), rest.
Qed.
Lemma f2_ss2_cases st :
  (exists s rest, st = lanes2_list s ++ rest) \/ forall o x, update_blocks_superscalar2 o st x = st.
Proof.
  destruct st as [|a0 [|b0 [|a1 [|b1 [|c0 [|d0 [|c1 [|d1 rest]]]]]]]]; try (right; reflexivity).
  left. now exists ((a0, b0, c0, d0), (a1, b1, c1, d1)), rest.
Qed.
Lemma f2_ss4_cases st :
  (exists s rest, st = lanes4_list s ++ rest) \/ forall o x, update_blocks_superscalar4 o st x = st.
Proof.
  destruct st as [|a0 [|b0 [|a1 [|b1 [|a2 [|b2 [|a3 [|b3
    [|c0 [|d0 [|c1 [|d1 [|c2 [|d2 [|c3 [|d3 rest]]]]]]]]]]]]]]]]; try (right; reflexivity).
  left. now exists ((a0, b0, c0, d0), (a1, b1, c1, d1), (a2, b2, c2, d2), (a3, b3, c3, d3)), rest.
Qed.

Lemma f2_generic_app o st x y :
  (16 | blen x) ->
  update_blocks_generic o st (x ++ y) = update_blocks_generic o (update_blocks_generic o st x) y.
Proof.
  intros Hx. destruct (f2_generic_cases st) as [(s & rest & ->)|H]; [|now rewrite !H].
  now rewrite !f2_gen_list, chunks_exact_app, fold_left_app.
Qed.
Lemma f2_ss2_app o st x y :
  (32 | blen x) ->
  update_blocks_superscalar2 o st (x ++ y) =
  update_blocks_superscalar2 o (update_blocks_superscalar2 o st x) y.
Proof.
  intros Hx. destruct (f2_ss2_cases st) as [(s & rest & ->)|H]; [|now rewrite !H].
  now rewrite !f2_ss2_list, chunks_exact_app, fold_left_app.
Qed.
Lemma f2_ss4_app o st x y :
  (64 | blen x) ->
  update_blocks_superscalar4 o st (x ++ y) =
  update_blocks_superscalar4 o (update_blocks_superscalar4 o st x) y.
Proof.
  intros Hx. destruct (f2_ss4_cases st) as [(s & rest & ->)|H]; [|now rewrite !H].
  now rewrite !f2_ss4_list, chunks_exact_app, fold_left_app.
Qed.

Lemma f2_generic_short o st x : blen x < 16 -> update_blocks_generic o st x = st.
Proof.
  intros Hx. destruct (f2_generic_cases st) as [(s & rest & ->)|H]; [|done].
  now rewrite f2_gen_list, chunks_exact_short.
Qed.

Lemma f2_generic_length o st x : length (update_blocks_generic o st x) = length st.
Proof.
  destruct (f2_generic_cases st) as [(s & rest & ->)|H]; [|now rewrite H].
  rewrite f2_gen_list, !length_app. f_equal.
  destruct s as [[[? ?] ?] ?], (fold_left _ _ _) as [[[? ?] ?] ?]. done.
Qed.

Lemma f2_single_id st : length st = 4%nat -> finish_blocks_single_stream st = st.
Proof. destruct st as [|? [|? [|? [|? [|]]]]]; done. Qed.

Lemma f2_one_pass_list o x :
  update_blocks_generic o [0; 0; 0; 0] x =
  lane_list (fold_left (gen_step o) (chunks_exact 16 x) (0, 0, 0, 0)).
Proof.
  change [0; 0; 0; 0] with (lane_list (0, 0, 0, 0) ++ []). now rewrite f2_gen_list, app_nil_r.
Qed.

Lemma f2_lanes_single o x :
  finish_blocks_single_stream (update_blocks_generic o (zrep STATE_LEN 0) x) =
  update_blocks_generic o [0; 0; 0; 0] x.
Proof.
  change (zrep STATE_LEN 0) with (lane_list (0, 0, 0, 0) ++ zrep 12 0).
  rewrite f2_gen_list, f2_one_pass_list. now destruct (fold_left _ _ _) as [[[? ?] ?] ?].
Qed.
Lemma f2_lanes_dual o x :
  (32 | blen x) ->
  finish_blocks_dual_stream (update_blocks_superscalar2 o (zrep STATE_LEN 0) x) =
  update_blocks_generic o [0; 0; 0; 0] x.
Proof.
  intros Hx. change (zrep STATE_LEN 0) with (lanes2_list ((0, 0, 0, 0), (0, 0, 0, 0)) ++ zrep 8 0).
  rewrite f2_ss2_list, (f2_dual_lanes o x _ _ _ (0, 0, 0, 0)) by done. now rewrite f2_one_pass_list.
Qed.
Lemma f2_lanes_quad o x :
  (64 | blen x) ->
  finish_blocks_quad_stream (update_blocks_superscalar4 o (zrep STATE_LEN 0) x) =
  update_blocks_generic o [0; 0; 0; 0] x.
Proof.
  intros Hx. change (zrep STATE_LEN 0) with
    (lanes4_list ((0, 0, 0, 0), (0, 0, 0, 0), (0, 0, 0, 0), (0, 0, 0, 0)) ++ []).
  rewrite f2_ss4_list, (f2_quad_lanes o x _ _ (0, 0, 0, 0)) by done. now rewrite f2_one_pass_list.
Qed.

Lemma f2_gen_nil o s : update_blocks_generic o s [] = s.
Proof. now apply f2_generic_short. Qed.
Lemma f2_ss2_nil o s : update_blocks_superscalar2 o s [] = s.
Proof.
  destruct (f2_ss2_cases s) as [([[[[? ?] ?] ?] [[[? ?] ?] ?]] & rest & ->)|H];
    [now rewrite f2_ss2_list | done].
Qed.
Lemma f2_ss4_nil o s : update_blocks_superscalar4 o s [] = s.
Proof. destruct (f2_ss4_cases s) as [(l & rest & ->)|H]; [now rewrite f2_ss4_list | done]. Qed.

Lemma f2_new_hash_parts_ok i o parts :
  new_hash_parts i o parts =
  match i with
  | Generic | SuperScalar2 | SuperScalar4 => Ok (one_pass o (concat parts))
  | _ => Err (ChecksumUnsupported ChecksumType.Fletcher2 (implementation_to_str i))
  end.
Proof.
  destruct i; try reflexivity; unfold new_hash_parts; cbn [ctx_of mbind outcome_bind];
    rewrite hash_parts_gen with (P := fun _ => True); cbn [block_size update_blocks finish_blocks];
    auto using f2_generic_app, f2_generic_short, f2_generic_length, f2_gen_nil, f2_ss2_app,
      f2_ss2_nil, f2_ss4_app, f2_ss4_nil, f2_lanes_single, f2_lanes_dual, f2_lanes_quad, Forall_true; try easy;
    first [ intros; apply f2_single_id; now rewrite f2_generic_length
          | now exists 1 | now exists 2 | now exists 4 ].
Qed.

Lemma f2_new_hash_ok o data : new_hash Generic o data = Ok (one_pass o data).
Proof.
  pose proof (f2_new_hash_parts_ok Generic o [data]) as H. unfold new_hash, new_hash_parts in *.
  cbn [ctx_of mbind outcome_bind] in *. rewrite hash_hash_parts. cbn [concat] in H.
  now rewrite app_nil_r in H.
Qed.

(** The same for Fletcher-2: implementation and split do not matter. *)
Theorem fletcher2_any_split i o parts :
  new_hash_parts i o parts =
  match i with
  | Generic | SuperScalar2 | SuperScalar4 => Ok (one_pass o (concat parts))
  | _ => Err (ChecksumUnsupported ChecksumType.Fletcher2 (implementation_to_str i))
  end.
Proof. exact (f2_new_hash_parts_ok i o parts). Qed.

End Fletcher2.
