(* ===== verification/Simd.v ===== *)
(** * x86 vector registers

    The intrinsics of [core::arch] that the accelerated checksums of src/checksum
    use, on a little-endian target.  A register is the list of its 64-bit lanes, lowest
    first; 8-bit and 32-bit lanes are views of it.  A load from an array through a
    pointer may leave the array: it then gives whatever the memory behind it holds,
    which is the parameter [beyond]. *)

From S2P Require Import Prelude Decoder Stream.

Open Scope Z_scope.
Open Scope list_scope.

Abbreviation reg := (list Z).

(** ** Views *)
Definition of_bytes (bs : bytes) : reg := map le_combine (chunks_exact 8 bs).
Definition bytes_of (r : reg) : bytes := flat_map (le_split 8) r.
Definition to_epi32 (r : reg) : list Z := flat_map (fun x => [x mod 2 ^ 32; x / 2 ^ 32]) r.
Fixpoint of_epi32 (l : list Z) : reg :=
  match l with
  | lo :: hi :: l' => lo + 2 ^ 32 * hi :: of_epi32 l'
  | _ => []
  end.

(** ** Memory *)
(** [_mm_loadu_si128], [_mm256_lddqu_si256], [_mm512_loadu_si512] of a block of bytes. *)
Definition loadu (block : bytes) : reg := of_bytes block.
(** The same loads from an array of words at [ptr.add(i)], [ptr] a pointer to registers
    of [w] lanes. *)
Definition load (beyond : Z -> Z) (w : nat) (st : list Z) (i : nat) : reg :=
  map (fun j => default (beyond (Z.of_nat (i * w + j))) (st !! (i * w + j)%nat)) (seq 0 w).
(** [_mm_storeu_si128] and the like, at [ptr.add(i)]; what lies behind the array is not kept. *)
Definition store (st : list Z) (i : nat) (r : reg) : list Z := list_inserts (i * length r) r st.

(** ** Arithmetic by lanes *)
Definition add_epi64 (a b : reg) : reg := zip_with (fun x y => wrap 64 (x + y)) a b.
Definition and_epi64 (a b : reg) : reg := zip_with Z.land a b.
Definition or_epi64 (a b : reg) : reg := zip_with Z.lor a b.
Definition slli_epi64 (a : reg) (n : Z) : reg := map (fun x => wrap 64 (Z.shiftl x n)) a.
Definition srli_epi64 (a : reg) (n : Z) : reg := map (fun x => Z.shiftr x n) a.
Definition setzero (w : nat) : reg := repeat 0 w.
(** [_mm512_maskz_set1_epi64(k, x)]: [x] in the lanes whose bit of [k] is set. *)
Definition maskz_set1_epi64 (k x : Z) : reg :=
  map (fun i => if Z.testbit k (Z.of_nat i) then x else 0) (seq 0 8).

(** ** Moving lanes *)
Definition unpacklo_epi32 (a b : reg) : reg :=
  match to_epi32 a, to_epi32 b with
  | a0 :: a1 :: _, b0 :: b1 :: _ => of_epi32 [a0; b0; a1; b1]
  | _, _ => []
  end.
Definition unpackhi_epi32 (a b : reg) : reg :=
  match to_epi32 a, to_epi32 b with
  | _ :: _ :: a2 :: a3 :: _, _ :: _ :: b2 :: b3 :: _ => of_epi32 [a2; b2; a3; b3]
  | _, _ => []
  end.
(** [_mm256_cvtepu32_epi64], [_mm512_cvtepu32_epi64]: each 32-bit lane zero-extended. *)
Definition cvtepu32_epi64 (r : reg) : reg := to_epi32 r.
(** [_mm_set_epi8] and the like: the highest byte first. *)
Definition set_epi8 (bs : list Z) : reg := of_bytes (rev (map (wrap 8) bs)).
(** [_mm_shuffle_epi8] and the like: within every 16 bytes, a mask byte with its high bit
    set gives zero and any other the byte at its low four bits. *)
Definition shuffle16 (a m : bytes) : bytes :=
  map (fun k => if Z.testbit k 7 then 0 else default 0 (a !! Z.to_nat (Z.land k 15))) m.
Definition shuffle_epi8 (a m : reg) : reg :=
  of_bytes (concat (zip_with shuffle16 (chunks_exact 16 (bytes_of a)) (chunks_exact 16 (bytes_of m)))).

(** [swap_bytes] of an integer of [n] bytes. *)
Definition swap_bytes (n : nat) (x : Z) : Z := le_combine (rev (le_split n x)).

(** ** Views of one another *)
Lemma of_bytes_cons bs : 8 <= blen bs -> of_bytes bs = le_combine (ztake 8 bs) :: of_bytes (zdrop 8 bs).
Proof. intros H. unfold of_bytes. now rewrite chunks_exact_cons by lia. Qed.
Lemma of_bytes_short bs : blen bs < 8 -> of_bytes bs = [].
Proof. intros H. unfold of_bytes. now rewrite chunks_exact_short by lia. Qed.

(** Induction over a list of whole chunks. *)
Lemma chunk_ind (n : Z) (P : bytes -> Prop) :
  0 < n -> P [] -> (forall c l, blen c = n -> P l -> P (c ++ l)) -> forall l, (n | blen l) -> P l.
Proof.
  intros Hn H0 Hs l [q Hq]. assert (Hq0 : 0 <= q) by (pose proof (blen_nonneg l); nia).
  revert l Hq. pattern q. apply natlike_ind; [|clear q Hq0|done].
  - intros l Hl. apply blen_0 in Hl as ->. exact H0.
  - intros q Hq0 IH l Hl. rewrite <- (ztake_zdrop n l). apply Hs.
    + rewrite blen_ztake by lia. nia.
    + apply IH. rewrite blen_zdrop by lia. nia.
Qed.

Lemma of_bytes_app c l : blen c = 8 -> of_bytes (c ++ l) = le_combine c :: of_bytes l.
Proof.
  intros Hc. unfold of_bytes. rewrite chunks_exact_app by (try lia; rewrite Hc; apply Z.divide_refl).
  rewrite (chunks_exact_cons 8 c) by lia. rewrite zdrop_ge, ztake_ge by lia. reflexivity.
Qed.

Lemma bytes_of_of_bytes bs : bytes_ok bs -> (8 | blen bs) -> bytes_of (of_bytes bs) = bs.
Proof.
  intros Hok Hd. revert Hok. pattern bs. revert bs Hd. apply (chunk_ind 8); [lia|done|].
  intros c l Hc IH Hok. apply Forall_app in Hok as [H1 H2]. rewrite of_bytes_app by done.
  unfold bytes_of in *. cbn [flat_map]. rewrite IH by done. f_equal.
  replace 8%nat with (length c) by (unfold blen in Hc; lia). now apply le_split_combine.
Qed.

Lemma le_combine_app x y : le_combine (x ++ y) = le_combine x + 256 ^ blen x * le_combine y.
Proof.
  induction x as [|b x IH]; cbn [app le_combine]; [change (blen []) with 0; lia|].
  rewrite IH, blen_cons. rewrite Z.pow_add_r, Z.pow_1_r by (auto with zfs; lia). ring.
Qed.

Lemma le_combine_halves x y :
  bytes_ok x -> bytes_ok y -> blen x = 4 -> blen y = 4 ->
  le_combine (x ++ y) mod 2 ^ 32 = le_combine x /\ le_combine (x ++ y) / 2 ^ 32 = le_combine y.
Proof.
  intros Hx Hy Lx Ly. rewrite le_combine_app, Lx. change (256 ^ 4) with (2 ^ 32).
  pose proof (le_combine_bound x Hx) as Bx. rewrite Lx in Bx. change (256 ^ 4) with (2 ^ 32) in Bx.
  split; [rewrite Z.mul_comm, Z.mod_add by lia; now apply Z.mod_small|].
  rewrite Z.mul_comm, Z.div_add by lia. rewrite Z.div_small by lia. lia.
Qed.

(** The 32-bit lanes of a load are the words of the block. *)
Lemma to_epi32_of_bytes bs :
  bytes_ok bs -> (8 | blen bs) -> to_epi32 (of_bytes bs) = map le_combine (chunks_exact 4 bs).
Proof.
  intros Hok Hd. revert Hok. pattern bs. revert bs Hd. apply (chunk_ind 8); [lia|done|].
  intros c l Hc IH Hok. apply Forall_app in Hok as [H1 H2]. rewrite of_bytes_app by done.
  rewrite chunks_exact_app by (try lia; rewrite Hc; now exists 2). rewrite map_app, <- IH by done.
  unfold to_epi32 at 1. cbn [flat_map]. fold (to_epi32 (of_bytes l)). f_equal.
  rewrite <- (ztake_zdrop 4 c) in H1 |- *. apply Forall_app in H1 as [Hx Hy].
  destruct (le_combine_halves _ _ Hx Hy) as [-> ->]; [rewrite blen_ztake by lia; lia|rewrite blen_zdrop by lia; lia|].
  rewrite ztake_zdrop, chunks_exact_cons by lia. rewrite chunks_exact_cons by (rewrite ?blen_zdrop by lia; lia).
  rewrite (chunks_exact_short 4) by (rewrite ?blen_zdrop by (rewrite ?blen_zdrop; lia); rewrite ?blen_zdrop; lia).
  cbn [map]. rewrite (ztake_ge 4 (zdrop 4 c)) by (rewrite blen_zdrop; lia). reflexivity.
Qed.

(** ** Loads and stores inside the array *)
Lemma load_at beyond w p r q i :
  length p = (i * w)%nat -> length r = w -> load beyond w (p ++ r ++ q) i = r.
Proof.
  intros Hp Hr. apply list_eq. intros k. unfold load. rewrite list_lookup_fmap.
  destruct (decide (k < w)%nat) as [Hk|Hk].
  - rewrite lookup_seq_lt by lia. cbn [fmap option_fmap option_map].
    rewrite lookup_app_r, lookup_app_l by lia. replace (i * w + (0 + k) - length p)%nat with k by lia.
    destruct (lookup_lt_is_Some_2 r k) as [x Hx]; [lia|]. rewrite Hx. reflexivity.
  - rewrite lookup_seq_ge by lia. cbn. symmetry. apply lookup_ge_None_2. lia.
Qed.

Lemma store_at p r r' q i :
  length p = (i * length r)%nat -> length r' = length r -> store (p ++ r' ++ q) i r = p ++ r ++ q.
Proof.
  intros Hp Hr. unfold store. rewrite <- Hp. clear Hp i. revert p r' q Hr.
  induction r as [|x r IH]; intros p [|y r'] q Hr; try discriminate Hr; [done|].
  cbn [list_inserts app]. specialize (IH (p ++ [y]) r' q). rewrite <- app_assoc in IH. cbn [app] in IH.
  replace (S (length p)) with (length (p ++ [y])) by (rewrite length_app; cbn; lia).
  rewrite IH by (cbn in Hr; lia). rewrite <- app_assoc. cbn [app].
  now rewrite list_insert_insert_eq || rewrite insert_app_r_alt by lia; rewrite Nat.sub_diag.
Qed.

Lemma store_first r r' q : length r' = length r -> store (r' ++ q) 0 r = r ++ q.
Proof. intros Hr. now apply (store_at [] r r' q 0). Qed.

(** Four registers of one array. *)
Lemma loads4 beyond w a b c d q :
  length a = w -> length b = w -> length c = w -> length d = w ->
  let st := a ++ b ++ c ++ d ++ q in
  load beyond w st 0 = a /\ load beyond w st 1 = b /\ load beyond w st 2 = c /\ load beyond w st 3 = d.
Proof.
  intros Ha Hb Hc Hd st. unfold st. splits.
  - now apply (load_at beyond w []).
  - apply (load_at beyond w a); lia.
  - rewrite (app_assoc a). apply (load_at beyond w (a ++ b)); rewrite ?length_app; lia.
  - rewrite (app_assoc a), (app_assoc (a ++ b)). apply (load_at beyond w ((a ++ b) ++ c)); rewrite ?length_app; lia.
Qed.
Lemma stores4 w a b c d a' b' c' d' q :
  length a = w -> length b = w -> length c = w -> length d = w ->
  length a' = w -> length b' = w -> length c' = w -> length d' = w ->
  store (store (store (store (a' ++ b' ++ c' ++ d' ++ q) 0 a) 1 b) 2 c) 3 d = a ++ b ++ c ++ d ++ q.
Proof.
  intros Ha Hb Hc Hd Ha' Hb' Hc' Hd'.
  rewrite store_first by lia. rewrite (store_at a b b') by lia.
  rewrite (app_assoc a), (store_at (a ++ b) c c') by (rewrite ?length_app; lia).
  rewrite (app_assoc (a ++ b)), (store_at ((a ++ b) ++ c) d d') by (rewrite ?length_app; lia).
  now rewrite <- !app_assoc.
Qed.
(** Two registers of one array. *)
Lemma loads2 beyond w a b q :
  length a = w -> length b = w ->
  load beyond w (a ++ b ++ q) 0 = a /\ load beyond w (a ++ b ++ q) 1 = b.
Proof. intros Ha Hb. split; [now apply (load_at beyond w [])|apply (load_at beyond w a); lia]. Qed.
Lemma stores2 w a b a' b' q :
  length a = w -> length b = w -> length a' = w -> length b' = w ->
  store (store (a' ++ b' ++ q) 0 a) 1 b = a ++ b ++ q.
Proof.
  intros Ha Hb Ha' Hb'. rewrite store_first by lia. now rewrite (store_at a b b') by lia.
Qed.

Lemma length_add a b w : length a = w -> length b = w -> length (add_epi64 a b) = w.
Proof. intros Ha Hb. unfold add_epi64. rewrite length_zip_with. lia. Qed.

(** ** Shuffles *)
Lemma chunks_exact_16 c l : blen c = 16 -> chunks_exact 16 (c ++ l) = c :: chunks_exact 16 l.
Proof.
  intros Hc. rewrite chunks_exact_app by (try lia; rewrite Hc; apply Z.divide_refl).
  rewrite (chunks_exact_cons 16 c) by lia. rewrite zdrop_ge, ztake_ge by lia. reflexivity.
Qed.

(** A shuffle by parts that all do [f] to 16 bytes. *)
Lemma shuffle_epi8_parts bs ms f masks :
  bytes_ok bs -> blen bs = 16 * blen masks -> bytes_of ms = concat masks ->
  Forall (fun m => blen m = 16 /\ forall l, blen l = 16 -> shuffle16 l m = f l) masks ->
  shuffle_epi8 (of_bytes bs) ms = of_bytes (concat (map f (chunks_exact 16 bs))).
Proof.
  intros Hok Hbs Hms Hm. unfold shuffle_epi8. rewrite bytes_of_of_bytes, Hms by (auto; rewrite Hbs; exists (2 * blen masks); lia).
  f_equal. clear Hms Hok ms. revert bs Hbs. induction Hm as [|m masks [Hm Hf] _ IH]; intros bs Hbs.
  - change (blen []) with 0 in Hbs. now rewrite !chunks_exact_short by lia.
  - rewrite blen_cons in Hbs. pose proof (blen_nonneg masks). cbn [concat]. rewrite (chunks_exact_16 m) by done.
    rewrite (chunks_exact_cons 16 bs) by lia. cbn [zip_with concat map].
    rewrite Hf by (rewrite blen_ztake by lia; lia). f_equal. apply IH. rewrite blen_zdrop by lia. lia.
Qed.

(** ** Bytes of a lane selected by masks and shifted *)
Lemma land_byte_at x k :
  0 <= k -> Z.land x (Z.shiftl 255 k) = Z.shiftl ((x / 2 ^ k) mod 256) k.
Proof.
  intros Hk. apply Z.bits_inj'. intros n Hn. rewrite Z.land_spec, !Z.shiftl_spec by lia.
  change 255 with (Z.ones 8). change 256 with (2 ^ 8).
  destruct (Z.lt_ge_cases n k); [rewrite (Z.testbit_neg_r 255), (Z.testbit_neg_r ((x / 2 ^ k) mod 256)) by lia; apply andb_false_r|].
  rewrite Z.testbit_ones_nonneg by lia. destruct (Z.lt_ge_cases (n - k) 8).
  - rewrite Z.mod_pow2_bits_low, Z.div_pow2_bits by lia. replace (n - k + k) with n by lia.
    rewrite (proj2 (Z.ltb_lt _ _)) by lia. apply andb_true_r.
  - rewrite Z.mod_pow2_bits_high by lia. rewrite (proj2 (Z.ltb_ge _ _)) by lia. apply andb_false_r.
Qed.

(** Parts that share no bit: [a] below [2^k], the other a multiple of it. *)
Lemma lor_add_high a b k : 0 <= k -> 0 <= a < 2 ^ k -> Z.lor (b * 2 ^ k) a = b * 2 ^ k + a.
Proof.
  intros Hk Ha. rewrite <- Z.lxor_lor, Z.add_nocarry_lxor; [done| |].
  all: apply Z.bits_inj'; intros n Hn; rewrite Z.land_spec, Z.bits_0; destruct (Z.lt_ge_cases n k).
  1, 3: now rewrite Z.mul_pow2_bits_low by lia.
  all: rewrite <- (Z.mod_small a (2 ^ k)) by lia; rewrite Z.mod_pow2_bits_high by lia; apply andb_false_r.
Qed.

Lemma le_combine_digit c l k :
  bytes_ok c -> blen c = k -> (le_combine (c ++ l) / 2 ^ (8 * k)) = le_combine l.
Proof.
  intros Hc <-. rewrite le_combine_app. pose proof (le_combine_bound c Hc).
  rewrite Z.pow_mul_r by (auto with zfs; lia). change (2 ^ 8) with 256.
  assert (0 < 256 ^ blen c) by (apply Z.pow_pos_nonneg; [lia|auto with zfs]).
  rewrite Z.mul_comm, Z.div_add by lia. rewrite Z.div_small by lia. lia.
Qed.
Lemma le_combine_mod b l : is_byte b -> le_combine (b :: l) mod 256 = b.
Proof. intros Hb. cbn [le_combine]. rewrite Z.mul_comm, Z.mod_add by lia. now apply Z.mod_small. Qed.

(** The digit at position [k] of a number given by its bytes. *)
Lemma byte_of c b l k :
  bytes_ok c -> is_byte b -> blen c = k -> (le_combine (c ++ b :: l) / 2 ^ (8 * k)) mod 256 = b.
Proof. intros Hc Hb Hk. rewrite le_combine_digit by done. now apply le_combine_mod. Qed.

Lemma select_byte c b l k :
  bytes_ok c -> is_byte b -> blen c = k ->
  Z.land (le_combine (c ++ b :: l)) (Z.shiftl 255 (8 * k)) = b * 2 ^ (8 * k).
Proof.
  intros Hc Hb Hk. rewrite land_byte_at by (pose proof (blen_nonneg c); lia). rewrite byte_of by done.
  now rewrite Z.shiftl_mul_pow2 by (pose proof (blen_nonneg c); lia).
Qed.

Lemma shiftl_part b k n : 0 <= k -> 0 <= n -> Z.shiftl (b * 2 ^ k) n = b * 2 ^ (k + n).
Proof. intros Hk Hn. rewrite Z.shiftl_mul_pow2, Z.pow_add_r by lia. ring. Qed.
Lemma shiftr_part b k n : 0 <= n <= k -> Z.shiftr (b * 2 ^ k) n = b * 2 ^ (k - n).
Proof.
  intros Hn. rewrite Z.shiftr_div_pow2 by lia. replace (2 ^ k) with (2 ^ (k - n) * 2 ^ n).
  - rewrite Z.mul_assoc. apply Z.div_mul. lia.
  - rewrite <- Z.pow_add_r by lia. f_equal. lia.
Qed.
Lemma wrap_part b k : is_byte b -> 0 <= k <= 56 -> wrap 64 (b * 2 ^ k) = b * 2 ^ k.
Proof.
  intros Hb Hk. apply wrap_id. unfold is_byte in Hb. pose proof (Z.pow_le_mono_r 2 k 56 ltac:(lia) ltac:(lia)).
  assert (0 < 2 ^ k) by (apply Z.pow_pos_nonneg; lia). change (2 ^ 56) with 72057594037927936 in *.
  unfold fits. nia.
Qed.

Ltac pick_byte c b l k mask :=
  let H := fresh in
  pose proof (select_byte c b l k ltac:(repeat apply Forall_cons_2; try apply Forall_nil_2; done) ltac:(done) eq_refl : Z.land _ mask = _) as H;
  cbn [app] in H; rewrite H; clear H.

(** The byte swap of a 32-bit value in a 64-bit lane, by masks and shifts. *)
Definition swap32_by_masks (x : Z) : Z :=
  let s0 := wrap 64 (Z.shiftl (Z.land x 0xff) 24) in
  let s1 := wrap 64 (Z.shiftl (Z.land x 0xff00) 8) in
  let s2 := Z.shiftr (Z.land x 0xff0000) 8 in
  let s3 := Z.shiftr (Z.land x 0xff000000) 24 in
  Z.lor (Z.lor s0 s1) (Z.lor s2 s3).
Lemma swap32_ok b0 b1 b2 b3 :
  is_byte b0 -> is_byte b1 -> is_byte b2 -> is_byte b3 ->
  swap32_by_masks (le_combine [b0; b1; b2; b3]) = le_combine [b3; b2; b1; b0].
Proof.
  intros H0 H1 H2 H3. unfold swap32_by_masks.
  pick_byte (@nil Z) b0 ([b1; b2; b3]) 0 0xff.
  pick_byte ([b0]) b1 ([b2; b3]) 1 0xff00.
  pick_byte ([b0; b1]) b2 ([b3]) 2 0xff0000.
  pick_byte ([b0; b1; b2]) b3 (@nil Z) 3 0xff000000.
  rewrite !shiftl_part, !shiftr_part, !wrap_part by (done || lia). unfold is_byte in *. cbn [le_combine].
  rewrite (lor_add_high (b1 * 2 ^ (8 * 1 + 8)) b0 24 ltac:(lia) ltac:(cbn; lia) : Z.lor (b0 * 2 ^ (8 * 0 + 24)) _ = _).
  rewrite (lor_add_high (b3 * 2 ^ (8 * 3 - 24)) b2 8 ltac:(lia) ltac:(cbn; lia) : Z.lor (b2 * 2 ^ (8 * 2 - 8)) _ = _).
  replace (b0 * 2 ^ 24 + b1 * 2 ^ (8 * 1 + 8)) with ((b0 * 2 ^ 8 + b1) * 2 ^ 16) by (cbn; lia).
  rewrite lor_add_high by (cbn; lia). cbn. lia.
Qed.

(** The byte swap of a 64-bit lane. *)
Definition swap64_by_masks (x : Z) : Z :=
  let s0 := wrap 64 (Z.shiftl (Z.land x 0xff) 56) in
  let s1 := wrap 64 (Z.shiftl (Z.land x 0xff00) 40) in
  let s2 := wrap 64 (Z.shiftl (Z.land x 0xff0000) 24) in
  let s3 := wrap 64 (Z.shiftl (Z.land x 0xff000000) 8) in
  let s4 := Z.shiftr (Z.land x 0xff00000000) 8 in
  let s5 := Z.shiftr (Z.land x 0xff0000000000) 24 in
  let s6 := Z.shiftr (Z.land x 0xff000000000000) 40 in
  let s7 := Z.shiftr (Z.land x 0xff00000000000000) 56 in
  Z.lor (Z.lor (Z.lor s0 s1) (Z.lor s2 s3)) (Z.lor (Z.lor s4 s5) (Z.lor s6 s7)).
Lemma swap64_ok b0 b1 b2 b3 b4 b5 b6 b7 :
  is_byte b0 -> is_byte b1 -> is_byte b2 -> is_byte b3 -> is_byte b4 -> is_byte b5 -> is_byte b6 -> is_byte b7 ->
  swap64_by_masks (le_combine [b0; b1; b2; b3; b4; b5; b6; b7]) = le_combine [b7; b6; b5; b4; b3; b2; b1; b0].
Proof.
  intros H0 H1 H2 H3 H4 H5 H6 H7. unfold swap64_by_masks.
  pick_byte (@nil Z) b0 ([b1; b2; b3; b4; b5; b6; b7]) 0 0xff.
  pick_byte ([b0]) b1 ([b2; b3; b4; b5; b6; b7]) 1 0xff00.
  pick_byte ([b0; b1]) b2 ([b3; b4; b5; b6; b7]) 2 0xff0000.
  pick_byte ([b0; b1; b2]) b3 ([b4; b5; b6; b7]) 3 0xff000000.
  pick_byte ([b0; b1; b2; b3]) b4 ([b5; b6; b7]) 4 0xff00000000.
  pick_byte ([b0; b1; b2; b3; b4]) b5 ([b6; b7]) 5 0xff0000000000.
  pick_byte ([b0; b1; b2; b3; b4; b5]) b6 ([b7]) 6 0xff000000000000.
  pick_byte ([b0; b1; b2; b3; b4; b5; b6]) b7 (@nil Z) 7 0xff00000000000000.
  rewrite !shiftl_part, !shiftr_part, !wrap_part by (done || lia). unfold is_byte in *.
  rewrite (lor_add_high (b1 * 2 ^ (8 * 1 + 40)) b0 56 ltac:(lia) ltac:(cbn; lia) : Z.lor (b0 * 2 ^ (8 * 0 + 56)) _ = _).
  rewrite (lor_add_high (b3 * 2 ^ (8 * 3 + 8)) b2 40 ltac:(lia) ltac:(cbn; lia) : Z.lor (b2 * 2 ^ (8 * 2 + 24)) _ = _).
  rewrite (lor_add_high (b5 * 2 ^ (8 * 5 - 24)) b4 24 ltac:(lia) ltac:(cbn; lia) : Z.lor (b4 * 2 ^ (8 * 4 - 8)) _ = _).
  rewrite (lor_add_high (b7 * 2 ^ (8 * 7 - 56)) b6 8 ltac:(lia) ltac:(cbn; lia) : Z.lor (b6 * 2 ^ (8 * 6 - 40)) _ = _).
  replace (b0 * 2 ^ 56 + b1 * 2 ^ (8 * 1 + 40)) with ((b0 * 2 ^ 8 + b1) * 2 ^ 48) by (cbn; lia).
  replace (b4 * 2 ^ 24 + b5 * 2 ^ (8 * 5 - 24)) with ((b4 * 2 ^ 8 + b5) * 2 ^ 16) by (cbn; lia).
  rewrite (lor_add_high _ (b0 * 2 ^ 8 + b1) 48) by (cbn; lia).
  rewrite (lor_add_high _ (b4 * 2 ^ 8 + b5) 16) by (cbn; lia).
  match goal with |- Z.lor ?a _ = _ => replace a with ((b0 * 2 ^ 24 + b1 * 2 ^ 16 + b2 * 2 ^ 8 + b3) * 2 ^ 32) by (cbn; lia) end.
  rewrite lor_add_high by (cbn; lia). cbn. lia.
Qed.

(** [swap_bytes] of a word read in native order is the word read in the other. *)
Lemma swap_bytes_ok n bs : bytes_ok bs -> length bs = n -> swap_bytes n (int_from Little bs) = int_from Big bs.
Proof. intros Hok <-. unfold swap_bytes. cbn [int_from]. now rewrite le_split_combine. Qed.

(** ** Widths *)
Lemma length_chunks n l : 0 < n -> Z.of_nat (length (chunks_exact n l)) = blen l / n.
Proof.
  intros Hn. remember (length l) as k eqn:Hk. assert (Hle : (length l <= k)%nat) by lia. clear Hk. revert l Hle.
  induction k as [|k IH]; intros l Hle; rewrite chunks_exact_eq by done.
  - destruct l; [|cbn in Hle; lia]. change (blen []) with 0. destruct (Z.ltb_spec 0 n); [|lia]. now rewrite Z.div_0_l by lia.
  - destruct (Z.ltb_spec (blen l) n) as [H|H]; cbn [length].
    + rewrite Z.div_small by (split; [auto with zfs|lia]). done.
    + assert (Hd : blen (zdrop n l) = blen l - n) by (rewrite blen_zdrop by lia; lia).
      rewrite Nat2Z.inj_succ, IH, Hd by (unfold blen in *; lia).
      replace (blen l) with (blen l - n + 1 * n) at 2 by lia. rewrite Z.div_add by lia. lia.
Qed.
Lemma length_of_bytes bs : Z.of_nat (length (of_bytes bs)) = blen bs / 8.
Proof. unfold of_bytes. rewrite length_map. now apply length_chunks. Qed.
Lemma blen_bytes_of r : blen (bytes_of r) = 8 * Z.of_nat (length r).
Proof.
  unfold bytes_of. induction r as [|x r IH]; [done|]. cbn [flat_map length]. rewrite blen_app, IH.
  unfold blen at 1. rewrite length_le_split. lia.
Qed.
Lemma length_to_epi32 r : length (to_epi32 r) = (2 * length r)%nat.
Proof. unfold to_epi32. induction r as [|x r IH]; [done|]. cbn [flat_map length app]. lia. Qed.
Lemma blen_shuffles xs ys :
  Forall (fun y => blen y = 16) ys -> blen (concat (zip_with shuffle16 xs ys)) = 16 * Z.of_nat (Nat.min (length xs) (length ys)).
Proof.
  intros Hy. revert xs. induction Hy as [|y ys Hy _ IH]; intros [|x xs]; cbn [zip_with concat length]; try done.
  rewrite blen_app, IH. unfold shuffle16 at 1. unfold blen at 1. rewrite length_map. fold (blen y). lia.
Qed.
Lemma length_shuffle r m k : length r = (2 * k)%nat -> length m = (2 * k)%nat -> length (shuffle_epi8 r m) = (2 * k)%nat.
Proof.
  intros Hr Hm. apply Nat2Z.inj. unfold shuffle_epi8. rewrite length_of_bytes, blen_shuffles by (now apply chunks_exact_lengths).
  assert (H : forall q, length q = (2 * k)%nat -> length (chunks_exact 16 (bytes_of q)) = k).
  { intros q Hq. apply Nat2Z.inj. rewrite length_chunks, blen_bytes_of, Hq by lia.
    replace (8 * Z.of_nat (2 * k)) with (Z.of_nat k * 16) by lia. apply Z.div_mul. lia. }
  rewrite !H, Nat.min_id by done. replace (16 * Z.of_nat k) with (Z.of_nat (2 * k) * 8) by lia. apply Z.div_mul. lia.
Qed.
Lemma length_unpacklo a b : length a = 2%nat -> length b = 2%nat -> length (unpacklo_epi32 a b) = 2%nat.
Proof. destruct a as [|? [|? [|]]], b as [|? [|? [|]]]; try discriminate. reflexivity. Qed.
Lemma length_unpackhi a b : length a = 2%nat -> length b = 2%nat -> length (unpackhi_epi32 a b) = 2%nat.
Proof. destruct a as [|? [|? [|]]], b as [|? [|? [|]]]; try discriminate. reflexivity. Qed.

(** Zero-extending by unpacking with zero. *)
Lemma unpack_zero r a b c d :
  to_epi32 r = [a; b; c; d] ->
  unpacklo_epi32 r (setzero 2) = [a; b] /\ unpackhi_epi32 r (setzero 2) = [c; d].
Proof.
  intros Hr. unfold unpacklo_epi32, unpackhi_epi32. rewrite Hr. cbn [setzero repeat to_epi32 flat_map app of_epi32].
  change (0 mod 2 ^ 32) with 0. change (0 / 2 ^ 32) with 0. rewrite !Z.mul_0_r, !Z.add_0_r. done.
Qed.

(** A list of known length as its elements. *)
Lemma list_len_S {A} (l : list A) n : length l = S n -> exists x k, l = x :: k /\ length k = n.
Proof. destruct l as [|x k]; [discriminate|]. intros [= H]. eauto. Qed.
Ltac explode l H :=
  lazymatch type of H with
  | length l = 0%nat => apply nil_length_inv in H; subst l
  | length l = S ?n =>
      let x := fresh "b" in let k := fresh "k" in let E := fresh "E" in let H' := fresh "H" in
      destruct (list_len_S l n H) as (x & k & E & H'); subst l; clear H; explode k H'
  end.

(** *** Masks *)
Definition swaps4 (l : bytes) : bytes := concat (map (@rev Z) (chunks_exact 4 l)).
Definition swaps8 (l : bytes) : bytes := concat (map (@rev Z) (chunks_exact 8 l)).
(** A zero-extended pair of words, each swapped in its place. *)
Definition swap_wide (l : bytes) : bytes :=
  rev (ztake 4 l) ++ [0; 0; 0; 0] ++ rev (ztake 4 (zdrop 8 l)) ++ [0; 0; 0; 0].

Lemma length_blen {A} (l : list A) n : blen l = Z.of_nat n -> length l = n.
Proof. unfold blen. lia. Qed.

Lemma mask4 m l :
  m = [3; 2; 1; 0; 7; 6; 5; 4; 11; 10; 9; 8; 15; 14; 13; 12] -> blen l = 16 -> shuffle16 l m = swaps4 l.
Proof. intros -> Hl. apply (length_blen l 16) in Hl. explode l Hl. reflexivity. Qed.
(** The low four bits of a mask byte count: an index above 15 selects within the same 16 bytes. *)
Lemma mask8 m l :
  m = [7; 6; 5; 4; 3; 2; 1; 0; 15; 14; 13; 12; 11; 10; 9; 8] \/
  m = [23; 22; 21; 20; 19; 18; 17; 16; 31; 30; 29; 28; 27; 26; 25; 24] ->
  blen l = 16 -> shuffle16 l m = swaps8 l.
Proof. intros [-> | ->] Hl; apply (length_blen l 16) in Hl; explode l Hl; reflexivity. Qed.
Lemma mask_wide m l :
  m = [3; 2; 1; 0; 128; 128; 128; 128; 11; 10; 9; 8; 128; 128; 128; 128] \/
  m = [19; 18; 17; 16; 128; 128; 128; 128; 27; 26; 25; 24; 128; 128; 128; 128] ->
  blen l = 16 -> shuffle16 l m = swap_wide l.
Proof. intros [-> | ->] Hl; apply (length_blen l 16) in Hl; explode l Hl; reflexivity. Qed.

(** *** Zero-extended words *)
Definition widen (l : bytes) : bytes := flat_map (fun c => c ++ [0; 0; 0; 0]) (chunks_exact 4 l).
Lemma widen_app b0 b1 b2 b3 b4 b5 b6 b7 l :
  widen ([b0; b1; b2; b3; b4; b5; b6; b7] ++ l) =
  [b0; b1; b2; b3; 0; 0; 0; 0] ++ [b4; b5; b6; b7; 0; 0; 0; 0] ++ widen l.
Proof. unfold widen. rewrite chunks_exact_app by (try lia; now exists 2). rewrite flat_map_app. reflexivity. Qed.
Lemma chunks4_app b0 b1 b2 b3 b4 b5 b6 b7 l :
  chunks_exact 4 ([b0; b1; b2; b3; b4; b5; b6; b7] ++ l) = [b0; b1; b2; b3] :: [b4; b5; b6; b7] :: chunks_exact 4 l.
Proof. rewrite chunks_exact_app by (try lia; now exists 2). reflexivity. Qed.
Ltac eight c Hc := apply (length_blen c 8) in Hc; explode c Hc.

Lemma of_bytes_widen l : (8 | blen l) -> of_bytes (widen l) = map le_combine (chunks_exact 4 l).
Proof.
  revert l. apply (chunk_ind 8); [lia|done|]. intros c l Hc IH. eight c Hc.
  rewrite widen_app, chunks4_app, !of_bytes_app by done. cbn [map]. rewrite IH.
  reflexivity.
Qed.
Lemma widen_ok l : bytes_ok l -> (8 | blen l) -> bytes_ok (widen l) /\ blen (widen l) = 2 * blen l.
Proof.
  intros Hok Hd. revert Hok. pattern l. revert l Hd. apply (chunk_ind 8); [lia|done|].
  intros c l Hc IH Hok. apply Forall_app in Hok as [H1 H2]. destruct (IH H2) as [I1 I2].
  rewrite blen_app, Hc. eight c Hc. rewrite widen_app, !blen_app, I2. split; [|unfold blen; cbn [length]; lia].
  rewrite !Forall_cons in H1. destruct H1 as (?&?&?&?&?&?&?&?&_).
  repeat (apply Forall_app; split); [| |done]; rewrite !Forall_cons; unfold is_byte in *; splits; auto; lia.
Qed.
Lemma swap_wide_words l :
  (8 | blen l) -> of_bytes (concat (map swap_wide (chunks_exact 16 (widen l)))) = map (int_from Big) (chunks_exact 4 l).
Proof.
  revert l. apply (chunk_ind 8); [lia|done|]. intros c l Hc IH. eight c Hc.
  rewrite widen_app, chunks4_app, app_assoc, chunks_exact_16 by done. cbn [map concat app].
  change (swap_wide [b; b0; b1; b2; 0; 0; 0; 0; b3; b4; b5; b6; 0; 0; 0; 0])
    with ([b2; b1; b0; b; 0; 0; 0; 0] ++ [b6; b5; b4; b3; 0; 0; 0; 0]).
  rewrite <- app_assoc, !of_bytes_app by done. rewrite IH.
  reflexivity.
Qed.

(** *** Swapped words *)
Lemma swaps4_words l :
  (16 | blen l) -> chunks_exact 4 (concat (map swaps4 (chunks_exact 16 l))) = map (@rev Z) (chunks_exact 4 l).
Proof.
  revert l. apply (chunk_ind 16); [lia|done|]. intros c l Hc IH.
  rewrite chunks_exact_16 by done. cbn [map concat]. assert (H4 : (4 | blen c)) by (rewrite Hc; now exists 4).
  rewrite (chunks_exact_app 4 c), map_app, <- IH by (done || lia).
  apply (length_blen c 16) in Hc. explode c Hc.
  change (swaps4 [b; b0; b1; b2; b3; b4; b5; b6; b7; b8; b9; b10; b11; b12; b13; b14])
    with [b2; b1; b0; b; b6; b5; b4; b3; b10; b9; b8; b7; b14; b13; b12; b11].
  rewrite chunks_exact_app by (try lia; now exists 4). reflexivity.
Qed.
Lemma swaps8_words l :
  (16 | blen l) -> of_bytes (concat (map swaps8 (chunks_exact 16 l))) = map (int_from Big) (chunks_exact 8 l).
Proof.
  revert l. apply (chunk_ind 16); [lia|done|]. intros c l Hc IH.
  rewrite chunks_exact_16 by done. cbn [map concat]. assert (H8 : (8 | blen c)) by (rewrite Hc; now exists 2).
  rewrite (chunks_exact_app 8 c), map_app, <- IH by (done || lia).
  apply (length_blen c 16) in Hc. explode c Hc.
  change (swaps8 [b; b0; b1; b2; b3; b4; b5; b6; b7; b8; b9; b10; b11; b12; b13; b14])
    with ([b6; b5; b4; b3; b2; b1; b0; b] ++ [b14; b13; b12; b11; b10; b9; b8; b7]).
  rewrite <- app_assoc, !of_bytes_app by done. reflexivity.
Qed.
Lemma swaps_ok (f : bytes -> bytes) l :
  (forall c, blen c = 16 -> bytes_ok c -> bytes_ok (f c) /\ blen (f c) = 16) ->
  bytes_ok l -> (16 | blen l) ->
  bytes_ok (concat (map f (chunks_exact 16 l))) /\ blen (concat (map f (chunks_exact 16 l))) = blen l.
Proof.
  intros Hf Hok Hd. revert Hok. pattern l. revert l Hd. apply (chunk_ind 16); [lia|done|].
  intros c l Hc IH Hok. apply Forall_app in Hok as [H1 H2]. destruct (IH H2) as [I1 I2], (Hf c Hc H1) as [F1 F2].
  rewrite chunks_exact_16 by done. cbn [map concat]. rewrite !blen_app, I2, F2, Hc. split; [now apply Forall_app_2|done].
Qed.
Lemma swaps4_ok c : blen c = 16 -> bytes_ok c -> bytes_ok (swaps4 c) /\ blen (swaps4 c) = 16.
Proof.
  intros Hc Hok. apply (length_blen c 16) in Hc. explode c Hc. split; [|reflexivity].
  rewrite !Forall_cons in Hok.
  change (swaps4 [b; b0; b1; b2; b3; b4; b5; b6; b7; b8; b9; b10; b11; b12; b13; b14])
    with [b2; b1; b0; b; b6; b5; b4; b3; b10; b9; b8; b7; b14; b13; b12; b11].
  rewrite !Forall_cons. tauto.
Qed.
