(* ===== verification/FletcherSimd.v ===== *)
(** * The vector implementations of Fletcher-2 and Fletcher-4 (src/checksum/fletcher2.rs,
    src/checksum/fletcher4.rs)

    The SSE2, SSSE3, AVX2 and AVX-512 block functions, written with the intrinsics of
    Simd.v, for a little-endian x86 target: [native] reads little-endian words and
    [byteswap] big-endian ones.  The SSE2, SSSE3 and AVX2 functions give the digest of
    the one-pass definition however the input is split; the AVX-512 functions add the same
    sums, but load their registers from behind the state. *)

From S2P Require Import Prelude Decoder Encoder Types Stream Fletcher Simd.

Open Scope Z_scope.
Open Scope list_scope.

Definition indices : Type := (nat * nat * nat * nat)%type.

Module Simd4.
Import Fletcher4.

(** The running sums, a register each. *)
Definition sums : Type := (reg * reg * reg * reg)%type.
Definition sum_step (s : sums) (v : reg) : sums :=
  let '(a, b, c, d) := s in
  let a := add_epi64 a v in
  let b := add_epi64 b a in
  let c := add_epi64 c b in
  let d := add_epi64 d c in
  (a, b, c, d).
Definition block_step (values : bytes -> list reg) (s : sums) (block : bytes) : sums :=
  fold_left sum_step (values block) s.

(** Every block function loads the registers, adds the values of every block, and saves
    the registers: [w] lanes, loaded at [at_], [chunk] bytes a block. *)
Definition with_registers (beyond : Z -> Z) (w : nat) (at_ : indices) (chunk : Z) (values : bytes -> list reg)
    (st : list Z) (data : bytes) : list Z :=
  let '(ia, ib, ic, id) := at_ in
  let s := (load beyond w st ia, load beyond w st ib, load beyond w st ic, load beyond w st id) in
  let '(a, b, c, d) := fold_left (block_step values) (chunks_exact chunk data) s in
  store (store (store (store st 0 a) 1 b) 2 c) 3 d.

(** ** The values of a block *)
Definition sse2_byteswap_values (block : bytes) : list reg :=
  let v := swap_bytes 4 (int_from Little (ztake 4 block)) in
  let w := swap_bytes 4 (int_from Little (ztake 4 (zdrop 4 block))) in
  [[v; w]].
Definition sse2_native_values (block : bytes) : list reg :=
  let zero := setzero 2 in
  let vwxy := loadu block in
  let vw := unpacklo_epi32 vwxy zero in
  let xy := unpackhi_epi32 vwxy zero in
  [vw; xy].
Definition ssse3_shuffle : reg := set_epi8 [
  0x0c; 0x0d; 0x0e; 0x0f;
  0x08; 0x09; 0x0a; 0x0b;
  0x04; 0x05; 0x06; 0x07;
  0x00; 0x01; 0x02; 0x03].
Definition ssse3_byteswap_values (block : bytes) : list reg :=
  let zero := setzero 2 in
  let vwxy := loadu block in
  let vwxy := shuffle_epi8 vwxy ssse3_shuffle in
  let vw := unpacklo_epi32 vwxy zero in
  let xy := unpackhi_epi32 vwxy zero in
  [vw; xy].
Definition avx2_shuffle : reg := set_epi8 [
  -0x80; -0x80; -0x80; -0x80; 0x08; 0x09; 0x0a; 0x0b;
  -0x80; -0x80; -0x80; -0x80; 0x00; 0x01; 0x02; 0x03;
  -0x80; -0x80; -0x80; -0x80; 0x08; 0x09; 0x0a; 0x0b;
  -0x80; -0x80; -0x80; -0x80; 0x00; 0x01; 0x02; 0x03].
Definition avx2_byteswap_values (block : bytes) : list reg :=
  let vwxy := loadu block in
  let vwxy := cvtepu32_epi64 vwxy in
  [shuffle_epi8 vwxy avx2_shuffle].
Definition avx2_native_values (block : bytes) : list reg :=
  let vwxy := loadu block in
  [cvtepu32_epi64 vwxy].
Definition avx512f_byteswap_values (block : bytes) : list reg :=
  let mask0 := maskz_set1_epi64 0xff 0xff in
  let mask1 := slli_epi64 mask0 8 in
  let mask2 := slli_epi64 mask0 16 in
  let mask3 := slli_epi64 mask0 24 in
  let values := loadu block in
  let values := cvtepu32_epi64 values in
  let s0 := and_epi64 values mask0 in
  let s1 := and_epi64 values mask1 in
  let s2 := and_epi64 values mask2 in
  let s3 := and_epi64 values mask3 in
  let s0 := slli_epi64 s0 24 in
  let s1 := slli_epi64 s1 8 in
  let s2 := srli_epi64 s2 8 in
  let s3 := srli_epi64 s3 24 in
  let s01 := or_epi64 s0 s1 in
  let s23 := or_epi64 s2 s3 in
  [or_epi64 s01 s23].
Definition avx512f_native_values (block : bytes) : list reg :=
  let values := loadu block in
  [cvtepu32_epi64 values].
Definition avx512bw_shuffle : reg := set_epi8 [
  -0x80; -0x80; -0x80; -0x80; 0x18; 0x19; 0x1a; 0x1b;
  -0x80; -0x80; -0x80; -0x80; 0x10; 0x11; 0x12; 0x13;
  -0x80; -0x80; -0x80; -0x80; 0x08; 0x09; 0x0a; 0x0b;
  -0x80; -0x80; -0x80; -0x80; 0x00; 0x01; 0x02; 0x03;
  -0x80; -0x80; -0x80; -0x80; 0x18; 0x19; 0x1a; 0x1b;
  -0x80; -0x80; -0x80; -0x80; 0x10; 0x11; 0x12; 0x13;
  -0x80; -0x80; -0x80; -0x80; 0x08; 0x09; 0x0a; 0x0b;
  -0x80; -0x80; -0x80; -0x80; 0x00; 0x01; 0x02; 0x03].
Definition avx512bw_byteswap_values (block : bytes) : list reg :=
  let values := loadu block in
  let values := cvtepu32_epi64 values in
  [shuffle_epi8 values avx512bw_shuffle].

(** ** The block functions *)
Section block_functions.
Context (beyond : Z -> Z).
Definition update_blocks_sse2_byteswap := with_registers beyond 2 (0, 1, 2, 3)%nat (2 * BLOCK_SIZE) sse2_byteswap_values.
Definition update_blocks_sse2_native := with_registers beyond 2 (0, 1, 2, 3)%nat (4 * BLOCK_SIZE) sse2_native_values.
Definition update_blocks_ssse3_byteswap := with_registers beyond 2 (0, 1, 2, 3)%nat (4 * BLOCK_SIZE) ssse3_byteswap_values.
Definition update_blocks_avx2_byteswap := with_registers beyond 4 (0, 1, 2, 3)%nat (4 * BLOCK_SIZE) avx2_byteswap_values.
Definition update_blocks_avx2_native := with_registers beyond 4 (0, 1, 2, 3)%nat (4 * BLOCK_SIZE) avx2_native_values.
(** The pointer is cast to registers of 64 bytes before [add(16)], [add(32)] and [add(48)]. *)
Definition update_blocks_avx512f_byteswap := with_registers beyond 8 (0, 16, 32, 48)%nat (8 * BLOCK_SIZE) avx512f_byteswap_values.
Definition update_blocks_avx512f_native := with_registers beyond 8 (0, 16, 32, 48)%nat (8 * BLOCK_SIZE) avx512f_native_values.
Definition update_blocks_avx512bw_byteswap := with_registers beyond 8 (0, 16, 32, 48)%nat (8 * BLOCK_SIZE) avx512bw_byteswap_values.
End block_functions.

Definition finish_blocks_octo_stream (st : list Z) : list Z :=
  let a := ztake 8 st in
  let b := ztake 8 (zdrop 8 st) in
  let c := ztake 8 (zdrop 16 st) in
  let d := ztake 8 (zdrop 24 st) in
  let ra := sum_and_mul a 1 in
  let rb := wsub (sum_and_mul b 8) (mul_and_sum a [0; 1; 2; 3; 4; 5; 6; 7]) in
  let rc := wadd (wsub (sum_and_mul c 64) (mul_and_sum b [28; 36; 44; 52; 60; 68; 76; 84]))
              (mul_and_sum a [0; 0; 1; 3; 6; 10; 15; 21]) in
  let rd := wsub (wadd (wsub (sum_and_mul d 512) (mul_and_sum c [448; 512; 576; 640; 704; 768; 832; 896]))
                    (mul_and_sum b [56; 84; 120; 164; 216; 276; 344; 420]))
              (mul_and_sum a [0; 0; 0; 1; 4; 10; 20; 35]) in
  [ra; rb; rc; rd].

(** The contexts with the features of the vector implementations enabled. *)
Definition simd_ctx (beyond : Z -> Z) (i : FletcherImplementation) : option FletcherCtx :=
  let ctx size big little finish :=
    Some {| block_size := size;
            update_blocks o := match o with Big => big beyond | Little => little beyond end;
            finish_blocks := finish |} in
  match i with
  | SSE2 => ctx (4 * BLOCK_SIZE) update_blocks_sse2_byteswap update_blocks_sse2_native finish_blocks_dual_stream
  | SSSE3 => ctx (4 * BLOCK_SIZE) update_blocks_ssse3_byteswap update_blocks_sse2_native finish_blocks_dual_stream
  | AVX2 => ctx (4 * BLOCK_SIZE) update_blocks_avx2_byteswap update_blocks_avx2_native finish_blocks_quad_stream
  | AVX512F => ctx (8 * BLOCK_SIZE) update_blocks_avx512f_byteswap update_blocks_avx512f_native finish_blocks_octo_stream
  | AVX512BW => ctx (8 * BLOCK_SIZE) update_blocks_avx512bw_byteswap update_blocks_avx512f_native finish_blocks_octo_stream
  | _ => None
  end.
Definition simd_hash_parts (beyond : Z -> Z) (i : FletcherImplementation) (o : EndianOrder) (parts : list bytes)
    : option (outcome unit (list Z)) :=
  ctx ← simd_ctx beyond i;
  Some (hash_parts BLOCK_SIZE update_blocks_generic finish_blocks_single_stream BUFFER_LEN STATE_LEN ctx o parts).

(** ** Registers hold lanes *)
Definition lane_a (l : lane) : Z := let '(a, _, _, _) := l in a.
Definition lane_b (l : lane) : Z := let '(_, b, _, _) := l in b.
Definition lane_c (l : lane) : Z := let '(_, _, c, _) := l in c.
Definition lane_d (l : lane) : Z := let '(_, _, _, d) := l in d.
Definition regs_of (ls : list lane) : sums := (map lane_a ls, map lane_b ls, map lane_c ls, map lane_d ls).
Definition regs_list (s : sums) : list Z := let '(a, b, c, d) := s in a ++ b ++ c ++ d.

Lemma sum_step_lanes ls v : sum_step (regs_of ls) v = regs_of (zip_with lane_step ls v).
Proof.
  revert v. induction ls as [|[[[a b] c] d] ls IH]; intros [|x v]; try reflexivity.
  specialize (IH v). unfold regs_of, sum_step, add_epi64 in *. cbn [map zip_with lane_step] in *.
  injection IH as Ha Hb Hc Hd. cbn [lane_a lane_b lane_c lane_d]. unfold wadd. now rewrite Hd, Hc, Hb, Ha.
Qed.

Lemma sums_lanes_fold vs ls : fold_left sum_step vs (regs_of ls) = regs_of (fold_left (zip_with lane_step) vs ls).
Proof. revert ls. induction vs as [|v vs IH]; intros ls; cbn [fold_left]; [done|]. now rewrite sum_step_lanes, IH. Qed.

(** ** A block function on the lanes of a state *)
Section lanes.
Context (beyond : Z -> Z) (w : nat) (chunk : Z) (values : bytes -> list reg).
Hypothesis chunk_pos : 0 < chunk.
Hypothesis values_width : forall block, blen block = chunk -> Forall (fun v => length v = w) (values block).

Definition lanes_step (ls : list lane) (block : bytes) : list lane := fold_left (zip_with lane_step) (values block) ls.

Lemma lanes_step_length ls block : length ls = w -> blen block = chunk -> length (lanes_step ls block) = w.
Proof using values_width.
  intros Hl Hb. pose proof (values_width block Hb) as Hv. unfold lanes_step. revert ls Hl.
  induction Hv as [|v vs Hv _ IH]; intros ls Hl; cbn [fold_left]; [done|]. apply IH. rewrite length_zip_with. lia.
Qed.

Lemma lanes_fold bs ls :
  Forall (fun b => blen b = chunk) bs -> length ls = w ->
  fold_left (block_step values) bs (regs_of ls) = regs_of (fold_left lanes_step bs ls) /\
  length (fold_left lanes_step bs ls) = w.
Proof using values_width.
  intros Hbs. revert ls. induction Hbs as [|b bs Hb _ IH]; intros ls Hl; cbn [fold_left]; [done|].
  unfold block_step at 2. rewrite sums_lanes_fold. apply IH. now apply lanes_step_length.
Qed.

Lemma regs_list_app ls rest :
  regs_list (regs_of ls) ++ rest = map lane_a ls ++ map lane_b ls ++ map lane_c ls ++ map lane_d ls ++ rest.
Proof using. unfold regs_list, regs_of. now rewrite <- !app_assoc. Qed.

Lemma with_registers_lanes ls rest x :
  length ls = w ->
  with_registers beyond w (0, 1, 2, 3)%nat chunk values (regs_list (regs_of ls) ++ rest) x =
  regs_list (regs_of (fold_left lanes_step (chunks_exact chunk x) ls)) ++ rest.
Proof using chunk_pos values_width.
  intros Hl. unfold with_registers. rewrite !regs_list_app.
  destruct (loads4 beyond w (map lane_a ls) (map lane_b ls) (map lane_c ls) (map lane_d ls) rest) as (-> & -> & -> & ->);
    try now rewrite length_map.
  destruct (lanes_fold (chunks_exact chunk x) ls) as [Hf Hw]; [now apply chunks_exact_lengths|done|].
  unfold regs_of in Hf at 1. rewrite Hf. unfold regs_of. apply (stores4 w); now rewrite length_map.
Qed.

(** ** Recombination to one stream *)
Context (finish : list Z -> list Z) (o : EndianOrder) (rest : list Z).
Hypothesis chunk_words : (4 | chunk).
Hypothesis values_words : forall block, blen block = chunk -> bytes_ok block ->
  concat (values block) = map (fun i => word4 o block (Z.of_nat i)) (seq 0 (Z.to_nat (chunk / 4))).
Hypothesis finish_step : forall ls v r, length ls = w -> length v = w ->
  finish (regs_list (regs_of ls) ++ rest) = lane_list r ->
  finish (regs_list (regs_of (zip_with lane_step ls v)) ++ rest) = lane_list (fold_left lane_step v r).

Lemma finish_values vs ls r :
  Forall (fun v => length v = w) vs -> length ls = w ->
  finish (regs_list (regs_of ls) ++ rest) = lane_list r ->
  finish (regs_list (regs_of (fold_left (zip_with lane_step) vs ls)) ++ rest) = lane_list (fold_left lane_step (concat vs) r).
Proof using finish_step.
  intros Hvs. revert ls r. induction Hvs as [|v vs Hv _ IH]; intros ls r Hl Hr; cbn [fold_left concat]; [done|].
  rewrite fold_left_app. apply IH; [rewrite length_zip_with; lia|]. now apply finish_step.
Qed.

Lemma finish_lanes x ls r :
  bytes_ok x -> (chunk | blen x) -> length ls = w ->
  finish (regs_list (regs_of ls) ++ rest) = lane_list r ->
  finish (regs_list (regs_of (fold_left lanes_step (chunks_exact chunk x) ls)) ++ rest) =
  lane_list (fold_left (gen_step o) (chunks_exact 4 x) r).
Proof using chunk_pos chunk_words values_width values_words finish_step.
  intros Hx Hd Hl Hr.
  apply (fold_blocks_sim_on is_byte chunk 4 lanes_step (gen_step o)
    (fun ls r => length ls = w /\ finish (regs_list (regs_of ls) ++ rest) = lane_list r)); auto; [lia|].
  intros ls' t b [Hl' Ht] Hok Hb. split; [now apply lanes_step_length|].
  rewrite (gen_block o (Z.to_nat (chunk / 4)) b).
  - rewrite <- values_words by done. apply finish_values; auto.
  - destruct chunk_words as [q Hq]. rewrite Hb, Hq, Z.div_mul by lia. rewrite Z2Nat.id by lia. lia.
Qed.
End lanes.

Lemma dual_finish_step rest ls v r :
  length ls = 2%nat -> length v = 2%nat ->
  finish_blocks_dual_stream (regs_list (regs_of ls) ++ rest) = lane_list r ->
  finish_blocks_dual_stream (regs_list (regs_of (zip_with lane_step ls v)) ++ rest) = lane_list (fold_left lane_step v r).
Proof.
  destruct ls as [|s0 [|s1 [|]]], v as [|x [|y [|]]]; try discriminate. intros _ _ Hr.
  pose proof (dual_step s0 s1 rest r x y) as Hs. destruct s0 as [[[? ?] ?] ?], s1 as [[[? ?] ?] ?]. now apply Hs.
Qed.
Lemma quad_finish_step rest ls v r :
  length ls = 4%nat -> length v = 4%nat ->
  finish_blocks_quad_stream (regs_list (regs_of ls) ++ rest) = lane_list r ->
  finish_blocks_quad_stream (regs_list (regs_of (zip_with lane_step ls v)) ++ rest) = lane_list (fold_left lane_step v r).
Proof.
  destruct ls as [|s0 [|s1 [|s2 [|s3 [|]]]]], v as [|x0 [|x1 [|x2 [|x3 [|]]]]]; try discriminate. intros _ _ Hr.
  pose proof (quad_step s0 s1 s2 s3 rest r x0 x1 x2 x3) as Hs.
  destruct s0 as [[[? ?] ?] ?], s1 as [[[? ?] ?] ?], s2 as [[[? ?] ?] ?], s3 as [[[? ?] ?] ?]. now apply Hs.
Qed.

(** *** Eight streams

    The recombination is linear in the lanes modulo 2^64: it is compared by its
    coefficients. *)
Fixpoint dot (v m : list Z) : Z :=
  match v, m with
  | x :: v', k :: m' => x * k + dot v' m'
  | _, _ => 0
  end.
Definition ones : list Z := repeat 1 8.

Lemma mul_and_sum_from_eqm v m r : mul_and_sum_from r v m ≡64 r + dot v m.
Proof.
  revert m r. induction v as [|x v IH]; intros [|k m] r; cbn [mul_and_sum_from dot]; try (now rewrite Z.add_0_r).
  rewrite IH. unfold wadd, wmul. rewrite !wrap_eqm. now rewrite Z.add_assoc.
Qed.
Lemma fold_wadd_eqm v r : fold_left wadd v r ≡64 r + dot v (repeat 1 (length v)).
Proof.
  revert r. induction v as [|x v IH]; intros r; cbn [fold_left length repeat dot]; [now rewrite Z.add_0_r|].
  rewrite IH. unfold wadd. rewrite wrap_eqm. now rewrite Z.mul_1_r, Z.add_assoc.
Qed.
Lemma sum_and_mul_eqm v k : length v = 8%nat -> sum_and_mul v k ≡64 dot v ones * k.
Proof. intros Hv. unfold sum_and_mul, wmul. rewrite wrap_eqm, fold_wadd_eqm, Hv. now rewrite Z.add_0_l. Qed.
Lemma mul_and_sum_eqm v m : mul_and_sum v m ≡64 dot v m.
Proof. unfold mul_and_sum. now rewrite mul_and_sum_from_eqm, Z.add_0_l. Qed.
Lemma dot_wadd x y m : length x = length y -> dot (zip_with wadd x y) m ≡64 dot x m + dot y m.
Proof.
  revert y m. induction x as [|a x IH]; intros [|b y] [|k m] Hl; try discriminate Hl; try reflexivity.
  cbn [zip_with dot]. rewrite IH by (cbn in Hl; lia). unfold wadd. rewrite wrap_eqm.
  unfold eqm. f_equal. ring.
Qed.

(** The four words as linear forms of the sums. *)
Definition octo_a (a : list Z) : Z := dot a ones.
Definition octo_b (a b : list Z) : Z := dot b ones * 8 - dot a [0; 1; 2; 3; 4; 5; 6; 7].
Definition octo_c (a b c : list Z) : Z :=
  dot c ones * 64 - dot b [28; 36; 44; 52; 60; 68; 76; 84] + dot a [0; 0; 1; 3; 6; 10; 15; 21].
Definition octo_d (a b c d : list Z) : Z :=
  dot d ones * 512 - dot c [448; 512; 576; 640; 704; 768; 832; 896] + dot b [56; 84; 120; 164; 216; 276; 344; 420]
  - dot a [0; 0; 0; 1; 4; 10; 20; 35].

Lemma finish_octo a b c d rest :
  length a = 8%nat -> length b = 8%nat -> length c = 8%nat -> length d = 8%nat ->
  finish_blocks_octo_stream (a ++ b ++ c ++ d ++ rest) =
  map (wrap 64) [octo_a a; octo_b a b; octo_c a b c; octo_d a b c d].
Proof.
  intros Ha Hb Hc Hd. unfold finish_blocks_octo_stream. rewrite !ztake_take, !zdrop_drop by lia.
  change (Z.to_nat 8) with 8%nat. change (Z.to_nat 16) with 16%nat. change (Z.to_nat 24) with 24%nat.
  rewrite (take_app_length' a) by lia. rewrite !(drop_app_ge a) by lia. rewrite Ha. change (8 - 8)%nat with 0%nat.
  change (16 - 8)%nat with 8%nat. change (24 - 8)%nat with 16%nat. rewrite drop_0, (take_app_length' b) by lia.
  rewrite !(drop_app_ge b) by lia. rewrite Hb. change (8 - 8)%nat with 0%nat. change (16 - 8)%nat with 8%nat.
  rewrite drop_0, (take_app_length' c), (drop_app_ge c), Hc by lia. change (8 - 8)%nat with 0%nat.
  rewrite drop_0, (take_app_length' d) by lia. cbn [map].
  repeat apply f_equal2; try reflexivity; unfold wadd, wsub.
  - unfold sum_and_mul, wmul. apply wrap_eq. rewrite fold_wadd_eqm, Ha, Z.mul_1_r. reflexivity.
  - apply wrap_eq. now rewrite sum_and_mul_eqm, mul_and_sum_eqm by done.
  - apply wrap_eq. rewrite wrap_eqm. now rewrite sum_and_mul_eqm, !mul_and_sum_eqm by done.
  - apply wrap_eq. rewrite !wrap_eqm. now rewrite sum_and_mul_eqm, !mul_and_sum_eqm by done.
Qed.

(** One step of the eight lanes is eight steps of the stream. *)
Lemma octo_linear A B C D v :
  length A = 8%nat -> length B = 8%nat -> length C = 8%nat -> length D = 8%nat -> length v = 8%nat ->
  let A' := zip_with wadd A v in let B' := zip_with wadd B A' in
  let C' := zip_with wadd C B' in let D' := zip_with wadd D C' in
  let a := octo_a A in let b := octo_b A B in let c := octo_c A B C in let d := octo_d A B C D in
  (octo_a A' ≡64 a + weighted (fun _ => 1) v) /\
  (octo_b A' B' ≡64 b + 8 * a + weighted Z.of_nat v) /\
  (octo_c A' B' C' ≡64 c + 8 * b + 36 * a + weighted g2 v) /\
  (octo_d A' B' C' D' ≡64 d + 8 * c + 36 * b + 120 * a + weighted g3 v).
Proof.
  intros HA HB HC HD Hv. cbv zeta.
  assert (HA' : length (zip_with wadd A v) = 8%nat) by (rewrite length_zip_with; lia).
  assert (HB' : length (zip_with wadd B (zip_with wadd A v)) = 8%nat) by (rewrite length_zip_with; lia).
  assert (HC' : length (zip_with wadd C (zip_with wadd B (zip_with wadd A v))) = 8%nat) by (rewrite length_zip_with; lia).
  unfold octo_a, octo_b, octo_c, octo_d, ones.
  rewrite !dot_wadd by congruence.
  destruct A as [|a0 [|a1 [|a2 [|a3 [|a4 [|a5 [|a6 [|a7 [|]]]]]]]]]; try discriminate HA.
  destruct B as [|b0 [|b1 [|b2 [|b3 [|b4 [|b5 [|b6 [|b7 [|]]]]]]]]]; try discriminate HB.
  destruct C as [|c0 [|c1 [|c2 [|c3 [|c4 [|c5 [|c6 [|c7 [|]]]]]]]]]; try discriminate HC.
  destruct D as [|d0 [|d1 [|d2 [|d3 [|d4 [|d5 [|d6 [|d7 [|]]]]]]]]]; try discriminate HD.
  destruct v as [|v0 [|v1 [|v2 [|v3 [|v4 [|v5 [|v6 [|v7 [|]]]]]]]]]; try discriminate Hv.
  clear. cbn [dot repeat weighted length g2 g3]. unfold eqm. splits; f_equal; ring.
Qed.

Lemma octo_finish_step rest ls v r :
  length ls = 8%nat -> length v = 8%nat ->
  finish_blocks_octo_stream (regs_list (regs_of ls) ++ rest) = lane_list r ->
  finish_blocks_octo_stream (regs_list (regs_of (zip_with lane_step ls v)) ++ rest) = lane_list (fold_left lane_step v r).
Proof.
  intros Hl Hv Hr. rewrite <- sum_step_lanes. rewrite regs_list_app in Hr.
  pose proof (octo_linear (map lane_a ls) (map lane_b ls) (map lane_c ls) (map lane_d ls) v) as Hlin.
  rewrite finish_octo in Hr by now rewrite length_map. unfold regs_of, sum_step, regs_list. rewrite <- !app_assoc.
  rewrite finish_octo by (unfold add_epi64; rewrite ?length_zip_with, ?length_map; lia).
  destruct Hlin as (La & Lb & Lc & Ld); try (now rewrite length_map); [exact Hv|].
  change (fun x y => wrap 64 (x + y)) with wadd in *. unfold add_epi64. fold wadd.
  destruct r as [[[a b] c] d]. cbn [map lane_list] in Hr. injection Hr as Ha Hb Hc Hd.
  pose proof (fold_lane_eqm v a b c d) as He. pose proof (fold_lane_fits v (a, b, c, d)) as Hf.
  destruct (fold_left lane_step v (a, b, c, d)) as [[[a' b'] c'] d']. cbn in He. rewrite Hv in He.
  destruct Hf as (Fa & Fb & Fc & Fd); [subst; splits; now apply wrap_fits|].
  cbn [lane_list map]. rewrite <- (wrap_id 64 a'), <- (wrap_id 64 b'), <- (wrap_id 64 c'), <- (wrap_id 64 d') by done.
  destruct He as ((Ea & Eb) & Ec & Ed).
  assert (Ga : a ≡64 octo_a (map lane_a ls)) by (subst; apply wrap_eqm).
  assert (Gb : b ≡64 octo_b (map lane_a ls) (map lane_b ls)) by (subst; apply wrap_eqm).
  assert (Gc : c ≡64 octo_c (map lane_a ls) (map lane_b ls) (map lane_c ls)) by (subst; apply wrap_eqm).
  assert (Gd : d ≡64 octo_d (map lane_a ls) (map lane_b ls) (map lane_c ls) (map lane_d ls)) by (subst; apply wrap_eqm).
  words; apply wrap_eq; [rewrite La, Ea, Ga|rewrite Lb, Eb, Ga, Gb|rewrite Lc, Ec, Ga, Gb, Gc|rewrite Ld, Ed, Ga, Gb, Gc, Gd]; reflexivity.
Qed.

(** ** What the values of a block are *)
Definition values_ok (o : EndianOrder) (w : nat) (chunk : Z) (values : bytes -> list reg) : Prop :=
  (forall block, blen block = chunk -> Forall (fun v => length v = w) (values block)) /\
  (forall block, blen block = chunk -> bytes_ok block -> concat (values block) = map (int_from o) (chunks_exact 4 block)).

Lemma words_list o (k : nat) b :
  blen b = 4 * Z.of_nat k -> map (int_from o) (chunks_exact 4 b) = map (fun i => word4 o b (Z.of_nat i)) (seq 0 k).
Proof.
  revert b. induction k as [|k IH]; intros b Hb; [apply blen_0 in Hb as ->; done|].
  rewrite chunks_exact_cons by lia. cbn [seq map]. rewrite IH by (rewrite blen_zdrop by lia; lia).
  rewrite <- seq_shift, map_map. f_equal.
  - unfold word4. now rewrite Z.mul_0_r, zdrop_0.
  - apply map_ext_in. intros i _. unfold word4. rewrite zdrop_zdrop by lia. do 3 f_equal. lia.
Qed.

Lemma width_loadu block k : blen block = 8 * Z.of_nat k -> length (loadu block) = k.
Proof. intros Hb. apply Nat2Z.inj. unfold loadu. rewrite length_of_bytes, Hb, Z.mul_comm, Z.div_mul by lia. done. Qed.
(** The four words of 16 bytes. *)
Lemma four_words o block : blen block = 16 -> exists a b c d, map (int_from o) (chunks_exact 4 block) = [a; b; c; d].
Proof. intros Hb. rewrite (words_list o 4) by done. repeat eexists. Qed.

Lemma sse2_byteswap_ok : values_ok Big 2 8 sse2_byteswap_values.
Proof.
  split; intros block Hb; [repeat constructor|]. intros Hok. unfold sse2_byteswap_values.
  rewrite !swap_bytes_ok by (auto with zfs; apply (length_blen _ 4); rewrite ?blen_ztake, ?blen_zdrop by lia; lia).
  rewrite (words_list Big 2) by done. cbn [seq map concat app]. unfold word4.
  change (4 * Z.of_nat 0) with 0. rewrite zdrop_0. reflexivity.
Qed.
Lemma sse2_native_ok : values_ok Little 2 16 sse2_native_values.
Proof.
  split; intros block Hb.
  - repeat constructor; [apply length_unpacklo|apply length_unpackhi]; first [apply width_loadu; lia|done].
  - intros Hok. unfold sse2_native_values, loadu.
    destruct (four_words Little block Hb) as (a & b & c & d & Hw). rewrite Hw.
    destruct (unpack_zero (of_bytes block) a b c d) as [-> ->]; [|done].
    rewrite to_epi32_of_bytes by (auto; rewrite Hb; now exists 2). exact Hw.
Qed.
Lemma ssse3_byteswap_ok : values_ok Big 2 16 ssse3_byteswap_values.
Proof.
  split; intros block Hb.
  - assert (length (shuffle_epi8 (loadu block) ssse3_shuffle) = (2 * 1)%nat)
      by (apply length_shuffle; [apply width_loadu; lia|reflexivity]).
    repeat constructor; [apply length_unpacklo|apply length_unpackhi]; done.
  - intros Hok. unfold ssse3_byteswap_values, loadu.
    destruct (four_words Big block Hb) as (a & b & c & d & Hw). rewrite Hw.
    destruct (unpack_zero (shuffle_epi8 (of_bytes block) ssse3_shuffle) a b c d) as [-> ->]; [|done].
    rewrite (shuffle_epi8_parts block _ swaps4 [[3; 2; 1; 0; 7; 6; 5; 4; 11; 10; 9; 8; 15; 14; 13; 12]]);
      [|done|exact Hb|reflexivity|repeat constructor; intros; now apply mask4].
    assert (Hd : (16 | blen block)) by (rewrite Hb; apply Z.divide_refl).
    destruct (swaps_ok swaps4 block swaps4_ok Hok Hd) as [H1 H2].
    rewrite to_epi32_of_bytes by (auto; rewrite H2, Hb; now exists 2). rewrite swaps4_words, map_map by done. exact Hw.
Qed.

Lemma cvt_words block : bytes_ok block -> (8 | blen block) -> cvtepu32_epi64 (loadu block) = of_bytes (widen block).
Proof. intros Hok Hd. unfold cvtepu32_epi64, loadu. now rewrite to_epi32_of_bytes, of_bytes_widen. Qed.
Lemma width_cvt block k : blen block = 8 * Z.of_nat k -> length (cvtepu32_epi64 (loadu block)) = (2 * k)%nat.
Proof. intros Hb. unfold cvtepu32_epi64. now rewrite length_to_epi32, (width_loadu block k). Qed.

Lemma cvt_native_ok k : values_ok Little (2 * k) (8 * Z.of_nat k) (fun block => [cvtepu32_epi64 (loadu block)]).
Proof.
  split; intros block Hb; [repeat constructor; now apply width_cvt|]. intros Hok. cbn [concat].
  rewrite app_nil_r, cvt_words, of_bytes_widen by (auto; rewrite Hb; exists (Z.of_nat k); lia). done.
Qed.
Lemma avx2_native_ok : values_ok Little 4 16 avx2_native_values.
Proof. exact (cvt_native_ok 2). Qed.
Lemma avx512f_native_ok : values_ok Little 8 32 avx512f_native_values.
Proof. exact (cvt_native_ok 4). Qed.

(** A shuffle of the zero-extended words. *)
Lemma cvt_shuffle_ok k ms masks :
  blen masks = Z.of_nat k -> length ms = (2 * k)%nat -> bytes_of ms = concat masks ->
  Forall (fun m => blen m = 16 /\ forall l, blen l = 16 -> shuffle16 l m = swap_wide l) masks ->
  values_ok Big (2 * k) (8 * Z.of_nat k) (fun block => [shuffle_epi8 (cvtepu32_epi64 (loadu block)) ms]).
Proof.
  intros Hk Hl Hms Hm. split; intros block Hb.
  - repeat constructor. apply length_shuffle; [now apply width_cvt|done].
  - intros Hok. assert (Hd : (8 | blen block)) by (rewrite Hb; exists (Z.of_nat k); lia).
    cbn [concat]. rewrite app_nil_r, cvt_words by done. destruct (widen_ok block Hok Hd) as [H1 H2].
    rewrite (shuffle_epi8_parts _ ms swap_wide masks) by (auto; lia). now apply swap_wide_words.
Qed.
Lemma avx2_byteswap_ok : values_ok Big 4 16 avx2_byteswap_values.
Proof.
  pose (m := [3; 2; 1; 0; 128; 128; 128; 128; 11; 10; 9; 8; 128; 128; 128; 128]).
  apply (cvt_shuffle_ok 2 avx2_shuffle [m; m]); [done|done|reflexivity|].
  repeat constructor; intros; apply mask_wide; auto.
Qed.
Lemma avx512bw_byteswap_ok : values_ok Big 8 32 avx512bw_byteswap_values.
Proof.
  pose (m := [3; 2; 1; 0; 128; 128; 128; 128; 11; 10; 9; 8; 128; 128; 128; 128]).
  pose (n := [19; 18; 17; 16; 128; 128; 128; 128; 27; 26; 25; 24; 128; 128; 128; 128]).
  apply (cvt_shuffle_ok 4 avx512bw_shuffle [m; n; m; n]); [done|done|reflexivity|].
  repeat constructor; intros; apply mask_wide; auto.
Qed.

Lemma swap32_words l :
  (4 | blen l) -> bytes_ok l -> map (fun c => swap32_by_masks (le_combine c)) (chunks_exact 4 l) = map (int_from Big) (chunks_exact 4 l).
Proof.
  revert l. apply (chunk_ind 4 (fun l => bytes_ok l -> _)); [lia|done|]. intros c l Hc IH Hok. apply Forall_app in Hok as [H1 H2].
  rewrite (chunks_exact_app 4 c), !map_app, IH by (auto; try lia; rewrite Hc; apply Z.divide_refl). f_equal.
  apply (length_blen c 4) in Hc. explode c Hc. rewrite !Forall_cons in H1. destruct H1 as (?&?&?&?&_).
  cbn [map chunks_exact]. change (chunks_exact 4 [b; b0; b1; b2]) with [[b; b0; b1; b2]]. cbn [map]. now rewrite swap32_ok.
Qed.
Lemma avx512f_byteswap_ok : values_ok Big 8 32 avx512f_byteswap_values.
Proof.
  assert (Hmap : forall block, blen block = 32 -> avx512f_byteswap_values block = [map swap32_by_masks (cvtepu32_epi64 (loadu block))]).
  { intros block Hb. unfold avx512f_byteswap_values. pose proof (width_cvt block 4 Hb) as Hw. cbn [Nat.mul Nat.add] in Hw.
    set (r := cvtepu32_epi64 (loadu block)) in *. clearbody r. explode r Hw. reflexivity. }
  split; intros block Hb; rewrite Hmap by done.
  - repeat constructor. rewrite length_map. now apply (width_cvt block 4).
  - intros Hok. cbn [concat]. assert (Hd : (8 | blen block)) by (rewrite Hb; now exists 4).
    rewrite app_nil_r, cvt_words, of_bytes_widen, map_map by done. apply swap32_words; [rewrite Hb; now exists 8|done].
Qed.

(** ** The digest *)
Definition zero_lanes (w : nat) : list lane := repeat (0, 0, 0, 0) w.

Section digest.
Context (beyond : Z -> Z) (w : nat) (chunk : Z) (values : bytes -> list reg) (o : EndianOrder) (k : nat).
Hypothesis chunk_is : chunk = 4 * Z.of_nat k.
Hypothesis k_pos : (0 < k)%nat.
Hypothesis Hvalues : values_ok o w chunk values.
Context (rest : list Z).
Hypothesis state_is : zrep STATE_LEN 0 = regs_list (regs_of (zero_lanes w)) ++ rest.

Lemma digest_lanes x :
  with_registers beyond w (0, 1, 2, 3)%nat chunk values (zrep STATE_LEN 0) x =
  regs_list (regs_of (fold_left (lanes_step values) (chunks_exact chunk x) (zero_lanes w))) ++ rest.
Proof using All.
  rewrite state_is. apply (with_registers_lanes beyond w); [lia|apply Hvalues|apply repeat_length].
Qed.
Lemma digest_app x y :
  (chunk | blen x) ->
  with_registers beyond w (0, 1, 2, 3)%nat chunk values (zrep STATE_LEN 0) (x ++ y) =
  with_registers beyond w (0, 1, 2, 3)%nat chunk values (with_registers beyond w (0, 1, 2, 3)%nat chunk values (zrep STATE_LEN 0) x) y.
Proof using All.
  intros Hx. rewrite !digest_lanes. rewrite chunks_exact_app, fold_left_app by (done || lia).
  symmetry. apply (with_registers_lanes beyond w); [lia|apply Hvalues|].
  apply (lanes_fold w chunk values); [apply Hvalues|apply chunks_exact_lengths; lia|apply repeat_length].
Qed.
Lemma digest_nil : with_registers beyond w (0, 1, 2, 3)%nat chunk values (zrep STATE_LEN 0) [] = zrep STATE_LEN 0.
Proof using All. rewrite digest_lanes, state_is, chunks_exact_short by (change (blen []) with 0; lia). done. Qed.

Context (finish : list Z -> list Z).
Hypothesis finish_step : forall ls v r, length ls = w -> length v = w ->
  finish (regs_list (regs_of ls) ++ rest) = lane_list r ->
  finish (regs_list (regs_of (zip_with lane_step ls v)) ++ rest) = lane_list (fold_left lane_step v r).
Hypothesis finish_zero : finish (zrep STATE_LEN 0) = [0; 0; 0; 0].

Lemma digest_finish x :
  bytes_ok x -> (chunk | blen x) ->
  finish (with_registers beyond w (0, 1, 2, 3)%nat chunk values (zrep STATE_LEN 0) x) = update_blocks_generic o [0; 0; 0; 0] x.
Proof using All.
  intros Hx Hd. rewrite digest_lanes. destruct Hvalues as [Hw Hv].
  transitivity (lane_list (fold_left (gen_step o) (chunks_exact 4 x) (0, 0, 0, 0))).
  2: { rewrite <- (app_nil_r [0; 0; 0; 0]), <- zero_words, gen_list. now rewrite app_nil_r. }
  apply (finish_lanes w chunk values ltac:(lia) Hw finish o rest); auto.
  - exists (Z.of_nat k). lia.
  - intros block Hb Hok. rewrite Hv by done. replace (chunk / 4) with (Z.of_nat k).
    + rewrite Nat2Z.id. apply words_list. lia.
    + rewrite chunk_is, Z.mul_comm, Z.div_mul by lia. done.
  - apply repeat_length.
  - now rewrite <- state_is.
Qed.

Context (ctx : FletcherCtx).
Hypothesis ctx_update : update_blocks ctx o = with_registers beyond w (0, 1, 2, 3)%nat chunk values.
Hypothesis ctx_finish : finish_blocks ctx = finish.
Hypothesis ctx_size : 0 < block_size ctx <= BUFFER_LEN /\ (chunk | block_size ctx).

Lemma digest_parts parts :
  bytes_ok (concat parts) ->
  hash_parts BLOCK_SIZE update_blocks_generic finish_blocks_single_stream BUFFER_LEN STATE_LEN ctx o parts =
  Ok (one_pass o (concat parts)).
Proof using All.
  destruct ctx_size as [[Hpos Hle] Hdiv]. intros Hok.
  assert (Htrans : forall n, (block_size ctx | n) -> (chunk | n)) by (intros n; now apply Z.divide_trans).
  rewrite hash_parts_gen with (P := is_byte); auto using generic_app, generic_short, generic_length.
  - done.
  - apply (Z.divide_trans _ chunk); [|done]. exists (Z.of_nat k). change BLOCK_SIZE with 4. lia.
  - intros x y Hx. rewrite !ctx_update. apply digest_app. now apply Htrans.
  - rewrite ctx_update. apply digest_nil.
  - intros x y Hx. intros. apply single_id. now rewrite generic_length.
  - intros x Hx Hd. rewrite ctx_update, ctx_finish. apply digest_finish; auto.
Qed.
End digest.

(** C35: The SSE2, SSSE3 and AVX2 implementations, in either byte order and with the input
    split in any way over the [update] calls, give the digest of the single pass over the
    input, whatever the memory behind the state holds. *)
Theorem fletcher4_simd_any_split (beyond : Z -> Z) (i : FletcherImplementation) (o : EndianOrder) (parts : list bytes) :
  i = SSE2 \/ i = SSSE3 \/ i = AVX2 -> bytes_ok (concat parts) ->
  simd_hash_parts beyond i o parts = Some (Ok (one_pass o (concat parts))).
Proof.
  intros Hi Hok. unfold simd_hash_parts. destruct Hi as [-> | [-> | ->]]; cbn [simd_ctx mbind option_bind]; f_equal; destruct o.
  - apply (digest_parts beyond 2 8 sse2_byteswap_values Big 2 eq_refl ltac:(lia) sse2_byteswap_ok (zrep 24 0) eq_refl
      finish_blocks_dual_stream (dual_finish_step _) eq_refl); [done|done|split; [done|now exists 2]|done].
  - apply (digest_parts beyond 2 16 sse2_native_values Little 4 eq_refl ltac:(lia) sse2_native_ok (zrep 24 0) eq_refl
      finish_blocks_dual_stream (dual_finish_step _) eq_refl); [done|done|split; [done|now exists 1]|done].
  - apply (digest_parts beyond 2 16 ssse3_byteswap_values Big 4 eq_refl ltac:(lia) ssse3_byteswap_ok (zrep 24 0) eq_refl
      finish_blocks_dual_stream (dual_finish_step _) eq_refl); [done|done|split; [done|now exists 1]|done].
  - apply (digest_parts beyond 2 16 sse2_native_values Little 4 eq_refl ltac:(lia) sse2_native_ok (zrep 24 0) eq_refl
      finish_blocks_dual_stream (dual_finish_step _) eq_refl); [done|done|split; [done|now exists 1]|done].
  - apply (digest_parts beyond 4 16 avx2_byteswap_values Big 4 eq_refl ltac:(lia) avx2_byteswap_ok (zrep 16 0) eq_refl
      finish_blocks_quad_stream (quad_finish_step _) eq_refl); [done|done|split; [done|now exists 1]|done].
  - apply (digest_parts beyond 4 16 avx2_native_values Little 4 eq_refl ltac:(lia) avx2_native_ok (zrep 16 0) eq_refl
      finish_blocks_quad_stream (quad_finish_step _) eq_refl); [done|done|split; [done|now exists 1]|done].
Qed.
Lemma fletcher4_simd_any_split_witness :
  simd_hash_parts (fun _ => 7) AVX2 Big [[1; 2; 3]; [4; 5; 6; 7; 8; 9; 10; 11; 12; 13; 14; 15; 16; 17; 18; 19; 20]] =
  Some (Ok (one_pass Big [1; 2; 3; 4; 5; 6; 7; 8; 9; 10; 11; 12; 13; 14; 15; 16; 17; 18; 19; 20])).
Proof.
  apply (fletcher4_simd_any_split (fun _ => 7) AVX2 Big [[1; 2; 3]; [4; 5; 6; 7; 8; 9; 10; 11; 12; 13; 14; 15; 16; 17; 18; 19; 20]]).
  - auto.
  - cbn [concat app]. rewrite !Forall_cons. unfold is_byte. splits; try lia. constructor.
Defined.

(** *** AVX-512 *)
Lemma load_zero w n i : load (fun _ => 0) w (zrep n 0) i = repeat 0 w.
Proof.
  unfold load. transitivity (map (fun _ : nat => 0) (seq 0 w)).
  - apply map_ext. intros j. destruct (zrep n 0 !! (i * w + j)%nat) as [z|] eqn:E; [|reflexivity].
    unfold zrep in E. now apply lookup_replicate in E as [-> _].
  - generalize 0%nat. induction w as [|w IH]; intros k; cbn [seq map repeat]; [done|]. now rewrite IH.
Qed.
Lemma with_registers_zero w at_ chunk values x :
  with_registers (fun _ => 0) w at_ chunk values (zrep STATE_LEN 0) x =
  with_registers (fun _ => 0) w (0, 1, 2, 3)%nat chunk values (zrep STATE_LEN 0) x.
Proof. destruct at_ as [[[ia ib] ic] id]. unfold with_registers. now rewrite !load_zero. Qed.

Lemma avx512_finish values o x :
  values_ok o 8 32 values -> bytes_ok x -> (32 | blen x) ->
  finish_blocks_octo_stream (with_registers (fun _ => 0) 8 (0, 16, 32, 48)%nat 32 values (zrep STATE_LEN 0) x) = one_pass o x.
Proof.
  intros Hv Hx Hd. rewrite with_registers_zero.
  apply (digest_finish (fun _ => 0) 8 32 values o 8 eq_refl ltac:(lia) Hv [] eq_refl finish_blocks_octo_stream
    (octo_finish_step []) eq_refl); done.
Qed.

(** C39: The AVX-512 functions load three of their four registers at 16, 32 and 48 registers
    from the start of a state that holds four.  Where the memory there happens to be zero,
    whole blocks that are absorbed in one call give the digest of the single pass; a second
    call forgets three of the four sums of the first, in either byte order. *)
Theorem fletcher4_avx512_forgets (i : FletcherImplementation) (o : EndianOrder) :
  i = AVX512F \/ i = AVX512BW ->
  exists ctx, simd_ctx (fun _ => 0) i = Some ctx /\
    (forall x, bytes_ok x -> (block_size ctx | blen x) ->
       finish_blocks ctx (update_blocks ctx o (zrep STATE_LEN 0) x) = one_pass o x) /\
    exists x y, bytes_ok (x ++ y) /\ simd_hash_parts (fun _ => 0) i o [x; y] <> Some (Ok (one_pass o (x ++ y))).
Proof.
  intros Hi. destruct Hi as [-> | ->]; eexists; (split; [reflexivity|]); (split;
    [intros x Hx Hd; destruct o; apply avx512_finish;
       auto using avx512f_byteswap_ok, avx512f_native_ok, avx512bw_byteswap_ok
    |exists (zrep 32 1), (zrep 32 1); split;
       [apply Forall_app_2; apply Forall_replicate; unfold is_byte; lia|destruct o; vm_compute; discriminate]]).
Qed.
Lemma fletcher4_avx512_forgets_witness :
  exists ctx, simd_ctx (fun _ => 0) AVX512F = Some ctx /\
    (forall x, bytes_ok x -> (block_size ctx | blen x) ->
       finish_blocks ctx (update_blocks ctx Big (zrep STATE_LEN 0) x) = one_pass Big x) /\
    exists x y, bytes_ok (x ++ y) /\ simd_hash_parts (fun _ => 0) AVX512F Big [x; y] <> Some (Ok (one_pass Big (x ++ y))).
Proof. apply (fletcher4_avx512_forgets AVX512F Big). now left. Defined.
End Simd4.

Module Simd2.
Import Fletcher2.

(** The sums of the two words of every stream, and the sums of those. *)
Definition sums2 : Type := (reg * reg)%type.
Definition block_step2 (values : bytes -> reg) (s : sums2) (block : bytes) : sums2 :=
  let '(ab, cd) := s in
  let ab := add_epi64 ab (values block) in
  let cd := add_epi64 cd ab in
  (ab, cd).
Definition with_registers2 (beyond : Z -> Z) (w : nat) (at_ : nat * nat) (chunk : Z) (values : bytes -> reg)
    (st : list Z) (data : bytes) : list Z :=
  let s := (load beyond w st (fst at_), load beyond w st (snd at_)) in
  let '(ab, cd) := fold_left (block_step2 values) (chunks_exact chunk data) s in
  store (store st 0 ab) 1 cd.

(** ** The values of a block *)
Definition sse2_byteswap_values (block : bytes) : reg :=
  let v := swap_bytes 8 (int_from Little (ztake 8 block)) in
  let w := swap_bytes 8 (int_from Little (ztake 8 (zdrop 8 block))) in
  [v; w].
Definition native_values (block : bytes) : reg := loadu block.
Definition ssse3_shuffle : reg := set_epi8 [
  0x08; 0x09; 0x0a; 0x0b; 0x0c; 0x0d; 0x0e; 0x0f;
  0x00; 0x01; 0x02; 0x03; 0x04; 0x05; 0x06; 0x07].
Definition ssse3_byteswap_values (block : bytes) : reg :=
  let vw := loadu block in
  shuffle_epi8 vw ssse3_shuffle.
Definition avx2_shuffle : reg := set_epi8 [
  0x08; 0x09; 0x0a; 0x0b; 0x0c; 0x0d; 0x0e; 0x0f;
  0x00; 0x01; 0x02; 0x03; 0x04; 0x05; 0x06; 0x07;
  0x08; 0x09; 0x0a; 0x0b; 0x0c; 0x0d; 0x0e; 0x0f;
  0x00; 0x01; 0x02; 0x03; 0x04; 0x05; 0x06; 0x07].
Definition avx2_byteswap_values (block : bytes) : reg :=
  let vwxy := loadu block in
  shuffle_epi8 vwxy avx2_shuffle.
Definition avx512f_byteswap_values (block : bytes) : reg :=
  let mask0 := maskz_set1_epi64 0xff 0xff in
  let mask1 := slli_epi64 mask0 8 in
  let mask2 := slli_epi64 mask0 16 in
  let mask3 := slli_epi64 mask0 24 in
  let mask4 := slli_epi64 mask0 32 in
  let mask5 := slli_epi64 mask0 40 in
  let mask6 := slli_epi64 mask0 48 in
  let mask7 := slli_epi64 mask0 56 in
  let values := loadu block in
  let s0 := and_epi64 values mask0 in
  let s1 := and_epi64 values mask1 in
  let s2 := and_epi64 values mask2 in
  let s3 := and_epi64 values mask3 in
  let s4 := and_epi64 values mask4 in
  let s5 := and_epi64 values mask5 in
  let s6 := and_epi64 values mask6 in
  let s7 := and_epi64 values mask7 in
  let s0 := slli_epi64 s0 56 in
  let s1 := slli_epi64 s1 40 in
  let s2 := slli_epi64 s2 24 in
  let s3 := slli_epi64 s3 8 in
  let s4 := srli_epi64 s4 8 in
  let s5 := srli_epi64 s5 24 in
  let s6 := srli_epi64 s6 40 in
  let s7 := srli_epi64 s7 56 in
  let s01 := or_epi64 s0 s1 in
  let s23 := or_epi64 s2 s3 in
  let s45 := or_epi64 s4 s5 in
  let s67 := or_epi64 s6 s7 in
  let s03 := or_epi64 s01 s23 in
  let s47 := or_epi64 s45 s67 in
  or_epi64 s03 s47.
Definition avx512bw_shuffle : reg := set_epi8 [
  0x18; 0x19; 0x1a; 0x1b; 0x1c; 0x1d; 0x1e; 0x1f;
  0x10; 0x11; 0x12; 0x13; 0x14; 0x15; 0x16; 0x17;
  0x08; 0x09; 0x0a; 0x0b; 0x0c; 0x0d; 0x0e; 0x0f;
  0x00; 0x01; 0x02; 0x03; 0x04; 0x05; 0x06; 0x07;
  0x18; 0x19; 0x1a; 0x1b; 0x1c; 0x1d; 0x1e; 0x1f;
  0x10; 0x11; 0x12; 0x13; 0x14; 0x15; 0x16; 0x17;
  0x08; 0x09; 0x0a; 0x0b; 0x0c; 0x0d; 0x0e; 0x0f;
  0x00; 0x01; 0x02; 0x03; 0x04; 0x05; 0x06; 0x07].
Definition avx512bw_byteswap_values (block : bytes) : reg :=
  let values := loadu block in
  shuffle_epi8 values avx512bw_shuffle.

(** ** The block functions *)
Section block_functions.
Context (beyond : Z -> Z).
Definition update_blocks_sse2_byteswap := with_registers2 beyond 2 (0, 1)%nat BLOCK_SIZE sse2_byteswap_values.
Definition update_blocks_sse2_native := with_registers2 beyond 2 (0, 1)%nat BLOCK_SIZE native_values.
Definition update_blocks_ssse3_byteswap := with_registers2 beyond 2 (0, 1)%nat BLOCK_SIZE ssse3_byteswap_values.
Definition update_blocks_avx2_byteswap := with_registers2 beyond 4 (0, 1)%nat (2 * BLOCK_SIZE) avx2_byteswap_values.
Definition update_blocks_avx2_native := with_registers2 beyond 4 (0, 1)%nat (2 * BLOCK_SIZE) native_values.
Definition update_blocks_avx512f_byteswap := with_registers2 beyond 8 (0, 16)%nat (4 * BLOCK_SIZE) avx512f_byteswap_values.
Definition update_blocks_avx512f_native := with_registers2 beyond 8 (0, 16)%nat (4 * BLOCK_SIZE) native_values.
Definition update_blocks_avx512bw_byteswap := with_registers2 beyond 8 (0, 16)%nat (4 * BLOCK_SIZE) avx512bw_byteswap_values.
End block_functions.

Definition simd_ctx (beyond : Z -> Z) (i : FletcherImplementation) : option FletcherCtx :=
  let ctx size big little finish :=
    Some {| block_size := size;
            update_blocks o := match o with Big => big beyond | Little => little beyond end;
            finish_blocks := finish |} in
  match i with
  | SSE2 => ctx BLOCK_SIZE update_blocks_sse2_byteswap update_blocks_sse2_native finish_blocks_single_stream
  | SSSE3 => ctx BLOCK_SIZE update_blocks_ssse3_byteswap update_blocks_sse2_native finish_blocks_single_stream
  | AVX2 => ctx (2 * BLOCK_SIZE) update_blocks_avx2_byteswap update_blocks_avx2_native finish_blocks_dual_stream
  | AVX512F => ctx (4 * BLOCK_SIZE) update_blocks_avx512f_byteswap update_blocks_avx512f_native finish_blocks_quad_stream
  | AVX512BW => ctx (4 * BLOCK_SIZE) update_blocks_avx512bw_byteswap update_blocks_avx512f_native finish_blocks_quad_stream
  | _ => None
  end.
Definition simd_hash_parts (beyond : Z -> Z) (i : FletcherImplementation) (o : EndianOrder) (parts : list bytes)
    : option (outcome unit (list Z)) :=
  ctx ← simd_ctx beyond i;
  Some (hash_parts BLOCK_SIZE update_blocks_generic finish_blocks_single_stream BUFFER_LEN STATE_LEN ctx o parts).

(** ** Registers hold lanes *)
Fixpoint pairs_of (v : reg) : list (Z * Z) :=
  match v with x :: y :: v' => (x, y) :: pairs_of v' | _ => [] end.
Definition flatten (ps : list (Z * Z)) : reg := flat_map (fun p => [fst p; snd p]) ps.
Definition ab_of (l : lane) : Z * Z := let '(a, b, _, _) := l in (a, b).
Definition cd_of (l : lane) : Z * Z := let '(_, _, c, d) := l in (c, d).
Definition regs2_of (ls : list lane) : sums2 := (flatten (map ab_of ls), flatten (map cd_of ls)).
Definition regs2_list (s : sums2) : list Z := fst s ++ snd s.

Lemma pairs_flat v k : length v = (2 * k)%nat -> flatten (pairs_of v) = v /\ length (pairs_of v) = k.
Proof.
  revert v. induction k as [|k IH]; intros v Hv; [now apply nil_length_inv in Hv as ->|].
  destruct v as [|x [|y v]]; try (cbn in Hv; lia). destruct (IH v) as [H1 H2]; [cbn in Hv; lia|].
  unfold flatten in *. cbn [pairs_of flat_map fst snd app length]. now rewrite H1, H2.
Qed.
Lemma length_flatten ps : length (flatten ps) = (2 * length ps)%nat.
Proof. unfold flatten. induction ps as [|p ps IH]; cbn [flat_map app length]; lia. Qed.

Lemma block_step2_lanes values block ls ps :
  values block = flatten ps -> block_step2 values (regs2_of ls) block = regs2_of (zip_with lane_step ls ps).
Proof.
  intros Hv. unfold block_step2, regs2_of. rewrite Hv. clear Hv. unfold add_epi64.
  revert ps. induction ls as [|[[[a b] c] d] ls IH]; intros [|[x y] ps]; try reflexivity.
  specialize (IH ps). cbn [map zip_with lane_step ab_of cd_of flatten flat_map fst snd app] in *.
  unfold flatten in *. injection IH as Hab Hcd. unfold wadd. now rewrite Hcd, Hab.
Qed.

(** ** What the values of a block are *)
Definition values2_ok (o : EndianOrder) (k : nat) (values : bytes -> reg) : Prop :=
  forall block, blen block = 16 * Z.of_nat k ->
    length (values block) = (2 * k)%nat /\ (bytes_ok block -> values block = map (int_from o) (chunks_exact 8 block)).

Lemma pairs_words o (k : nat) b :
  blen b = 16 * Z.of_nat k ->
  map (int_from o) (chunks_exact 8 b) = flatten (map (fun i => pair8 o b (Z.of_nat i)) (seq 0 k)).
Proof.
  revert b. induction k as [|k IH]; intros b Hb; [apply blen_0 in Hb as ->; done|].
  rewrite chunks_exact_cons by lia. rewrite chunks_exact_cons by (rewrite ?blen_zdrop by lia; lia).
  rewrite zdrop_zdrop by lia. cbn [seq map]. rewrite IH by (rewrite blen_zdrop by lia; lia).
  unfold flatten. cbn [flat_map app]. rewrite <- seq_shift, map_map. unfold pair8 at 2 3. cbn [fst snd].
  apply f_equal2; [unfold word8; now rewrite zdrop_0|]. apply f_equal2; [done|]. apply f_equal. apply map_ext. intros i.
  unfold pair8, word8. rewrite !zdrop_zdrop by lia. f_equal; do 3 f_equal; lia.
Qed.

Lemma sse2_byteswap2_ok : values2_ok Big 1 sse2_byteswap_values.
Proof.
  intros block Hb. split; [reflexivity|]. intros Hok. unfold sse2_byteswap_values.
  rewrite !swap_bytes_ok by (auto with zfs; apply (length_blen _ 8); rewrite ?blen_ztake, ?blen_zdrop by lia; lia).
  rewrite chunks_exact_cons by lia. rewrite chunks_exact_cons by (rewrite ?blen_zdrop by lia; lia).
  rewrite zdrop_zdrop, (chunks_exact_short 8) by (rewrite ?blen_zdrop by lia; lia).
  cbn [map]. now rewrite (ztake_ge 8 (zdrop 8 block)) by (rewrite blen_zdrop by lia; lia).
Qed.
Lemma native2_ok k : values2_ok Little k native_values.
Proof.
  intros block Hb. split; [apply Simd4.width_loadu; lia|]. intros Hok. reflexivity.
Qed.
Lemma shuffle2_ok k ms masks :
  blen masks = Z.of_nat k -> length ms = (2 * k)%nat -> bytes_of ms = concat masks ->
  Forall (fun m => blen m = 16 /\ forall l, blen l = 16 -> shuffle16 l m = swaps8 l) masks ->
  values2_ok Big k (fun block => shuffle_epi8 (loadu block) ms).
Proof.
  intros Hk Hl Hms Hm block Hb. split; [apply length_shuffle; [apply Simd4.width_loadu; lia|done]|].
  intros Hok. unfold loadu. rewrite (shuffle_epi8_parts _ ms swaps8 masks) by (auto; lia).
  apply swaps8_words. rewrite Hb. exists (Z.of_nat k). lia.
Qed.
Lemma ssse3_byteswap2_ok : values2_ok Big 1 ssse3_byteswap_values.
Proof.
  apply (shuffle2_ok 1 ssse3_shuffle [[7; 6; 5; 4; 3; 2; 1; 0; 15; 14; 13; 12; 11; 10; 9; 8]]); [done|done|reflexivity|].
  repeat constructor; intros; apply mask8; auto.
Qed.
Lemma avx2_byteswap2_ok : values2_ok Big 2 avx2_byteswap_values.
Proof.
  pose (m := [7; 6; 5; 4; 3; 2; 1; 0; 15; 14; 13; 12; 11; 10; 9; 8]).
  apply (shuffle2_ok 2 avx2_shuffle [m; m]); [done|done|reflexivity|]. repeat constructor; intros; apply mask8; auto.
Qed.
Lemma avx512bw_byteswap2_ok : values2_ok Big 4 avx512bw_byteswap_values.
Proof.
  pose (m := [7; 6; 5; 4; 3; 2; 1; 0; 15; 14; 13; 12; 11; 10; 9; 8]).
  pose (n := [23; 22; 21; 20; 19; 18; 17; 16; 31; 30; 29; 28; 27; 26; 25; 24]).
  apply (shuffle2_ok 4 avx512bw_shuffle [m; n; m; n]); [done|done|reflexivity|]. repeat constructor; intros; apply mask8; auto.
Qed.
Lemma swap64_words l :
  (8 | blen l) -> bytes_ok l -> map (fun c => swap64_by_masks (le_combine c)) (chunks_exact 8 l) = map (int_from Big) (chunks_exact 8 l).
Proof.
  revert l. apply (chunk_ind 8 (fun l => bytes_ok l -> _)); [lia|done|]. intros c l Hc IH Hok. apply Forall_app in Hok as [H1 H2].
  rewrite (chunks_exact_app 8 c), !map_app, IH by (auto; try lia; rewrite Hc; apply Z.divide_refl). f_equal.
  eight c Hc. rewrite !Forall_cons in H1. destruct H1 as (?&?&?&?&?&?&?&?&_).
  change (chunks_exact 8 [b; b0; b1; b2; b3; b4; b5; b6]) with [[b; b0; b1; b2; b3; b4; b5; b6]]. cbn [map]. now rewrite swap64_ok.
Qed.
Lemma avx512f_byteswap2_ok : values2_ok Big 4 avx512f_byteswap_values.
Proof.
  intros block Hb. assert (Hmap : avx512f_byteswap_values block = map swap64_by_masks (loadu block)).
  { unfold avx512f_byteswap_values. assert (Hw : length (loadu block) = 8%nat) by (apply Simd4.width_loadu; lia).
    set (r := loadu block) in *. clearbody r. explode r Hw. reflexivity. }
  rewrite Hmap, length_map. split; [apply Simd4.width_loadu; lia|]. intros Hok. unfold loadu, of_bytes. rewrite map_map.
  apply swap64_words; [rewrite Hb; now exists 8|done].
Qed.

(** ** A block function on the lanes of a state, and the digest *)
Definition zero_lanes2 (k : nat) : list lane := repeat (0, 0, 0, 0) k.

Section digest.
Context (beyond : Z -> Z) (k : nat) (values : bytes -> reg) (o : EndianOrder).
Hypothesis k_pos : (0 < k)%nat.
Hypothesis Hvalues : values2_ok o k values.
Abbreviation chunk := (16 * Z.of_nat k).
Abbreviation run := (with_registers2 beyond (2 * k) (0, 1)%nat chunk values).

Definition lanes_step2 (ls : list lane) (block : bytes) : list lane := zip_with lane_step ls (pairs_of (values block)).

Lemma lanes_fold2 bs ls :
  Forall (fun b => blen b = chunk) bs -> length ls = k ->
  fold_left (block_step2 values) bs (regs2_of ls) = regs2_of (fold_left lanes_step2 bs ls) /\
  length (fold_left lanes_step2 bs ls) = k.
Proof using k_pos Hvalues.
  intros Hbs. revert ls. induction Hbs as [|b bs Hb _ IH]; intros ls Hl; cbn [fold_left]; [done|].
  destruct (Hvalues b Hb) as [Hw _]. destruct (pairs_flat (values b) k Hw) as [Hp Hk].
  rewrite (block_step2_lanes values b ls (pairs_of (values b)) (eq_sym Hp)). apply IH.
  unfold lanes_step2. rewrite length_zip_with. lia.
Qed.

Lemma run_lanes ls rest x :
  length ls = k ->
  run (regs2_list (regs2_of ls) ++ rest) x = regs2_list (regs2_of (fold_left lanes_step2 (chunks_exact chunk x) ls)) ++ rest.
Proof using k_pos Hvalues.
  intros Hl. assert (Hw : forall f : lane -> Z * Z, forall l : list lane, length l = k -> length (flatten (map f l)) = (2 * k)%nat)
    by (intros; rewrite length_flatten, length_map; lia).
  unfold with_registers2, regs2_list, regs2_of. cbn [fst snd]. rewrite <- !app_assoc.
  destruct (loads2 beyond (2 * k) (flatten (map ab_of ls)) (flatten (map cd_of ls)) rest) as [-> ->]; auto.
  destruct (lanes_fold2 (chunks_exact chunk x) ls) as [Hf Hk]; [apply chunks_exact_lengths; lia|done|].
  unfold regs2_of in Hf at 1. rewrite Hf. unfold regs2_of. apply (stores2 (2 * k)); auto.
Qed.

Context (rest : list Z).
Hypothesis state_is : zrep STATE_LEN 0 = regs2_list (regs2_of (zero_lanes2 k)) ++ rest.
Lemma run_zero x :
  run (zrep STATE_LEN 0) x = regs2_list (regs2_of (fold_left lanes_step2 (chunks_exact chunk x) (zero_lanes2 k))) ++ rest.
Proof using All. rewrite state_is. apply run_lanes, repeat_length. Qed.
Lemma run_app x y : (chunk | blen x) -> run (zrep STATE_LEN 0) (x ++ y) = run (run (zrep STATE_LEN 0) x) y.
Proof using All.
  intros Hx. rewrite !run_zero. rewrite chunks_exact_app, fold_left_app by (done || lia).
  symmetry. apply run_lanes. apply lanes_fold2; [apply chunks_exact_lengths; lia|apply repeat_length].
Qed.
Lemma run_nil : run (zrep STATE_LEN 0) [] = zrep STATE_LEN 0.
Proof using All. rewrite run_zero, state_is, chunks_exact_short by (change (blen []) with 0; lia). done. Qed.

Context (finish : list Z -> list Z).
Hypothesis finish_step2 : forall ls ps r, length ls = k -> length ps = k ->
  finish (regs2_list (regs2_of ls) ++ rest) = lane_list r ->
  finish (regs2_list (regs2_of (zip_with lane_step ls ps)) ++ rest) = lane_list (fold_left lane_step ps r).
Hypothesis finish_zero : finish (zrep STATE_LEN 0) = [0; 0; 0; 0].

Lemma run_finish x :
  bytes_ok x -> (chunk | blen x) -> finish (run (zrep STATE_LEN 0) x) = update_blocks_generic o [0; 0; 0; 0] x.
Proof using All.
  intros Hx Hd. rewrite run_zero, f2_one_pass_list.
  apply (fold_blocks_sim_on is_byte chunk 16 lanes_step2 (gen_step o)
    (fun ls r => length ls = k /\ finish (regs2_list (regs2_of ls) ++ rest) = lane_list r)); auto; try lia.
  - exists (Z.of_nat k). lia.
  - intros ls t b [Hl Ht] Hok Hb. destruct (Hvalues b Hb) as [Hw Hv].
    destruct (pairs_flat (values b) k Hw) as [Hp Hk]. unfold lanes_step2.
    split; [rewrite length_zip_with; lia|]. rewrite (f2_gen_block o k b) by done.
    replace (map (fun i => pair8 o b (Z.of_nat i)) (seq 0 k)) with (pairs_of (values b)); [now apply finish_step2|].
    rewrite Hv, (pairs_words o k) by done. clear. generalize (map (fun i => pair8 o b (Z.of_nat i)) (seq 0 k)) as ps.
    induction ps as [|[x y] ps IH]; [done|]. unfold flatten in *. cbn [flat_map app fst snd pairs_of]. now rewrite IH.
  - split; [apply repeat_length|now rewrite <- state_is].
Qed.

Context (ctx : FletcherCtx).
Hypothesis ctx_update : update_blocks ctx o = run.
Hypothesis ctx_finish : finish_blocks ctx = finish.
Hypothesis ctx_size : block_size ctx = chunk /\ chunk <= BUFFER_LEN.
Lemma run_parts parts :
  bytes_ok (concat parts) ->
  hash_parts BLOCK_SIZE update_blocks_generic finish_blocks_single_stream BUFFER_LEN STATE_LEN ctx o parts =
  Ok (one_pass o (concat parts)).
Proof using All.
  destruct ctx_size as [Hsize Hle]. intros Hok.
  rewrite hash_parts_gen with (P := is_byte); rewrite ?Hsize; auto using f2_generic_app, f2_generic_short, f2_generic_length.
  - done.
  - lia.
  - exists (Z.of_nat k). change BLOCK_SIZE with 16. lia.
  - intros x y Hx. rewrite !ctx_update. now apply run_app.
  - rewrite ctx_update. apply run_nil.
  - intros. apply f2_single_id. now rewrite f2_generic_length.
  - intros x Hx Hd. rewrite ctx_update, ctx_finish. now apply run_finish.
Qed.
End digest.

(** *** The streams recombine *)
Lemma single_finish_step2 rest ls ps r :
  length ls = 1%nat -> length ps = 1%nat ->
  finish_blocks_single_stream (regs2_list (regs2_of ls) ++ rest) = lane_list r ->
  finish_blocks_single_stream (regs2_list (regs2_of (zip_with lane_step ls ps)) ++ rest) = lane_list (fold_left lane_step ps r).
Proof.
  destruct ls as [|[[[a b] c] d] [|]], ps as [|[x y] [|]]; try discriminate. intros _ _.
  destruct r as [[[a' b'] c'] d']. cbn. intros [= <- <- <- <-]. reflexivity.
Qed.
Lemma dual_finish_step2 rest ls ps r :
  length ls = 2%nat -> length ps = 2%nat ->
  finish_blocks_dual_stream (regs2_list (regs2_of ls) ++ rest) = lane_list r ->
  finish_blocks_dual_stream (regs2_list (regs2_of (zip_with lane_step ls ps)) ++ rest) = lane_list (fold_left lane_step ps r).
Proof.
  destruct ls as [|s0 [|s1 [|]]], ps as [|x [|y [|]]]; try discriminate. intros _ _ Hr.
  pose proof (f2_dual_step s0 s1 rest r x y) as Hs. destruct s0 as [[[? ?] ?] ?], s1 as [[[? ?] ?] ?], x, y. now apply Hs.
Qed.
Lemma quad_finish_step2 rest ls ps r :
  length ls = 4%nat -> length ps = 4%nat ->
  finish_blocks_quad_stream (regs2_list (regs2_of ls) ++ rest) = lane_list r ->
  finish_blocks_quad_stream (regs2_list (regs2_of (zip_with lane_step ls ps)) ++ rest) = lane_list (fold_left lane_step ps r).
Proof.
  destruct ls as [|s0 [|s1 [|s2 [|s3 [|]]]]], ps as [|x0 [|x1 [|x2 [|x3 [|]]]]]; try discriminate. intros _ _ Hr.
  pose proof (f2_quad_step s0 s1 s2 s3 rest r x0 x1 x2 x3) as Hs.
  destruct s0 as [[[? ?] ?] ?], s1 as [[[? ?] ?] ?], s2 as [[[? ?] ?] ?], s3 as [[[? ?] ?] ?], x0, x1, x2, x3. now apply Hs.
Qed.

(** The same for Fletcher-2: the SSE2, SSSE3 and AVX2 implementations give the digest of
    the single pass, however the input is split and whatever lies behind the state. *)
Theorem fletcher2_simd_any_split (beyond : Z -> Z) (i : FletcherImplementation) (o : EndianOrder) (parts : list bytes) :
  i = SSE2 \/ i = SSSE3 \/ i = AVX2 -> bytes_ok (concat parts) ->
  simd_hash_parts beyond i o parts = Some (Ok (one_pass o (concat parts))).
Proof.
  intros Hi Hok. unfold simd_hash_parts. destruct Hi as [-> | [-> | ->]]; cbn [simd_ctx mbind option_bind]; f_equal; destruct o.
  - now apply (run_parts beyond 1 sse2_byteswap_values Big ltac:(lia) sse2_byteswap2_ok (zrep 12 0) eq_refl
      finish_blocks_single_stream (single_finish_step2 _) eq_refl).
  - now apply (run_parts beyond 1 native_values Little ltac:(lia) (native2_ok 1) (zrep 12 0) eq_refl
      finish_blocks_single_stream (single_finish_step2 _) eq_refl).
  - now apply (run_parts beyond 1 ssse3_byteswap_values Big ltac:(lia) ssse3_byteswap2_ok (zrep 12 0) eq_refl
      finish_blocks_single_stream (single_finish_step2 _) eq_refl).
  - now apply (run_parts beyond 1 native_values Little ltac:(lia) (native2_ok 1) (zrep 12 0) eq_refl
      finish_blocks_single_stream (single_finish_step2 _) eq_refl).
  - now apply (run_parts beyond 2 avx2_byteswap_values Big ltac:(lia) avx2_byteswap2_ok (zrep 8 0) eq_refl
      finish_blocks_dual_stream (dual_finish_step2 _) eq_refl).
  - now apply (run_parts beyond 2 native_values Little ltac:(lia) (native2_ok 2) (zrep 8 0) eq_refl
      finish_blocks_dual_stream (dual_finish_step2 _) eq_refl).
Qed.
Lemma fletcher2_simd_any_split_witness :
  simd_hash_parts (fun _ => 7) SSSE3 Big [zrep 20 1; zrep 44 2] = Some (Ok (one_pass Big (zrep 20 1 ++ zrep 44 2))).
Proof.
  apply (fletcher2_simd_any_split (fun _ => 7) SSSE3 Big [zrep 20 1; zrep 44 2]); [auto|].
  cbn [concat]. rewrite app_nil_r. apply Forall_app_2; apply Forall_replicate; unfold is_byte; lia.
Defined.

(** AVX-512 loads its second register from behind a state of 16 words. *)
Lemma with_registers2_zero w at_ chunk values x :
  with_registers2 (fun _ => 0) w at_ chunk values (zrep STATE_LEN 0) x =
  with_registers2 (fun _ => 0) w (0, 1)%nat chunk values (zrep STATE_LEN 0) x.
Proof. unfold with_registers2. now rewrite !Simd4.load_zero. Qed.
Theorem fletcher2_avx512_forgets (i : FletcherImplementation) (o : EndianOrder) :
  i = AVX512F \/ i = AVX512BW ->
  exists ctx, simd_ctx (fun _ => 0) i = Some ctx /\
    (forall x, bytes_ok x -> (block_size ctx | blen x) ->
       finish_blocks ctx (update_blocks ctx o (zrep STATE_LEN 0) x) = one_pass o x) /\
    exists x y, bytes_ok (x ++ y) /\ simd_hash_parts (fun _ => 0) i o [x; y] <> Some (Ok (one_pass o (x ++ y))).
Proof.
  assert (Hfin : forall values o x, values2_ok o 4 values -> bytes_ok x -> (64 | blen x) ->
    finish_blocks_quad_stream (with_registers2 (fun _ => 0) 8 (0, 16)%nat 64 values (zrep STATE_LEN 0) x) = one_pass o x).
  { intros values o' x Hv Hx Hd. rewrite with_registers2_zero.
    now apply (run_finish (fun _ => 0) 4 values o' ltac:(lia) Hv [] eq_refl finish_blocks_quad_stream (quad_finish_step2 []) eq_refl). }
  intros Hi. destruct Hi as [-> | ->]; eexists; (split; [reflexivity|]); (split;
    [intros x Hx Hd; destruct o; apply Hfin; auto using avx512f_byteswap2_ok, avx512bw_byteswap2_ok; apply native2_ok
    |exists (zrep 64 1), (zrep 64 1); split;
       [apply Forall_app_2; apply Forall_replicate; unfold is_byte; lia|destruct o; vm_compute; discriminate]]).
Qed.
End Simd2.
