(* ===== verification/Sha256.v ===== *)
(** * SHA-256 (src/checksum/sha256.rs, scalar implementation)

    The compression function as the code computes it (the x86 and the portable
    forms of the rotations, the in-place message schedule), the streaming
    hasher and its padding loops.  [Fips] is the definition of FIPS 180-4; the
    refinement theorem says the hasher computes it for every input and every
    split of the input. *)

From S2P Require Import Prelude Decoder Encoder Types Stream Fletcher.

(** ** 32-bit words *)
Definition add32 (a b : Z) : Z := wrap 32 (a + b).
Definition not32 (x : Z) : Z := 2 ^ 32 - 1 - x.
(** [x.rotate_right(n)] *)
Definition rotr (n x : Z) : Z := Z.lor (Z.shiftr x n) (wrap 32 (Z.shiftl x (32 - n))).

(** The round constants [SHA_256_CONSTANTS.k], eight to a row. *)
Definition k_00 : list Z :=
  [0x428a2f98; 0x71374491; 0xb5c0fbcf; 0xe9b5dba5;
   0x3956c25b; 0x59f111f1; 0x923f82a4; 0xab1c5ed5].
Definition k_08 : list Z :=
  [0xd807aa98; 0x12835b01; 0x243185be; 0x550c7dc3;
   0x72be5d74; 0x80deb1fe; 0x9bdc06a7; 0xc19bf174].
Definition k_16 : list Z :=
  [0xe49b69c1; 0xefbe4786; 0x0fc19dc6; 0x240ca1cc;
   0x2de92c6f; 0x4a7484aa; 0x5cb0a9dc; 0x76f988da].
Definition k_24 : list Z :=
  [0x983e5152; 0xa831c66d; 0xb00327c8; 0xbf597fc7;
   0xc6e00bf3; 0xd5a79147; 0x06ca6351; 0x14292967].
Definition k_32 : list Z :=
  [0x27b70a85; 0x2e1b2138; 0x4d2c6dfc; 0x53380d13;
   0x650a7354; 0x766a0abb; 0x81c2c92e; 0x92722c85].
Definition k_40 : list Z :=
  [0xa2bfe8a1; 0xa81a664b; 0xc24b8b70; 0xc76c51a3;
   0xd192e819; 0xd6990624; 0xf40e3585; 0x106aa070].
Definition k_48 : list Z :=
  [0x19a4c116; 0x1e376c08; 0x2748774c; 0x34b0bcb5;
   0x391c0cb3; 0x4ed8aa4a; 0x5b9cca4f; 0x682e6ff3].
Definition k_56 : list Z :=
  [0x748f82ee; 0x78a5636f; 0x84c87814; 0x8cc70208;
   0x90befffa; 0xa4506ceb; 0xbef9a3f7; 0xc67178f2].
Definition K : list Z := k_00 ++ k_08 ++ k_16 ++ k_24 ++ k_32 ++ k_40 ++ k_48 ++ k_56.

Record regs : Type := {
  ra : Z; rb : Z; rc : Z; rd : Z; re : Z; rf : Z; rg : Z; rh : Z
}.

Definition H0 : regs :=
  {| ra := 0x6a09e667; rb := 0xbb67ae85; rc := 0x3c6ef372; rd := 0xa54ff53a;
     re := 0x510e527f; rf := 0x9b05688c; rg := 0x1f83d9ab; rh := 0x5be0cd19 |}.

(** ** FIPS 180-4 *)
Module Fips.

(** The constants by their definition: the first 32 bits of the fractional
    parts of the cube roots of the first 64 primes. *)
Definition is_prime (n : nat) : bool :=
  forallb (fun d => negb (Nat.eqb (n mod d) 0)) (seq 2 (n - 2)).
Definition primes : list Z := Z.of_nat <$> take 64 (List.filter is_prime (seq 2 400)).
(** The largest [r] with [r^3 <= x] below [2^n]. *)
Fixpoint cbrt_below (n : nat) (r x : Z) : Z :=
  match n with
  | O => r
  | S n' => let r' := r + 2 ^ Z.of_nat n' in cbrt_below n' (if r' ^ 3 <=? x then r' else r) x
  end.
Definition root_constant (p : Z) : Z := cbrt_below 40 0 (p * 2 ^ 96) mod 2 ^ 32.

Lemma constants_are_roots : K = root_constant <$> primes.
Proof. vm_compute. reflexivity. Qed.

Definition Ch (x y z : Z) : Z := Z.lxor (Z.land x y) (Z.land (not32 x) z).
Definition Maj (x y z : Z) : Z := Z.lxor (Z.lxor (Z.land x y) (Z.land x z)) (Z.land y z).
Definition Sigma0 (x : Z) : Z := Z.lxor (Z.lxor (rotr 2 x) (rotr 13 x)) (rotr 22 x).
Definition Sigma1 (x : Z) : Z := Z.lxor (Z.lxor (rotr 6 x) (rotr 11 x)) (rotr 25 x).
Definition sigma0 (x : Z) : Z := Z.lxor (Z.lxor (rotr 7 x) (rotr 18 x)) (Z.shiftr x 3).
Definition sigma1 (x : Z) : Z := Z.lxor (Z.lxor (rotr 17 x) (rotr 19 x)) (Z.shiftr x 10).

(** One more word of the message schedule. *)
Definition next (l : list Z) : Z :=
  let t := length l in
  add32 (add32 (sigma1 (nth (t - 2) l 0)) (nth (t - 7) l 0))
    (add32 (sigma0 (nth (t - 15) l 0)) (nth (t - 16) l 0)).
Fixpoint schedule (n : nat) (l : list Z) : list Z :=
  match n with O => l | S m => let l' := schedule m l in l' ++ [next l'] end.

Definition round (r : regs) (kw : Z * Z) : regs :=
  let t1 := add32 (add32 (add32 (add32 (rh r) (Sigma1 (re r))) (Ch (re r) (rf r) (rg r))) (fst kw))
              (snd kw) in
  let t2 := add32 (Sigma0 (ra r)) (Maj (ra r) (rb r) (rc r)) in
  {| ra := add32 t1 t2; rb := ra r; rc := rb r; rd := rc r;
     re := add32 (rd r) t1; rf := re r; rg := rf r; rh := rg r |}.

Definition add_regs (x y : regs) : regs :=
  {| ra := add32 (ra x) (ra y); rb := add32 (rb x) (rb y); rc := add32 (rc x) (rc y);
     rd := add32 (rd x) (rd y); re := add32 (re x) (re y); rf := add32 (rf x) (rf y);
     rg := add32 (rg x) (rg y); rh := add32 (rh x) (rh y) |}.

Definition block_words (block : bytes) : list Z := map (int_from Big) (chunks_exact 4 block).

Definition compress (h : regs) (block : bytes) : regs :=
  let ws := schedule 48 (block_words block) in
  add_regs (fold_left round (combine K ws) h) h.

(** The message, a one bit, zeros and the bit length, to a multiple of 64 bytes. *)
Definition pad (m : bytes) : bytes :=
  m ++ [0x80] ++ zrep ((55 - blen m) mod 64) 0 ++ int_to Big 8 (8 * blen m).

Definition digest (h : regs) : list Z :=
  [ra h * 2 ^ 32 + rb h; rc h * 2 ^ 32 + rd h; re h * 2 ^ 32 + rf h; rg h * 2 ^ 32 + rh h].

Definition sha256 (m : bytes) : list Z :=
  digest (fold_left compress (chunks_exact 64 (pad m)) H0).

End Fips.

(** ** The code *)
Definition SHA_256_BLOCK_SIZE : Z := 64.

(** The two forms of the rotations: x86, which has no three-operand rotate, and
    the others. *)
Definition big_s1 (x86 : bool) (e : Z) : Z :=
  if x86 then
    let s1 := rotr 14 e in
    let s1 := Z.lxor s1 e in
    let s1 := rotr 5 s1 in
    let s1 := Z.lxor s1 e in
    rotr 6 s1
  else
    let s1 := rotr 6 e in
    let s1 := Z.lxor s1 (rotr 11 e) in
    Z.lxor s1 (rotr 25 e).

Definition big_s0 (x86 : bool) (a : Z) : Z :=
  if x86 then
    let s0 := rotr 9 a in
    let s0 := Z.lxor s0 a in
    let s0 := rotr 11 s0 in
    let s0 := Z.lxor s0 a in
    rotr 2 s0
  else
    let s0 := rotr 2 a in
    let s0 := Z.lxor s0 (rotr 13 a) in
    Z.lxor s0 (rotr 22 a).

(** The body both macros share after the two words [x] and [y] are chosen.  The
    macros rename the registers at each call; here they are rotated. *)
Definition round_with (x86 : bool) (r : regs) (x y : Z) : regs :=
  let ch := Z.lxor (Z.land (re r) (rf r)) (Z.land (not32 (re r)) (rg r)) in
  let s1 := big_s1 x86 (re r) in
  let temp1 := add32 (rh r) s1 in
  let temp1 := add32 temp1 ch in
  let temp1 := add32 temp1 x in
  let temp1 := add32 temp1 y in
  let d := add32 (rd r) temp1 in
  let maj := Z.lxor (Z.lxor (Z.land (ra r) (rb r)) (Z.land (ra r) (rc r))) (Z.land (rb r) (rc r)) in
  let s0 := big_s0 x86 (ra r) in
  let temp2 := add32 s0 maj in
  let h := add32 temp1 temp2 in
  {| ra := h; rb := ra r; rc := rb r; rd := rc r; re := d; rf := re r; rg := rf r; rh := rg r |}.

(** [w[round]] of [schedule_and_round!] *)
Definition schedule_word (w : list Z) (i : nat) : Z :=
  let wi := nth (i - 16) w 0 in
  let w15 := nth (i - 15) w 0 in
  let s0 := rotr 7 w15 in
  let s0 := Z.lxor (Z.shiftr w15 3) s0 in
  let s0 := Z.lxor (rotr 18 w15) s0 in
  let wi := add32 wi s0 in
  let w2 := nth (i - 2) w 0 in
  let s1 := rotr 17 w2 in
  let s1 := Z.lxor (Z.shiftr w2 10) s1 in
  let s1 := Z.lxor (rotr 19 w2) s1 in
  let wi := add32 wi s1 in
  add32 wi (nth (i - 7) w 0).

(** [round!] below 16, [schedule_and_round!] from there. *)
Definition round_step (x86 : bool) (s : list Z * regs) (i : nat) : list Z * regs :=
  let '(w, r) := s in
  if (i <? 16)%nat then (w, round_with x86 r (nth i K 0) (nth i w 0))
  else
    let wi := schedule_word w i in
    (<[i := wi]> w, round_with x86 r wi (nth i K 0)).

(** The array [w] lives across blocks; its first 16 words are overwritten. *)
Definition load_block (w : list Z) (block : bytes) : list Z :=
  let ws := map (int_from Big) (chunks_exact 4 block) in
  ws ++ drop (length ws) w.

Definition block_step (x86 : bool) (s : list Z * regs) (block : bytes) : list Z * regs :=
  let '(w, st) := s in
  let '(w', r) := fold_left (round_step x86) (seq 0 64) (load_block w block, st) in
  (w', Fips.add_regs r st).

Definition update_blocks_generic (x86 : bool) (st : regs) (data : bytes) : regs :=
  snd (fold_left (block_step x86) (chunks_exact SHA_256_BLOCK_SIZE data) (zrep 64 0, st)).

(** ** Rotations *)
Lemma rotr_fits n x : 0 <= n < 32 -> fits 32 x -> fits 32 (rotr n x).
Proof.
  intros Hn [H0x H1x]. unfold rotr. rewrite shiftr_div by lia.
  pose proof (wrap_fits 32 (Z.shiftl x (32 - n)) ltac:(lia)) as [W0 W1].
  assert (0 <= x / 2 ^ n < 2 ^ 32).
  { split; [apply Z.div_pos; lia|]. apply Z.le_lt_trans with x; [|lia].
    apply Z.div_le_upper_bound; [lia|]. nia. }
  split; [apply Z.lor_nonneg; lia|].
  destruct (Z.eq_dec (Z.lor (x / 2 ^ n) (wrap 32 (Z.shiftl x (32 - n)))) 0) as [->|]; [lia|].
  apply Z.log2_lt_cancel. rewrite Z.log2_lor by lia. rewrite Z.log2_pow2 by lia.
  apply Z.max_lub_lt.
  - destruct (Z.eq_dec (x / 2 ^ n) 0) as [->|]; [cbn; lia|]. apply Z.log2_lt_pow2; lia.
  - set (y := wrap 32 _) in *. destruct (Z.eq_dec y 0) as [->|]; [cbn; lia|].
    apply Z.log2_lt_pow2; lia.
Qed.

Lemma rotr_testbit n x i :
  0 < n < 32 -> fits 32 x -> 0 <= i < 32 ->
  Z.testbit (rotr n x) i = Z.testbit x ((i + n) mod 32).
Proof.
  intros Hn Hx Hi. unfold rotr, wrap. rewrite Z.lor_spec, Z.shiftr_spec by lia.
  rewrite Z.mod_pow2_bits_low, Z.shiftl_spec by lia.
  destruct (Z.lt_ge_cases (i + n) 32).
  - rewrite (Z.mod_small (i + n)) by lia. rewrite (Z.testbit_neg_r x (i - (32 - n))) by lia.
    apply orb_false_r.
  - replace ((i + n) mod 32) with (i + n - 32) by (apply (Z.mod_unique _ _ 1); lia).
    replace (i - (32 - n)) with (i + n - 32) by lia.
    replace (Z.testbit x (i + n)) with false; [done|].
    symmetry. destruct (Z.eq_dec x 0) as [->|]; [apply Z.bits_0|].
    apply Z.bits_above_log2; [apply Hx|].
    apply Z.lt_le_trans with 32; [|lia]. destruct Hx. apply Z.log2_lt_pow2; lia.
Qed.

Lemma fits_testbit_high x i : fits 32 x -> 32 <= i -> Z.testbit x i = false.
Proof.
  intros [Hx0 Hx1] Hi. destruct (Z.eq_dec x 0) as [->|]; [apply Z.bits_0|].
  apply Z.bits_above_log2; [done|]. apply Z.lt_le_trans with 32; [|done].
  apply Z.log2_lt_pow2; lia.
Qed.

Lemma fits_bits_eq x y :
  fits 32 x -> fits 32 y -> (forall i, 0 <= i < 32 -> Z.testbit x i = Z.testbit y i) -> x = y.
Proof.
  intros Hx Hy H. apply Z.bits_inj'. intros i Hi. destruct (Z.lt_ge_cases i 32); [now apply H|].
  now rewrite !fits_testbit_high.
Qed.

Lemma lxor_fits x y : fits 32 x -> fits 32 y -> fits 32 (Z.lxor x y).
Proof.
  intros [Hx0 Hx1] [Hy0 Hy1]. split; [apply Z.lxor_nonneg; lia|].
  destruct (Z.eq_dec (Z.lxor x y) 0) as [->|]; [lia|].
  assert (0 <= Z.lxor x y) by (apply Z.lxor_nonneg; lia).
  apply Z.log2_lt_cancel. rewrite Z.log2_pow2 by lia.
  eapply Z.le_lt_trans; [apply Z.log2_lxor; lia|]. apply Z.max_lub_lt.
  - destruct (Z.eq_dec x 0) as [->|]; [cbn; lia|]. apply Z.log2_lt_pow2; lia.
  - destruct (Z.eq_dec y 0) as [->|]; [cbn; lia|]. apply Z.log2_lt_pow2; lia.
Qed.

#[local] Hint Resolve rotr_fits lxor_fits : zfs.

#[local] Hint Extern 1 (_ <= _ < _) => lia : zfs.
#[local] Hint Extern 1 (_ < _ < _) => lia : zfs.

(** The x86 form of the big sigmas is the standard's. *)
Lemma chain_testbit p q s x i :
  0 < p < 32 -> 0 < q < 32 -> 0 < s < 32 -> fits 32 x -> 0 <= i < 32 ->
  Z.testbit (rotr s (Z.lxor (rotr q (Z.lxor (rotr p x) x)) x)) i =
  xorb (xorb (Z.testbit x ((i + (s + q + p)) mod 32)) (Z.testbit x ((i + (s + q)) mod 32)))
    (Z.testbit x ((i + s) mod 32)).
Proof.
  intros Hp Hq Hs Hx Hi.
  pose proof (Z.mod_pos_bound (i + s) 32 ltac:(lia)) as H1.
  rewrite rotr_testbit, Z.lxor_spec by auto 10 with zfs.
  rewrite rotr_testbit, Z.lxor_spec by auto 10 with zfs.
  pose proof (Z.mod_pos_bound ((i + s) mod 32 + q) 32 ltac:(lia)).
  rewrite rotr_testbit by auto 10 with zfs.
  rewrite !Zplus_mod_idemp_l, <- !Z.add_assoc. do 2 f_equal.
  f_equal. now rewrite Zplus_mod_idemp_l, <- Z.add_assoc.
Qed.

Lemma big_s1_sigma x86 e : fits 32 e -> big_s1 x86 e = Fips.Sigma1 e.
Proof.
  intros He. destruct x86; [|done]. unfold big_s1, Fips.Sigma1.
  apply fits_bits_eq; [auto 10 with zfs..|].
  intros i Hi. rewrite chain_testbit by (auto; lia).
  rewrite !Z.lxor_spec, !rotr_testbit by (auto; lia).
  change (6 + 5 + 14) with 25. change (6 + 5) with 11.
  destruct (Z.testbit e ((i + 25) mod 32)), (Z.testbit e ((i + 11) mod 32)),
    (Z.testbit e ((i + 6) mod 32)); done.
Qed.

Lemma big_s0_sigma x86 a : fits 32 a -> big_s0 x86 a = Fips.Sigma0 a.
Proof.
  intros He. destruct x86; [|done]. unfold big_s0, Fips.Sigma0.
  apply fits_bits_eq; [auto 10 with zfs..|].
  intros i Hi. rewrite chain_testbit by (auto; lia).
  rewrite !Z.lxor_spec, !rotr_testbit by (auto; lia).
  change (2 + 11 + 9) with 22. change (2 + 11) with 13.
  destruct (Z.testbit a ((i + 22) mod 32)), (Z.testbit a ((i + 13) mod 32)),
    (Z.testbit a ((i + 2) mod 32)); done.
Qed.

(** Sums of words modulo 2^32. *)
Lemma add32_comm3 a b c : add32 (add32 a b) c = add32 (add32 a c) b.
Proof.
  unfold add32, wrap. rewrite !Zplus_mod_idemp_l. f_equal. lia.
Qed.

Definition regs_fit (r : regs) : Prop :=
  fits 32 (ra r) /\ fits 32 (rb r) /\ fits 32 (rc r) /\ fits 32 (rd r) /\
  fits 32 (re r) /\ fits 32 (rf r) /\ fits 32 (rg r) /\ fits 32 (rh r).

Lemma round_fits r kw : regs_fit r -> regs_fit (Fips.round r kw).
Proof.
  intros (?&?&?&?&?&?&?&?). unfold regs_fit, Fips.round; cbn. unfold add32.
  splits; auto; now apply wrap_fits.
Qed.

Lemma add_regs_fits x y : regs_fit (Fips.add_regs x y).
Proof. unfold regs_fit, Fips.add_regs; cbn. unfold add32. splits; now apply wrap_fits. Qed.

Lemma round_with_fips x86 r k w :
  regs_fit r ->
  round_with x86 r k w = Fips.round r (k, w) /\ round_with x86 r w k = Fips.round r (k, w).
Proof.
  intros (Ha & _ & _ & _ & He & _). unfold round_with, Fips.round.
  rewrite big_s1_sigma, big_s0_sigma by done. cbn [fst snd]. split; [done|].
  rewrite (add32_comm3 _ w k). done.
Qed.

Lemma lxor_rot a b c : Z.lxor a (Z.lxor b c) = Z.lxor (Z.lxor c a) b.
Proof.
  apply Z.bits_inj'; intros i _. rewrite !Z.lxor_spec.
  now destruct (Z.testbit a i), (Z.testbit b i), (Z.testbit c i).
Qed.

Lemma schedule_word_next w l :
  (16 <= length l)%nat -> (forall j, (j < length l)%nat -> nth j w 0 = nth j l 0) ->
  schedule_word w (length l) = Fips.next l.
Proof.
  intros Hl Hw. unfold schedule_word, Fips.next. rewrite !Hw by lia.
  unfold Fips.sigma0, Fips.sigma1.
  rewrite !(lxor_rot (rotr _ _)).
  unfold add32, wrap. repeat rewrite ?Zplus_mod_idemp_l, ?Zplus_mod_idemp_r, <- ?Z.add_assoc. f_equal. lia.
Qed.

Lemma length_schedule n l : length (Fips.schedule n l) = (length l + n)%nat.
Proof. induction n; cbn; [lia|]. rewrite length_app, IHn. cbn. lia. Qed.

Lemma schedule_prefix n m l :
  (n <= m)%nat -> exists t, Fips.schedule m l = Fips.schedule n l ++ t.
Proof.
  induction 1 as [|m _ [t IH]]; [exists []; now rewrite app_nil_r|].
  eexists. cbn. rewrite IH at 1. rewrite <- app_assoc. done.
Qed.

Lemma schedule_nth n m l j :
  (n <= m)%nat -> (j < length l + n)%nat ->
  nth j (Fips.schedule m l) 0 = nth j (Fips.schedule n l) 0.
Proof.
  intros Hnm Hj. destruct (schedule_prefix n m l Hnm) as [t ->].
  apply app_nth1. now rewrite length_schedule.
Qed.

(** One more round of the first [i]. *)
Lemma rounds_next W st i :
  length W = 64%nat -> (i < 64)%nat ->
  fold_left Fips.round (take (S i) (combine K W)) st =
  Fips.round (fold_left Fips.round (take i (combine K W)) st) (nth i K 0, nth i W 0).
Proof.
  intros HlW Hi. assert (HlK : length (combine K W) = 64%nat) by (rewrite length_combine, HlW; done).
  rewrite (take_S_r _ _ (nth i K 0, nth i W 0)), fold_left_app; [done|].
  rewrite <- (combine_nth K W i 0 0) by (now rewrite HlW).
  destruct (nth_lookup_or_length (combine K W) i (0, 0)); [done | lia].
Qed.

(** The recurrence of the schedule, on the whole of it. *)
Lemma schedule_recurrence ws i :
  length ws = 16%nat -> (16 <= i < 64)%nat ->
  let W := Fips.schedule 48 ws in
  nth i W 0 = add32 (add32 (Fips.sigma1 (nth (i - 2) W 0)) (nth (i - 7) W 0))
                (add32 (Fips.sigma0 (nth (i - 15) W 0)) (nth (i - 16) W 0)).
Proof.
  intros Hws Hi W. set (l := Fips.schedule (i - 16) ws).
  assert (Hll : length l = i) by (unfold l; rewrite length_schedule; lia).
  unfold W at 1. rewrite (schedule_nth (S (i - 16))) by lia. cbn [Fips.schedule]. fold l.
  rewrite app_nth2, Hll, Nat.sub_diag by lia. cbn [nth]. unfold Fips.next. rewrite Hll.
  unfold W, l. now rewrite <- !(schedule_nth (i - 16) 48) by lia.
Qed.
Lemma schedule_fits ws i :
  length ws = 16%nat -> Forall (fits 32) ws -> (i < 64)%nat -> fits 32 (nth i (Fips.schedule 48 ws) 0).
Proof.
  intros Hws Hf Hi. destruct (Nat.lt_ge_cases i 16).
  - rewrite (schedule_nth 0) by lia. cbn [Fips.schedule]. eapply Forall_nth; [exact Hf|lia].
  - rewrite schedule_recurrence by lia. now apply wrap_fits.
Qed.

Section block.
Context (x86 : bool) (ws w0 : list Z) (st : regs).
Hypothesis ws_len : length ws = 16%nat.
Hypothesis w0_len : length w0 = 64%nat.
Hypothesis w0_ws : forall j, (j < 16)%nat -> nth j w0 0 = nth j ws 0.
Hypothesis st_fit : regs_fit st.
Let W := Fips.schedule 48 ws.

(** After [i] rounds the array holds the schedule up to [i] (and 16), and the
    registers are the standard's. *)
Lemma rounds_fips i :
  (i <= 64)%nat ->
  exists w, fold_left (round_step x86) (seq 0 i) (w0, st) =
      (w, fold_left Fips.round (take i (combine K W)) st) /\
    length w = 64%nat /\ (forall j, (j < Nat.max 16 i)%nat -> nth j w 0 = nth j W 0) /\
    regs_fit (fold_left Fips.round (take i (combine K W)) st).
Proof using All.
  assert (HlW : length W = 64%nat) by (unfold W; rewrite length_schedule; lia).
  induction i as [|i IH]; intros Hi.
  - exists w0. splits; auto. intros j Hj. rewrite w0_ws by lia.
    symmetry. unfold W. rewrite (schedule_nth 0) by lia. done.
  - destruct IH as (w & Hf & Hl & Hn & Hr); [lia|].
    rewrite seq_S, fold_left_app, Hf. cbn [fold_left Nat.add].
    rewrite rounds_next by (done || lia).
    set (r := fold_left Fips.round (take i (combine K W)) st) in *.
    destruct (round_with_fips x86 r (nth i K 0) (nth i W 0) Hr) as [H1 H2].
    unfold round_step. destruct (Nat.ltb_spec i 16).
    + rewrite Hn, H1 by lia. exists w. splits; auto; [|now apply round_fits].
      intros j Hj. apply Hn. lia.
    + assert (Hsw : schedule_word w i = nth i W 0).
      { set (l := Fips.schedule (i - 16) ws).
        assert (Hll : length l = i) by (unfold l; rewrite length_schedule; lia).
        rewrite <- Hll at 1. rewrite schedule_word_next.
        - unfold W. rewrite (schedule_nth (S (i - 16))) by lia. cbn [Fips.schedule]. fold l.
          now rewrite app_nth2, Hll, Nat.sub_diag by lia.
        - lia.
        - intros j Hj. rewrite Hn by lia. unfold W. now rewrite (schedule_nth (i - 16)) by lia. }
      rewrite Hsw, H2. exists (<[i := nth i W 0]> w). splits; [done| | |now apply round_fits].
      * now rewrite length_insert.
      * intros j Hj. destruct (Nat.eq_dec j i) as [->|].
        -- apply nth_lookup_Some. rewrite list_lookup_insert_eq; [done|lia].
        -- rewrite <- (Hn j) by lia. rewrite !nth_lookup. now rewrite list_lookup_insert_ne by lia.
Qed.
End block.

Lemma length_chunks_exact n l k : 0 < n -> blen l = n * Z.of_nat k -> length (chunks_exact n l) = k.
Proof.
  intros Hn. revert l. induction k as [|k IH]; intros l Hl.
  - rewrite Z.mul_0_r in Hl. apply blen_0 in Hl as ->. done.
  - rewrite chunks_exact_cons by nia. cbn [length]. f_equal. apply IH.
    rewrite blen_zdrop by lia. nia.
Qed.

Lemma block_step_fips x86 w st block :
  length w = 64%nat -> regs_fit st -> blen block = 64 ->
  exists w', block_step x86 (w, st) block = (w', Fips.compress st block) /\ length w' = 64%nat.
Proof.
  intros Hw Hst Hb. unfold block_step, load_block.
  set (ws := map (int_from Big) (chunks_exact 4 block)).
  assert (Hws : length ws = 16%nat).
  { unfold ws. rewrite length_map. now apply length_chunks_exact. }
  destruct (rounds_fips x86 ws (ws ++ drop (length ws) w) st) with (i := 64%nat)
    as (w' & Hf & Hl & _); auto.
  - rewrite length_app, length_drop. lia.
  - intros j Hj. apply app_nth1. lia.
  - rewrite Hf. exists w'. split; [|done]. unfold Fips.compress, Fips.block_words. fold ws.
    rewrite take_ge; [done|]. rewrite length_combine, length_schedule, Hws. cbn. lia.
Qed.

Definition fips_blocks (st : regs) (data : bytes) : regs :=
  fold_left Fips.compress (chunks_exact 64 data) st.

Lemma compress_fits st b : regs_fit (Fips.compress st b).
Proof. apply add_regs_fits. Qed.

Definition block_rel (s : list Z * regs) (t : regs) : Prop :=
  length (fst s) = 64%nat /\ snd s = t /\ regs_fit t.

Lemma block_step_rel x86 s t b :
  blen b = 64 -> block_rel s t -> block_rel (block_step x86 s b) (Fips.compress t b).
Proof.
  intros Hb (Hw & <- & Hst). destruct s as [w st]. cbn [fst snd] in *.
  destruct (block_step_fips x86 w st b Hw Hst Hb) as (w' & E & Hw').
  unfold block_rel. rewrite E. split; [exact Hw'|]. split; [reflexivity | apply compress_fits].
Qed.

(** The code's block function is the standard's. *)
Lemma update_blocks_fips x86 st data :
  regs_fit st -> update_blocks_generic x86 st data = fips_blocks st data.
Proof.
  intros Hst. unfold update_blocks_generic, fips_blocks, SHA_256_BLOCK_SIZE.
  apply (fold_left_sim (block_step x86) Fips.compress block_rel (fun b => blen b = 64)).
  - intros s t b. apply block_step_rel.
  - now apply chunks_exact_lengths.
  - split; [done|]. split; [reflexivity | exact Hst].
Qed.

(** ** The streaming hasher

    [bytes_processed] counts whole blocks; it is kept beside the registers.  The block
    function is the implementation's. *)
Inductive Sha256Implementation : Type := ShaGeneric | BMI | ShaSSSE3 | AVX | ShaAVX2 | SHA.

Definition sha_to_str (i : Sha256Implementation) : string :=
  match i with
  | ShaGeneric => "generic" | BMI => "bmi" | ShaSSSE3 => "ssse3"
  | AVX => "avx" | ShaAVX2 => "avx2" | SHA => "sha"
  end.

(** Only the scalar implementation is compiled in. *)
Definition sha_supported (i : Sha256Implementation) : outcome ChecksumError unit :=
  match i with
  | ShaGeneric => Ok tt
  | _ => Err (ChecksumUnsupported ChecksumType.Sha256 (sha_to_str i))
  end.

Section hasher.
Context (update_blocks : regs -> bytes -> regs).

Definition absorb (s : Z * regs) (full : bytes) : Z * regs :=
  (fst s + blen full, update_blocks (snd s) full).

Definition sha_reset : hasher (Z * regs) :=
  Build_hasher 0 (zrep SHA_256_BLOCK_SIZE 0) (0, H0).

Definition sha_update (h : hasher (Z * regs)) (data : bytes) : outcome unit (hasher (Z * regs)) :=
  Stream.update SHA_256_BLOCK_SIZE absorb h data.

(** [while fill < stop { buffer[fill] = 0; fill += 1 }], with the number of
    turns as fuel. *)
Fixpoint zero_fill (turns : nat) (buf : bytes) (fill : Z) : bytes :=
  match turns with
  | O => buf
  | S n => zero_fill n (<[Z.to_nat fill := 0]> buf) (fill + 1)
  end.

Definition digest_words (r : regs) : list Z :=
  [Z.lor (Z.shiftl (ra r) 32) (rb r); Z.lor (Z.shiftl (rc r) 32) (rd r);
   Z.lor (Z.shiftl (re r) 32) (rf r); Z.lor (Z.shiftl (rg r) 32) (rh r)].

Definition sha_finalize (h : hasher (Z * regs)) : outcome unit (list Z) :=
  let '(bytes_processed, st) := state h in
  byte_length ← unwrap (checked_add 64 bytes_processed (buffer_fill h));
  bit_length ← unwrap (checked_mul 64 byte_length 8);
  buf ← unwrap (EncoderBuffer.copy_at (buffer h) (buffer_fill h) [0x80]);
  let fill := buffer_fill h + 1 in
  let '(buf, fill, st) :=
    if SHA_256_BLOCK_SIZE - 8 <? fill then
      let buf := zero_fill (Z.to_nat (SHA_256_BLOCK_SIZE - fill)) buf fill in
      (buf, 0, update_blocks st (ztake SHA_256_BLOCK_SIZE buf))
    else (buf, fill, st) in
  let buf := zero_fill (Z.to_nat (SHA_256_BLOCK_SIZE - 8 - fill)) buf fill in
  buf ← unwrap (EncoderBuffer.copy_at buf (SHA_256_BLOCK_SIZE - 8) (int_to Big 8 bit_length));
  Ok (digest_words (update_blocks st (ztake SHA_256_BLOCK_SIZE buf))).

(** [reset], a sequence of [update] calls, [finalize]. *)
Definition sha_hash_parts (parts : list bytes) : outcome unit (list Z) :=
  h ← Stream.updates SHA_256_BLOCK_SIZE absorb sha_reset parts; sha_finalize h.
Definition sha_hash (data : bytes) : outcome unit (list Z) :=
  h ← sha_update sha_reset data; sha_finalize h.
End hasher.

(** "abc", from the standard's examples. *)
Example fips_abc :
  Fips.sha256 [0x61; 0x62; 0x63] =
  [0xba7816bf8f01cfea; 0x414140de5dae2223; 0xb00361a396177a9c; 0xb410ff61f20015ad].
Proof. vm_compute. reflexivity. Qed.
Example sha_abc :
  sha_hash (update_blocks_generic true) [0x61; 0x62; 0x63] =
  Ok [0xba7816bf8f01cfea; 0x414140de5dae2223; 0xb00361a396177a9c; 0xb410ff61f20015ad].
Proof. vm_compute. reflexivity. Qed.

Lemma zero_fill_spec turns buf fill :
  0 <= fill -> fill + Z.of_nat turns <= blen buf ->
  zero_fill turns buf fill =
  ztake fill buf ++ zrep (Z.of_nat turns) 0 ++ zdrop (fill + Z.of_nat turns) buf.
Proof.
  revert buf fill. induction turns as [|n IH]; intros buf fill H0 H1; cbn [zero_fill].
  - rewrite Z.add_0_r. change (zrep (Z.of_nat 0) 0) with (@nil Z). cbn [app].
    now rewrite ztake_zdrop.
  - assert (Hl : blen (<[Z.to_nat fill:=0]> buf) = blen buf) by (unfold blen; now rewrite length_insert).
    rewrite IH by lia. clear IH.
    replace (zrep (Z.of_nat (S n)) 0) with (0 :: zrep (Z.of_nat n) 0)
      by (unfold zrep; rewrite !Nat2Z.id; done).
    rewrite !ztake_take, !zdrop_drop by lia.
    replace (Z.to_nat (fill + 1)) with (S (Z.to_nat fill)) by lia.
    unfold blen in *.
    rewrite (take_S_r _ _ 0) by (apply list_lookup_insert_eq; lia).
    rewrite take_insert_ge by lia. rewrite <- app_assoc. cbn [app]. do 3 f_equal.
    replace (Z.to_nat (fill + 1 + Z.of_nat n)) with (Z.to_nat (fill + Z.of_nat (S n))) by lia.
    now rewrite drop_insert_lt by lia.
Qed.

Lemma fips_blocks_app st x y :
  (64 | blen x) -> fips_blocks st (x ++ y) = fips_blocks (fips_blocks st x) y.
Proof. intros. unfold fips_blocks. now rewrite chunks_exact_app, fold_left_app. Qed.

Lemma fips_blocks_fit st x : regs_fit st -> regs_fit (fips_blocks st x).
Proof.
  intros Hst. unfold fips_blocks. generalize (chunks_exact 64 x) as bs. intros bs. revert st Hst.
  induction bs as [|b bs IH]; intros st Hst; cbn [fold_left]; [done|]. apply IH, compress_fits.
Qed.

Lemma H0_fit : regs_fit H0.
Proof. repeat split; vm_compute; congruence. Qed.

(** The digest words are put together without overlap. *)
Lemma digest_words_fips r : regs_fit r -> digest_words r = Fips.digest r.
Proof.
  intros (?&?&?&?&?&?&?&?). unfold digest_words, Fips.digest, fits in *.
  rewrite !(Z.lor_comm (Z.shiftl _ _)), !lor_shiftl_add by lia.
  words; lia.
Qed.

Lemma absorb_app x86 x y :
  (64 | blen x) -> absorb (update_blocks_generic x86) (0, H0) (x ++ y) = absorb (update_blocks_generic x86) (absorb (update_blocks_generic x86) (0, H0) x) y.
Proof.
  intros Hx. unfold absorb; cbn [fst snd]. rewrite blen_app.
  rewrite (update_blocks_fips x86 H0 x), !update_blocks_fips, fips_blocks_app
    by auto using H0_fit, fips_blocks_fit. apply f_equal2; [lia | reflexivity].
Qed.

Lemma copy_at_eq l o bs :
  0 <= o -> o + blen bs <= blen l ->
  EncoderBuffer.copy_at l o bs = Some (ztake o l ++ bs ++ zdrop (o + blen bs) l).
Proof.
  intros. pose proof (blen_nonneg bs). unfold EncoderBuffer.copy_at. now rewrite get_range_ok by lia.
Qed.

(** What [finalize] appends to the partial block [t] of a message of [n] bytes:
    one padded block, or two when the length does not fit. *)
Definition tail_blocks (t : bytes) (n : Z) : bytes :=
  t ++ [0x80] ++ zrep ((55 - blen t) mod 64) 0 ++ int_to Big 8 (8 * n).

(** The last block: the bit length goes into its last eight bytes. *)
Lemma final_block x86 b st k :
  blen b = 64 -> regs_fit st ->
  (b' ← unwrap (EncoderBuffer.copy_at b (64 - 8) (int_to Big 8 k));
   Ok (digest_words (update_blocks_generic x86 st (ztake 64 b')))) =
  Ok (E := unit) (Fips.digest (fips_blocks st (ztake 56 b ++ int_to Big 8 k))).
Proof.
  intros Hb Hst. rewrite copy_at_eq by (rewrite ?blen_int_to; lia).
  cbn [unwrap mbind outcome_bind]. rewrite blen_int_to, (zdrop_ge (_ + _)) by lia.
  rewrite app_nil_r, (ztake_ge 64) by (rewrite blen_app, blen_ztake, blen_int_to by lia; lia).
  now rewrite update_blocks_fips, digest_words_fips by auto using fips_blocks_fit.
Qed.

Lemma finalize_tail x86 (h : hasher (Z * regs)) n st t :
  state h = (n, st) -> regs_fit st -> blen (buffer h) = 64 -> 0 <= n ->
  0 <= buffer_fill h < 64 -> ztake (buffer_fill h) (buffer h) = t ->
  8 * (n + blen t) < 2 ^ 64 ->
  sha_finalize (update_blocks_generic x86) h = Ok (Fips.digest (fips_blocks st (tail_blocks t (n + blen t)))).
Proof.
  intros Hs Hst Hb Hn Hf Ht Hlen. unfold sha_finalize, SHA_256_BLOCK_SIZE. rewrite Hs.
  assert (Hbt : blen t = buffer_fill h) by (rewrite <- Ht, blen_ztake by lia; lia).
  unfold tail_blocks. rewrite Hbt, (Z.mul_comm 8).
  set (f := buffer_fill h) in *. unfold checked_add, checked_mul.
  destruct (Z.ltb_spec (n + f) (2 ^ 64)); [|lia]. cbn [unwrap mbind outcome_bind].
  destruct (Z.ltb_spec ((n + f) * 8) (2 ^ 64)); [|lia]. cbn [unwrap mbind outcome_bind].
  rewrite copy_at_eq by (change (blen [128]) with 1; lia). cbn [unwrap mbind outcome_bind].
  change (blen [128]) with 1. rewrite Ht. set (r := zdrop (f + 1) (buffer h)).
  assert (Hr : blen r = 63 - f) by (unfold r; rewrite blen_zdrop by lia; lia).
  set (b1 := t ++ [128] ++ r).
  assert (Hb1 : blen b1 = 64) by (unfold b1; rewrite !blen_app; change (blen [128]) with 1; lia).
  assert (Hpre : ztake (f + 1) b1 = t ++ [128]).
  { unfold b1. rewrite app_assoc. replace (f + 1) with (blen (t ++ [128]))
      by (rewrite blen_app; change (blen [128]) with 1; lia). apply ztake_app_length. }
  destruct (Z.ltb_spec (64 - 8) (f + 1)).
  - rewrite zero_fill_spec by lia. rewrite Z2Nat.id by lia.
    rewrite (zdrop_ge (f + 1 + _)), app_nil_r, Hpre by lia.
    set (b2 := (t ++ [128]) ++ zrep (64 - (f + 1)) 0).
    assert (Hb2 : blen b2 = 64)
      by (unfold b2; rewrite !blen_app, blen_zrep by lia; change (blen [128]) with 1; lia).
    rewrite (zero_fill_spec _ b2) by (rewrite ?Z2Nat.id; lia).
    rewrite Z2Nat.id, (ztake_take 0) by lia. change (take (Z.to_nat 0) b2) with (@nil Z). cbn [app].
    change (64 - 8 - 0) with 56. rewrite (ztake_ge 64 b2), update_blocks_fips by (auto; lia).
    rewrite final_block; [|rewrite blen_app, blen_zrep, blen_zdrop by lia; lia | now apply fips_blocks_fit].
    do 2 f_equal. rewrite <- fips_blocks_app by (rewrite Hb2; now exists 1). f_equal.
    unfold b2. rewrite Z.add_0_l.
    rewrite ztake_app_le by (rewrite blen_zrep; lia). rewrite ztake_ge by (rewrite blen_zrep; lia).
    replace ((55 - f) mod 64) with ((64 - (f + 1)) + 56) by (apply (Z.mod_unique _ _ (-1)); lia).
    rewrite <- !app_assoc. do 2 f_equal. rewrite !app_assoc. f_equal.
    unfold zrep. rewrite <- replicate_add. f_equal. lia.
  - rewrite zero_fill_spec by lia. rewrite Z2Nat.id, Hpre by lia.
    rewrite final_block; [|rewrite !blen_app, blen_zrep, blen_zdrop by lia; change (blen [128]) with 1; lia | done].
    do 3 f_equal. rewrite <- !app_assoc.
    replace ((55 - f) mod 64) with (55 - f) by (symmetry; apply Z.mod_small; lia).
    replace (64 - 8 - (f + 1)) with (55 - f) by lia.
    rewrite !app_assoc. f_equal.
    rewrite ztake_app_le by (rewrite !blen_app, blen_zrep by lia; change (blen [128]) with 1; lia).
    rewrite ztake_ge; [done|]. rewrite !blen_app, blen_zrep by lia. change (blen [128]) with 1. lia.
Qed.

Lemma sha_finalize_absorbed x86 h m :
  absorbed 64 (absorb (update_blocks_generic x86)) (0, H0) h m -> blen (buffer h) = 64 -> 8 * blen m < 2 ^ 64 ->
  sha_finalize (update_blocks_generic x86) h = Ok (Fips.sha256 m).
Proof.
  intros (_ & Hf & Ht & Hs) Hb Hlen.
  pose proof (Z.mod_pos_bound (blen m) 64 ltac:(lia)) as Hr.
  pose proof (Z.mod_le (blen m) 64 ltac:(auto with zfs) ltac:(lia)) as Hle.
  set (k := blen m - blen m mod 64) in *.
  assert (Hk : blen (ztake k m) = k) by (rewrite blen_ztake by lia; lia).
  assert (Hd : blen (zdrop k m) = blen m mod 64) by (rewrite blen_zdrop by lia; lia).
  assert (Hkd : (64 | k)) by (exists (blen m / 64); unfold k; pose proof (Z.div_mod (blen m) 64); lia).
  unfold absorb in Hs; cbn [fst snd] in Hs. rewrite Hk, update_blocks_fips, Z.add_0_l in Hs by apply H0_fit.
  rewrite (finalize_tail x86 h _ _ (zdrop k m) Hs);
    [|auto using fips_blocks_fit, H0_fit|done|lia|lia|done|lia].
  rewrite <- fips_blocks_app by (now rewrite Hk). unfold Fips.sha256, fips_blocks. do 4 f_equal.
  unfold tail_blocks, Fips.pad. rewrite app_assoc, ztake_zdrop, Hd.
  replace (k + blen m mod 64) with (blen m) by lia.
  now rewrite Zminus_mod_idemp_r.
Qed.

(** [update] never resizes the buffer. *)
Lemma update_buffer_len {St} B (upd : St -> bytes -> St) h data h' :
  Stream.update B upd h data = Ok h' -> blen (buffer h') = blen (buffer h).
Proof.
  assert (Hc : forall l o bs l', EncoderBuffer.copy_at l o bs = Some l' -> blen l' = blen l).
  { intros l o bs l'. unfold EncoderBuffer.copy_at.
    destruct (get_range l o (o + blen bs)) as [r|] eqn:E; [|done]. intros [= <-].
    apply get_range_Some in E as (? & ? & _). pose proof (blen_nonneg bs).
    rewrite !blen_app, blen_ztake, blen_zdrop by lia. lia. }
  assert (Hfill : forall h1 rest, fill_buffer B upd h data = Ok (h1, rest) ->
    blen (buffer h1) = blen (buffer h)).
  { unfold fill_buffer. intros h1 rest. destruct (0 <? buffer_fill h); [|now intros [= <- _]].
    destruct (EncoderBuffer.copy_at _ _ _) eqn:E; cbn; [|done].
    destruct (_ =? B); [destruct (get_range _ _ _); cbn|]; intros [= <- _] || done; cbn; eauto. }
  unfold Stream.update. destruct (fill_buffer B upd h data) as [[h1 rest]| |] eqn:E; cbn; try done.
  unfold absorb_blocks. destruct (0 <? blen rest mod B).
  - destruct (EncoderBuffer.copy_at _ _ _) eqn:E2; cbn; [|done]. intros [= <-]; cbn.
    rewrite (Hc _ _ _ _ E2). eauto.
  - intros [= <-]. cbn. eauto.
Qed.

Lemma updates_buffer_len {St} B (upd : St -> bytes -> St) parts h h' :
  Stream.updates B upd h parts = Ok h' -> blen (buffer h') = blen (buffer h).
Proof.
  revert h. induction parts as [|p ps IH]; intros h; cbn [Stream.updates]; [now intros [= <-]|].
  destruct (Stream.update B upd h p) as [h1| |] eqn:E; cbn; try done.
  intros H. rewrite (IH _ H). eapply update_buffer_len; eauto.
Qed.

Lemma sha_hash_parts_ok x86 parts :
  8 * blen (concat parts) < 2 ^ 64 ->
  sha_hash_parts (update_blocks_generic x86) parts = Ok (Fips.sha256 (concat parts)).
Proof.
  intros Hlen. unfold sha_hash_parts, SHA_256_BLOCK_SIZE.
  assert (Hreset : absorbed 64 (absorb (update_blocks_generic x86)) (0, H0) sha_reset []).
  { unfold absorbed, sha_reset; cbn [buffer buffer_fill state]. splits; done. }
  destruct (updates_absorbed 64 (absorb (update_blocks_generic x86)) (0, H0) ltac:(lia) (absorb_app x86) parts _ _ Hreset)
    as (h & Hh & Ha).
  rewrite Hh. cbn [mbind outcome_bind app] in *. apply sha_finalize_absorbed; auto.
  now rewrite (updates_buffer_len _ _ _ _ _ Hh).
Qed.

Lemma sha_hash_ok x86 data :
  8 * blen data < 2 ^ 64 -> sha_hash (update_blocks_generic x86) data = Ok (Fips.sha256 data).
Proof.
  intros Hl. pose proof (sha_hash_parts_ok x86 [data]) as H. cbn [concat] in H.
  rewrite app_nil_r in H. rewrite <- H by done. unfold sha_hash, sha_hash_parts, sha_update.
  cbn [Stream.updates]. now destruct (Stream.update _ _ _ _).
Qed.

(** C15: The hasher computes FIPS 180-4 SHA-256 of the whole input however it is
    split, on x86 and elsewhere, for inputs whose bit length fits 64 bits. *)
Theorem sha256_refines_fips x86 parts :
  8 * blen (concat parts) < 2 ^ 64 ->
  sha_hash_parts (update_blocks_generic x86) parts = Ok (Fips.sha256 (concat parts)).
Proof. exact (sha_hash_parts_ok x86 parts). Qed.

Lemma sha256_refines_fips_witness :
  sha_hash_parts (update_blocks_generic true) [[0x61]; [0x62; 0x63]] = Ok (Fips.sha256 [0x61; 0x62; 0x63]).
Proof. apply (sha256_refines_fips true [[0x61]; [0x62; 0x63]]). vm_compute. reflexivity. Defined.
