(* ===== verification/Simd32.v ===== *)
(** * x86 vector registers by their 32-bit lanes

    The intrinsics of [core::arch] that src/checksum/sha256.rs uses, on a little-endian
    target.  A 128-bit register is its four 32-bit lanes, lowest first; bytes and 64-bit
    lanes are views of it.  A 256-bit register is two of them: every instruction used on
    it but the permutation acts on each half alone.  The class [Vec] holds the
    operations that exist at both widths. *)

From S2P Require Import Prelude Decoder Stream Simd Fletcher Sha256.

Open Scope Z_scope.
Open Scope list_scope.

Record m128 : Type := M128 { l0 : Z; l1 : Z; l2 : Z; l3 : Z }.
Definition m256 : Type := m128 * m128.

Definition lanes (r : m128) : list Z := [l0 r; l1 r; l2 r; l3 r].
Definition of_lanes (l : list Z) : m128 := M128 (nth 0 l 0) (nth 1 l 0) (nth 2 l 0) (nth 3 l 0).
Definition lane_bytes (r : m128) : bytes := flat_map (le_split 4) (lanes r).
Definition of_lane_bytes (bs : bytes) : m128 := of_lanes (map le_combine (chunks_exact 4 bs)).

(** ** Memory *)
(** [_mm_lddqu_si128] of the [i]th register of a block of bytes. *)
Definition lddqu (block : bytes) (i : Z) : m128 := of_lane_bytes (ztake 16 (zdrop (16 * i) block)).
(** [_mm_load_si128] and [_mm_store_si128] at index [i] of an array of words. *)
Definition load_words (l : list Z) (i : nat) : m128 := of_lanes (drop i l).
Definition store_words (l : list Z) (i : nat) (r : m128) : list Z := list_inserts i (lanes r) l.
(** [_mm_set_epi8]: the highest byte first. *)
Definition set_epi8 (bs : list Z) : m128 := of_lane_bytes (rev bs).

(** ** One register *)
Definition map_lanes (f : Z -> Z) (a : m128) : m128 := M128 (f (l0 a)) (f (l1 a)) (f (l2 a)) (f (l3 a)).
Definition zip_lanes (f : Z -> Z -> Z) (a b : m128) : m128 :=
  M128 (f (l0 a) (l0 b)) (f (l1 a) (l1 b)) (f (l2 a) (l2 b)) (f (l3 a) (l3 b)).
(** A shift of the 64-bit lane of two 32-bit lanes. *)
Definition srl64 (n lo hi : Z) : Z * Z :=
  let x := Z.shiftr (lo + 2 ^ 32 * hi) n in (x mod 2 ^ 32, x / 2 ^ 32).
Definition mm_srli_epi64 (a : m128) (n : Z) : m128 :=
  let '(x0, x1) := srl64 n (l0 a) (l1 a) in let '(x2, x3) := srl64 n (l2 a) (l3 a) in M128 x0 x1 x2 x3.
(** [_mm_srli_si128(a, n)]: the register moved down by [n] bytes. *)
Definition mm_srli_si128 (a : m128) (n : Z) : m128 := of_lane_bytes (zdrop n (lane_bytes a) ++ zrep n 0).
(** [_mm_alignr_epi8(a, b, n)]: 16 bytes of [a] above [b], from byte [n]. *)
Definition mm_alignr_epi8 (a b : m128) (n : Z) : m128 :=
  of_lane_bytes (ztake 16 (zdrop n (lane_bytes b ++ lane_bytes a))).
Definition mm_unpacklo_epi32 (a b : m128) : m128 := M128 (l0 a) (l0 b) (l1 a) (l1 b).
Definition mm_unpackhi_epi32 (a b : m128) : m128 := M128 (l2 a) (l2 b) (l3 a) (l3 b).
Definition mm_unpacklo_epi64 (a b : m128) : m128 := M128 (l0 a) (l1 a) (l0 b) (l1 b).
Definition mm_unpackhi_epi64 (a b : m128) : m128 := M128 (l2 a) (l3 a) (l2 b) (l3 b).
(** [_mm_shuffle_epi32(a, imm)]: lane [i] is the lane at bits [2i] and [2i + 1] of [imm]. *)
Definition mm_shuffle_epi32 (a : m128) (imm : Z) : m128 :=
  of_lanes (map (fun i => nth (Z.to_nat (Z.land (Z.shiftr imm (2 * i)) 3)) (lanes a) 0) [0; 1; 2; 3]).
Definition mm_shuffle_epi8 (a m : m128) : m128 := of_lane_bytes (shuffle16 (lane_bytes a) (lane_bytes m)).

(** ** Both widths *)
Class Vec (V : Type) := {
  add_epi32 : V -> V -> V;
  or_si : V -> V -> V;
  xor_si : V -> V -> V;
  srli_epi32 : V -> Z -> V;
  slli_epi32 : V -> Z -> V;
  srli_epi64 : V -> Z -> V;
  srli_si : V -> Z -> V;
  alignr_epi8 : V -> V -> Z -> V;
  unpacklo_epi32 : V -> V -> V;
  unpackhi_epi32 : V -> V -> V;
  shuffle_epi32 : V -> Z -> V;
  shuffle_epi8 : V -> V -> V
}.
#[export] Instance vec128 : Vec m128 := {
  add_epi32 := zip_lanes add32;
  or_si := zip_lanes Z.lor;
  xor_si := zip_lanes Z.lxor;
  srli_epi32 a n := map_lanes (fun x => Z.shiftr x n) a;
  slli_epi32 a n := map_lanes (fun x => wrap 32 (Z.shiftl x n)) a;
  srli_epi64 := mm_srli_epi64;
  srli_si := mm_srli_si128;
  alignr_epi8 := mm_alignr_epi8;
  unpacklo_epi32 := mm_unpacklo_epi32;
  unpackhi_epi32 := mm_unpackhi_epi32;
  shuffle_epi32 := mm_shuffle_epi32;
  shuffle_epi8 := mm_shuffle_epi8
}.
(** The 256-bit instructions on the halves of their operands. *)
Definition halves2 (f : m128 -> m128 -> m128) (a b : m256) : m256 := (f (fst a) (fst b), f (snd a) (snd b)).
Definition halves1 (f : m128 -> Z -> m128) (a : m256) (n : Z) : m256 := (f (fst a) n, f (snd a) n).
#[export] Instance vec256 : Vec m256 := {
  add_epi32 := halves2 add_epi32;
  or_si := halves2 or_si;
  xor_si := halves2 xor_si;
  srli_epi32 := halves1 srli_epi32;
  slli_epi32 := halves1 slli_epi32;
  srli_epi64 := halves1 srli_epi64;
  srli_si := halves1 srli_si;
  alignr_epi8 a b n := (alignr_epi8 (fst a) (fst b) n, alignr_epi8 (snd a) (snd b) n);
  unpacklo_epi32 := halves2 unpacklo_epi32;
  unpackhi_epi32 := halves2 unpackhi_epi32;
  shuffle_epi32 := halves1 shuffle_epi32;
  shuffle_epi8 := halves2 shuffle_epi8
}.
(** [_mm256_permute2x128_si256(a, b, imm)]: each half is chosen by two bits, or zero. *)
Definition permute2x128 (a b : m256) (imm : Z) : m256 :=
  let pick c := if Z.testbit c 3 then M128 0 0 0 0 else nth (Z.to_nat (Z.land c 3)) [fst a; snd a; fst b; snd b] (fst a) in
  (pick imm, pick (Z.shiftr imm 4)).
Definition lddqu256 (block : bytes) (i : Z) : m256 := (lddqu block (2 * i), lddqu block (2 * i + 1)).
Definition load_words256 (l : list Z) (i : nat) : m256 := (load_words l i, load_words l (i + 4)).
Definition store_words256 (l : list Z) (i : nat) (r : m256) : list Z :=
  store_words (store_words l i (fst r)) (i + 4) (snd r).
Definition set_epi8_256 (bs : list Z) : m256 := (set_epi8 (drop 16 bs), set_epi8 (take 16 bs)).

(** ** The SHA extension, as the instruction set describes it *)
(** [_mm_sha256rnds2_epu32(a, b, k)]: two rounds, [a] holding C, D, G and H from the
    highest lane down, [b] A, B, E and F; the result holds the new A, B, E and F. *)
Definition sha_round (r : regs) (wk : Z) : regs :=
  let t := add32 (add32 (add32 (Fips.Ch (re r) (rf r) (rg r)) (Fips.Sigma1 (re r))) wk) (rh r) in
  {| ra := add32 (add32 t (Fips.Maj (ra r) (rb r) (rc r))) (Fips.Sigma0 (ra r));
     rb := ra r; rc := rb r; rd := rc r;
     re := add32 t (rd r); rf := re r; rg := rf r; rh := rg r |}.
Definition sha256rnds2_epu32 (a b k : m128) : m128 :=
  let r := {| ra := l3 b; rb := l2 b; rc := l3 a; rd := l2 a; re := l1 b; rf := l0 b; rg := l1 a; rh := l0 a |} in
  let r := sha_round (sha_round r (l0 k)) (l1 k) in
  M128 (rf r) (re r) (rb r) (ra r).
(** [_mm_sha256msg1_epu32(a, b)]: the first part of the schedule. *)
Definition sha256msg1_epu32 (a b : m128) : m128 :=
  M128 (add32 (l0 a) (Fips.sigma0 (l1 a))) (add32 (l1 a) (Fips.sigma0 (l2 a)))
    (add32 (l2 a) (Fips.sigma0 (l3 a))) (add32 (l3 a) (Fips.sigma0 (l0 b))).
(** [_mm_sha256msg2_epu32(a, b)]: the second part; its upper lanes use its lower ones. *)
Definition sha256msg2_epu32 (a b : m128) : m128 :=
  let w16 := add32 (l0 a) (Fips.sigma1 (l2 b)) in
  let w17 := add32 (l1 a) (Fips.sigma1 (l3 b)) in
  M128 w16 w17 (add32 (l2 a) (Fips.sigma1 w16)) (add32 (l3 a) (Fips.sigma1 w17)).

(** ** Views *)
Definition lanes_fit (r : m128) : Prop := fits 32 (l0 r) /\ fits 32 (l1 r) /\ fits 32 (l2 r) /\ fits 32 (l3 r).

Lemma chunk4 c l : blen c = 4 -> chunks_exact 4 (c ++ l) = c :: chunks_exact 4 l.
Proof.
  intros Hc. rewrite chunks_exact_app by (try lia; rewrite Hc; apply Z.divide_refl).
  rewrite (chunks_exact_cons 4 c) by lia. rewrite zdrop_ge, ztake_ge by lia. reflexivity.
Qed.
Lemma lane_words l : Forall (fits 32) l -> map le_combine (chunks_exact 4 (flat_map (le_split 4) l)) = l.
Proof.
  induction 1 as [|x l Hx _ IH]; [done|]. cbn [flat_map]. rewrite chunk4 by (unfold blen; now rewrite length_le_split).
  cbn [map]. rewrite IH, le_combine_split. f_equal. now apply Z.mod_small.
Qed.
(** Bytes cut at a lane are lanes. *)
Lemma cut_lanes n l :
  zdrop (4 * Z.of_nat n) (flat_map (le_split 4) l) = flat_map (le_split 4) (drop n l) /\
  ztake (4 * Z.of_nat n) (flat_map (le_split 4) l) = flat_map (le_split 4) (take n l).
Proof.
  rewrite zdrop_drop, ztake_take by lia. replace (Z.to_nat (4 * Z.of_nat n)) with (4 * n)%nat by lia.
  revert l. induction n as [|n IH]; intros l; [done|]. destruct l as [|x l]; [now rewrite drop_nil, take_nil|].
  destruct (IH l) as [I1 I2]. cbn [flat_map drop take]. rewrite <- I1, <- I2.
  pose proof (length_le_split 4 x) as Hx. replace (4 * S n)%nat with (length (le_split 4 x) + 4 * n)%nat by lia.
  split; [now rewrite drop_app_add|now rewrite take_app_add].
Qed.
Lemma of_lane_bytes_lanes l : Forall (fits 32) l -> of_lane_bytes (flat_map (le_split 4) l) = of_lanes l.
Proof. intros H. unfold of_lane_bytes. now rewrite lane_words. Qed.
Lemma lanes_fit_all r : lanes_fit r -> Forall (fits 32) (lanes r).
Proof. intros (?&?&?&?). unfold lanes. rewrite !Forall_cons. auto using Forall_nil_2. Qed.

Lemma alignr_lanes n a b :
  lanes_fit a -> lanes_fit b ->
  alignr_epi8 a b (4 * Z.of_nat n) = of_lanes (take 4 (drop n (lanes b ++ lanes a))).
Proof.
  intros Ha%lanes_fit_all Hb%lanes_fit_all. cbn [alignr_epi8 vec128]. unfold mm_alignr_epi8, lane_bytes.
  rewrite <- flat_map_app, (proj1 (cut_lanes n _)). change 16 with (4 * Z.of_nat 4). rewrite (proj2 (cut_lanes 4 _)).
  now apply of_lane_bytes_lanes, Forall_take, Forall_drop, Forall_app_2.
Qed.
Lemma srli_lanes a : lanes_fit a -> srli_si a 8 = M128 (l2 a) (l3 a) 0 0.
Proof.
  intros Ha%lanes_fit_all. cbn [srli_si vec128]. unfold mm_srli_si128, lane_bytes.
  change 8 with (4 * Z.of_nat 2) at 1. rewrite (proj1 (cut_lanes 2 _)).
  change (zrep 8 0) with (flat_map (le_split 4) [0; 0]). rewrite <- flat_map_app. rewrite of_lane_bytes_lanes; [reflexivity|].
  apply Forall_app_2; [now apply Forall_drop|]. repeat constructor; unfold fits; lia.
Qed.

(** The low half of a doubled word shifted in a 64-bit lane is the word rotated. *)
Lemma srl64_rotr n x : 0 < n < 32 -> fits 32 x -> fst (srl64 n x x) = rotr n x.
Proof.
  intros Hn Hx. unfold srl64, rotr. cbn [fst]. apply Z.bits_inj'. intros i Hi. unfold wrap.
  replace (x + 2 ^ 32 * x) with (Z.lor (Z.shiftl x 32) x).
  2:{ rewrite Z.shiftl_mul_pow2 by lia. rewrite lor_add_high by (destruct Hx; lia). lia. }
  rewrite Z.lor_spec, Z.shiftr_spec by lia. destruct (Z.lt_ge_cases i 32) as [H|H].
  - rewrite !Z.mod_pow2_bits_low by lia. rewrite Z.shiftr_spec, Z.lor_spec, !Z.shiftl_spec by lia.
    rewrite orb_comm. do 2 f_equal. lia.
  - rewrite !Z.mod_pow2_bits_high by lia. rewrite fits_testbit_high by (done || lia). done.
Qed.

Lemma store_load l i r :
  (i + 4 <= length l)%nat ->
  length (store_words l i r) = length l /\
  (forall j, (j < 4)%nat -> nth (i + j) (store_words l i r) 0 = nth j (lanes r) 0) /\
  (forall j, (j < i \/ i + 4 <= j)%nat -> nth j (store_words l i r) 0 = nth j l 0).
Proof.
  intros Hi. unfold store_words. split; [apply length_inserts|]. split; intros j Hj; rewrite !nth_lookup.
  - rewrite list_lookup_inserts by (cbn; lia). now rewrite Nat.add_comm, Nat.add_sub.
  - destruct Hj; [rewrite list_lookup_inserts_lt by lia|rewrite list_lookup_inserts_ge by (cbn; lia)]; done.
Qed.
