(* ===== verification/Sha256Simd.v ===== *)
(** * SHA-256 with vector instructions (src/checksum/sha256.rs)

    The BMI, SSSE3, AVX, AVX2 and SHA implementations of the block function.  SSSE3 and
    AVX schedule four words at a time in 128-bit registers, after the paper "Fast
    SHA-256 Implementations on Intel Architecture Processors"; AVX2 schedules two blocks
    at once, one in each half of its registers, does the rounds of the first meanwhile
    and those of the second after; SHA uses the instructions for rounds and schedule.
    All compute the same function of state and data as the generic one, so the hasher
    over any of them is FIPS 180-4.

    As in Sha256 the macros rename their variables from call to call, and here the
    values are rotated.  The scalar rounds and the vector schedule of one macro are
    interleaved in the code but share only the words that are stored for the rounds. *)

From AAC_tactics Require Import AAC.
From S2P Require Import Prelude Decoder Encoder Types Stream Simd Fletcher Sha256 Simd32.

Open Scope Z_scope.
Open Scope list_scope.

(** ** BMI *)
(** The rounds use no shared subexpression for the rotations, and take the word before
    the constant.  [w] and [k] are pointers that move together. *)
Definition bmi_round_step (s : list Z * regs) (i : nat) : list Z * regs :=
  let '(w, r) := s in
  if (i <? 16)%nat then (w, round_with false r (nth i w 0) (nth i K 0))
  else
    let wi := schedule_word w i in
    (<[i := wi]> w, round_with false r wi (nth i K 0)).
Definition bmi_block_step (s : list Z * regs) (block : bytes) : list Z * regs :=
  let '(w, st) := s in
  let '(w', r) := fold_left bmi_round_step (seq 0 64) (load_block w block, st) in
  (w', Fips.add_regs r st).
Definition update_blocks_bmi (st : regs) (data : bytes) : regs :=
  snd (fold_left bmi_block_step (chunks_exact SHA_256_BLOCK_SIZE data) (zrep 64 0, st)).

(** ** Rounds on a word and constant already added *)
(** What follows [temp1] and the rotations of [a]. *)
Definition round_tail (r : regs) (temp1 s0 : Z) : regs :=
  let d := add32 (rd r) temp1 in
  let maj := Z.land (ra r) (rb r) in
  let maj_b := Z.land (ra r) (rc r) in
  let maj := Z.lxor maj maj_b in
  let maj_c := Z.land (rb r) (rc r) in
  let maj := Z.lxor maj maj_c in
  let temp2 := add32 s0 maj in
  let h := add32 temp1 temp2 in
  {| ra := h; rb := ra r; rc := rb r; rd := rc r; re := d; rf := re r; rg := rf r; rh := rg r |}.
Definition choose (r : regs) : Z :=
  let ch_b := not32 (re r) in
  let ch := Z.land (re r) (rf r) in
  let ch_b := Z.land ch_b (rg r) in
  Z.lxor ch ch_b.

Definition round_ssse3_or_avx (r : regs) (wk : Z) : regs :=
  let ch := choose r in
  let s1 := rotr 14 (re r) in
  let s1 := Z.lxor (re r) s1 in
  let s1 := rotr 5 s1 in
  let s1 := Z.lxor (re r) s1 in
  let s1 := rotr 6 s1 in
  let temp1 := add32 (rh r) s1 in
  let temp1 := add32 temp1 ch in
  let temp1 := add32 temp1 wk in
  let s0 := rotr 9 (ra r) in
  let s0 := Z.lxor (ra r) s0 in
  let s0 := rotr 11 s0 in
  let s0 := Z.lxor (ra r) s0 in
  let s0 := rotr 2 s0 in
  round_tail r temp1 s0.

(** The rounds of AVX2: those of [round!] add the word before [ch], those inside
    [schedule_and_rounds!] after it. *)
Definition s1_plain (e : Z) : Z :=
  let s1 := rotr 6 e in
  let s1_b := rotr 11 e in
  let s1 := Z.lxor s1 s1_b in
  let s1_c := rotr 25 e in
  Z.lxor s1 s1_c.
Definition s0_plain (a : Z) : Z :=
  let s0 := rotr 2 a in
  let s0_b := rotr 13 a in
  let s0 := Z.lxor s0 s0_b in
  let s0_c := rotr 22 a in
  Z.lxor s0 s0_c.
Definition round_avx2 (r : regs) (wk : Z) : regs :=
  let ch := choose r in
  let s1 := s1_plain (re r) in
  let temp1 := add32 (rh r) s1 in
  let temp1 := add32 temp1 wk in
  let temp1 := add32 temp1 ch in
  round_tail r temp1 (s0_plain (ra r)).
Definition round_avx2_scheduled (r : regs) (wk : Z) : regs :=
  let ch := choose r in
  let s1 := s1_plain (re r) in
  let temp1 := add32 (rh r) s1 in
  let temp1 := add32 temp1 ch in
  let temp1 := add32 temp1 wk in
  round_tail r temp1 (s0_plain (ra r)).

(** Four rounds with the words at [i] of [wk]. *)
Definition four_rounds (round : regs -> Z -> regs) (wk : list Z) (i : nat) (r : regs) : regs :=
  round (round (round (round r (nth i wk 0)) (nth (i + 1) wk 0)) (nth (i + 2) wk 0)) (nth (i + 3) wk 0).

(** ** The schedule in vector registers *)
(** Four new words from the last sixteen, in registers of either width: first all but
    the part of the words two before. *)
Definition add_s0 {V} `{Vec V} (w_00_04 w_04_08 w_08_12 w_12_16 : V) : V :=
  let w_01_05 := alignr_epi8 w_04_08 w_00_04 4 in
  let w_01_05_ror_7_a := srli_epi32 w_01_05 7 in
  let w_01_05_ror_7_b := slli_epi32 w_01_05 (32 - 7) in
  let w_01_05_ror_7 := or_si w_01_05_ror_7_a w_01_05_ror_7_b in
  let w_01_05_ror_18_a := srli_epi32 w_01_05 18 in
  let w_01_05_ror_18_b := slli_epi32 w_01_05 (32 - 18) in
  let w_01_05_ror_18 := or_si w_01_05_ror_18_a w_01_05_ror_18_b in
  let s0_16_20_a := xor_si w_01_05_ror_7 w_01_05_ror_18 in
  let s0_16_20_b := srli_epi32 w_01_05 3 in
  let s0_16_20 := xor_si s0_16_20_a s0_16_20_b in
  let w_16_20_minus_s1_minus_w7 := add_epi32 w_00_04 s0_16_20 in
  let w_09_13 := alignr_epi8 w_12_16 w_08_12 4 in
  add_epi32 w_16_20_minus_s1_minus_w7 w_09_13.
(** Of those, two are words of the last four, and two are new. *)
Definition add_s1 {V} `{Vec V} (w_00_04 w_12_16 : V) : V :=
  let w_1414_1515 := unpackhi_epi32 w_12_16 w_12_16 in
  let w_14gg_15gg_ror_17 := srli_epi64 w_1414_1515 17 in
  let w_14gg_15gg_ror_19 := srli_epi64 w_1414_1515 19 in
  let w_14gg_15gg := xor_si w_14gg_15gg_ror_17 w_14gg_15gg_ror_19 in
  let w_gggg_1415_ror := shuffle_epi32 w_14gg_15gg 0x80 in
  let s1_14_18_a := srli_epi32 w_12_16 10 in
  let s1_14_18 := xor_si w_gggg_1415_ror s1_14_18_a in
  let w_16_20_18_a := srli_si s1_14_18 8 in
  let w_16_20_18 := add_epi32 w_00_04 w_16_20_18_a in
  let w_14_18 := alignr_epi8 w_16_20_18 w_12_16 8 in
  let w_1616_1717 := unpacklo_epi32 w_16_20_18 w_16_20_18 in
  let w_16gg_17gg_ror_17 := srli_epi64 w_1616_1717 17 in
  let w_16gg_17gg_ror_19 := srli_epi64 w_1616_1717 19 in
  let w_16gg_17gg := xor_si w_16gg_17gg_ror_17 w_16gg_17gg_ror_19 in
  let w_1617_gggg := shuffle_epi32 w_16gg_17gg 0x08 in
  let w_14_18_ror := alignr_epi8 w_1617_gggg w_gggg_1415_ror 8 in
  let s1_16_20_b := srli_epi32 w_14_18 10 in
  let s1_16_20 := xor_si w_14_18_ror s1_16_20_b in
  add_epi32 w_00_04 s1_16_20.
Definition schedule {V} `{Vec V} (w_00_04 w_04_08 w_08_12 w_12_16 : V) : V :=
  let w_00_04 := add_s0 w_00_04 w_04_08 w_08_12 w_12_16 in
  add_s1 w_00_04 w_12_16.

(** ** SSSE3 and AVX *)
Definition shuffle : m128 := set_epi8 [
  0x0c; 0x0d; 0x0e; 0x0f;
  0x08; 0x09; 0x0a; 0x0b;
  0x04; 0x05; 0x06; 0x07;
  0x00; 0x01; 0x02; 0x03].

(** The variables of one block: [round], the array [wk], the working variables and the
    registers with the last sixteen words, the oldest four first. *)
Record scheduled : Type := Scheduled {
  s_round : nat; s_wk : list Z; s_regs : regs; s_w0 : m128; s_w1 : m128; s_w2 : m128; s_w3 : m128
}.
Definition schedule_and_rounds_ssse3_or_avx (s : scheduled) : scheduled :=
  let k := load_words K (s_round s) in
  let k := add_epi32 k (s_w0 s) in
  let wk := store_words (s_wk s) (s_round s) k in
  let r := four_rounds round_ssse3_or_avx wk (s_round s) (s_regs s) in
  let w := schedule (s_w0 s) (s_w1 s) (s_w2 s) (s_w3 s) in
  Scheduled (s_round s + 4) wk r (s_w1 s) (s_w2 s) (s_w3 s) w.
(** [while round < 48], four calls a turn. *)
Fixpoint schedule_loop (fuel : nat) (s : scheduled) : scheduled :=
  match fuel with
  | O => s
  | S fuel' =>
      if (s_round s <? 48)%nat then
        let s := schedule_and_rounds_ssse3_or_avx s in
        let s := schedule_and_rounds_ssse3_or_avx s in
        let s := schedule_and_rounds_ssse3_or_avx s in
        let s := schedule_and_rounds_ssse3_or_avx s in
        schedule_loop fuel' s
      else s
  end.
(** The last rounds, with nothing left to schedule. *)
Definition last_rounds (s : scheduled) : scheduled :=
  let k := load_words K (s_round s) in
  let k := add_epi32 k (s_w0 s) in
  let wk := store_words (s_wk s) (s_round s) k in
  let r := four_rounds round_ssse3_or_avx wk (s_round s) (s_regs s) in
  Scheduled (s_round s + 4) wk r (s_w1 s) (s_w2 s) (s_w3 s) (s_w0 s).
Definition block_step_128 (s : list Z * regs) (block : bytes) : list Z * regs :=
  let '(wk, st) := s in
  let w0 := shuffle_epi8 (lddqu block 0) shuffle in
  let w1 := shuffle_epi8 (lddqu block 1) shuffle in
  let w2 := shuffle_epi8 (lddqu block 2) shuffle in
  let w3 := shuffle_epi8 (lddqu block 3) shuffle in
  let s := schedule_loop 4 (Scheduled 0 wk st w0 w1 w2 w3) in
  let s := last_rounds (last_rounds (last_rounds (last_rounds s))) in
  (s_wk s, Fips.add_regs (s_regs s) st).
Definition update_blocks_ssse3 (st : regs) (data : bytes) : regs :=
  snd (fold_left block_step_128 (chunks_exact SHA_256_BLOCK_SIZE data) (zrep 64 0, st)).
Definition update_blocks_avx (st : regs) (data : bytes) : regs :=
  snd (fold_left block_step_128 (chunks_exact SHA_256_BLOCK_SIZE data) (zrep 64 0, st)).

(** ** AVX2 *)
(** The constants, each four of them twice. *)
Definition K2 : list Z :=
  [0x428a2f98; 0x71374491; 0xb5c0fbcf; 0xe9b5dba5; 0x428a2f98; 0x71374491; 0xb5c0fbcf; 0xe9b5dba5;
   0x3956c25b; 0x59f111f1; 0x923f82a4; 0xab1c5ed5; 0x3956c25b; 0x59f111f1; 0x923f82a4; 0xab1c5ed5;
   0xd807aa98; 0x12835b01; 0x243185be; 0x550c7dc3; 0xd807aa98; 0x12835b01; 0x243185be; 0x550c7dc3;
   0x72be5d74; 0x80deb1fe; 0x9bdc06a7; 0xc19bf174; 0x72be5d74; 0x80deb1fe; 0x9bdc06a7; 0xc19bf174;
   0xe49b69c1; 0xefbe4786; 0x0fc19dc6; 0x240ca1cc; 0xe49b69c1; 0xefbe4786; 0x0fc19dc6; 0x240ca1cc;
   0x2de92c6f; 0x4a7484aa; 0x5cb0a9dc; 0x76f988da; 0x2de92c6f; 0x4a7484aa; 0x5cb0a9dc; 0x76f988da;
   0x983e5152; 0xa831c66d; 0xb00327c8; 0xbf597fc7; 0x983e5152; 0xa831c66d; 0xb00327c8; 0xbf597fc7;
   0xc6e00bf3; 0xd5a79147; 0x06ca6351; 0x14292967; 0xc6e00bf3; 0xd5a79147; 0x06ca6351; 0x14292967;
   0x27b70a85; 0x2e1b2138; 0x4d2c6dfc; 0x53380d13; 0x27b70a85; 0x2e1b2138; 0x4d2c6dfc; 0x53380d13;
   0x650a7354; 0x766a0abb; 0x81c2c92e; 0x92722c85; 0x650a7354; 0x766a0abb; 0x81c2c92e; 0x92722c85;
   0xa2bfe8a1; 0xa81a664b; 0xc24b8b70; 0xc76c51a3; 0xa2bfe8a1; 0xa81a664b; 0xc24b8b70; 0xc76c51a3;
   0xd192e819; 0xd6990624; 0xf40e3585; 0x106aa070; 0xd192e819; 0xd6990624; 0xf40e3585; 0x106aa070;
   0x19a4c116; 0x1e376c08; 0x2748774c; 0x34b0bcb5; 0x19a4c116; 0x1e376c08; 0x2748774c; 0x34b0bcb5;
   0x391c0cb3; 0x4ed8aa4a; 0x5b9cca4f; 0x682e6ff3; 0x391c0cb3; 0x4ed8aa4a; 0x5b9cca4f; 0x682e6ff3;
   0x748f82ee; 0x78a5636f; 0x84c87814; 0x8cc70208; 0x748f82ee; 0x78a5636f; 0x84c87814; 0x8cc70208;
   0x90befffa; 0xa4506ceb; 0xbef9a3f7; 0xc67178f2; 0x90befffa; 0xa4506ceb; 0xbef9a3f7; 0xc67178f2].

Definition shuffle_256 : m256 := set_epi8_256 [
  0x0c; 0x0d; 0x0e; 0x0f;
  0x08; 0x09; 0x0a; 0x0b;
  0x04; 0x05; 0x06; 0x07;
  0x00; 0x01; 0x02; 0x03;
  0x0c; 0x0d; 0x0e; 0x0f;
  0x08; 0x09; 0x0a; 0x0b;
  0x04; 0x05; 0x06; 0x07;
  0x00; 0x01; 0x02; 0x03].

(** The same schedule in both halves. *)
Definition add_s0_avx2 : m256 -> m256 -> m256 -> m256 -> m256 := add_s0.
Definition add_s1_avx2 : m256 -> m256 -> m256 := add_s1.

(** The pointers [kp] and [wp] as indices of [K2] and of the array [w]. *)
Record scheduled2 : Type := Scheduled2 {
  d_kp : nat; d_wp : nat; d_w : list Z; d_regs : regs; d_w0 : m256; d_w1 : m256; d_w2 : m256; d_w3 : m256
}.
Definition schedule_and_rounds_avx2 (s : scheduled2) : scheduled2 :=
  let k := load_words256 K2 (d_kp s) in
  let k := add_epi32 k (d_w0 s) in
  let w := store_words256 (d_w s) (d_wp s) k in
  let r := four_rounds round_avx2_scheduled w (d_wp s) (d_regs s) in
  let v := add_s1_avx2 (add_s0_avx2 (d_w0 s) (d_w1 s) (d_w2 s) (d_w3 s)) (d_w3 s) in
  Scheduled2 (d_kp s + 8) (d_wp s + 8) w r (d_w1 s) (d_w2 s) (d_w3 s) v.
Definition schedule_turn_avx2 (s : scheduled2) : scheduled2 :=
  let s := schedule_and_rounds_avx2 s in
  let s := schedule_and_rounds_avx2 s in
  let s := schedule_and_rounds_avx2 s in
  schedule_and_rounds_avx2 s.
(** The last rounds of the first block: [kp] stays where it is. *)
Definition last_rounds_avx2 (i : nat) (s : scheduled2) : scheduled2 :=
  let k := load_words256 K2 (d_kp s + 8 * i) in
  let k := add_epi32 k (d_w0 s) in
  let w := store_words256 (d_w s) (d_wp s) k in
  let r := four_rounds round_avx2 w (d_wp s) (d_regs s) in
  Scheduled2 (d_kp s) (d_wp s + 8) w r (d_w1 s) (d_w2 s) (d_w3 s) (d_w0 s).
(** The rounds of the second block: eight to a turn. *)
Definition second_turn (w : list Z) (s : nat * regs) (_ : nat) : nat * regs :=
  let '(wp, r) := s in
  let r := four_rounds round_avx2 w wp r in
  let wp := (wp + 8)%nat in
  let r := four_rounds round_avx2 w wp r in
  ((wp + 8)%nat, r).
Definition block_step_avx2 (s : list Z * regs) (block : bytes) : list Z * regs :=
  let '(w, st) := s in
  let w01 := shuffle_epi8 (lddqu256 block 0) shuffle_256 in
  let w23 := shuffle_epi8 (lddqu256 block 1) shuffle_256 in
  let w45 := shuffle_epi8 (lddqu256 block 2) shuffle_256 in
  let w67 := shuffle_epi8 (lddqu256 block 3) shuffle_256 in
  let w04 := permute2x128 w01 w45 0x20 in
  let w15 := permute2x128 w01 w45 0x31 in
  let w26 := permute2x128 w23 w67 0x20 in
  let w37 := permute2x128 w23 w67 0x31 in
  let s := fold_left (fun s _ => schedule_turn_avx2 s) (seq 0 3) (Scheduled2 0 0 w st w04 w15 w26 w37) in
  let s := last_rounds_avx2 3 (last_rounds_avx2 2 (last_rounds_avx2 1 (last_rounds_avx2 0 s))) in
  let st := Fips.add_regs (d_regs s) st in
  let '(_, r) := fold_left (second_turn (d_w s)) (seq 0 8) (4%nat, st) in
  (d_w s, Fips.add_regs r st).
Definition update_blocks_avx2 (st : regs) (data : bytes) : regs :=
  let st := snd (fold_left block_step_avx2 (chunks_exact (2 * SHA_256_BLOCK_SIZE) data) (zrep 128 0, st)) in
  let remainder := zdrop (blen data - blen data mod (2 * SHA_256_BLOCK_SIZE)) data in
  if bool_decide (remainder = []) then st else update_blocks_avx st remainder.

(** ** SHA *)
(** Four rounds: two into [cdgh], two into [abef]. *)
Definition sha_rounds4 (s : m128 * m128) (wk : m128) : m128 * m128 :=
  let '(abef, cdgh) := s in
  let cdgh := sha256rnds2_epu32 cdgh abef wk in
  let wk_b := shuffle_epi32 wk 0x0e in
  let abef := sha256rnds2_epu32 abef cdgh wk_b in
  (abef, cdgh).
(** [w] with [w - 7] added, for the second part of the schedule. *)
Definition sha_next (x w_prev w : m128) : m128 :=
  let w_7 := alignr_epi8 w w_prev 4 in
  let z := add_epi32 x w_7 in
  sha256msg2_epu32 z w.

Record sha_vars : Type := ShaVars {
  v_rounds : nat; v_state : m128 * m128; v_w_12_16 : m128; v_w_16_20 : m128; v_x_04_08 : m128; v_x_08_12 : m128
}.
Definition sha_turn (s : sha_vars) : sha_vars :=
  let k_16_20 := load_words K (v_rounds s) in
  let wk_16_20 := add_epi32 (v_w_16_20 s) k_16_20 in
  let st := sha_rounds4 (v_state s) wk_16_20 in
  let w_20_24 := sha_next (v_x_04_08 s) (v_w_12_16 s) (v_w_16_20 s) in
  let x_12_16 := sha256msg1_epu32 (v_w_12_16 s) (v_w_16_20 s) in
  ShaVars (v_rounds s + 4) st (v_w_16_20 s) w_20_24 (v_x_08_12 s) x_12_16.
(** [while rounds < 52] *)
Fixpoint sha_loop (fuel : nat) (s : sha_vars) : sha_vars :=
  match fuel with
  | O => s
  | S fuel' => if (v_rounds s <? 52)%nat then sha_loop fuel' (sha_turn s) else s
  end.
(** Rounds 0 to 16, on the words of the block. *)
Definition sha_first (st : m128 * m128) (block : bytes) : sha_vars :=
  let w_00_04 := shuffle_epi8 (lddqu block 0) shuffle in
  let st := sha_rounds4 st (add_epi32 w_00_04 (load_words K 0)) in
  let w_04_08 := shuffle_epi8 (lddqu block 1) shuffle in
  let st := sha_rounds4 st (add_epi32 w_04_08 (load_words K 4)) in
  let x_00_04 := sha256msg1_epu32 w_00_04 w_04_08 in
  let w_08_12 := shuffle_epi8 (lddqu block 2) shuffle in
  let st := sha_rounds4 st (add_epi32 w_08_12 (load_words K 8)) in
  let x_04_08 := sha256msg1_epu32 w_04_08 w_08_12 in
  let w_12_16 := shuffle_epi8 (lddqu block 3) shuffle in
  let st := sha_rounds4 st (add_epi32 w_12_16 (load_words K 12)) in
  let w_16_20 := sha_next x_00_04 w_08_12 w_12_16 in
  let x_08_12 := sha256msg1_epu32 w_08_12 w_12_16 in
  ShaVars 16 st w_12_16 w_16_20 x_04_08 x_08_12.
(** Rounds 52 to 64. *)
Definition sha_last (s : sha_vars) : m128 * m128 :=
  let w_48_52 := v_w_12_16 s in
  let w_52_56 := v_w_16_20 s in
  let x_40_44 := v_x_04_08 s in
  let x_44_48 := v_x_08_12 s in
  let st := sha_rounds4 (v_state s) (add_epi32 w_52_56 (load_words K 52)) in
  let w_56_60 := sha_next x_40_44 w_48_52 w_52_56 in
  let st := sha_rounds4 st (add_epi32 w_56_60 (load_words K 56)) in
  let w_60_64 := sha_next x_44_48 w_52_56 w_56_60 in
  sha_rounds4 st (add_epi32 w_60_64 (load_words K 60)).
Definition sha_block_step (s : m128 * m128) (block : bytes) : m128 * m128 :=
  let '(sha_abef, sha_cdgh) := s in
  let '(abef, cdgh) := sha_last (sha_loop 10 (sha_first (sha_abef, sha_cdgh) block)) in
  (add_epi32 sha_abef abef, add_epi32 sha_cdgh cdgh).
(** The state is packed for the instructions before the blocks and unpacked after. *)
Definition sha_pack (st : regs) : m128 * m128 :=
  let abcd := M128 (ra st) (rb st) (rc st) (rd st) in
  let efgh := M128 (re st) (rf st) (rg st) (rh st) in
  (shuffle_epi32 (mm_unpacklo_epi64 abcd efgh) 0x1b, shuffle_epi32 (mm_unpackhi_epi64 abcd efgh) 0x1b).
Definition sha_unpack (s : m128 * m128) : regs :=
  let sha_abef := shuffle_epi32 (fst s) 0x1b in
  let sha_cdgh := shuffle_epi32 (snd s) 0x1b in
  let abcd := mm_unpacklo_epi64 sha_abef sha_cdgh in
  let efgh := mm_unpackhi_epi64 sha_abef sha_cdgh in
  {| ra := l0 abcd; rb := l1 abcd; rc := l2 abcd; rd := l3 abcd; re := l0 efgh; rf := l1 efgh; rg := l2 efgh; rh := l3 efgh |}.
Definition update_blocks_sha (st : regs) (data : bytes) : regs :=
  sha_unpack (fold_left sha_block_step (chunks_exact SHA_256_BLOCK_SIZE data) (sha_pack st)).

(** ** Implementations *)
(** What the processor reports. *)
Record Cpu : Type := {
  has_bmi1 : bool; has_bmi2 : bool; has_sse2 : bool; has_sse3 : bool; has_ssse3 : bool;
  has_avx : bool; has_avx2 : bool; has_sha : bool
}.
Definition sha_is_supported (cpu : Cpu) (i : Sha256Implementation) : bool :=
  match i with
  | ShaGeneric => true
  | BMI => has_bmi1 cpu && has_bmi2 cpu
  | ShaSSSE3 => has_sse2 cpu && has_sse3 cpu && has_ssse3 cpu
  | AVX => has_avx cpu
  | ShaAVX2 => has_avx cpu && has_avx2 cpu && has_bmi1 cpu && has_bmi2 cpu
  | SHA => has_sse2 cpu && has_sse3 cpu && has_ssse3 cpu && has_sha cpu
  end.
Definition sha_update_blocks (i : Sha256Implementation) : regs -> bytes -> regs :=
  match i with
  | ShaGeneric => update_blocks_generic true
  | BMI => update_blocks_bmi
  | ShaSSSE3 => update_blocks_ssse3
  | AVX => update_blocks_avx
  | ShaAVX2 => update_blocks_avx2
  | SHA => update_blocks_sha
  end.
(** [Sha256::new] with the features of every implementation: the block function that the
    hasher keeps. *)
Definition sha_new (cpu : Cpu) (i : Sha256Implementation) : outcome ChecksumError (regs -> bytes -> regs) :=
  if sha_is_supported cpu i then Ok (sha_update_blocks i)
  else Err (ChecksumUnsupported ChecksumType.Sha256 (sha_to_str i)).

Example simd_samples :
  let block := map Z.of_nat (seq 0 192) in
  (fun i => sha_update_blocks i H0 block) <$> [BMI; ShaSSSE3; AVX; ShaAVX2; SHA] =
  replicate 5 (update_blocks_generic true H0 block).
Proof. vm_compute. reflexivity. Qed.

(** ** BMI is the generic function *)
Lemma round_with_swap x86 r x y : round_with x86 r x y = round_with x86 r y x.
Proof. unfold round_with. now rewrite (add32_comm3 _ x y). Qed.
Lemma fold_left_same {S A} (f g : S -> A -> S) : (forall s a, f s a = g s a) -> forall l s, fold_left f l s = fold_left g l s.
Proof. intros H l. induction l as [|a l IH]; intros s; [done|]. cbn [fold_left]. now rewrite H. Qed.
Lemma bmi_generic st data : update_blocks_bmi st data = update_blocks_generic false st data.
Proof.
  assert (Hr : forall s i, bmi_round_step s i = round_step false s i).
  { intros [w r] i. unfold bmi_round_step, round_step. rewrite (round_with_swap _ _ (nth i w 0)). reflexivity. }
  assert (Hb : forall s b, bmi_block_step s b = block_step false s b).
  { intros [w r] b. unfold bmi_block_step, block_step. rewrite (fold_left_same _ _ Hr). reflexivity. }
  unfold update_blocks_bmi. rewrite (fold_left_same _ _ Hb). reflexivity.
Qed.

(** ** Rounds *)
(** Sums of words are sums up to order. *)
#[local] Instance add32_assoc : AAC.Associative eq add32.
Proof. intros a b c. unfold add32, wrap. rewrite Zplus_mod_idemp_l, Zplus_mod_idemp_r. f_equal. lia. Qed.
#[local] Instance add32_comm : AAC.Commutative eq add32.
Proof. intros a b. unfold add32. f_equal. lia. Qed.
#[local] Instance add32_proper : Proper (eq ==> eq ==> eq) add32.
Proof. now intros a _ <- b _ <-. Qed.
#[local] Instance lift_eq : AAC.AAC_lift (@eq Z) (@eq Z) := {}.

(** A round function on the sum of word and constant is the standard's. *)
Definition round_ok (round : regs -> Z -> regs) : Prop :=
  forall r k w, regs_fit r -> round r (add32 k w) = Fips.round r (k, w).
Lemma round_tail_with x86 r k w temp1 s0 :
  temp1 = add32 (add32 (add32 (rh r) (big_s1 x86 (re r))) (choose r)) (add32 k w) ->
  s0 = big_s0 x86 (ra r) -> round_tail r temp1 s0 = round_with x86 r k w.
Proof. intros -> ->. unfold round_with. now rewrite (add32_assoc _ k w). Qed.
Lemma round_ssse3_ok : round_ok round_ssse3_or_avx.
Proof.
  intros r k w Hr. rewrite <- (proj1 (round_with_fips true r k w Hr)).
  apply round_tail_with; unfold big_s1, big_s0; now rewrite !(Z.lxor_comm (_ r)).
Qed.
Lemma round_avx2_scheduled_ok : round_ok round_avx2_scheduled.
Proof. intros r k w Hr. rewrite <- (proj1 (round_with_fips false r k w Hr)). now apply round_tail_with. Qed.
Lemma round_avx2_ok : round_ok round_avx2.
Proof.
  intros r k w Hr. rewrite <- (proj1 (round_with_fips false r k w Hr)).
  apply round_tail_with; [|done]. apply add32_comm3.
Qed.
Lemma round_sums h c s k w m z d :
  let t := add32 (add32 (add32 c s) (add32 k w)) h in let t1 := add32 (add32 (add32 (add32 h s) c) k) w in
  add32 (add32 t m) z = add32 t1 (add32 z m) /\ add32 t d = add32 d t1.
Proof. split; aac_reflexivity. Qed.
Lemma sha_round_ok : round_ok sha_round.
Proof.
  intros r k w _. unfold sha_round, Fips.round. cbn [fst snd].
  destruct (round_sums (rh r) (Fips.Ch (re r) (rf r) (rg r)) (Fips.Sigma1 (re r)) k w
    (Fips.Maj (ra r) (rb r) (rc r)) (Fips.Sigma0 (ra r)) (rd r)) as [-> ->]. reflexivity.
Qed.

(** ** The schedule *)
(** The four words after [a], [b], [c], [d]. *)
Definition next4 (a b c d : m128) : m128 :=
  let w x y z s := add32 (add32 (add32 x (Fips.sigma0 y)) z) (Fips.sigma1 s) in
  let w16 := w (l0 a) (l1 a) (l1 c) (l2 d) in
  let w17 := w (l1 a) (l2 a) (l2 c) (l3 d) in
  M128 w16 w17 (w (l2 a) (l3 a) (l3 c) w16) (w (l3 a) (l0 b) (l0 d) w17).

Lemma add_epi32_fit a b : lanes_fit (add_epi32 a b).
Proof. unfold lanes_fit; cbn. splits; now apply wrap_fits. Qed.
Lemma shiftr_fits n x : 0 <= n -> fits 32 x -> fits 32 (Z.shiftr x n).
Proof.
  intros Hn [H0 H1]. rewrite shiftr_div by done. split; [apply Z.div_pos; lia|].
  apply Z.le_lt_trans with x; [|lia]. apply Z.div_le_upper_bound; [lia|]. nia.
Qed.

Lemma lane_fits2 (f : Z -> Z -> Z) a b :
  (forall x y, fits 32 x -> fits 32 y -> fits 32 (f x y)) -> lanes_fit a -> lanes_fit b -> lanes_fit (zip_lanes f a b).
Proof. intros Hf (?&?&?&?) (?&?&?&?). unfold lanes_fit; cbn. auto. Qed.

(** The lower lane of each doubled word, rotated. *)
Lemma doubled_rotr n x y :
  0 < n < 32 -> fits 32 x -> fits 32 y ->
  let v := srli_epi64 (M128 x x y y) n in l0 v = rotr n x /\ l2 v = rotr n y.
Proof.
  intros Hn Hx Hy v. unfold v. cbn [srli_epi64 vec128]. unfold mm_srli_epi64. cbn [l0 l1 l2 l3].
  pose proof (srl64_rotr n x Hn Hx) as X. pose proof (srl64_rotr n y Hn Hy) as Y.
  now destruct (srl64 n x x), (srl64 n y y).
Qed.
(** A register whose lanes 0 and 2 are known, shuffled to select them. *)
Lemma shuffle_low v : shuffle_epi32 v 0x08 = M128 (l0 v) (l2 v) (l0 v) (l0 v).
Proof. reflexivity. Qed.
Lemma shuffle_high v : shuffle_epi32 v 0x80 = M128 (l0 v) (l0 v) (l0 v) (l2 v).
Proof. reflexivity. Qed.
Lemma alignr_4 a b : lanes_fit a -> lanes_fit b -> alignr_epi8 a b 4 = M128 (l1 b) (l2 b) (l3 b) (l0 a).
Proof. exact (alignr_lanes 1 a b). Qed.
Lemma alignr_8 a b : lanes_fit a -> lanes_fit b -> alignr_epi8 a b 8 = M128 (l2 b) (l3 b) (l0 a) (l1 a).
Proof. exact (alignr_lanes 2 a b). Qed.

Definition half_sigma (x : Z) : Z := Z.lxor (rotr 17 x) (rotr 19 x).
Lemma half_sigma_fits x : fits 32 x -> fits 32 (half_sigma x).
Proof. intros H. apply lxor_fits; apply rotr_fits; (done || lia). Qed.

(** The rotations of two doubled words, combined. *)
Lemma doubled_sigma x y :
  fits 32 x -> fits 32 y ->
  let v := xor_si (srli_epi64 (M128 x x y y) 17) (srli_epi64 (M128 x x y y) 19) in
  l0 v = half_sigma x /\ l2 v = half_sigma y.
Proof.
  intros Hx Hy. cbn zeta.
  destruct (doubled_rotr 17 x y ltac:(lia) Hx Hy) as [A1 A2], (doubled_rotr 19 x y ltac:(lia) Hx Hy) as [B1 B2].
  cbn [xor_si vec128 zip_lanes l0 l2]. now rewrite A1, A2, B1, B2.
Qed.

Lemma schedule_next4 a b c d :
  lanes_fit a -> lanes_fit b -> lanes_fit c -> lanes_fit d -> schedule a b c d = next4 a b c d.
Proof.
  intros Ha Hb Hc Hd. unfold schedule, add_s1, add_s0. cbv zeta. rewrite (alignr_4 b a Hb Ha), (alignr_4 d c Hd Hc).
  set (p := add_epi32 (add_epi32 a _) _).
  assert (Hp : lanes_fit p) by apply add_epi32_fit.
  change (unpackhi_epi32 d d) with (M128 (l2 d) (l2 d) (l3 d) (l3 d)). rewrite shuffle_high.
  destruct Hd as (Hd0 & Hd1 & Hd2 & Hd3) eqn:E. clear E. destruct (doubled_sigma (l2 d) (l3 d) Hd2 Hd3) as [G2 G3].
  cbv zeta in G2, G3. rewrite G2, G3. clear G2 G3.
  pose proof (half_sigma_fits _ Hd2) as F2. pose proof (half_sigma_fits _ Hd3) as F3.
  set (g := M128 _ _ _ _). assert (Hg : lanes_fit g) by done.
  rewrite srli_lanes by (apply lane_fits2; [exact lxor_fits|done|]; repeat split; now apply shiftr_fits).
  set (q := add_epi32 p (M128 _ _ 0 0)). assert (Hq : lanes_fit q) by apply add_epi32_fit.
  change (unpacklo_epi32 q q) with (M128 (l0 q) (l0 q) (l1 q) (l1 q)). rewrite shuffle_low.
  destruct Hq as (Hq0 & Hq1 & Hq') eqn:E. clear E. destruct (doubled_sigma (l0 q) (l1 q) Hq0 Hq1) as [G0 G1].
  cbv zeta in G0, G1. rewrite G0, G1. clear G0 G1.
  pose proof (half_sigma_fits _ Hq0) as F0. pose proof (half_sigma_fits _ Hq1) as F1.
  rewrite !alignr_8 by done. unfold next4, q, p, g, half_sigma, Fips.sigma0, Fips.sigma1, rotr.
  cbv beta iota zeta delta [add_epi32 xor_si or_si srli_epi32 slli_epi32 vec128 zip_lanes map_lanes l0 l1 l2 l3].
  reflexivity.
Qed.

Lemma load_lanes l i : load_words l i = M128 (nth i l 0) (nth (i + 1) l 0) (nth (i + 2) l 0) (nth (i + 3) l 0).
Proof. unfold load_words, of_lanes. now rewrite !nth_lookup, !lookup_drop, Nat.add_0_r. Qed.
Lemma recurrence_sum x y z s : add32 (add32 (add32 x y) z) s = add32 (add32 s z) (add32 y x).
Proof. aac_reflexivity. Qed.

(** The registers after [i] rounds. *)
Definition after (W : list Z) (st : regs) (i : nat) : regs := fold_left Fips.round (take i (combine K W)) st.

(** ** One block *)
Section words.
Context (ws : list Z) (st : regs).
Hypothesis ws_len : length ws = 16%nat.
Hypothesis ws_fit : Forall (fits 32) ws.
Hypothesis st_fit : regs_fit st.
Let W := Fips.schedule 48 ws.

Lemma length_words : length W = 64%nat.
Proof using ws_len. unfold W. rewrite length_schedule. lia. Qed.
Lemma loaded_fit i : (i + 4 <= 64)%nat -> lanes_fit (load_words W i).
Proof using ws_len ws_fit. intros Hi. rewrite load_lanes. repeat split; apply schedule_fits; (done || lia). Qed.
Lemma word_recurrence i :
  (i + 16 < 64)%nat ->
  nth (i + 16) W 0 =
  add32 (add32 (add32 (nth i W 0) (Fips.sigma0 (nth (i + 1) W 0))) (nth (i + 9) W 0)) (Fips.sigma1 (nth (i + 14) W 0)).
Proof using ws_len.
  intros Hi. unfold W. rewrite schedule_recurrence by lia. rewrite recurrence_sum. repeat f_equal; lia.
Qed.
Lemma next4_words i :
  (i + 20 <= 64)%nat ->
  next4 (load_words W i) (load_words W (i + 4)) (load_words W (i + 8)) (load_words W (i + 12)) = load_words W (i + 16).
Proof using ws_len.
  intros Hi. rewrite !load_lanes. unfold next4. cbn [l0 l1 l2 l3]. rewrite <- !Nat.add_assoc. cbn [Nat.add].
  rewrite (word_recurrence i) by lia.
  replace (i + 17)%nat with (i + 1 + 16)%nat by lia. rewrite (word_recurrence (i + 1)) by lia.
  replace (i + 18)%nat with (i + 2 + 16)%nat by lia. rewrite (word_recurrence (i + 2)) by lia.
  replace (i + 19)%nat with (i + 3 + 16)%nat by lia. rewrite (word_recurrence (i + 3)) by lia.
  rewrite <- !Nat.add_assoc. cbn [Nat.add]. rewrite (word_recurrence i) by lia.
  replace (i + 17)%nat with (i + 1 + 16)%nat by lia. rewrite (word_recurrence (i + 1)) by lia.
  rewrite <- !Nat.add_assoc. reflexivity.
Qed.

Lemma after_next i : (i < 64)%nat -> after W st (S i) = Fips.round (after W st i) (nth i K 0, nth i W 0).
Proof using ws_len. intros Hi. apply rounds_next; [apply length_words|done]. Qed.
Lemma after_fit i : (i <= 64)%nat -> regs_fit (after W st i).
Proof using ws_len st_fit.
  induction i as [|i IH]; intros Hi; [exact st_fit|]. rewrite after_next by lia. apply round_fits, IH. lia.
Qed.
Lemma after_all : after W st 64 = fold_left Fips.round (combine K W) st.
Proof using ws_len.
  unfold after. rewrite take_ge; [done|]. rewrite length_combine, length_words. cbn. lia.
Qed.
Lemma round_after round x i j :
  round_ok round -> (i + j < 64)%nat -> x = add32 (nth (i + j) K 0) (nth (i + j) W 0) ->
  round (after W st (i + j)) x = after W st (i + S j).
Proof using ws_len st_fit. intros Hr Hi ->. rewrite Nat.add_succ_r, after_next by done. apply Hr, after_fit. lia. Qed.
Lemma four_rounds_after round wk p i :
  round_ok round -> (i + 4 <= 64)%nat ->
  (forall j, (j < 4)%nat -> nth (p + j) wk 0 = add32 (nth (i + j) K 0) (nth (i + j) W 0)) ->
  four_rounds round wk p (after W st i) = after W st (i + 4).
Proof using ws_len st_fit.
  intros Hr Hi Hwk. unfold four_rounds. rewrite <- (Nat.add_0_r p) at 1. rewrite <- (Nat.add_0_r i) at 1.
  rewrite !(round_after round) by (done || lia || (apply Hwk; lia)). reflexivity.
Qed.
End words.

(** *** Loading a block *)
Lemma lane_bytes_back c : bytes_ok c -> blen c = 16 -> lane_bytes (of_lane_bytes c) = c.
Proof.
  intros Hok Hc. apply (length_blen c 16) in Hc. explode c Hc. rewrite !Forall_cons in Hok.
  destruct Hok as (?&?&?&?&?&?&?&?&?&?&?&?&?&?&?&?&_). unfold lane_bytes, of_lane_bytes.
  change (chunks_exact 4 [b; b0; b1; b2; b3; b4; b5; b6; b7; b8; b9; b10; b11; b12; b13; b14])
    with [[b; b0; b1; b2]; [b3; b4; b5; b6]; [b7; b8; b9; b10]; [b11; b12; b13; b14]].
  cbn [map of_lanes nth lanes l0 l1 l2 l3 flat_map app].
  rewrite !(le_split_combine [_; _; _; _] : bytes_ok _ -> le_split 4 _ = _) by (rewrite !Forall_cons; auto 10 using Forall_nil_2).
  reflexivity.
Qed.
Lemma swapped_lanes c : blen c = 16 -> of_lane_bytes (swaps4 c) = of_lanes (Fips.block_words c).
Proof. intros Hc. apply (length_blen c 16) in Hc. explode c Hc. reflexivity. Qed.
Lemma shuffled_words block i :
  bytes_ok block -> 0 <= i -> 16 * i + 16 <= blen block ->
  shuffle_epi8 (lddqu block i) shuffle = load_words (Fips.block_words block) (4 * Z.to_nat i).
Proof.
  intros Hok Hi Hl. set (p := ztake (16 * i) block). set (c := ztake 16 (zdrop (16 * i) block)).
  assert (Hp : blen p = 16 * i) by (unfold p; rewrite blen_ztake by lia; lia).
  assert (Hc : blen c = 16) by (unfold c; rewrite blen_ztake, blen_zdrop by lia; lia).
  assert (Hb : block = p ++ c ++ zdrop 16 (zdrop (16 * i) block)) by (unfold p, c; now rewrite !ztake_zdrop).
  assert (Hcok : bytes_ok c) by (unfold c; now apply bytes_ok_ztake, bytes_ok_zdrop).
  cbn [shuffle_epi8 vec128]. unfold mm_shuffle_epi8, lddqu. fold c. rewrite lane_bytes_back by done.
  rewrite mask4, swapped_lanes by (done || vm_compute; reflexivity).
  rewrite Hb at 1. unfold Fips.block_words, load_words.
  rewrite chunks_exact_app, map_app by (try lia; rewrite Hp; exists (4 * i); lia).
  rewrite chunks_exact_app, map_app by (try lia; rewrite Hc; now exists 4).
  rewrite drop_app_length'.
  2:{ rewrite length_map. symmetry. apply length_chunks_exact; [lia|]. rewrite Hp. lia. }
  assert (Hw : length (map (int_from Big) (chunks_exact 4 c)) = 4%nat)
    by (rewrite length_map; apply length_chunks_exact; [lia|]; rewrite Hc; lia).
  unfold of_lanes. now rewrite !app_nth1 by lia.
Qed.
Lemma block_words_ok block :
  bytes_ok block -> blen block = 64 -> length (Fips.block_words block) = 16%nat /\ Forall (fits 32) (Fips.block_words block).
Proof.
  intros Hok Hb. unfold Fips.block_words. rewrite length_map. split; [now apply length_chunks_exact|].
  apply Forall_map, Forall_forall. intros c Hc.
  pose proof (proj1 (Forall_forall _ _) (chunks_exact_lengths 4 block ltac:(lia)) c Hc) as Hl. cbn beta in Hl.
  apply (int_from_fits Big c 4); [|done]. exact (proj1 (Forall_forall _ _) (chunks_exact_all 4 block _ Hok) c Hc).
Qed.

(** *** SSSE3 and AVX *)
Lemma stored_words W wk i p k :
  k = load_words K i -> (p + 4 <= length wk)%nat ->
  let wk' := store_words wk p (add_epi32 k (load_words W i)) in
  forall j, (j < 4)%nat -> nth (p + j) wk' 0 = add32 (nth (i + j) K 0) (nth (i + j) W 0).
Proof.
  intros -> Hp wk' j Hj. unfold wk'. rewrite (proj1 (proj2 (store_load _ _ _ Hp)) j Hj). rewrite !load_lanes.
  destruct j as [|[|[|[|j]]]]; [now rewrite Nat.add_0_r|done|done|done|lia].
Qed.
Section block_128.
Context (ws : list Z) (st : regs).
Hypothesis ws_len : length ws = 16%nat.
Hypothesis ws_fit : Forall (fits 32) ws.
Hypothesis st_fit : regs_fit st.
Let W := Fips.schedule 48 ws.

(** After [i] rounds: the registers hold the words from [i] on. *)
Definition at_round (i : nat) (s : scheduled) : Prop :=
  s_round s = i /\ length (s_wk s) = 64%nat /\ s_regs s = after W st i /\
  s_w0 s = load_words W i /\ s_w1 s = load_words W (i + 4) /\ s_w2 s = load_words W (i + 8) /\
  s_w3 s = load_words W (i + 12).

Lemma scheduled_step i s : (i + 20 <= 64)%nat -> at_round i s -> at_round (i + 4) (schedule_and_rounds_ssse3_or_avx s).
Proof using ws_len ws_fit st_fit.
  intros Hi (Hr & Hl & Hg & H0 & H1 & H2 & H3). unfold schedule_and_rounds_ssse3_or_avx, at_round.
  cbn [s_round s_wk s_regs s_w0 s_w1 s_w2 s_w3]. rewrite Hr, Hg, H0, H1, H2, H3, <- !Nat.add_assoc. splits; try done.
  - rewrite <- Hl. apply store_load. lia.
  - apply four_rounds_after; [done|done|apply round_ssse3_ok|lia|]. apply stored_words; [done|lia].
  - rewrite schedule_next4 by (apply loaded_fit; (done || lia)). now apply next4_words.
Qed.
Lemma last_step i s :
  (i + 4 <= 64)%nat -> s_round s = i -> length (s_wk s) = 64%nat -> s_regs s = after W st i -> s_w0 s = load_words W i ->
  let s' := last_rounds s in
  s_round s' = (i + 4)%nat /\ length (s_wk s') = 64%nat /\ s_regs s' = after W st (i + 4) /\
  s_w0 s' = s_w1 s /\ s_w1 s' = s_w2 s /\ s_w2 s' = s_w3 s.
Proof using ws_len ws_fit st_fit.
  intros Hi Hr Hl Hg H0 s'. unfold s', last_rounds. cbn [s_round s_wk s_regs s_w0 s_w1 s_w2 s_w3].
  rewrite Hr, Hg, H0. splits; try done.
  - rewrite <- Hl. apply store_load. lia.
  - apply four_rounds_after; [done|done|apply round_ssse3_ok|lia|]. apply stored_words; [done|lia].
Qed.
Lemma scheduled_all s : at_round 0 s -> at_round 48 (schedule_loop 4 s).
Proof using ws_len ws_fit st_fit.
  assert (Hturn : forall i f s, (i + 32 <= 64)%nat -> at_round i s -> exists s', at_round (i + 16) s' /\ schedule_loop (S f) s = schedule_loop f s').
  { intros i f s0 Hi Ha. eexists. split; [|cbn [schedule_loop]; rewrite (proj1 Ha), (proj2 (Nat.ltb_lt i 48)) by lia; reflexivity].
    replace (i + 16)%nat with (i + 4 + 4 + 4 + 4)%nat by lia. repeat (apply scheduled_step; [lia|]). exact Ha. }
  intros Ha. destruct (Hturn 0%nat 3%nat s ltac:(lia) Ha) as (s1 & H1 & ->).
  destruct (Hturn 16%nat 2%nat s1 ltac:(lia) H1) as (s2 & H2 & ->).
  destruct (Hturn 32%nat 1%nat s2 ltac:(lia) H2) as (s3 & H3 & ->).
  cbn [schedule_loop]. now rewrite (proj1 H3).
Qed.
Lemma last_all s :
  at_round 48 s -> let s' := last_rounds (last_rounds (last_rounds (last_rounds s))) in
  length (s_wk s') = 64%nat /\ s_regs s' = after W st 64.
Proof using ws_len ws_fit st_fit.
  intros (R & L & G & W0 & W1 & W2 & W3). cbv zeta.
  destruct (last_step 48 s ltac:(lia) R L G W0) as (R1 & L1 & G1 & A1 & B1 & C1).
  destruct (last_step 52 _ ltac:(lia) R1 L1 G1 ltac:(rewrite A1; exact W1)) as (R2 & L2 & G2 & A2 & B2 & _).
  destruct (last_step 56 _ ltac:(lia) R2 L2 G2 ltac:(rewrite A2, B1; exact W2)) as (R3 & L3 & G3 & A3 & _).
  destruct (last_step 60 _ ltac:(lia) R3 L3 G3 ltac:(rewrite A3, B2, C1; exact W3)) as (_ & L4 & G4 & _). done.
Qed.
End block_128.

(** The words of a block begin its schedule. *)
Lemma loaded_words block i :
  blen block = 64 -> (i < 4)%nat -> load_words (Fips.block_words block) (4 * i) = load_words (Fips.schedule 48 (Fips.block_words block)) (4 * i).
Proof.
  intros Hb Hi. assert (Hl : length (Fips.block_words block) = 16%nat)
    by (unfold Fips.block_words; rewrite length_map; now apply length_chunks_exact).
  rewrite !load_lanes. now rewrite !(schedule_nth 0 48) by lia.
Qed.
Lemma block_step_128_fips wk st block :
  length wk = 64%nat -> regs_fit st -> bytes_ok block -> blen block = 64 ->
  exists wk', block_step_128 (wk, st) block = (wk', Fips.compress st block) /\ length wk' = 64%nat.
Proof.
  intros Hl Hst Hok Hb. destruct (block_words_ok block Hok Hb) as [Hlen Hfit]. unfold block_step_128.
  set (s0 := Scheduled 0 wk st _ _ _ _).
  assert (H0 : at_round (Fips.block_words block) st 0 s0).
  { unfold at_round, s0. cbn [s_round s_wk s_regs s_w0 s_w1 s_w2 s_w3]. splits; try done.
    all: rewrite shuffled_words by (done || lia).
    all: apply (loaded_words block); [done|cbn; lia]. }
  apply scheduled_all, last_all in H0 as [Hwk Hr]; try done. eexists. split; [|exact Hwk].
  rewrite Hr, after_all by done. reflexivity.
Qed.

(** *** AVX2 *)
Lemma k2_twice t : (t < 16)%nat -> load_words256 K2 (8 * t) = (load_words K (4 * t), load_words K (4 * t)).
Proof. intros Ht. do 16 (destruct t as [|t]; [reflexivity|]). lia. Qed.
Lemma schedule_halves (a b c d : m256) :
  schedule a b c d = (schedule (fst a) (fst b) (fst c) (fst d), schedule (snd a) (snd b) (snd c) (snd d)).
Proof. reflexivity. Qed.
Lemma store_load256 l i r :
  (i + 8 <= length l)%nat ->
  length (store_words256 l i r) = length l /\
  (forall j, (j < 4)%nat -> nth (i + j) (store_words256 l i r) 0 = nth j (lanes (fst r)) 0) /\
  (forall j, (j < 4)%nat -> nth (i + 4 + j) (store_words256 l i r) 0 = nth j (lanes (snd r)) 0) /\
  (forall j, (j < i)%nat -> nth j (store_words256 l i r) 0 = nth j l 0).
Proof.
  intros Hi. unfold store_words256. destruct (store_load l i (fst r)) as (L1 & A1 & B1); [lia|].
  destruct (store_load (store_words l i (fst r)) (i + 4) (snd r)) as (L2 & A2 & B2); [lia|].
  splits; [lia| |exact A2|]; intros j Hj; rewrite B2 by lia; [now apply A1|apply B1; lia].
Qed.

(** Of the second block, the words of the first [t] groups of four are stored. *)
Definition stored_second (W : list Z) (t : nat) (w : list Z) : Prop :=
  forall u j, (u < t)%nat -> (j < 4)%nat -> nth (8 * u + 4 + j) w 0 = add32 (nth (4 * u + j) K 0) (nth (4 * u + j) W 0).
Lemma stored_both W W' w t :
  (t < 16)%nat -> length w = 128%nat -> stored_second W' t w ->
  let w' := store_words256 w (8 * t) (add_epi32 (load_words256 K2 (8 * t)) (load_words W (4 * t), load_words W' (4 * t))) in
  length w' = 128%nat /\ stored_second W' (S t) w' /\
  forall j, (j < 4)%nat -> nth (8 * t + j) w' 0 = add32 (nth (4 * t + j) K 0) (nth (4 * t + j) W 0).
Proof.
  intros Ht Hl Hs w'. destruct (store_load256 w (8 * t) (add_epi32 (load_words256 K2 (8 * t)) (load_words W (4 * t), load_words W' (4 * t))))
    as (L & A & B & C); [lia|]. fold w' in L, A, B, C. rewrite k2_twice in A, B by done. split; [lia|].
  assert (Hlane : forall V j, (j < 4)%nat ->
    nth j (lanes (add_epi32 (load_words K (4 * t)) (load_words V (4 * t)))) 0 = add32 (nth (4 * t + j) K 0) (nth (4 * t + j) V 0)).
  { intros V j Hj. rewrite !load_lanes. destruct j as [|[|[|[|j]]]]; [now rewrite Nat.add_0_r|done|done|done|lia]. }
  split; [|intros j Hj; rewrite A by done; now apply Hlane].
  intros u j Hu Hj. destruct (Nat.eq_dec u t) as [->|Hne]; [rewrite B by done; now apply Hlane|].
  rewrite C by lia. apply Hs; lia.
Qed.

Section block_avx2.
Context (ws ws' : list Z) (st : regs).
Hypothesis ws_len : length ws = 16%nat.
Hypothesis ws_fit : Forall (fits 32) ws.
Hypothesis ws_len' : length ws' = 16%nat.
Hypothesis ws_fit' : Forall (fits 32) ws'.
Hypothesis st_fit : regs_fit st.
Let W := Fips.schedule 48 ws.
Let W' := Fips.schedule 48 ws'.

Definition both (i : nat) : m256 := (load_words W i, load_words W' i).
(** After [t] groups of four rounds of the first block. *)
Definition at_group (t : nat) (s : scheduled2) : Prop :=
  d_wp s = (8 * t)%nat /\ length (d_w s) = 128%nat /\ stored_second W' t (d_w s) /\ d_regs s = after W st (4 * t) /\
  d_w0 s = both (4 * t).
Definition at_schedule (t : nat) (s : scheduled2) : Prop :=
  at_group t s /\ d_kp s = (8 * t)%nat /\ d_w1 s = both (4 * t + 4) /\ d_w2 s = both (4 * t + 8) /\ d_w3 s = both (4 * t + 12).

Lemma schedule_both t :
  (t + 5 <= 16)%nat -> schedule (both (4 * t)) (both (4 * t + 4)) (both (4 * t + 8)) (both (4 * t + 12)) = both (4 * t + 16).
Proof using All.
  intros Ht. rewrite schedule_halves. unfold both. cbn [fst snd].
  rewrite !schedule_next4 by (apply loaded_fit; (done || lia)).
  unfold W, W'. now rewrite !next4_words by (done || lia).
Qed.
Lemma group_step t s round :
  round_ok round -> (t < 16)%nat -> at_group t s ->
  let w := store_words256 (d_w s) (d_wp s) (add_epi32 (load_words256 K2 (8 * t)) (d_w0 s)) in
  length w = 128%nat /\ stored_second W' (S t) w /\ four_rounds round w (d_wp s) (d_regs s) = after W st (4 * S t).
Proof using All.
  intros Hr Ht (P & L & S0 & G & V). cbv zeta. rewrite P, G, V.
  destruct (stored_both W W' (d_w s) t Ht L S0) as (L1 & S1 & A1). splits; [exact L1|exact S1|].
  replace (4 * S t)%nat with (4 * t + 4)%nat by lia. apply four_rounds_after; [done|done|done|lia|exact A1].
Qed.
Lemma schedule_step t s : (t + 5 <= 16)%nat -> at_schedule t s -> at_schedule (S t) (schedule_and_rounds_avx2 s).
Proof using All.
  intros Ht (Hg & Hk & H1 & H2 & H3). pose proof Hg as (P & _ & _ & _ & V).
  destruct (group_step t s _ round_avx2_scheduled_ok ltac:(lia) Hg) as (L & S1 & G).
  unfold at_schedule, at_group, schedule_and_rounds_avx2. cbn [d_kp d_wp d_w d_regs d_w0 d_w1 d_w2 d_w3].
  change (add_s1_avx2 (add_s0_avx2 ?a ?b ?c ?d) ?d) with (schedule a b c d).
  rewrite Hk. rewrite V, H1, H2, H3, schedule_both by done. rewrite V in L, S1, G.
  splits; try done; try lia; f_equal; lia.
Qed.
Lemma last_group_step t i s :
  (12 + i = t)%nat -> (t < 16)%nat -> d_kp s = 96%nat -> at_group t s ->
  let s' := last_rounds_avx2 i s in
  d_wp s' = (8 * S t)%nat /\ length (d_w s') = 128%nat /\ stored_second W' (S t) (d_w s') /\ d_regs s' = after W st (4 * S t) /\
  d_kp s' = 96%nat /\ d_w0 s' = d_w1 s /\ d_w1 s' = d_w2 s /\ d_w2 s' = d_w3 s.
Proof using All.
  intros Hi Ht Hk Hg s'. pose proof Hg as (P & _ & _ & _ & V).
  destruct (group_step t s _ round_avx2_ok Ht Hg) as (L & S1 & G).
  unfold s', last_rounds_avx2. cbn [d_kp d_wp d_w d_regs d_w0 d_w1 d_w2 d_w3].
  rewrite Hk. replace (96 + 8 * i)%nat with (8 * t)%nat by lia. splits; try done. lia.
Qed.
Lemma schedule_turns s : at_schedule 0 s -> at_schedule 12 (fold_left (fun s _ => schedule_turn_avx2 s) (seq 0 3) s).
Proof using All.
  intros Ha. cbn [seq fold_left]. unfold schedule_turn_avx2. repeat (apply schedule_step; [lia|]). exact Ha.
Qed.
Lemma last_groups s :
  at_schedule 12 s ->
  let s' := last_rounds_avx2 3 (last_rounds_avx2 2 (last_rounds_avx2 1 (last_rounds_avx2 0 s))) in
  length (d_w s') = 128%nat /\ stored_second W' 16 (d_w s') /\ d_regs s' = after W st 64.
Proof using All.
  intros (G & Hk & H1 & H2 & H3). cbv zeta.
  destruct (last_group_step 12 0 s eq_refl ltac:(lia) Hk G) as (P1 & L1 & S1 & R1 & K1 & A1 & B1 & C1).
  destruct (last_group_step 13 1 _ eq_refl ltac:(lia) K1) as (P2 & L2 & S2 & R2 & K2' & A2 & B2 & C2).
  { unfold at_group. splits; [exact P1|exact L1|exact S1|exact R1|]. rewrite A1. exact H1. }
  destruct (last_group_step 14 2 _ eq_refl ltac:(lia) K2') as (P3 & L3 & S3 & R3 & K3 & A3 & _).
  { unfold at_group. splits; [exact P2|exact L2|exact S2|exact R2|]. rewrite A2, B1. exact H2. }
  destruct (last_group_step 15 3 _ eq_refl ltac:(lia) K3) as (_ & L4 & S4 & R4 & _).
  { unfold at_group. splits; [exact P3|exact L3|exact S3|exact R3|]. rewrite A3, B2, C1. exact H3. }
  done.
Qed.
End block_avx2.

(** The rounds of the second block from what was stored. *)
Lemma second_pass ws st w :
  length ws = 16%nat -> regs_fit st -> stored_second (Fips.schedule 48 ws) 16 w ->
  forall n, (n <= 8)%nat ->
  fold_left (second_turn w) (seq 0 n) (4%nat, st) = ((16 * n + 4)%nat, after (Fips.schedule 48 ws) st (8 * n)).
Proof.
  intros Hlen Hst Hs n. induction n as [|n IH]; intros Hn; [done|].
  rewrite seq_S, fold_left_app, IH by lia. cbn [fold_left second_turn].
  rewrite (four_rounds_after ws st Hlen Hst round_avx2 w (16 * n + 4) (8 * n) round_avx2_ok) by
    (lia || (intros j Hj; replace (16 * n + 4 + j)%nat with (8 * (2 * n) + 4 + j)%nat by lia;
             replace (8 * n + j)%nat with (4 * (2 * n) + j)%nat by lia; apply Hs; lia)).
  rewrite (four_rounds_after ws st Hlen Hst round_avx2 w (16 * n + 4 + 8) (8 * n + 4) round_avx2_ok) by
    (lia || (intros j Hj; replace (16 * n + 4 + 8 + j)%nat with (8 * (2 * n + 1) + 4 + j)%nat by lia;
             replace (8 * n + 4 + j)%nat with (4 * (2 * n + 1) + j)%nat by lia; apply Hs; lia)).
  f_equal; [lia|]. f_equal. lia.
Qed.
Lemma shuffled_pair block i :
  bytes_ok block -> 0 <= i -> 32 * i + 32 <= blen block ->
  shuffle_epi8 (lddqu256 block i) shuffle_256 =
  (load_words (Fips.block_words block) (8 * Z.to_nat i), load_words (Fips.block_words block) (8 * Z.to_nat i + 4)).
Proof.
  intros Hok Hi Hl. change shuffle_256 with (shuffle, shuffle). cbn [shuffle_epi8 vec256]. unfold halves2, lddqu256. cbn [fst snd].
  change (mm_shuffle_epi8 ?a ?b) with (shuffle_epi8 a b). rewrite !shuffled_words by (done || lia). f_equal; f_equal; lia.
Qed.
Lemma pair_words b1 b2 i :
  blen b1 = 64 -> blen b2 = 64 -> (i < 4)%nat ->
  load_words (Fips.block_words (b1 ++ b2)) (4 * i) = load_words (Fips.schedule 48 (Fips.block_words b1)) (4 * i) /\
  load_words (Fips.block_words (b1 ++ b2)) (16 + 4 * i) = load_words (Fips.schedule 48 (Fips.block_words b2)) (4 * i).
Proof.
  intros H1 H2 Hi. rewrite <- !loaded_words by done.
  assert (Hl : forall b, blen b = 64 -> length (Fips.block_words b) = 16%nat)
    by (intros b Hb; unfold Fips.block_words; rewrite length_map; now apply length_chunks_exact).
  assert (Happ : Fips.block_words (b1 ++ b2) = Fips.block_words b1 ++ Fips.block_words b2)
    by (unfold Fips.block_words; now rewrite chunks_exact_app, map_app by (try lia; rewrite H1; now exists 16)).
  rewrite Happ, !load_lanes. pose proof (Hl b1 H1) as L1. split.
  - now rewrite !app_nth1 by lia.
  - rewrite !app_nth2 by lia. repeat f_equal; lia.
Qed.
Lemma permute_lower a b : permute2x128 a b 0x20 = (fst a, fst b).
Proof. reflexivity. Qed.
Lemma permute_upper a b : permute2x128 a b 0x31 = (snd a, snd b).
Proof. reflexivity. Qed.
Lemma block_step_avx2_fips w st b1 b2 :
  length w = 128%nat -> regs_fit st -> bytes_ok b1 -> bytes_ok b2 -> blen b1 = 64 -> blen b2 = 64 ->
  exists w', block_step_avx2 (w, st) (b1 ++ b2) = (w', Fips.compress (Fips.compress st b1) b2) /\ length w' = 128%nat.
Proof.
  intros Hl Hst Hok1 Hok2 H1 H2. destruct (block_words_ok b1 Hok1 H1) as [L1 F1], (block_words_ok b2 Hok2 H2) as [L2 F2].
  assert (Hok : bytes_ok (b1 ++ b2)) by now apply Forall_app_2.
  unfold block_step_avx2. rewrite !shuffled_pair by (done || rewrite ?blen_app; lia).
  rewrite !permute_lower, !permute_upper. cbn [fst snd].
  set (s0 := Scheduled2 0 0 w st _ _ _ _).
  assert (H0 : at_schedule (Fips.block_words b1) (Fips.block_words b2) st 0 s0).
  { unfold at_schedule, at_group, both, s0. cbn [d_kp d_wp d_w d_regs d_w0 d_w1 d_w2 d_w3].
    splits; try done; try (intros u j Hu; lia).
    all: apply f_equal2.
    - exact (proj1 (pair_words b1 b2 0 H1 H2 ltac:(lia))).
    - exact (proj2 (pair_words b1 b2 0 H1 H2 ltac:(lia))).
    - exact (proj1 (pair_words b1 b2 1 H1 H2 ltac:(lia))).
    - exact (proj2 (pair_words b1 b2 1 H1 H2 ltac:(lia))).
    - exact (proj1 (pair_words b1 b2 2 H1 H2 ltac:(lia))).
    - exact (proj2 (pair_words b1 b2 2 H1 H2 ltac:(lia))).
    - exact (proj1 (pair_words b1 b2 3 H1 H2 ltac:(lia))).
    - exact (proj2 (pair_words b1 b2 3 H1 H2 ltac:(lia))). }
  apply schedule_turns, last_groups in H0 as (Hw & Hs & Hr); try done.
  rewrite Hr, after_all by done. fold (Fips.compress st b1).
  change (Fips.add_regs (fold_left Fips.round (combine K (Fips.schedule 48 (Fips.block_words b1))) st) st) with (Fips.compress st b1).
  rewrite (second_pass _ _ _ L2 (compress_fits st b1) Hs 8 ltac:(lia)). rewrite after_all by done. eauto.
Qed.

(** *** SHA *)
Definition abef (r : regs) : m128 := M128 (rf r) (re r) (rb r) (ra r).
Definition cdgh (r : regs) : m128 := M128 (rh r) (rg r) (rd r) (rc r).
Lemma sha_pack_lanes r : sha_pack r = (abef r, cdgh r).
Proof. now destruct r. Qed.
Lemma sha_unpack_pack r : sha_unpack (sha_pack r) = r.
Proof. now destruct r. Qed.
Lemma rnds2_twice r k : sha256rnds2_epu32 (cdgh r) (abef r) k = abef (sha_round (sha_round r (l0 k)) (l1 k)).
Proof. destruct r. reflexivity. Qed.
(** Two rounds on, the old A, B, E and F are C, D, G and H. *)
Lemma abef_cdgh r x y : abef r = cdgh (sha_round (sha_round r x) y).
Proof. reflexivity. Qed.
Lemma shuffle_top v : shuffle_epi32 v 0x0e = M128 (l2 v) (l3 v) (l0 v) (l0 v).
Proof. reflexivity. Qed.
Lemma sha_rounds4_lanes r wk :
  sha_rounds4 (sha_pack r) wk = sha_pack (sha_round (sha_round (sha_round (sha_round r (l0 wk)) (l1 wk)) (l2 wk)) (l3 wk)).
Proof.
  rewrite !sha_pack_lanes. unfold sha_rounds4. rewrite rnds2_twice, shuffle_top.
  rewrite (abef_cdgh r (l0 wk) (l1 wk)), rnds2_twice. cbn [l0 l1]. now rewrite <- abef_cdgh.
Qed.
Lemma sha_next_next4 a b c d : lanes_fit c -> lanes_fit d -> sha_next (sha256msg1_epu32 a b) c d = next4 a b c d.
Proof. intros Hc Hd. unfold sha_next. now rewrite alignr_4. Qed.
Lemma sha_pack_add x y :
  (add_epi32 (fst (sha_pack y)) (fst (sha_pack x)), add_epi32 (snd (sha_pack y)) (snd (sha_pack x))) = sha_pack (Fips.add_regs x y).
Proof.
  rewrite !sha_pack_lanes. unfold Fips.add_regs, abef, cdgh. cbn [fst snd add_epi32 vec128 ra rb rc rd re rf rg rh].
  unfold zip_lanes. cbn [l0 l1 l2 l3].
  f_equal; f_equal; apply add32_comm.
Qed.

Section block_sha.
Context (ws : list Z) (st : regs).
Hypothesis ws_len : length ws = 16%nat.
Hypothesis ws_fit : Forall (fits 32) ws.
Hypothesis st_fit : regs_fit st.
Let W := Fips.schedule 48 ws.

Lemma sha_rounds4_after i :
  (i + 4 <= 64)%nat ->
  sha_rounds4 (sha_pack (after W st i)) (add_epi32 (load_words W i) (load_words K i)) = sha_pack (after W st (i + 4)).
Proof using All.
  intros Hi. rewrite sha_rounds4_lanes. f_equal. rewrite !load_lanes. cbn [add_epi32 vec128 zip_lanes l0 l1 l2 l3].
  rewrite !(add32_comm (nth _ W 0)). rewrite <- (Nat.add_0_r i) at 1 2 3.
  unfold W. rewrite !(round_after ws st ws_len st_fit sha_round) by (exact sha_round_ok || reflexivity || lia). reflexivity.
Qed.
Definition sha_at (j : nat) (s : sha_vars) : Prop :=
  v_rounds s = (j + 16)%nat /\ v_state s = sha_pack (after W st (j + 16)) /\
  v_w_12_16 s = load_words W (j + 12) /\ v_w_16_20 s = load_words W (j + 16) /\
  v_x_04_08 s = sha256msg1_epu32 (load_words W (j + 4)) (load_words W (j + 8)) /\
  v_x_08_12 s = sha256msg1_epu32 (load_words W (j + 8)) (load_words W (j + 12)).
Lemma sha_next_words j :
  (j + 20 <= 64)%nat ->
  sha_next (sha256msg1_epu32 (load_words W j) (load_words W (j + 4))) (load_words W (j + 8)) (load_words W (j + 12)) = load_words W (j + 16).
Proof using All. intros Hj. rewrite sha_next_next4 by (apply loaded_fit; (done || lia)). now apply next4_words. Qed.
Lemma sha_turn_step j s : (j + 24 <= 64)%nat -> sha_at j s -> sha_at (j + 4) (sha_turn s).
Proof using All.
  intros Hj (R & S0 & A & B & X & Y). unfold sha_turn, sha_at. cbn [v_rounds v_state v_w_12_16 v_w_16_20 v_x_04_08 v_x_08_12].
  rewrite R, S0, A, B, X, Y, sha_rounds4_after by lia.
  pose proof (sha_next_words (j + 4) ltac:(lia)) as N. rewrite <- !Nat.add_assoc in N |- *. cbn [Nat.add] in N |- *.
  rewrite N. replace (j + 4 + 8)%nat with (j + 12)%nat by lia. done.
Qed.
Lemma sha_loop_all s : sha_at 0 s -> sha_at 36 (sha_loop 10 s).
Proof using All.
  assert (Hgo : forall n j f s, (j + 4 * n = 36)%nat -> sha_at j s -> exists s', sha_at 36 s' /\ sha_loop (n + f) s = sha_loop f s').
  { induction n as [|n IH]; intros j f s0 Hj Hs; [exists s0; split; [now replace 36%nat with j by lia|done]|].
    destruct (IH (j + 4)%nat f (sha_turn s0)) as (s' & Hs' & Hl); [lia|apply sha_turn_step; [lia|done]|].
    exists s'. split; [done|]. cbn [Nat.add sha_loop]. now rewrite (proj1 Hs), (proj2 (Nat.ltb_lt (j + 16) 52)) by lia. }
  intros Hs. destruct (Hgo 9%nat 0%nat 1%nat s ltac:(lia) Hs) as (s' & Hs' & E). change 10%nat with (9 + 1)%nat. rewrite E.
  cbn [sha_loop]. now rewrite (proj1 Hs').
Qed.
End block_sha.

(** Rewriting with an equation at a given index. *)
Ltac rewrite_at H i :=
  let R := fresh in pose proof (H i ltac:(lia)) as R; cbn [Nat.add] in R; rewrite R; clear R.

Lemma sha_block_fips st block :
  regs_fit st -> bytes_ok block -> blen block = 64 -> sha_block_step (sha_pack st) block = sha_pack (Fips.compress st block).
Proof.
  intros Hst Hok Hb. destruct (block_words_ok block Hok Hb) as [L F]. unfold sha_block_step, sha_first, sha_last. cbv zeta.
  rewrite !shuffled_words by (done || lia).
  pose proof (loaded_words block 0 Hb ltac:(lia)) as W0. pose proof (loaded_words block 1 Hb ltac:(lia)) as W1.
  pose proof (loaded_words block 2 Hb ltac:(lia)) as W2. pose proof (loaded_words block 3 Hb ltac:(lia)) as W3.
  change (4 * Z.to_nat 0)%nat with 0%nat. change (4 * Z.to_nat 1)%nat with 4%nat.
  change (4 * Z.to_nat 2)%nat with 8%nat. change (4 * Z.to_nat 3)%nat with 12%nat.
  cbn [Nat.mul Nat.add] in W0, W1, W2, W3. rewrite W0, W1, W2, W3. clear W0 W1 W2 W3.
  set (ws := Fips.block_words block) in *. set (W := Fips.schedule 48 ws) in *.
  pose proof (fun i H => sha_rounds4_after ws st L F Hst i H) as R4. fold W in R4.
  pose proof (fun j H => sha_next_words ws st L F Hst j H) as N4. fold W in N4.
  destruct (sha_pack st) as [a0 c0] eqn:E. rewrite <- E. change (sha_pack st) with (sha_pack (after W st 0)).
  do 4 (rewrite_at R4 0%nat || rewrite_at R4 4%nat || rewrite_at R4 8%nat || rewrite_at R4 12%nat). rewrite_at N4 0%nat.
  set (s0 := ShaVars _ _ _ _ _ _). assert (Hs : sha_at ws st 0 s0) by (repeat split).
  clearbody s0. destruct (sha_loop_all ws st L F Hst s0 Hs) as (_ & S1 & A1 & B1 & X1 & Y1). fold W in S1, A1, B1, X1, Y1.
  rewrite S1, A1, B1, X1, Y1. cbn [Nat.add]. clear S1 A1 B1 X1 Y1.
  rewrite_at N4 40%nat. rewrite_at N4 44%nat. rewrite_at R4 52%nat. rewrite_at R4 56%nat. rewrite_at R4 60%nat.
  pose proof (after_all ws st L) as A. fold W in A. rewrite A. pose proof (sha_pack_add (fold_left Fips.round (combine K W) st) st) as Ha. rewrite E in Ha.
  destruct (sha_pack (fold_left Fips.round (combine K W) st)) as [a1 c1]. exact Ha.
Qed.

(** ** All implementations *)
(** A block function that is the standard's on bytes. *)
Definition blocks_ok (upd : regs -> bytes -> regs) : Prop :=
  forall st data, regs_fit st -> bytes_ok data -> upd st data = fips_blocks st data.

(** A loop over blocks of [n] with an array of [m] words beside the state. *)
Lemma fold_with_array (step : list Z * regs -> bytes -> list Z * regs) (m : nat) :
  (forall w st b, length w = m -> regs_fit st -> bytes_ok b -> blen b = 64 ->
    exists w', step (w, st) b = (w', Fips.compress st b) /\ length w' = m) ->
  blocks_ok (fun st data => snd (fold_left step (chunks_exact 64 data) (zrep (Z.of_nat m) 0, st))).
Proof.
  intros Hstep st data Hst Hok. unfold fips_blocks.
  apply (fold_left_sim step Fips.compress (fun s t => length (fst s) = m /\ snd s = t /\ regs_fit t)
           (fun b => blen b = 64 /\ bytes_ok b)).
  - intros [w s] t b [Hb Hbok] (Hw & Hs & Ht). cbn [fst snd] in *. subst s.
    destruct (Hstep w t b Hw Ht Hbok Hb) as (w' & -> & Hw'). splits; [done..|apply compress_fits].
  - apply Forall_and. split; [now apply chunks_exact_lengths|now apply chunks_exact_all].
  - cbn [fst snd]. splits; try done. unfold zrep. rewrite length_replicate. lia.
Qed.
Lemma avx_ok : blocks_ok update_blocks_avx.
Proof. exact (fold_with_array block_step_128 64 block_step_128_fips). Qed.
Lemma ssse3_ok : blocks_ok update_blocks_ssse3.
Proof. exact (fold_with_array block_step_128 64 block_step_128_fips). Qed.
Lemma bmi_ok : blocks_ok update_blocks_bmi.
Proof. intros st data Hst _. rewrite bmi_generic. now apply update_blocks_fips. Qed.
Lemma sha_ok : blocks_ok update_blocks_sha.
Proof.
  intros st data Hst Hok. unfold update_blocks_sha, fips_blocks. rewrite <- (sha_unpack_pack (fold_left _ _ st)). f_equal.
  apply (fold_left_sim sha_block_step Fips.compress (fun s t => s = sha_pack t /\ regs_fit t)
           (fun b => blen b = 64 /\ bytes_ok b)).
  - intros s t b [Hb Hbok] [-> Ht]. split; [now apply sha_block_fips|apply compress_fits].
  - apply Forall_and. split; [now apply chunks_exact_lengths|now apply chunks_exact_all].
  - done.
Qed.
Lemma avx2_ok : blocks_ok update_blocks_avx2.
Proof.
  intros st data Hst Hok. unfold update_blocks_avx2, SHA_256_BLOCK_SIZE. change (2 * 64) with 128.
  pose proof (Z.mod_pos_bound (blen data) 128 ltac:(lia)) as Hr.
  pose proof (Z.mod_le (blen data) 128 ltac:(auto with zfs) ltac:(lia)) as Hle.
  set (n := blen data - blen data mod 128) in *.
  assert (Hn : blen (ztake n data) = n) by (rewrite blen_ztake by lia; lia).
  assert (Hd : (128 | n)) by (exists (blen data / 128); unfold n; pose proof (Z.div_mod (blen data) 128); lia).
  assert (Hc : chunks_exact 128 data = chunks_exact 128 (ztake n data)).
  { rewrite <- (ztake_zdrop n data) at 1. rewrite chunks_exact_app by (try lia; now rewrite Hn).
    rewrite (chunks_exact_short 128 (zdrop n data)) by (try lia; rewrite blen_zdrop by lia; lia). apply app_nil_r. }
  assert (Hs : snd (fold_left block_step_avx2 (chunks_exact 128 data) (zrep 128 0, st)) = fips_blocks st (ztake n data)).
  { rewrite Hc. apply (fold_blocks_sim_on is_byte 128 64 block_step_avx2 Fips.compress
      (fun s t => length (fst s) = 128%nat /\ snd s = t /\ regs_fit t)); try done; [now exists 2| |now apply bytes_ok_ztake|now rewrite Hn].
    intros [w s] t b (Hw & Hs & Ht) Hbok Hb. cbn [fst snd] in *. subst s.
    rewrite (chunks_exact_cons 64 b) by lia. rewrite (chunks_exact_cons 64 (zdrop 64 b)) by (rewrite ?blen_zdrop by lia; lia).
    rewrite (chunks_exact_short 64) by (rewrite ?blen_zdrop by (rewrite ?blen_zdrop by lia; lia); rewrite ?blen_zdrop by lia; lia).
    rewrite (ztake_ge 64 (zdrop 64 b)) by (rewrite blen_zdrop by lia; lia). cbn [fold_left].
    rewrite <- (ztake_zdrop 64 b) at 1 2.
    destruct (block_step_avx2_fips w t (ztake 64 b) (zdrop 64 b)) as (w' & -> & Hw');
      [done|done|now apply bytes_ok_ztake|now apply bytes_ok_zdrop|rewrite blen_ztake by lia; lia|rewrite blen_zdrop by lia; lia|].
    splits; [done..|apply compress_fits]. }
  rewrite Hs. case_bool_decide as He.
  - rewrite <- (ztake_zdrop n data) at 2. now rewrite He, app_nil_r.
  - rewrite avx_ok by (auto using fips_blocks_fit; now apply bytes_ok_zdrop).
    rewrite <- fips_blocks_app by (rewrite Hn; apply (Z.divide_trans _ 128); [now exists 2|done]). now rewrite ztake_zdrop.
Qed.
Lemma implementation_ok i : blocks_ok (sha_update_blocks i).
Proof.
  destruct i; [|exact bmi_ok|exact ssse3_ok|exact avx_ok|exact avx2_ok|exact sha_ok].
  intros st data Hst _. now apply update_blocks_fips.
Qed.

(** ** The hasher over any of them *)
Section agreement.
Context (upd : regs -> bytes -> regs).
Hypothesis upd_ok : blocks_ok upd.
Let gen := update_blocks_generic true.

Lemma upd_generic st data : regs_fit st -> bytes_ok data -> upd st data = gen st data.
Proof using upd_ok. intros Hst Hok. rewrite upd_ok by done. symmetry. now apply update_blocks_fips. Qed.
Lemma gen_fit st data : regs_fit st -> regs_fit (gen st data).
Proof using. intros Hst. unfold gen. rewrite update_blocks_fips by done. now apply fips_blocks_fit. Qed.
Lemma zero_fill_ok turns : forall buf fill, bytes_ok buf -> bytes_ok (zero_fill turns buf fill).
Proof using. induction turns as [|n IH]; intros buf fill Hb; cbn [zero_fill]; [done|]. apply IH, Forall_insert; [done|]. unfold is_byte. lia. Qed.
Lemma finalize_agree h :
  agreeable (fun s => regs_fit (snd s)) is_byte h -> sha_finalize upd h = sha_finalize gen h.
Proof using upd_ok.
  intros [Hs Hb]. unfold sha_finalize. destruct (state h) as [n st]. cbn [snd] in Hs.
  destruct (checked_add _ _ _); cbn [unwrap mbind outcome_bind]; [|done].
  destruct (checked_mul _ _ _) as [bits|]; cbn [unwrap mbind outcome_bind]; [|done].
  destruct (EncoderBuffer.copy_at _ _ [128]) as [buf|] eqn:E; cbn [unwrap mbind outcome_bind]; [|done].
  assert (Hbuf : bytes_ok buf).
  { eapply (copy_at_all is_byte); [exact E|done|]. repeat constructor; unfold is_byte; lia. }
  assert (Hlast : forall st' b k, regs_fit st' -> bytes_ok b ->
    (b' ← unwrap (EncoderBuffer.copy_at b k (int_to Big 8 bits)); Ok (E := unit) (digest_words (upd st' (ztake SHA_256_BLOCK_SIZE b')))) =
    (b' ← unwrap (EncoderBuffer.copy_at b k (int_to Big 8 bits)); Ok (digest_words (gen st' (ztake SHA_256_BLOCK_SIZE b'))))).
  { intros st' b k Hst' Hb'. destruct (EncoderBuffer.copy_at b k _) as [b'|] eqn:E'; cbn [unwrap mbind outcome_bind]; [|done].
    rewrite upd_generic; [done|done|]. apply bytes_ok_ztake. eapply (copy_at_all is_byte); [exact E'|done|apply bytes_ok_int_to]. }
  destruct (SHA_256_BLOCK_SIZE - 8 <? buffer_fill h + 1).
  - rewrite upd_generic by (done || now apply bytes_ok_ztake, zero_fill_ok). apply Hlast; [now apply gen_fit|now repeat apply zero_fill_ok].
  - apply Hlast; [done|now apply zero_fill_ok].
Qed.
Lemma hash_parts_agree parts : bytes_ok (concat parts) -> sha_hash_parts upd parts = sha_hash_parts gen parts.
Proof using upd_ok.
  intros Hok. unfold sha_hash_parts.
  destruct (updates_agree SHA_256_BLOCK_SIZE (absorb upd) (absorb gen) (fun s => regs_fit (snd s)) is_byte) with (parts := parts) (h := sha_reset)
    as [-> Hagree]; try done.
  - intros [n st] x Hst Hx. unfold absorb. cbn [fst snd] in *. now rewrite upd_generic.
  - intros [n st] x Hst. cbn [snd absorb] in *. now apply gen_fit.
  - split; [apply H0_fit|]. apply bytes_ok_zrep.
  - destruct (Stream.updates _ _ _ _) as [h|e|]; cbn [mbind outcome_bind]; try done. apply finalize_agree. now apply Hagree.
Qed.
End agreement.


Definition haswell : Cpu :=
  {| has_bmi1 := true; has_bmi2 := true; has_sse2 := true; has_sse3 := true; has_ssse3 := true;
     has_avx := true; has_avx2 := true; has_sha := false |}.
