(* ===== verification/LabelChecksum.v ===== *)
(** * Label checksums (src/checksum/label.rs)

    A label block ends in a [ChecksumTail]; the digest is SHA-256 of the block
    with the tail replaced by one that holds the byte offset.  [label_checksum]
    writes it, [label_verify] checks it. *)

From S2P Require Import Prelude Decoder Encoder Types Dva Stream Fletcher Sha256.

Inductive LabelChecksumError : Type :=
| LcBinary (err : BinaryEncodeError)
| LcChecksum (err : ChecksumError)
| LcChecksumTail (err : ChecksumTail_.EncodeError)
| LcInvalidLength (length : Z)
| LcOffsetTooLarge (offset : Z).

Inductive LabelVerifyError : Type :=
| LvBinaryDecode (err : BinaryDecodeError)
| LvBinaryEncode (err : BinaryEncodeError)
| LvChecksum (err : ChecksumError)
| LvChecksumTailDecode (err : ChecksumTail_.DecodeError)
| LvChecksumTailEncode (err : ChecksumTail_.EncodeError)
| LvInvalidLength (length : Z)
| LvMismatch (computed stored : list Z)
| LvOffsetTooLarge (offset : Z).

(** [offset.checked_shl(SECTOR_SHIFT)]: only the shift amount is checked, the
    value wraps. *)
Definition checked_shl (x n : Z) : option Z :=
  if n <? 64 then Some (wrap 64 (Z.shiftl x n)) else None.

Definition SECTOR_SHIFT : Z := 9.

Definition offset_tail (offset : Z) (o : EndianOrder) : outcome ChecksumTail_.EncodeError bytes :=
  ChecksumTail_.to_bytes {| ct_order := o; ct_value := (offset, 0, 0, 0) |}.

(** The words of a digest, as the [ChecksumValue] they are stored in. *)
Definition to_value (d : list Z) : ChecksumValue := (nth 0 d 0, nth 1 d 0, nth 2 d 0, nth 3 d 0).
Definition value_words (c : ChecksumValue) : list Z :=
  let '(w0, w1, w2, w3) := c in [w0; w1; w2; w3].

(** [reset], two [update] calls and [finalize]; the hasher has no errors. *)
Definition sha_two {E} (x86 : bool) (p q : bytes) : outcome E (list Z) :=
  match sha_hash_parts (update_blocks_generic x86) [p; q] with Ok d => Ok d | _ => Panic end.

(** The block with its new tail. *)
Definition label_checksum (x86 : bool) (data : bytes) (offset : Z) (o : EndianOrder)
    : outcome LabelChecksumError bytes :=
  let length := blen data in
  guard_err (length <? ChecksumTail_.SIZE) (LcInvalidLength length);;
  offset ← ok_or (checked_shl offset SECTOR_SHIFT) (LcOffsetTooLarge offset);
  tail ← map_err LcChecksumTail (offset_tail offset o);
  body ← unwrap (get_range data 0 (length - ChecksumTail_.SIZE));
  checksum ← sha_two x86 body tail;
  t ← map_err LcChecksumTail
        (ChecksumTail_.to_bytes {| ct_order := o; ct_value := to_value checksum |});
  unwrap (EncoderBuffer.copy_at data (length - ChecksumTail_.SIZE) t).

Definition label_verify (x86 : bool) (data : bytes) (offset : Z) : outcome LabelVerifyError unit :=
  let length := blen data in
  guard_err (length <? ChecksumTail_.SIZE) (LvInvalidLength length);;
  tb ← unwrap (get_range data (length - ChecksumTail_.SIZE) length);
  tail ← map_err LvChecksumTailDecode (ChecksumTail_.from_bytes tb);
  offset ← ok_or (checked_shl offset SECTOR_SHIFT) (LvOffsetTooLarge offset);
  ot ← map_err LvChecksumTailEncode (offset_tail offset (ct_order tail));
  body ← unwrap (get_range data 0 (length - ChecksumTail_.SIZE));
  computed ← sha_two x86 body ot;
  if decide (value_words (ct_value tail) = computed) then Ok tt
  else Err (LvMismatch computed (value_words (ct_value tail))).

Lemma offset_tail_eq offset o :
  offset_tail offset o =
  Ok (int_to o 8 ChecksumTail_.MAGIC ++ ChecksumValue_.encoding o (offset, 0, 0, 0)).
Proof. apply ChecksumTail_.tail_encoding. Qed.

(** ** Reading a tail back *)
Lemma from_u64_magic_ok o magic rest :
  fits 64 magic -> bytes_ok rest -> int_from Little (int_to Big 8 magic) <> magic ->
  from_u64_magic (int_to o 8 magic ++ rest) magic =
  Ok (o, DecoderBuffer.advance 8 (DecoderBuffer.from_bytes (int_to o 8 magic ++ rest))).
Proof.
  intros Hm Hr Hne. unfold from_u64_magic.
  set (b := DecoderBuffer.from_bytes (int_to o 8 magic ++ rest)).
  assert (Hw : DecoderBuffer.wf b) by (apply DecoderBuffer.wf_from_bytes, Forall_app; auto with zfs).
  assert (Hrem : DecoderBuffer.remaining b = int_to o 8 magic ++ rest)
    by apply DecoderBuffer.remaining_from_bytes.
  assert (Hrd : forall o', get_int o' 8 b = (Ok (int_from o' (int_to o 8 magic)), DecoderBuffer.advance 8 b)).
  { intros o'. unfold get_int, mbind, SM_bind.
    rewrite (reads_get_n_bytes (int_to o 8 magic) 8 ltac:(now rewrite blen_int_to) b rest Hw Hrem).
    now rewrite blen_int_to. }
  rewrite !Hrd. destruct o.
  - destruct (Z.eqb_spec (int_from Little (int_to Big 8 magic)) magic); [done|].
    rewrite int_from_to by done. now rewrite Z.eqb_refl.
  - rewrite int_from_to by done. now rewrite Z.eqb_refl.
Qed.

(** A tail that was encoded decodes to itself, in either order. *)
Lemma tail_roundtrip t bs :
  ChecksumValue_.wf (ct_value t) -> ChecksumTail_.to_bytes t = Ok bs ->
  ChecksumTail_.from_bytes bs = Ok t /\ blen bs = 40.
Proof.
  intros Hv. rewrite ChecksumTail_.tail_encoding. intros [= <-]. destruct t as [o v]; cbn in *.
  set (enc := ChecksumValue_.encoding o v).
  assert (Hok : bytes_ok (int_to o 8 ChecksumTail_.MAGIC ++ enc))
    by (apply Forall_app; split; [auto with zfs | apply ChecksumValue_.bytes_ok_cksum_encoding]).
  split.
  - unfold ChecksumTail_.from_bytes. rewrite from_u64_magic_ok;
      [|now split|apply ChecksumValue_.bytes_ok_cksum_encoding|now vm_compute].
    cbn [map_err mbind outcome_bind].
    pose proof (remaining_app (DecoderBuffer.from_bytes (int_to o 8 ChecksumTail_.MAGIC ++ enc))
      (int_to o 8 ChecksumTail_.MAGIC) enc (DecoderBuffer.wf_from_bytes _ Hok)
      (DecoderBuffer.remaining_from_bytes _)) as [Hw Hr].
    rewrite blen_int_to in *. change (Z.of_nat 8) with 8 in *.
    rewrite (ChecksumValue_.cksum_value_reads o v Hv _ [] Hw); [done|].
    now rewrite app_nil_r.
  - unfold enc. now rewrite blen_app, blen_int_to, ChecksumValue_.blen_cksum_encoding.
Qed.

Lemma digest_fits r : regs_fit r -> ChecksumValue_.wf (to_value (Fips.digest r)).
Proof.
  intros (?&?&?&?&?&?&?&?). unfold fits in *. repeat split; cbn; unfold fits in *; lia.
Qed.

Lemma sha256_value m : ChecksumValue_.wf (to_value (Fips.sha256 m)) /\
  value_words (to_value (Fips.sha256 m)) = Fips.sha256 m.
Proof.
  split; [|done]. apply digest_fits. apply (fips_blocks_fit H0 (Fips.pad m)). apply H0_fit.
Qed.

Section label.
Context (x86 : bool) (data : bytes) (offset : Z).
Hypothesis len_ok : 40 <= blen data < 2 ^ 60.

(** What is hashed: the block without its tail, then the offset's tail. *)
Definition label_message (o : EndianOrder) : bytes :=
  ztake (blen data - 40) data ++
  int_to o 8 ChecksumTail_.MAGIC ++ ChecksumValue_.encoding o (wrap 64 (Z.shiftl offset 9), 0, 0, 0).

Lemma body_range : get_range data 0 (blen data - 40) = Some (ztake (blen data - 40) data).
Proof using len_ok. rewrite get_range_ok by lia. now rewrite zdrop_0, Z.sub_0_r. Qed.

Lemma sha_label {E} o :
  sha_two (E := E) x86 (ztake (blen data - 40) data)
    (int_to o 8 ChecksumTail_.MAGIC ++ ChecksumValue_.encoding o (wrap 64 (Z.shiftl offset 9), 0, 0, 0))
  = Ok (Fips.sha256 (label_message o)).
Proof using len_ok.
  unfold sha_two, label_message. rewrite sha_hash_parts_ok; cbn [concat]; rewrite app_nil_r; [done|].
  rewrite !blen_app, blen_int_to, ChecksumValue_.blen_cksum_encoding, blen_ztake by lia. lia.
Qed.

Lemma label_checksum_eq o :
  exists t, ChecksumTail_.to_bytes
      {| ct_order := o; ct_value := to_value (Fips.sha256 (label_message o)) |} = Ok t /\
    label_checksum x86 data offset o = Ok (ztake (blen data - 40) data ++ t).
Proof using len_ok.
  unfold label_checksum. change ChecksumTail_.SIZE with 40.
  destruct (Z.ltb_spec (blen data) 40); [lia|]. cbn [guard_err mbind outcome_bind ok_or checked_shl].
  unfold checked_shl, SECTOR_SHIFT. cbn [Z.ltb Z.compare Pos.compare Pos.compare_cont ok_or mbind outcome_bind].
  rewrite offset_tail_eq. cbn [map_err mbind outcome_bind].
  rewrite body_range. cbn [unwrap mbind outcome_bind]. rewrite sha_label. cbn [mbind outcome_bind].
  destruct (sha256_value (label_message o)) as [Hv _].
  destruct (ChecksumTail_.to_bytes _) as [t| |] eqn:Et;
    [|rewrite ChecksumTail_.tail_encoding in Et; discriminate..].
  exists t. split; [done|]. cbn [map_err mbind outcome_bind].
  apply tail_roundtrip in Et as [_ Ht]; [|done].
  rewrite copy_at_eq by lia. cbn [unwrap]. rewrite Ht, (zdrop_ge (_ + _)), app_nil_r by lia. done.
Qed.
End label.

(** The block is kept but for its tail, and verifies. *)
Lemma label_signed x86 data offset o :
  40 <= blen data < 2 ^ 60 ->
  exists t, label_checksum x86 data offset o = Ok (ztake (blen data - 40) data ++ t) /\
    blen t = 40 /\ bytes_ok t /\ label_verify x86 (ztake (blen data - 40) data ++ t) offset = Ok tt.
Proof.
  intros Hlen. destruct (label_checksum_eq x86 data offset Hlen o) as (t & Ht & ->).
  exists t. split; [done|].
  assert (Htb : bytes_ok t).
  { rewrite ChecksumTail_.tail_encoding in Ht. injection Ht as <-. rewrite !Forall_app. auto 6 with zfs. }
  destruct (sha256_value (label_message data offset o)) as [Hv Hw].
  destruct (tail_roundtrip {| ct_order := o; ct_value := to_value (Fips.sha256 (label_message data offset o)) |}
    _ Hv Ht) as [Hfrom Hbt].
  set (d' := ztake (blen data - 40) data ++ t).
  assert (Hbp : blen (ztake (blen data - 40) data) = blen data - 40) by (rewrite blen_ztake by lia; lia).
  assert (Hbd : blen d' = blen data) by (unfold d'; rewrite blen_app; lia).
  split; [done|]. split; [done|]. fold d'. unfold label_verify. change ChecksumTail_.SIZE with 40. rewrite Hbd.
  destruct (Z.ltb_spec (blen data) 40); [lia|]. cbn [guard_err mbind outcome_bind].
  rewrite (get_range_ok d' (blen data - 40)) by lia.
  replace (zdrop (blen data - 40) d') with t by (unfold d'; rewrite <- Hbp at 1; now rewrite zdrop_app_length).
  rewrite (ztake_ge _ t) by lia. cbn [unwrap mbind outcome_bind]. rewrite Hfrom. cbn [map_err mbind outcome_bind ct_order ct_value].
  unfold checked_shl, SECTOR_SHIFT. cbn [Z.ltb Z.compare Pos.compare Pos.compare_cont ok_or mbind outcome_bind].
  rewrite offset_tail_eq. cbn [map_err mbind outcome_bind].
  assert (Hbody : ztake (blen data - 40) d' = ztake (blen data - 40) data).
  { unfold d'. rewrite <- Hbp at 1. apply ztake_app_length. }
  rewrite get_range_ok by lia. cbn [unwrap mbind outcome_bind]. rewrite zdrop_0, Z.sub_0_r, Hbody.
  rewrite sha_label by done. cbn [mbind outcome_bind]. rewrite Hw. now rewrite decide_True.
Qed.

(** A block that [label_checksum] has signed for an offset verifies at that
    offset, whatever byte order it was signed in. *)
Theorem label_checksum_verifies x86 data offset o :
  40 <= blen data < 2 ^ 60 ->
  exists data', label_checksum x86 data offset o = Ok data' /\
    blen data' = blen data /\ label_verify x86 data' offset = Ok tt.
Proof.
  intros Hlen. destruct (label_signed x86 data offset o Hlen) as (t & Hs & Ht & _ & Hv).
  eexists. split; [exact Hs|]. split; [|exact Hv]. rewrite blen_app, blen_ztake, Ht by lia. lia.
Qed.

Lemma label_checksum_verifies_witness :
  exists data', label_checksum true (zrep 64 7) 3 Big = Ok data' /\
    blen data' = blen (zrep 64 7) /\ label_verify true data' 3 = Ok tt.
Proof. apply (label_checksum_verifies true (zrep 64 7) 3 Big). vm_compute. split; congruence. Defined.

(** The offset is never found too large: the shift is by a constant, so the
    check cannot fail and an offset of 2^55 sectors or more wraps. *)
Theorem label_offset_wraps x86 data k :
  label_checksum x86 data (2 ^ 55 * k) Little = label_checksum x86 data 0 Little.
Proof.
  unfold label_checksum. destruct (guard_err _ _); cbn [mbind outcome_bind]; auto.
  unfold checked_shl, SECTOR_SHIFT. cbn [Z.ltb Z.compare Pos.compare Pos.compare_cont ok_or mbind outcome_bind].
  replace (wrap 64 (Z.shiftl (2 ^ 55 * k) 9)) with (wrap 64 (Z.shiftl 0 9)); [done|].
  unfold wrap. change (Z.shiftl 0 9) with 0. rewrite Z.shiftl_mul_pow2 by lia.
  replace (2 ^ 55 * k * 2 ^ 9) with (k * 2 ^ 64) by lia. now rewrite Z.mod_mul by lia.
Qed.
