(* ===== verification/Lzjb.v ===== *)
(** * LZJB (src/compression/lzjb.rs)

    The compressor (both hash functions) and the decompressor, as loops over
    indices into the source and destination arrays.  A compressed stream is a
    sequence of items in groups of eight, each group led by a byte that tells
    literals from copies; [ser] and [expand] give its meaning.  Shown here: the
    decompressor never panics and always ends with a buffer of the requested
    size or an error, the compressor never panics and never overruns its
    output, and decompressing what was compressed gives the source back. *)

From S2P Require Import Prelude Decoder Types.

Definition LENGTH_BITS : Z := 6.
Definition OFFSET_BITS : Z := 10.
Definition LENGTH_SHIFT : Z := OFFSET_BITS.
Definition OFFSET_MASK : Z := 2 ^ OFFSET_BITS - 1.
Definition LENGTH_MIN : Z := 3.
Definition LENGTH_MAX : Z := 2 ^ LENGTH_BITS - 1 + LENGTH_MIN.
Definition COPY_MASK_NEXT : Z := 0.
Definition TABLE_LENGTH : Z := 1024.

Inductive CompressionError : Type :=
| NotCompressable
| CompUnsupported (compression : CompressionType.t).

Inductive DecompressionError : Type :=
| DecEndOfInput (offset capacity count : Z)
| DecInvalidInput (offset : Z)
| DecUnsupported (compression : CompressionType.t).

(** [l[i] = v]: a panic out of range. *)
Definition zset (l : list Z) (i v : Z) : option (list Z) :=
  if (0 <=? i) && (i <? blen l) then Some (<[Z.to_nat i := v]> l) else None.

(** ** Decompression *)
Record dec_state : Type := {
  ds_src_idx : Z;
  ds_dst : bytes;
  ds_dst_idx : Z;
  ds_mask : Z;
  ds_map : Z
}.

(** [for _ in 0..n { dst[dst_idx] = dst[cpy_idx]; .. }] *)
Fixpoint copy_loop {E} (n : nat) (dst : bytes) (dst_idx cpy_idx : Z) : outcome E bytes :=
  match n with
  | O => Ok dst
  | S n' =>
      v ← unwrap (zget dst cpy_idx);
      dst' ← unwrap (zset dst dst_idx v);
      copy_loop n' dst' (dst_idx + 1) (cpy_idx + 1)
  end.

Section decompress.
Context (src : bytes).

(** The next bit of the copy map, reading a new map byte when the old one is
    used up. *)
Definition next_mask (s : dec_state) : outcome DecompressionError dec_state :=
  let mask := wrap 8 (Z.shiftl (ds_mask s) 1) in
  if mask =? COPY_MASK_NEXT then
    match zget src (ds_src_idx s) with
    | Some v => Ok {| ds_src_idx := ds_src_idx s + 1; ds_dst := ds_dst s;
                      ds_dst_idx := ds_dst_idx s; ds_mask := 1; ds_map := v |}
    | None => Err (DecEndOfInput (ds_src_idx s) (blen src) 1)
    end
  else Ok {| ds_src_idx := ds_src_idx s; ds_dst := ds_dst s; ds_dst_idx := ds_dst_idx s;
             ds_mask := mask; ds_map := ds_map s |}.

Definition dec_copy (s : dec_state) : outcome DecompressionError dec_state :=
  guard_err (blen src - ds_src_idx s <? 2) (DecEndOfInput (ds_src_idx s) (blen src) 2);;
  two ← unwrap (get_range src (ds_src_idx s) (ds_src_idx s + 2));
  let length_offset := int_from Big two in
  let src_idx := ds_src_idx s + 2 in
  let length := Z.shiftr length_offset LENGTH_SHIFT + LENGTH_MIN in
  let offset := Z.land length_offset OFFSET_MASK in
  cpy_idx ← ok_or (checked_sub (ds_dst_idx s) offset) (DecInvalidInput (src_idx - 2));
  let length := Z.min length (blen (ds_dst s) - ds_dst_idx s) in
  dst ← copy_loop (Z.to_nat length) (ds_dst s) (ds_dst_idx s) cpy_idx;
  Ok {| ds_src_idx := src_idx; ds_dst := dst; ds_dst_idx := ds_dst_idx s + length;
        ds_mask := ds_mask s; ds_map := ds_map s |}.

Definition dec_literal (s : dec_state) : outcome DecompressionError dec_state :=
  match zget src (ds_src_idx s) with
  | Some v =>
      dst ← unwrap (zset (ds_dst s) (ds_dst_idx s) v);
      Ok {| ds_src_idx := ds_src_idx s + 1; ds_dst := dst; ds_dst_idx := ds_dst_idx s + 1;
            ds_mask := ds_mask s; ds_map := ds_map s |}
  | None => Err (DecEndOfInput (ds_src_idx s) (blen src) 1)
  end.

Definition dec_item (s : dec_state) : outcome DecompressionError dec_state :=
  if negb (Z.land (ds_map s) (ds_mask s) =? 0) then dec_copy s else dec_literal s.

(** The [while] loop; each turn writes at least one byte, so the length of the
    destination is enough fuel. *)
Fixpoint dec_loop (fuel : nat) (s : dec_state) : outcome DecompressionError bytes :=
  if ds_dst_idx s <? blen (ds_dst s) then
    match fuel with
    | O => Panic
    | S fuel' => s1 ← next_mask s; s2 ← dec_item s1; dec_loop fuel' s2
    end
  else Ok (ds_dst s).

Definition dec_init (dst : bytes) : dec_state :=
  {| ds_src_idx := 0; ds_dst := dst; ds_dst_idx := 0; ds_mask := COPY_MASK_NEXT; ds_map := 0 |}.

Definition decompress (dst : bytes) : outcome DecompressionError bytes :=
  dec_loop (length dst) (dec_init dst).
End decompress.

(** ** Compression *)
Record enc_state : Type := {
  es_src_idx : Z;
  es_dst : bytes;
  es_dst_idx : Z;
  es_mask : Z;
  es_map_idx : Z;
  es_table : list Z
}.

(** The hash of [compress] and the one of [compress_pre_v21]. *)
Definition hash_v21 (a b c : Z) : Z :=
  let hash := Z.lor (Z.lor (Z.shiftl a 16) (Z.shiftl b 8)) c in
  let hash := hash + Z.shiftr hash 9 in
  let hash := hash + Z.shiftr hash 5 in
  hash mod TABLE_LENGTH.
Definition hash_pre_v21 (a b c : Z) : Z :=
  Z.lxor (Z.lxor (wrap 8 (a + 13)) (wrap 8 (b - 13))) c.

Section compress.
Context (hash : Z -> Z -> Z -> Z) (src : bytes).

(** [while length < LENGTH_MAX { if equal { length += 1 } else { break } }] *)
Fixpoint match_length (fuel : nat) (src_idx cpy_idx len : Z) : outcome CompressionError Z :=
  match fuel with
  | O => Ok len
  | S fuel' =>
      if len <? LENGTH_MAX then
        x ← unwrap (zget src (src_idx + len));
        y ← unwrap (zget src (cpy_idx + len));
        if x =? y then match_length fuel' src_idx cpy_idx (len + 1) else Ok len
      else Ok len
  end.

(** A new map byte when the mask runs out: there must be room for it and
    eight items of two bytes. *)
Definition enc_mask (s : enc_state) : outcome CompressionError enc_state :=
  let mask := wrap 8 (Z.shiftl (es_mask s) 1) in
  if mask =? COPY_MASK_NEXT then
    guard_err (blen (es_dst s) - es_dst_idx s <? 1 + 8 * 2) NotCompressable;;
    dst ← unwrap (zset (es_dst s) (es_dst_idx s) 0);
    Ok {| es_src_idx := es_src_idx s; es_dst := dst; es_dst_idx := es_dst_idx s + 1;
          es_mask := 1; es_map_idx := es_dst_idx s; es_table := es_table s |}
  else Ok {| es_src_idx := es_src_idx s; es_dst := es_dst s; es_dst_idx := es_dst_idx s;
             es_mask := mask; es_map_idx := es_map_idx s; es_table := es_table s |}.

Definition enc_literal (s : enc_state) : outcome CompressionError enc_state :=
  v ← unwrap (zget src (es_src_idx s));
  dst ← unwrap (zset (es_dst s) (es_dst_idx s) v);
  Ok {| es_src_idx := es_src_idx s + 1; es_dst := dst; es_dst_idx := es_dst_idx s + 1;
        es_mask := es_mask s; es_map_idx := es_map_idx s; es_table := es_table s |}.

Definition enc_copy (s : enc_state) (cpy_idx old_offset : Z) : outcome CompressionError enc_state :=
  m ← unwrap (zget (es_dst s) (es_map_idx s));
  dst ← unwrap (zset (es_dst s) (es_map_idx s) (Z.lor m (es_mask s)));
  len ← match_length (Z.to_nat (LENGTH_MAX - LENGTH_MIN)) (es_src_idx s) cpy_idx LENGTH_MIN;
  let length_offset := Z.lor (Z.shiftl (len - LENGTH_MIN) LENGTH_SHIFT) old_offset in
  dst ← unwrap (zset dst (es_dst_idx s) (nth 0 (int_to Big 2 (wrap 16 length_offset)) 0));
  dst ← unwrap (zset dst (es_dst_idx s + 1) (nth 1 (int_to Big 2 (wrap 16 length_offset)) 0));
  Ok {| es_src_idx := es_src_idx s + len; es_dst := dst; es_dst_idx := es_dst_idx s + 2;
        es_mask := es_mask s; es_map_idx := es_map_idx s; es_table := es_table s |}.

(** One turn of the loop. *)
Definition enc_item (s : enc_state) : outcome CompressionError enc_state :=
  if blen src - es_src_idx s <? LENGTH_MAX then enc_literal s
  else
    let i := es_src_idx s in
    a ← unwrap (zget src i);
    b ← unwrap (zget src (i + 1));
    c ← unwrap (zget src (i + 2));
    let h := hash a b c in
    entry ← unwrap (zget (es_table s) h);
    diff ← unwrap (checked_sub i entry);
    let old_offset := Z.land diff OFFSET_MASK in
    table ← unwrap (zset (es_table s) h (wrap 16 i));
    let s := {| es_src_idx := i; es_dst := es_dst s; es_dst_idx := es_dst_idx s;
                es_mask := es_mask s; es_map_idx := es_map_idx s; es_table := table |} in
    cpy_idx ← unwrap (checked_sub i old_offset);
    if cpy_idx =? i then enc_literal s
    else
      a' ← unwrap (zget src cpy_idx);
      b' ← unwrap (zget src (cpy_idx + 1));
      c' ← unwrap (zget src (cpy_idx + 2));
      if (a =? a') && (b =? b') && (c =? c') then enc_copy s cpy_idx old_offset
      else enc_literal s.

Fixpoint enc_loop (fuel : nat) (s : enc_state) : outcome CompressionError enc_state :=
  if es_src_idx s <? blen src then
    match fuel with
    | O => Panic
    | S fuel' => s1 ← enc_mask s; s2 ← enc_item s1; enc_loop fuel' s2
    end
  else Ok s.

(** The bytes written, and how many. *)
Definition compress_with (dst : bytes) : outcome CompressionError (Z * bytes) :=
  s ← enc_loop (length src)
        {| es_src_idx := 0; es_dst := dst; es_dst_idx := 0; es_mask := COPY_MASK_NEXT;
           es_map_idx := 0; es_table := zrep TABLE_LENGTH 0 |};
  Ok (es_dst_idx s, es_dst s).
End compress.

Definition compress : bytes -> bytes -> outcome CompressionError (Z * bytes) :=
  fun dst src => compress_with hash_v21 src dst.
Definition compress_pre_v21 : bytes -> bytes -> outcome CompressionError (Z * bytes) :=
  fun dst src => compress_with hash_pre_v21 src dst.

(** ** Writes in range *)
Lemma zset_ok l i v : 0 <= i < blen l -> zset l i v = Some (<[Z.to_nat i := v]> l).
Proof.
  intros. unfold zset. destruct (Z.leb_spec 0 i), (Z.ltb_spec i (blen l)); cbn; auto; lia.
Qed.

Lemma blen_insert (l : bytes) i v : blen (<[i := v]> l) = blen l.
Proof. unfold blen. now rewrite length_insert. Qed.

Lemma bytes_ok_insert (l : bytes) i v : bytes_ok l -> is_byte v -> bytes_ok (<[i := v]> l).
Proof. intros. now apply Forall_insert. Qed.

Lemma zget_byte l i v : bytes_ok l -> zget l i = Some v -> is_byte v.
Proof. intros H Hv%zget_elem. rewrite Forall_forall in H. auto. Qed.

(** ** The decompressor is total *)
Lemma copy_loop_safe {E} n dst d c :
  0 <= c <= d -> d + Z.of_nat n <= blen dst -> bytes_ok dst ->
  exists dst', copy_loop (E := E) n dst d c = Ok dst' /\ blen dst' = blen dst /\ bytes_ok dst'.
Proof.
  revert dst d c. induction n as [|n IH]; intros dst d c Hc Hd Hb; cbn [copy_loop]; [eauto|].
  destruct (zget_in dst c) as [v Hv]; [lia|]. rewrite Hv. cbn [unwrap mbind outcome_bind].
  rewrite zset_ok by lia. cbn [unwrap mbind outcome_bind].
  pose proof (zget_byte _ _ _ Hb Hv) as Hvb.
  destruct (IH (<[Z.to_nat d := v]> dst) (d + 1) (c + 1)) as (dst' & H1 & H2 & H3);
    rewrite ?blen_insert; auto using bytes_ok_insert; try lia.
  rewrite blen_insert in H2. eauto.
Qed.

Section total.
Context (src : bytes).
Hypothesis src_ok : bytes_ok src.

Definition dec_inv (L : Z) (s : dec_state) : Prop :=
  0 <= ds_src_idx s <= blen src /\ 0 <= ds_dst_idx s <= L /\ blen (ds_dst s) = L /\
  bytes_ok (ds_dst s).

Lemma next_mask_safe L s :
  dec_inv L s -> safe (fun s' => dec_inv L s' /\ ds_dst_idx s' = ds_dst_idx s) (next_mask src s).
Proof using.
  intros (H1 & H2 & H3 & H4). unfold next_mask. destruct (_ =? COPY_MASK_NEXT).
  - destruct (zget src (ds_src_idx s)) as [v|] eqn:E; cbn; [|done].
    apply zget_lookup in E as [? _]. unfold dec_inv; cbn. splits; auto; lia.
  - cbn. unfold dec_inv; cbn. auto.
Qed.

Lemma length_bound lo : fits 16 lo -> 0 <= Z.shiftr lo LENGTH_SHIFT < 64 /\ 0 <= Z.land lo OFFSET_MASK < 1024.
Proof using.
  unfold fits, LENGTH_SHIFT, OFFSET_MASK, OFFSET_BITS. intros.
  rewrite land_ones_mod, shiftr_div by lia. dlia.
Qed.

Lemma dec_item_safe L s :
  dec_inv L s -> ds_dst_idx s < L ->
  safe (fun s' => dec_inv L s' /\ ds_dst_idx s < ds_dst_idx s') (dec_item src s).
Proof using src_ok.
  intros (H1 & H2 & H3 & H4) Hlt. unfold dec_item. destruct (negb _).
  - unfold dec_copy. eapply safe_bind; [apply safe_guard|]. intros ? Hg. apply Z.ltb_ge in Hg.
    rewrite get_range_ok by lia. cbn [unwrap mbind outcome_bind].
    set (two := ztake _ _).
    assert (Hlo : fits 16 (int_from Big two)).
    { apply (int_from_fits Big two 2); [unfold two; auto with zfs|].
      unfold two. rewrite blen_ztake, blen_zdrop by lia. lia. }
    destruct (length_bound _ Hlo) as [Hl Ho]. clear Hlo.
    set (len0 := Z.shiftr (int_from Big two) LENGTH_SHIFT) in *.
    set (off := Z.land (int_from Big two) OFFSET_MASK) in *. clearbody len0 off.
    eapply safe_bind; [apply (safe_ok_or (fun c => 0 <= c <= ds_dst_idx s))|].
    { intros c. unfold checked_sub. destruct (Z.leb_spec off (ds_dst_idx s)); [|done].
      intros [= <-]. lia. }
    intros c Hc. unfold LENGTH_MIN.
    set (len := Z.min _ _).
    destruct (copy_loop_safe (E := DecompressionError) (Z.to_nat len) (ds_dst s) (ds_dst_idx s) c)
      as (dst' & -> & Hl' & Hb'); auto; [lia|].
    cbn. unfold dec_inv; cbn. splits; auto; lia.
  - unfold dec_literal. destruct (zget src (ds_src_idx s)) as [v|] eqn:E; [|done].
    pose proof (zget_byte _ _ _ src_ok E). apply zget_lookup in E as [? _].
    rewrite zset_ok by lia. cbn. unfold dec_inv; cbn. rewrite blen_insert.
    splits; auto using bytes_ok_insert; lia.
Qed.

Lemma dec_loop_safe L fuel s :
  dec_inv L s -> L - ds_dst_idx s <= Z.of_nat fuel ->
  safe (fun dst => blen dst = L /\ bytes_ok dst) (dec_loop src fuel s).
Proof using src_ok.
  revert s. induction fuel as [|fuel IH]; intros s Hs Hf; cbn [dec_loop];
    pose proof Hs as (H1 & H2 & H3 & H4); rewrite H3;
    destruct (Z.ltb_spec (ds_dst_idx s) L); try lia; try (cbn; auto; fail).
  eapply safe_bind; [exact (next_mask_safe L s Hs)|]. intros s1 [Hs1 He].
  eapply safe_bind; [apply (dec_item_safe L); [done|lia]|]. intros s2 [Hs2 Hlt].
  apply IH; [done|lia].
Qed.

Lemma decompress_safe dst :
  bytes_ok dst -> safe (fun d => blen d = blen dst /\ bytes_ok d) (decompress src dst).
Proof using src_ok.
  intros Hd. unfold decompress. apply (dec_loop_safe (blen dst)).
  - unfold dec_inv, dec_init; cbn. pose proof (blen_nonneg src); pose proof (blen_nonneg dst).
    splits; auto; lia.
  - cbn. unfold blen. lia.
Qed.
End total.

(** ** Items, groups and their meaning *)
Inductive item : Type := Lit (b : Z) | Copy (off len : Z).

Definition is_copy (t : item) : bool := match t with Copy _ _ => true | Lit _ => false end.

Definition item_bytes (t : item) : bytes :=
  match t with
  | Lit b => [b]
  | Copy off len => int_to Big 2 (off + (len - 3) * 2 ^ 10)
  end.
Definition items_bytes (g : list item) : bytes := concat (map item_bytes g).

Fixpoint map_bits (g : list item) : Z :=
  match g with [] => 0 | t :: g' => (if is_copy t then 1 else 0) + 2 * map_bits g' end.

(** A stream of groups. *)
Definition group_bytes (g : list item) : bytes := map_bits g :: items_bytes g.
Definition ser (gs : list (list item)) : bytes := concat (map group_bytes gs).

Fixpoint expand_copy (n : nat) (off : Z) (out : bytes) : bytes :=
  match n with
  | O => out
  | S n' => expand_copy n' off (out ++ [nth (Z.to_nat (blen out - off)) out 0])
  end.
Definition expand_item (out : bytes) (t : item) : bytes :=
  match t with Lit b => out ++ [b] | Copy off len => expand_copy (Z.to_nat len) off out end.
Definition expand (out : bytes) (its : list item) : bytes := fold_left expand_item its out.

(** An item that can follow [out] in a stream. *)
Definition item_ok (out : bytes) (t : item) : Prop :=
  match t with
  | Lit b => is_byte b
  | Copy off len => 1 <= off <= blen out /\ off < 1024 /\ 3 <= len <= 66
  end.
Fixpoint items_ok (out : bytes) (its : list item) : Prop :=
  match its with [] => True | t :: r => item_ok out t /\ items_ok (expand_item out t) r end.

Lemma blen_expand_copy n off out : blen (expand_copy n off out) = blen out + Z.of_nat n.
Proof.
  revert out. induction n as [|n IH]; intros out; cbn [expand_copy]; [lia|].
  rewrite IH, blen_app. change (blen [nth (Z.to_nat (blen out - off)) out 0]) with 1. lia.
Qed.

Lemma blen_expand_item out t : item_ok out t -> blen out < blen (expand_item out t).
Proof.
  destruct t as [b|off len]; cbn [expand_item item_ok]; intros H.
  - rewrite blen_app. change (blen [b]) with 1. lia.
  - rewrite blen_expand_copy. lia.
Qed.

Lemma blen_expand out its : items_ok out its -> blen out <= blen (expand out its).
Proof.
  revert out. induction its as [|t its IH]; intros out H; [cbn; lia|].
  destruct H as [H1 H2]. apply blen_expand_item in H1. specialize (IH _ H2).
  change (expand out (t :: its)) with (expand (expand_item out t) its). lia.
Qed.

Lemma items_ok_app out a b : items_ok out (a ++ b) <-> items_ok out a /\ items_ok (expand out a) b.
Proof.
  revert out. induction a as [|t a IH]; intros out; cbn [app items_ok]; [cbn; tauto|].
  rewrite IH. cbn [expand fold_left]. tauto.
Qed.

Lemma expand_app out a b : expand out (a ++ b) = expand (expand out a) b.
Proof. apply fold_left_app. Qed.

Lemma items_bytes_app a b : items_bytes (a ++ b) = items_bytes a ++ items_bytes b.
Proof. unfold items_bytes. now rewrite map_app, concat_app. Qed.

Lemma blen_items_bytes g : blen g <= blen (items_bytes g) <= 2 * blen g.
Proof.
  induction g as [|t g IH]; [now vm_compute|]. change (t :: g) with ([t] ++ g).
  rewrite items_bytes_app, !blen_app. change (blen [t]) with 1.
  assert (1 <= blen (items_bytes [t]) <= 2); [|lia].
  unfold items_bytes; cbn. rewrite app_nil_r. destruct t; cbn [item_bytes].
  - change (blen [b]) with 1. lia.
  - rewrite blen_int_to. lia.
Qed.

Lemma map_bits_range g : 0 <= map_bits g < 2 ^ blen g.
Proof.
  induction g as [|t g IH]; [now vm_compute|]. rewrite blen_cons. cbn [map_bits].
  rewrite Z.pow_add_r by (pose proof (blen_nonneg g); lia). destruct (is_copy t); lia.
Qed.

Lemma map_bits_app g h : map_bits (g ++ h) = map_bits g + 2 ^ blen g * map_bits h.
Proof.
  induction g as [|t g IH]; cbn [app map_bits].
  - change (blen (@nil item)) with 0. rewrite Z.pow_0_r. lia.
  - rewrite IH, blen_cons, Z.pow_add_r by (pose proof (blen_nonneg g); lia). lia.
Qed.

(** ** Arrays as a written part and a rest *)
Lemma zget_app_r (p q : list Z) i : 0 <= i -> zget (p ++ q) (blen p + i) = zget q i.
Proof.
  intros Hi. unfold zget. rewrite blen_app. pose proof (blen_nonneg p).
  destruct (Z.leb_spec 0 (blen p + i)), (Z.leb_spec 0 i); try lia.
  destruct (Z.ltb_spec (blen p + i) (blen p + blen q)), (Z.ltb_spec i (blen q)); try lia; cbn; auto.
  rewrite lookup_app_r by (unfold blen in *; lia). f_equal. unfold blen in *. lia.
Qed.

Lemma zget_app_l (p q : list Z) i : 0 <= i < blen p -> zget (p ++ q) i = zget p i.
Proof.
  intros Hi. unfold zget. rewrite blen_app. pose proof (blen_nonneg q).
  destruct (Z.leb_spec 0 i), (Z.ltb_spec i (blen p + blen q)), (Z.ltb_spec i (blen p)); try lia; cbn.
  apply lookup_app_l. unfold blen in *; lia.
Qed.

Lemma zget_head (x : Z) l : zget (x :: l) 0 = Some x.
Proof. unfold zget. rewrite blen_cons. pose proof (blen_nonneg l). now destruct (Z.ltb_spec 0 (1 + blen l)); [|lia]. Qed.

Lemma zget_middle (p : bytes) y q : zget (p ++ y :: q) (blen p) = Some y.
Proof. rewrite <- (Z.add_0_r (blen p)), zget_app_r by lia. apply zget_head. Qed.

Lemma zset_middle (p : bytes) y q v : zset (p ++ y :: q) (blen p) v = Some (p ++ v :: q).
Proof.
  rewrite zset_ok.
  - f_equal. unfold blen. rewrite Nat2Z.id. rewrite insert_app_r_alt by lia. now rewrite Nat.sub_diag.
  - rewrite blen_app, blen_cons. pose proof (blen_nonneg p); pose proof (blen_nonneg q). lia.
Qed.

Lemma zget_nth (l : bytes) i : 0 <= i < blen l -> zget l i = Some (nth (Z.to_nat i) l 0).
Proof.
  intros Hi. destruct (zget_in l i Hi) as [v Hv]. rewrite Hv. apply zget_lookup in Hv as [_ Hv].
  f_equal. symmetry. now apply nth_lookup_Some.
Qed.

Lemma copy_loop_expand {E} n out rest c :
  Z.of_nat n <= blen rest -> 0 <= c < blen out ->
  exists rest', copy_loop (E := E) n (out ++ rest) (blen out) c =
      Ok (expand_copy n (blen out - c) out ++ rest') /\
    blen rest' = blen rest - Z.of_nat n.
Proof.
  revert out rest c. induction n as [|n IH]; intros out rest c Hn Hc; cbn [copy_loop expand_copy].
  - exists rest. split; [done|lia].
  - destruct rest as [|r0 rest]; [rewrite blen_nil in Hn; lia|]. rewrite blen_cons in Hn |- *.
    rewrite zget_app_l, zget_nth by lia. cbn [unwrap mbind outcome_bind].
    rewrite zset_middle. cbn [unwrap mbind outcome_bind].
    replace (blen out - (blen out - c)) with c by lia. set (v := nth (Z.to_nat c) out 0).
    replace (out ++ v :: rest) with ((out ++ [v]) ++ rest) by (now rewrite <- app_assoc).
    assert (Hv : blen (out ++ [v]) = blen out + 1) by (rewrite blen_app; done).
    destruct (IH (out ++ [v]) rest (c + 1)) as (rest' & H1 & H2); [lia|lia|].
    rewrite Hv in H1. exists rest'. replace (blen out + 1 - (c + 1)) with (blen out - c) in H1 by lia.
    split; [exact H1|lia].
Qed.

(** ** The decompressor follows a stream *)
Definition dst_at (i : Z) (out rest : bytes) (mask map : Z) : dec_state :=
  {| ds_src_idx := i; ds_dst := out ++ rest; ds_dst_idx := blen out; ds_mask := mask; ds_map := map |}.

(** What is left of the destination after [t] was expanded into it. *)
Definition shrinks (out out' rest rest' : bytes) : Prop :=
  blen out' + blen rest' = blen out + blen rest.

Lemma copy_word_fields off len :
  0 <= off < 1024 -> 3 <= len <= 66 ->
  let w := off + (len - 3) * 2 ^ 10 in
  fits 16 w /\ Z.shiftr w LENGTH_SHIFT = len - 3 /\ Z.land w OFFSET_MASK = off.
Proof.
  intros Ho Hl w. unfold w, fits, LENGTH_SHIFT, OFFSET_MASK, OFFSET_BITS.
  rewrite land_ones_mod, shiftr_div by lia. splits; dlia.
Qed.

Lemma dec_item_expand pre post t out rest mask map :
  item_ok out t -> blen (expand_item out t) <= blen out + blen rest ->
  negb (Z.land map mask =? 0) = is_copy t ->
  exists rest', shrinks out (expand_item out t) rest rest' /\
    dec_item (pre ++ item_bytes t ++ post) (dst_at (blen pre) out rest mask map) =
    Ok (dst_at (blen (pre ++ item_bytes t)) (expand_item out t) rest' mask map).
Proof.
  intros Hok Hfit Hbit. unfold dec_item, dst_at; cbn [ds_map ds_mask]. rewrite Hbit.
  destruct t as [b|off len]; cbn [is_copy item_ok expand_item item_bytes] in *.
  - unfold dec_literal; cbn [ds_src_idx ds_dst ds_dst_idx].
    cbn [app]. rewrite zget_middle. rewrite blen_app in Hfit. change (blen [b]) with 1 in Hfit.
    destruct rest as [|r0 rest]; [rewrite blen_nil in Hfit; lia|].
    rewrite zset_middle. cbn [unwrap mbind outcome_bind]. exists rest. split.
    + unfold shrinks. rewrite blen_app, !blen_cons, blen_nil. lia.
    + rewrite !blen_app. change (blen [b]) with 1. now rewrite <- app_assoc.
  - destruct Hok as (Ho & Ho' & Hl). destruct (copy_word_fields off len) as (Hw & Hwl & Hwo); [lia|lia|].
    set (w := off + (len - 3) * 2 ^ 10) in *. rewrite blen_expand_copy in Hfit.
    assert (H2 : blen (int_to Big 2 w) = 2) by now rewrite blen_int_to.
    unfold dec_copy; cbn [ds_src_idx ds_dst ds_dst_idx ds_mask ds_map].
    rewrite !blen_app, H2. destruct (Z.ltb_spec (blen pre + (2 + blen post) - blen pre) 2);
      [pose proof (blen_nonneg post); lia|]. cbn [guard_err mbind outcome_bind].
    rewrite get_range_ok by (rewrite ?blen_app, ?H2; pose proof (blen_nonneg post);
                             pose proof (blen_nonneg pre); lia).
    rewrite zdrop_app_length. replace (blen pre + 2 - blen pre) with (blen (int_to Big 2 w)) by lia.
    rewrite ztake_app_length. cbn [unwrap mbind outcome_bind].
    rewrite int_from_to by (exact Hw). rewrite Hwl, Hwo.
    unfold checked_sub. destruct (Z.leb_spec off (blen out)); [|lia]. cbn [ok_or mbind outcome_bind].
    replace (Z.min _ _) with len by (unfold LENGTH_MIN; lia).
    destruct (copy_loop_expand (E := DecompressionError) (Z.to_nat len) out rest (blen out - off))
      as (rest' & -> & Hr); [lia|lia|].
    cbn [mbind outcome_bind]. replace (blen out - (blen out - off)) with off by lia.
    exists rest'. split; [unfold shrinks; rewrite blen_expand_copy; lia|].
    rewrite blen_expand_copy. do 2 f_equal; lia.
Qed.

(** The mask of item number [k] of a group. *)
Lemma mask_next k : 0 <= k < 7 -> wrap 8 (Z.shiftl (2 ^ k) 1) = 2 ^ (k + 1).
Proof.
  intros. rewrite Z.shiftl_mul_pow2 by lia. rewrite <- Z.pow_add_r by lia.
  apply wrap_id. split; [lia|]. apply Z.pow_lt_mono_r; lia.
Qed.

Lemma map_bit g t h : negb (Z.land (map_bits (g ++ t :: h)) (2 ^ blen g) =? 0) = is_copy t.
Proof.
  pose proof (blen_nonneg g). rewrite <- (Z.mul_1_l (2 ^ blen g)), <- Z.shiftl_mul_pow2 by lia.
  change (bit_set (map_bits (g ++ t :: h)) (blen g) = is_copy t).
  rewrite bit_set_div, map_bits_app by lia. cbn [map_bits].
  rewrite (Z.mul_comm (2 ^ blen g)), Z.div_add, (Z.div_small (map_bits g)) by
    (pose proof (map_bits_range g); lia).
  rewrite Z.add_0_l, (Z.mul_comm 2), Z.mod_add by lia. now destruct (is_copy t).
Qed.

Lemma dec_loop_step src fuel s :
  ds_dst_idx s < blen (ds_dst s) ->
  dec_loop src (S fuel) s = (s1 ← next_mask src s; s2 ← dec_item src s1; dec_loop src fuel s2).
Proof. intros. cbn [dec_loop]. now destruct (Z.ltb_spec (ds_dst_idx s) (blen (ds_dst s))); [|lia]. Qed.

Lemma dst_at_more i out rest mask map t :
  item_ok out t -> blen (expand_item out t) <= blen out + blen rest ->
  ds_dst_idx (dst_at i out rest mask map) < blen (ds_dst (dst_at i out rest mask map)).
Proof. intros H%blen_expand_item ?. cbn. rewrite blen_app. lia. Qed.

(** The items of a group after its first. *)
Lemma dec_loop_items its g pre post fuel out rest :
  1 <= blen g -> blen g + blen its <= 8 -> items_ok out its ->
  blen (expand out its) <= blen out + blen rest -> blen rest <= Z.of_nat fuel ->
  let src := pre ++ items_bytes its ++ post in
  let map := map_bits (g ++ its) in
  exists rest' fuel', shrinks out (expand out its) rest rest' /\ blen rest' <= Z.of_nat fuel' /\
    dec_loop src fuel (dst_at (blen pre) out rest (2 ^ (blen g - 1)) map) =
    dec_loop src fuel' (dst_at (blen (pre ++ items_bytes its)) (expand out its) rest'
      (2 ^ (blen (g ++ its) - 1)) map).
Proof.
  revert g pre fuel out rest.
  induction its as [|t its IH]; intros g pre fuel out rest Hg Hg8 Hok Hfit Hf src map.
  { exists rest, fuel. split; [done|]. split; [done|]. unfold map. cbn [items_bytes List.map concat expand fold_left].
    now rewrite !app_nil_r. }
  destruct Hok as [Ht Hits]. change (expand out (t :: its)) with (expand (expand_item out t) its) in *.
  pose proof (blen_expand _ _ Hits). pose proof (blen_expand_item _ _ Ht).
  rewrite blen_cons in Hg8. pose proof (blen_nonneg its).
  assert (Hit : items_bytes (t :: its) = item_bytes t ++ items_bytes its) by done.
  destruct fuel as [|fuel]; [lia|]. rewrite dec_loop_step by (eapply dst_at_more; [exact Ht|lia]).
  unfold next_mask. cbn [ds_mask dst_at]. rewrite mask_next by lia.
  replace (blen g - 1 + 1) with (blen g) by lia.
  destruct (Z.eqb_spec (2 ^ blen g) COPY_MASK_NEXT) as [E|_]; [unfold COPY_MASK_NEXT in E; lia|].
  cbn [mbind outcome_bind].
  destruct (dec_item_expand pre (items_bytes its ++ post) t out rest (2 ^ blen g) map)
    as (rest1 & Hs1 & E1); [done|lia|apply map_bit|].
  unfold src. rewrite Hit, <- app_assoc.
  change {| ds_src_idx := _; ds_mask := 2 ^ blen g |} with (dst_at (blen pre) out rest (2 ^ blen g) map).
  rewrite E1. cbn [mbind outcome_bind]. unfold shrinks in Hs1.
  destruct (IH (g ++ [t]) (pre ++ item_bytes t) fuel (expand_item out t) rest1)
    as (rest' & fuel' & Hs & Hf' & E2);
    [rewrite ?blen_app, ?blen_cons, ?blen_nil; first [lia|done] .. |].
  exists rest', fuel'. split; [unfold shrinks in *; lia|]. split; [done|].
  replace (blen (g ++ [t]) - 1) with (blen g) in E2 by (rewrite blen_app, blen_cons, blen_nil; lia).
  unfold map. rewrite <- !app_assoc in E2. cbn [app] in E2. rewrite E2. done.
Qed.

(** A whole group, from the byte of its map. *)
Lemma dec_loop_group t its pre post fuel out rest m map0 :
  wrap 8 (Z.shiftl m 1) = COPY_MASK_NEXT -> 1 + blen its <= 8 -> items_ok out (t :: its) ->
  blen (expand out (t :: its)) <= blen out + blen rest -> blen rest <= Z.of_nat fuel ->
  let src := pre ++ group_bytes (t :: its) ++ post in
  exists rest' fuel', shrinks out (expand out (t :: its)) rest rest' /\ blen rest' <= Z.of_nat fuel' /\
    dec_loop src fuel (dst_at (blen pre) out rest m map0) =
    dec_loop src fuel' (dst_at (blen (pre ++ group_bytes (t :: its))) (expand out (t :: its)) rest'
      (2 ^ (blen (t :: its) - 1)) (map_bits (t :: its))).
Proof.
  intros Hm H8 Hok Hfit Hf src. pose proof (blen_nonneg its). destruct Hok as [Ht Hits].
  change (expand out (t :: its)) with (expand (expand_item out t) its) in *.
  pose proof (blen_expand _ _ Hits). pose proof (blen_expand_item _ _ Ht).
  destruct fuel as [|fuel]; [lia|]. rewrite dec_loop_step by (eapply dst_at_more; [exact Ht|lia]).
  set (map := map_bits (t :: its)). set (pre1 := pre ++ [map]).
  assert (Hsrc : src = pre1 ++ item_bytes t ++ items_bytes its ++ post).
  { unfold src, pre1, group_bytes. rewrite <- app_assoc. cbn [app]. fold map.
    change (items_bytes (t :: its)) with (item_bytes t ++ items_bytes its). now rewrite <- app_assoc. }
  assert (Hp1 : blen pre1 = blen pre + 1) by (unfold pre1; now rewrite blen_app).
  unfold next_mask. cbn [ds_mask dst_at ds_src_idx ds_dst ds_dst_idx]. rewrite Hm.
  assert (Hmap : zget src (blen pre) = Some map) by apply zget_middle. rewrite Hmap. cbn [Z.eqb COPY_MASK_NEXT mbind outcome_bind].
  destruct (dec_item_expand pre1 (items_bytes its ++ post) t out rest 1 map)
    as (rest1 & Hs1 & E1); [done|lia|exact (map_bit [] t its)|].
  change {| ds_src_idx := _; ds_mask := 1 |} with (dst_at (blen pre + 1) out rest 1 map).
  rewrite Hsrc, <- Hp1, E1. cbn [mbind outcome_bind]. unfold shrinks in Hs1.
  destruct (dec_loop_items its [t] (pre1 ++ item_bytes t) post fuel (expand_item out t) rest1)
    as (rest' & fuel' & Hs & Hf' & E2); [rewrite ?blen_cons, ?blen_nil; first [lia|done] .. |].
  exists rest', fuel'. split; [unfold shrinks in *; lia|]. split; [done|].
  change (2 ^ (blen [t] - 1)) with 1 in E2. rewrite <- !app_assoc in E2. cbn [app] in E2.
  fold map in E2. rewrite E2. rewrite blen_cons. unfold pre1, group_bytes. fold map.
  now rewrite <- !app_assoc.
Qed.

(** The stream a compressor writes: full groups and a last one. *)
Definition stream_ok (gs : list (list item)) (g : list item) : Prop :=
  Forall (fun h => blen h = 8) gs /\ 1 <= blen g <= 8.

Lemma mask_8 (g : list item) : blen g = 8 -> wrap 8 (Z.shiftl (2 ^ (blen g - 1)) 1) = COPY_MASK_NEXT.
Proof. now intros ->. Qed.

Lemma dec_loop_stream gs g pre fuel out rest m map0 :
  wrap 8 (Z.shiftl m 1) = COPY_MASK_NEXT -> stream_ok gs g -> items_ok out (concat gs ++ g) ->
  blen (expand out (concat gs ++ g)) = blen out + blen rest -> blen rest <= Z.of_nat fuel ->
  dec_loop (pre ++ ser (gs ++ [g])) fuel (dst_at (blen pre) out rest m map0) =
  Ok (expand out (concat gs ++ g)).
Proof.
  revert pre fuel out rest m map0.
  induction gs as [|h gs IH]; intros pre fuel out rest m map0 Hm [Hgs Hg] Hok Hfit Hf.
  - cbn [concat app] in *. destruct g as [|t its]; [rewrite blen_nil in Hg; lia|].
    rewrite blen_cons in Hg.
    destruct (dec_loop_group t its pre [] fuel out rest m map0) as (rest' & fuel' & Hs & Hf' & E);
      auto; try lia.
    unfold ser. cbn [map concat]. rewrite E. unfold shrinks in Hs.
    assert (Hr : rest' = []) by (apply blen_0; lia). subst rest'.
    destruct fuel'; cbn [dec_loop dst_at ds_dst ds_dst_idx]; rewrite app_nil_r, Z.ltb_irrefl; done.
  - inversion Hgs as [|? ? Hh Hgs']; subst. cbn [concat] in *. rewrite <- app_assoc in *.
    apply items_ok_app in Hok as [Hok1 Hok2]. rewrite expand_app in *.
    pose proof (blen_expand _ _ Hok2).
    destruct h as [|t its]; [rewrite blen_nil in Hh; lia|]. pose proof Hh as Hh'. rewrite blen_cons in Hh'.
    change (ser (((t :: its) :: gs) ++ [g])) with (group_bytes (t :: its) ++ ser (gs ++ [g])).
    destruct (dec_loop_group t its pre (ser (gs ++ [g])) fuel out rest m map0)
      as (rest' & fuel' & Hs & Hf' & E); auto; try lia.
    rewrite E, app_assoc. unfold shrinks in Hs.
    apply IH; auto; [now apply mask_8 | split; auto | lia].
Qed.

Lemma decompress_stream gs g dst :
  stream_ok gs g -> items_ok [] (concat gs ++ g) -> blen dst = blen (expand [] (concat gs ++ g)) ->
  decompress (ser (gs ++ [g])) dst = Ok (expand [] (concat gs ++ g)).
Proof.
  intros Hst Hok Hd. unfold decompress.
  apply (dec_loop_stream gs g [] (length dst) [] dst COPY_MASK_NEXT 0); auto.
  unfold blen; lia.
Qed.

(** ** The compressor writes such a stream *)
Lemma ztake_snoc (l : bytes) i v : zget l i = Some v -> ztake i l ++ [v] = ztake (i + 1) l.
Proof.
  intros [Hi Hv]%zget_lookup. rewrite !ztake_take by lia.
  replace (Z.to_nat (i + 1)) with (S (Z.to_nat i)) by lia. symmetry. now apply take_S_r.
Qed.

Lemma nth_ztake (l : bytes) i j : 0 <= j < i -> i <= blen l -> nth (Z.to_nat j) (ztake i l) 0 = nth (Z.to_nat j) l 0.
Proof.
  intros Hj Hi. rewrite ztake_take by lia. rewrite <- (take_drop (Z.to_nat i) l) at 2.
  rewrite app_nth1; [done|]. rewrite length_take. unfold blen in Hi. lia.
Qed.

(** A copy of earlier output equals the source it stands for. *)
Lemma expand_copy_ztake (src : bytes) n i off :
  1 <= off <= i -> i + Z.of_nat n <= blen src ->
  (forall k, 0 <= k < Z.of_nat n -> zget src (i + k) = zget src (i - off + k)) ->
  expand_copy n off (ztake i src) = ztake (i + Z.of_nat n) src.
Proof.
  revert i. induction n as [|n IH]; intros i Ho Hn Heq; cbn [expand_copy]; [now rewrite Z.add_0_r|].
  assert (Hv : zget src i = Some (nth (Z.to_nat (i - off)) src 0)).
  { specialize (Heq 0). rewrite !Z.add_0_r in Heq. rewrite Heq by lia. apply zget_nth. lia. }
  rewrite blen_ztake, Z.min_l, nth_ztake by lia. rewrite (ztake_snoc _ _ _ Hv).
  rewrite IH; [f_equal; lia | lia | lia |]. intros k Hk.
  specialize (Heq (k + 1)). replace (i + 1 + k) with (i + (k + 1)) by lia. rewrite Heq by lia.
  f_equal; lia.
Qed.

Lemma match_length_spec src fuel i c len :
  0 <= c <= i -> i + LENGTH_MAX <= blen src -> 0 <= len -> Z.of_nat fuel = LENGTH_MAX - len ->
  (forall k, 0 <= k < len -> zget src (i + k) = zget src (c + k)) ->
  exists len', match_length src fuel i c len = Ok len' /\ len <= len' <= LENGTH_MAX /\
    (forall k, 0 <= k < len' -> zget src (i + k) = zget src (c + k)).
Proof.
  intros Hc Hi. revert len. induction fuel as [|fuel IH]; intros len Hlen Hf Heq; cbn [match_length].
  { exists len. split; [done|]. split; [lia|done]. }
  destruct (Z.ltb_spec len LENGTH_MAX); [|lia].
  destruct (zget_in src (i + len)) as [x Hx]; [lia|].
  destruct (zget_in src (c + len)) as [y Hy]; [lia|].
  rewrite Hx, Hy. cbn [unwrap mbind outcome_bind]. destruct (Z.eqb_spec x y) as [->|].
  - destruct (IH (len + 1)) as (len' & E & Hr & Hq); [lia|lia| |].
    + intros k Hk. destruct (Z.eq_dec k len) as [->|]; [congruence|apply Heq; lia].
    + exists len'. split; [done|]. split; [lia|done].
  - exists len. split; [done|]. split; [lia|done].
Qed.

Section compressor.
Context (hash : Z -> Z -> Z -> Z) (src : bytes).
Hypothesis hash_range : forall a b c, is_byte a -> is_byte b -> is_byte c -> 0 <= hash a b c < TABLE_LENGTH.
Hypothesis src_ok : bytes_ok src.

(** The state of the compressor with the groups [gs] complete and the items
    [g] of the next one written. *)
Record enc_inv (L : Z) (gs : list (list item)) (g : list item) (s : enc_state) : Prop := {
  ei_full : Forall (fun h => blen h = 8) gs;
  ei_items : items_ok [] (concat gs ++ g);
  ei_src : 0 <= es_src_idx s <= blen src;
  ei_out : expand [] (concat gs ++ g) = ztake (es_src_idx s) src;
  ei_map : es_map_idx s = blen (ser gs);
  ei_idx : es_dst_idx s = blen (ser gs) + 1 + blen (items_bytes g);
  ei_dst : exists rest, es_dst s = ser gs ++ map_bits g :: items_bytes g ++ rest;
  ei_len : blen (es_dst s) = L;
  ei_room : es_map_idx s + 17 <= L;
  ei_table : blen (es_table s) = TABLE_LENGTH /\
             Forall (fun e => 0 <= e <= es_src_idx s) (es_table s)
}.

(** Before an item, with room for it in the group. *)
Definition before_item L s : Prop :=
  exists gs g, enc_inv L gs g s /\ blen g < 8 /\ es_mask s = 2 ^ blen g.
(** After an item. *)
Definition after_item L s : Prop :=
  exists gs g, enc_inv L gs g s /\ 1 <= blen g <= 8 /\ es_mask s = 2 ^ (blen g - 1).

Lemma room_for L gs g s :
  enc_inv L gs g s -> blen g < 8 -> exists y z rest,
    let p := ser gs ++ map_bits g :: items_bytes g in
    es_dst s = p ++ y :: z :: rest /\ es_dst_idx s = blen p.
Proof using.
  intros [H1 H2 H3 H4 H5 H6 [rest H7] H8 H9 H10] Hg. pose proof (blen_items_bytes g) as Hb.
  rewrite H7, blen_app, blen_cons, blen_app in H8. rewrite H5 in H9. pose proof (blen_nonneg g).
  destruct rest as [|y [|z rest]]; rewrite ?blen_cons, ?blen_nil in H8; [lia|lia|].
  exists y, z, rest. split; [now rewrite H7, <- app_assoc|].
  rewrite H6, blen_app, blen_cons. lia.
Qed.

Lemma table_mono i j (l : list Z) :
  i <= j -> Forall (fun e => 0 <= e <= i) l -> Forall (fun e => 0 <= e <= j) l.
Proof using. intros Hij Hl. eapply Forall_impl; [exact Hl|]. cbn; intros; lia. Qed.

Lemma enc_literal_inv L gs g s :
  enc_inv L gs g s -> blen g < 8 -> es_src_idx s < blen src ->
  exists s' v, enc_literal src s = Ok s' /\ enc_inv L gs (g ++ [Lit v]) s' /\
    es_mask s' = es_mask s /\ es_src_idx s < es_src_idx s'.
Proof using src_ok.
  intros Hinv Hg Hlt. destruct (room_for _ _ _ _ Hinv Hg) as (y & z & rest & Hd & Hi).
  destruct Hinv as [H1 H2 H3 H4 H5 H6 H7 H8 H9 [H10 H11]].
  destruct (zget_in src (es_src_idx s)) as [v Hv]; [lia|].
  unfold enc_literal. rewrite Hv, Hd, Hi. cbn [unwrap mbind outcome_bind]. rewrite zset_middle.
  cbn [unwrap mbind outcome_bind]. eexists _, v. split; [reflexivity|].
  split; [|cbn; split; [done|lia]].
  constructor; cbn [es_src_idx es_dst es_dst_idx es_mask es_map_idx es_table]; auto; try lia.
  - rewrite app_assoc. apply items_ok_app. split; [done|]. cbn. split; [|done].
    eapply zget_byte; eauto.
  - rewrite app_assoc, expand_app, H4. now apply ztake_snoc.
  - rewrite items_bytes_app, <- Hi, H6, blen_app. change (blen (items_bytes [Lit v])) with 1. lia.
  - exists (z :: rest). rewrite map_bits_app, items_bytes_app.
    change (map_bits [Lit v]) with 0. rewrite Z.mul_0_r, Z.add_0_r.
    now rewrite <- !app_assoc.
  - rewrite <- H8, Hd. rewrite !blen_app, !blen_cons. lia.
  - split; [done|]. apply (table_mono (es_src_idx s)); [lia|done].
Qed.

(** The bit of a copy is set in the map. *)
Lemma map_bits_copy g off len :
  Z.lor (map_bits g) (2 ^ blen g) = map_bits (g ++ [Copy off len]).
Proof using.
  pose proof (blen_nonneg g). rewrite map_bits_app. change (map_bits [Copy off len]) with 1.
  rewrite <- (Z.mul_1_l (2 ^ blen g)) at 1. rewrite <- Z.shiftl_mul_pow2 by lia.
  rewrite lor_shiftl_add by (auto; apply map_bits_range). lia.
Qed.
Lemma enc_copy_inv L gs g s off :
  enc_inv L gs g s -> blen g < 8 -> es_mask s = 2 ^ blen g ->
  es_src_idx s + LENGTH_MAX <= blen src -> 1 <= off < 1024 -> off <= es_src_idx s ->
  (forall k, 0 <= k < LENGTH_MIN -> zget src (es_src_idx s + k) = zget src (es_src_idx s - off + k)) ->
  exists s' len, enc_copy src s (es_src_idx s - off) off = Ok s' /\
    enc_inv L gs (g ++ [Copy off len]) s' /\
    es_mask s' = es_mask s /\ es_src_idx s < es_src_idx s'.
Proof using.
  intros Hinv Hg Hmask Hmax Ho Hos Heq. pose proof (blen_nonneg g).
  destruct (room_for _ _ _ _ Hinv Hg) as (y & z & rest & Hd & Hi). cbn zeta in Hd, Hi.
  destruct Hinv as [H1 H2 H3 H4 H5 H6 H7 H8 H9 [H10 H11]].
  destruct (match_length_spec src (Z.to_nat (LENGTH_MAX - LENGTH_MIN)) (es_src_idx s)
    (es_src_idx s - off) LENGTH_MIN) as (len & El & Hlen & Hq); [lia|lia|now vm_compute|now vm_compute|done|].
  change LENGTH_MIN with 3 in Hlen. change LENGTH_MAX with 66 in Hlen, Hmax.
  destruct (copy_word_fields off len) as (Hw & _); [lia|lia|].
  unfold enc_copy. rewrite H5, Hd, <- app_assoc. cbn [app]. rewrite zget_middle.
  cbn [unwrap mbind outcome_bind]. rewrite zset_middle. cbn [unwrap mbind outcome_bind].
  rewrite El. cbn [mbind outcome_bind].
  replace (Z.lor (Z.shiftl (len - LENGTH_MIN) LENGTH_SHIFT) off) with (off + (len - 3) * 2 ^ 10)
    by (rewrite Z.lor_comm; symmetry; apply lor_shiftl_add; lia).
  rewrite (wrap_id 16) by exact Hw. set (w := off + (len - 3) * 2 ^ 10) in *.
  rewrite Hmask, (map_bits_copy g off len), <- Hmask. set (g' := g ++ [Copy off len]) in *.
  set (p := ser gs ++ map_bits g' :: items_bytes g).
  assert (Hp : blen p = es_dst_idx s) by (rewrite Hi; unfold p; now rewrite !blen_app, !blen_cons).
  replace (ser gs ++ map_bits g' :: items_bytes g ++ y :: z :: rest) with (p ++ y :: z :: rest)
    by (unfold p; now rewrite <- app_assoc).
  rewrite <- Hp, zset_middle. cbn [unwrap mbind outcome_bind].
  replace (p ++ nth 0 (int_to Big 2 w) 0 :: z :: rest)
    with ((p ++ [nth 0 (int_to Big 2 w) 0]) ++ z :: rest) by (now rewrite <- app_assoc).
  replace (blen p + 1) with (blen (p ++ [nth 0 (int_to Big 2 w) 0])) by (now rewrite blen_app).
  rewrite zset_middle. cbn [unwrap mbind outcome_bind].
  assert (Hib : items_bytes g' = items_bytes g ++ [nth 0 (int_to Big 2 w) 0; nth 1 (int_to Big 2 w) 0]).
  { unfold g'. rewrite items_bytes_app. done. }
  eexists _, len. fold g'. split; [reflexivity|]. split; [|cbn; split; [done|lia]].
  constructor; cbn [es_src_idx es_dst es_dst_idx es_mask es_map_idx es_table]; auto; try lia.
  - unfold g'. rewrite app_assoc. apply items_ok_app. split; [done|]. cbn [items_ok item_ok]. rewrite H4.
    rewrite blen_ztake by lia. split; [lia|done].
  - unfold g'. rewrite app_assoc, expand_app, H4. cbn [expand fold_left expand_item].
    rewrite expand_copy_ztake; [f_equal; lia|lia|lia|]. intros k Hk. apply Hq. lia.
  - rewrite Hib, Hp, H6, blen_app. change (blen [_; _]) with 2. lia.
  - exists rest. rewrite Hib. unfold p. now rewrite <- !app_assoc.
  - rewrite <- H8, Hd. unfold p. rewrite !blen_app, !blen_cons, ?blen_nil. lia.
  - split; [done|]. apply (table_mono (es_src_idx s)); [lia|done].
Qed.

(** Storing the index in the hash table keeps the invariant. *)
Lemma enc_inv_table L gs g s table :
  enc_inv L gs g s -> blen table = TABLE_LENGTH ->
  Forall (fun e => 0 <= e <= es_src_idx s) table ->
  enc_inv L gs g {| es_src_idx := es_src_idx s; es_dst := es_dst s; es_dst_idx := es_dst_idx s;
                    es_mask := es_mask s; es_map_idx := es_map_idx s; es_table := table |}.
Proof using. intros [H1 H2 H3 H4 H5 H6 H7 H8 H9 H10] ? ?. now constructor. Qed.

Definition stepped L (s : enc_state) (r : outcome CompressionError enc_state) : Prop :=
  exists s', r = Ok s' /\ after_item L s' /\ es_src_idx s < es_src_idx s'.

Lemma stepped_intro L s gs g t s' r :
  r = Ok s' -> enc_inv L gs (g ++ [t]) s' -> blen g < 8 -> es_mask s = 2 ^ blen g ->
  es_mask s' = es_mask s -> es_src_idx s < es_src_idx s' -> stepped L s r.
Proof using.
  intros Hr Hi Hg Hm Hm' Hlt. exists s'. split; [done|]. split; [|done].
  exists gs, (g ++ [t]). rewrite blen_app, blen_cons, blen_nil. pose proof (blen_nonneg g).
  split; [done|]. split; [lia|]. rewrite Hm', Hm. f_equal; lia.
Qed.

(** The distance taken from a table entry. *)
Lemma entry_offset i e : 0 <= e <= i -> let off := Z.land (i - e) OFFSET_MASK in 0 <= off < 1024 /\ off <= i.
Proof using.
  intros He. cbv zeta. unfold OFFSET_MASK, OFFSET_BITS. rewrite land_ones_mod by lia.
  pose proof (Z.mod_le (i - e) (2 ^ 10)). pose proof (Z.mod_pos_bound (i - e) (2 ^ 10)). lia.
Qed.
(** Three bytes read one by one. *)
Lemma three_bytes i : 0 <= i -> i + 3 <= blen src ->
  exists a b c, zget src i = Some a /\ zget src (i + 1) = Some b /\ zget src (i + 2) = Some c.
Proof using.
  intros H0 H3. destruct (zget_in src i) as [a ?]; [lia|]. destruct (zget_in src (i + 1)) as [b ?]; [lia|].
  destruct (zget_in src (i + 2)) as [c ?]; [lia|]. eauto 6.
Qed.
Lemma enc_item_inv L s :
  before_item L s -> es_src_idx s < blen src -> stepped L s (enc_item hash src s).
Proof using hash_range src_ok.
  intros (gs & g & Hinv & Hg & Hmask) Hlt.
  assert (Hlit : forall s1, enc_inv L gs g s1 -> es_mask s1 = es_mask s ->
    es_src_idx s1 = es_src_idx s -> stepped L s (enc_literal src s1)).
  { intros s1 H1 Hm1 Hi1. destruct (enc_literal_inv L gs g s1) as (s' & v & E & Hi & Hm & Hl);
      [done|done|lia|]. eapply stepped_intro; eauto; [congruence|lia]. }
  unfold enc_item. destruct (Z.ltb_spec (blen src - es_src_idx s) LENGTH_MAX) as [|Hmax]; [auto|].
  change LENGTH_MAX with 66 in Hmax.
  destruct (ei_src _ _ _ _ Hinv) as [Hi0 _]. destruct (ei_table _ _ _ _ Hinv) as [Htl Ht].
  destruct (three_bytes (es_src_idx s)) as (a & b & c & Ha & Hb & Hc); [lia..|].
  rewrite Ha, Hb, Hc. cbn [unwrap mbind outcome_bind].
  assert (Hh : 0 <= hash a b c < TABLE_LENGTH) by (apply hash_range; eapply zget_byte; eauto).
  destruct (zget_in (es_table s) (hash a b c)) as [e He]; [lia|]. rewrite He.
  assert (Hent : 0 <= e <= es_src_idx s) by (rewrite Forall_forall in Ht; apply Ht; eapply zget_elem; eauto).
  cbn [unwrap mbind outcome_bind]. rewrite (checked_sub_ok (es_src_idx s) e) by lia.
  cbn [unwrap mbind outcome_bind]. rewrite zset_ok by lia. cbn [unwrap mbind outcome_bind].
  set (off := Z.land (es_src_idx s - e) OFFSET_MASK).
  assert (Hoff : 0 <= off < 1024 /\ off <= es_src_idx s) by now apply entry_offset.
  clearbody off. rewrite checked_sub_ok by lia.
  cbn [unwrap mbind outcome_bind].
  set (table := <[_ := _]> (es_table s)). set (s1 := {| es_table := table |}).
  assert (Hinv1 : enc_inv L gs g s1).
  { apply enc_inv_table; [done| |].
    - unfold table. now rewrite blen_insert.
    - apply Forall_insert; [done|]. unfold wrap.
      pose proof (Z.mod_le (es_src_idx s) (2 ^ 16)). pose proof (Z.mod_pos_bound (es_src_idx s) (2 ^ 16)). lia. }
  destruct (Z.eqb_spec (es_src_idx s - off) (es_src_idx s)); [auto|].
  destruct (three_bytes (es_src_idx s - off)) as (a' & b' & c' & Ha' & Hb' & Hc'); [lia..|].
  rewrite Ha', Hb', Hc'. cbn [unwrap mbind outcome_bind].
  destruct ((a =? a') && (b =? b') && (c =? c')) eqn:Eabc; [|auto].
  apply andb_true_iff in Eabc as [[->%Z.eqb_eq ->%Z.eqb_eq]%andb_true_iff ->%Z.eqb_eq].
  destruct (enc_copy_inv L gs g s1 off) as (s' & len & E & Hi & Hm & Hl); auto; cbn [s1 es_src_idx]; try lia.
  { change LENGTH_MAX with 66. lia. }
  { change LENGTH_MIN with 3. intros k Hk. assert (k = 0 \/ k = 1 \/ k = 2) as [->|[->| ->]] by lia;
      rewrite ?Z.add_0_r; congruence. }
  eapply stepped_intro; eauto.
Qed.

Lemma enc_mask_inv L s :
  after_item L s -> enc_mask s = Err NotCompressable \/
    exists s', enc_mask s = Ok s' /\ before_item L s' /\ es_src_idx s' = es_src_idx s.
Proof using.
  intros (gs & g & Hinv & Hg & Hm). unfold enc_mask. rewrite Hm.
  destruct (Z.eq_dec (blen g) 8) as [E8|].
  2: { rewrite mask_next by lia. replace (blen g - 1 + 1) with (blen g) by lia.
       destruct (Z.eqb_spec (2 ^ blen g) COPY_MASK_NEXT) as [E|_]; [unfold COPY_MASK_NEXT in E; lia|].
       right. eexists. split; [reflexivity|]. split; [|done]. exists gs, g. split; [|split; [lia|done]].
       destruct Hinv. now constructor. }
  rewrite mask_8 by done. cbn [Z.eqb COPY_MASK_NEXT].
  destruct Hinv as [H1 H2 H3 H4 H5 H6 [rest H7] H8 H9 H10].
  change (1 + 8 * 2) with 17. destruct (Z.ltb_spec (blen (es_dst s) - es_dst_idx s) 17) as [|Hroom]; [now left|].
  right. cbn [guard_err mbind outcome_bind].
  assert (Hser : ser (gs ++ [g]) = ser gs ++ map_bits g :: items_bytes g).
  { unfold ser. rewrite map_app, concat_app. cbn. now rewrite app_nil_r. }
  assert (Hi : es_dst_idx s = blen (ser (gs ++ [g]))) by (rewrite Hser, blen_app, blen_cons; lia).
  assert (Hd : es_dst s = ser (gs ++ [g]) ++ rest) by (rewrite Hser, H7, <- app_assoc; done).
  destruct rest as [|y rest]; [rewrite Hd, blen_app, blen_nil in Hroom; lia|].
  rewrite Hi, Hd, zset_middle. cbn [unwrap mbind outcome_bind].
  eexists. split; [reflexivity|]. split; [|done]. exists (gs ++ [g]), [].
  split; [|split; [now rewrite blen_nil|done]].
  assert (Hc : concat (gs ++ [g]) ++ [] = concat gs ++ g).
  { rewrite concat_app. cbn. now rewrite !app_nil_r. }
  constructor; cbn [es_src_idx es_dst es_dst_idx es_mask es_map_idx es_table]; rewrite ?Hc; auto.
  - apply Forall_app. auto.
  - change (blen (items_bytes [])) with 0. lia.
  - exists rest. done.
  - rewrite <- H8, Hd. rewrite !blen_app, !blen_cons. lia.
  - lia.
Qed.

(** The loop ends with the whole source written. *)
Lemma enc_loop_inv L fuel s :
  after_item L s -> blen src - es_src_idx s <= Z.of_nat fuel ->
  enc_loop hash src fuel s = Err NotCompressable \/
  exists s', enc_loop hash src fuel s = Ok s' /\ after_item L s' /\ es_src_idx s' = blen src.
Proof using hash_range src_ok.
  revert s. induction fuel as [|fuel IH]; intros s Hs Hf; cbn [enc_loop];
    assert (Hle : es_src_idx s <= blen src) by (destruct Hs as (gs & g & [] & _); lia).
  { destruct (Z.ltb_spec (es_src_idx s) (blen src)); [lia|]. right. exists s. split; [done|].
    split; [done|lia]. }
  destruct (Z.ltb_spec (es_src_idx s) (blen src)).
  2: { right. exists s. split; [done|]. split; [done|lia]. }
  destruct (enc_mask_inv L s Hs) as [-> |(s1 & -> & Hs1 & Hi1)]; [now left|].
  cbn [mbind outcome_bind].
  destruct (enc_item_inv L s1 Hs1) as (s2 & -> & Hs2 & Hlt); [lia|]. cbn [mbind outcome_bind].
  apply IH; [done|lia].
Qed.

(** Compressing either gives up or writes a stream of the source. *)
Lemma compress_with_stream dst :
  0 < blen src ->
  compress_with hash src dst = Err NotCompressable \/
  exists gs g rest, compress_with hash src dst =
      Ok (blen (ser (gs ++ [g])), ser (gs ++ [g]) ++ rest) /\
    blen (ser (gs ++ [g])) + blen rest = blen dst /\
    stream_ok gs g /\ items_ok [] (concat gs ++ g) /\ expand [] (concat gs ++ g) = src.
Proof using hash_range src_ok.
  intros Hsrc. unfold compress_with. set (s0 := {| es_src_idx := 0 |}).
  destruct (length src) as [|fuel] eqn:El; [unfold blen in Hsrc; lia|].
  assert (Hf : blen src = Z.of_nat fuel + 1) by (unfold blen; lia).
  cbn [enc_loop]. cbn [s0 es_src_idx]. destruct (Z.ltb_spec 0 (blen src)); [|lia]. fold s0.
  assert (Hfirst : enc_mask s0 = Err NotCompressable \/
    exists s1, enc_mask s0 = Ok s1 /\ before_item (blen dst) s1 /\ es_src_idx s1 = 0).
  { unfold enc_mask. cbn [s0 es_mask es_dst es_dst_idx]. change (1 + 8 * 2) with 17.
    cbn [wrap Z.shiftl COPY_MASK_NEXT]. change (wrap 8 (Z.shiftl COPY_MASK_NEXT 1) =? COPY_MASK_NEXT) with true.
    cbv iota. destruct (Z.ltb_spec (blen dst - 0) 17); [now left|]. right.
    cbn [guard_err mbind outcome_bind]. destruct dst as [|y rest]; [pose proof (@blen_nil Z); lia|].
    rewrite (zset_middle [] y rest 0 : zset (y :: rest) 0 0 = _). cbn [unwrap mbind outcome_bind].
    eexists. split; [reflexivity|]. split; [|done]. exists [], [].
    split; [|split; [now rewrite blen_nil|done]].
    constructor; cbn [es_src_idx es_dst es_dst_idx es_mask es_map_idx es_table]; auto; try done.
    - cbn [s0 es_src_idx]. lia.
    - cbn [s0 es_src_idx]. now rewrite ztake_take.
    - exists rest. done.
    - split; [done|]. apply Forall_replicate. cbn [s0 es_src_idx]. lia. }
  destruct Hfirst as [-> |(s1 & -> & Hs1 & Hi1)]; [now left|]. cbn [mbind outcome_bind].
  destruct (enc_item_inv _ s1 Hs1) as (s2 & -> & Hs2 & Hlt); [lia|]. cbn [mbind outcome_bind].
  destruct (enc_loop_inv _ fuel s2 Hs2) as [-> |(s3 & -> & Hs3 & Hi3)]; [lia|now left|].
  right. cbn [mbind outcome_bind]. destruct Hs3 as (gs & g & Hinv & Hg & _).
  destruct Hinv as [H1 H2 H3 H4 H5 H6 [rest H7] H8 H9 H10].
  assert (Hser : ser (gs ++ [g]) = ser gs ++ map_bits g :: items_bytes g).
  { unfold ser. rewrite map_app, concat_app. cbn. now rewrite app_nil_r. }
  exists gs, g, rest. rewrite Hser. splits; auto.
  - rewrite H6, H7. rewrite blen_app, blen_cons, <- app_assoc. do 2 f_equal. lia.
  - rewrite <- H8, H7. rewrite !blen_app, !blen_cons, blen_app. lia.
  - split; [done|lia].
  - rewrite H4, Hi3. apply ztake_ge. lia.
Qed.

Lemma compress_with_roundtrip dst out :
  blen out = blen src ->
  compress_with hash src dst = Err NotCompressable \/
  exists n d, compress_with hash src dst = Ok (n, d) /\ 0 <= n <= blen dst /\ blen d = blen dst /\
    decompress (ztake n d) out = Ok src.
Proof using hash_range src_ok.
  intros Ho. destruct (Z.eq_dec (blen src) 0) as [E|].
  - right. pose proof (blen_0 _ E) as ->. pose proof (blen_0 out) as Hout. rewrite Hout by done.
    exists 0, dst. split; [done|]. pose proof (blen_nonneg dst). split; [lia|]. done.
  - destruct (compress_with_stream dst) as [-> |(gs & g & rest & -> & Hl & Hst & Hok & He)];
      [pose proof (blen_nonneg src); lia|now left|].
    right. eexists _, _. split; [reflexivity|]. pose proof (blen_nonneg (ser (gs ++ [g]))).
    pose proof (blen_nonneg rest). split; [lia|]. split; [rewrite blen_app; lia|].
    rewrite ztake_app_length, <- He. apply decompress_stream; [done|done|congruence].
Qed.
End compressor.

Lemma hash_v21_range a b c : is_byte a -> is_byte b -> is_byte c -> 0 <= hash_v21 a b c < TABLE_LENGTH.
Proof. intros. apply Z.mod_pos_bound. done. Qed.

Lemma hash_pre_v21_range a b c :
  is_byte a -> is_byte b -> is_byte c -> 0 <= hash_pre_v21 a b c < TABLE_LENGTH.
Proof.
  intros Ha Hb Hc. unfold hash_pre_v21.
  assert (H : forall x y, fits 8 x -> fits 8 y -> fits 8 (Z.lxor x y)).
  { intros x y [] []. assert (0 <= Z.lxor x y) by (apply Z.lxor_nonneg; lia). split; [done|].
    destruct (Z.eq_dec (Z.lxor x y) 0) as [->|]; [done|]. apply Z.log2_lt_cancel.
    pose proof (Z.log2_lxor x y). assert (forall z, fits 8 z -> Z.log2 z < 8) as Hlog.
    { intros z []. destruct (Z.eq_dec z 0) as [->|]; [done|]. apply Z.log2_lt_pow2; lia. }
    pose proof (Hlog x). pose proof (Hlog y). unfold fits in *. change (Z.log2 (2 ^ 8)) with 8. lia. }
  pose proof (H _ _ (H _ _ (wrap_fits 8 (a + 13) ltac:(lia)) (wrap_fits 8 (b - 13) ltac:(lia))) Hc) as [].
  unfold TABLE_LENGTH. lia.
Qed.

(** C14: LZJB round trip, for the current and for the pre-v21 hash: compressing any
    byte string either reports that it does not fit, or writes at most the
    space given, and decompressing the written prefix gives the string back.
    Neither side panics. *)
Theorem lzjb_roundtrip (dst src out : bytes) :
  bytes_ok src -> blen out = blen src ->
  (forall comp, comp = compress \/ comp = compress_pre_v21 ->
    comp dst src = Err NotCompressable \/
    exists n d, comp dst src = Ok (n, d) /\ 0 <= n <= blen dst /\ blen d = blen dst /\
      decompress (ztake n d) out = Ok src).
Proof.
  intros Hs Ho comp [-> | ->].
  - apply compress_with_roundtrip; auto using hash_v21_range.
  - apply compress_with_roundtrip; auto using hash_pre_v21_range.
Qed.

Definition lzjb_sample : bytes := concat (repeat [1; 2; 3; 4; 5; 6; 7] 30).

Example lzjb_sample_compresses :
  match compress (zrep 210 0) lzjb_sample with Ok (n, _) => n <? 60 | _ => false end = true.
Proof. vm_compute. reflexivity. Qed.

Lemma lzjb_roundtrip_witness :
  compress (zrep 210 0) lzjb_sample = Err NotCompressable \/
  exists n d, compress (zrep 210 0) lzjb_sample = Ok (n, d) /\ 0 <= n <= blen (zrep 210 0) /\
    blen d = blen (zrep 210 0) /\ decompress (ztake n d) (zrep 210 0) = Ok lzjb_sample.
Proof.
  apply (lzjb_roundtrip (zrep 210 0) lzjb_sample (zrep 210 0)); [|reflexivity|now left].
  apply Forall_forall. intros x Hx. apply list_elem_of_In in Hx. vm_compute in Hx.
  unfold is_byte. repeat (destruct Hx as [<-|Hx]; [lia|]). destruct Hx.
Defined.

(** C31: Decompression is total: on any input it ends without a panic, and a result
    has the length of the destination. *)
Theorem lzjb_decompress_total (src dst : bytes) :
  bytes_ok src -> bytes_ok dst ->
  safe (fun d => blen d = blen dst /\ bytes_ok d) (decompress src dst).
Proof. intros. now apply decompress_safe. Qed.

Lemma lzjb_decompress_total_witness :
  safe (fun d => blen d = blen [0; 0; 0] /\ bytes_ok d) (decompress [1; 0; 5] [0; 0; 0]).
Proof.
  apply lzjb_decompress_total; repeat constructor; unfold is_byte; lia.
Defined.
