(* ===== verification/Cksum.v ===== *)
(** * Checking a block against its pointer's checksum (src/cksum.rs)

    [Build] holds what the crate is compiled with: its Cargo features and the
    functions of the crates it calls (SHA-512/256, keyed BLAKE3, LZ4, zlib and
    zstd), which are not part of the repository and stay parameters;
    [BuildLaws] states what their documentation promises.  [verify_block]
    accepts a block exactly when the digest of the algorithm the pointer names
    equals the stored words. *)

From S2P Require Import Prelude Errors Decoder Types Dva Fletcher Sha256.

Class Build := {
  (** [cfg(target_arch)] for the SHA-256 sums, and the Cargo features. *)
  x86 : bool;
  feature_sha512 : bool;
  feature_blake3 : bool;
  feature_lz4 : bool;
  feature_gzip : bool;
  feature_zstd : bool;
  (** sha2's [Sha512_256::digest] and blake3's [keyed_hash(salt, data)]. *)
  sha512_256 : bytes -> bytes;
  keyed_blake3 : bytes -> bytes -> bytes;
  (** lz4_flex's [decompress_into(block, dst)]: the count and the buffer. *)
  lz4_into : bytes -> bytes -> option (Z * bytes);
  (** miniz_oxide's [decompress_slice_iter_to_slice(dst, once(src), ..)]. *)
  inflate_into : bytes -> bytes -> option (Z * bytes);
  (** ruzstd's streaming decoder: [new], [read_exact] and [read]. *)
  zstd_dec : Type;
  zstd_new : bytes -> option zstd_dec;
  zstd_read_exact : zstd_dec -> Z -> option (bytes * zstd_dec);
  zstd_read : zstd_dec -> Z -> option Z
}.

Class BuildLaws (B : Build) : Prop := {
  sha512_256_len : forall d, blen (sha512_256 d) = 32 /\ bytes_ok (sha512_256 d);
  keyed_blake3_len : forall k d, blen (keyed_blake3 k d) = 32 /\ bytes_ok (keyed_blake3 k d);
  lz4_into_len : forall s d n d', lz4_into s d = Some (n, d') -> blen d' = blen d /\ bytes_ok d';
  inflate_into_len : forall s d n d',
    inflate_into s d = Some (n, d') -> blen d' = blen d /\ bytes_ok d';
  zstd_read_exact_len : forall z n bs z', 0 <= n ->
    zstd_read_exact z n = Some (bs, z') -> blen bs = n /\ bytes_ok bs
}.

(** A build with every feature whose crates are stand-ins: digests of zeros and
    decoders that accept only an empty input. *)
Definition plain_build : Build := {|
  x86 := true; feature_sha512 := true; feature_blake3 := true;
  feature_lz4 := true; feature_gzip := true; feature_zstd := true;
  sha512_256 := fun _ => zrep 32 0;
  keyed_blake3 := fun _ _ => zrep 32 0;
  lz4_into := fun s d => if blen s =? 0 then Some (blen d, zrep (blen d) 0) else None;
  inflate_into := fun s d => if blen s =? 0 then Some (blen d, zrep (blen d) 0) else None;
  zstd_dec := unit;
  zstd_new := fun _ => Some tt;
  zstd_read_exact := fun _ n => Some (zrep n 0, tt);
  zstd_read := fun _ _ => Some 0
|}.

#[global] Instance plain_build_laws : BuildLaws plain_build.
Proof.
  constructor; cbn.
  - intros. split; [done | apply bytes_ok_zrep].
  - intros. split; [done | apply bytes_ok_zrep].
  - intros s d n d'. destruct (blen s =? 0); [|done]. intros [= <- <-].
    split; [apply blen_zrep, blen_nonneg | apply bytes_ok_zrep].
  - intros s d n d'. destruct (blen s =? 0); [|done]. intros [= <- <-].
    split; [apply blen_zrep, blen_nonneg | apply bytes_ok_zrep].
  - intros _ n bs z' Hn [= <- <-]. split; [now apply blen_zrep | apply bytes_ok_zrep].
Qed.

Open Scope string_scope.
Open Scope Z_scope.
Open Scope list_scope.

Definition checksum_name (kind : ChecksumType.t) : string :=
  match kind with
  | ChecksumType.Fletcher2 => "csum_fletcher2"
  | ChecksumType.Fletcher4 => "csum_fletcher4"
  | ChecksumType.Sha256 | ChecksumType.Label => "csum_sha256"
  | ChecksumType.Sha512_256 => "csum_sha512"
  | ChecksumType.Skein => "csum_skein"
  | ChecksumType.Edonr => "csum_edonr"
  | ChecksumType.Blake3 => "csum_blake3"
  | _ => "csum_unsupported"
  end.

(** Four words of a 32-byte digest; words that the digest is too short for stay
    zero. *)
Definition digest_words (digest : bytes) (o : EndianOrder) : list Z :=
  let ws := map (fun i => match get_range digest (8 * i) (8 * i + 8) with
                          | Some b => int_from o b | None => 0 end) [0; 1; 2; 3] in ws.

Definition words (c : ChecksumValue) : list Z := let '(a, b, c, d) := c in [a; b; c; d].

Section verify.
Context {B : Build}.

Definition sha512_256_words (data : bytes) (o : EndianOrder) : list Z :=
  digest_words (sha512_256 data) o.
Definition blake3_words (data salt : bytes) (o : EndianOrder) : list Z :=
  digest_words (keyed_blake3 salt data) o.

(** [verify_block].  The first component of the result of the inner match is
    [None] where the source returns [Ok(())] early. *)
Definition verify_block (kind : ChecksumType.t) (o : EndianOrder) (data : bytes)
    (expected : ChecksumValue) (salt : option bytes) (vdev offset : Z) : outcome Error unit :=
  let init {E} (_ : E) := ChecksumMismatch vdev offset "csum_init" in
  computed ← match kind with
    | ChecksumType.Off => Ok None
    | ChecksumType.Fletcher2 => Some <$> map_err init (Fletcher2.new_hash Generic o data)
    | ChecksumType.Fletcher4 => Some <$> map_err init (Fletcher4.new_hash Generic o data)
    | ChecksumType.Sha256 | ChecksumType.Label => Some <$> map_err init (sha_hash (update_blocks_generic x86) data)
    | ChecksumType.Sha512_256 =>
        if feature_sha512 then Ok (Some (sha512_256_words data o))
        else Err (UnsupportedFeature (checksum_name kind))
    | ChecksumType.Blake3 =>
        if feature_blake3 then
          match salt with
          | Some salt => Ok (Some (blake3_words data salt o))
          | None => Err (UnsupportedFeature "csum_blake3_no_salt")
          end
        else Err (UnsupportedFeature (checksum_name kind))
    | other => Err (UnsupportedFeature (checksum_name other))
    end;
  match computed with
  | None => Ok tt
  | Some c => if decide (c = words expected) then Ok tt
              else Err (ChecksumMismatch vdev offset (checksum_name kind))
  end.
End verify.

(** ** What verification promises

    The digest a pointer's algorithm assigns to a block, by the algorithms'
    definitions: [inl] names the feature that is missing. *)
Section spec.
Context {B : Build}.

Definition block_digest (kind : ChecksumType.t) (o : EndianOrder) (data : bytes)
    (salt : option bytes) : string + list Z :=
  match kind with
  | ChecksumType.Fletcher2 => inr (Fletcher2.one_pass o data)
  | ChecksumType.Fletcher4 => inr (Fletcher4.closed_form o data)
  | ChecksumType.Sha256 | ChecksumType.Label => inr (Fips.sha256 data)
  | ChecksumType.Sha512_256 =>
      if feature_sha512 then inr (digest_words (sha512_256 data) o) else inl "csum_sha512"
  | ChecksumType.Blake3 =>
      if feature_blake3 then
        match salt with
        | Some salt => inr (digest_words (keyed_blake3 salt data) o)
        | None => inl "csum_blake3_no_salt"
        end
      else inl "csum_blake3"
  | k => inl (checksum_name k)
  end.

(** A block that matches its pointer, or whose pointer stores no checksum. *)
Definition authentic (kind : ChecksumType.t) (o : EndianOrder) (data : bytes)
    (expected : ChecksumValue) (salt : option bytes) : Prop :=
  kind = ChecksumType.Off \/ block_digest kind o data salt = inr (words expected).

Lemma verify_block_eq kind o data expected salt vdev offset :
  8 * blen data < 2 ^ 64 ->
  verify_block kind o data expected salt vdev offset =
  if decide (kind = ChecksumType.Off) then Ok tt
  else match block_digest kind o data salt with
       | inl t => Err (UnsupportedFeature t)
       | inr d => if decide (d = words expected) then Ok tt
                  else Err (ChecksumMismatch vdev offset (checksum_name kind))
       end.
Proof using.
  intros Hl. unfold verify_block, block_digest.
  destruct kind; cbn [checksum_name]; try reflexivity;
    rewrite ?Fletcher2.f2_new_hash_ok, ?Fletcher4.new_hash_ok, ?sha_hash_ok, ?Fletcher4.one_pass_closed by done;
    try reflexivity.
  - destruct feature_sha512; reflexivity.
  - destruct feature_blake3; [destruct salt|]; reflexivity.
Qed.

Lemma verify_block_ok kind o data expected salt vdev offset :
  8 * blen data < 2 ^ 64 ->
  verify_block kind o data expected salt vdev offset = Ok tt <->
  authentic kind o data expected salt.
Proof using.
  intros Hl. rewrite verify_block_eq by done. unfold authentic.
  destruct (decide (kind = ChecksumType.Off)); [tauto|].
  destruct (block_digest kind o data salt) as [t|d].
  - split; [done | now intros [?|?]].
  - destruct (decide (d = words expected)) as [->|]; [tauto|].
    split; [done | intros [?|[=]]; done].
Qed.

Lemma verify_block_safe kind o data expected salt vdev offset :
  8 * blen data < 2 ^ 64 ->
  safe (fun _ => authentic kind o data expected salt)
    (verify_block kind o data expected salt vdev offset).
Proof using.
  intros Hl. pose proof (verify_block_ok kind o data expected salt vdev offset Hl) as H.
  rewrite verify_block_eq in * by done. destruct (decide _); [now apply H|].
  destruct (block_digest _ _ _ _); [done|]. destruct (decide _); [now apply H|done].
Qed.
End spec.

(** C17: The verdict on a block in every case: accepted without a stored checksum or
    when the digest by the algorithm's definition equals the stored words,
    refused by name when the algorithm is not available, and a mismatch that
    names the algorithm otherwise. *)
Theorem verify_block_verdict {B : Build} kind o data expected salt vdev offset :
  8 * blen data < 2 ^ 64 ->
  verify_block kind o data expected salt vdev offset =
  if decide (kind = ChecksumType.Off) then Ok tt
  else match block_digest kind o data salt with
       | inl t => Err (UnsupportedFeature t)
       | inr d => if decide (d = words expected) then Ok tt
                  else Err (ChecksumMismatch vdev offset (checksum_name kind))
       end.
Proof. apply verify_block_eq. Qed.

Lemma verify_block_verdict_witness :
  verify_block (B := plain_build) ChecksumType.Fletcher4 Little [1; 2; 3; 4] (0, 0, 0, 0) None 1 2 =
  if decide (ChecksumType.Fletcher4 = ChecksumType.Off) then Ok tt
  else match block_digest (B := plain_build) ChecksumType.Fletcher4 Little [1; 2; 3; 4] None with
       | inl t => Err (UnsupportedFeature t)
       | inr d => if decide (d = words (0, 0, 0, 0)) then Ok tt
                  else Err (ChecksumMismatch 1 2 (checksum_name ChecksumType.Fletcher4))
       end.
Proof.
  apply (verify_block_verdict (B := plain_build) ChecksumType.Fletcher4 Little [1; 2; 3; 4]
    (0, 0, 0, 0) None 1 2). vm_compute. reflexivity.
Defined.
