(* ===== verification/Compress.v ===== *)
(** * Block decompression (src/compress.rs)

    One block's physical bytes to exactly its logical size, by the algorithm
    its pointer names, below the cap on block sizes.  LZJB and ZLE are the
    repository's own; LZ4, zlib and zstd are adapters over the crates that
    [Build] abstracts.  Every path returns exactly the logical size or an
    error, without a panic. *)

From S2P Require Import Prelude Errors Decoder Encoder Types Lzjb Cksum.

Open Scope string_scope.
Open Scope Z_scope.
Open Scope list_scope.

Definition MAX_BLOCK_LSIZE : Z := 16 * 1024 * 1024.

Definition lzjb_decode (src : bytes) (lsize : Z) : outcome Error bytes :=
  map_err (fun _ => BadCompression 3 "lzjb_bad") (Lzjb.decompress src (zrep lsize 0)).

Definition zle_bad : Error := BadCompression 14 "zle_bad".

(** The loop of [zle_decode]; each turn advances [d], so [lsize] turns are
    enough. *)
Fixpoint zle_loop (fuel : nat) (src : bytes) (lsize s d : Z) (dst : bytes) : outcome Error bytes :=
  if d <? lsize then
    match fuel with
    | O => Panic
    | S fuel' =>
        c ← ok_or (zget src s) zle_bad;
        let s := s + 1 in
        if c <? 0x40 then
          let n := c + 1 in
          run ← ok_or (get_range src s (s + n)) zle_bad;
          dst ← ok_or (EncoderBuffer.copy_at dst d run) zle_bad;
          zle_loop fuel' src lsize (s + n) (d + n) dst
        else
          let n := c - 0x40 + 1 in
          guard_err (lsize <? d + n) zle_bad;;
          zle_loop fuel' src lsize s (d + n) dst
    end
  else Ok dst.

Definition zle_decode (src : bytes) (lsize : Z) : outcome Error bytes :=
  zle_loop (Z.to_nat lsize) src lsize 0 0 (zrep lsize 0).

Section decompress.
Context {B : Build}.

Definition lz4_decode (src : bytes) (lsize : Z) : outcome Error bytes :=
  if feature_lz4 then
    let bad token := BadCompression 15 token in
    len_bytes ← ok_or (get_range src 0 4) (bad "lz4_no_prefix");
    let clen := int_from Big len_bytes in
    block ← ok_or (get_range src 4 (4 + clen)) (bad "lz4_short");
    '(n, dst) ← ok_or (lz4_into block (zrep lsize 0)) (bad "lz4_decode");
    guard_err (negb (n =? lsize)) (bad "lz4_len");;
    Ok dst
  else Err (UnsupportedCompression 15).

Definition gzip_decode (src : bytes) (lsize : Z) : outcome Error bytes :=
  if feature_gzip then
    let bad token := BadCompression 5 token in
    '(n, dst) ← ok_or (inflate_into src (zrep lsize 0)) (bad "gzip_decode");
    guard_err (negb (n =? lsize)) (bad "gzip_len");;
    Ok dst
  else Err (UnsupportedCompression 5).

Definition ZSTD_MAGIC : bytes := [0x28; 0xb5; 0x2f; 0xfd].

Definition zstd_decode (src : bytes) (lsize : Z) : outcome Error bytes :=
  if feature_zstd then
    let bad token := BadCompression 16 token in
    hdr ← ok_or (get_range src 0 8) (bad "zstd_no_hdr");
    word ← unwrap (get_range hdr 0 4);
    let clen := int_from Big word in
    frame ← ok_or (get_range src 8 (8 + clen)) (bad "zstd_short");
    let framed := ZSTD_MAGIC ++ frame in
    dec ← ok_or (zstd_new framed) (bad "zstd_frame");
    '(dst, dec) ← ok_or (zstd_read_exact dec lsize) (bad "zstd_decode");
    guard_err (match zstd_read dec 1 with Some n => negb (n =? 0) | None => false end)
      (bad "zstd_len");;
    Ok dst
  else Err (UnsupportedCompression 16).

Definition decompress (comp : CompressionType.t) (src : bytes) (lsize : Z) : outcome Error bytes :=
  guard_err (MAX_BLOCK_LSIZE <? lsize) (FileTooLarge lsize MAX_BLOCK_LSIZE);;
  match comp with
  | CompressionType.Off => ok_or (get_range src 0 lsize) (BadCompression 2 "off_short")
  | CompressionType.Zle => zle_decode src lsize
  | CompressionType.Lzjb => lzjb_decode src lsize
  | CompressionType.Lz4 => lz4_decode src lsize
  | CompressionType.Gzip1 | CompressionType.Gzip2 | CompressionType.Gzip3
  | CompressionType.Gzip4 | CompressionType.Gzip5 | CompressionType.Gzip6
  | CompressionType.Gzip7 | CompressionType.Gzip8 | CompressionType.Gzip9 => gzip_decode src lsize
  | CompressionType.Zstd => zstd_decode src lsize
  | CompressionType.Inherit | CompressionType.On | CompressionType.Empty =>
      Err (UnsupportedCompression (CompressionType.into_u8 comp))
  end.
End decompress.

(** ** Sizes *)
Lemma copy_at_len l o bs l' : EncoderBuffer.copy_at l o bs = Some l' -> blen l' = blen l.
Proof.
  unfold EncoderBuffer.copy_at. destruct (get_range l o (o + blen bs)) as [r|] eqn:E; [|done].
  intros [= <-]. apply get_range_Some in E as (? & ? & _). pose proof (blen_nonneg bs).
  rewrite !blen_app, blen_ztake, blen_zdrop by lia. lia.
Qed.

Lemma copy_at_bytes l o bs l' :
  bytes_ok l -> bytes_ok bs -> EncoderBuffer.copy_at l o bs = Some l' -> bytes_ok l'.
Proof.
  unfold EncoderBuffer.copy_at. destruct (get_range _ _ _); [|done]. intros Hl Hb [= <-].
  apply Forall_app; split; [auto with zfs|]. apply Forall_app; split; auto with zfs.
Qed.

Lemma copy_at_middle p q r bs :
  blen bs = blen q -> EncoderBuffer.copy_at (p ++ q ++ r) (blen p) bs = Some (p ++ bs ++ r).
Proof.
  intros Hb. unfold EncoderBuffer.copy_at. rewrite Hb, get_range_middle, ztake_app_length.
  rewrite <- blen_app, (app_assoc p q r), zdrop_app_length. done.
Qed.

(** What a decoder promises for [lsize]. *)
Definition sized (lsize : Z) (d : bytes) : Prop := blen d = lsize /\ bytes_ok d.

Lemma zle_loop_safe fuel src lsize s d dst :
  bytes_ok src -> 0 <= s -> lsize - d <= Z.of_nat fuel -> sized lsize dst ->
  safe (sized lsize) (zle_loop fuel src lsize s d dst).
Proof.
  intros Hs. revert s d dst. induction fuel as [|fuel IH]; intros s d dst Hp Hf Hd; cbn [zle_loop];
    destruct (Z.ltb_spec d lsize); try done; try lia.
  eapply safe_bind; [apply (safe_ok_or is_byte); eauto using zget_byte|]. intros c Hc. unfold is_byte in Hc.
  destruct (Z.ltb_spec c 0x40).
  - eapply safe_bind; [apply (safe_ok_or bytes_ok); eauto using bytes_ok_get_range|]. intros run Hrun.
    eapply safe_bind; [apply (safe_ok_or (sized lsize))|].
    { intros dst' E. destruct Hd as [Hl Hb]. split; [now rewrite (copy_at_len _ _ _ _ E)|].
      exact (copy_at_bytes _ _ _ _ Hb Hrun E). }
    intros dst' Hd'. apply IH; auto; lia.
  - eapply safe_bind; [apply safe_guard|]. intros _ _. apply IH; auto; lia.
Qed.

Lemma sized_zrep lsize : 0 <= lsize -> sized lsize (zrep lsize 0).
Proof. intros. split; [now apply blen_zrep | apply bytes_ok_zrep]. Qed.

Section sizes.
Context {B : Build} {BL : BuildLaws B}.

Lemma lz4_decode_safe src lsize : 0 <= lsize -> safe (sized lsize) (lz4_decode src lsize).
Proof using BL.
  intros Hl. unfold lz4_decode. destruct feature_lz4; [|done].
  eapply safe_bind; [now apply (safe_ok_or (fun _ => True))|]. intros lb _.
  eapply safe_bind; [now apply (safe_ok_or (fun _ => True))|]. intros blk _.
  eapply safe_bind; [apply (safe_ok_or (fun r => sized lsize (snd r)))|].
  { intros [n d] [H1 H2]%lz4_into_len. split; [|done]. cbn. now rewrite H1, blen_zrep. }
  intros [n d] Hd. eapply safe_bind; [apply safe_guard|]. now intros _ _.
Qed.

Lemma gzip_decode_safe src lsize : 0 <= lsize -> safe (sized lsize) (gzip_decode src lsize).
Proof using BL.
  intros Hl. unfold gzip_decode. destruct feature_gzip; [|done].
  eapply safe_bind; [apply (safe_ok_or (fun r => sized lsize (snd r)))|].
  { intros [n d] [H1 H2]%inflate_into_len. split; [|done]. cbn. now rewrite H1, blen_zrep. }
  intros [n d] Hd. eapply safe_bind; [apply safe_guard|]. now intros _ _.
Qed.

Lemma zstd_decode_safe src lsize : 0 <= lsize -> safe (sized lsize) (zstd_decode src lsize).
Proof using BL.
  intros Hl. unfold zstd_decode. destruct feature_zstd; [|done].
  eapply safe_bind; [apply (safe_ok_or (fun h => blen h = 8))|].
  { intros h Hh. apply blen_get_range in Hh. cbn beta. lia. }
  intros h Hh. cbn beta in Hh. rewrite (get_range_ok h 0 4) by lia. cbn [unwrap mbind outcome_bind].
  eapply safe_bind; [now apply (safe_ok_or (fun _ => True))|]. intros fr _.
  eapply safe_bind; [now apply (safe_ok_or (fun _ => True))|]. intros dec _.
  eapply safe_bind; [apply (safe_ok_or (fun r => sized lsize (fst r)))|].
  { intros [d z] Hz. now apply zstd_read_exact_len in Hz. }
  intros [d z] Hd. eapply safe_bind; [apply safe_guard|]. now intros _ _.
Qed.

Lemma decompress_sized comp src lsize :
  bytes_ok src -> 0 <= lsize ->
  safe (fun d => sized lsize d /\ lsize <= MAX_BLOCK_LSIZE) (decompress comp src lsize).
Proof using BL.
  intros Hs Hl. unfold decompress. eapply safe_bind; [apply safe_guard|]. intros _ Hm%Z.ltb_ge.
  apply (safe_mono (sized lsize)); [|auto].
  destruct comp; try exact I; auto using lz4_decode_safe, gzip_decode_safe, zstd_decode_safe.
  - apply safe_ok_or. intros d Hd. split; [apply blen_get_range in Hd; lia | eauto using bytes_ok_get_range].
  - apply safe_map_err. eapply safe_mono; [apply Lzjb.decompress_safe; auto using bytes_ok_zrep|].
    intros d [H1 H2]. split; [|done]. now rewrite H1, blen_zrep.
  - apply zle_loop_safe; auto using sized_zrep; lia.
Qed.
End sizes.

(** Decompressing any bytes by any algorithm ends without a panic, and a block
    it returns has exactly the logical size asked for, which is at most
    16 MiB. *)
Theorem decompress_exact_size {B : Build} {BL : BuildLaws B} comp src lsize :
  bytes_ok src -> 0 <= lsize ->
  safe (fun d => blen d = lsize /\ bytes_ok d /\ lsize <= MAX_BLOCK_LSIZE) (decompress comp src lsize).
Proof. intros. eapply safe_mono; [now apply decompress_sized|]. unfold sized. tauto. Qed.

Lemma decompress_exact_size_witness :
  safe (fun d => blen d = 3 /\ bytes_ok d /\ 3 <= MAX_BLOCK_LSIZE)
    (decompress (B := plain_build) CompressionType.Zle [1; 7; 8; 0x40] 3).
Proof.
  apply (decompress_exact_size (B := plain_build) CompressionType.Zle [1; 7; 8; 0x40] 3); [|lia].
  repeat constructor; unfold is_byte; lia.
Defined.

(** ** ZLE streams *)
Inductive zle_run : Type := ZLit (bs : bytes) | ZZero (n : Z).

Definition zle_run_ok (r : zle_run) : Prop :=
  match r with ZLit bs => 1 <= blen bs <= 64 /\ bytes_ok bs | ZZero n => 1 <= n <= 192 end.
Definition zle_run_ser (r : zle_run) : bytes :=
  match r with ZLit bs => (blen bs - 1) :: bs | ZZero n => [n - 1 + 0x40] end.
Definition zle_run_expand (r : zle_run) : bytes :=
  match r with ZLit bs => bs | ZZero n => zrep n 0 end.

Lemma zrep_split a b : 0 <= a -> 0 <= b -> zrep (a + b) 0 = zrep a 0 ++ zrep b 0.
Proof. intros. unfold zrep. rewrite Z2Nat.inj_add by lia. apply replicate_add. Qed.

Lemma zle_loop_runs rs pre post out fuel lsize :
  Forall zle_run_ok rs -> lsize = blen out + blen (concat (map zle_run_expand rs)) ->
  lsize - blen out <= Z.of_nat fuel ->
  zle_loop fuel (pre ++ concat (map zle_run_ser rs) ++ post) lsize (blen pre) (blen out)
    (out ++ zrep (lsize - blen out) 0) = Ok (out ++ concat (map zle_run_expand rs)).
Proof.
  revert pre out fuel. induction rs as [|r rs IH]; intros pre out fuel Hok Hl Hf.
  { cbn [map concat] in *. rewrite blen_nil in Hl. replace (lsize - blen out) with 0 by lia.
    destruct fuel; cbn [zle_loop]; (destruct (Z.ltb_spec (blen out) lsize); [lia|done]). }
  apply Forall_cons in Hok as [Hr Hrs]. cbn [map concat] in *. rewrite blen_app in Hl.
  pose proof (blen_nonneg (concat (map zle_run_expand rs))) as Hrest.
  assert (Hpos : 1 <= blen (zle_run_expand r)).
  { destruct r as [bs|n]; cbn in *; [lia|]. rewrite blen_zrep; lia. }
  destruct fuel as [|fuel]; [lia|]. cbn [zle_loop].
  destruct (Z.ltb_spec (blen out) lsize); [|lia].
  specialize (IH (pre ++ zle_run_ser r) (out ++ zle_run_expand r) fuel Hrs).
  rewrite (blen_app out) in IH. rewrite <- !app_assoc in IH.
  destruct r as [bs|n]; cbn [zle_run_ser zle_run_expand zle_run_ok app] in *.
  - destruct Hr as [Hr Hb]. rewrite zget_middle. cbn [ok_or mbind outcome_bind].
    destruct (Z.ltb_spec (blen bs - 1) 0x40); [|lia].
    replace (blen pre + 1 + (blen bs - 1 + 1)) with (blen pre + 1 + blen bs) by lia.
    replace (blen pre + 1) with (blen (pre ++ [blen bs - 1])) by (now rewrite blen_app).
    replace (pre ++ (blen bs - 1) :: (bs ++ concat (map zle_run_ser rs)) ++ post)
      with ((pre ++ [blen bs - 1]) ++ bs ++ concat (map zle_run_ser rs) ++ post)
      by (now rewrite <- !app_assoc).
    rewrite get_range_middle. cbn [ok_or mbind outcome_bind].
    replace (zrep (lsize - blen out) 0) with (zrep (blen bs) 0 ++ zrep (lsize - blen out - blen bs) 0)
      by (rewrite <- zrep_split by lia; f_equal; lia).
    rewrite copy_at_middle by (rewrite blen_zrep by lia; done). cbn [ok_or mbind outcome_bind].
    rewrite <- blen_app, <- !app_assoc. cbn [app].
    replace (blen out + (blen bs - 1 + 1)) with (blen out + blen bs) by lia.
    replace (lsize - blen out - blen bs) with (lsize - (blen out + blen bs)) by lia.
    apply IH; lia.
  - rewrite zget_middle. cbn [ok_or mbind outcome_bind]. rewrite blen_zrep in * by lia.
    destruct (Z.ltb_spec (n - 1 + 0x40) 0x40); [lia|].
    replace (n - 1 + 0x40 - 0x40 + 1) with n by lia.
    destruct (Z.ltb_spec lsize (blen out + n)); [lia|]. cbn [guard_err mbind outcome_bind].
    replace (blen pre + 1) with (blen (pre ++ [n - 1 + 0x40])) by (now rewrite blen_app).
    replace (zrep (lsize - blen out) 0) with (zrep n 0 ++ zrep (lsize - (blen out + n)) 0)
      by (rewrite <- zrep_split by lia; f_equal; lia).
    apply IH; lia.
Qed.

(** A ZLE stream of literal runs of 1 to 64 bytes and zero runs of 1 to 192
    decodes to what the runs stand for, whatever follows it. *)
Theorem zle_decodes_runs rs post :
  Forall zle_run_ok rs ->
  let out := concat (map zle_run_expand rs) in
  zle_decode (concat (map zle_run_ser rs) ++ post) (blen out) = Ok out.
Proof.
  intros Hok out. unfold zle_decode.
  pose proof (zle_loop_runs rs [] post [] (Z.to_nat (blen out)) (blen out) Hok) as H.
  cbn [app] in H. rewrite blen_nil, Z.sub_0_r in H. apply H; [done|]. pose proof (blen_nonneg out). lia.
Qed.

Lemma zle_decodes_runs_witness :
  zle_decode (concat (map zle_run_ser [ZLit [5; 6]; ZZero 3; ZLit [7]]) ++ [9; 9]) 6 =
  Ok [5; 6; 0; 0; 0; 7].
Proof.
  apply (zle_decodes_runs [ZLit [5; 6]; ZZero 3; ZLit [7]] [9; 9]).
  repeat constructor; unfold is_byte; cbn; try lia; done.
Defined.
