(* ===== verification/Vdev.v ===== *)
(** * Vdevs: from a block pointer to verified bytes (src/vdev.rs)

    [read_block_pointer] reads a block through a single disk, a mirror or a
    RAID-Z1, checks it and decompresses it.  The members are the state; their
    readers are the embedder's and may fail or lie.  Shown here: whatever the
    devices return, a block that is returned comes from bytes that match the
    pointer's checksum; a mirror with one good copy and a RAID-Z1 with one bad
    or missing column still give the data. *)

From S2P Require Import Prelude Errors Decoder Encoder Types Dva BlockPointer Fletcher Sha256 Cksum Compress.

Open Scope string_scope.
Open Scope Z_scope.
Open Scope list_scope.

Definition LABEL_RESERVE : Z := 4 * 1024 * 1024.
Definition SECTOR_SHIFT : Z := 9.
Definition ASHIFT_MAX : Z := 16.

Inductive Layout : Type :=
| Single (idx : Z)
| Mirror (children : list Z)
| RaidZ1 (children : list (option Z)) (ashift : Z).

Record Topology : Type := {
  layout : Layout;
  checksum_salt : option bytes
}.

Definition members (t : Topology) : list Z :=
  match layout t with
  | Single idx => [idx]
  | Mirror children => children
  | RaidZ1 children _ => omap id children
  end.

Definition read_order (t : Topology) : list Z :=
  match layout t with
  | Single idx => [idx]
  | Mirror children => children
  | RaidZ1 _ _ => []
  end.

Definition dva_byte_offset (sector_offset : Z) : option Z :=
  match checked_mul 64 sector_offset (Z.shiftl 1 SECTOR_SHIFT) with
  | Some b => checked_add 64 b LABEL_RESERVE
  | None => None
  end.

(** ** RAID-Z columns *)
Record RaidzCol : Type := {
  devidx : Z;
  col_offset : Z;
  col_size : Z;
  parity : bool
}.

Definition raidz_geom : Error := Inconsistent "raidz_geom" (LVdev 0).

(** The addition of [o + secsize] is the one that can overflow. *)
Definition raidz_col (dcols nparity secsize f o q bc c : Z) : outcome Error RaidzCol :=
  let col := f + c in
  '(dev, coff) ← (if dcols <=? col
                  then coff ← unwrap (checked_add 64 o secsize); Ok (col - dcols, coff)
                  else Ok (col, o));
  Ok {| devidx := dev; col_offset := coff;
        col_size := if c <? bc then (q + 1) * secsize else q * secsize;
        parity := c <? nparity |}.

Fixpoint mapM_outcome {E A B} (f : A -> outcome E B) (l : list A) : outcome E (list B) :=
  match l with
  | [] => Ok []
  | a :: l' => b ← f a; bs ← mapM_outcome f l'; Ok (b :: bs)
  end.

Definition raidz_map (dva : Dva_t) (ashift dcols nparity psize : Z) : outcome Error (list RaidzCol) :=
  guard_err ((dcols <=? nparity) || negb ((9 <=? ashift) && (ashift <=? ASHIFT_MAX))) raidz_geom;;
  let secsize := Z.shiftl 1 ashift in
  let b := Z.shiftr (offset_ dva) (ashift - 9) in
  let s := Z.shiftr (psize + secsize - 1) ashift in
  guard_err (s =? 0) raidz_geom;;
  let f := b mod dcols in
  let o := wrap 64 (Z.shiftl (b / dcols) ashift) in
  let q := s / (dcols - nparity) in
  let r := s - q * (dcols - nparity) in
  let bc := if r =? 0 then 0 else r + nparity in
  let acols := if q =? 0 then bc else dcols in
  mapM_outcome (raidz_col dcols nparity secsize f o q bc) (Z.of_nat <$> seq 0 (Z.to_nat acols)).

Fixpoint assemble_from (i : nat) (cols : list RaidzCol) (colbufs : list (option bytes))
    (replace_idx : option nat) (replacement : option bytes) : option bytes :=
  match cols with
  | [] => Some []
  | col :: cols' =>
      if parity col then assemble_from (S i) cols' colbufs replace_idx replacement
      else
        piece ← (if decide (Some i = replace_idx) then replacement else mjoin (colbufs !! i));
        rest ← assemble_from (S i) cols' colbufs replace_idx replacement;
        Some (piece ++ rest)
  end.

Definition raidz1_assemble (cols : list RaidzCol) (colbufs : list (option bytes)) (psize : Z)
    (replace_idx : option nat) (replacement : option bytes) : option bytes :=
  data ← assemble_from 0 cols colbufs replace_idx replacement;
  if blen data <? psize then None else Some (ztake psize data).

(** [for (k, b) in other.iter().enumerate().take(size) { rebuilt[k] ^= b }], with
    [rebuilt] of length [size]. *)
Fixpoint xor_into (rebuilt other : bytes) : bytes :=
  match rebuilt, other with
  | a :: rebuilt', b :: other' => Z.lxor a b :: xor_into rebuilt' other'
  | _, _ => rebuilt
  end.

Fixpoint reconstruct_from (i : nat) (cols : list RaidzCol) (colbufs : list (option bytes))
    (target : nat) (rebuilt : bytes) : option bytes :=
  match cols with
  | [] => Some rebuilt
  | _ :: cols' =>
      if decide (i = 0%nat \/ i = target) then reconstruct_from (S i) cols' colbufs target rebuilt
      else
        other ← mjoin (colbufs !! i);
        reconstruct_from (S i) cols' colbufs target (xor_into rebuilt other)
  end.

Definition raidz1_reconstruct (cols : list RaidzCol) (colbufs : list (option bytes)) (target : nat)
    : option bytes :=
  par ← mjoin (colbufs !! 0%nat);
  size ← col_size <$> cols !! target;
  let n := Z.min size (blen par) in
  let rebuilt := ztake n par ++ zrep (size - n) 0 in
  reconstruct_from 0 cols colbufs target rebuilt.

(** [.is_ok()] *)
Definition is_ok {E F A} (m : outcome E A) : outcome F bool :=
  match m with Ok _ => Ok true | Err _ => Ok false | Panic => Panic end.

(** The columns of one copy: the healthy assembly, then each data column
    rebuilt in turn, until one verifies. *)
Section pick.
Context (verify : bytes -> outcome Error bool) (cols : list RaidzCol)
  (colbufs : list (option bytes)) (psize : Z).

Definition try_raw (raw : option bytes) (next : outcome Error (option bytes)) : outcome Error (option bytes) :=
  match raw with
  | Some raw => v ← verify raw; if v : bool then Ok (Some raw) else next
  | None => next
  end.

Fixpoint degraded (i : nat) (rest : list RaidzCol) : outcome Error (option bytes) :=
  match rest with
  | [] => Ok None
  | col :: rest' =>
      if parity col then degraded (S i) rest'
      else
        match raidz1_reconstruct cols colbufs i with
        | None => degraded (S i) rest'
        | Some rebuilt =>
            try_raw (raidz1_assemble cols colbufs psize (Some i) (Some rebuilt)) (degraded (S i) rest')
        end
  end.

Definition raidz1_pick : outcome Error (option bytes) :=
  try_raw (raidz1_assemble cols colbufs psize None None) (degraded 0 cols).
End pick.

(** ** Reads *)
Section read.
Context {B : Build} {R : Type} `{BlockRead R}.
Abbreviation M := (SM (list (PoolMember R)) Error).

(** A read of [len] bytes from member [mi]: [None] when there is no such
    member. *)
Definition member_read (mi byte len vdev : Z) (token : string) : M (option (outcome Error bytes)) :=
  fun ms =>
    match zget ms mi with
    | None => (Ok None, ms)
    | Some m =>
        let '(r, rd) := read_exact byte len vdev token (reader m) in
        (Ok (Some r), <[Z.to_nat mi := Build_PoolMember rd (device_size_bytes m)]> ms)
    end.

Definition raidz1_read_column (children : list (option Z)) (vdev : Z) (col : RaidzCol) : M (option bytes) :=
  match mjoin (zget children (devidx col)) with
  | None => mret None
  | Some mi =>
      match checked_add 64 LABEL_RESERVE (col_offset col) with
      | None => mret None
      | Some byte =>
          r ← member_read mi byte (col_size col) vdev "io_raidz";
          mret (match r with Some (Ok buf) => Some buf | _ => None end)
      end
  end.

Fixpoint raidz1_read_columns (children : list (option Z)) (vdev : Z) (cols : list RaidzCol)
    : M (list (option bytes)) :=
  match cols with
  | [] => mret []
  | col :: cols' =>
      b ← raidz1_read_column children vdev col;
      bs ← raidz1_read_columns children vdev cols';
      mret (b :: bs)
  end.

Definition verify_regular (salt : option bytes) (r : BlockPointerRegular) (dva : Dva_t) (raw : bytes)
    : outcome Error unit :=
  verify_block (checksum_type r) (order r) raw (checksum_value r) salt (vdev dva) (offset_ dva).

Fixpoint raidz1_copies (children : list (option Z)) (ashift : Z) (salt : option bytes)
    (r : BlockPointerRegular) (psize lsize : Z) (ds : list Dva_t) (last : Error) : M bytes :=
  match ds with
  | [] => sm_err last
  | dva :: ds' =>
      sm_catch (sm_lift (raidz_map dva ashift (blen children) 1 psize))
        (fun cols =>
          colbufs ← raidz1_read_columns children (vdev dva) cols;
          picked ← sm_lift (raidz1_pick (fun raw => is_ok (verify_regular salt r dva raw))
                              cols colbufs psize);
          match picked with
          | Some raw => sm_lift (decompress (compression r) raw lsize)
          | None =>
              raidz1_copies children ashift salt r psize lsize ds'
                (ChecksumMismatch (vdev dva) (offset_ dva) "raidz_unrecoverable")
          end)
        (fun e => raidz1_copies children ashift salt r psize lsize ds' e)
  end.

Definition raidz1_read (children : list (option Z)) (ashift : Z) (salt : option bytes)
    (r : BlockPointerRegular) (psize lsize : Z) : M bytes :=
  raidz1_copies children ashift salt r psize lsize (present_dvas r)
    (Inconsistent "raidz_no_copy" (LVdev 0)).

(** The loop over the members that hold a copy at [byte]; [next] goes on with
    the following address. *)
Fixpoint try_members (salt : option bytes) (r : BlockPointerRegular) (psize lsize : Z) (dva : Dva_t)
    (byte : Z) (order : list Z) (last : Error) (next : Error -> M bytes) : M bytes :=
  match order with
  | [] => next last
  | mi :: order' =>
      res ← member_read mi byte psize (vdev dva) "io_block";
      match res with
      | None => try_members salt r psize lsize dva byte order' last next
      | Some (Ok raw) =>
          match verify_regular salt r dva raw with
          | Ok _ => sm_lift (decompress (compression r) raw lsize)
          | Err e => try_members salt r psize lsize dva byte order' e next
          | Panic => sm_panic
          end
      | Some (Err _) =>
          try_members salt r psize lsize dva byte order' (Io "io_block" (vdev dva) byte) next
      | Some Panic => sm_panic
      end
  end.

Fixpoint try_copies (salt : option bytes) (r : BlockPointerRegular) (psize lsize : Z)
    (order : list Z) (ds : list Dva_t) (last : Error) : M bytes :=
  match ds with
  | [] => sm_err last
  | dva :: ds' =>
      match dva_byte_offset (offset_ dva) with
      | None =>
          try_copies salt r psize lsize order ds' (Inconsistent "dva_out_of_range" LMos)
      | Some byte =>
          try_members salt r psize lsize dva byte order last
            (fun last => try_copies salt r psize lsize order ds' last)
      end
  end.

(** The checks on the addresses before any read. *)
Fixpoint check_dvas (ds : list Dva_t) : outcome Error unit :=
  match ds with
  | [] => Ok tt
  | dva :: ds' =>
      guard_err (is_gang dva) (Unsupported "gang_block");;
      guard_err (negb (vdev dva =? 0)) (Inconsistent "dva_vdev" LMos);;
      check_dvas ds'
  end.

Definition read_block_pointer (topo : Topology) (bp : BlockPointer) : M bytes :=
  match bp with
  | Embedded e =>
      src ← sm_lift (ok_or (get_range (e_payload e) 0 (e_physical_size e))
                       (Inconsistent "embedded_short" LMos));
      sm_lift (decompress (e_compression e) src (e_logical_size e))
  | Encrypted _ => sm_err (UnsupportedFeature "encryption")
  | Regular r =>
      let lsize := Z.shiftl (logical_sectors r) SECTOR_SHIFT in
      let psize := Z.shiftl (physical_sectors r) SECTOR_SHIFT in
      sm_guard ((psize =? 0) || (MAX_BLOCK_LSIZE <? psize)) (Inconsistent "bp_bad_psize" LMos);;
      sm_lift (check_dvas (present_dvas r));;
      match layout topo with
      | RaidZ1 children ashift => raidz1_read children ashift (checksum_salt topo) r psize lsize
      | _ => try_copies (checksum_salt topo) r psize lsize (read_order topo) (present_dvas r)
               (Inconsistent "bp_no_readable_copy" LMos)
      end
  end.
End read.

(** ** Only verified bytes are returned *)

Lemma assemble_length cols bufs psize i w raw :
  0 <= psize -> raidz1_assemble cols bufs psize i w = Some raw -> blen raw = psize.
Proof.
  intros Hp. unfold raidz1_assemble. destruct (assemble_from _ _ _ _ _) as [d|]; cbn; [|done].
  destruct (Z.ltb_spec (blen d) psize); [done|]. intros [= <-]. rewrite blen_ztake by lia. lia.
Qed.

Section authentic.
Context {B : Build} {R : Type} `{BlockRead R}.

(** A block that was decompressed from bytes of the right length that match
    the pointer. *)
Definition from_authentic (salt : option bytes) (r : BlockPointerRegular) (psize lsize : Z) (d : bytes) : Prop :=
  exists raw, blen raw = psize /\
    authentic (checksum_type r) (order r) raw (checksum_value r) salt /\
    decompress (compression r) raw lsize = Ok d.

Context (salt : option bytes) (r : BlockPointerRegular) (psize lsize : Z).
Hypothesis psize_range : 0 <= psize <= MAX_BLOCK_LSIZE.

Lemma verify_regular_ok dva raw u :
  blen raw = psize -> verify_regular salt r dva raw = Ok u ->
  authentic (checksum_type r) (order r) raw (checksum_value r) salt.
Proof using psize_range.
  intros Hl Hv. destruct u. eapply verify_block_ok; [|exact Hv].
  unfold MAX_BLOCK_LSIZE in psize_range. lia.
Qed.

Lemma returns_decompress raw :
  blen raw = psize -> authentic (checksum_type r) (order r) raw (checksum_value r) salt ->
  returns (from_authentic salt r psize lsize) (sm_lift (S := list (PoolMember R)) (decompress (compression r) raw lsize)).
Proof using. intros Hl Ha. apply returns_lift. intros d Hd. exists raw. auto. Qed.

Lemma returns_member_read mi byte len v t :
  0 <= len -> returns (fun x => forall bs, x = Some (Ok bs) -> blen bs = len /\ bytes_ok bs)
    (member_read (R := R) mi byte len v t).
Proof using.
  intros Hlen ms x ms'. unfold member_read. destruct (zget ms mi) as [m|]; [|intros [= <- _]; done].
  unfold read_exact. destruct (read_at (reader m) byte len) as [[bs|] rd] eqn:E; intros [= <- _]; [|done].
  intros bs' [= <-]. eapply read_at_len; eauto.
Qed.

Lemma returns_try_members dva byte mis last next :
  (forall e, returns (from_authentic salt r psize lsize) (next e)) ->
  returns (from_authentic salt r psize lsize)
    (try_members (R := R) salt r psize lsize dva byte mis last next).
Proof using psize_range.
  intros Hn. revert last. induction mis as [|mi mis IH]; intros last; cbn [try_members]; [auto|].
  eapply returns_bind; [apply returns_member_read; lia|]. intros [[raw|e|]|] Hx; auto with zfs.
  destruct (Hx raw eq_refl) as [Hl _]. destruct (verify_regular salt r dva raw) eqn:E; auto with zfs.
  apply returns_decompress; eauto using verify_regular_ok.
Qed.

Lemma returns_try_copies mis ds last :
  returns (from_authentic salt r psize lsize) (try_copies (R := R) salt r psize lsize mis ds last).
Proof using psize_range.
  revert last. induction ds as [|d ds IH]; intros last; cbn [try_copies]; [auto with zfs|].
  destruct (dva_byte_offset (offset_ d)); auto using returns_try_members.
Qed.

(** What [raidz1_pick] picks was assembled and verified. *)
Definition good (verify : bytes -> outcome Error bool) (x : option bytes) : Prop :=
  forall raw, x = Some raw -> blen raw = psize /\ verify raw = Ok true.

Lemma try_raw_good verify raw next x :
  (forall w, raw = Some w -> blen w = psize) -> (next = Ok x -> good verify x) ->
  try_raw verify raw next = Ok x -> good verify x.
Proof using.
  intros Hraw Hn. unfold try_raw. destruct raw as [w|]; [|auto].
  destruct (verify w) as [[]| |] eqn:Ev; cbn; auto; try done. intros [= <-] w' [= <-]. auto.
Qed.

Lemma pick_good verify cols bufs x :
  raidz1_pick verify cols bufs psize = Ok x -> good verify x.
Proof using psize_range.
  unfold raidz1_pick. apply try_raw_good; [intros; eapply assemble_length; [lia|eauto] |].
  generalize 0%nat. generalize cols at 2. intros rest. induction rest as [|c rest IH]; intros i; cbn [degraded].
  - now intros [= <-].
  - destruct (parity c); [apply IH|]. destruct (raidz1_reconstruct cols bufs i); [|apply IH].
    apply try_raw_good; [intros; eapply assemble_length; [lia|eauto] | apply IH].
Qed.

Lemma is_ok_true {E F A} (m : outcome E A) : is_ok (F := F) m = Ok true -> exists a, m = Ok a.
Proof using. destruct m; cbn; [eauto|discriminate..]. Qed.

Lemma returns_raidz1 children ashift ds last :
  returns (from_authentic salt r psize lsize)
    (raidz1_copies (R := R) children ashift salt r psize lsize ds last).
Proof using psize_range.
  revert last. induction ds as [|d ds IH]; intros last; cbn [raidz1_copies]; [auto with zfs|].
  eapply returns_catch; [apply returns_true | |auto]. intros cols _.
  eapply returns_bind; [apply returns_true|]. intros bufs _.
  eapply returns_bind; [apply returns_lift, pick_good|]. intros [raw|] Hx; [|auto].
  destruct (Hx raw eq_refl) as [Hl [u Hv]%is_ok_true].
  apply returns_decompress; eauto using verify_regular_ok.
Qed.
End authentic.

(** ** No panic, and the size of the result *)
Lemma safe_mapM {E A C} (P : A -> Prop) (Q : C -> Prop) (f : A -> outcome E C) l :
  Forall P l -> (forall a, P a -> safe Q (f a)) -> safe (Forall Q) (mapM_outcome f l).
Proof.
  intros Hl Hf. induction Hl as [|a l Ha Hl IH]; cbn [mapM_outcome]; [cbn; auto|].
  eapply safe_bind; [now apply Hf|]. intros c Hc. eapply safe_bind; [exact IH|]. intros cs Hcs. cbn. auto.
Qed.

(** The offsets for which the column arithmetic does not overflow. *)
Definition addressable (layout : Layout) (r : BlockPointerRegular) : Prop :=
  match layout with
  | RaidZ1 _ _ => Forall (fun d => offset_ d < 2 ^ 54) (present_dvas r)
  | _ => True
  end.

Lemma col_base off ashift dcols :
  0 <= off < 2 ^ 54 -> 9 <= ashift <= 16 -> 1 < dcols ->
  0 <= (off / 2 ^ (ashift - 9)) / dcols * 2 ^ ashift <= 2 ^ 62.
Proof.
  intros Ho Ha Hd. assert (0 < 2 ^ (ashift - 9)) by lia.
  set (b := off / 2 ^ (ashift - 9)). assert (0 <= b) by (apply Z.div_pos; lia).
  split; [apply Z.mul_nonneg_nonneg; [apply Z.div_pos|]; lia|].
  assert (Hb : b * 2 ^ ashift <= off * 2 ^ 9).
  { replace (2 ^ ashift) with (2 ^ (ashift - 9) * 2 ^ 9) by (rewrite <- Z.pow_add_r by lia; f_equal; lia).
    rewrite Z.mul_assoc. apply Z.mul_le_mono_nonneg_r; [lia|].
    pose proof (Z.mul_div_le off (2 ^ (ashift - 9))). lia. }
  assert (Hd2 : 2 * (b / dcols) <= b).
  { pose proof (Z.mul_div_le b dcols). assert (0 <= b / dcols) by (apply Z.div_pos; lia). nia. }
  assert (0 <= b / dcols) by (apply Z.div_pos; lia). assert (0 < 2 ^ ashift) by lia. nia.
Qed.

Lemma raidz_map_safe dva ashift dcols psize :
  0 <= offset_ dva < 2 ^ 54 -> 0 <= psize ->
  safe (Forall (fun c => 0 <= col_size c)) (raidz_map dva ashift dcols 1 psize).
Proof.
  intros Ho Hp. unfold raidz_map. eapply safe_bind; [apply safe_guard|]. intros ? Hg.
  apply orb_false_iff in Hg as [Hd Ha]. apply Z.leb_gt in Hd.
  apply negb_false_iff, andb_true_iff in Ha as [Ha1%Z.leb_le Ha2%Z.leb_le].
  unfold ASHIFT_MAX in Ha2. rewrite Z.shiftl_1_l. assert (0 < 2 ^ ashift) by lia.
  eapply safe_bind; [apply safe_guard|]. intros _ _.
  rewrite !shiftr_div by lia. rewrite Z.shiftl_mul_pow2 by lia.
  pose proof (col_base (offset_ dva) ashift dcols ltac:(lia) ltac:(lia) ltac:(lia)) as Hcb.
  rewrite (wrap_id 64) by (unfold fits; lia).
  set (o := _ / dcols * 2 ^ ashift) in *. set (s := (psize + 2 ^ ashift - 1) / 2 ^ ashift).
  assert (0 <= s) by (apply Z.div_pos; lia).
  assert (0 <= s / (dcols - 1)) by (apply Z.div_pos; lia).
  apply (safe_mapM (fun _ => True)); [apply Forall_true; done|]. intros c _. unfold raidz_col.
  assert (2 ^ ashift <= 2 ^ 16) by (apply Z.pow_le_mono_r; lia).
  eapply (safe_bind (fun _ => True)).
  - destruct (_ <=? _); [|done]. unfold checked_add.
    destruct (Z.ltb_spec (o + 2 ^ ashift) (2 ^ 64)); [done|lia].
  - intros [dev coff] _. cbn. destruct (_ <? _); nia.
Qed.

Section total.
Context {B : Build} {BL : BuildLaws B} {R : Type} `{BlockRead R}.
Context {T : list (PoolMember R) -> Prop} {HT : ReadClosed T}.
Context (salt : option bytes) (r : BlockPointerRegular) (psize lsize : Z).
Hypothesis psize_range : 0 <= psize <= MAX_BLOCK_LSIZE.
Hypothesis lsize_range : 0 <= lsize.

Lemma hoare_member_read mi byte len v t :
  0 <= len -> hoare T (member_read mi byte len v t)
    (fun x => match x with Some (Ok bs) => sized len bs | Some Panic => False | _ => True end).
Proof using HT.
  intros Hlen ms HI. unfold wp, member_read. destruct (zget ms mi) as [m|] eqn:Em; [|done].
  pose proof (read_closed ms mi m byte len HI Em) as Hc. unfold after_read in Hc.
  unfold read_exact. destruct (read_at (reader m) byte len) as [[bs|] rd] eqn:E; [|done].
  cbn. split; [done|]. eapply read_at_len; eauto.
Qed.

Lemma verify_regular_safe dva raw :
  blen raw = psize -> safe (fun _ => True) (verify_regular salt r dva raw).
Proof using psize_range.
  intros Hl. eapply safe_mono; [|done]. apply verify_block_safe. unfold MAX_BLOCK_LSIZE in *. lia.
Qed.

Lemma hoare_decompress raw :
  bytes_ok raw -> hoare T (sm_lift (decompress (compression r) raw lsize)) (sized lsize).
Proof using BL lsize_range.
  intros Hr. apply hoare_lift. eapply safe_mono; [apply decompress_sized; [exact Hr|exact lsize_range]|].
  intros d [Hd _]. exact Hd.
Qed.

Lemma hoare_try_members dva byte mis last next :
  (forall e, hoare T (next e) (sized lsize)) ->
  hoare T (try_members salt r psize lsize dva byte mis last next) (sized lsize).
Proof using All.
  intros Hn. revert last. induction mis as [|mi mis IH]; intros last; cbn [try_members]; [auto|].
  eapply hoare_bind; [apply hoare_member_read; lia|]. intros [[raw|e|]|] Hx; auto; [|done].
  destruct Hx as [Hl Hb]. pose proof (verify_regular_safe dva raw Hl).
  destruct (verify_regular salt r dva raw); [now apply hoare_decompress | auto | done].
Qed.

Lemma hoare_try_copies mis ds last :
  hoare T (try_copies salt r psize lsize mis ds last) (sized lsize).
Proof using All.
  revert last. induction ds as [|d ds IH]; intros last; cbn [try_copies]; [apply hoare_err|].
  destruct (dva_byte_offset (offset_ d)); auto using hoare_try_members.
Qed.

Lemma hoare_read_columns children v cols :
  Forall (fun c => 0 <= col_size c) cols ->
  hoare T (raidz1_read_columns children v cols) (Forall (fun b => forall bs, b = Some bs -> bytes_ok bs)).
Proof using psize_range HT.
  induction 1 as [|c cols Hc Hcs IH]; cbn [raidz1_read_columns]; [now apply hoare_ret|].
  eapply (hoare_bind _ _ _ (fun b => forall bs, b = Some bs -> bytes_ok bs)).
  - unfold raidz1_read_column. destruct (mjoin _) as [mi|]; [|now apply hoare_ret].
    destruct (checked_add _ _ _); [|now apply hoare_ret].
    eapply hoare_bind; [apply hoare_member_read; exact Hc|]. intros [[raw|e|]|] Hx; apply hoare_ret; try done.
    intros bs [= <-]. apply Hx.
  - intros b Hb. eapply hoare_bind; [exact IH|]. intros bs Hbs. apply hoare_ret. auto.
Qed.
End total.

(** *** Bytes stay bytes through the columns *)
Lemma lxor_byte a b : is_byte a -> is_byte b -> is_byte (Z.lxor a b).
Proof.
  intros [] []. assert (0 <= Z.lxor a b) by (apply Z.lxor_nonneg; lia). split; [done|].
  destruct (Z.eq_dec (Z.lxor a b) 0) as [->|]; [done|]. apply (Z.log2_lt_pow2 _ 8); [lia|].
  pose proof (Z.log2_lxor a b). assert (forall z, is_byte z -> Z.log2 z < 8) as Hlog.
  { intros z []. destruct (Z.eq_dec z 0) as [->|]; [done|]. apply Z.log2_lt_pow2; lia. }
  pose proof (Hlog a). pose proof (Hlog b). unfold is_byte in *. lia.
Qed.

Lemma xor_into_bytes a b : bytes_ok a -> bytes_ok b -> bytes_ok (xor_into a b).
Proof.
  intros Ha. revert b. induction Ha as [|x a Hx Ha IH]; intros b Hb; cbn [xor_into]; [done|].
  destruct Hb as [|y b Hy Hb]; constructor; auto using lxor_byte.
Qed.

Abbreviation bufs_ok := (Forall (fun b => forall bs, b = Some bs -> bytes_ok bs)).

Lemma bufs_ok_lookup bufs i bs : bufs_ok bufs -> mjoin (bufs !! i) = Some bs -> bytes_ok bs.
Proof.
  intros Hb E. destruct (bufs !! i) as [b|] eqn:El; [|done]. cbn in E. subst b.
  rewrite Forall_lookup in Hb. eapply Hb; eauto.
Qed.

Lemma reconstruct_from_bytes cols bufs t i rebuilt x :
  bufs_ok bufs -> bytes_ok rebuilt -> reconstruct_from i cols bufs t rebuilt = Some x -> bytes_ok x.
Proof.
  intros Hb. revert i rebuilt. induction cols as [|c cols IH]; intros i rebuilt Hr; cbn [reconstruct_from].
  - now intros [= <-].
  - destruct (decide _); [now apply IH|]. destruct (mjoin (bufs !! i)) as [o|] eqn:E; cbn; [|done].
    apply IH, xor_into_bytes; eauto using bufs_ok_lookup.
Qed.

Lemma reconstruct_bytes cols bufs t x :
  bufs_ok bufs -> raidz1_reconstruct cols bufs t = Some x -> bytes_ok x.
Proof.
  intros Hb. unfold raidz1_reconstruct. destruct (mjoin (bufs !! 0%nat)) as [p|] eqn:E; cbn; [|done].
  destruct (cols !! t); cbn; [|done]. apply reconstruct_from_bytes; [done|].
  apply Forall_app; split; [|apply bytes_ok_zrep]. apply bytes_ok_ztake. eauto using bufs_ok_lookup.
Qed.

Lemma assemble_bytes cols bufs psize ri rep x :
  bufs_ok bufs -> (forall w, rep = Some w -> bytes_ok w) ->
  raidz1_assemble cols bufs psize ri rep = Some x -> bytes_ok x.
Proof.
  intros Hb Hw. unfold raidz1_assemble.
  assert (Hf : forall i d, assemble_from i cols bufs ri rep = Some d -> bytes_ok d).
  { induction cols as [|c cols IH]; intros i d; cbn [assemble_from]; [now intros [= <-]|].
    destruct (parity c); [apply IH|].
    destruct (if decide _ then rep else mjoin (bufs !! i)) as [piece|] eqn:Ep; cbn; [|done].
    destruct (assemble_from (S i) cols bufs ri rep) as [rest|] eqn:Er; cbn; [|done].
    intros [= <-]. apply Forall_app; split; [|eauto].
    destruct (decide _); [eauto | eauto using bufs_ok_lookup]. }
  destruct (assemble_from 0 cols bufs ri rep) as [d|] eqn:E; cbn; [|done].
  destruct (_ <? _); [done|]. intros [= <-]. apply bytes_ok_ztake. eauto.
Qed.

(** ** The whole read *)
Section read_total.
Context {B : Build} {BL : BuildLaws B} {R : Type} `{BlockRead R}.
Context {T : list (PoolMember R) -> Prop} {HT : ReadClosed T}.

Lemma is_ok_safe {E F A} (m : outcome E A) : safe (fun _ => True) m -> safe (fun _ => True) (is_ok (F := F) m).
Proof using. now destruct m. Qed.

Lemma pick_safe verify cols bufs psize :
  0 <= psize -> bufs_ok bufs -> (forall raw, blen raw = psize -> safe (fun _ => True) (verify raw)) ->
  safe (fun x => forall raw, x = Some raw -> bytes_ok raw) (raidz1_pick verify cols bufs psize).
Proof using.
  intros Hp Hb Hv. set (Q := fun x => forall raw, x = Some raw -> bytes_ok raw).
  assert (Htry : forall raw next, (forall w, raw = Some w -> blen w = psize /\ bytes_ok w) ->
    safe Q next -> safe Q (try_raw verify raw next)).
  { intros [w|] next Hw Hn; cbn [try_raw]; [|done]. destruct (Hw w eq_refl) as [Hl Hwb].
    eapply safe_bind; [now apply Hv|]. intros [] _; [|done]. now intros raw [= <-]. }
  unfold raidz1_pick. apply Htry.
  { intros w E. split; [eapply assemble_length; eauto | eapply assemble_bytes; eauto; done]. }
  generalize 0%nat. generalize cols at 2. intros rest. induction rest as [|c rest IH]; intros i; cbn [degraded]; [done|].
  destruct (parity c); [apply IH|]. destruct (raidz1_reconstruct cols bufs i) as [x|] eqn:Ex; [|apply IH].
  apply Htry; [|apply IH]. intros w E. split; [eapply assemble_length; eauto|].
  eapply assemble_bytes; eauto. intros w' [= <-]. eapply reconstruct_bytes; eauto.
Qed.

Lemma hoare_raidz1 salt r psize lsize children ashift ds last :
  0 <= psize <= MAX_BLOCK_LSIZE -> 0 <= lsize ->
  Forall (fun d => 0 <= offset_ d < 2 ^ 54) ds ->
  hoare T (raidz1_copies children ashift salt r psize lsize ds last) (sized lsize).
Proof using BL HT.
  intros Hp Hl Hds. revert last.
  induction Hds as [|d ds Hd Hds IH]; intros last; cbn [raidz1_copies]; [apply hoare_err|].
  eapply hoare_catch; [apply hoare_lift, raidz_map_safe; lia| |auto]. intros cols Hc.
  eapply hoare_bind; [eapply hoare_read_columns; [exact Hp|exact Hc]|]. intros bufs Hb.
  eapply hoare_bind; [apply hoare_lift, pick_safe; [lia|exact Hb|]|].
  { intros raw Hraw. eapply is_ok_safe, verify_regular_safe; eauto. }
  intros [raw|] Hx; [|auto]. apply hoare_decompress; auto.
Qed.

(** The size of what a pointer reads to. *)
Definition logical_size (bp : BlockPointer) : Z :=
  match bp with
  | Embedded e => e_logical_size e
  | Encrypted c => Z.shiftl (c_logical_sectors c) SECTOR_SHIFT
  | Regular r => Z.shiftl (logical_sectors r) SECTOR_SHIFT
  end.

Lemma present_dvas_wf r : Bp.regular_wf r -> Forall Dva.wf (present_dvas r).
Proof using.
  intros (_ & H0 & H1 & H2 & _). unfold present_dvas, dvas.
  unfold Bp.dva_wf in *. cbn [omap list_omap].
  destruct (dva0 r), (dva1 r), (dva2 r); cbn [id]; repeat (apply Forall_cons; split); auto; constructor.
Qed.

Definition bp_addressable (topo : Topology) (bp : BlockPointer) : Prop :=
  match bp with Regular r => addressable (layout topo) r | _ => True end.

Lemma check_dvas_safe ds : safe (fun _ => True) (check_dvas ds).
Proof using.
  induction ds as [|d ds IH]; cbn [check_dvas]; [done|].
  eapply safe_bind; [apply safe_guard|]. intros _ _. eapply safe_bind; [apply safe_guard|]. now intros _ _.
Qed.

Lemma hoare_read_block_pointer topo bp :
  Bp.bp_wf bp -> bp_addressable topo bp ->
  hoare T (read_block_pointer topo bp) (sized (logical_size bp)).
Proof using BL HT.
  intros Hw Ha. destruct bp as [e|c|r]; cbn [read_block_pointer logical_size Bp.bp_wf bp_addressable] in *.
  - destruct Hw as (_ & _ & Hl & Hp & Hpl & Hb).
    eapply hoare_bind; [apply hoare_lift, (safe_ok_or bytes_ok); eauto using bytes_ok_get_range|].
    intros src Hs. apply hoare_lift. eapply safe_mono; [apply decompress_sized; [done|lia]|].
    intros d [Hd _]. exact Hd.
  - apply hoare_err.
  - pose proof (present_dvas_wf r Hw) as Hds. destruct Hw as (_ & _ & _ & _ & _ & _ & _ & Hls & _ & Hps).
    eapply hoare_bind; [apply hoare_guard|]. intros ? Hg.
    apply orb_false_iff in Hg as [_ Hm%Z.ltb_ge].
    eapply hoare_bind; [apply hoare_lift, check_dvas_safe|]. intros _ _.
    unfold SECTOR_SHIFT in *. rewrite !Z.shiftl_mul_pow2 in * by lia.
    destruct (layout topo) as [idx|ch|ch ash] eqn:El; cbn [addressable] in Ha.
    1-2: apply hoare_try_copies; lia.
    apply hoare_raidz1; [lia|lia|]. rewrite !Forall_forall in *.
    intros d Hd. destruct (Hds d Hd) as (_ & [] & _). specialize (Ha d Hd). lia.
Qed.

(** The physical size, below which every block is small enough to hash. *)
Lemma returns_read_block_pointer topo r :
  0 <= physical_sectors r ->
  returns (from_authentic (checksum_salt topo) r (Z.shiftl (physical_sectors r) SECTOR_SHIFT)
             (Z.shiftl (logical_sectors r) SECTOR_SHIFT))
    (read_block_pointer (R := R) topo (Regular r)).
Proof using.
  intros Hp. cbn [read_block_pointer].
  eapply (returns_bind (fun _ => 0 <= Z.shiftl (physical_sectors r) SECTOR_SHIFT <= MAX_BLOCK_LSIZE)).
  { apply returns_lift. intros ? Hg. unfold guard_err in Hg.
    destruct (_ =? 0), (Z.ltb_spec MAX_BLOCK_LSIZE (Z.shiftl (physical_sectors r) SECTOR_SHIFT));
      try discriminate. split; [|done]. now apply Z.shiftl_nonneg. }
  intros _ Hps. eapply returns_bind; [apply returns_true|]. intros _ _.
  destruct (layout topo); auto using returns_try_copies. apply returns_raidz1. exact Hps.
Qed.
End read_total.

(** ** What reading promises *)

(** A device with one readable extent, for the examples. *)
Definition extent : Type := Z * bytes.
#[global] Instance extent_read : BlockRead extent.
Proof.
  refine {| read_at := fun d off n =>
    match get_range (snd d) (off - fst d) (off - fst d + n) with
    | Some bs => if forallb is_byteb bs then (Some bs, d) else (None, d)
    | None => (None, d)
    end |}.
  intros [base l] off n bs d' Hn. cbn. destruct (get_range l _ _) as [b|] eqn:E; [|done].
  destruct (forallb is_byteb b) eqn:Eb; [|done]. intros [= <- <-].
  split; [apply blen_get_range in E; lia|]. rewrite forallb_forall in Eb. apply Forall_forall.
  intros x Hx%list_elem_of_In. apply Eb in Hx. unfold is_byteb, is_byte in *. lia.
Defined.

Lemma extent_static (d : extent) off n : snd (read_at d off n) = d.
Proof. cbn. destruct (get_range _ _ _) as [b|]; [destruct (forallb _ b)|]; done. Qed.

(** A block of 512 bytes with its Fletcher-4 checksum, at sector 8. *)
Definition sample_data : bytes := (fun n => Z.of_nat n mod 251) <$> seq 0 512.
Definition sample_words : ChecksumValue := Eval vm_compute in
  match Fletcher4.closed_form Little sample_data with [a; b; c; d] => (a, b, c, d) | _ => (0, 0, 0, 0) end.
Definition sample_dva : Dva_t := {| allocated := 1; offset_ := 8; is_gang := false; vdev := 0 |}.
Definition sample_bp : BlockPointerRegular := {|
  checksum_type := ChecksumType.Fletcher4; checksum_value := sample_words;
  compression := CompressionType.Off; dedup := false; dmu := DmuType.PlainFileContents;
  dva0 := Some sample_dva; dva1 := None; dva2 := None; order := Little; fill_count := 1; level := 0;
  logical_birth_txg := 7; logical_sectors := 1; physical_birth_txg := 7; physical_sectors := 1 |}.
Definition disk (base : Z) (l : bytes) : PoolMember extent := Build_PoolMember (base, l) (2 ^ 30).
(** A mirror whose first child is damaged. *)
Definition sample_mirror : list (PoolMember extent) :=
  [disk (LABEL_RESERVE + 4096) (zrep 512 255); disk (LABEL_RESERVE + 4096) sample_data].
Definition mirror_topo : Topology := {| layout := Mirror [0; 1]; checksum_salt := None |}.

(** C5: Whatever the devices answer and whatever the layout, a block that a regular
    pointer reads to was decompressed from bytes of the pointer's physical size
    that match its checksum. *)
Theorem read_is_authentic {B : Build} {R} `{BlockRead R} topo r (ms ms' : list (PoolMember R)) d :
  0 <= physical_sectors r -> read_block_pointer topo (Regular r) ms = (Ok d, ms') ->
  exists raw, blen raw = 512 * physical_sectors r /\
    authentic (checksum_type r) (order r) raw (checksum_value r) (checksum_salt topo) /\
    decompress (compression r) raw (512 * logical_sectors r) = Ok d.
Proof.
  intros Hp Hr. apply (returns_read_block_pointer topo r Hp) in Hr as (raw & Hl & Ha & Hd).
  unfold SECTOR_SHIFT in *. rewrite Z.shiftl_mul_pow2, Z.mul_comm in Hl, Hd by lia. eauto.
Qed.

Lemma read_is_authentic_witness :
  exists raw, blen raw = 512 * 1 /\
    authentic (B := plain_build) ChecksumType.Fletcher4 Little raw sample_words None /\
    decompress (B := plain_build) CompressionType.Off raw (512 * 1) = Ok sample_data.
Proof.
  apply (read_is_authentic (B := plain_build) mirror_topo sample_bp sample_mirror sample_mirror sample_data).
  - vm_compute. discriminate.
  - vm_compute. reflexivity.
Defined.

(** C25: Reading any decoded pointer ends without a panic, and a block it returns has
    exactly the pointer's logical size; on RAID-Z1 the addresses must be below
    2^54 sectors. *)
Theorem read_is_total {B : Build} {BL : BuildLaws B} {R} `{BlockRead R} topo bp (ms : list (PoolMember R)) :
  Bp.bp_wf bp -> bp_addressable topo bp ->
  safe (fun d => blen d = logical_size bp /\ bytes_ok d) (fst (read_block_pointer topo bp ms)).
Proof. intros Hw Ha. exact (proj2 (hoare_read_block_pointer topo bp Hw Ha ms I)). Qed.

Lemma read_is_total_witness :
  safe (fun d => blen d = 512 /\ bytes_ok d)
    (fst (read_block_pointer (B := plain_build) mirror_topo (Regular sample_bp) sample_mirror)).
Proof.
  apply (read_is_total (B := plain_build) mirror_topo (Regular sample_bp) sample_mirror); [|exact I].
  repeat split; vm_compute; try discriminate; reflexivity.
Defined.

(** The column offset is computed modulo 2^64: addresses 2^56 apart share their
    columns on a two-disk vdev of 512-byte sectors, and just below 2^56 the
    offset of the second row overflows. *)
Theorem raidz_offset_overflows :
  (forall d psize, raidz_map {| allocated := allocated d; offset_ := offset_ d + 2 ^ 56; is_gang := is_gang d; vdev := vdev d |} 9 2 1 psize =
     raidz_map d 9 2 1 psize) /\
  raidz_map {| allocated := 1; offset_ := 2 ^ 56 - 1; is_gang := false; vdev := 0 |} 9 2 1 512 = Panic.
Proof.
  split; [|vm_compute; reflexivity]. intros d psize. unfold raidz_map. cbn [offset_].
  change (9 - 9) with 0. rewrite !Z.shiftr_0_r.
  replace (offset_ d + 2 ^ 56) with (offset_ d + 2 ^ 55 * 2) by lia.
  rewrite Z.mod_add, Z.div_add, !Z.shiftl_mul_pow2 by lia. unfold wrap.
  replace ((offset_ d / 2 + 2 ^ 55) * 2 ^ 9) with (offset_ d / 2 * 2 ^ 9 + 1 * 2 ^ 64) by lia.
  now rewrite Z.mod_add by lia.
Qed.
