(* ===== verification/Heal.v ===== *)
(** * Self-healing reads (src/vdev.rs)

    With devices that answer a read the same way each time, a mirror that has
    one copy matching the checksum always reads, and a RAID-Z1 stripe with one
    column missing or damaged always reads: the column is rebuilt as the XOR of
    the parity and the other columns.  Also the geometry of a RAID-Z1 stripe,
    and the case in which the column arithmetic overflows. *)

From S2P Require Import Prelude Errors Decoder Encoder Types Dva BlockPointer Fletcher Sha256 Cksum Compress Vdev.

Open Scope string_scope.
Open Scope Z_scope.
Open Scope list_scope.

Section static.
Context {B : Build} {R : Type} `{BlockRead R}.
Hypothesis static_reader : forall (rd : R) off n, snd (read_at rd off n) = rd.

(** What member [mi] answers. *)
Definition answer (ms : list (PoolMember R)) (mi byte len : Z) : option bytes :=
  m ← zget ms mi; fst (read_at (reader m) byte len).

Lemma member_read_static ms mi byte len v t :
  member_read mi byte len v t ms =
  (Ok (match zget ms mi with
       | None => None
       | Some _ => Some (match answer ms mi byte len with
                         | Some bs => Ok bs | None => Err (Io t v byte) end)
       end), ms).
Proof using static_reader.
  unfold member_read, answer. destruct (zget ms mi) as [m|] eqn:E; [|done]. cbn.
  pose proof (static_reader (reader m) byte len) as Hs. unfold read_exact.
  assert (Hm : <[Z.to_nat mi := Build_PoolMember (reader m) (device_size_bytes m)]> ms = ms).
  { apply list_insert_id. apply zget_lookup in E as [_ ->]. now destruct m. }
  destruct (read_at (reader m) byte len) as [[bs|] rd]; cbn in *; subst rd; now rewrite Hm.
Qed.

Context (salt : option bytes) (r : BlockPointerRegular) (psize lsize : Z).
Hypothesis psize_range : 0 <= psize <= MAX_BLOCK_LSIZE.
Context (ms : list (PoolMember R)).

Definition matches (raw : bytes) : Prop :=
  blen raw = psize /\ authentic (checksum_type r) (order r) raw (checksum_value r) salt.

(** The read ends with the decompression of bytes that match. *)
Definition heals (m : SM (list (PoolMember R)) Error bytes) : Prop :=
  exists raw, matches raw /\ m ms = (decompress (compression r) raw lsize, ms).

Lemma answer_len mi byte raw : answer ms mi byte psize = Some raw -> blen raw = psize.
Proof using psize_range.
  unfold answer. destruct (zget ms mi) as [m|]; cbn; [|done].
  destruct (read_at (reader m) byte psize) as [bs rd] eqn:E. cbn. intros ->.
  now apply read_at_len in E as [? _]; [|lia].
Qed.

Lemma verify_matches dva raw :
  blen raw = psize -> (exists u, verify_regular salt r dva raw = Ok u) <-> matches raw.
Proof using psize_range.
  intros Hl. assert (Hb : 8 * blen raw < 2 ^ 64) by (unfold MAX_BLOCK_LSIZE in *; lia).
  pose proof (verify_block_ok (checksum_type r) (order r) raw (checksum_value r) salt (vdev dva) (offset_ dva) Hb) as Hv.
  unfold matches, verify_regular. split.
  - intros [[] Hu]. split; [done|now apply Hv].
  - intros [_ Ha]. exists tt. now apply Hv.
Qed.

(** One device after the other: each either heals the read or is passed. *)
Lemma try_members_next dva byte mis last next :
  heals (try_members salt r psize lsize dva byte mis last next) \/
  (exists e, try_members salt r psize lsize dva byte mis last next ms = next e ms) /\
  (forall mi raw, mi ∈ mis -> answer ms mi byte psize = Some raw -> ~ matches raw).
Proof using static_reader psize_range.
  revert last. induction mis as [|mi mis IH]; intros last; cbn [try_members].
  { right. split; [eauto|]. intros mi raw []%not_elem_of_nil. }
  unfold heals. unfold mbind, SM_bind. rewrite member_read_static.
  assert (Hskip : forall last', (forall raw, answer ms mi byte psize = Some raw -> ~ matches raw) ->
    heals (try_members salt r psize lsize dva byte mis last' next) \/
    (exists e, try_members salt r psize lsize dva byte mis last' next ms = next e ms) /\
    (forall mi' raw, mi' ∈ mi :: mis -> answer ms mi' byte psize = Some raw -> ~ matches raw)).
  { intros last' Hno. destruct (IH last') as [Hh|[He Hn]]; [now left|right]. split; [done|].
    intros mi' raw [->|Hin]%elem_of_cons; eauto. }
  destruct (zget ms mi) as [m|] eqn:Em.
  - destruct (answer ms mi byte psize) as [raw|] eqn:Er; [|apply Hskip; done].
    pose proof (answer_len _ _ _ Er) as Hl. pose proof (verify_matches dva raw Hl) as Hv.
    destruct (verify_regular salt r dva raw) as [u|e|] eqn:Ev.
    + left. exists raw. split; [apply Hv; eauto|done].
    + apply Hskip. intros raw' [= <-] Hmat. apply Hv in Hmat as [u Hu]. done.
    + exfalso. pose proof (verify_block_safe (checksum_type r) (order r) raw (checksum_value r) salt
        (vdev dva) (offset_ dva)) as Hs. unfold verify_regular in Ev. rewrite Ev in Hs.
      apply Hs. unfold MAX_BLOCK_LSIZE in *. lia.
  - apply Hskip. intros raw Er. unfold answer in Er. rewrite Em in Er. done.
Qed.

(** One address after the other. *)
Lemma try_copies_heal mis ds last dva byte mi raw :
  dva ∈ ds -> dva_byte_offset (offset_ dva) = Some byte -> mi ∈ mis ->
  answer ms mi byte psize = Some raw -> matches raw ->
  heals (try_copies salt r psize lsize mis ds last).
Proof using static_reader psize_range.
  intros Hin Hb Hmi Ha Hm. revert last. induction ds as [|d ds IH]; intros last; [now apply not_elem_of_nil in Hin|].
  cbn [try_copies]. apply elem_of_cons in Hin as [<-|Hin].
  - rewrite Hb. destruct (try_members_next dva byte mis last
      (fun l => try_copies salt r psize lsize mis ds l)) as [Hh|[_ Hno]]; [done|]. now destruct (Hno mi raw).
  - destruct (dva_byte_offset (offset_ d)) as [byte'|]; [|auto].
    destruct (try_members_next d byte' mis last (fun l => try_copies salt r psize lsize mis ds l))
      as [Hh|[[e He] _]]; [done|]. destruct (IH Hin e) as (raw' & Hm' & E).
    exists raw'. split; [done|]. now rewrite He.
Qed.
End static.

(** ** XOR of columns *)
Definition byte_at (l : bytes) (k : nat) : Z := nth k l 0.

Lemma length_xor_into a b : length (xor_into a b) = length a.
Proof. revert b. induction a as [|x a IH]; intros [|y b]; cbn; auto. Qed.

Lemma byte_at_xor_into a b k :
  (k < length a)%nat -> byte_at (xor_into a b) k = Z.lxor (byte_at a k) (byte_at b k).
Proof.
  revert b k. induction a as [|x a IH]; intros [|y b] k Hk; cbn in *; [lia|lia|..].
  - destruct k; now rewrite Z.lxor_0_r.
  - destruct k; [done|]. apply IH. lia.
Qed.

Lemma byte_at_ext a b :
  length a = length b -> (forall k, (k < length a)%nat -> byte_at a k = byte_at b k) -> a = b.
Proof. intros Hl Hk. apply (nth_ext a b 0 0); auto. Qed.

(** The XOR of [f i], .., [f (i + n - 1)]. *)
Fixpoint xsum (f : nat -> Z) (i n : nat) : Z :=
  match n with O => 0 | S n' => Z.lxor (f i) (xsum f (S i) n') end.

Lemma xsum_ext f g i n :
  (forall j, (i <= j < i + n)%nat -> f j = g j) -> xsum f i n = xsum g i n.
Proof.
  revert i. induction n as [|n IH]; intros i Hfg; cbn [xsum]; [done|].
  rewrite (IH (S i)) by (intros; apply Hfg; lia). rewrite Hfg by lia. done.
Qed.

(** Leaving one term out of a sum and adding the whole sum gives that term. *)
Lemma xsum_except f t i n :
  (i <= t < i + n)%nat ->
  Z.lxor (xsum f i n) (xsum (fun j => if decide (j = t) then 0 else f j) i n) = f t.
Proof.
  revert i. induction n as [|n IH]; intros i Ht; cbn [xsum]; [lia|].
  destruct (decide (i = t)) as [->|].
  - rewrite Z.lxor_0_l, (xsum_ext (fun j => if decide (j = t) then 0 else f j) f).
    + now rewrite Z.lxor_assoc, Z.lxor_nilpotent, Z.lxor_0_r.
    + intros j Hj. destruct (decide (j = t)); [lia|done].
  - rewrite <- (IH (S i)) by lia.
    rewrite Z.lxor_assoc, (Z.lxor_comm (xsum f (S i) n)), !Z.lxor_assoc, <- (Z.lxor_assoc (f i)).
    rewrite Z.lxor_nilpotent, Z.lxor_0_l. apply Z.lxor_comm.
Qed.

(** ** A stripe: data columns and their parity *)

(** [want] is what the columns [cols] should hold. *)
Record striped (cols : list RaidzCol) (want : list bytes) : Prop := {
  st_length : length want = length cols;
  st_sizes : forall i col, cols !! i = Some col -> blen (nth i want []) = col_size col;
  st_parity : forall i col, cols !! i = Some col -> parity col = Nat.eqb i 0;
  st_first : forall col0 i col, cols !! 0%nat = Some col0 -> cols !! i = Some col ->
    col_size col <= col_size col0;
  st_xor : forall k, (k < length (nth 0 want []))%nat ->
    byte_at (nth 0 want []) k = xsum (fun j => byte_at (nth j want []) k) 1 (length want - 1)
}.

(** [bufs] are the columns [want] except perhaps column [bad]. *)
Definition one_bad (bufs : list (option bytes)) (want : list bytes) (bad : nat) : Prop :=
  length bufs = length want /\
  forall j, (j < length want)%nat -> j <> bad -> mjoin (bufs !! j) = Some (nth j want []).

Section stripe.
Context (cols : list RaidzCol) (want : list bytes) (bufs : list (option bytes)) (bad : nat).
Hypothesis Hst : striped cols want.
Hypothesis Hbad : one_bad bufs want bad.

(** The columns after number [i] that are XORed into the one rebuilt. *)
Definition others (k : nat) (j : nat) : Z := if decide (j = bad) then 0 else byte_at (nth j want []) k.

Lemma reconstruct_from_spec rest i rebuilt :
  (i + length rest = length want)%nat -> (0 < bad)%nat -> (0 < i)%nat ->
  exists x, reconstruct_from i rest bufs bad rebuilt = Some x /\ length x = length rebuilt /\
    forall k, (k < length rebuilt)%nat ->
      byte_at x k = Z.lxor (byte_at rebuilt k) (xsum (others k) i (length rest)).
Proof using Hbad.
  intros Hl Hb. revert i rebuilt Hl. induction rest as [|c rest IH]; intros i rebuilt Hl Hi; cbn [reconstruct_from].
  { exists rebuilt. cbn. splits; auto. intros. now rewrite Z.lxor_0_r. }
  cbn [length] in Hl. cbn [xsum length]. destruct (decide (i = 0%nat \/ i = bad)) as [[?|Heq]|Hn]; [lia|subst i|].
  - destruct (IH (S bad) rebuilt) as (x & E & Hx & Hk); [lia|lia|]. exists x. splits; auto.
    intros k Hkl. unfold others at 1. rewrite decide_True by done. rewrite Z.lxor_0_l. auto.
  - destruct Hbad as [Hbl Hbj]. rewrite (Hbj i) by (lia || tauto). cbn.
    destruct (IH (S i) (xor_into rebuilt (nth i want []))) as (x & E & Hx & Hk); [lia|lia|].
    rewrite length_xor_into in Hx, Hk. exists x. splits; auto. intros k Hkl.
    unfold others at 1. rewrite decide_False by tauto. rewrite Hk, byte_at_xor_into, Z.lxor_assoc by done. done.
Qed.

Lemma byte_at_take n l k : (k < n)%nat -> byte_at (take n l) k = byte_at l k.
Proof using.
  intros Hk. unfold byte_at. destruct (decide (k < length l)%nat).
  - rewrite <- (take_drop n l) at 2. rewrite app_nth1; [done|]. rewrite length_take. lia.
  - rewrite !nth_overflow; [done|lia|]. rewrite length_take. lia.
Qed.

(** Rebuilding the damaged column gives what it should hold. *)
Lemma reconstruct_column :
  (0 < bad < length want)%nat -> raidz1_reconstruct cols bufs bad = Some (nth bad want []).
Proof using Hst Hbad.
  intros Hb. destruct Hst as [H1 H2 H3 H4 H5]. unfold raidz1_reconstruct.
  destruct Hbad as [Hbl Hbj]. rewrite (Hbj 0%nat) by lia. cbn [mbind option_bind].
  destruct (cols !! bad) as [cb|] eqn:Ecb; [|apply lookup_ge_None in Ecb; lia].
  destruct (cols !! 0%nat) as [c0|] eqn:Ec0; [|apply lookup_ge_None in Ec0; lia].
  cbn [fmap option_fmap option_map mbind option_bind].
  pose proof (H4 _ _ _ eq_refl Ecb) as Hle. pose proof (H2 _ _ Ecb) as Sb. pose proof (H2 _ _ Ec0) as S0.
  pose proof (blen_nonneg (nth bad want [])) as Hnn.
  rewrite Z.min_l, Z.sub_diag by lia. change (zrep 0 0) with (@nil Z). rewrite app_nil_r.
  rewrite ztake_take by lia. set (p := nth 0 want []) in *. set (n := Z.to_nat (col_size cb)).
  assert (Hn : length (nth bad want []) = n) by (unfold n, blen in *; lia).
  assert (Hp : (n <= length p)%nat) by (unfold n, blen in *; lia).
  destruct cols as [|c cs] eqn:Ecols; [done|]. cbn [reconstruct_from].
  destruct (decide (0%nat = 0%nat \/ 0%nat = bad)); [|tauto].
  destruct (reconstruct_from_spec cs 1 (take n p)) as (x & E & Hx & Hk); [cbn in H1; lia|lia|lia|].
  rewrite E. f_equal. rewrite length_take in Hx, Hk. apply byte_at_ext; [lia|].
  intros k Hkl. rewrite Hk, byte_at_take by lia. unfold p. rewrite H5 by (fold p; lia).
  replace (length cs) with (length want - 1)%nat by (cbn in H1; lia).
  apply (xsum_except (fun j => byte_at (nth j want []) k) bad). lia.
Qed.

(** The data columns in order. *)
Definition stripe_data : bytes := concat (drop 1 want).

Lemma assemble_from_spec rest i ri rep :
  rest = drop i cols -> (0 < i)%nat ->
  (forall j, (i <= j < length want)%nat ->
    (if decide (Some j = ri) then rep else mjoin (bufs !! j)) = Some (nth j want [])) ->
  assemble_from i rest bufs ri rep = Some (concat (drop i want)).
Proof using Hst.
  destruct Hst as [H1 H2 H3 H4 H5]. revert i. induction rest as [|c rest IH]; intros i Hr Hi Hj; cbn [assemble_from].
  - assert (length cols <= i)%nat by (apply (f_equal length) in Hr; rewrite length_drop in Hr; cbn in Hr; lia).
    rewrite drop_ge by lia. done.
  - assert (Hc : cols !! i = Some c).
    { rewrite <- (Nat.add_0_r i), <- lookup_drop, <- Hr. done. }
    rewrite (H3 _ _ Hc). destruct (Nat.eqb_spec i 0); [lia|].
    assert (Hil : (i < length want)%nat) by (rewrite H1; eapply lookup_lt_Some; eauto).
    rewrite Hj by lia. cbn [mbind option_bind]. rewrite (IH (S i)); [|..].
    + cbn [mbind option_bind]. f_equal.
      rewrite (drop_S want (nth i want []) i); [done|].
      destruct (lookup_lt_is_Some_2 want i Hil) as [w Hw]. rewrite Hw. f_equal. symmetry.
      now apply nth_lookup_Some.
    + rewrite (drop_S cols c i Hc) in Hr. now injection Hr.
    + lia.
    + intros j Hjl. apply Hj. lia.
Qed.
End stripe.

(** ** Picking the data out of a damaged stripe *)
Section pick_heals.
Context (cols : list RaidzCol) (want : list bytes) (bufs : list (option bytes)) (bad : nat).
Hypothesis Hst : striped cols want.
Hypothesis Hbad : one_bad bufs want bad.
Context (verify : bytes -> outcome Error bool) (psize : Z).
Hypothesis psize_nonneg : 0 <= psize.
Hypothesis verify_total : forall raw, blen raw = psize -> exists b, verify raw = Ok b.
Hypothesis data_ok : psize <= blen (stripe_data want).
Hypothesis data_good : verify (ztake psize (stripe_data want)) = Ok true.
Hypothesis two_cols : (2 <= length want)%nat.

Lemma assemble_data ri rep :
  (forall j, (1 <= j < length want)%nat ->
    (if decide (Some j = ri) then rep else mjoin (bufs !! j)) = Some (nth j want [])) ->
  raidz1_assemble cols bufs psize ri rep = Some (ztake psize (stripe_data want)).
Proof using Hst data_ok two_cols.
  intros Hj. unfold raidz1_assemble.
  destruct cols as [|c cs] eqn:Ec; [destruct Hst as [Hl]; cbn in Hl; lia|].
  cbn [assemble_from]. rewrite (st_parity _ _ Hst 0%nat c) by done. cbn [Nat.eqb].
  rewrite (assemble_from_spec (c :: cs) want bufs Hst cs 1 ri rep); [|done|lia|done].
  cbn [mbind option_bind]. fold (stripe_data want).
  destruct (Z.ltb_spec (blen (stripe_data want)) psize); [lia|done].
Qed.

Abbreviation found m := (exists raw, m = Ok (Some raw) /\ verify raw = Ok true /\ blen raw = psize).

Lemma try_raw_found raw next :
  (forall w, raw = Some w -> blen w = psize) -> found next -> found (try_raw verify raw next).
Proof using verify_total.
  intros Hl Hn. destruct raw as [w|]; cbn [try_raw]; [|done]. pose proof (Hl w eq_refl) as Hw.
  destruct (verify_total w Hw) as [b Hb]. rewrite Hb. cbn. destruct b; [eauto|done].
Qed.

Lemma data_found next : found (try_raw verify (Some (ztake psize (stripe_data want))) next).
Proof using psize_nonneg data_ok data_good two_cols.
  cbn [try_raw]. rewrite data_good. cbn. eexists; splits; eauto. rewrite blen_ztake by lia. lia.
Qed.

Lemma degraded_found rest i :
  rest = drop i cols -> (i <= bad)%nat -> (0 < bad < length want)%nat ->
  found (degraded verify cols bufs psize i rest).
Proof using All.
  revert i. induction rest as [|c rest IH]; intros i Hr Hi Hb; cbn [degraded].
  { apply (f_equal length) in Hr. rewrite length_drop in Hr. cbn in Hr. rewrite (st_length _ _ Hst) in Hb. lia. }
  assert (Hc : cols !! i = Some c) by (rewrite <- (Nat.add_0_r i), <- lookup_drop, <- Hr; done).
  rewrite (st_parity _ _ Hst i c Hc).
  assert (Hnext : (i < bad)%nat -> found (degraded verify cols bufs psize (S i) rest)).
  { intros Hlt. apply IH; [|lia|lia]. rewrite (drop_S cols c i Hc) in Hr. now injection Hr. }
  destruct (Nat.eqb_spec i 0); [apply Hnext; lia|].
  destruct (decide (i = bad)) as [->|Hne].
  - rewrite (reconstruct_column cols want bufs bad Hst Hbad Hb).
    rewrite assemble_data; [apply data_found|]. intros j Hj. destruct (decide (Some j = Some bad)) as [[= ->]|Hn]; [done|].
    destruct Hbad as [_ Hbj]. apply Hbj; [lia|congruence].
  - destruct (raidz1_reconstruct cols bufs i); [|apply Hnext; lia].
    apply try_raw_found; [|apply Hnext; lia]. intros w E. eapply assemble_length; eauto.
Qed.

Lemma pick_heals : found (raidz1_pick verify cols bufs psize).
Proof using All.
  unfold raidz1_pick. destruct (decide (0 < bad < length want)%nat) as [Hb|Hb].
  - apply try_raw_found; [|apply degraded_found; auto; lia]. intros w E. eapply assemble_length; eauto.
  - rewrite assemble_data; [apply data_found|]. intros j Hj. destruct (decide _); [done|].
    destruct Hbad as [_ Hbj]. apply Hbj; lia.
Qed.
End pick_heals.

(** Whatever the columns, picking ends. *)
Lemma pick_total verify cols bufs psize :
  0 <= psize -> (forall raw, blen raw = psize -> exists b, verify raw = Ok b) ->
  exists x, raidz1_pick verify cols bufs psize = Ok x.
Proof.
  intros Hp Hv.
  assert (Htry : forall raw next, (forall w, raw = Some w -> blen w = psize) ->
    (exists x, next = Ok x) -> exists x, try_raw verify raw next = Ok x).
  { intros [w|] next Hw Hn; cbn [try_raw]; [|done]. destruct (Hv w (Hw w eq_refl)) as [[] ->]; cbn; eauto. }
  unfold raidz1_pick. apply Htry; [intros; eapply assemble_length; eauto|].
  generalize 0%nat. generalize cols at 2. intros rest.
  induction rest as [|c rest IH]; intros i; cbn [degraded]; [eauto|].
  destruct (parity c); [apply IH|]. destruct (raidz1_reconstruct cols bufs i); [|apply IH].
  apply Htry; [intros; eapply assemble_length; eauto | apply IH].
Qed.

(** ** Geometry *)
Lemma mapM_outcome_ok {E A C} (f : A -> outcome E C) l ys :
  mapM_outcome f l = Ok ys -> Forall2 (fun a y => f a = Ok y) l ys.
Proof.
  revert ys. induction l as [|a l IH]; intros ys; cbn [mapM_outcome]; [intros [= <-]; constructor|].
  intros (y & Hy & (ys' & Hys & [= <-])%outcome_bind_ok)%outcome_bind_ok. constructor; auto.
Qed.

Definition zsum (l : list Z) : Z := foldr Z.add 0 l.

Lemma zsum_steps A D bc k n :
  zsum ((fun c => if c <? bc then A + D else A) <$> (Z.of_nat <$> seq k n)) =
  A * Z.of_nat n + D * Z.max 0 (Z.min (Z.of_nat n) (bc - Z.of_nat k)).
Proof.
  revert k. induction n as [|n IH]; intros k.
  { replace (Z.max 0 (Z.min (Z.of_nat 0) (bc - Z.of_nat k))) with 0 by lia. cbn [seq fmap list_fmap zsum foldr]. lia. }
  cbn [seq fmap list_fmap]. change (zsum (?x :: ?l)) with (x + zsum l). rewrite IH.
  set (m := Z.max 0 (Z.min (Z.of_nat n) (bc - Z.of_nat (S k)))).
  destruct (Z.ltb_spec (Z.of_nat k) bc).
  - replace (Z.max 0 _) with (1 + m) by (unfold m; lia). lia.
  - replace (Z.max 0 _) with 0 by lia. replace m with 0 by (unfold m; lia). lia.
Qed.

(** What [raidz_map] computes. *)
Lemma raidz_map_cols dva ashift dcols psize cols :
  raidz_map dva ashift dcols 1 psize = Ok cols ->
  exists f o q bc acols,
    let secsize := 2 ^ ashift in
    let s := (psize + secsize - 1) / secsize in
    1 < dcols /\ 9 <= ashift <= 16 /\ s <> 0 /\ 0 <= f < dcols /\
    q = s / (dcols - 1) /\
    bc = (if s - q * (dcols - 1) =? 0 then 0 else s - q * (dcols - 1) + 1) /\
    acols = (if q =? 0 then bc else dcols) /\
    Forall2 (fun c col =>
      devidx col = (if dcols <=? f + c then f + c - dcols else f + c) /\
      col_offset col = (if dcols <=? f + c then o + secsize else o) /\
      col_size col = (if c <? bc then (q + 1) * secsize else q * secsize) /\
      parity col = (c <? 1)) (Z.of_nat <$> seq 0 (Z.to_nat acols)) cols.
Proof.
  unfold raidz_map. rewrite Z.shiftl_1_l.
  destruct ((dcols <=? 1) || negb ((9 <=? ashift) && (ashift <=? ASHIFT_MAX))) eqn:Eg; [done|].
  cbn [guard_err mbind outcome_bind].
  apply orb_false_iff in Eg as [Hd Ha]. apply Z.leb_gt in Hd.
  apply negb_false_iff, andb_true_iff in Ha as [Ha1%Z.leb_le Ha2%Z.leb_le]. unfold ASHIFT_MAX in Ha2.
  rewrite !(shiftr_div _ ashift) by lia. set (s := (psize + 2 ^ ashift - 1) / 2 ^ ashift).
  destruct (Z.eqb_spec s 0); [done|]. cbn [guard_err mbind outcome_bind].
  set (b := Z.shiftr _ _). set (o := wrap 64 _). intros H%mapM_outcome_ok.
  exists (b mod dcols), o, (s / (dcols - 1)), (if s - s / (dcols - 1) * (dcols - 1) =? 0 then 0 else s - s / (dcols - 1) * (dcols - 1) + 1).
  eexists. cbv zeta. splits; try reflexivity; try lia; try apply Z.mod_pos_bound; try lia.
  eapply Forall2_impl; [exact H|]. intros c col. unfold raidz_col.
  destruct (dcols <=? b mod dcols + c).
  - unfold checked_add. destruct (o + 2 ^ ashift <? 2 ^ 64); cbn; [|done]. intros [= <-]. cbn. auto.
  - cbn. intros [= <-]. cbn. auto.
Qed.

Lemma Forall2_proj {A C D} (h : C -> D) (g : A -> D) l ys :
  Forall2 (fun a y => h y = g a) l ys -> h <$> ys = g <$> l.
Proof. induction 1; csimpl; congruence. Qed.

(** The shape of a stripe of [psize] bytes over [dcols] devices. *)
Record stripe_shape (ashift dcols psize : Z) (cols : list RaidzCol) : Prop := {
  sh_width : 2 <= blen cols <= dcols;
  sh_parity : forall i col, cols !! i = Some col -> parity col = Nat.eqb i 0;
  sh_dev : Forall (fun col => 0 <= devidx col < dcols) cols;
  sh_distinct : NoDup (devidx <$> cols);
  sh_first : forall col0 i col, cols !! 0%nat = Some col0 -> cols !! i = Some col ->
    col_size col <= col_size col0;
  sh_sectors : Forall (fun col => 0 < col_size col /\ (2 ^ ashift | col_size col)) cols;
  sh_total : psize <= zsum (col_size <$> drop 1 cols) < psize + 2 ^ ashift
}.

Section geometry.
Context (dva : Dva_t) (ashift dcols psize : Z) (cols : list RaidzCol).
Hypothesis psize_pos : 0 < psize.
Hypothesis Hmap : raidz_map dva ashift dcols 1 psize = Ok cols.

(** The number of sectors, of whole rows, and of columns with one sector more. *)
Lemma stripe_counts :
  let sec := 2 ^ ashift in
  exists f q bc acols s,
    0 < sec /\ 0 <= f < dcols /\ psize <= s * sec < psize + sec /\ 2 <= acols <= dcols /\
    ((q = 0 /\ bc = s + 1 /\ acols = s + 1) \/
     (0 < q /\ acols = dcols /\
      (s = (dcols - 1) * q /\ bc = 0 \/ 1 < bc < dcols /\ s = (dcols - 1) * q + (bc - 1)))) /\
    Forall2 (fun c col =>
      devidx col = (if dcols <=? f + c then f + c - dcols else f + c) /\
      col_size col = (if c <? bc then (q + 1) * sec else q * sec) /\
      parity col = (c <? 1)) (Z.of_nat <$> seq 0 (Z.to_nat acols)) cols.
Proof using All.
  apply raidz_map_cols in Hmap as (f & o & q & bc & acols & Hd & Ha & Hs & Hf & Hq & Hbc & Hac & HF).
  cbv zeta. set (sec := 2 ^ ashift) in *. assert (Hsec : 0 < sec) by (unfold sec; lia).
  set (s := (psize + sec - 1) / sec) in *.
  assert (Hs1 : psize <= s * sec < psize + sec).
  { pose proof (Z.div_mod (psize + sec - 1) sec ltac:(lia)). fold s in H.
    pose proof (Z.mod_pos_bound (psize + sec - 1) sec Hsec). lia. }
  assert (Hs0 : 0 < s) by nia.
  pose proof (Z.div_mod s (dcols - 1) ltac:(lia)) as Hqr. rewrite <- Hq in Hqr.
  pose proof (Z.mod_pos_bound s (dcols - 1) ltac:(lia)) as Hr. set (r := s mod (dcols - 1)) in *.
  replace (s - q * (dcols - 1)) with r in Hbc by lia.
  assert (Hq0 : 0 <= q) by (rewrite Hq; apply Z.div_pos; lia).
  assert (Hcases : (q = 0 /\ r = s /\ bc = s + 1 /\ acols = s + 1 /\ s < dcols - 1) \/
    (0 < q /\ acols = dcols /\ (r = 0 /\ bc = 0 \/ 0 < r /\ bc = r + 1))).
  { destruct (Z.eqb_spec q 0) as [Eq|]; [left; rewrite Eq in *|right]; destruct (Z.eqb_spec r 0); lia. }
  exists f, q, bc, acols, s. splits; try done; try lia.
  - eapply Forall2_impl; [exact HF|]. tauto.
Qed.
Lemma geometry : stripe_shape ashift dcols psize cols.
Proof using All.
  destruct stripe_counts as (f & q & bc & acols & s & Hsec & Hf & Hs1 & Hal & Hcases & HF). set (sec := 2 ^ ashift) in *.
  assert (Hlen : blen cols = acols).
  { apply Forall2_length in HF. rewrite length_fmap, length_seq in HF. unfold blen. lia. }
  assert (Hlk : forall i col, cols !! i = Some col -> (Z.of_nat i < acols) /\
    devidx col = (if dcols <=? f + Z.of_nat i then f + Z.of_nat i - dcols else f + Z.of_nat i) /\
    col_size col = (if Z.of_nat i <? bc then (q + 1) * sec else q * sec) /\
    parity col = (Z.of_nat i <? 1)).
  { intros i col Hi. split; [apply lookup_lt_Some in Hi; unfold blen in Hlen; lia|].
    destruct (Forall2_lookup_r _ _ _ _ _ HF Hi) as (c & Hc & H1 & H2 & H3).
    rewrite list_lookup_fmap in Hc. destruct (seq 0 (Z.to_nat acols) !! i) as [x|] eqn:Ex; [|done].
    apply lookup_seq in Ex as [-> _]. injection Hc as <-. auto. }
  constructor.
  - lia.
  - intros i col Hi. destruct (Hlk i col Hi) as (_ & _ & _ & ->).
    destruct (Z.ltb_spec (Z.of_nat i) 1), (Nat.eqb_spec i 0); lia || done.
  - apply Forall_lookup. intros i col Hi. destruct (Hlk i col Hi) as (Hi' & -> & _).
    destruct (Z.leb_spec dcols (f + Z.of_nat i)); lia.
  - apply NoDup_alt. intros i j x Hi Hj. rewrite list_lookup_fmap in Hi, Hj.
    destruct (cols !! i) as [ci|] eqn:Ei; [|done]. destruct (cols !! j) as [cj|] eqn:Ej; [|done].
    injection Hi as Hi. injection Hj as Hj. destruct (Hlk i ci Ei) as (Hia & Hid & _).
    destruct (Hlk j cj Ej) as (Hja & Hjd & _).
    destruct (Z.leb_spec dcols (f + Z.of_nat i)), (Z.leb_spec dcols (f + Z.of_nat j)); lia.
  - intros col0 i col H0 Hi. destruct (Hlk _ _ H0) as (_ & _ & -> & _).
    destruct (Hlk _ _ Hi) as (Hi' & _ & -> & _).
    destruct (Z.ltb_spec (Z.of_nat i) bc), (Z.ltb_spec (Z.of_nat 0) bc); nia.
  - apply Forall_lookup. intros i col Hi. destruct (Hlk i col Hi) as (Hi' & _ & -> & _).
    destruct (Z.ltb_spec (Z.of_nat i) bc); (split; [nia|]); eexists; reflexivity.
  - assert (Hsum : zsum (col_size <$> drop 1 cols) = s * sec); [|lia].
    rewrite fmap_drop, (Forall2_proj col_size (fun c => if c <? bc then q * sec + sec else q * sec)
      (Z.of_nat <$> seq 0 (Z.to_nat acols)) cols).
    2: { eapply Forall2_impl; [exact HF|]. intros c col (_ & -> & _). destruct (c <? bc); lia. }
    rewrite <- fmap_drop, <- fmap_drop.
    replace (drop 1 (seq 0 (Z.to_nat acols))) with (seq 1 (Z.to_nat (acols - 1))).
    2: { replace (Z.to_nat acols) with (S (Z.to_nat (acols - 1))) by lia. done. }
    rewrite zsum_steps, Z2Nat.id by lia. nia.
Qed.
End geometry.

(** ** Reads through RAID-Z1 *)
Section raidz_static.
Context {B : Build} {BL : BuildLaws B} {R : Type} `{BlockRead R}.
Hypothesis static_reader : forall (rd : R) off n, snd (read_at rd off n) = rd.
Context (ms : list (PoolMember R)) (children : list (option Z)).

(** What a column reads to. *)
Definition col_answer (col : RaidzCol) : option bytes :=
  mi ← mjoin (zget children (devidx col));
  byte ← checked_add 64 LABEL_RESERVE (col_offset col);
  answer ms mi byte (col_size col).

Lemma read_columns_static v cols :
  raidz1_read_columns children v cols ms = (Ok (col_answer <$> cols), ms).
Proof using static_reader.
  induction cols as [|c cols IH]; cbn [raidz1_read_columns]; [done|].
  assert (Hc : raidz1_read_column children v c ms = (Ok (col_answer c), ms)).
  { unfold raidz1_read_column, col_answer. destruct (mjoin _) as [mi|]; [|done].
    destruct (checked_add _ _ _) as [byte|]; [|done]. unfold mbind, SM_bind.
    rewrite member_read_static by done. unfold answer. cbn. destruct (zget ms mi) as [m|]; [|done].
    cbn. now destruct (fst _). }
  unfold mbind, SM_bind. now rewrite Hc, IH.
Qed.

Context (salt : option bytes) (r : BlockPointerRegular) (psize lsize ashift : Z).
Hypothesis psize_range : 0 < psize <= MAX_BLOCK_LSIZE.

(** A stripe of the right shape whose data matches the pointer, with at most
    one column that does not read to what it should. *)
Definition recoverable (dva : Dva_t) : Prop :=
  exists cols want bad,
    raidz_map dva ashift (blen children) 1 psize = Ok cols /\
    length want = length cols /\
    (forall i col, cols !! i = Some col -> blen (nth i want []) = col_size col) /\
    (forall k, (k < length (nth 0 want []))%nat ->
      byte_at (nth 0 want []) k = xsum (fun j => byte_at (nth j want []) k) 1 (length want - 1)) /\
    (forall i col, cols !! i = Some col -> i <> bad -> col_answer col = Some (nth i want [])) /\
    matches salt r psize (ztake psize (stripe_data want)).

Lemma verify_total dva raw :
  blen raw = psize -> exists b, is_ok (F := Error) (verify_regular salt r dva raw) = Ok b.
Proof using psize_range.
  intros Hl. pose proof (verify_block_safe (checksum_type r) (order r) raw (checksum_value r) salt
    (vdev dva) (offset_ dva)) as Hs. unfold verify_regular.
  destruct (verify_block _ _ _ _ _ _ _); cbn in *; [eauto|eauto|].
  destruct Hs. unfold MAX_BLOCK_LSIZE in *. lia.
Qed.

Lemma is_ok_matches dva raw :
  blen raw = psize -> is_ok (F := Error) (verify_regular salt r dva raw) = Ok true <-> matches salt r psize raw.
Proof using psize_range.
  intros Hl. rewrite <- (verify_matches salt r psize ltac:(lia) dva raw Hl). split; [apply is_ok_true|].
  now intros [u ->].
Qed.

Lemma zsum_drop_length want (cols : list RaidzCol) :
  length want = length cols ->
  (forall i col, cols !! i = Some col -> blen (nth i want []) = col_size col) ->
  blen (stripe_data want) = zsum (col_size <$> drop 1 cols).
Proof using.
  intros Hl Hs. unfold stripe_data.
  assert (Hgen : forall (w : list bytes) (cs : list RaidzCol), length w = length cs ->
    (forall i col, cs !! i = Some col -> blen (nth i w []) = col_size col) ->
    blen (concat w) = zsum (col_size <$> cs)).
  { intros w. induction w as [|x w IH]; intros [|c cs] Hlw Hsw; try done. cbn [concat fmap list_fmap].
    rewrite blen_app. change (zsum (?a :: ?l)) with (a + zsum l). rewrite (IH cs).
    - pose proof (Hsw 0%nat c eq_refl) as H0. cbn in H0. lia.
    - cbn in Hlw. lia.
    - intros i col Hi. apply (Hsw (S i) col Hi). }
  destruct want as [|x want], cols as [|c cols]; try done.
  cbn [drop]. rewrite !drop_0. apply Hgen.
  - cbn in Hl. lia.
  - intros i col Hi. apply (Hs (S i) col Hi).
Qed.

Lemma raidz1_copies_heal ds last dva :
  dva ∈ ds -> recoverable dva -> Forall (fun d => 0 <= offset_ d < 2 ^ 54) ds ->
  heals salt r psize lsize ms (raidz1_copies children ashift salt r psize lsize ds last).
Proof using All.
  intros Hin (cols & want & bad & Hmap & Hwl & Hws & Hwx & Hwa & Hm) Hds. revert last.
  assert (Hp0 : 0 <= psize <= MAX_BLOCK_LSIZE) by lia.
  induction Hds as [|d ds Hd Hds IH]; intros last; [now apply not_elem_of_nil in Hin|].
  cbn [raidz1_copies]. unfold heals, sm_catch, sm_lift.
  set (ver := fun raw => is_ok (F := Error) (verify_regular salt r d raw)).
  pose proof (raidz_map_safe d ashift (blen children) psize Hd ltac:(lia)) as Hsafe.
  destruct (raidz_map d ashift (blen children) 1 psize) as [cs|e|] eqn:Ecs; [|..|done].
  - unfold mbind, SM_bind. rewrite read_columns_static.
    destruct (pick_total ver cs (col_answer <$> cs) psize) as [x Hx]; [lia|apply verify_total|].
    rewrite Hx. destruct x as [raw|].
    + exists raw. split; [|done]. destruct (pick_good psize Hp0 _ _ _ _ Hx raw eq_refl) as [Hl Hv].
      now apply is_ok_matches in Hv.
    + apply elem_of_cons in Hin as [<-|Hin]; [|now apply IH].
      rewrite Ecs in Hmap. injection Hmap as ->. exfalso.
      assert (Hsh : stripe_shape ashift (blen children) psize cols) by (apply (geometry dva); [lia|done]).
      assert (Hst : striped cols want) by (destruct Hsh; constructor; auto).
      assert (Hob : one_bad (col_answer <$> cols) want bad).
      { split; [now rewrite length_fmap|]. intros j Hj Hne. rewrite list_lookup_fmap.
        destruct (lookup_lt_is_Some_2 cols j) as [c Hc]; [lia|]. rewrite Hc. cbn. now apply Hwa. }
      destruct (pick_heals cols want (col_answer <$> cols) bad Hst Hob ver psize) as (raw & E & _);
        [lia|apply verify_total| | | |congruence].
      * rewrite (zsum_drop_length want cols) by done. apply Hsh.
      * apply is_ok_matches; [apply Hm|exact Hm].
      * destruct Hsh as [Hw _ _ _ _ _ _]. unfold blen in Hw. lia.
  - apply elem_of_cons in Hin as [<-|Hin]; [congruence|now apply IH].
Qed.
End raidz_static.

(** ** What reading promises *)

(** C9: A mirror (or a single disk) with one address and one child whose bytes match
    the checksum reads to the decompression of matching bytes: damaged, missing
    and failing children before it are passed over. *)
Theorem mirror_heals {B : Build} {R} `{BlockRead R} topo r (ms : list (PoolMember R)) dva byte mi raw :
  (forall (rd : R) off n, snd (read_at rd off n) = rd) ->
  (forall ch ash, layout topo <> RaidZ1 ch ash) ->
  0 < physical_sectors r <= 2 ^ 15 -> check_dvas (present_dvas r) = Ok tt ->
  dva ∈ present_dvas r -> dva_byte_offset (offset_ dva) = Some byte -> mi ∈ read_order topo ->
  answer ms mi byte (512 * physical_sectors r) = Some raw ->
  authentic (checksum_type r) (order r) raw (checksum_value r) (checksum_salt topo) ->
  exists raw', authentic (checksum_type r) (order r) raw' (checksum_value r) (checksum_salt topo) /\
    read_block_pointer topo (Regular r) ms = (decompress (compression r) raw' (512 * logical_sectors r), ms).
Proof.
  intros Hst Hl Hp Hc Hin Hb Hmi Ha Hau. cbn [read_block_pointer].
  unfold SECTOR_SHIFT. rewrite !Z.shiftl_mul_pow2, !(Z.mul_comm _ (2 ^ 9)) by lia. change (2 ^ 9) with 512.
  assert (Hps : 0 <= 512 * physical_sectors r <= MAX_BLOCK_LSIZE) by (unfold MAX_BLOCK_LSIZE; lia).
  unfold mbind, SM_bind, sm_guard, sm_lift. destruct (Z.eqb_spec (512 * physical_sectors r) 0); [lia|].
  destruct (Z.ltb_spec MAX_BLOCK_LSIZE (512 * physical_sectors r)); [lia|]. cbn [orb guard_err]. rewrite Hc.
  assert (Hh : heals (checksum_salt topo) r (512 * physical_sectors r) (512 * logical_sectors r) ms
    (try_copies (checksum_salt topo) r (512 * physical_sectors r) (512 * logical_sectors r)
      (read_order topo) (present_dvas r) (Inconsistent "bp_no_readable_copy" LMos))).
  { eapply (try_copies_heal Hst _ _ _ _ Hps); eauto. split; [|done].
    eapply answer_len; [exact Hps|exact Ha]. }
  destruct Hh as (raw' & [_ Hm] & Hr). exists raw'. split; [done|].
  destruct (layout topo) as [| |ch ash]; [done..|]. now destruct (Hl ch ash).
Qed.

Lemma mirror_heals_witness :
  exists raw', authentic (B := plain_build) ChecksumType.Fletcher4 Little raw' sample_words None /\
    read_block_pointer (B := plain_build) mirror_topo (Regular sample_bp) sample_mirror =
    (decompress (B := plain_build) CompressionType.Off raw' 512, sample_mirror).
Proof.
  apply (mirror_heals (B := plain_build) mirror_topo sample_bp sample_mirror sample_dva
    (LABEL_RESERVE + 4096) 1 sample_data extent_static); try (vm_compute; reflexivity).
  - intros ch ash. discriminate.
  - cbn. lia.
  - apply list_elem_of_In. cbn. auto.
  - apply list_elem_of_In. cbn. auto.
  - right. vm_compute. reflexivity.
Defined.


(** A stripe of two data sectors over three disks, the first of which is
    absent. *)
Definition raidz_data : bytes := (fun n => Z.of_nat n mod 253) <$> seq 0 1024.
Definition raidz_want : list bytes :=
  [xor_into (take 512 raidz_data) (drop 512 raidz_data); take 512 raidz_data; drop 512 raidz_data].
Definition raidz_words : ChecksumValue := Eval vm_compute in
  match Fletcher2.one_pass Little raidz_data with [a; b; c; d] => (a, b, c, d) | _ => (0, 0, 0, 0) end.
Definition raidz_bp : BlockPointerRegular := {|
  checksum_type := ChecksumType.Fletcher2; checksum_value := raidz_words;
  compression := CompressionType.Off; dedup := false; dmu := DmuType.PlainFileContents;
  dva0 := Some sample_dva; dva1 := None; dva2 := None; order := Little; fill_count := 1; level := 0;
  logical_birth_txg := 7; logical_sectors := 2; physical_birth_txg := 7; physical_sectors := 2 |}.
Definition raidz_children : list (option Z) := [None; Some 0; Some 1].
Definition raidz_topo : Topology := {| layout := RaidZ1 raidz_children 9; checksum_salt := None |}.
Definition raidz_disks : list (PoolMember extent) :=
  [disk (LABEL_RESERVE + 1536) (nth 2 raidz_want []); disk (LABEL_RESERVE + 1024) (nth 0 raidz_want [])].

(** The parity of a stripe, checked byte by byte. *)
Definition parity_ok (want : list bytes) : bool :=
  forallb (fun k => byte_at (nth 0 want []) k =? xsum (fun j => byte_at (nth j want []) k) 1 (length want - 1))
    (seq 0 (length (nth 0 want []))).
Lemma parity_ok_spec want :
  parity_ok want = true -> forall k, (k < length (nth 0 want []))%nat ->
  byte_at (nth 0 want []) k = xsum (fun j => byte_at (nth j want []) k) 1 (length want - 1).
Proof.
  unfold parity_ok. rewrite forallb_forall. intros Hp k Hk. apply Z.eqb_eq, Hp, in_seq. lia.
Qed.

Lemma raidz_sample_recoverable :
  recoverable (B := plain_build) raidz_disks raidz_children None raidz_bp 1024 9 sample_dva.
Proof.
  eexists _, raidz_want, 1%nat. split; [vm_compute; reflexivity|]. split; [reflexivity|].
  split; [|split; [|split]].
  - intros [|[|[|i]]] col Hc; [| | |done]; injection Hc as <-; vm_compute; reflexivity.
  - apply parity_ok_spec. vm_compute. reflexivity.
  - intros [|[|[|i]]] col Hc Hn; [| | |done]; injection Hc as <-; [|done|]; vm_compute; reflexivity.
  - split; [vm_compute; reflexivity|]. right. vm_compute. reflexivity.
Qed.


(** C29: The geometry of a stripe: one parity column, first; distinct devices of the
    pool; whole sectors, none larger than the parity; and data columns that
    together hold the block with less than a sector to spare. *)
Theorem raidz_map_geometry dva ashift dcols psize cols :
  0 < psize -> raidz_map dva ashift dcols 1 psize = Ok cols -> stripe_shape ashift dcols psize cols.
Proof. apply geometry. Qed.

Lemma raidz_map_geometry_witness :
  stripe_shape 12 4 20000
    (match raidz_map sample_dva 12 4 1 20000 with Ok cols => cols | _ => [] end).
Proof. apply (raidz_map_geometry sample_dva 12 4 20000); [lia|]. vm_compute. reflexivity. Defined.
