(* ===== verification/Dnode.v ===== *)
(** * Dnodes (src/phys/dnode.rs)

    The 512-byte dnode: its header, the five tails with their pointers and
    bonus area, decoder and encoder.  Decoding never panics and returns
    well-formed pointers and a bonus length that fits its area, which the file
    and directory layers rely on; a dnode laid out field by field decodes to
    itself; the encoder cannot succeed with an endian encoder. *)

From S2P Require Import Prelude Decoder Encoder Codec Types Dva BlockPointer.

Inductive DnodeUsed : Type := UsedBytes (n : Z) | UsedSectors (n : Z).

Inductive DnodeTail : Type :=
| TailZero (bonus : bytes)
| TailOne (p0 : option BlockPointer) (bonus : bytes)
| TailTwo (p0 p1 : option BlockPointer) (bonus : bytes)
| TailThree (p0 p1 p2 : option BlockPointer) (bonus : bytes)
| TailSpill (p0 : option BlockPointer) (bonus : bytes) (spill : option BlockPointer).

Record Dnode : Type := {
  bonus_len : Z;
  bonus_type : DmuType.t;
  dn_checksum : ChecksumType.t;
  dn_compression : CompressionType.t;
  data_block_size_sectors : Z;
  extra_slots : Z;
  dn_dmu : DmuType.t;
  indirect_block_shift : Z;
  levels : Z;
  max_block_id : Z;
  tail : DnodeTail;
  used : DnodeUsed;
  user_obj_used_accounted : bool;
  user_used_accounted : bool
}.

Module Dn.

Definition SIZE : Z := 512.
Definition ZERO_BONUS_SIZE : Z := 448.
Definition ONE_BONUS_SIZE : Z := ZERO_BONUS_SIZE - Bp.SIZE.
Definition TWO_BONUS_SIZE : Z := ONE_BONUS_SIZE - Bp.SIZE.
Definition THREE_BONUS_SIZE : Z := TWO_BONUS_SIZE - Bp.SIZE.
Definition SPILL_BONUS_SIZE : Z := ONE_BONUS_SIZE - Bp.SIZE.
Definition PADDING_SIZE_A : Z := 3.
Definition PADDING_SIZE_B : Z := 32.
Definition FLAG_USED_BYTES : Z := Z.shiftl 1 0.
Definition FLAG_USER_USED_ACCOUNTED : Z := Z.shiftl 1 1.
Definition FLAG_BLOCK_POINTER : Z := Z.shiftl 1 2.
Definition FLAG_USER_OBJ_USED_ACCOUNTED : Z := Z.shiftl 1 3.
Definition FLAG_ALL : Z :=
  Z.lor (Z.lor (Z.lor FLAG_USED_BYTES FLAG_USER_USED_ACCOUNTED) FLAG_BLOCK_POINTER)
    FLAG_USER_OBJ_USED_ACCOUNTED.

Inductive DecodeError : Type :=
| DBinary (e : BinaryDecodeError)
| DBlockPointer (e : Bp.DecodeError)
| DBlockPointerCount (count : Z)
| DBonusLength (length : Z)
| DChecksumType (c : Z)
| DCompressionType (c : Z)
| DDmuType (c : Z)
| DFlags (flags : Z)
| DSpillBlockPointerCount (count : Z).

Inductive EncodeError : Type :=
| EBinary (e : BinaryEncodeError)
| EBlockPointer (e : Bp.EncodeError)
| EBonusLength (length : Z).

(** [flags & FLAG != 0] *)
Definition has_flag (flags flag : Z) : bool := negb (Z.land flags flag =? 0).

Definition pointers_of (t : DnodeTail) : list (option BlockPointer) :=
  match t with
  | TailZero _ => []
  | TailOne p0 _ | TailSpill p0 _ _ => [p0]
  | TailTwo p0 p1 _ => [p0; p1]
  | TailThree p0 p1 p2 _ => [p0; p1; p2]
  end.
Definition pointers (d : Dnode) : list (option BlockPointer) := pointers_of (tail d).

Definition bonus_of (t : DnodeTail) : bytes :=
  match t with
  | TailZero b | TailOne _ b | TailTwo _ _ b | TailThree _ _ _ b | TailSpill _ b _ => b
  end.
Definition bonus_capacity (d : Dnode) : bytes := bonus_of (tail d).

(** [&tail.bonus[0..self.bonus_len]]: a panic when the length does not fit. *)
Definition bonus_used {E} (d : Dnode) : outcome E bytes :=
  unwrap (get_range (bonus_capacity d) 0 (bonus_len d)).

Section decode.
Context {BD : BinaryDecoder}.
Abbreviation D := (SM BinaryDecoderBuffer DecodeError).
Definition u8 : D Z := sm_map_err DBinary get_u8.
Definition u16 : D Z := sm_map_err DBinary get_u16.
Definition u64 : D Z := sm_map_err DBinary get_u64.
Definition bonus (n : Z) : D bytes := sm_map_err DBinary (get_bytes_n n).
Definition bp : D (option BlockPointer) := sm_map_err DBlockPointer Bp.from_decoder.

Definition tail_from_decoder (block_pointers_n : Z) (is_spill : bool) : D DnodeTail :=
  match block_pointers_n with
  | 0 => b ← bonus ZERO_BONUS_SIZE; mret (TailZero b)
  | 1 =>
      if is_spill then
        p0 ← bp; b ← bonus SPILL_BONUS_SIZE; s ← bp; mret (TailSpill p0 b s)
      else p0 ← bp; b ← bonus ONE_BONUS_SIZE; mret (TailOne p0 b)
  | 2 => p0 ← bp; p1 ← bp; b ← bonus TWO_BONUS_SIZE; mret (TailTwo p0 p1 b)
  | 3 => p0 ← bp; p1 ← bp; p2 ← bp; b ← bonus THREE_BONUS_SIZE; mret (TailThree p0 p1 p2 b)
  | count => sm_err (DBlockPointerCount count)
  end.

(** The fields after the emptiness check. *)
Definition body_from_decoder : D Dnode :=
  c_dmu ← u8;
  dmu ← sm_lift (map_err DDmuType (DmuType.try_from c_dmu));
  indirect_block_shift ← u8;
  levels ← u8;
  block_pointers_n ← u8;
  c_bonus ← u8;
  bonus_type ← sm_lift (map_err DDmuType (DmuType.try_from c_bonus));
  c_checksum ← u8;
  checksum ← sm_lift (map_err DChecksumType (ChecksumType.try_from c_checksum));
  c_compression ← u8;
  compression ← sm_lift (map_err DCompressionType (CompressionType.try_from c_compression));
  flags ← u8;
  sm_guard (negb (Z.land flags FLAG_ALL =? flags)) (DFlags flags);;
  let is_spill := has_flag flags FLAG_BLOCK_POINTER in
  sm_guard (is_spill && negb (block_pointers_n =? 1)) (DSpillBlockPointerCount block_pointers_n);;
  data_block_size_sectors ← u16;
  bonus_len ← u16;
  extra_slots ← u8;
  sm_map_err DBinary (d_skip_zeros PADDING_SIZE_A);;
  max_block_id ← u64;
  used ← u64;
  let used := if has_flag flags FLAG_USED_BYTES then UsedBytes used else UsedSectors used in
  sm_map_err DBinary (d_skip_zeros PADDING_SIZE_B);;
  tail ← tail_from_decoder block_pointers_n is_spill;
  sm_guard (blen (bonus_of tail) <? bonus_len) (DBonusLength bonus_len);;
  mret {|
    bonus_len := bonus_len; bonus_type := bonus_type; dn_checksum := checksum;
    dn_compression := compression; data_block_size_sectors := data_block_size_sectors;
    extra_slots := extra_slots; dn_dmu := dmu; indirect_block_shift := indirect_block_shift;
    levels := levels; max_block_id := max_block_id; tail := tail; used := used;
    user_obj_used_accounted := has_flag flags FLAG_USER_OBJ_USED_ACCOUNTED;
    user_used_accounted := has_flag flags FLAG_USER_USED_ACCOUNTED
  |}.

Definition from_decoder : D (option Dnode) :=
  empty ← sm_map_err DBinary (d_is_skip_zeros SIZE);
  if (empty : bool) then mret None else d ← body_from_decoder; mret (Some d).
End decode.

Definition flags_of (d : Dnode) : Z :=
  Z.lor (Z.lor (Z.lor
    (match used d with UsedBytes _ => FLAG_USED_BYTES | _ => 0 end)
    (if user_used_accounted d then FLAG_USER_USED_ACCOUNTED else 0))
    (if user_obj_used_accounted d then FLAG_USER_OBJ_USED_ACCOUNTED else 0))
    (match tail d with TailSpill _ _ _ => FLAG_BLOCK_POINTER | _ => 0 end).

Section encode.
Context {BE : BinaryEncoder}.
Abbreviation W := (SM BinaryEncoderBuffer EncodeError).
Definition pu8 (x : Z) : W unit := sm_map_err EBinary (put_u8 x).
Definition pu16 (x : Z) : W unit := sm_map_err EBinary (put_u16 x).
Definition pu64 (x : Z) : W unit := sm_map_err EBinary (put_u64 x).
Definition zeros (n : Z) : W unit := sm_map_err EBinary (put_zeros n).
Definition put_ptr (p : option BlockPointer) : W unit :=
  sm_map_err EBlockPointer
    (match p with Some p => Bp.to_encoder p | None => Bp.empty_to_encoder end).
Fixpoint put_ptrs (ps : list (option BlockPointer)) : W unit :=
  match ps with [] => mret tt | p :: ps' => put_ptr p;; put_ptrs ps' end.

Definition to_encoder (d : Dnode) : W unit :=
  pu8 (DmuType.into_u8 (dn_dmu d));;
  pu8 (indirect_block_shift d);;
  pu8 (levels d);;
  pu8 (wrap 8 (blen (pointers d)));;
  pu8 (DmuType.into_u8 (bonus_type d));;
  pu8 (ChecksumType.into_u8 (dn_checksum d));;
  pu8 (CompressionType.into_u8 (dn_compression d));;
  pu8 (flags_of d);;
  pu16 (data_block_size_sectors d);;
  sm_guard (blen (bonus_capacity d) <? bonus_len d) (EBonusLength (bonus_len d));;
  pu16 (wrap 16 (bonus_len d));;
  pu8 (extra_slots d);;
  zeros PADDING_SIZE_A;;
  pu64 (max_block_id d);;
  pu64 (match used d with UsedBytes v => v | UsedSectors v => v end);;
  zeros PADDING_SIZE_B;;
  put_ptrs (pointers d);;
  sm_map_err EBinary (put_bytes (bonus_capacity d));;
  match tail d with
  | TailSpill _ _ spill => put_ptr spill
  | _ => mret tt
  end.

Definition empty_to_encoder : W unit := zeros SIZE.
Definition option_to_encoder (d : option Dnode) : W unit :=
  match d with Some v => to_encoder v | None => empty_to_encoder end.
End encode.

(** ** Decoding is total and in range *)
Definition ptr_wf (p : option BlockPointer) : Prop :=
  match p with Some p => Bp.bp_wf p | None => True end.

Definition tail_wf (t : DnodeTail) : Prop :=
  Forall ptr_wf (pointers_of t) /\ bytes_ok (bonus_of t) /\
  match t with
  | TailZero b => blen b = ZERO_BONUS_SIZE
  | TailOne _ b => blen b = ONE_BONUS_SIZE
  | TailTwo _ _ b => blen b = TWO_BONUS_SIZE
  | TailThree _ _ _ b => blen b = THREE_BONUS_SIZE
  | TailSpill _ b s => blen b = SPILL_BONUS_SIZE /\ ptr_wf s
  end.

Definition used_amount (u : DnodeUsed) : Z := match u with UsedBytes v | UsedSectors v => v end.

Definition dnode_wf (d : Dnode) : Prop :=
  tail_wf (tail d) /\ fits 8 (indirect_block_shift d) /\ fits 8 (levels d) /\
  fits 16 (data_block_size_sectors d) /\ fits 16 (bonus_len d) /\
  bonus_len d <= blen (bonus_capacity d) /\ fits 8 (extra_slots d) /\
  fits 64 (max_block_id d) /\ fits 64 (used_amount (used d)).

Section hoare.
Context {BD : BinaryDecoder} {L : BinaryDecoderLaws BD} (w : bytes * Z * Z).
Abbreviation I := (DecoderBuffer.inv w).

Lemma hoare_dn_bp : hoare I bp ptr_wf.
Proof. apply hoare_map_err, Bp.hoare_bp. Qed.
Lemma hoare_bonus n : 0 <= n -> hoare I (bonus n) (fun v => blen v = n /\ bytes_ok v).
Proof. intros. now apply hoare_map_err, law_bytes_n. Qed.
Lemma hoare_dn_code {T} (f : Z -> outcome Z T) (g : Z -> DecodeError) x :
  safe (fun _ => True) (f x) -> hoare I (sm_lift (map_err g (f x))) (fun _ => True).
Proof. intros. now apply hoare_lift, safe_map_err. Qed.

Local Ltac hcall :=
  eapply hoare_bind;
  [ first [ apply hoare_map_err, law_u8 | apply hoare_map_err, law_u16 | apply hoare_map_err, law_u64
          | apply hoare_dn_bp | apply hoare_bonus; done | apply hoare_guard
          | apply hoare_dn_code; solve [auto with zfs]
          | apply hoare_map_err, law_skip_zeros; done ]
  | intros ? ? ].

Lemma hoare_tail n s : hoare I (tail_from_decoder n s) tail_wf.
Proof.
  unfold tail_from_decoder. destruct n as [|[[?|?|]|[?|?|]|]|?]; try apply hoare_err; [|..|destruct s];
    repeat hcall; apply hoare_ret; unfold tail_wf; cbn [pointers_of bonus_of];
    cbv beta in *;
    repeat match goal with H : _ /\ _ |- _ => destruct H end; auto 10.
Qed.

Lemma hoare_body : hoare I body_from_decoder dnode_wf.
Proof.
  unfold body_from_decoder. repeat hcall. eapply hoare_bind; [apply hoare_tail|]. intros t Ht.
  eapply hoare_bind; [apply hoare_guard|]. intros ? Hb%Z.ltb_ge. apply hoare_ret.
  unfold dnode_wf, bonus_capacity. cbn [tail indirect_block_shift levels data_block_size_sectors bonus_len
    extra_slots max_block_id used]. cbv beta in *. splits; try assumption.
  destruct (has_flag _ FLAG_USED_BYTES); cbn [used_amount]; assumption.
Qed.

Lemma hoare_dnode :
  hoare I from_decoder (fun r => match r with Some d => dnode_wf d | None => True end).
Proof.
  unfold from_decoder. eapply hoare_bind; [now apply hoare_map_err, law_is_skip_zeros|].
  intros [] _; [now apply hoare_ret|]. eapply hoare_bind; [apply hoare_body|]. intros d Hd.
  now apply hoare_ret.
Qed.
End hoare.

Definition decode (o : EndianOrder) (l : bytes) : outcome DecodeError (option Dnode) :=
  fst (@from_decoder (endian_decoder o) (DecoderBuffer.from_bytes l)).

(** The bonus area of a decoded dnode can be taken without a panic. *)
Lemma bonus_used_ok {E} d :
  dnode_wf d -> bonus_used (E := E) d = Ok (ztake (bonus_len d) (bonus_capacity d)).
Proof.
  intros (_ & _ & _ & _ & [Hb _] & Hl & _). unfold bonus_used.
  rewrite get_range_ok by lia. now rewrite zdrop_0, Z.sub_0_r.
Qed.

Lemma decode_bytes_safe o l :
  bytes_ok l ->
  safe (fun r => match r with Some d => dnode_wf d | None => True end) (decode o l).
Proof.
  intros Hl. assert (Hi : DecoderBuffer.inv (l, 0, blen l) (DecoderBuffer.from_bytes l)).
  { split; [now apply DecoderBuffer.wf_from_bytes | done]. }
  exact (proj2 (hoare_dnode (L := endian_decoder_laws o) (l, 0, blen l) _ Hi)).
Qed.

(** C28: Decoding any bytes as a dnode ends without a panic, and a dnode it returns
    has pointers in range and a bonus length within its bonus area. *)
Theorem dnode_decode_safe o l :
  bytes_ok l ->
  safe (fun r => match r with Some d => dnode_wf d | None => True end) (decode o l).
Proof. exact (decode_bytes_safe o l). Qed.

Lemma dnode_decode_safe_witness :
  safe (fun r => match r with Some d => dnode_wf d | None => True end) (decode Big (zrep 512 1)).
Proof. apply (dnode_decode_safe Big (zrep 512 1)). apply Forall_replicate. unfold is_byte. lia. Defined.

(** No dnode can be written: the encoder asks for length-prefixed bytes, which
    the endian encoders refuse. *)
Theorem dnode_never_encodes o d n bs : encode_into n (@to_encoder (endian_encoder o) d) <> Ok bs.
Proof.
  assert (Hr : returns (fun _ => False) (@to_encoder (endian_encoder o) d)).
  { unfold to_encoder. do 17 (eapply returns_bind; [apply returns_true|]; intros ? _).
    eapply (returns_bind (fun _ => False)); [|done].
    unfold sm_map_err. cbn. now intros e0 u e1. }
  unfold encode_into. intros E. smunfold. revert E.
  destruct (to_encoder d _) as [[u|e|] s'] eqn:Ed; cbn; [|done|done]. now apply Hr in Ed.
Qed.

(** ** A dnode laid out field by field decodes to itself *)
Section layout.
Context (o : EndianOrder).

Definition ptr_layout (p : option BlockPointer) : bytes :=
  match p with Some p => Bp.encoding o p | None => zrep Bp.SIZE 0 end.
Definition tail_layout (t : DnodeTail) : bytes :=
  match t with
  | TailZero b => b
  | TailOne p0 b => ptr_layout p0 ++ b
  | TailTwo p0 p1 b => ptr_layout p0 ++ ptr_layout p1 ++ b
  | TailThree p0 p1 p2 b => ptr_layout p0 ++ ptr_layout p1 ++ ptr_layout p2 ++ b
  | TailSpill p0 b s => ptr_layout p0 ++ b ++ ptr_layout s
  end.
Definition layout (d : Dnode) : bytes :=
  [DmuType.into_u8 (dn_dmu d)] ++ [indirect_block_shift d] ++ [levels d] ++ [blen (pointers d)] ++
  [DmuType.into_u8 (bonus_type d)] ++ [ChecksumType.into_u8 (dn_checksum d)] ++
  [CompressionType.into_u8 (dn_compression d)] ++ [flags_of d] ++
  int_to o 2 (data_block_size_sectors d) ++ int_to o 2 (bonus_len d) ++ [extra_slots d] ++
  zrep PADDING_SIZE_A 0 ++ int_to o 8 (max_block_id d) ++ int_to o 8 (used_amount (used d)) ++
  zrep PADDING_SIZE_B 0 ++ tail_layout (tail d).

(** A pointer that can be laid out: a hole, or one whose encoding is not that
    of a hole. *)
Definition ptr_layable (p : option BlockPointer) : Prop :=
  match p with
  | Some p => Bp.encodable p /\ forallb (Z.eqb 0) (Bp.encoding o p) = false
  | None => True
  end.
Definition tail_layable (t : DnodeTail) : Prop :=
  Forall ptr_layable (pointers_of t) /\ match t with TailSpill _ _ s => ptr_layable s | _ => True end.

Abbreviation DL := (endian_decoder o).

Lemma blen_ptr_layout p : ptr_layable p -> blen (ptr_layout p) = Bp.SIZE.
Proof. destruct p; cbn; [intros [? _]; now apply Bp.blen_encoding_bp | done]. Qed.

Lemma reads_ptr_bp p : ptr_layable p -> reads (@Bp.from_decoder DL) (ptr_layout p) p.
Proof.
  intros Hp. destruct p as [p|]; cbn [ptr_layable ptr_layout] in *.
  - destruct Hp as [He Hz]. pose proof (Bp.bp_reads o p He) as H. now rewrite Hz in H.
  - unfold Bp.from_decoder. apply r_empty_test; [done|done|]. now rewrite forallb_zrep.
Qed.
Lemma reads_ptr p : ptr_layable p -> reads (@bp DL) (ptr_layout p) p.
Proof. intros. now apply reads_map_err, reads_ptr_bp. Qed.

Lemma reads_u8 x : is_byte x -> reads (@u8 DL) [x] x.
Proof. intros. now apply reads_map_err, reads_get_1_byte. Qed.
Lemma reads_u16 x : fits 16 x -> reads (@u16 DL) (int_to o 2 x) x.
Proof. intros. apply reads_map_err. now apply (reads_get_int o 2). Qed.
Lemma reads_dn_u64 x : fits 64 x -> reads (@u64 DL) (int_to o 8 x) x.
Proof. intros. apply reads_map_err. now apply (reads_get_int o 8). Qed.
Lemma reads_zeros n : 0 <= n -> reads (sm_map_err DBinary (@d_skip_zeros DL n)) (zrep n 0) tt.
Proof. intros. now apply reads_map_err, reads_skip_zeros. Qed.
Lemma reads_bonus b n : n = blen b -> reads (@bonus DL n) b b.
Proof. intros. now apply reads_map_err, reads_get_bytes. Qed.
Lemma reads_code {T} (f : Z -> outcome Z T) (g : Z -> DecodeError) x y :
  f x = Ok y -> reads (sm_lift (map_err g (f x))) [] y.
Proof. intros -> b r _ _. unfold sm_lift. cbn. now rewrite advance_0. Qed.

Lemma reads_tail t :
  tail_wf t -> tail_layable t ->
  reads (@tail_from_decoder DL (blen (pointers_of t))
          (match t with TailSpill _ _ _ => true | _ => false end)) (tail_layout t) t.
Proof.
  intros (_ & _ & Hb) [Hp Hs]. destruct t as [b|p0 b|p0 p1 b|p0 p1 p2 b|p0 b s];
    cbn [pointers_of tail_layout] in *;
    [change (blen _) with 0 | change (blen _) with 1 | change (blen _) with 2 | change (blen _) with 3
     | change (blen _) with 1]; cbn [tail_from_decoder];
    rewrite ?Forall_cons in Hp; apply reads_last; rewrite <- ?app_assoc;
    repeat (eapply reads_bind; [first [apply reads_ptr; tauto | apply reads_bonus; now symmetry] |]);
    apply reads_ret.
Qed.

(** The flags byte gives back its four bits. *)
Lemma flags_spec d :
  is_byte (flags_of d) /\ Z.land (flags_of d) FLAG_ALL = flags_of d /\
  has_flag (flags_of d) FLAG_BLOCK_POINTER = match tail d with TailSpill _ _ _ => true | _ => false end /\
  has_flag (flags_of d) FLAG_USED_BYTES = match used d with UsedBytes _ => true | _ => false end /\
  has_flag (flags_of d) FLAG_USER_OBJ_USED_ACCOUNTED = user_obj_used_accounted d /\
  has_flag (flags_of d) FLAG_USER_USED_ACCOUNTED = user_used_accounted d.
Proof.
  unfold flags_of. destruct (tail d), (used d), (user_used_accounted d), (user_obj_used_accounted d);
    vm_compute; splits; congruence.
Qed.

Lemma reads_body d :
  dnode_wf d -> tail_layable (tail d) -> reads (@body_from_decoder DL) (layout d) d.
Proof.
  intros (Ht & H1 & H2 & H3 & H4 & H5 & H6 & H7 & H8) Hl.
  destruct (flags_spec d) as (Hf & Hall & Hsp & Hub & Huo & Huu).
  assert (Hn : is_byte (blen (pointers d))) by (unfold pointers; destruct (tail d); vm_compute; split; congruence).
  unfold body_from_decoder, layout.
  eapply reads_bind; [apply reads_u8, DmuType.DmuType_into_u8_byte|].
  eapply reads_bind_nil; [apply reads_code, DmuType.DmuType_try_from_into|].
  do 3 (eapply reads_bind; [apply reads_u8; assumption|]).
  eapply reads_bind; [apply reads_u8, DmuType.DmuType_into_u8_byte|].
  eapply reads_bind_nil; [apply reads_code, DmuType.DmuType_try_from_into|].
  eapply reads_bind; [apply reads_u8, ChecksumType.ChecksumType_into_u8_byte|].
  eapply reads_bind_nil; [apply reads_code, ChecksumType.ChecksumType_try_from_into|].
  eapply reads_bind; [apply reads_u8, CompressionType.CompressionType_into_u8_byte|].
  eapply reads_bind_nil; [apply reads_code, CompressionType.CompressionType_try_from_into|].
  eapply reads_bind; [apply reads_u8; assumption|].
  eapply reads_bind_nil; [apply reads_guard; rewrite Hall; now rewrite Z.eqb_refl|].
  eapply reads_bind_nil.
  { apply reads_guard. rewrite Hsp. unfold pointers. now destruct (tail d). }
  eapply reads_bind; [apply reads_u16; assumption|].
  eapply reads_bind; [apply reads_u16; assumption|].
  eapply reads_bind; [apply reads_u8; assumption|].
  eapply reads_bind; [apply reads_zeros; done|].
  eapply reads_bind; [apply reads_dn_u64; assumption|].
  eapply reads_bind; [apply reads_dn_u64; assumption|].
  eapply reads_bind; [apply reads_zeros; done|].
  apply reads_last. rewrite Hsp. eapply reads_bind; [now apply reads_tail|].
  apply (reads_bind_nil _ _ _ tt); [apply reads_guard; now apply Z.ltb_ge|].
  rewrite Hub, Huo, Huu. destruct d as [? ? ? ? ? ? ? ? ? ? ? []]; apply reads_ret.
Qed.

Lemma bytes_ok_ptr_layout p : bytes_ok (ptr_layout p).
Proof. destruct p; [apply Bp.bytes_ok_bp | apply bytes_ok_zrep]. Qed.

Lemma blen_tail_layout t : tail_wf t -> tail_layable t -> blen (tail_layout t) = 448.
Proof.
  intros (_ & _ & Hb) [Hp Hs]. destruct t; cbn [pointers_of tail_layout] in *;
    rewrite ?Forall_cons in Hp; rewrite ?blen_app, ?blen_ptr_layout by tauto;
    unfold SPILL_BONUS_SIZE, THREE_BONUS_SIZE, TWO_BONUS_SIZE, ONE_BONUS_SIZE, ZERO_BONUS_SIZE in *;
    change Bp.SIZE with 128 in *; lia.
Qed.

Lemma blen_layout d : dnode_wf d -> tail_layable (tail d) -> blen (layout d) = SIZE.
Proof.
  intros [Ht _] Hl. unfold layout. rewrite !blen_app, !blen_int_to, !blen_cons, !blen_nil, !blen_zrep by done.
  now rewrite (blen_tail_layout (tail d) Ht Hl).
Qed.

Lemma bytes_ok_layout d : dnode_wf d -> bytes_ok (layout d).
Proof.
  intros (Ht & H1 & H2 & H3 & H4 & H5 & H6 & H7 & H8). destruct Ht as (_ & Hb & _).
  destruct (flags_spec d) as [Hf _].
  assert (Hn : is_byte (blen (pointers d))) by (unfold pointers; destruct (tail d); vm_compute; split; congruence).
  assert (Hone : forall x, is_byte x -> bytes_ok [x]) by (intros x Hx; constructor; [exact Hx|constructor]).
  assert (Htl : bytes_ok (tail_layout (tail d))).
  { destruct (tail d); cbn [tail_layout bonus_of] in *; rewrite ?Forall_app; auto 6 using bytes_ok_ptr_layout. }
  unfold layout. rewrite !Forall_app.
  splits; auto using bytes_ok_zrep, DmuType.DmuType_into_u8_byte, ChecksumType.ChecksumType_into_u8_byte,
    CompressionType.CompressionType_into_u8_byte with zfs.
Qed.
End layout.

(** What an optional dnode is laid out as. *)
Definition option_layout (o : EndianOrder) (d : option Dnode) : bytes :=
  match d with Some d => layout o d | None => zrep SIZE 0 end.
Definition option_layable (o : EndianOrder) (d : option Dnode) : Prop :=
  match d with
  | Some d => dnode_wf d /\ tail_layable o (tail d) /\ forallb (Z.eqb 0) (layout o d) = false
  | None => True
  end.

Lemma reads_dnode o d :
  dnode_wf d -> tail_layable o (tail d) ->
  reads (@from_decoder (endian_decoder o)) (layout o d) (if forallb (Z.eqb 0) (layout o d) then None else Some d).
Proof.
  intros Hw Hl. unfold from_decoder. apply r_empty_test; [now apply blen_layout|now intros ->|]. intros ->.
  apply reads_last. eapply reads_bind; [now apply reads_body | apply reads_ret].
Qed.

Lemma reads_option_dnode o d :
  option_layable o d -> reads (@from_decoder (endian_decoder o)) (option_layout o d) d.
Proof.
  destruct d as [d|]; cbn [option_layable option_layout].
  - intros (Hw & Hl & Hz). pose proof (reads_dnode o d Hw Hl) as H. now rewrite Hz in H.
  - intros _. unfold from_decoder. apply r_empty_test; [done|done|]. now rewrite forallb_zrep.
Qed.

Lemma option_layout_ok o d :
  option_layable o d -> bytes_ok (option_layout o d) /\ blen (option_layout o d) = SIZE.
Proof.
  destruct d as [d|]; cbn [option_layable option_layout]; [|intros; split; [apply bytes_ok_zrep|done]].
  intros (Hw & Hl & _). split; [now apply bytes_ok_layout | now apply blen_layout].
Qed.

(** C27: A dnode written field by field in the on-disk layout, in either byte order,
    is what the decoder reads back, whatever follows it; an all-zero layout is
    a free slot. *)
Theorem dnode_decodes_layout o d rest :
  dnode_wf d -> tail_layable o (tail d) -> bytes_ok rest ->
  blen (layout o d) = 512 /\
  decode o (layout o d ++ rest) = Ok (if forallb (Z.eqb 0) (layout o d) then None else Some d).
Proof.
  intros Hw Hl Hr. pose proof (blen_layout o d Hw Hl) as Hb. split; [done|].
  unfold decode. apply reads_run; [apply Forall_app; auto using bytes_ok_layout|]. now apply reads_dnode.
Qed.

Definition sample_dnode : Dnode := {|
  bonus_len := 64; bonus_type := DmuType.SystemAttribute; dn_checksum := ChecksumType.Fletcher4;
  dn_compression := CompressionType.Lz4; data_block_size_sectors := 256; extra_slots := 0;
  dn_dmu := DmuType.PlainFileContents; indirect_block_shift := 17; levels := 2; max_block_id := 9;
  tail := TailThree (Some (Regular Bp.sample_regular)) None None (zrep 64 1);
  used := UsedBytes 4096; user_obj_used_accounted := true; user_used_accounted := true |}.

Lemma sample_dnode_wf : dnode_wf sample_dnode.
Proof.
  unfold dnode_wf. splits; try (unfold fits; cbn; lia); [|vm_compute; congruence].
  unfold tail_wf. splits; [|apply Forall_replicate; unfold is_byte; lia|reflexivity].
  cbn [tail sample_dnode pointers_of]. constructor; [exact (proj1 Bp.sample_regular_encodable)|].
  constructor; [exact I|]. constructor; [exact I|constructor].
Qed.

Lemma sample_dnode_layable_in o : tail_layable o (tail sample_dnode).
Proof.
  split; [|exact I]. cbn [tail sample_dnode pointers_of]. constructor.
  - split; [exact Bp.sample_regular_encodable | destruct o; vm_compute; reflexivity].
  - constructor; [exact I|]. constructor; [exact I|constructor].
Qed.

Lemma dnode_decodes_layout_witness :
  blen (layout Little sample_dnode) = 512 /\
  decode Little (layout Little sample_dnode ++ [7; 7]) =
    Ok (if forallb (Z.eqb 0) (layout Little sample_dnode) then None else Some sample_dnode).
Proof.
  apply (dnode_decodes_layout Little sample_dnode [7; 7] sample_dnode_wf (sample_dnode_layable_in Little)).
  constructor; [unfold is_byte; lia|]. constructor; [unfold is_byte; lia|constructor].
Defined.

End Dn.
