(* ===== verification/FileRead.v ===== *)
(** * Reading an object through its block tree (src/file.rs)

    [read_dnode_block] descends the indirect blocks of a dnode to one data
    block, [read_dnode_range] assembles a byte range.  The abstract view of an
    object is a tree of blocks and the flat sequence of bytes it stands for;
    reading is shown to return exactly the bytes of that sequence, with holes
    as zeros.  Also: no read panics on a single disk or a mirror. *)

From S2P Require Import Prelude Errors Decoder Encoder Types Dva BlockPointer Fletcher Sha256 Cksum Compress.
From S2P Require Import Vdev Heal Dnode.

Open Scope string_scope.
Open Scope Z_scope.
Open Scope list_scope.

Definition BLKPTR_SIZE : Z := 128.
Definition DN_MAX_LEVELS : Z := 16.

Definition at_dnode (token : string) : Error := Inconsistent token (LDnode 0).

(** [epb_shift], and the check that every shift below is less than 64. *)
Definition entry_shift (dnode : Dnode) : Z := saturating_sub (indirect_block_shift dnode) 7.
Definition top_shift (dnode : Dnode) : outcome Error Z :=
  match checked_mul 32 (entry_shift dnode) (levels dnode - 1) with
  | Some t => if (t <? 64) && (entry_shift dnode <? 64) then Ok t else Err (at_dnode "dnode_indshift")
  | None => Err (at_dnode "dnode_indshift")
  end.

Section read.
Context {B : Build} {R : Type} `{BlockRead R} (topo : Topology).
Abbreviation M := (SM (list (PoolMember R)) Error).

(** The loop [for l in (1..levels).rev()] from level [l], with [current] the
    indirect block at that level. *)
Fixpoint descend (blkid epb_shift : Z) (order : EndianOrder) (l : nat) (current : bytes) : M (option bytes) :=
  match l with
  | O => sm_err (Inconsistent "indirect_walk" (LIndirect 0 0))
  | S l' =>
      let idx := Z.land (Z.shiftr blkid (epb_shift * Z.of_nat l')) (Z.shiftl 1 epb_shift - 1) in
      start ← sm_lift (unwrap (checked_mul 64 idx BLKPTR_SIZE));
      stop ← sm_lift (unwrap (checked_add 64 start BLKPTR_SIZE));
      slice ← sm_lift (ok_or (get_range current start stop)
                         (Inconsistent "indirect_oob" (LIndirect 0 (Z.of_nat l))));
      child ← sm_lift (map_err (fun _ => Inconsistent "indirect_bp_decode" (LIndirect 0 (Z.of_nat l)))
                         (Bp.decode order slice));
      match child with
      | None => mret None
      | Some child =>
          block ← read_block_pointer topo child;
          match l' with
          | O => mret (Some block)
          | S _ => descend blkid epb_shift order l' block
          end
      end
  end.

Definition read_dnode_block (dnode : Dnode) (blkid : Z) (order : EndianOrder) : M (option bytes) :=
  if levels dnode =? 0 then mret None
  else
    sm_guard (DN_MAX_LEVELS <? levels dnode) (at_dnode "dnode_levels");;
    top_exp ← sm_lift (top_shift dnode);
    match zget (Dn.pointers dnode) (Z.shiftr blkid top_exp) with
    | Some (Some top) =>
        if levels dnode =? 1 then b ← read_block_pointer topo top; mret (Some b)
        else
          current ← read_block_pointer topo top;
          descend blkid (entry_shift dnode) order (Z.to_nat (levels dnode - 1)) current
    | _ => mret None
    end.

(** The loop of [read_dnode_range]; each turn fills at least a byte, so [len]
    turns are enough. *)
Fixpoint range_loop (dnode : Dnode) (order : EndianOrder) (dbsz off len : Z) (fuel : nat) (filled : Z)
    (out : bytes) : M bytes :=
  if filled <? len then
    match fuel with
    | O => sm_panic
    | S fuel' =>
        pos ← sm_lift (ok_or (checked_add 64 off filled) (at_dnode "range_overflow"));
        let blkid := pos / dbsz in
        let within := pos mod dbsz in
        let want := Z.min (dbsz - within) (len - filled) in
        block ← read_dnode_block dnode blkid order;
        out ← match block with
              | Some block =>
                  src ← sm_lift (ok_or (get_range block within (within + want)) (at_dnode "block_short"));
                  sm_lift (unwrap (EncoderBuffer.copy_at out filled src))
              | None => mret out
              end;
        range_loop dnode order dbsz off len fuel' (filled + want) out
    end
  else mret out.

Definition read_dnode_range (dnode : Dnode) (off len : Z) (order : EndianOrder) : M bytes :=
  let dbsz := Z.shiftl (data_block_size_sectors dnode) 9 in
  sm_guard (dbsz =? 0) (at_dnode "dnode_dbsz0");;
  range_loop dnode order dbsz off len (Z.to_nat len) 0 (zrep len 0).
End read.

(** ** The abstract object *)

(** A tree of blocks: a hole, a data block, or an indirect block over subtrees. *)
Unset Elimination Schemes.
Inductive tree : Type := Hole | Leaf (b : bytes) | Node (ts : list tree).
Set Elimination Schemes.

Section tree.
Context (E : nat).

(** The data blocks of a tree of [l] indirect levels, in order. *)
Fixpoint flatten (l : nat) (t : tree) : list (option bytes) :=
  match t, l with
  | Leaf b, O => [Some b]
  | Node ts, S l' => concat (flatten l' <$> ts)
  | _, _ => replicate (E ^ l) None
  end.

Context {B : Build} {R : Type} `{BlockRead R} (topo : Topology) (order : EndianOrder)
  (ms : list (PoolMember R)).

(** The pointer [p] at level [l] stores the tree [t] on the devices. *)
Fixpoint stored (l : nat) (p : option BlockPointer) (t : tree) : Prop :=
  match p, t with
  | None, Hole => True
  | Some bp, Leaf b => l = O /\ read_block_pointer topo bp ms = (Ok b, ms)
  | Some bp, Node ts =>
      match l with
      | O => False
      | S l' =>
          exists buf, read_block_pointer topo bp ms = (Ok buf, ms) /\ length ts = E /\
            forall i t, ts !! i = Some t ->
              exists slice p', get_range buf (Z.of_nat i * 128) (Z.of_nat i * 128 + 128) = Some slice /\
                Bp.decode order slice = Ok p' /\ stored l' p' t
      end
  | _, _ => False
  end.

(** The entries of an indirect block. *)
Definition entries (l : nat) (buf : bytes) (ts : list tree) : Prop :=
  length ts = E /\
  forall i t, ts !! i = Some t ->
    exists slice p', get_range buf (Z.of_nat i * 128) (Z.of_nat i * 128 + 128) = Some slice /\
      Bp.decode order slice = Ok p' /\ stored l p' t.

Lemma concat_lookup {A} (ls : list (list A)) n i j :
  Forall (fun l => length l = n) ls -> (j < n)%nat ->
  concat ls !! (i * n + j)%nat = ls !! i ≫= (fun l => l !! j).
Proof.
  intros Hl Hj. revert i. induction Hl as [|l ls Hn Hl IH]; intros i; [done|]. cbn [concat].
  destruct i as [|i].
  - cbn. rewrite lookup_app_l by lia. done.
  - rewrite lookup_app_r by lia. rewrite Hn. replace (S i * n + j - n)%nat with (i * n + j)%nat by lia.
    apply IH.
Qed.

Lemma flatten_length l p t : stored l p t -> length (flatten l t) = (E ^ l)%nat.
Proof.
  revert p t. induction l as [|l IH]; intros p t; destruct p as [bp|], t as [|b|ts]; cbn [stored flatten];
    try tauto; try (intros; now rewrite length_replicate).
  intros (buf & _ & Hts & Hall).
  assert (Hf : Forall (fun x => length (flatten l x) = (E ^ l)%nat) ts).
  { apply Forall_lookup. intros i t Hi. destruct (Hall i t Hi) as (? & p' & _ & _ & Hst). eauto. }
  assert (Hlen : length (concat (flatten l <$> ts)) = (length ts * E ^ l)%nat).
  { clear Hts Hall. induction Hf as [|x ts Hx Hf IHf]; [done|].
    rewrite fmap_cons. cbn [concat length]. rewrite length_app, Hx, IHf. lia. }
  rewrite Hlen, Hts. done.
Qed.

Lemma entries_lengths l buf ts : entries l buf ts -> Forall (fun x => length x = (E ^ l)%nat) (flatten l <$> ts).
Proof.
  intros [_ Hall]. apply Forall_fmap, Forall_lookup. intros i t Hi.
  destruct (Hall i t Hi) as (? & p' & _ & _ & Hst). unfold compose. eapply flatten_length; eauto.
Qed.

(** Descending the indirect levels is looking up the flat sequence. *)
Context (epb : Z) (blkid : Z).
Hypothesis HE : Z.of_nat E = 2 ^ epb.
Hypothesis epb_range : 0 <= epb < 64.
Hypothesis blkid_range : 0 <= blkid < 2 ^ 55.

Lemma E_pos : (0 < E)%nat.
Proof using HE epb_range. assert (0 < 2 ^ epb) by lia. lia. Qed.

Lemma E_pow l : Z.of_nat (E ^ l) = 2 ^ (epb * Z.of_nat l).
Proof using HE epb_range. rewrite Nat2Z.inj_pow, HE, <- Z.pow_mul_r by lia. done. Qed.

(** The index of the entry at level [l], and the index below it. *)
Lemma entry_index l :
  let idx := Z.land (Z.shiftr blkid (epb * Z.of_nat l)) (Z.shiftl 1 epb - 1) in
  0 <= idx < Z.of_nat E /\ idx < 2 ^ 55 /\
  Z.to_nat (blkid mod Z.of_nat (E ^ S l)) =
    (Z.to_nat idx * E ^ l + Z.to_nat (blkid mod Z.of_nat (E ^ l)))%nat.
Proof using All.
  intros idx. unfold idx. clear idx. rewrite Z.shiftl_1_l, land_ones_mod, shiftr_div, <- HE, <- E_pow by lia.
  set (n := Z.of_nat (E ^ l)). assert (Hn : 0 < n).
  { unfold n. pose proof E_pos. assert (0 < E ^ l)%nat by (apply Nat.neq_0_lt_0, Nat.pow_nonzero; lia). lia. }
  assert (Hq : 0 <= blkid / n <= blkid).
  { split; [apply Z.div_pos; lia|]. apply Z.div_le_upper_bound; nia. }
  pose proof E_pos. pose proof (Z.mod_pos_bound (blkid / n) (Z.of_nat E) ltac:(lia)).
  pose proof (Z.mod_le (blkid / n) (Z.of_nat E) ltac:(lia) ltac:(lia)). splits; [lia|lia|lia|].
  rewrite Nat.pow_succ_r', Nat2Z.inj_mul. fold n. rewrite (Z.mul_comm (Z.of_nat E)).
  rewrite Z.rem_mul_r by lia. pose proof (Z.mod_pos_bound blkid n Hn).
  rewrite Z.add_comm, Z2Nat.inj_add, Z2Nat.inj_mul by nia. unfold n at 1. rewrite Nat2Z.id. lia.
Qed.

Lemma pow_pos l : (0 < E ^ l)%nat.
Proof using HE epb_range. pose proof E_pos. apply Nat.neq_0_lt_0, Nat.pow_nonzero. lia. Qed.

Lemma replicate_none {A} n j : (j < n)%nat -> mjoin (replicate n (@None A) !! j) = None.
Proof. intros. now rewrite lookup_replicate_2. Qed.

(** One level down: the entry is decoded and its subtree remains. *)
Lemma descend_step l buf ts :
  entries l buf ts ->
  exists t p', stored l p' t /\
    concat (flatten l <$> ts) !! Z.to_nat (blkid mod Z.of_nat (E ^ S l)) =
      flatten l t !! Z.to_nat (blkid mod Z.of_nat (E ^ l)) /\
    descend topo blkid epb order (S l) buf ms =
      match p' with
      | None => (Ok None, ms)
      | Some child =>
          (block ← read_block_pointer topo child;
           match l with O => mret (Some block) | S _ => descend topo blkid epb order l block end) ms
      end.
Proof using All.
  intros He. pose proof (entries_lengths _ _ _ He) as Hlen. destruct He as [Hts Hall].
  destruct (entry_index l) as (Hi & Hi2 & Hmod). cbn [descend].
  set (idx := Z.land _ _) in *. clearbody idx.
  destruct (lookup_lt_is_Some_2 ts (Z.to_nat idx)) as [t Ht]; [lia|].
  destruct (Hall _ _ Ht) as (slice & p' & Hsl & Hdec & Hst). rewrite Z2Nat.id in Hsl by lia.
  exists t, p'. split; [done|]. split.
  - rewrite Hmod, concat_lookup with (n := (E ^ l)%nat); [|done|].
    + rewrite list_lookup_fmap, Ht. done.
    + pose proof (pow_pos l). pose proof (Z.mod_pos_bound blkid (Z.of_nat (E ^ l)) ltac:(lia)). lia.
  - unfold BLKPTR_SIZE. smunfold. rewrite checked_mul_ok by lia. cbn [unwrap].
    rewrite checked_add_ok by lia. cbn [unwrap]. rewrite Hsl. cbn [ok_or]. rewrite Hdec. cbn [map_err]. now destruct p'.
Qed.

Lemma mod_lt l : (Z.to_nat (blkid mod Z.of_nat (E ^ l)) < E ^ l)%nat.
Proof using HE epb_range.
  pose proof (pow_pos l). pose proof (Z.mod_pos_bound blkid (Z.of_nat (E ^ l)) ltac:(lia)). lia.
Qed.

Lemma descend_flat l : forall buf ts,
  entries l buf ts ->
  descend topo blkid epb order (S l) buf ms =
  (Ok (mjoin (concat (flatten l <$> ts) !! Z.to_nat (blkid mod Z.of_nat (E ^ S l)))), ms).
Proof using All.
  induction l as [|l IH]; intros buf ts He;
    destruct (descend_step _ _ _ He) as (t & p' & Hst & -> & ->); destruct p' as [child|], t as [|b|ts'];
    cbn [stored flatten] in Hst |- *; try done; try now destruct Hst.
  - destruct Hst as [_ Hrd]. unfold mbind, SM_bind. rewrite Hrd.
    pose proof (mod_lt 0) as Hm. change (E ^ 0)%nat with 1%nat in *.
    now replace (Z.to_nat (blkid mod Z.of_nat 1)) with 0%nat by lia.
  - now rewrite replicate_none by apply mod_lt.
  - destruct Hst as (buf' & Hrd & Hts' & Hall'). unfold mbind at 1, SM_bind. rewrite Hrd. apply IH. now split.
  - now rewrite replicate_none by apply mod_lt.
Qed.
End tree.

(** ** One block *)
Section object.
Context {B : Build} {R : Type} `{BlockRead R} (topo : Topology) (order : EndianOrder)
  (ms : list (PoolMember R)) (dnode : Dnode).

Definition fanout : nat := Z.to_nat (2 ^ entry_shift dnode).
Definition depth : nat := Z.to_nat (levels dnode - 1).

(** The dnode's block trees, as stored on the devices. *)
Definition object_stored (trees : list tree) : Prop :=
  1 <= levels dnode <= DN_MAX_LEVELS /\ 0 <= indirect_block_shift dnode /\
  entry_shift dnode * (levels dnode - 1) < 64 /\ entry_shift dnode < 64 /\
  Forall2 (stored fanout topo order ms depth) (Dn.pointers dnode) trees.

(** The data blocks of the object, in order. *)
Definition blocks (trees : list tree) : list (option bytes) := concat (flatten fanout depth <$> trees).

Lemma entry_shift_nonneg : 0 <= entry_shift dnode.
Proof using. unfold entry_shift, saturating_sub. lia. Qed.

Lemma fanout_pow : Z.of_nat fanout = 2 ^ entry_shift dnode.
Proof using. pose proof entry_shift_nonneg. unfold fanout. rewrite Z2Nat.id; lia. Qed.

Lemma zget_nat {A} (l : list A) i : 0 <= i -> zget l i = l !! Z.to_nat i.
Proof using.
  intros Hi. unfold zget, blen. destruct (Z.leb_spec 0 i), (Z.ltb_spec i (Z.of_nat (length l))); cbn; try done; try lia.
  symmetry. apply lookup_ge_None. lia.
Qed.

Lemma top_shift_ok trees :
  object_stored trees -> top_shift dnode = Ok (entry_shift dnode * Z.of_nat depth).
Proof using.
  intros (Hl & _ & Ht & He & _). pose proof entry_shift_nonneg. unfold top_shift, depth, DN_MAX_LEVELS in *.
  rewrite Z2Nat.id by lia. rewrite checked_mul_ok by lia. rewrite !(proj2 (Z.ltb_lt _ _)) by lia. done.
Qed.

(** The block at an index is the leaf under the pointer above it. *)
Lemma blocks_lookup trees blkid :
  object_stored trees -> 0 <= blkid ->
  let t := trees !! Z.to_nat (Z.shiftr blkid (entry_shift dnode * Z.of_nat depth)) in
  blocks trees !! Z.to_nat blkid =
  t ≫= (fun t => flatten fanout depth t !! Z.to_nat (blkid mod Z.of_nat (fanout ^ depth))).
Proof using.
  intros (Hl & _ & _ & He & Hall) Hb. pose proof entry_shift_nonneg as H0. cbn zeta. rewrite shiftr_div by lia.
  pose proof (E_pow fanout (entry_shift dnode) fanout_pow ltac:(lia) depth) as Hp.
  pose proof (pow_pos fanout (entry_shift dnode) fanout_pow ltac:(lia) depth) as Hpos.
  rewrite <- Hp. set (n := (fanout ^ depth)%nat) in *.
  pose proof (Z.mod_pos_bound blkid (Z.of_nat n) ltac:(lia)).
  pose proof (Z.div_pos blkid (Z.of_nat n) ltac:(lia) ltac:(lia)).
  rewrite (Z.div_mod blkid (Z.of_nat n)) at 1 by lia.
  rewrite Z.mul_comm, Z2Nat.inj_add, Z2Nat.inj_mul, Nat2Z.id by nia.
  unfold blocks. rewrite (concat_lookup _ n); [|apply Forall_fmap|lia].
  - rewrite list_lookup_fmap. now destruct (trees !! _).
  - clear -Hall. induction Hall as [|p t ps ts Hst Hall IH]; constructor; [|done].
    unfold compose. eapply flatten_length; eauto.
Qed.

(** Reading a block is looking it up in the flat sequence. *)
Lemma read_block_flat trees blkid :
  object_stored trees -> 0 <= blkid < 2 ^ 55 ->
  read_dnode_block topo dnode blkid order ms = (Ok (mjoin (blocks trees !! Z.to_nat blkid)), ms).
Proof using.
  intros Hst Hb. rewrite blocks_lookup by (done || lia). unfold read_dnode_block.
  pose proof (top_shift_ok trees Hst) as Htop. pose proof Hst as (Hl & _ & Hm & He & Hall).
  pose proof entry_shift_nonneg as H0. unfold DN_MAX_LEVELS in *.
  rewrite (proj2 (Z.eqb_neq _ _)) by lia. unfold sm_guard, guard_err. rewrite (proj2 (Z.ltb_ge _ _)) by lia.
  smunfold. rewrite Htop, zget_nat by (apply Z.shiftr_nonneg; lia).
  set (i := Z.to_nat (Z.shiftr blkid _)). clearbody i.
  destruct (trees !! i) as [t|] eqn:Et; cbn [mbind option_bind].
  2: { apply lookup_ge_None in Et. rewrite <- (Forall2_length _ _ _ Hall) in Et.
       apply lookup_ge_None in Et. now rewrite Et. }
  destruct (Forall2_lookup_r _ _ _ _ _ Hall Et) as (p & -> & Hpt).
  assert (Hd : Z.of_nat depth = levels dnode - 1) by (unfold depth; lia). fold depth.
  pose proof (mod_lt fanout (entry_shift dnode) blkid fanout_pow ltac:(lia) depth) as Hlt.
  destruct (Z.eqb_spec (levels dnode) 1) as [E1|E1], depth as [|l] eqn:El; try lia;
    destruct p as [bp|], t as [|b|ts]; cbn [stored flatten] in Hpt |- *; try done; try now destruct Hpt.
  - destruct Hpt as [_ Hrd]. rewrite Hrd. change (fanout ^ 0)%nat with 1%nat in *.
    now replace (Z.to_nat (blkid mod Z.of_nat 1)) with 0%nat by lia.
  - now rewrite replicate_none.
  - destruct Hpt as (buf & Hrd & Hts & Hent). rewrite Hrd.
    apply descend_flat; [apply fanout_pow|lia|lia|]. now split.
  - now rewrite replicate_none.
Qed.

(** ** A range of bytes *)

(** The byte of the object at a position: holes and what lies past the end read as zero. *)
Definition content (trees : list tree) (dbsz pos : Z) : Z :=
  match mjoin (blocks trees !! Z.to_nat (pos / dbsz)) with
  | Some b => default 0 (b !! Z.to_nat (pos mod dbsz))
  | None => 0
  end.
Definition span (trees : list tree) (dbsz off len : Z) : bytes :=
  (fun i => content trees dbsz (off + Z.of_nat i)) <$> seq 0 (Z.to_nat len).

(** Every data block has the dnode's block size. *)
Definition blocks_sized (trees : list tree) (dbsz : Z) : Prop :=
  Forall (fun b => forall bs, b = Some bs -> blen bs = dbsz) (blocks trees).

Lemma span_app trees dbsz off a b :
  0 <= a -> 0 <= b -> span trees dbsz off (a + b) = span trees dbsz off a ++ span trees dbsz (off + a) b.
Proof using.
  intros Ha Hb. unfold span. rewrite Z2Nat.inj_add, seq_app, fmap_app by lia. f_equal.
  rewrite Nat.add_0_l, <- (Nat.add_0_r (Z.to_nat a)), <- fmap_add_seq, <- list_fmap_compose.
  apply list_fmap_ext. intros i x _. cbn. f_equal. lia.
Qed.

Lemma blen_span trees dbsz off len : 0 <= len -> blen (span trees dbsz off len) = len.
Proof using. intros. unfold span, blen. rewrite length_fmap, length_seq. lia. Qed.

Lemma span_eq trees dbsz off l :
  (forall i, (i < length l)%nat -> l !! i = Some (content trees dbsz (off + Z.of_nat i))) ->
  span trees dbsz off (blen l) = l.
Proof using.
  intros Hl. apply list_eq. intros i. unfold span, blen. rewrite Nat2Z.id, list_lookup_fmap.
  destruct (decide (i < length l)%nat) as [Hi|Hi].
  - now rewrite lookup_seq_lt, Hl by done.
  - rewrite lookup_seq_ge, lookup_ge_None_2 by lia. done.
Qed.

Lemma span_zeros trees dbsz off len :
  (forall i, 0 <= i < len -> content trees dbsz (off + i) = 0) -> 0 <= len ->
  span trees dbsz off len = zrep len 0.
Proof using.
  intros Hc Hl. rewrite <- (blen_zrep len 0 Hl) at 1. apply span_eq. intros i Hi.
  unfold zrep in *. rewrite length_replicate in Hi. rewrite lookup_replicate_2 by lia. now rewrite Hc by lia.
Qed.

(** A span inside one block. *)
Lemma span_block trees dbsz pos want :
  0 < dbsz -> 0 <= pos -> 0 <= want <= dbsz - pos mod dbsz -> blocks_sized trees dbsz ->
  match mjoin (blocks trees !! Z.to_nat (pos / dbsz)) with
  | Some b => get_range b (pos mod dbsz) (pos mod dbsz + want) = Some (span trees dbsz pos want)
  | None => span trees dbsz pos want = zrep want 0
  end.
Proof using.
  intros Hd Hp Hw Hs. set (r := pos mod dbsz) in *. assert (Hr : 0 <= r < dbsz) by (apply Z.mod_pos_bound; lia).
  assert (Hc : forall i, 0 <= i < want -> content trees dbsz (pos + i) =
    match mjoin (blocks trees !! Z.to_nat (pos / dbsz)) with
    | Some b => default 0 (b !! Z.to_nat (r + i))
    | None => 0 end).
  { intros i Hi. unfold content.
    rewrite <- (Z.div_unique_pos (pos + i) dbsz (pos / dbsz) (r + i)), <- (Z.mod_unique_pos (pos + i) dbsz (pos / dbsz) (r + i));
      [done|lia| |lia|]; pose proof (Z.div_mod pos dbsz); lia. }
  destruct (blocks trees !! Z.to_nat (pos / dbsz)) as [[b|]|] eqn:Eb; cbn [mjoin option_join] in *.
  - pose proof (proj1 (Forall_lookup _ _) Hs _ _ Eb b eq_refl) as Hb.
    rewrite get_range_ok by lia. f_equal. set (l := ztake _ _).
    assert (Hl : blen l = want) by (unfold l; rewrite blen_ztake, blen_zdrop by lia; lia).
    rewrite <- Hl. symmetry. apply span_eq. intros i Hi. unfold blen in Hl, Hb. rewrite Hc by lia.
    unfold l. rewrite ztake_take, zdrop_drop, lookup_take_lt, lookup_drop by lia.
    destruct (lookup_lt_is_Some_2 b (Z.to_nat (r + Z.of_nat i))) as [x Hx]; [lia|].
    rewrite Hx. cbn. rewrite <- Hx. f_equal. lia.
  - apply span_zeros; [done|lia].
  - apply span_zeros; [done|lia].
Qed.

Lemma copy_at_app l w r bs start :
  start = blen l -> blen bs = blen w -> EncoderBuffer.copy_at (l ++ w ++ r) start bs = Some (l ++ bs ++ r).
Proof using.
  intros -> Hb. unfold EncoderBuffer.copy_at. rewrite Hb, get_range_middle, ztake_app_length. do 3 f_equal.
  rewrite app_assoc, <- blen_app. apply zdrop_app_length.
Qed.

(** Each turn extends the span by the rest of a block. *)
Lemma range_loop_span trees dbsz off len fuel : forall filled,
  object_stored trees -> blocks_sized trees dbsz -> 512 <= dbsz ->
  0 <= off -> off + len <= 2 ^ 64 -> 0 <= filled <= len -> len - filled <= Z.of_nat fuel ->
  range_loop topo dnode order dbsz off len fuel filled (span trees dbsz off filled ++ zrep (len - filled) 0) ms =
  (Ok (span trees dbsz off len), ms).
Proof using.
  induction fuel as [|fuel IH]; intros filled Hst Hbs Hd Ho Hol Hf Hfu; cbn [range_loop];
    destruct (Z.ltb_spec filled len) as [Hlt|Hge]; try lia.
  1, 3: replace filled with len by lia; rewrite Z.sub_diag; cbn; now rewrite app_nil_r.
  smunfold. rewrite checked_add_ok by lia. cbn [ok_or]. set (pos := off + filled) in *.
  pose proof (Z.mod_pos_bound pos dbsz ltac:(lia)).
  assert (0 <= pos / dbsz < 2 ^ 55).
  { split; [apply Z.div_pos; lia|]. apply Z.div_lt_upper_bound; nia. }
  set (want := Z.min (dbsz - pos mod dbsz) (len - filled)). rewrite (read_block_flat trees) by (done || lia).
  assert (Hw : 0 < want <= dbsz - pos mod dbsz /\ want <= len - filled) by lia.
  pose proof (span_block trees dbsz pos want ltac:(lia) ltac:(lia) ltac:(lia) Hbs) as Hblk.
  assert (Hz : zrep (len - filled) 0 = zrep want 0 ++ zrep (len - (filled + want)) 0).
  { unfold zrep. rewrite <- replicate_add. f_equal. lia. }
  rewrite <- (IH (filled + want)) by (done || lia). rewrite span_app by lia. fold pos.
  destruct (mjoin _) as [b|] eqn:Eb.
  - rewrite Hblk. cbn [ok_or]. rewrite Hz, copy_at_app by (rewrite ?blen_span, ?blen_zrep by lia; done). cbn [unwrap]. now rewrite <- app_assoc.
  - now rewrite Hz, Hblk, <- app_assoc.
Qed.
End object.

(** ** No panic *)
Section total.
Context {B : Build} {BL : BuildLaws B} {R : Type} `{BlockRead R} (topo : Topology).
Context {T : list (PoolMember R) -> Prop} {HT : ReadClosed T}.

(** A single disk or a mirror, whose addresses need no bound. *)
Definition plain_layout : Prop := match layout topo with RaidZ1 _ _ => False | _ => True end.
Hypothesis Hplain : plain_layout.

Definition some_bytes (b : option bytes) : Prop := forall bs, b = Some bs -> bytes_ok bs.

Lemma plain_addressable bp : bp_addressable topo bp.
Proof using Hplain. unfold plain_layout in *. destruct bp; cbn; try done. unfold addressable. now destruct (layout topo). Qed.

Lemma hoare_read bp : Bp.bp_wf bp -> hoare T (read_block_pointer topo bp) bytes_ok.
Proof using Hplain BL HT.
  intros Hw. eapply hoare_mono; [apply hoare_read_block_pointer; auto using plain_addressable|]. now intros a [_ Ha].
Qed.

Lemma unwrap_mul64 a b : 0 <= a * b < 2 ^ 64 -> safe (E := Error) (eq (a * b)) (unwrap (checked_mul 64 a b)).
Proof using. intros. now rewrite checked_mul_ok. Qed.
Lemma unwrap_add64 a b : 0 <= a + b < 2 ^ 64 -> safe (E := Error) (eq (a + b)) (unwrap (checked_add 64 a b)).
Proof using. intros. now rewrite checked_add_ok. Qed.

Lemma index_bound blkid e k : 0 <= blkid < 2 ^ 55 -> 0 <= e -> 0 <= k ->
  0 <= Z.land (Z.shiftr blkid k) (Z.shiftl 1 e - 1) < 2 ^ 55.
Proof using.
  intros Hb He Hk. rewrite Z.shiftl_1_l, land_ones_mod, shiftr_div by lia.
  assert (0 <= blkid / 2 ^ k <= blkid). { split; [apply Z.div_pos; lia|apply Z.div_le_upper_bound; nia]. }
  pose proof (Z.mod_pos_bound (blkid / 2 ^ k) (2 ^ e) ltac:(lia)).
  pose proof (Z.mod_le (blkid / 2 ^ k) (2 ^ e)). lia.
Qed.

Lemma hoare_descend blkid epb o l : forall current,
  0 <= blkid < 2 ^ 55 -> 0 <= epb -> bytes_ok current ->
  hoare T (descend topo blkid epb o l current) some_bytes.
Proof using Hplain BL HT.
  induction l as [|l IH]; intros current Hb He Hc; cbn [descend]; [apply hoare_err|].
  pose proof (index_bound blkid epb (epb * Z.of_nat l) Hb He ltac:(lia)) as Hi. set (idx := Z.land _ _) in *.
  unfold BLKPTR_SIZE. eapply hoare_bind; [apply hoare_lift, unwrap_mul64; lia|]. intros st <-.
  eapply hoare_bind; [apply hoare_lift, unwrap_add64; lia|]. intros stop <-.
  eapply hoare_bind; [apply hoare_lift, (safe_ok_or bytes_ok); eauto using bytes_ok_get_range|]. intros slice Hs.
  eapply hoare_bind; [apply hoare_lift, safe_map_err, Bp.decode_safe, Hs|]. intros [child|] Hw; [|now apply hoare_ret].
  eapply hoare_bind; [apply hoare_read, Hw|]. intros block Hbl.
  destruct l; [apply hoare_ret; now intros ? [= <-]|]. apply IH; done.
Qed.

Lemma hoare_read_dnode_block dnode blkid o :
  Dn.dnode_wf dnode -> 0 <= blkid < 2 ^ 55 ->
  hoare T (read_dnode_block topo dnode blkid o) some_bytes.
Proof using Hplain BL HT.
  intros Hd Hb. unfold read_dnode_block. assert (Hnone : some_bytes None) by (intros ? [=]).
  destruct (levels dnode =? 0); [now apply hoare_ret|]. eapply hoare_bind; [apply hoare_guard|]. intros _ _.
  eapply (hoare_bind _ _ _ (fun _ => True)).
  { apply hoare_lift. unfold top_shift. destruct (checked_mul _ _ _); [destruct (_ && _)|]; done. }
  intros t _. destruct (zget _ _) as [[top|]|] eqn:Et; try now apply hoare_ret.
  assert (Hw : Bp.bp_wf top).
  { destruct Hd as ([Hptrs _] & _). apply zget_elem in Et. rewrite Forall_forall in Hptrs. exact (Hptrs _ Et). }
  destruct (levels dnode =? 1); (eapply hoare_bind; [apply hoare_read, Hw|]); intros b Hbl.
  - apply hoare_ret. now intros ? [= <-].
  - apply hoare_descend; [done|unfold entry_shift, saturating_sub; lia|done].
Qed.

(** A buffer of [len] bytes. *)
Definition filled_with (len : Z) (d : bytes) : Prop := blen d = len /\ bytes_ok d.

Lemma hoare_copy out filled src :
  0 <= filled -> filled + blen src <= blen out -> bytes_ok src -> bytes_ok out ->
  safe (E := Error) (filled_with (blen out)) (unwrap (EncoderBuffer.copy_at out filled src)).
Proof using.
  intros Hf Hl Hs Ho. unfold EncoderBuffer.copy_at. pose proof (blen_nonneg src).
  rewrite get_range_ok by lia. split.
  - rewrite !blen_app, blen_ztake, blen_zdrop by lia. lia.
  - apply Forall_app. split; [now apply bytes_ok_ztake|]. apply Forall_app. split; [done|now apply bytes_ok_zdrop].
Qed.

Lemma hoare_range_loop dnode o dbsz off len fuel : forall filled out,
  Dn.dnode_wf dnode -> 512 <= dbsz -> 0 <= off -> 0 <= filled <= len -> len - filled <= Z.of_nat fuel ->
  filled_with len out -> hoare T (range_loop topo dnode o dbsz off len fuel filled out) (filled_with len).
Proof using Hplain BL HT.
  induction fuel as [|fuel IH]; intros filled out Hd Hz Ho Hf Hfu Hl; cbn [range_loop];
    destruct (Z.ltb_spec filled len); try lia; try now apply hoare_ret.
  eapply (hoare_bind _ _ _ (fun pos => 0 <= pos < 2 ^ 64)).
  { apply hoare_lift, safe_ok_or. intros pos [-> ?]%checked_add_Some. lia. }
  intros pos Hp. pose proof (Z.mod_pos_bound pos dbsz ltac:(lia)).
  eapply hoare_bind; [apply hoare_read_dnode_block; [done|]|].
  { split; [apply Z.div_pos; lia|]. apply Z.div_lt_upper_bound; nia. }
  intros b Hb. eapply (hoare_bind _ _ _ (filled_with len)); [|intros out' Hl'; apply IH; done || lia].
  destruct b as [b|]; [|now apply hoare_ret].
  eapply (hoare_bind _ _ _ (filled_with (Z.min (dbsz - pos mod dbsz) (len - filled)))).
  { apply hoare_lift, safe_ok_or. intros src Hs. split; [apply blen_get_range in Hs; lia|].
    eapply bytes_ok_get_range; [now apply Hb|exact Hs]. }
  intros src [Hs Hsb]. apply hoare_lift. destruct Hl as [<- Hob]. apply hoare_copy; done || lia.
Qed.

Lemma hoare_read_dnode_range dnode off len o :
  Dn.dnode_wf dnode -> 0 <= off -> 0 <= len ->
  hoare T (read_dnode_range topo dnode off len o) (filled_with len).
Proof using Hplain BL HT.
  intros Hd Ho Hl. unfold read_dnode_range. eapply hoare_bind; [apply hoare_guard|]. intros _ Hz%Z.eqb_neq.
  pose proof Hd as (_ & _ & _ & [Hs0 _] & _). rewrite Z.shiftl_mul_pow2 in * by lia.
  apply hoare_range_loop; try done; try lia. split; [now apply blen_zrep|apply bytes_ok_zrep].
Qed.
End total.

(** ** What reading an object promises *)

(** A dnode with one indirect block over a data block and a hole, on a disk
    that holds the data block at sector 8 and the indirect block at sector 9. *)
Definition sample_indirect : bytes := Eval vm_compute in
  match Bp.encode Little (Regular sample_bp) with Ok bs => bs ++ zrep 384 0 | _ => [] end.
Definition indirect_words : ChecksumValue := Eval vm_compute in
  match Fletcher4.closed_form Little sample_indirect with [a; b; c; d] => (a, b, c, d) | _ => (0, 0, 0, 0) end.
Definition indirect_bp : BlockPointerRegular := {|
  checksum_type := ChecksumType.Fletcher4; checksum_value := indirect_words;
  compression := CompressionType.Off; dedup := false; dmu := DmuType.PlainFileContents;
  dva0 := Some {| allocated := 1; offset_ := 9; is_gang := false; vdev := 0 |}; dva1 := None; dva2 := None;
  order := Little; fill_count := 1; level := 1; logical_birth_txg := 7; logical_sectors := 1;
  physical_birth_txg := 7; physical_sectors := 1 |}.
Definition sample_file : Dnode := {|
  bonus_len := 0; bonus_type := DmuType.SystemAttribute; dn_checksum := ChecksumType.Fletcher4;
  dn_compression := CompressionType.Off; data_block_size_sectors := 1; extra_slots := 0;
  dn_dmu := DmuType.PlainFileContents; indirect_block_shift := 8; levels := 2; max_block_id := 1;
  tail := TailOne (Some (Regular indirect_bp)) (zrep Dn.ONE_BONUS_SIZE 0);
  used := UsedBytes 1024; user_obj_used_accounted := true; user_used_accounted := true |}.
Definition sample_disks : list (PoolMember extent) := [disk (LABEL_RESERVE + 4096) (sample_data ++ sample_indirect)].
Definition disk_topo : Topology := {| layout := Single 0; checksum_salt := None |}.
Definition sample_trees : list tree := [Node [Leaf sample_data; Hole]].

Lemma range_span {B : Build} {R} `{BlockRead R} topo o (ms : list (PoolMember R)) dnode trees off len :
  let dbsz := 512 * data_block_size_sectors dnode in
  object_stored topo o ms dnode trees -> blocks_sized dnode trees dbsz -> 0 < data_block_size_sectors dnode ->
  0 <= off -> 0 <= len -> off + len <= 2 ^ 64 ->
  read_dnode_range topo dnode off len o ms = (Ok (span dnode trees dbsz off len), ms).
Proof.
  intros dbsz Hst Hbs Hd Ho Hl Hol. unfold read_dnode_range. rewrite Z.shiftl_mul_pow2, Z.mul_comm by lia.
  change (2 ^ 9) with 512. fold dbsz. unfold sm_guard, guard_err. rewrite (proj2 (Z.eqb_neq _ _)) by lia. smunfold.
  rewrite <- (range_loop_span topo o ms dnode trees dbsz off len (Z.to_nat len) 0) by (done || lia).
  now rewrite Z.sub_0_r.
Qed.

(** C6: Reading a range of an object gives exactly its bytes, whatever blocks and
    levels the range crosses: data blocks through the indirect blocks, zeros for
    holes and past the last block; the range must end below 2^64. *)
Theorem read_range_exact {B : Build} {R} `{BlockRead R} topo o (ms : list (PoolMember R)) dnode trees off len :
  let dbsz := 512 * data_block_size_sectors dnode in
  object_stored topo o ms dnode trees -> blocks_sized dnode trees dbsz -> 0 < data_block_size_sectors dnode ->
  0 <= off -> 0 <= len -> off + len <= 2 ^ 64 ->
  read_dnode_range topo dnode off len o ms = (Ok (span dnode trees dbsz off len), ms).
Proof. apply range_span. Qed.

Lemma sample_stored : object_stored (B := plain_build) disk_topo Little sample_disks sample_file sample_trees.
Proof.
  unfold object_stored, DN_MAX_LEVELS. splits; [vm_compute; congruence..|].
  constructor; [|constructor].
  assert (Hf : fanout sample_file = 2%nat) by (vm_compute; reflexivity).
  assert (Hd : depth sample_file = 1%nat) by (vm_compute; reflexivity). rewrite Hf, Hd.
  cbn [stored]. exists sample_indirect. splits; [vm_compute; reflexivity|reflexivity|].
  intros [|[|i]] t Ht; cbn in Ht; simplify_eq.
  - exists (ztake 128 sample_indirect), (Some (Regular sample_bp)).
    splits; vm_compute; reflexivity.
  - exists (zrep 128 0), None. splits; vm_compute; (reflexivity || exact I).
Qed.

Lemma read_range_exact_witness :
  read_dnode_range (B := plain_build) disk_topo sample_file 500 30 Little sample_disks =
  (Ok (ztake 12 (zdrop 500 sample_data) ++ zrep 18 0), sample_disks).
Proof.
  transitivity (Ok (E := Error) (span sample_file sample_trees 512 500 30), sample_disks); [|vm_compute; reflexivity].
  apply (read_range_exact (B := plain_build) disk_topo Little sample_disks sample_file sample_trees 500 30).
  - exact sample_stored.
  - constructor; [now intros ? [= <-]|]. constructor; [now intros ? [= <-]|constructor].
  - vm_compute. reflexivity.
  - lia.
  - lia.
  - lia.
Defined.

(** C26: Whatever the devices hold, reading any range of any decoded dnode on a single
    disk or a mirror ends without a panic, in an error or in exactly the number
    of bytes asked for. *)
Theorem read_range_total {B : Build} {BL : BuildLaws B} {R} `{BlockRead R} topo dnode off len o
    (ms : list (PoolMember R)) :
  plain_layout topo -> Dn.dnode_wf dnode -> 0 <= off -> 0 <= len ->
  safe (filled_with len) (fst (read_dnode_range topo dnode off len o ms)).
Proof. intros Hp Hd Ho Hl. exact (proj2 (hoare_read_dnode_range topo Hp dnode off len o Hd Ho Hl ms I)). Qed.

Lemma read_range_total_witness :
  safe (filled_with 4096) (fst (read_dnode_range (B := plain_build) mirror_topo Dn.sample_dnode 9 4096 Big sample_mirror)).
Proof.
  apply (read_range_total (B := plain_build) mirror_topo Dn.sample_dnode 9 4096 Big sample_mirror);
    [exact I | exact Dn.sample_dnode_wf | lia | lia].
Defined.
