(* ===== verification/ObjectSet.v ===== *)
(** * Object sets (src/phys/object_set.rs, src/phys/zil.rs)

    The header of an object set: its dnode array, the intent-log header, type
    and flags, and the accounting dnodes that later versions append.  Decoding
    never panics, and an object set laid out field by field decodes to itself,
    its extension chosen by the size of the block. *)

From S2P Require Import Prelude Errors Decoder Encoder Codec Types Dva BlockPointer Dnode.

Open Scope Z_scope.
Open Scope list_scope.

(** ** The intent log header *)
Record ZilHeader : Type := {
  claim_blk_seq : Z;
  claim_lr_seq : Z;
  claim_txg : Z;
  zil_flags : Z;
  log : option BlockPointer;
  replay_seq : Z
}.

Module Zil.
Definition SIZE : Z := Bp.SIZE + 64.
Definition PADDING_SIZE : Z := 24.
Inductive DecodeError : Type := DBinary (err : BinaryDecodeError) | DBlockPointer (err : Bp.DecodeError).
Inductive EncodeError : Type := EBinary (err : BinaryEncodeError) | EBlockPointer (err : Bp.EncodeError).

Definition from_decoder (BD : BinaryDecoder) : SM BinaryDecoderBuffer DecodeError ZilHeader :=
  claim_txg ← sm_map_err DBinary get_u64;
  replay_seq ← sm_map_err DBinary get_u64;
  log ← sm_map_err DBlockPointer Bp.from_decoder;
  claim_blk_seq ← sm_map_err DBinary get_u64;
  flags ← sm_map_err DBinary get_u64;
  claim_lr_seq ← sm_map_err DBinary get_u64;
  sm_map_err DBinary (d_skip_zeros PADDING_SIZE);;
  mret {| claim_blk_seq := claim_blk_seq; claim_lr_seq := claim_lr_seq; claim_txg := claim_txg;
          zil_flags := flags; log := log; replay_seq := replay_seq |}.

Definition to_encoder (BE : BinaryEncoder) (h : ZilHeader) : SM BinaryEncoderBuffer EncodeError unit :=
  sm_map_err EBinary (put_u64 (claim_txg h));;
  sm_map_err EBinary (put_u64 (replay_seq h));;
  sm_map_err EBlockPointer
    (match log h with Some p => Bp.to_encoder p | None => Bp.empty_to_encoder end);;
  sm_map_err EBinary (put_u64 (claim_blk_seq h));;
  sm_map_err EBinary (put_u64 (zil_flags h));;
  sm_map_err EBinary (put_u64 (claim_lr_seq h));;
  sm_map_err EBinary (put_zeros PADDING_SIZE).

Definition wf (h : ZilHeader) : Prop :=
  fits 64 (claim_txg h) /\ fits 64 (replay_seq h) /\ Dn.ptr_wf (log h) /\ fits 64 (claim_blk_seq h) /\
  fits 64 (zil_flags h) /\ fits 64 (claim_lr_seq h).

Lemma hoare_zil BD {L : BinaryDecoderLaws BD} w : hoare (DecoderBuffer.inv w) (from_decoder BD) wf.
Proof.
  unfold from_decoder. do 2 ccall. eapply hoare_bind; [apply hoare_map_err, Bp.hoare_bp; exact L|]. intros p Hp.
  repeat ccall. apply hoare_ret. now splits.
Qed.

Definition layout (o : EndianOrder) (h : ZilHeader) : bytes :=
  int_to o 8 (claim_txg h) ++ int_to o 8 (replay_seq h) ++ Dn.ptr_layout o (log h) ++
  int_to o 8 (claim_blk_seq h) ++ int_to o 8 (zil_flags h) ++ int_to o 8 (claim_lr_seq h) ++ zrep PADDING_SIZE 0.

Lemma zil_reads o h :
  wf h -> Dn.ptr_layable o (log h) -> reads (from_decoder (endian_decoder o)) (layout o h) h.
Proof.
  intros (? & ? & _ & ? & ? & ?) Hl. unfold from_decoder, layout. do 2 cread.
  eapply reads_bind; [apply reads_map_err, Dn.reads_ptr_bp, Hl|].
  do 3 cread. apply reads_last. eapply reads_bind; [now apply r_zeros|]. destruct h; apply reads_ret.
Qed.
End Zil.

(** ** The object set *)
Module ObjectSetType.
Inductive t : Type := None | Meta | ZFS | ZVol | Other | Any.
#[global] Instance eq_dec : EqDecision t. Proof. solve_decision. Defined.
Definition into_u64 (x : t) : Z :=
  match x with None => 0 | Meta => 1 | ZFS => 2 | ZVol => 3 | Other => 4 | Any => 5 end.
Definition try_from (c : Z) : outcome Z t :=
  match c with
  | 0 => Ok None | 1 => Ok Meta | 2 => Ok ZFS | 3 => Ok ZVol | 4 => Ok Other | 5 => Ok Any
  | _ => Err c
  end.
Lemma os_type_safe c : safe (fun _ => True) (try_from c).
Proof. unfold try_from. repeat case_match; done. Qed.
Lemma os_type_roundtrip x : fits 64 (into_u64 x) /\ try_from (into_u64 x) = Ok x.
Proof. destruct x; vm_compute; splits; congruence. Qed.
End ObjectSetType.
#[export] Hint Resolve ObjectSetType.os_type_safe : zfs.

Inductive ObjectSetExtension : Type :=
| ExtZero
| ExtTwo (user_used group_used : option Dnode)
| ExtThree (user_used group_used project_used : option Dnode).

Record ObjectSet : Type := {
  os_dnode : Dnode;
  zil_header : ZilHeader;
  os_type : ObjectSetType.t;
  user_accounting_complete : bool;
  user_object_accounting_complete : bool;
  project_quota_complete : bool;
  portable_mac : bytes;
  local_mac : bytes;
  extension : ObjectSetExtension
}.

Module Os.
Definition MAC_LEN : Z := 32.
Definition PADDING_SIZE_NONE : Z := 240.
Definition PADDING_SIZE_THREE : Z := 1536.
Definition SIZE_EXT_0 : Z := Dn.SIZE + Zil.SIZE + 16 + MAC_LEN * 2 + PADDING_SIZE_NONE.
Definition SIZE_EXT_2 : Z := SIZE_EXT_0 + 2 * Dn.SIZE.
Definition SIZE_EXT_3 : Z := SIZE_EXT_2 + Dn.SIZE + PADDING_SIZE_THREE.
Definition FLAG_USER_ACCOUNTING_COMPLETE : Z := Z.shiftl 1 0.
Definition FLAG_USER_OBJECT_ACCOUNTING_COMPLETE : Z := Z.shiftl 1 1.
Definition FLAG_PROJECT_QUOTA_COMPLETE : Z := Z.shiftl 1 2.
Definition FLAG_ALL : Z :=
  Z.lor (Z.lor FLAG_USER_ACCOUNTING_COMPLETE FLAG_USER_OBJECT_ACCOUNTING_COMPLETE) FLAG_PROJECT_QUOTA_COMPLETE.

Inductive DecodeError : Type :=
| DBinary (err : BinaryDecodeError)
| DDnode (err : Dn.DecodeError)
| DEmptyDnode
| DFlags (flags : Z)
| DObjectSetType (os_type : Z)
| DZilHeader (err : Zil.DecodeError).
Inductive EncodeError : Type :=
| EBinary (err : BinaryEncodeError)
| EDnode (err : Dn.EncodeError)
| EZilHeader (err : Zil.EncodeError).

Definition extension_from_decoder (BD : BinaryDecoder) : SM BinaryDecoderBuffer DecodeError ObjectSetExtension :=
  b ← sm_get;
  if DecoderBuffer.is_empty b then mret ExtZero
  else
    user_used ← sm_map_err DDnode Dn.from_decoder;
    group_used ← sm_map_err DDnode Dn.from_decoder;
    b ← sm_get;
    if DecoderBuffer.is_empty b then mret (ExtTwo user_used group_used)
    else
      project_used ← sm_map_err DDnode Dn.from_decoder;
      sm_map_err DBinary (d_skip_zeros PADDING_SIZE_THREE);;
      mret (ExtThree user_used group_used project_used).

Definition from_decoder (BD : BinaryDecoder) : SM BinaryDecoderBuffer DecodeError ObjectSet :=
  dnode ← sm_map_err DDnode Dn.from_decoder;
  dnode ← sm_lift (ok_or dnode DEmptyDnode);
  zil_header ← sm_map_err DZilHeader (Zil.from_decoder BD);
  c ← sm_map_err DBinary get_u64;
  os_type ← sm_lift (map_err DObjectSetType (ObjectSetType.try_from c));
  flags ← sm_map_err DBinary get_u64;
  sm_guard (negb (Z.land flags FLAG_ALL =? flags)) (DFlags flags);;
  portable_mac ← sm_map_err DBinary (get_bytes_n MAC_LEN);
  local_mac ← sm_map_err DBinary (get_bytes_n MAC_LEN);
  sm_map_err DBinary (d_skip_zeros PADDING_SIZE_NONE);;
  extension ← extension_from_decoder BD;
  mret {| os_dnode := dnode; zil_header := zil_header; os_type := os_type;
          user_accounting_complete := Dn.has_flag flags FLAG_USER_ACCOUNTING_COMPLETE;
          user_object_accounting_complete := Dn.has_flag flags FLAG_USER_OBJECT_ACCOUNTING_COMPLETE;
          project_quota_complete := Dn.has_flag flags FLAG_PROJECT_QUOTA_COMPLETE;
          portable_mac := portable_mac; local_mac := local_mac; extension := extension |}.

Definition flags_of (s : ObjectSet) : Z :=
  Z.lor (Z.lor (if user_accounting_complete s then FLAG_USER_ACCOUNTING_COMPLETE else 0)
    (if user_object_accounting_complete s then FLAG_USER_OBJECT_ACCOUNTING_COMPLETE else 0))
    (if project_quota_complete s then FLAG_PROJECT_QUOTA_COMPLETE else 0).

Definition to_encoder (BE : BinaryEncoder) (s : ObjectSet) : SM BinaryEncoderBuffer EncodeError unit :=
  sm_map_err EDnode (Dn.to_encoder (os_dnode s));;
  sm_map_err EZilHeader (Zil.to_encoder BE (zil_header s));;
  sm_map_err EBinary (put_u64 (ObjectSetType.into_u64 (os_type s)));;
  sm_map_err EBinary (put_u64 (flags_of s));;
  sm_map_err EBinary (put_bytes (portable_mac s));;
  sm_map_err EBinary (put_bytes (local_mac s));;
  sm_map_err EBinary (put_zeros PADDING_SIZE_NONE);;
  match extension s with
  | ExtZero => mret tt
  | ExtTwo user_used group_used =>
      sm_map_err EDnode (Dn.option_to_encoder user_used);;
      sm_map_err EDnode (Dn.option_to_encoder group_used)
  | ExtThree user_used group_used project_used =>
      sm_map_err EDnode (Dn.option_to_encoder user_used);;
      sm_map_err EDnode (Dn.option_to_encoder group_used);;
      sm_map_err EDnode (Dn.option_to_encoder project_used);;
      sm_map_err EBinary (put_zeros PADDING_SIZE_THREE)
  end.

Definition ext_wf (e : ObjectSetExtension) : Prop :=
  let dn d := match d with Some d => Dn.dnode_wf d | None => True end in
  match e with
  | ExtZero => True
  | ExtTwo u g => dn u /\ dn g
  | ExtThree u g p => dn u /\ dn g /\ dn p
  end.
Definition wf (s : ObjectSet) : Prop :=
  Dn.dnode_wf (os_dnode s) /\ Zil.wf (zil_header s) /\ blen (portable_mac s) = MAC_LEN /\
  bytes_ok (portable_mac s) /\ blen (local_mac s) = MAC_LEN /\ bytes_ok (local_mac s) /\ ext_wf (extension s).

Section hoare.
Context (BD : BinaryDecoder) {L : BinaryDecoderLaws BD} (w : bytes * Z * Z).
Abbreviation I := (DecoderBuffer.inv w).

Lemma h_dnode : hoare I (sm_map_err DDnode Dn.from_decoder)
  (fun d => match d with Some d => Dn.dnode_wf d | None => True end).
Proof. apply hoare_map_err, Dn.hoare_dnode. Qed.

Lemma hoare_extension : hoare I (extension_from_decoder BD) ext_wf.
Proof.
  unfold extension_from_decoder. eapply hoare_bind; [apply hoare_get|]. intros b _.
  destruct (DecoderBuffer.is_empty b); [now apply hoare_ret|].
  do 2 (eapply hoare_bind; [apply h_dnode|]; intros ? ?).
  eapply hoare_bind; [apply hoare_get|]. intros b' _.
  destruct (DecoderBuffer.is_empty b'); [now apply hoare_ret|].
  eapply hoare_bind; [apply h_dnode|]. intros ? ?. ccall. now apply hoare_ret.
Qed.

Lemma hoare_object_set : hoare I (from_decoder BD) wf.
Proof.
  unfold from_decoder. eapply hoare_bind; [apply h_dnode|]. intros d Hd.
  eapply (hoare_bind _ _ _ Dn.dnode_wf); [apply hoare_lift, safe_ok_or; now intros ? ->|]. intros d' Hd'.
  eapply hoare_bind; [apply hoare_map_err, Zil.hoare_zil; exact L|]. intros z Hz.
  repeat ccall. eapply hoare_bind; [apply hoare_extension|]. intros e He. apply hoare_ret.
  cbv beta in *. unfold wf. cbn [os_dnode zil_header portable_mac local_mac extension]. tauto.
Qed.
End hoare.

(** *** The layout *)
Section layout.
Context (o : EndianOrder).
Definition ext_layout (e : ObjectSetExtension) : bytes :=
  match e with
  | ExtZero => []
  | ExtTwo u g => Dn.option_layout o u ++ Dn.option_layout o g
  | ExtThree u g p =>
      Dn.option_layout o u ++ Dn.option_layout o g ++ Dn.option_layout o p ++ zrep PADDING_SIZE_THREE 0
  end.
Definition layout (s : ObjectSet) : bytes :=
  Dn.layout o (os_dnode s) ++ Zil.layout o (zil_header s) ++ int_to o 8 (ObjectSetType.into_u64 (os_type s)) ++
  int_to o 8 (flags_of s) ++ portable_mac s ++ local_mac s ++ zrep PADDING_SIZE_NONE 0 ++ ext_layout (extension s).

Definition ext_layable (e : ObjectSetExtension) : Prop :=
  match e with
  | ExtZero => True
  | ExtTwo u g => Dn.option_layable o u /\ Dn.option_layable o g
  | ExtThree u g p => Dn.option_layable o u /\ Dn.option_layable o g /\ Dn.option_layable o p
  end.
Definition layable (s : ObjectSet) : Prop :=
  wf s /\ Dn.option_layable o (Some (os_dnode s)) /\ Dn.ptr_layable o (log (zil_header s)) /\
  ext_layable (extension s).

Lemma os_flags_spec s :
  fits 64 (flags_of s) /\ Z.land (flags_of s) FLAG_ALL = flags_of s /\
  Dn.has_flag (flags_of s) FLAG_USER_ACCOUNTING_COMPLETE = user_accounting_complete s /\
  Dn.has_flag (flags_of s) FLAG_USER_OBJECT_ACCOUNTING_COMPLETE = user_object_accounting_complete s /\
  Dn.has_flag (flags_of s) FLAG_PROJECT_QUOTA_COMPLETE = project_quota_complete s.
Proof.
  unfold flags_of. destruct (user_accounting_complete s), (user_object_accounting_complete s), (project_quota_complete s);
    vm_compute; splits; congruence.
Qed.

Lemma r_dnode d : Dn.option_layable o d ->
  reads (sm_map_err DDnode (@Dn.from_decoder (endian_decoder o))) (Dn.option_layout o d) d.
Proof. intros. now apply reads_map_err, Dn.reads_option_dnode. Qed.

Lemma layout_nonempty d bs : Dn.option_layable o d -> Dn.option_layout o d ++ bs <> [].
Proof.
  intros [_ Hl]%Dn.option_layout_ok E. apply app_eq_nil in E as [E _]. rewrite E in Hl. done.
Qed.

Lemma ends_extension e :
  ext_layable e -> ends (extension_from_decoder (endian_decoder o)) (ext_layout e) e.
Proof.
  intros He. unfold extension_from_decoder. apply ends_empty.
  - destruct e as [|u g|u g p]; cbn [ext_layout ext_layable] in *; [intros _; apply reads_ends, reads_ret|..];
      intros Hn; now apply layout_nonempty in Hn.
  - destruct e as [|u g|u g p]; cbn [ext_layout ext_layable] in *; [done|..]; intros _.
    + eapply ends_bind; [now apply r_dnode|]. rewrite <- (app_nil_r (Dn.option_layout o g)).
      eapply ends_bind; [now apply r_dnode|]. apply ends_empty; [intros _; apply reads_ends, reads_ret|done].
    + do 2 (eapply ends_bind; [now apply r_dnode|]). apply ends_empty.
      { intros Hn. now apply layout_nonempty in Hn. }
      intros _. eapply ends_bind; [now apply r_dnode|]. apply reads_ends, reads_last.
      eapply reads_bind; [now apply r_zeros|apply reads_ret].
Qed.

Lemma ends_object_set s : layable s -> ends (from_decoder (endian_decoder o)) (layout s) s.
Proof.
  intros ((_ & Hz & Hp & _ & Hm & _ & _) & Hd & Hl & He).
  destruct (os_flags_spec s) as (? & Hfl & Hf1 & Hf2 & Hf3). destruct (ObjectSetType.os_type_roundtrip (os_type s)) as [? Ht].
  unfold from_decoder, layout. eapply ends_bind; [apply (r_dnode (Some (os_dnode s))), Hd|].
  eapply ends_bind_nil; [apply (r_code (fun x => Ok x) id); reflexivity|].
  eapply ends_bind; [now apply reads_map_err, Zil.zil_reads|]. eread.
  eapply ends_bind_nil; [apply r_code, Ht|]. eread.
  eapply ends_bind_nil; [apply reads_guard; now rewrite Hfl, Z.eqb_refl|]. do 2 eread.
  eapply ends_bind; [now apply r_zeros|]. eapply ends_last; [now apply ends_extension|].
  rewrite Hf1, Hf2, Hf3. destruct s; apply reads_ret.
Qed.

Lemma os_layout_ok s :
  layable s -> bytes_ok (layout s) /\
  blen (layout s) = match extension s with ExtZero => SIZE_EXT_0 | ExtTwo _ _ => SIZE_EXT_2 | ExtThree _ _ _ => SIZE_EXT_3 end.
Proof.
  intros ((_ & _ & Hp & Hpb & Hm & Hmb & _) & Hd & Hl & He).
  pose proof (Dn.option_layout_ok _ _ Hd) as [Hdb Hdl]. cbn [Dn.option_layout] in *.
  assert (Hzb : bytes_ok (Zil.layout o (zil_header s)) /\ blen (Zil.layout o (zil_header s)) = Zil.SIZE).
  { unfold Zil.layout. rewrite !Forall_app, !blen_app, !blen_int_to, Dn.blen_ptr_layout, blen_zrep by (done || exact Hl).
    split; [|done]. auto 10 using bytes_ok_int_to, bytes_ok_zrep, Dn.bytes_ok_ptr_layout. }
  assert (Heb : bytes_ok (ext_layout (extension s)) /\ blen (ext_layout (extension s)) =
    match extension s with ExtZero => 0 | ExtTwo _ _ => 2 * Dn.SIZE | ExtThree _ _ _ => 3 * Dn.SIZE + PADDING_SIZE_THREE end).
  { destruct (extension s) as [|u g|u g p]; cbn [ext_layout ext_layable] in *; [split; [constructor|done]|..];
      rewrite !Forall_app, !blen_app, ?blen_zrep by done.
    - destruct He as [[Hu1 Hu2]%Dn.option_layout_ok [Hg1 Hg2]%Dn.option_layout_ok]. now rewrite Hu2, Hg2.
    - destruct He as ([Hu1 Hu2]%Dn.option_layout_ok & [Hg1 Hg2]%Dn.option_layout_ok & [Hp1 Hp2]%Dn.option_layout_ok).
      rewrite Hu2, Hg2, Hp2. auto using bytes_ok_zrep. }
  unfold layout. rewrite !Forall_app, !blen_app, !blen_int_to, blen_zrep, Hdl, Hp, Hm, (proj2 Hzb), (proj2 Heb) by done.
  split; [|now destruct (extension s)]. splits; try tauto; auto using bytes_ok_int_to, bytes_ok_zrep.
Qed.
End layout.

(** An object set laid out field by field, in any of its three sizes and either
    byte order, decodes to itself: 1024, 2048 or 4096 bytes, by what the block
    holds. *)
Theorem object_set_decodes_layout o s :
  layable o s ->
  with_decoder o from_decoder (layout o s) = Ok s /\
  blen (layout o s) = match extension s with ExtZero => 1024 | ExtTwo _ _ => 2048 | ExtThree _ _ _ => 4096 end.
Proof.
  intros Hl. destruct (os_layout_ok o s Hl) as [Hb Hn]. split; [|rewrite Hn; now destruct (extension s)].
  apply with_decoder_ends; [now apply ends_object_set|done].
Qed.

Definition sample_set : ObjectSet := {|
  os_dnode := Dn.sample_dnode;
  zil_header := {| claim_blk_seq := 1; claim_lr_seq := 2; claim_txg := 3; zil_flags := 0; log := None; replay_seq := 4 |};
  os_type := ObjectSetType.ZFS; user_accounting_complete := true; user_object_accounting_complete := false;
  project_quota_complete := true; portable_mac := zrep 32 7; local_mac := zrep 32 8;
  extension := ExtTwo (Some Dn.sample_dnode) None |}.

Lemma object_set_decodes_layout_witness :
  with_decoder Big from_decoder (layout Big sample_set) = Ok sample_set /\ blen (layout Big sample_set) = 2048.
Proof.
  apply (object_set_decodes_layout Big sample_set).
  assert (Hd : Dn.option_layable Big (Some Dn.sample_dnode)).
  { split; [exact Dn.sample_dnode_wf|]. split; [exact (Dn.sample_dnode_layable_in Big)|vm_compute; reflexivity]. }
  split; [|split; [exact Hd|split; [exact I|split; [exact Hd|exact I]]]].
  split; [exact Dn.sample_dnode_wf|]. split; [repeat split; vm_compute; congruence|].
  split; [reflexivity|]. split; [apply Forall_replicate; unfold is_byte; lia|]. split; [reflexivity|].
  split; [apply Forall_replicate; unfold is_byte; lia|]. split; [exact Dn.sample_dnode_wf|exact I].
Defined.

(** Decoding any bytes as an object set ends without a panic, and what it returns
    is well formed, its dnode array included. *)
Theorem object_set_decode_safe o l : bytes_ok l -> safe wf (with_decoder o from_decoder l).
Proof.
  intros Hl. apply with_decoder_safe; [|exact Hl]. intros w. apply hoare_object_set, endian_decoder_laws.
Qed.

Lemma object_set_decode_safe_witness : safe wf (with_decoder Little from_decoder (zrep 1024 1)).
Proof. apply (object_set_decode_safe Little (zrep 1024 1)). apply Forall_replicate. unfold is_byte. lia. Defined.
End Os.
