(* ===== verification/Zap.v ===== *)
(** * ZAP blocks (src/phys/zap.rs)

    The ZFS attribute processor stores name-value pairs, either as one block of
    fixed-size entries (micro) or as a hash table of leaf blocks made of chunks
    (mega, or fat).  This file holds the headers, entries and chunks with their
    decoders and encoders, and the iterator over a micro block. *)

From S2P Require Import Prelude Errors Decoder Encoder Codec.

Open Scope Z_scope.
Open Scope list_scope.

(** ** Normalization codes *)
Module ZapCaseNormalization.
Inductive t : Type := None | Upper | Lower.
#[global] Instance eq_dec : EqDecision t. Proof. solve_decision. Defined.
Definition MASK_ALL : Z := Z.lor 0x02 0x04.
Definition into_u64 (x : t) : Z := match x with None => 0x00 | Upper => 0x02 | Lower => 0x04 end.
Definition try_from (c : Z) : outcome Z t :=
  if c =? 0x00 then Ok None else if c =? 0x02 then Ok Upper else if c =? 0x04 then Ok Lower else Err c.
End ZapCaseNormalization.

Module ZapUnicodeNormalization.
Inductive t : Type := None | NFD | NFKD | NFC | NFKC.
#[global] Instance eq_dec : EqDecision t. Proof. solve_decision. Defined.
Definition MASK_ALL : Z := Z.lor (Z.lor (Z.lor 0x10 0x20) 0x50) 0x60.
Definition into_u64 (x : t) : Z :=
  match x with None => 0x00 | NFD => 0x10 | NFKD => 0x20 | NFC => 0x50 | NFKC => 0x60 end.
Definition try_from (c : Z) : outcome Z t :=
  if c =? 0x00 then Ok None else if c =? 0x10 then Ok NFD else if c =? 0x20 then Ok NFKD
  else if c =? 0x50 then Ok NFC else if c =? 0x60 then Ok NFKC else Err c.
End ZapUnicodeNormalization.

Definition NORMALIZATION_MASK : Z := Z.lor ZapCaseNormalization.MASK_ALL ZapUnicodeNormalization.MASK_ALL.

Definition normalization (c : ZapCaseNormalization.t) (u : ZapUnicodeNormalization.t) : Z :=
  Z.lor (ZapCaseNormalization.into_u64 c) (ZapUnicodeNormalization.into_u64 u).

(** Both codes are found again in their combination. *)
Lemma normalization_spec c u :
  fits 64 (normalization c u) /\ Z.land (normalization c u) NORMALIZATION_MASK = normalization c u /\
  ZapCaseNormalization.try_from (Z.land (normalization c u) ZapCaseNormalization.MASK_ALL) = Ok c /\
  ZapUnicodeNormalization.try_from (Z.land (normalization c u) ZapUnicodeNormalization.MASK_ALL) = Ok u.
Proof. destruct c, u; vm_compute; splits; congruence. Qed.

Lemma case_safe c : safe (fun _ => True) (ZapCaseNormalization.try_from c).
Proof. unfold ZapCaseNormalization.try_from. repeat case_match; done. Qed.
Lemma unicode_safe c : safe (fun _ => True) (ZapUnicodeNormalization.try_from c).
Proof. unfold ZapUnicodeNormalization.try_from. repeat case_match; done. Qed.
#[export] Hint Resolve case_safe unicode_safe : zfs.

(** ** The micro header *)
Record ZapMicroHeader : Type := {
  mi_salt : Z;
  mi_case_normalization : ZapCaseNormalization.t;
  mi_unicode_normalization : ZapUnicodeNormalization.t
}.

Module MicroHeader.
Definition SIZE : Z := 64.
Definition BLOCK_TYPE : Z := 0x8000000000000003.
Definition PADDING_SIZE : Z := 40.

Inductive DecodeError : Type :=
| DBinary (err : BinaryDecodeError)
| DBlockType (block_type : Z)
| DCaseNormalization (case_normalization : Z)
| DNormalization (normalization : Z)
| DUnicodeNormalization (unicode_normalization : Z).
Inductive EncodeError : Type := EBinary (err : BinaryEncodeError).

Definition from_decoder (BD : BinaryDecoder) : SM BinaryDecoderBuffer DecodeError ZapMicroHeader :=
  block_type ← sm_map_err DBinary get_u64;
  sm_guard (negb (block_type =? BLOCK_TYPE)) (DBlockType block_type);;
  salt ← sm_map_err DBinary get_u64;
  normalization ← sm_map_err DBinary get_u64;
  sm_guard (negb (Z.land normalization NORMALIZATION_MASK =? normalization)) (DNormalization normalization);;
  case_normalization ← sm_lift (map_err DCaseNormalization
    (ZapCaseNormalization.try_from (Z.land normalization ZapCaseNormalization.MASK_ALL)));
  unicode_normalization ← sm_lift (map_err DUnicodeNormalization
    (ZapUnicodeNormalization.try_from (Z.land normalization ZapUnicodeNormalization.MASK_ALL)));
  sm_map_err DBinary (d_skip_zeros PADDING_SIZE);;
  mret {| mi_salt := salt; mi_case_normalization := case_normalization;
          mi_unicode_normalization := unicode_normalization |}.

Definition to_encoder (BE : BinaryEncoder) (h : ZapMicroHeader) : SM BinaryEncoderBuffer EncodeError unit :=
  sm_map_err EBinary (put_u64 BLOCK_TYPE);;
  sm_map_err EBinary (put_u64 (mi_salt h));;
  sm_map_err EBinary (put_u64 (normalization (mi_case_normalization h) (mi_unicode_normalization h)));;
  sm_map_err EBinary (put_zeros PADDING_SIZE).

Definition wf (h : ZapMicroHeader) : Prop := fits 64 (mi_salt h).

Lemma hoare_micro_header BD {L : BinaryDecoderLaws BD} w : hoare (DecoderBuffer.inv w) (from_decoder BD) wf.
Proof. unfold from_decoder. repeat ccall. apply hoare_ret. assumption. Qed.

Definition layout (o : EndianOrder) (h : ZapMicroHeader) : bytes :=
  int_to o 8 BLOCK_TYPE ++ int_to o 8 (mi_salt h) ++
  int_to o 8 (normalization (mi_case_normalization h) (mi_unicode_normalization h)) ++ zrep PADDING_SIZE 0.

Lemma micro_header_writes o h : writes (to_encoder (endian_encoder o) h) (layout o h).
Proof. unfold to_encoder, layout. do 3 cwrite. now apply w_zeros. Qed.

Lemma micro_header_reads o h : wf h -> reads (from_decoder (endian_decoder o)) (layout o h) h.
Proof.
  intros Hs. destruct (normalization_spec (mi_case_normalization h) (mi_unicode_normalization h)) as (Hf & Hm & Hc & Hu).
  unfold from_decoder, layout.
  eapply reads_bind; [apply r_u64; vm_compute; split; congruence|]. cguard; [done|].
  do 2 cread. cguard; [now rewrite Hm, Z.eqb_refl|].
  eapply reads_bind_nil; [apply r_code, Hc|]. eapply reads_bind_nil; [apply r_code, Hu|].
  apply reads_last. eapply reads_bind; [now apply r_zeros|]. destruct h; apply reads_ret.
Qed.
End MicroHeader.

(** ** Micro entries *)
Record ZapMicroEntry : Type := { e_cd : Z; e_name : bytes; e_value : Z }.
Record ZapMicroEntryRef : Type := { cd : Z; name : bytes; value : Z }.

Module MicroEntry.
Definition SIZE : Z := 64.
Definition NAME_MAX : Z := 49.
Definition PADDING_SIZE : Z := 2.

Inductive DecodeError : Type :=
| DBinary (err : BinaryDecodeError)
| DNameNotNullTerminated
| DInvalidStr (err : Utf8Error).
Inductive EncodeError : Type :=
| EBinary (err : BinaryEncodeError)
| ENameTooLong (length : Z).

(** The bytes before the first zero, if there is one. *)
Fixpoint scan_null (l : bytes) (length : Z) : option Z :=
  match l with
  | [] => None
  | byte :: l' => if byte =? 0 then Some length else scan_null l' (length + 1)
  end.

Section decode.
Context (BD : BinaryDecoder).
Abbreviation D := (SM BinaryDecoderBuffer DecodeError).

Definition entry_from_decoder : D (option ZapMicroEntry) :=
  empty ← sm_map_err DBinary (d_is_skip_zeros SIZE);
  if (empty : bool) then mret None
  else
    value ← sm_map_err DBinary get_u64;
    cd ← sm_map_err DBinary get_u32;
    sm_map_err DBinary (d_skip_zeros PADDING_SIZE);;
    name ← sm_map_err DBinary (get_bytes_n (NAME_MAX + 1));
    match scan_null name 0 with
    | None => sm_err DNameNotNullTerminated
    | Some _ =>
        name ← sm_lift (unwrap (get_range name 0 NAME_MAX));
        mret (Some {| e_cd := cd; e_name := name; e_value := value |})
    end.

Definition body_from_decoder : D (option ZapMicroEntryRef) :=
  value ← sm_map_err DBinary get_u64;
  cd ← sm_map_err DBinary get_u32;
  sm_map_err DBinary (d_skip_zeros PADDING_SIZE);;
  name ← sm_map_err DBinary (get_bytes_n (NAME_MAX + 1));
  match scan_null name 0 with
  | None => sm_err DNameNotNullTerminated
  | Some length =>
      data ← sm_lift (unwrap (get_range name 0 length));
      name ← sm_lift (map_err DInvalidStr (from_utf8 data));
      mret (Some {| cd := cd; name := name; value := value |})
  end.
Definition from_decoder : D (option ZapMicroEntryRef) :=
  empty ← sm_map_err DBinary (d_is_skip_zeros SIZE);
  if (empty : bool) then mret None else body_from_decoder.

(** [ZapMicroIterator::next]: an entry, an error, or the end of the block.
    Each turn that goes on has consumed an empty entry. *)
Fixpoint next (fuel : nat) : D (option ZapMicroEntryRef) :=
  b ← sm_get;
  if DecoderBuffer.is_empty b then mret None
  else
    match fuel with
    | O => sm_panic
    | S fuel' =>
        entry ← from_decoder;
        match entry with
        | Some e => mret (Some e)
        | None => next fuel'
        end
    end.
End decode.

Section encode.
Context (BE : BinaryEncoder).
Abbreviation W := (SM BinaryEncoderBuffer EncodeError).

Definition entry_to_encoder (e : ZapMicroEntry) : W unit :=
  sm_map_err EBinary (put_u64 (e_value e));;
  sm_map_err EBinary (put_u32 (e_cd e));;
  sm_map_err EBinary (put_zeros PADDING_SIZE);;
  sm_map_err EBinary (put_bytes (e_name e));;
  sm_map_err EBinary (put_u8 0).

Definition to_encoder (e : ZapMicroEntryRef) : W unit :=
  sm_map_err EBinary (put_u64 (value e));;
  sm_map_err EBinary (put_u32 (cd e));;
  sm_map_err EBinary (put_zeros PADDING_SIZE);;
  let length := blen (name e) in
  sm_guard (NAME_MAX <? length) (ENameTooLong length);;
  sm_map_err EBinary (put_bytes (name e));;
  sm_map_err EBinary (put_zeros (NAME_MAX + 1 - length));;
  sm_map_err EBinary (put_u8 0).

Definition empty_to_encoder : W unit := sm_map_err EBinary (put_zeros SIZE).
Definition option_to_encoder (e : option ZapMicroEntryRef) : W unit :=
  match e with Some e => to_encoder e | None => empty_to_encoder end.
End encode.

Definition wf (e : ZapMicroEntryRef) : Prop :=
  fits 32 (cd e) /\ fits 64 (value e) /\ bytes_ok (name e) /\ blen (name e) <= NAME_MAX /\
  Forall (fun b => b <> 0) (name e) /\ from_utf8 (name e) = Ok (name e).

Lemma scan_null_spec l n i :
  scan_null l n = Some i ->
  n <= i < n + blen l /\ Forall (fun b => b <> 0) (ztake (i - n) l).
Proof.
  revert n. induction l as [|x l IH]; intros n; cbn [scan_null]; [done|].
  rewrite blen_cons. pose proof (blen_nonneg l). destruct (Z.eqb_spec x 0) as [->|Hx].
  - intros [= ->]. rewrite Z.sub_diag. split; [lia|]. constructor.
  - intros (Hi & Hf)%IH. split; [lia|]. rewrite ztake_take in * by lia.
    replace (Z.to_nat (i - n)) with (S (Z.to_nat (i - (n + 1)))) by lia. cbn. now constructor.
Qed.

Lemma scan_null_app l n r :
  Forall (fun b => b <> 0) l -> scan_null (l ++ 0 :: r) n = Some (n + blen l).
Proof.
  intros Hl. revert n. induction Hl as [|x l Hx Hl IH]; intros n; cbn.
  - f_equal. change (blen []) with 0. lia.
  - rewrite (proj2 (Z.eqb_neq _ _) Hx), IH, blen_cons. f_equal. lia.
Qed.

Lemma from_utf8_safe l : safe (fun n => n = l /\ from_utf8 l = Ok l) (from_utf8 l).
Proof. unfold from_utf8. now destruct (utf8_validate 0 l). Qed.

Lemma hoare_entry_body BD {L : BinaryDecoderLaws BD} w :
  hoare (DecoderBuffer.inv w) (body_from_decoder BD) (fun r => match r with Some e => wf e | None => True end).
Proof.
  unfold body_from_decoder. repeat ccall. cbv beta in *.
  destruct (scan_null _ 0) as [i|] eqn:Ei; [|apply hoare_err].
  apply scan_null_spec in Ei as [Hi Hf]. rewrite Z.sub_0_r in Hf.
  match goal with H : blen _ = _ /\ bytes_ok _ |- _ => destruct H as [Hl Hb] end.
  rewrite get_range_ok by lia. rewrite zdrop_0, Z.sub_0_r. unfold NAME_MAX in Hl.
  eapply (hoare_bind _ _ _ (eq (ztake i _))); [now apply hoare_lift|]. intros d <-.
  eapply hoare_bind; [apply hoare_lift, safe_map_err, from_utf8_safe|]. intros n [-> Hn].
  apply hoare_ret. unfold wf, NAME_MAX. cbn [cd value name].
  splits; auto using bytes_ok_ztake. rewrite blen_ztake by lia. lia.
Qed.

Lemma hoare_entry BD {L : BinaryDecoderLaws BD} w :
  hoare (DecoderBuffer.inv w) (from_decoder BD) (fun r => match r with Some e => wf e | None => True end).
Proof.
  unfold from_decoder. ccall. destruct a; [now apply hoare_ret|]. now apply hoare_entry_body.
Qed.

(** *** The layout of an entry *)
Definition layout (o : EndianOrder) (e : option ZapMicroEntryRef) : bytes :=
  match e with
  | Some e => int_to o 8 (value e) ++ int_to o 4 (cd e) ++ zrep PADDING_SIZE 0 ++
              (name e ++ 0 :: zrep (NAME_MAX - blen (name e)) 0)
  | None => zrep SIZE 0
  end.

Lemma blen_entry_layout o e :
  match e with Some e => blen (name e) <= NAME_MAX | None => True end -> blen (layout o e) = SIZE.
Proof.
  destruct e as [e|]; cbn [layout]; [|done]. intros He. unfold NAME_MAX, SIZE, PADDING_SIZE in *.
  rewrite !blen_app, !blen_int_to, blen_cons, !blen_zrep by lia. lia.
Qed.

Lemma entry_layout_bytes o e :
  match e with Some e => wf e | None => True end -> bytes_ok (layout o e).
Proof.
  destruct e as [e|]; cbn [layout]; [|intros; apply bytes_ok_zrep]. intros (_ & _ & Hb & _).
  rewrite !Forall_app. splits; auto using bytes_ok_zrep, bytes_ok_int_to.
  constructor; [unfold is_byte; lia|apply bytes_ok_zrep].
Qed.

Lemma entry_reads o e :
  match e with Some e => wf e /\ name e <> [] | None => True end ->
  reads (from_decoder (endian_decoder o)) (layout o e) e.
Proof.
  intros He. apply r_empty_test.
  - apply blen_entry_layout. destruct e as [e|]; [|done]. destruct He as [(_ & _ & _ & Hl & _) _]. exact Hl.
  - destruct e as [e|]; [|done]. destruct He as [(_ & _ & _ & _ & Hn & _) Hne]. cbn [layout].
    rewrite !forallb_app. destruct (name e) as [|x l]; [done|]. inversion Hn as [|? ? Hx _]; subst. cbn.
    destruct x; [done|..]; cbn; now rewrite ?andb_false_r.
  - destruct e as [e|]; [|cbn [layout]; now rewrite forallb_zrep].
    intros _. destruct He as [(Hc & Hv & Hb & Hl & Hn & Hu) _]. unfold body_from_decoder. cbn [layout].
    do 2 cread. eapply reads_bind; [now apply r_zeros|]. apply reads_last.
    eapply reads_bind.
    { apply r_bytes. unfold NAME_MAX in *. rewrite blen_app, blen_cons, blen_zrep by lia. lia. }
    rewrite scan_null_app by done. cbn [Z.add].
    pose proof (get_range_middle [] (name e) (0 :: zrep (NAME_MAX - blen (name e)) 0)) as Hg.
    cbn [app] in Hg. change (blen []) with 0 in Hg. cbn [Z.add] in Hg. rewrite Hg. cbn [unwrap].
    eapply reads_bind_nil; [apply (r_code (fun x => Ok x) id); reflexivity|].
    eapply reads_bind_nil; [apply r_code, Hu|]. destruct e; apply reads_ret.
Qed.
End MicroEntry.

Module MicroIterator.
Inductive IteratorError : Type :=
| IBinary (err : BinaryDecodeError)
| ISize (size : Z)
| IZapMicroHeader (err : MicroHeader.DecodeError).

Definition from_decoder (BD : BinaryDecoder) : SM BinaryDecoderBuffer IteratorError ZapMicroHeader :=
  header ← sm_map_err IZapMicroHeader (MicroHeader.from_decoder BD);
  len ← sm_gets DecoderBuffer.len;
  sm_guard (negb (len mod MicroEntry.SIZE =? 0)) (ISize len);;
  mret header.
End MicroIterator.

(** ** The mega header *)
Record ZapMegaPointerTable : Type := {
  starting_block : Z; blocks : Z; hash_bits : Z; next_block : Z; blocks_copied : Z
}.
Record ZapMegaHeader : Type := {
  table : ZapMegaPointerTable;
  next_free_block : Z;
  number_of_leafs : Z;
  me_number_of_entries : Z;
  me_salt : Z;
  me_case_normalization : ZapCaseNormalization.t;
  me_unicode_normalization : ZapUnicodeNormalization.t;
  hash_bits_48 : bool;
  key_u64 : bool;
  pre_hashed_key : bool
}.

Module MegaPointerTable.
Definition SIZE : Z := 40.
Inductive DecodeError : Type := DBinary (err : BinaryDecodeError).
Inductive EncodeError : Type := EBinary (err : BinaryEncodeError).

Definition from_decoder (BD : BinaryDecoder) : SM BinaryDecoderBuffer DecodeError ZapMegaPointerTable :=
  starting_block ← sm_map_err DBinary get_u64;
  blocks ← sm_map_err DBinary get_u64;
  hash_bits ← sm_map_err DBinary get_u64;
  next_block ← sm_map_err DBinary get_u64;
  blocks_copied ← sm_map_err DBinary get_u64;
  mret {| starting_block := starting_block; blocks := blocks; hash_bits := hash_bits;
          next_block := next_block; blocks_copied := blocks_copied |}.

Definition to_encoder (BE : BinaryEncoder) (t : ZapMegaPointerTable) : SM BinaryEncoderBuffer EncodeError unit :=
  sm_map_err EBinary (put_u64 (starting_block t));;
  sm_map_err EBinary (put_u64 (blocks t));;
  sm_map_err EBinary (put_u64 (hash_bits t));;
  sm_map_err EBinary (put_u64 (next_block t));;
  sm_map_err EBinary (put_u64 (blocks_copied t)).

Definition wf (t : ZapMegaPointerTable) : Prop :=
  fits 64 (starting_block t) /\ fits 64 (blocks t) /\ fits 64 (hash_bits t) /\ fits 64 (next_block t) /\
  fits 64 (blocks_copied t).
Definition layout (o : EndianOrder) (t : ZapMegaPointerTable) : bytes :=
  int_to o 8 (starting_block t) ++ int_to o 8 (blocks t) ++ int_to o 8 (hash_bits t) ++
  int_to o 8 (next_block t) ++ int_to o 8 (blocks_copied t).

Lemma table_writes o t : writes (to_encoder (endian_encoder o) t) (layout o t).
Proof. unfold to_encoder, layout. do 4 cwrite. apply w_u64. Qed.
Lemma table_reads o t : wf t -> reads (from_decoder (endian_decoder o)) (layout o t) t.
Proof.
  intros (? & ? & ? & ? & ?). unfold from_decoder, layout. do 4 cread. apply reads_last. cread.
  destruct t; apply reads_ret.
Qed.
Lemma hoare_table BD {L : BinaryDecoderLaws BD} w : hoare (DecoderBuffer.inv w) (from_decoder BD) wf.
Proof. unfold from_decoder. repeat ccall. apply hoare_ret. now splits. Qed.
End MegaPointerTable.

Definition SECTOR_SHIFT : Z := 9.
Definition is_power_of_two (n : Z) : bool := (0 <? n) && (Z.land n (n - 1) =? 0).

Module MegaHeader.
Definition SIZE : Z := 104.
Definition BLOCK_TYPE : Z := 0x8000000000000001.
Definition MAGIC : Z := 0x00000002f52ab2ab.
Definition FLAG_HASH_BITS_48 : Z := Z.shiftl 1 0.
Definition FLAG_KEY_U64 : Z := Z.shiftl 1 1.
Definition FLAG_PRE_HASHED_KEY : Z := Z.shiftl 1 2.
Definition FLAG_ALL : Z := Z.lor (Z.lor FLAG_HASH_BITS_48 FLAG_KEY_U64) FLAG_PRE_HASHED_KEY.

Inductive DecodeError : Type :=
| DBinary (err : BinaryDecodeError)
| DBlockSize (block_size : Z)
| DBlockType (block_type : Z)
| DCaseNormalization (case_normalization : Z)
| DFlags (flags : Z)
| DMagic (magic : Z)
| DNormalization (normalization : Z)
| DUnicodeNormalization (unicode_normalization : Z)
| DZapMegaPointerTable (err : MegaPointerTable.DecodeError).
Inductive EncodeError : Type :=
| EBinary (err : BinaryEncodeError)
| EZapMegaPointerTable (err : MegaPointerTable.EncodeError).

Definition from_decoder (BD : BinaryDecoder) : SM BinaryDecoderBuffer DecodeError ZapMegaHeader :=
  block_type ← sm_map_err DBinary get_u64;
  sm_guard (negb (block_type =? BLOCK_TYPE)) (DBlockType block_type);;
  magic ← sm_map_err DBinary get_u64;
  sm_guard (negb (magic =? MAGIC)) (DMagic magic);;
  table ← sm_map_err DZapMegaPointerTable (MegaPointerTable.from_decoder BD);
  next_free_block ← sm_map_err DBinary get_u64;
  number_of_leafs ← sm_map_err DBinary get_u64;
  number_of_entries ← sm_map_err DBinary get_u64;
  salt ← sm_map_err DBinary get_u64;
  normalization ← sm_map_err DBinary get_u64;
  sm_guard (negb (Z.land normalization NORMALIZATION_MASK =? normalization)) (DNormalization normalization);;
  case_normalization ← sm_lift (map_err DCaseNormalization
    (ZapCaseNormalization.try_from (Z.land normalization ZapCaseNormalization.MASK_ALL)));
  unicode_normalization ← sm_lift (map_err DUnicodeNormalization
    (ZapUnicodeNormalization.try_from (Z.land normalization ZapUnicodeNormalization.MASK_ALL)));
  flags ← sm_map_err DBinary get_u64;
  sm_guard (negb (Z.land flags FLAG_ALL =? flags)) (DFlags flags);;
  mret {| table := table; next_free_block := next_free_block; number_of_leafs := number_of_leafs;
          me_number_of_entries := number_of_entries; me_salt := salt;
          me_case_normalization := case_normalization; me_unicode_normalization := unicode_normalization;
          hash_bits_48 := negb (Z.land flags FLAG_HASH_BITS_48 =? 0);
          key_u64 := negb (Z.land flags FLAG_KEY_U64 =? 0);
          pre_hashed_key := negb (Z.land flags FLAG_PRE_HASHED_KEY =? 0) |}.

Definition flags_of (h : ZapMegaHeader) : Z :=
  Z.lor (Z.lor (if hash_bits_48 h then FLAG_HASH_BITS_48 else 0) (if key_u64 h then FLAG_KEY_U64 else 0))
    (if pre_hashed_key h then FLAG_PRE_HASHED_KEY else 0).

Definition to_encoder (BE : BinaryEncoder) (h : ZapMegaHeader) : SM BinaryEncoderBuffer EncodeError unit :=
  sm_map_err EBinary (put_u64 BLOCK_TYPE);;
  sm_map_err EBinary (put_u64 MAGIC);;
  sm_map_err EZapMegaPointerTable (MegaPointerTable.to_encoder BE (table h));;
  sm_map_err EBinary (put_u64 (next_free_block h));;
  sm_map_err EBinary (put_u64 (number_of_leafs h));;
  sm_map_err EBinary (put_u64 (me_number_of_entries h));;
  sm_map_err EBinary (put_u64 (me_salt h));;
  sm_map_err EBinary (put_u64 (normalization (me_case_normalization h) (me_unicode_normalization h)));;
  sm_map_err EBinary (put_u64 (flags_of h)).

Definition get_padding_size_and_embedded_leaf_pointer_count (block_size : Z) : outcome DecodeError (Z * Z) :=
  if (block_size <? Z.shiftl 1 SECTOR_SHIFT) || negb (is_power_of_two block_size)
  then Err (DBlockSize block_size)
  else
    let half := block_size / 2 in
    match checked_sub half SIZE with
    | Some padding => Ok (padding, half / 8)
    | None => Panic
    end.

Definition wf (h : ZapMegaHeader) : Prop :=
  MegaPointerTable.wf (table h) /\ fits 64 (next_free_block h) /\ fits 64 (number_of_leafs h) /\
  fits 64 (me_number_of_entries h) /\ fits 64 (me_salt h).
Definition layout (o : EndianOrder) (h : ZapMegaHeader) : bytes :=
  int_to o 8 BLOCK_TYPE ++ int_to o 8 MAGIC ++ MegaPointerTable.layout o (table h) ++
  int_to o 8 (next_free_block h) ++ int_to o 8 (number_of_leafs h) ++ int_to o 8 (me_number_of_entries h) ++
  int_to o 8 (me_salt h) ++ int_to o 8 (normalization (me_case_normalization h) (me_unicode_normalization h)) ++
  int_to o 8 (flags_of h).

Lemma mega_flags_spec h :
  fits 64 (flags_of h) /\ Z.land (flags_of h) FLAG_ALL = flags_of h /\
  negb (Z.land (flags_of h) FLAG_HASH_BITS_48 =? 0) = hash_bits_48 h /\
  negb (Z.land (flags_of h) FLAG_KEY_U64 =? 0) = key_u64 h /\
  negb (Z.land (flags_of h) FLAG_PRE_HASHED_KEY =? 0) = pre_hashed_key h.
Proof. unfold flags_of. destruct (hash_bits_48 h), (key_u64 h), (pre_hashed_key h); vm_compute; splits; congruence. Qed.

Lemma mega_header_writes o h : writes (to_encoder (endian_encoder o) h) (layout o h).
Proof.
  unfold to_encoder, layout. do 2 cwrite. eapply writes_bind; [apply writes_map_err, MegaPointerTable.table_writes|].
  do 5 cwrite. apply w_u64.
Qed.

Lemma mega_header_reads o h : wf h -> reads (from_decoder (endian_decoder o)) (layout o h) h.
Proof.
  intros (Ht & ? & ? & ? & ?).
  destruct (normalization_spec (me_case_normalization h) (me_unicode_normalization h)) as (? & Hm & Hc & Hu).
  destruct (mega_flags_spec h) as (? & Hfl & H48 & Hk & Hp). unfold from_decoder, layout.
  eapply reads_bind; [apply r_u64; vm_compute; split; congruence|]. cguard; [done|].
  eapply reads_bind; [apply r_u64; vm_compute; split; congruence|]. cguard; [done|].
  eapply reads_bind; [now apply reads_map_err, MegaPointerTable.table_reads|].
  do 5 cread. cguard; [now rewrite Hm, Z.eqb_refl|].
  eapply reads_bind_nil; [apply r_code, Hc|]. eapply reads_bind_nil; [apply r_code, Hu|].
  apply reads_last. cread. cguard; [now rewrite Hfl, Z.eqb_refl|].
  rewrite H48, Hk, Hp. destruct h; apply reads_ret.
Qed.

Lemma hoare_mega_header BD {L : BinaryDecoderLaws BD} w : hoare (DecoderBuffer.inv w) (from_decoder BD) wf.
Proof.
  unfold from_decoder. do 4 ccall. eapply hoare_bind; [apply hoare_map_err, MegaPointerTable.hoare_table; exact L|].
  intros t Ht. repeat ccall. apply hoare_ret. now splits.
Qed.
End MegaHeader.

(** ** Either header *)
Inductive ZapHeader : Type := Mega (h : ZapMegaHeader) | Micro (h : ZapMicroHeader).

Module Header.
Inductive DecodeError : Type :=
| DBinary (err : BinaryDecodeError)
| DBlockType (block_type : Z)
| DZapMegaHeader (err : MegaHeader.DecodeError)
| DZapMicroHeader (err : MicroHeader.DecodeError).
Inductive EncodeError : Type :=
| EZapMegaHeader (err : MegaHeader.EncodeError)
| EZapMicroHeader (err : MicroHeader.EncodeError).

Definition from_decoder (BD : BinaryDecoder) : SM BinaryDecoderBuffer DecodeError ZapHeader :=
  block_type ← sm_map_err DBinary get_u64;
  sm_map_err DBinary (d_rewind 8);;
  if block_type =? MegaHeader.BLOCK_TYPE then
    h ← sm_map_err DZapMegaHeader (MegaHeader.from_decoder BD); mret (Mega h)
  else if block_type =? MicroHeader.BLOCK_TYPE then
    h ← sm_map_err DZapMicroHeader (MicroHeader.from_decoder BD); mret (Micro h)
  else sm_err (DBlockType block_type).

Definition to_encoder (BE : BinaryEncoder) (h : ZapHeader) : SM BinaryEncoderBuffer EncodeError unit :=
  match h with
  | Mega h => sm_map_err EZapMegaHeader (MegaHeader.to_encoder BE h)
  | Micro h => sm_map_err EZapMicroHeader (MicroHeader.to_encoder BE h)
  end.

Definition wf (h : ZapHeader) : Prop := match h with Mega h => MegaHeader.wf h | Micro h => MicroHeader.wf h end.
Definition SIZE (h : ZapHeader) : Z := match h with Mega _ => MegaHeader.SIZE | Micro _ => MicroHeader.SIZE end.
Definition layout (o : EndianOrder) (h : ZapHeader) : bytes :=
  match h with Mega h => MegaHeader.layout o h | Micro h => MicroHeader.layout o h end.

Lemma zap_header_writes o h : writes (to_encoder (endian_encoder o) h) (layout o h).
Proof.
  destruct h; cbn [to_encoder layout]; apply writes_map_err; [apply MegaHeader.mega_header_writes|apply MicroHeader.micro_header_writes].
Qed.

Lemma zap_header_reads o h : wf h -> reads (from_decoder (endian_decoder o)) (layout o h) h.
Proof.
  intros Hw. unfold from_decoder. destruct h as [h|h]; cbn [layout wf] in *.
  - unfold MegaHeader.layout. eapply reads_peek; [|apply (r_u64 _ o MegaHeader.BLOCK_TYPE); vm_compute; split; congruence|]; [now rewrite blen_int_to|]. cbn [Z.eqb].
    apply reads_last. eapply reads_bind; [now apply reads_map_err, MegaHeader.mega_header_reads|apply reads_ret].
  - unfold MicroHeader.layout. eapply reads_peek; [|apply (r_u64 _ o MicroHeader.BLOCK_TYPE); vm_compute; split; congruence|]; [now rewrite blen_int_to|]. cbn [Z.eqb].
    apply reads_last. eapply reads_bind; [now apply reads_map_err, MicroHeader.micro_header_reads|apply reads_ret].
Qed.

Lemma zap_header_layout_ok o h : bytes_ok (layout o h) /\ blen (layout o h) = SIZE h.
Proof.
  destruct h as [h|h]; cbn [layout SIZE]; unfold MegaHeader.layout, MegaPointerTable.layout, MicroHeader.layout;
    rewrite !Forall_app, !blen_app, !blen_int_to, ?blen_zrep by (vm_compute; congruence);
    split; auto 20 using bytes_ok_int_to, bytes_ok_zrep.
Qed.

Lemma hoare_zap_header BD {L : BinaryDecoderLaws BD} w : hoare (DecoderBuffer.inv w) (from_decoder BD) wf.
Proof.
  unfold from_decoder. ccall. eapply hoare_bind; [apply h_rewind; done|]. intros ? ?.
  destruct (_ =? _); [|destruct (_ =? _); [|apply hoare_err]].
  - eapply hoare_bind; [apply hoare_map_err, MegaHeader.hoare_mega_header; exact L|]. intros h Hh. now apply hoare_ret.
  - eapply hoare_bind; [apply hoare_map_err, MicroHeader.hoare_micro_header; exact L|]. intros h Hh. now apply hoare_ret.
Qed.
End Header.

(** ** Leaf blocks *)
Definition ZAP_LEAF_EOL : Z := 0xffff.
Definition ZAP_LEAF_HEADER_FLAG_CD_SORTED_MASK : Z := 1.
Definition ZAP_LEAF_HEADER_FLAG_ALL : Z := ZAP_LEAF_HEADER_FLAG_CD_SORTED_MASK.

(** A chunk index, with the end-of-list code as [None]. *)
Definition chunk_index (v : Z) : option Z := if v =? ZAP_LEAF_EOL then None else Some v.
Definition index_wf (i : option Z) : Prop := match i with Some v => fits 16 v /\ v <> ZAP_LEAF_EOL | None => True end.

Lemma chunk_index_wf v : fits 16 v -> index_wf (chunk_index v).
Proof. intros. unfold chunk_index. destruct (Z.eqb_spec v ZAP_LEAF_EOL); [done|]. now split. Qed.
Lemma index_code i : index_wf i -> fits 16 (default ZAP_LEAF_EOL i) /\ chunk_index (default ZAP_LEAF_EOL i) = i.
Proof.
  destruct i as [v|]; cbn; [|intros; split; [vm_compute; split; congruence|done]].
  intros [Hf Hn]. split; [done|]. unfold chunk_index. now rewrite (proj2 (Z.eqb_neq _ _) Hn).
Qed.
#[export] Hint Resolve chunk_index_wf : zfs.

Record ZapLeafHeader : Type := {
  hash_prefix : Z;
  hash_prefix_len : Z;
  number_of_free_chunks : Z;
  number_of_entries : Z;
  next_free_chunk : option Z;
  cd_sorted : bool
}.

Module LeafHeader.
Definition SIZE : Z := 48.
Definition BLOCK_TYPE : Z := 0x8000000000000000.
Definition MAGIC : Z := 0x02AB1EAF.
Definition PADDING_SIZE_A : Z := 8.
Definition PADDING_SIZE_B : Z := 11.
Definition CHUNK_SIZE : Z := 24.

Inductive DecodeError : Type :=
| DBinary (err : BinaryDecodeError)
| DBlockSize (block_size : Z)
| DBlockType (block_type : Z)
| DFlags (flags : Z)
| DMagic (magic : Z).
Inductive EncodeError : Type := EBinary (err : BinaryEncodeError).

Definition from_decoder (BD : BinaryDecoder) : SM BinaryDecoderBuffer DecodeError ZapLeafHeader :=
  block_type ← sm_map_err DBinary get_u64;
  sm_guard (negb (block_type =? BLOCK_TYPE)) (DBlockType block_type);;
  sm_map_err DBinary (d_skip_zeros PADDING_SIZE_A);;
  hash_prefix ← sm_map_err DBinary get_u64;
  magic ← sm_map_err DBinary get_u32;
  sm_guard (negb (magic =? MAGIC)) (DMagic magic);;
  number_of_free_chunks ← sm_map_err DBinary get_u16;
  number_of_entries ← sm_map_err DBinary get_u16;
  hash_prefix_len ← sm_map_err DBinary get_u16;
  next ← sm_map_err DBinary get_u16;
  flags ← sm_map_err DBinary get_u8;
  sm_guard (negb (Z.land flags ZAP_LEAF_HEADER_FLAG_ALL =? flags)) (DFlags flags);;
  sm_map_err DBinary (d_skip_zeros PADDING_SIZE_B);;
  mret {| hash_prefix := hash_prefix; hash_prefix_len := hash_prefix_len;
          number_of_free_chunks := number_of_free_chunks; number_of_entries := number_of_entries;
          next_free_chunk := chunk_index next;
          cd_sorted := negb (Z.land flags ZAP_LEAF_HEADER_FLAG_CD_SORTED_MASK =? 0) |}.

Definition to_encoder (BE : BinaryEncoder) (h : ZapLeafHeader) : SM BinaryEncoderBuffer EncodeError unit :=
  sm_map_err EBinary (put_u64 BLOCK_TYPE);;
  sm_map_err EBinary (put_zeros PADDING_SIZE_A);;
  sm_map_err EBinary (put_u64 (hash_prefix h));;
  sm_map_err EBinary (put_u32 MAGIC);;
  sm_map_err EBinary (put_u16 (number_of_free_chunks h));;
  sm_map_err EBinary (put_u16 (number_of_entries h));;
  sm_map_err EBinary (put_u16 (hash_prefix_len h));;
  sm_map_err EBinary (put_u16 (default ZAP_LEAF_EOL (next_free_chunk h)));;
  sm_map_err EBinary (put_u8 (if cd_sorted h then ZAP_LEAF_HEADER_FLAG_CD_SORTED_MASK else 0));;
  sm_map_err EBinary (put_zeros PADDING_SIZE_B).

(** The last line is a [debug_assert!]: a panic when it does not hold. *)
Definition get_entries_and_chunks_counts (block_size : Z) : outcome MegaHeader.DecodeError (Z * Z) :=
  if (block_size <? Z.shiftl 1 SECTOR_SHIFT) || negb (is_power_of_two block_size)
  then Err (MegaHeader.DBlockSize block_size)
  else
    let entries_count := Z.shiftr block_size 5 in
    match checked_sub block_size (SIZE + 2 * entries_count) with
    | None => Panic
    | Some rest =>
        let chunks_count := rest / CHUNK_SIZE in
        if SIZE + 2 * entries_count + chunks_count * CHUNK_SIZE =? block_size
        then Ok (entries_count, chunks_count) else Panic
    end.

Definition wf (h : ZapLeafHeader) : Prop :=
  fits 64 (hash_prefix h) /\ fits 16 (hash_prefix_len h) /\ fits 16 (number_of_free_chunks h) /\
  fits 16 (number_of_entries h) /\ index_wf (next_free_chunk h).
Definition layout (o : EndianOrder) (h : ZapLeafHeader) : bytes :=
  int_to o 8 BLOCK_TYPE ++ zrep PADDING_SIZE_A 0 ++ int_to o 8 (hash_prefix h) ++ int_to o 4 MAGIC ++
  int_to o 2 (number_of_free_chunks h) ++ int_to o 2 (number_of_entries h) ++ int_to o 2 (hash_prefix_len h) ++
  int_to o 2 (default ZAP_LEAF_EOL (next_free_chunk h)) ++
  [if cd_sorted h then ZAP_LEAF_HEADER_FLAG_CD_SORTED_MASK else 0] ++ zrep PADDING_SIZE_B 0.

Lemma leaf_header_writes o h : writes (to_encoder (endian_encoder o) h) (layout o h).
Proof.
  unfold to_encoder, layout. cwrite. eapply writes_bind; [now apply w_zeros|]. do 7 cwrite. now apply w_zeros.
Qed.

Lemma leaf_header_reads o h : wf h -> reads (from_decoder (endian_decoder o)) (layout o h) h.
Proof.
  intros (? & ? & ? & ? & Hi). destruct (index_code _ Hi) as [? Hc]. unfold from_decoder, layout.
  eapply reads_bind; [apply r_u64; vm_compute; split; congruence|]. cguard; [done|].
  eapply reads_bind; [now apply r_zeros|]. cread.
  eapply reads_bind; [apply r_u32; vm_compute; split; congruence|]. cguard; [done|].
  do 4 cread.
  eapply reads_bind; [apply r_u8; destruct (cd_sorted h); vm_compute; split; congruence|].
  cguard; [now destruct (cd_sorted h)|]. apply reads_last. eapply reads_bind; [now apply r_zeros|].
  rewrite Hc. destruct h as [? ? ? ? ? []]; apply reads_ret.
Qed.

Lemma hoare_leaf_header BD {L : BinaryDecoderLaws BD} w : hoare (DecoderBuffer.inv w) (from_decoder BD) wf.
Proof. unfold from_decoder. repeat ccall. apply hoare_ret. unfold wf. splits; try assumption; now apply chunk_index_wf. Qed.

Lemma leaf_header_layout_ok o h : bytes_ok (layout o h) /\ blen (layout o h) = SIZE.
Proof.
  unfold layout. rewrite !Forall_app, !blen_app, !blen_int_to, !blen_zrep by (vm_compute; congruence).
  split; [|done]. splits; auto using bytes_ok_int_to, bytes_ok_zrep.
  constructor; [|constructor]. destruct (cd_sorted h); vm_compute; split; congruence.
Qed.
End LeafHeader.

(** ** Chunks of a leaf *)
Record ZapLeafChunkData : Type := { chunk_data : bytes; data_next : option Z }.
Record ZapLeafChunkEntry : Type := {
  hash : Z;
  entry_cd : Z;
  name_chunk : Z;
  name_length : Z;
  value_chunk : Z;
  value_length : Z;
  value_int_size : Z;
  entry_next : option Z
}.
Record ZapLeafChunkFree : Type := { free_next : option Z }.
Inductive ZapLeafChunk : Type :=
| Array (c : ZapLeafChunkData)
| Entry (c : ZapLeafChunkEntry)
| Free (c : ZapLeafChunkFree).

Module LeafChunk.
Definition SIZE : Z := 24.
Definition DATA_TYPE : Z := 251.
Definition ZAP_LEAF_DATA_SIZE : Z := 21.
Definition ENTRY_TYPE : Z := 252.
Definition FREE_TYPE : Z := 253.

Inductive DecodeError : Type := DBinary (err : BinaryDecodeError) | DChunkType (chunk_type : Z).
Inductive EncodeError : Type := EBinary (err : BinaryEncodeError).

Section decode.
Context (BD : BinaryDecoder).
Abbreviation D := (SM BinaryDecoderBuffer DecodeError).

Definition data_from_decoder : D ZapLeafChunkData :=
  chunk_type ← sm_map_err DBinary get_u8;
  sm_guard (negb (chunk_type =? DATA_TYPE)) (DChunkType chunk_type);;
  data ← sm_map_err DBinary (get_bytes_n ZAP_LEAF_DATA_SIZE);
  next ← sm_map_err DBinary get_u16;
  mret {| chunk_data := data; data_next := chunk_index next |}.

Definition entry_from_decoder : D ZapLeafChunkEntry :=
  chunk_type ← sm_map_err DBinary get_u8;
  sm_guard (negb (chunk_type =? ENTRY_TYPE)) (DChunkType chunk_type);;
  value_int_size ← sm_map_err DBinary get_u8;
  next ← sm_map_err DBinary get_u16;
  name_chunk ← sm_map_err DBinary get_u16;
  name_length ← sm_map_err DBinary get_u16;
  value_chunk ← sm_map_err DBinary get_u16;
  value_length ← sm_map_err DBinary get_u16;
  cd ← sm_map_err DBinary get_u32;
  hash ← sm_map_err DBinary get_u64;
  mret {| hash := hash; entry_cd := cd; name_chunk := name_chunk; name_length := name_length;
          value_chunk := value_chunk; value_length := value_length; value_int_size := value_int_size;
          entry_next := chunk_index next |}.

Definition free_from_decoder : D ZapLeafChunkFree :=
  chunk_type ← sm_map_err DBinary get_u8;
  sm_guard (negb (chunk_type =? FREE_TYPE)) (DChunkType chunk_type);;
  sm_map_err DBinary (d_skip ZAP_LEAF_DATA_SIZE);;
  next ← sm_map_err DBinary get_u16;
  mret {| free_next := chunk_index next |}.

Definition from_decoder : D ZapLeafChunk :=
  chunk_type ← sm_map_err DBinary get_u8;
  sm_map_err DBinary (d_rewind 1);;
  if chunk_type =? DATA_TYPE then c ← data_from_decoder; mret (Array c)
  else if chunk_type =? ENTRY_TYPE then c ← entry_from_decoder; mret (Entry c)
  else if chunk_type =? FREE_TYPE then c ← free_from_decoder; mret (Free c)
  else sm_err (DChunkType chunk_type).
End decode.

Section encode.
Context (BE : BinaryEncoder).
Abbreviation W := (SM BinaryEncoderBuffer EncodeError).

Definition data_to_encoder (c : ZapLeafChunkData) : W unit :=
  sm_map_err EBinary (put_u8 DATA_TYPE);;
  sm_map_err EBinary (put_bytes (chunk_data c));;
  sm_map_err EBinary (put_u16 (default ZAP_LEAF_EOL (data_next c))).

Definition entry_to_encoder (c : ZapLeafChunkEntry) : W unit :=
  sm_map_err EBinary (put_u8 ENTRY_TYPE);;
  sm_map_err EBinary (put_u8 (value_int_size c));;
  sm_map_err EBinary (put_u16 (default ZAP_LEAF_EOL (entry_next c)));;
  sm_map_err EBinary (put_u16 (name_chunk c));;
  sm_map_err EBinary (put_u16 (name_length c));;
  sm_map_err EBinary (put_u16 (value_chunk c));;
  sm_map_err EBinary (put_u16 (value_length c));;
  sm_map_err EBinary (put_u32 (entry_cd c));;
  sm_map_err EBinary (put_u64 (hash c)).

Definition free_to_encoder (c : ZapLeafChunkFree) : W unit :=
  sm_map_err EBinary (put_u8 FREE_TYPE);;
  sm_map_err EBinary (put_zeros ZAP_LEAF_DATA_SIZE);;
  sm_map_err EBinary (put_u16 (default ZAP_LEAF_EOL (free_next c))).

Definition to_encoder (c : ZapLeafChunk) : W unit :=
  match c with
  | Array c => data_to_encoder c
  | Entry c => entry_to_encoder c
  | Free c => free_to_encoder c
  end.
End encode.

Definition data_wf (c : ZapLeafChunkData) : Prop :=
  blen (chunk_data c) = ZAP_LEAF_DATA_SIZE /\ bytes_ok (chunk_data c) /\ index_wf (data_next c).
Definition entry_wf (c : ZapLeafChunkEntry) : Prop :=
  fits 64 (hash c) /\ fits 32 (entry_cd c) /\ fits 16 (name_chunk c) /\ fits 16 (name_length c) /\
  fits 16 (value_chunk c) /\ fits 16 (value_length c) /\ fits 8 (value_int_size c) /\ index_wf (entry_next c).
Definition wf (c : ZapLeafChunk) : Prop :=
  match c with Array c => data_wf c | Entry c => entry_wf c | Free c => index_wf (free_next c) end.

Section hoare.
Context (BD : BinaryDecoder) {L : BinaryDecoderLaws BD} (w : bytes * Z * Z).
Lemma hoare_data : hoare (DecoderBuffer.inv w) (data_from_decoder BD) data_wf.
Proof. unfold data_from_decoder. repeat ccall. apply hoare_ret. cbv beta in *. unfold data_wf. cbn. intuition auto with zfs. Qed.
Lemma hoare_entry_chunk : hoare (DecoderBuffer.inv w) (entry_from_decoder BD) entry_wf.
Proof. unfold entry_from_decoder. repeat ccall. apply hoare_ret. unfold entry_wf. splits; try assumption; now apply chunk_index_wf. Qed.
Lemma hoare_free : hoare (DecoderBuffer.inv w) (free_from_decoder BD) (fun c => index_wf (free_next c)).
Proof. unfold free_from_decoder. repeat ccall. apply hoare_ret. cbn. auto with zfs. Qed.
Lemma hoare_chunk : hoare (DecoderBuffer.inv w) (from_decoder BD) wf.
Proof.
  unfold from_decoder. ccall. eapply hoare_bind; [now apply h_rewind|]. intros _ _.
  repeat (destruct (_ =? _)); [| | |apply hoare_err].
  - eapply hoare_bind; [apply hoare_data|]. intros c Hc. now apply hoare_ret.
  - eapply hoare_bind; [apply hoare_entry_chunk|]. intros c Hc. now apply hoare_ret.
  - eapply hoare_bind; [apply hoare_free|]. intros c Hc. now apply hoare_ret.
Qed.
End hoare.

(** *** The layout of a chunk *)
Definition data_layout (o : EndianOrder) (c : ZapLeafChunkData) : bytes :=
  [DATA_TYPE] ++ chunk_data c ++ int_to o 2 (default ZAP_LEAF_EOL (data_next c)).
Definition entry_layout (o : EndianOrder) (c : ZapLeafChunkEntry) : bytes :=
  [ENTRY_TYPE] ++ [value_int_size c] ++ int_to o 2 (default ZAP_LEAF_EOL (entry_next c)) ++
  int_to o 2 (name_chunk c) ++ int_to o 2 (name_length c) ++ int_to o 2 (value_chunk c) ++
  int_to o 2 (value_length c) ++ int_to o 4 (entry_cd c) ++ int_to o 8 (hash c).
Definition free_layout (o : EndianOrder) (c : ZapLeafChunkFree) : bytes :=
  [FREE_TYPE] ++ zrep ZAP_LEAF_DATA_SIZE 0 ++ int_to o 2 (default ZAP_LEAF_EOL (free_next c)).
Definition layout (o : EndianOrder) (c : ZapLeafChunk) : bytes :=
  match c with Array c => data_layout o c | Entry c => entry_layout o c | Free c => free_layout o c end.

Lemma data_reads o c : data_wf c -> reads (data_from_decoder (endian_decoder o)) (data_layout o c) c.
Proof.
  intros (Hl & Hb & Hi). destruct (index_code _ Hi) as [? Hc]. unfold data_from_decoder, data_layout.
  eapply reads_bind; [apply r_u8; vm_compute; split; congruence|]. cguard; [done|]. cread.
  apply reads_last. cread. rewrite Hc. destruct c; apply reads_ret.
Qed.
Lemma entry_chunk_reads o c : entry_wf c -> reads (entry_from_decoder (endian_decoder o)) (entry_layout o c) c.
Proof.
  intros (? & ? & ? & ? & ? & ? & ? & Hi). destruct (index_code _ Hi) as [? Hc]. unfold entry_from_decoder, entry_layout.
  eapply reads_bind; [apply r_u8; vm_compute; split; congruence|]. cguard; [done|].
  eapply reads_bind; [now apply r_u8|]. do 6 cread. apply reads_last. cread. rewrite Hc. destruct c; apply reads_ret.
Qed.
Lemma free_reads o c : index_wf (free_next c) -> reads (free_from_decoder (endian_decoder o)) (free_layout o c) c.
Proof.
  intros Hi. destruct (index_code _ Hi) as [? Hc]. unfold free_from_decoder, free_layout.
  eapply reads_bind; [apply r_u8; vm_compute; split; congruence|]. cguard; [done|].
  eapply reads_bind; [now apply r_skip|]. apply reads_last. cread. rewrite Hc. destruct c; apply reads_ret.
Qed.

Lemma chunk_reads o c : wf c -> reads (from_decoder (endian_decoder o)) (layout o c) c.
Proof.
  intros Hw. unfold from_decoder. destruct c as [c|c|c]; cbn [layout wf] in *; unfold data_layout, entry_layout, free_layout.
  - eapply (reads_peek o _ _ _ _ 1); [reflexivity|apply (r_u8 _ o DATA_TYPE); vm_compute; split; congruence|]. cbn [Z.eqb].
    apply reads_last. eapply reads_bind; [now apply data_reads|apply reads_ret].
  - eapply (reads_peek o _ _ _ _ 1); [reflexivity|apply (r_u8 _ o ENTRY_TYPE); vm_compute; split; congruence|]. cbn [Z.eqb].
    apply reads_last. eapply reads_bind; [now apply entry_chunk_reads|apply reads_ret].
  - eapply (reads_peek o _ _ _ _ 1); [reflexivity|apply (r_u8 _ o FREE_TYPE); vm_compute; split; congruence|]. cbn [Z.eqb].
    apply reads_last. eapply reads_bind; [now apply free_reads|apply reads_ret].
Qed.

Lemma data_refused o c : returns (fun _ => False) (data_to_encoder (endian_encoder o) c).
Proof.
  unfold data_to_encoder. eapply returns_bind; [apply returns_true|]. intros ? _.
  eapply (returns_bind (fun _ => False)); [apply w_bytes_refused|done].
Qed.
Lemma chunk_writes o c : (forall d, c <> Array d) -> writes (to_encoder (endian_encoder o) c) (layout o c).
Proof.
  intros Hc. destruct c as [c|c|c]; [now destruct (Hc c)|..]; cbn [to_encoder layout];
    unfold entry_to_encoder, entry_layout, free_to_encoder, free_layout.
  - do 8 cwrite. apply w_u64.
  - cwrite. eapply writes_bind; [now apply w_zeros|]. apply w_u16.
Qed.

Lemma chunk_layout_ok o c : wf c -> bytes_ok (layout o c) /\ blen (layout o c) = SIZE.
Proof.
  assert (H1 : forall x, is_byte x -> bytes_ok [x]) by (intros x Hx; constructor; [exact Hx|constructor]).
  destruct c as [c|c|c]; cbn [wf layout]; [intros (Hl & Hb & _)|intros (_ & _ & _ & _ & _ & _ & Hs & _)|intros _];
    unfold data_layout, entry_layout, free_layout; rewrite !Forall_app, !blen_app, !blen_int_to, ?Hl, ?blen_zrep by done;
    (split; [|done]); splits; auto using bytes_ok_int_to, bytes_ok_zrep; apply H1; vm_compute; split; congruence.
Qed.
End LeafChunk.

(** ** Theorems *)

(** A micro or mega header encodes to its size and decodes to itself through the
    dispatch on the block type, whatever follows it. *)
Theorem zap_header_roundtrip o h rest :
  Header.wf h -> bytes_ok rest ->
  exists bs, encode_into (Header.SIZE h) (Header.to_encoder (endian_encoder o) h) = Ok bs /\
    blen bs = Header.SIZE h /\ with_decoder o Header.from_decoder (bs ++ rest) = Ok h.
Proof.
  intros Hw Hr. destruct (Header.zap_header_layout_ok o h) as [Hb Hl]. exists (Header.layout o h). splits; [|done|].
  - apply writes_encode; [apply Header.zap_header_writes|lia].
  - apply with_decoder_reads; [now apply Header.zap_header_reads|]. apply Forall_app. auto.
Qed.

Definition sample_mega : ZapHeader := Mega {|
  table := {| starting_block := 0; blocks := 0; hash_bits := 10; next_block := 0; blocks_copied := 0 |};
  next_free_block := 2; number_of_leafs := 1; me_number_of_entries := 5; me_salt := 77;
  me_case_normalization := ZapCaseNormalization.Upper; me_unicode_normalization := ZapUnicodeNormalization.NFC;
  hash_bits_48 := false; key_u64 := true; pre_hashed_key := false |}.

Lemma zap_header_roundtrip_witness :
  exists bs, encode_into 104 (Header.to_encoder (endian_encoder Big) sample_mega) = Ok bs /\
    blen bs = 104 /\ with_decoder Big Header.from_decoder (bs ++ [1; 2]) = Ok sample_mega.
Proof.
  apply (zap_header_roundtrip Big sample_mega [1; 2]).
  - repeat split; vm_compute; congruence.
  - repeat constructor; vm_compute; congruence.
Defined.

(** A leaf header, an entry chunk and a free chunk encode to their sizes and
    decode to themselves; a data chunk is never encoded, since the endian
    encoders have no length-prefixed bytes, but its layout decodes. *)
Theorem zap_leaf_roundtrip o rest :
  bytes_ok rest ->
  (forall h, LeafHeader.wf h -> exists bs,
     encode_into 48 (LeafHeader.to_encoder (endian_encoder o) h) = Ok bs /\ blen bs = 48 /\
     with_decoder o LeafHeader.from_decoder (bs ++ rest) = Ok h) /\
  (forall c, LeafChunk.wf c ->
     with_decoder o LeafChunk.from_decoder (LeafChunk.layout o c ++ rest) = Ok c /\
     match c with
     | Array _ => forall n bs, encode_into n (LeafChunk.to_encoder (endian_encoder o) c) <> Ok bs
     | _ => encode_into 24 (LeafChunk.to_encoder (endian_encoder o) c) = Ok (LeafChunk.layout o c)
     end).
Proof.
  intros Hr. split.
  - intros h Hw. destruct (LeafHeader.leaf_header_layout_ok o h) as [Hb Hl]. exists (LeafHeader.layout o h). splits; [|done|].
    + apply writes_encode; [apply LeafHeader.leaf_header_writes|rewrite Hl; vm_compute; congruence].
    + apply with_decoder_reads; [now apply LeafHeader.leaf_header_reads|]. apply Forall_app. auto.
  - intros c Hw. destruct (LeafChunk.chunk_layout_ok o c Hw) as [Hb Hl]. split.
    + apply with_decoder_reads; [now apply LeafChunk.chunk_reads|]. apply Forall_app. auto.
    + destruct c; [intros n bs; now apply encode_refused, LeafChunk.data_refused|..];
        (apply writes_encode; [apply LeafChunk.chunk_writes; congruence|rewrite Hl; vm_compute; congruence]).
Qed.

Lemma zap_leaf_roundtrip_witness :
  (forall h, LeafHeader.wf h -> exists bs,
     encode_into 48 (LeafHeader.to_encoder (endian_encoder Little) h) = Ok bs /\ blen bs = 48 /\
     with_decoder Little LeafHeader.from_decoder (bs ++ [9]) = Ok h) /\
  (forall c, LeafChunk.wf c ->
     with_decoder Little LeafChunk.from_decoder (LeafChunk.layout Little c ++ [9]) = Ok c /\
     match c with
     | Array _ => forall n bs, encode_into n (LeafChunk.to_encoder (endian_encoder Little) c) <> Ok bs
     | _ => encode_into 24 (LeafChunk.to_encoder (endian_encoder Little) c) = Ok (LeafChunk.layout Little c)
     end).
Proof. apply (zap_leaf_roundtrip Little [9]). repeat constructor; vm_compute; congruence. Defined.

Lemma power_of_two_spec n : is_power_of_two n = true <-> exists k, 0 <= k /\ n = 2 ^ k.
Proof.
  unfold is_power_of_two. split.
  - intros [Hn%Z.ltb_lt Hl%Z.eqb_eq]%andb_true_iff. exists (Z.log2 n). split; [apply Z.log2_nonneg|].
    pose proof (Z.log2_spec n Hn) as [Hlo Hhi]. destruct (Z.eq_dec n (2 ^ Z.log2 n)) as [|Hne]; [done|exfalso].
    assert (Hk : Z.log2 (n - 1) = Z.log2 n).
    { apply Z.log2_unique; [apply Z.log2_nonneg|]. lia. }
    assert (Z.testbit (Z.land n (n - 1)) (Z.log2 n) = true).
    { rewrite Z.land_spec, Z.bit_log2 by lia. rewrite <- Hk. rewrite Z.bit_log2; [done|].
      assert (0 < 2 ^ Z.log2 n) by (apply Z.pow_pos_nonneg; [lia|apply Z.log2_nonneg]). lia. }
    rewrite Hl, Z.bits_0 in *. done.
  - intros (k & Hk & ->). assert (0 < 2 ^ k) by lia. rewrite (proj2 (Z.ltb_lt 0 _)) by done. cbn.
    apply Z.eqb_eq.
    replace (2 ^ k - 1) with (Z.ones k) by (rewrite Z.ones_equiv; lia).
    rewrite Z.land_ones, Z.mod_same by lia. done.
Qed.

(** The counts of a leaf block: of every power of two from 512 on, header, hash
    table and chunks fill the block exactly, as the debug assertion asks; every
    other size is refused; the mega header's padding and pointers fill its two
    halves. *)
Theorem leaf_geometry n :
  0 <= n ->
  match LeafHeader.get_entries_and_chunks_counts n,
        MegaHeader.get_padding_size_and_embedded_leaf_pointer_count n with
  | Ok (entries, chunks), Ok (padding, leaves) =>
      (exists k, 9 <= k /\ n = 2 ^ k) /\ n = 32 * entries /\ 48 + 2 * entries + 24 * chunks = n /\
      104 + padding + 8 * leaves = n /\ 0 < chunks
  | Err (MegaHeader.DBlockSize n1), Err (MegaHeader.DBlockSize n2) =>
      n1 = n /\ n2 = n /\ (n < 512 \/ ~ exists k, 0 <= k /\ n = 2 ^ k)
  | _, _ => False
  end.
Proof.
  intros Hn. unfold LeafHeader.get_entries_and_chunks_counts, MegaHeader.get_padding_size_and_embedded_leaf_pointer_count.
  change (Z.shiftl 1 SECTOR_SHIFT) with 512.
  destruct (Z.ltb_spec n 512) as [|Hge]; [cbn; auto|]. cbn [orb].
  destruct (is_power_of_two n) eqn:Ep; cbn [negb].
  2: { splits; [done|done|]. right. intros Hk%power_of_two_spec. congruence. }
  apply power_of_two_spec in Ep as (k & Hk & ->).
  assert (9 <= k). { destruct (Z_lt_le_dec k 9) as [Hlt|]; [|done]. assert (2 ^ k < 2 ^ 9) by (apply Z.pow_lt_mono_r; lia). lia. }
  set (m := 2 ^ (k - 7)). assert (Hm : 2 ^ k = 128 * m).
  { unfold m. replace k with (7 + (k - 7)) at 1 by lia. rewrite Z.pow_add_r by lia. lia. }
  assert (Hm4 : exists q, m = 4 * q /\ 0 < q).
  { exists (2 ^ (k - 9)). unfold m. replace (k - 7) with (2 + (k - 9)) by lia. rewrite Z.pow_add_r by lia. lia. }
  destruct Hm4 as (q & Hq & Hq0). rewrite Hm, Hq.
  rewrite shiftr_div by lia. change (2 ^ 5) with 32. unfold LeafHeader.SIZE, LeafHeader.CHUNK_SIZE, MegaHeader.SIZE.
  replace (128 * (4 * q) / 32) with (16 * q) by (apply Z.div_unique_exact; lia).
  replace (128 * (4 * q) / 2) with (256 * q) by (apply Z.div_unique_exact; lia).
  rewrite !checked_sub_ok by lia.
  replace ((128 * (4 * q) - (48 + 2 * (16 * q))) / 24) with (20 * q - 2) by (apply Z.div_unique_exact; lia).
  replace (256 * q / 8) with (32 * q) by (apply Z.div_unique_exact; lia).
  rewrite (proj2 (Z.eqb_eq _ _)) by lia. splits; try lia. exists k. lia.
Qed.

Lemma leaf_geometry_witness :
  (exists k, 9 <= k /\ 16384 = 2 ^ k) /\ 16384 = 32 * 512 /\ 48 + 2 * 512 + 24 * 638 = 16384 /\
  104 + 8088 + 8 * 1024 = 16384 /\ 0 < 638.
Proof. apply (leaf_geometry 16384). lia. Defined.

(** No ZAP decoder panics, on any input, and what each returns is in range. *)
Theorem zap_decode_safe o l :
  bytes_ok l ->
  safe Header.wf (with_decoder o Header.from_decoder l) /\
  safe (fun r => match r with Some e => MicroEntry.wf e | None => True end)
    (with_decoder o MicroEntry.from_decoder l) /\
  safe LeafHeader.wf (with_decoder o LeafHeader.from_decoder l) /\
  safe LeafChunk.wf (with_decoder o LeafChunk.from_decoder l).
Proof.
  intros Hl. pose proof (endian_decoder_laws o).
  splits; (apply with_decoder_safe; [intros w|exact Hl]).
  - now apply Header.hoare_zap_header.
  - now apply MicroEntry.hoare_entry.
  - now apply LeafHeader.hoare_leaf_header.
  - now apply LeafChunk.hoare_chunk.
Qed.

Lemma zap_decode_safe_witness :
  safe Header.wf (with_decoder Big Header.from_decoder (zrep 200 251)) /\
  safe (fun r => match r with Some e => MicroEntry.wf e | None => True end)
    (with_decoder Big MicroEntry.from_decoder (zrep 200 251)) /\
  safe LeafHeader.wf (with_decoder Big LeafHeader.from_decoder (zrep 200 251)) /\
  safe LeafChunk.wf (with_decoder Big LeafChunk.from_decoder (zrep 200 251)).
Proof. apply (zap_decode_safe Big (zrep 200 251)). apply Forall_replicate. unfold is_byte. lia. Defined.
