(* ===== verification/Walk.v ===== *)
(** * Objects and directories of names (src/walk.rs)

    [read_object] finds a dnode, large dnodes included, in the dnode array of an
    object set; [zap_entries] lists a ZAP object, micro or fat, and
    [zap_lookup] finds one name in it.  They are shown to return what the bytes
    of the object stand for: the dnode and bonus laid out in the slots, the
    entries of the micro block, and the entries whose names and values the
    chunks of the leaves spell. *)

From S2P Require Import Prelude Errors Decoder Encoder Codec Types Dva BlockPointer Fletcher Sha256 Cksum Compress.
From S2P Require Import Vdev Heal Dnode FileRead ObjectSet Zap.

Open Scope string_scope.
Open Scope Z_scope.
Open Scope list_scope.

Definition ZAP_MICRO : Z := 0x8000000000000003.
Definition ZAP_FAT_HEADER : Z := 0x8000000000000001.
Definition ZAP_LEAF_HEADER_SIZE : Z := 48.
Definition ZAP_LEAF_CHUNK_SIZE : Z := 24.
Definition MAX_ZAP_LEAF_BLOCKS : Z := Z.shiftl 1 20.
Definition DNODE_SIZE : Z := 512.
Definition DNODE_MAX_SLOTS : Z := 32.
Definition DNODE_HEADER_SIZE : Z := 64.
Definition DN_NBLKPTR : Z := 3.
Definition DN_FLAGS : Z := 7.
Definition DN_BONUSLEN : Z := 10.
Definition DN_EXTRA_SLOTS : Z := 12.
Definition DNODE_FLAG_SPILL_BLKPTR : Z := Z.shiftl 1 2.

Record ObjectDnode : Type := { od_dnode : Dnode; od_bonus : bytes }.

(** [buf[i]]: an index out of range panics. *)
Definition at_index (buf : bytes) (i : Z) : outcome Error Z := unwrap (zget buf i).

Definition decode_dnode (buf : bytes) (objnum : Z) (order : EndianOrder) : outcome Error Dnode :=
  d ← map_err (fun _ => Inconsistent "dnode_decode" (LDnode objnum)) (Dn.decode order buf);
  ok_or d (Inconsistent "dnode_empty" (LDnode objnum)).

(** The first slot of a large dnode as the decoder is given it: the header and
    pointers, the spill flag and the bonus length cleared. *)
Definition slot0_of (full : bytes) (bonus_start : Z) : bytes :=
  let slot0 := ztake bonus_start full ++ zrep (DNODE_SIZE - bonus_start) 0 in
  let slot0 := <[Z.to_nat DN_FLAGS := Z.land (default 0 (slot0 !! Z.to_nat DN_FLAGS)) (255 - DNODE_FLAG_SPILL_BLKPTR)]> slot0 in
  let slot0 := <[Z.to_nat DN_BONUSLEN := 0]> slot0 in
  <[Z.to_nat (DN_BONUSLEN + 1) := 0]> slot0.

(** The dnode and bonus in the slots of a large dnode. *)
Definition large_dnode (full : bytes) (objnum size : Z) (order : EndianOrder) : outcome Error ObjectDnode :=
  nblkptr ← at_index full DN_NBLKPTR;
  flags ← at_index full DN_FLAGS;
  let spill := negb (Z.land flags DNODE_FLAG_SPILL_BLKPTR =? 0) in
  b0 ← at_index full DN_BONUSLEN;
  b1 ← at_index full (DN_BONUSLEN + 1);
  let bonus_len := int_from order [b0; b1] in
  let bonus_start := DNODE_HEADER_SIZE + nblkptr * FileRead.BLKPTR_SIZE in
  let bonus_room := size - (if spill then FileRead.BLKPTR_SIZE else 0) in
  guard_err ((DNODE_SIZE <? bonus_start) || (bonus_room <? bonus_start + bonus_len))
    (Inconsistent "dnode_bonus_len" (LDnode objnum));;
  dnode ← decode_dnode (slot0_of full bonus_start) objnum order;
  bonus ← unwrap (get_range full bonus_start (bonus_start + bonus_len));
  mret {| od_dnode := dnode; od_bonus := bonus |}.

(** The eight bytes a block starts with; a shorter block panics. *)
Definition block_type (block : bytes) (order : EndianOrder) : outcome Error Z :=
  b ← unwrap (get_range block 0 8); mret (int_from order b).

Definition zap_error (token : string) : Error := Inconsistent token (LZap 0).

(** The loop over the iterator of a micro block; each turn takes an entry. *)
Fixpoint micro_loop (BD : BinaryDecoder) (fuel : nat) (out : list (bytes * Z)) :
    SM BinaryDecoderBuffer Error (list (bytes * Z)) :=
  entry ← sm_map_err (fun _ => zap_error "zap_entry") (MicroEntry.next BD fuel);
  match entry with
  | None => mret out
  | Some e =>
      match fuel with
      | O => sm_panic
      | S fuel' => micro_loop BD fuel' (out ++ [(name e, value e)])
      end
  end.
Definition micro_entries (block : bytes) (order : EndianOrder) : outcome Error (list (bytes * Z)) :=
  with_decoder order (fun BD =>
    sm_map_err (fun _ => zap_error "zap_micro") (MicroIterator.from_decoder BD);;
    micro_loop BD (S (length block)) []) block.

(** The last eight bytes of a value as a big-endian integer. *)
Definition value_as_u64 (value : bytes) : Z :=
  let n := Z.min (blen value) 8 in
  int_from Big (zrep (8 - n) 0 ++ zdrop (blen value - n) value).

(** The chunks of a name or a value, followed from [next]. *)
Section leaf.
Context (block : bytes) (chunk_base nchunks : Z) (order : EndianOrder).

Definition chunk_at (idx : Z) : option bytes :=
  let off := chunk_base + idx * ZAP_LEAF_CHUNK_SIZE in get_range block off (off + ZAP_LEAF_CHUNK_SIZE).

Fixpoint chunks_loop (fuel : nat) (length : Z) (next : option Z) (guard : Z) (out : bytes) : outcome Error bytes :=
  if blen out <? length then
    match next with
    | None => Ok out
    | Some idx =>
        match fuel with
        | O => Panic
        | S fuel' =>
            guard_err ((nchunks <=? idx) || (nchunks <? guard)) (zap_error "zap_array_chunk");;
            chunk ← ok_or (chunk_at idx) (zap_error "zap_array_chunk");
            data ← map_err (fun _ => zap_error "zap_array_chunk")
                     (with_decoder order LeafChunk.data_from_decoder chunk);
            let take := Z.min (length - blen out) LeafChunk.ZAP_LEAF_DATA_SIZE in
            part ← unwrap (get_range (chunk_data data) 0 take);
            chunks_loop fuel' length (data_next data) (guard + 1) (out ++ part)
        end
    end
  else Ok out.
Definition collect_chunks (start length : Z) : outcome Error bytes :=
  chunks_loop (Z.to_nat nchunks + 2) length (Some start) 0 [].

(** The bytes before the first zero. *)
Fixpoint until_null (l : bytes) : bytes :=
  match l with [] => [] | b :: l' => if b =? 0 then [] else b :: until_null l' end.

Fixpoint leaf_loop (fuel : nat) (ci : Z) (out : list (bytes * bytes)) : outcome Error (list (bytes * bytes)) :=
  match fuel with
  | O => Ok out
  | S fuel' =>
      chunk ← ok_or (chunk_at ci) (zap_error "zap_leaf_chunk");
      ty ← at_index chunk 0;
      if negb (ty =? LeafChunk.ENTRY_TYPE) then leaf_loop fuel' (ci + 1) out
      else
        entry ← map_err (fun _ => zap_error "zap_leaf_chunk") (with_decoder order LeafChunk.entry_from_decoder chunk);
        name_bytes ← collect_chunks (name_chunk entry) (name_length entry);
        let name := from_utf8_lossy (until_null name_bytes) in
        value_bytes ← collect_chunks (value_chunk entry) (value_int_size entry * value_length entry);
        leaf_loop fuel' (ci + 1) (out ++ [(name, value_bytes)])
  end.
Definition collect_leaf (out : list (bytes * bytes)) : outcome Error (list (bytes * bytes)) :=
  leaf_loop (Z.to_nat nchunks) 0 out.
End leaf.

(** [usize::trailing_zeros]. *)
Fixpoint pos_trailing_zeros (p : positive) : Z :=
  match p with xO p' => 1 + pos_trailing_zeros p' | _ => 0 end.
Definition trailing_zeros (n : Z) : Z := match n with Zpos p => pos_trailing_zeros p | _ => 64 end.

Section objects.
Context {B : Build} {R : Type} `{BlockRead R} (topo : Topology).
Abbreviation M := (SM (list (PoolMember R)) Error).

Definition read_objset (bp : BlockPointer) (order : EndianOrder) : M ObjectSet :=
  bs ← read_block_pointer topo bp;
  sm_lift (map_err (fun _ => Inconsistent "objset_decode" LMos) (with_decoder order Os.from_decoder bs)).

Definition read_object (dnode_array : Dnode) (objnum : Z) (order : EndianOrder) : M ObjectDnode :=
  byte_off ← sm_lift (ok_or (checked_mul 64 objnum DNODE_SIZE) (Inconsistent "dnode_obj_overflow" (LDnode objnum)));
  first ← read_dnode_range topo dnode_array byte_off DNODE_SIZE order;
  extra_slots ← sm_lift (at_index first DN_EXTRA_SLOTS);
  if extra_slots =? 0 then
    dnode ← sm_lift (decode_dnode first objnum order);
    bonus ← sm_lift (Dn.bonus_used dnode);
    mret {| od_dnode := dnode; od_bonus := bonus |}
  else
    let slots := extra_slots + 1 in
    let block_slots := Z.shiftl (data_block_size_sectors dnode_array) 9 / DNODE_SIZE in
    sm_guard ((DNODE_MAX_SLOTS <? slots) || (block_slots =? 0) || (block_slots <? objnum mod block_slots + slots))
      (Inconsistent "dnode_slots" (LDnode objnum));;
    let size := slots * DNODE_SIZE in
    full ← read_dnode_range topo dnode_array byte_off size order;
    sm_lift (large_dnode full objnum size order).

Definition read_object_dnode (dnode_array : Dnode) (objnum : Z) (order : EndianOrder) : M Dnode :=
  o ← read_object dnode_array objnum order; mret (od_dnode o).

(** The loop over the blocks after the header, up to the first hole. *)
Fixpoint leaf_blocks (zap_dnode : Dnode) (order : EndianOrder) (chunk_base nchunks : Z) (fuel : nat) (blkid : Z)
    (out : list (bytes * bytes)) : M (list (bytes * bytes)) :=
  match fuel with
  | O => mret out
  | S fuel' =>
      block ← read_dnode_block topo zap_dnode blkid order;
      match block with
      | None => mret out
      | Some block =>
          out ← (if 8 <=? blen block then
                   ty ← sm_lift (block_type block order);
                   if ty =? LeafHeader.BLOCK_TYPE then sm_lift (collect_leaf block chunk_base nchunks order out)
                   else mret out
                 else mret out);
          leaf_blocks zap_dnode order chunk_base nchunks fuel' (blkid + 1) out
      end
  end.

Definition fat_entries_raw (zap_dnode : Dnode) (dbsz : Z) (order : EndianOrder) : M (list (bytes * bytes)) :=
  shift ← sm_lift (unwrap (checked_sub (trailing_zeros dbsz) 5));
  let hash_entries := Z.shiftl 1 shift in
  let chunk_base := ZAP_LEAF_HEADER_SIZE + hash_entries * 2 in
  sm_guard (dbsz <=? chunk_base) (zap_error "zap_leaf_geom");;
  let nchunks := (dbsz - chunk_base) / ZAP_LEAF_CHUNK_SIZE in
  leaf_blocks zap_dnode order chunk_base nchunks (Z.to_nat (MAX_ZAP_LEAF_BLOCKS - 1)) 1 [].

Definition fat_entries (zap_dnode : Dnode) (dbsz : Z) (order : EndianOrder) : M (list (bytes * Z)) :=
  raw ← fat_entries_raw zap_dnode dbsz order;
  mret ((fun '(name, value) => (name, value_as_u64 value)) <$> raw).

Definition zap_entries (zap_dnode : Dnode) (order : EndianOrder) : M (list (bytes * Z)) :=
  let dbsz := Z.shiftl (data_block_size_sectors zap_dnode) 9 in
  sm_guard (dbsz =? 0) (zap_error "zap_dbsz0");;
  block0 ← read_dnode_block topo zap_dnode 0 order;
  block0 ← sm_lift (ok_or block0 (zap_error "zap_empty"));
  bt ← sm_lift (block_type block0 order);
  if bt =? ZAP_MICRO then sm_lift (micro_entries block0 order)
  else if bt =? ZAP_FAT_HEADER then fat_entries zap_dnode dbsz order
  else sm_err (zap_error "zap_bad_type").

(** The value of the first entry with a name. *)
Definition find_name {V} (n : bytes) (l : list (bytes * V)) : option V :=
  snd <$> find (fun e => bool_decide (fst e = n)) l.

Definition zap_lookup (zap_dnode : Dnode) (name : bytes) (order : EndianOrder) : M (option Z) :=
  entries ← zap_entries zap_dnode order; mret (find_name name entries).

Definition zap_lookup_bytes (zap_dnode : Dnode) (name : bytes) (order : EndianOrder) : M (option bytes) :=
  let dbsz := Z.shiftl (data_block_size_sectors zap_dnode) 9 in
  block0 ← read_dnode_block topo zap_dnode 0 order;
  block0 ← sm_lift (ok_or block0 (zap_error "zap_empty"));
  fat ← (if dbsz =? 0 then mret false
         else bt ← sm_lift (block_type block0 order); mret (bt =? ZAP_FAT_HEADER));
  if (fat : bool) then raw ← fat_entries_raw zap_dnode dbsz order; mret (find_name name raw)
  else v ← zap_lookup zap_dnode name order; mret (int_to Big 8 <$> v).
End objects.

(** ** Micro blocks *)
Section micro.
Context (o : EndianOrder).
Abbreviation DL := (endian_decoder o).

Definition entry_layable (e : option ZapMicroEntryRef) : Prop :=
  match e with Some e => MicroEntry.wf e /\ name e <> [] | None => True end.
Definition micro_block (h : ZapMicroHeader) (es : list (option ZapMicroEntryRef)) : bytes :=
  MicroHeader.layout o h ++ concat (MicroEntry.layout o <$> es).
(** The pairs of the entries that are in use. *)
Definition micro_pairs (es : list (option ZapMicroEntryRef)) : list (bytes * Z) :=
  (fun e => (name e, value e)) <$> omap id es.

(** A turn of the loop, with the fuel of the iterator apart. *)
Definition micro_turn (nf mf : nat) (out : list (bytes * Z)) : SM BinaryDecoderBuffer Error (list (bytes * Z)) :=
  entry ← sm_map_err (fun _ => zap_error "zap_entry") (MicroEntry.next DL nf);
  match entry with
  | None => mret out
  | Some e => match mf with O => sm_panic | S mf' => micro_loop DL mf' (out ++ [(name e, value e)]) end
  end.

Lemma micro_loop_turn fuel out : micro_loop DL fuel out = micro_turn fuel fuel out.
Proof. now destruct fuel. Qed.

Lemma entry_blen e : entry_layable e -> blen (MicroEntry.layout o e) = 64.
Proof.
  intros He. apply MicroEntry.blen_entry_layout. destruct e as [e|]; [|done]. destruct He as [(_ & _ & _ & Hl & _) _]. exact Hl.
Qed.

(** One entry: the iterator skips it when it is empty and returns it otherwise. *)
Lemma next_step e nf b r :
  entry_layable e -> DecoderBuffer.wf b -> DecoderBuffer.remaining b = MicroEntry.layout o e ++ r ->
  MicroEntry.next DL (S nf) b =
  match e with
  | Some e => (Ok (Some e), DecoderBuffer.advance 64 b)
  | None => MicroEntry.next DL nf (DecoderBuffer.advance 64 b)
  end.
Proof.
  intros He Hb Hr. pose proof (entry_blen e He) as Hl. cbn [MicroEntry.next]. unfold mbind, SM_bind, sm_get.
  unfold DecoderBuffer.is_empty. rewrite DecoderBuffer.len_remaining, Hr, blen_app, Hl by done.
  pose proof (blen_nonneg r). rewrite (proj2 (Z.eqb_neq _ _)) by lia.
  rewrite (MicroEntry.entry_reads o e He b r Hb Hr), Hl. now destruct e.
Qed.

Lemma micro_turn_ends es : forall nf mf out,
  Forall entry_layable es -> (length es <= nf)%nat -> (length es <= mf)%nat ->
  ends (micro_turn nf mf out) (concat (MicroEntry.layout o <$> es)) (out ++ micro_pairs es).
Proof.
  induction es as [|e es IH]; intros nf mf out Hes Hnf Hmf b Hb Hr.
  - unfold micro_turn, mbind, SM_bind, sm_map_err. assert (Hn : MicroEntry.next DL nf b = (Ok None, b)).
    { destruct nf; cbn [MicroEntry.next]; unfold mbind, SM_bind, sm_get, DecoderBuffer.is_empty;
        rewrite DecoderBuffer.len_remaining, Hr by done; done. }
    rewrite Hn. cbn. rewrite advance_0. unfold micro_pairs. cbn. now rewrite app_nil_r.
  - inversion Hes as [|? ? He Hes']; subst. cbn [length] in *. destruct nf as [|nf]; [lia|].
    rewrite fmap_cons in *. cbn [concat] in *.
    pose proof (remaining_app b _ _ Hb Hr) as [Hb' Hr']. rewrite (entry_blen e He) in Hb', Hr'.
    rewrite blen_app, (entry_blen e He), <- advance_advance.
    unfold micro_turn, mbind, SM_bind, sm_map_err. rewrite (next_step e nf b _ He Hb Hr).
    destruct e as [e|].
    + destruct mf as [|mf]; [lia|]. cbn [map_err]. rewrite micro_loop_turn, (IH mf mf) by (done || lia).
      unfold micro_pairs. cbn. now rewrite <- app_assoc.
    + assert (Ht := IH nf mf out Hes' ltac:(lia) ltac:(lia) _ Hb' Hr').
      unfold micro_turn, mbind, SM_bind, sm_map_err in Ht. rewrite Ht. done.
Qed.

Lemma entries_blen es : Forall entry_layable es -> blen (concat (MicroEntry.layout o <$> es)) = 64 * Z.of_nat (length es).
Proof.
  induction 1 as [|e es He Hes IH]; [done|]. rewrite fmap_cons. cbn [concat length].
  rewrite blen_app, (entry_blen e He), IH. lia.
Qed.

Lemma iterator_start h rest b :
  MicroHeader.wf h -> blen rest mod 64 = 0 -> DecoderBuffer.wf b ->
  DecoderBuffer.remaining b = MicroHeader.layout o h ++ rest ->
  MicroIterator.from_decoder DL b = (Ok h, DecoderBuffer.advance (blen (MicroHeader.layout o h)) b).
Proof.
  intros Hh Hm Hb Hr. destruct (remaining_app b _ _ Hb Hr) as [Hb' Hr'].
  unfold MicroIterator.from_decoder, mbind, SM_bind, sm_map_err.
  rewrite (MicroHeader.micro_header_reads o h Hh b rest Hb Hr). unfold sm_gets. cbn [map_err].
  rewrite DecoderBuffer.len_remaining, Hr' by done. unfold MicroEntry.SIZE. rewrite Hm. done.
Qed.

Lemma micro_block_ok h es : Forall entry_layable es -> bytes_ok (micro_block h es).
Proof.
  intros Hes. unfold micro_block. apply Forall_app. split.
  - exact (proj1 (Header.zap_header_layout_ok o (Micro h))).
  - induction Hes as [|e es He Hes IH]; [constructor|]. rewrite fmap_cons. cbn [concat]. apply Forall_app.
    split; [|done]. apply MicroEntry.entry_layout_bytes. destruct e; [exact (proj1 He)|done].
Qed.

(** A micro block lists its entries in use, in order. *)
Lemma micro_entries_block h es :
  MicroHeader.wf h -> Forall entry_layable es -> micro_entries (micro_block h es) o = Ok (micro_pairs es).
Proof.
  intros Hh Hes. unfold micro_entries. pose proof (entries_blen es Hes) as Hl.
  apply with_decoder_ends; [|now apply micro_block_ok]. intros b Hb Hr. unfold micro_block in Hr.
  destruct (remaining_app b _ _ Hb Hr) as [Hb' Hr'].
  assert (Hm : blen (concat (MicroEntry.layout o <$> es)) mod 64 = 0).
  { rewrite Hl, Z.mul_comm. now apply Z.mod_mul. }
  assert (Hf : (length es <= S (length (micro_block h es)))%nat).
  { unfold micro_block, blen in *. rewrite length_app. lia. }
  unfold mbind, SM_bind, sm_map_err at 1. rewrite (iterator_start h _ b Hh Hm Hb Hr).
  cbn [map_err]. rewrite micro_loop_turn, (micro_turn_ends es _ _ [] Hes Hf Hf _ Hb' Hr').
  unfold micro_block. now rewrite advance_advance, blen_app.
Qed.
End micro.

(** ** Leaf blocks *)
Section leaf_spec.
Context (o : EndianOrder) (cs : list ZapLeafChunk).
Abbreviation nchunks := (Z.of_nat (length cs)).

(** The bytes that the chain of data chunks from [next] spells, up to a
    length; a chain that ends early spells less. *)
Inductive spells : option Z -> Z -> bytes -> Prop :=
| spells_done next len : len <= 0 -> spells next len []
| spells_end len : 0 < len -> spells None len []
| spells_chunk i d len bs :
    0 < len -> 0 <= i -> cs !! Z.to_nat i = Some (Array d) ->
    spells (data_next d) (Z.max 0 (len - LeafChunk.ZAP_LEAF_DATA_SIZE)) bs ->
    spells (Some i) len (ztake len (chunk_data d) ++ bs).

(** The pairs of the entry chunks, in order. *)
Inductive leaf_pairs : list ZapLeafChunk -> list (bytes * bytes) -> Prop :=
| pairs_nil : leaf_pairs [] []
| pairs_skip c rest ps : (forall e, c <> Entry e) -> leaf_pairs rest ps -> leaf_pairs (c :: rest) ps
| pairs_entry e nm v rest ps :
    spells (Some (name_chunk e)) (name_length e) nm ->
    spells (Some (value_chunk e)) (value_int_size e * value_length e) v ->
    name_length e <= 21 * (nchunks + 1) -> value_int_size e * value_length e <= 21 * (nchunks + 1) ->
    leaf_pairs rest ps -> leaf_pairs (Entry e :: rest) ((from_utf8_lossy (until_null nm), v) :: ps).

Context (block : bytes) (base : Z).
Hypothesis chunks_wf : Forall LeafChunk.wf cs.
Hypothesis chunks_here :
  forall i c, cs !! i = Some c -> chunk_at block base (Z.of_nat i) = Some (LeafChunk.layout o c).

Lemma chunk_decodes i c : cs !! i = Some c ->
  chunk_at block base (Z.of_nat i) = Some (LeafChunk.layout o c) /\ LeafChunk.wf c /\ bytes_ok (LeafChunk.layout o c).
Proof using chunks_wf chunks_here.
  intros Hi. rewrite Forall_lookup in chunks_wf. pose proof (chunks_wf i c Hi) as Hw.
  destruct (LeafChunk.chunk_layout_ok o c Hw). eauto.
Qed.

Lemma data_decodes d : LeafChunk.data_wf d -> bytes_ok (LeafChunk.data_layout o d) ->
  with_decoder o LeafChunk.data_from_decoder (LeafChunk.data_layout o d) = Ok d.
Proof using.
  intros Hw Hb. rewrite <- (app_nil_r (LeafChunk.data_layout o d)).
  apply with_decoder_reads; [now apply LeafChunk.data_reads|now rewrite app_nil_r].
Qed.
Lemma entry_decodes e : LeafChunk.entry_wf e -> bytes_ok (LeafChunk.entry_layout o e) ->
  with_decoder o LeafChunk.entry_from_decoder (LeafChunk.entry_layout o e) = Ok e.
Proof using.
  intros Hw Hb. rewrite <- (app_nil_r (LeafChunk.entry_layout o e)).
  apply with_decoder_reads; [now apply LeafChunk.entry_chunk_reads|now rewrite app_nil_r].
Qed.

Lemma chunks_loop_spells next len bs : spells next len bs -> forall fuel length guard out,
  len = length - blen out -> 0 <= guard -> len <= 21 * (nchunks + 1 - guard) -> nchunks + 1 - guard <= Z.of_nat fuel ->
  chunks_loop block base nchunks o fuel length next guard out = Ok (out ++ bs).
Proof using chunks_wf chunks_here.
  induction 1 as [next len Hlen|len Hlen|i d len bs Hlen Hi Hd Hsp IH]; intros fuel length guard out -> Hg Hcap Hfuel.
  - destruct fuel; cbn [chunks_loop]; (rewrite (proj2 (Z.ltb_ge _ _)) by lia); now rewrite app_nil_r.
  - destruct fuel; cbn [chunks_loop]; (rewrite (proj2 (Z.ltb_lt _ _)) by lia); now rewrite app_nil_r.
  - destruct fuel as [|fuel]; [lia|]. cbn [chunks_loop]. rewrite (proj2 (Z.ltb_lt _ _)) by lia.
    destruct (chunk_decodes _ _ Hd) as (Hc & Hw & Hb). rewrite Z2Nat.id in Hc by lia.
    pose proof (lookup_lt_Some _ _ _ Hd) as Hlt. rewrite Hc. cbn [LeafChunk.layout LeafChunk.wf] in *.
    unfold guard_err. rewrite (proj2 (Z.leb_gt _ _)), (proj2 (Z.ltb_ge nchunks guard)) by lia. cbn [orb].
    cbn [mbind outcome_bind ok_or]. rewrite data_decodes by done. cbn [map_err mbind outcome_bind].
    destruct Hw as (Hl & _ & _). unfold LeafChunk.ZAP_LEAF_DATA_SIZE in *. rewrite get_range_ok by lia.
    cbn [unwrap mbind outcome_bind]. rewrite zdrop_0, Z.sub_0_r.
    assert (Ht : ztake (Z.min (length - blen out) 21) (chunk_data d) = ztake (length - blen out) (chunk_data d)).
    { destruct (Z.min_spec (length - blen out) 21) as [[? ->]|[? ->]]; [done|]. now rewrite !ztake_ge by lia. }
    rewrite Ht. rewrite (IH fuel length (guard + 1)).
    + now rewrite <- app_assoc.
    + rewrite blen_app, blen_ztake by lia. rewrite Hl. lia.
    + lia.
    + lia.
    + lia.
Qed.

Lemma collect_chunks_spells start len bs :
  spells (Some start) len bs -> len <= 21 * (nchunks + 1) -> collect_chunks block base nchunks o start len = Ok bs.
Proof using chunks_wf chunks_here.
  intros Hs Hl. unfold collect_chunks. apply (chunks_loop_spells _ _ _ Hs _ _ _ []); rewrite ?blen_nil; lia.
Qed.

(** The first byte of a chunk tells whether it is an entry. *)
Lemma chunk_type_at c rest : LeafChunk.layout o c = rest ->
  at_index rest 0 = Ok (match c with Array _ => LeafChunk.DATA_TYPE | Entry _ => LeafChunk.ENTRY_TYPE | Free _ => LeafChunk.FREE_TYPE end).
Proof using.
  intros <-. unfold at_index. rewrite zget_nat by done. now destruct c.
Qed.

Lemma leaf_loop_pairs rest ps : leaf_pairs rest ps -> forall ci out,
  (forall i c, rest !! i = Some c -> cs !! (ci + i)%nat = Some c) ->
  leaf_loop block base nchunks o (length rest) (Z.of_nat ci) out = Ok (out ++ ps).
Proof using chunks_wf chunks_here.
  induction 1 as [|c rest ps Hc Hps IH|e nm v rest ps Hn Hv Hln Hlv Hps IH]; intros ci out Hin; cbn [leaf_loop length].
  - now rewrite app_nil_r.
  - destruct (chunk_decodes ci c) as (-> & _ & _). { rewrite <- (Nat.add_0_r ci). now apply Hin. }
    cbn [ok_or mbind outcome_bind]. rewrite (chunk_type_at c) by done. cbn [mbind outcome_bind].
    destruct c as [d|e|f]; [|now destruct (Hc e)|]; cbn [negb Z.eqb];
      (replace (Z.of_nat ci + 1) with (Z.of_nat (S ci)) by lia);
      (apply IH; intros i c Hi; replace (S ci + i)%nat with (ci + S i)%nat by lia; now apply Hin).
  - destruct (chunk_decodes ci (Entry e)) as (-> & Hw & Hb). { rewrite <- (Nat.add_0_r ci). now apply Hin. }
    cbn [ok_or mbind outcome_bind]. rewrite (chunk_type_at (Entry e)) by done. cbn [mbind outcome_bind].
    cbn [negb Z.eqb LeafChunk.layout LeafChunk.wf] in *. rewrite entry_decodes by done. cbn [map_err mbind outcome_bind].
    rewrite (collect_chunks_spells _ _ nm Hn), (collect_chunks_spells _ _ v Hv) by done.
    cbn [mbind outcome_bind]. rewrite Z.eqb_refl. cbn [negb].
    replace (Z.of_nat ci + 1) with (Z.of_nat (S ci)) by lia. rewrite IH, <- app_assoc; [done|].
    intros i c Hi. replace (S ci + i)%nat with (ci + S i)%nat by lia. now apply Hin.
Qed.

Lemma collect_leaf_pairs ps out :
  leaf_pairs cs ps -> collect_leaf block base nchunks o out = Ok (out ++ ps).
Proof using chunks_wf chunks_here.
  intros Hp. unfold collect_leaf. rewrite Nat2Z.id. apply (leaf_loop_pairs cs ps Hp 0). done.
Qed.
End leaf_spec.

(** The image of a leaf block. *)
Definition leaf_image (o : EndianOrder) (h : ZapLeafHeader) (table : bytes) (cs : list ZapLeafChunk) (pad : bytes) : bytes :=
  LeafHeader.layout o h ++ table ++ concat (LeafChunk.layout o <$> cs) ++ pad.

Lemma chunks_blen o cs : Forall LeafChunk.wf cs -> blen (concat (LeafChunk.layout o <$> cs)) = 24 * Z.of_nat (length cs).
Proof.
  induction 1 as [|c cs Hc Hcs IH]; [done|]. rewrite fmap_cons. cbn [concat length].
  rewrite blen_app, IH, (proj2 (LeafChunk.chunk_layout_ok o c Hc)). unfold LeafChunk.SIZE. lia.
Qed.

Lemma chunk_at_image o h table cs pad i c :
  Forall LeafChunk.wf cs -> cs !! i = Some c ->
  chunk_at (leaf_image o h table cs pad) (48 + blen table) (Z.of_nat i) = Some (LeafChunk.layout o c).
Proof.
  intros Hcs Hi. rewrite <- (take_drop_middle cs i c Hi) at 1.
  assert (Htk : Forall LeafChunk.wf (take i cs)) by now apply Forall_take.
  assert (Hc : LeafChunk.wf c) by (rewrite Forall_lookup in Hcs; eauto).
  unfold leaf_image. rewrite fmap_app, fmap_cons, concat_app. cbn [concat].
  set (pre := LeafHeader.layout o h ++ table ++ concat (LeafChunk.layout o <$> take i cs)).
  assert (Hpre : blen pre = 48 + blen table + Z.of_nat i * 24).
  { unfold pre. rewrite !blen_app, (proj2 (LeafHeader.leaf_header_layout_ok o h)), chunks_blen by done.
    rewrite length_take_le by (apply lookup_lt_Some in Hi; lia). unfold LeafHeader.SIZE. lia. }
  unfold chunk_at, ZAP_LEAF_CHUNK_SIZE. rewrite <- Hpre.
  replace (blen pre + 24) with (blen pre + blen (LeafChunk.layout o c)) by (now rewrite (proj2 (LeafChunk.chunk_layout_ok o c Hc))).
  etransitivity; [|apply (get_range_middle pre _ (concat (LeafChunk.layout o <$> drop (S i) cs) ++ pad))].
  f_equal. unfold pre. now rewrite <- !app_assoc.
Qed.

Lemma block_type_prefix o x rest : fits 64 x -> block_type (int_to o 8 x ++ rest) o = Ok x.
Proof.
  intros Hx. unfold block_type.
  pose proof (get_range_middle [] (int_to o 8 x) rest) as Hg. cbn [app] in Hg. rewrite blen_int_to in Hg.
  change (blen []) with 0 in Hg. change (0 + Z.of_nat 8) with 8 in Hg. rewrite Hg. cbn. now rewrite int_from_to.
Qed.

(** ** ZAP objects *)
Section zap_objects.
Context {B : Build} {R : Type} `{BlockRead R} (topo : Topology) (o : EndianOrder)
  (ms : list (PoolMember R)) (zap_dnode : Dnode) (trees : list tree).
Hypothesis Hst : object_stored topo o ms zap_dnode trees.
Abbreviation obj_block i := (mjoin (FileRead.blocks zap_dnode trees !! i)).

(** A block after the header: a leaf with its pairs, or anything else. *)
Inductive fat_block (base nch : Z) : bytes -> list (bytes * bytes) -> Prop :=
| fat_leaf h table cs pad ps :
    Forall LeafChunk.wf cs -> base = 48 + blen table -> nch = Z.of_nat (length cs) -> leaf_pairs cs cs ps ->
    fat_block base nch (leaf_image o h table cs pad) ps
| fat_other b : (8 <= blen b -> block_type b o <> Ok LeafHeader.BLOCK_TYPE) -> fat_block base nch b [].

Lemma fat_block_step base nch b ps out :
  fat_block base nch b ps ->
  (if 8 <=? blen b then
     ty ← sm_lift (block_type b o);
     if ty =? LeafHeader.BLOCK_TYPE then sm_lift (collect_leaf b base nch o out) else mret out
   else mret out) ms = (Ok (E := Error) (out ++ ps), ms).
Proof using.
  intros [h table cs pad ps' Hcs -> -> Hps|b' Hb].
  - assert (Hl : 8 <= blen (leaf_image o h table cs pad)).
    { unfold leaf_image. rewrite !blen_app, (proj2 (LeafHeader.leaf_header_layout_ok o h)), chunks_blen by done.
      pose proof (blen_nonneg table). pose proof (blen_nonneg pad). unfold LeafHeader.SIZE. lia. }
    rewrite (proj2 (Z.leb_le _ _) Hl). smunfold. unfold leaf_image at 1, LeafHeader.layout.
    rewrite <- app_assoc, block_type_prefix by (vm_compute; split; congruence). cbn [Z.eqb].
    rewrite Z.eqb_refl. rewrite (collect_leaf_pairs o cs _ _ Hcs) with (ps := ps'); [done| |done].
    intros i c Hi. now apply chunk_at_image.
  - destruct (Z.leb_spec 8 (blen b')); smunfold; [|now rewrite app_nil_r].
    unfold block_type in *. rewrite get_range_ok in * by lia. cbn [unwrap mbind outcome_bind] in *.
    destruct (Z.eqb_spec (int_from o (ztake (8 - 0) (zdrop 0 b'))) LeafHeader.BLOCK_TYPE) as [E|E].
    + exfalso. apply Hb; [done|]. cbn [mret outcome_ret]. now rewrite E.
    + cbn [mret outcome_ret]. rewrite (proj2 (Z.eqb_neq _ _) E). now rewrite app_nil_r.
Qed.

(** The blocks from [blkid] on, up to the first hole. *)
Lemma leaf_blocks_pairs base nch bs pss : Forall2 (fat_block base nch) bs pss -> forall fuel blkid out,
  (length bs <= fuel)%nat -> 0 <= blkid -> blkid + Z.of_nat (length bs) < 2 ^ 55 ->
  (forall i b, bs !! i = Some b -> obj_block (Z.to_nat blkid + i)%nat = Some b) ->
  ((length bs < fuel)%nat -> obj_block (Z.to_nat blkid + length bs)%nat = None) ->
  leaf_blocks topo zap_dnode o base nch fuel blkid out ms = (Ok (out ++ concat pss), ms).
Proof using Hst.
  induction 1 as [|b ps bs pss Hb Hbs IH]; intros fuel blkid out Hf H0 Hmax Hin Hend; cbn [length concat] in *.
  - destruct fuel as [|fuel]; cbn [leaf_blocks]; [now rewrite app_nil_r|]. smunfold.
    rewrite (read_block_flat topo o ms zap_dnode trees blkid Hst) by lia.
    specialize (Hend ltac:(lia)). rewrite Nat.add_0_r in Hend. rewrite Hend. now rewrite app_nil_r.
  - destruct fuel as [|fuel]; [lia|]. cbn [leaf_blocks]. unfold mbind at 1, SM_bind at 1.
    rewrite (read_block_flat topo o ms zap_dnode trees blkid Hst) by lia.
    pose proof (Hin 0%nat b eq_refl) as Hb0. rewrite Nat.add_0_r in Hb0. rewrite Hb0.
    unfold mbind at 1, SM_bind at 1. rewrite (fat_block_step base nch b ps out Hb).
    rewrite IH; [now rewrite <- app_assoc|lia|lia|lia| |].
    + intros i c Hi. replace (Z.to_nat (blkid + 1) + i)%nat with (Z.to_nat blkid + S i)%nat by lia. now apply Hin.
    + intros Hlt. replace (Z.to_nat (blkid + 1) + length bs)%nat with (Z.to_nat blkid + S (length bs))%nat by lia.
      apply Hend. lia.
Qed.
End zap_objects.

(** Where the chunks of a leaf of a block size start, and how many there are. *)
Definition leaf_base (dbsz : Z) : Z := ZAP_LEAF_HEADER_SIZE + Z.shiftl 1 (trailing_zeros dbsz - 5) * 2.
Definition leaf_chunks (dbsz : Z) : Z := (dbsz - leaf_base dbsz) / ZAP_LEAF_CHUNK_SIZE.

Lemma trailing_zeros_bound n : 0 < n -> 0 <= trailing_zeros n /\ 2 ^ trailing_zeros n <= n.
Proof.
  destruct n as [|p|p]; try lia. intros _. cbn [trailing_zeros].
  induction p as [p IH|p IH|]; cbn [pos_trailing_zeros]; try (cbn; lia).
  rewrite Z.pow_add_r by lia. change (2 ^ 1) with 2. lia.
Qed.
Lemma trailing_zeros_sectors s : 0 < s -> trailing_zeros (Z.shiftl s 9) = 9 + trailing_zeros s.
Proof.
  destruct s as [|p|p]; try lia. intros _. rewrite Z.shiftl_mul_pow2 by lia.
  change (Z.pos p * 2 ^ 9) with (Z.pos (p * 512)). replace (p * 512)%positive with (p~0~0~0~0~0~0~0~0~0)%positive by lia.
  cbn [trailing_zeros pos_trailing_zeros]. lia.
Qed.

Lemma leaf_base_bound s :
  0 < s -> 9 <= trailing_zeros (Z.shiftl s 9) /\ leaf_base (Z.shiftl s 9) < Z.shiftl s 9.
Proof.
  intros Hs. pose proof (trailing_zeros_bound s Hs) as [H0 Hle]. rewrite trailing_zeros_sectors by done.
  split; [lia|]. unfold leaf_base, ZAP_LEAF_HEADER_SIZE. rewrite trailing_zeros_sectors by done.
  rewrite !Z.shiftl_mul_pow2 by lia. replace (9 + trailing_zeros s - 5) with (4 + trailing_zeros s) by lia.
  rewrite Z.pow_add_r by lia. lia.
Qed.

Section zap_theorems.
Context {B : Build} {R : Type} `{BlockRead R} (topo : Topology) (o : EndianOrder)
  (ms : list (PoolMember R)) (zap_dnode : Dnode) (trees : list tree).
Hypothesis Hst : object_stored topo o ms zap_dnode trees.
Hypothesis Hsz : 0 < data_block_size_sectors zap_dnode.

Lemma zap_entries_start block0 rest :
  FileRead.blocks zap_dnode trees = Some block0 :: rest ->
  zap_entries topo zap_dnode o ms =
  (bt ← sm_lift (block_type block0 o);
   if bt =? ZAP_MICRO then sm_lift (micro_entries block0 o)
   else if bt =? ZAP_FAT_HEADER then fat_entries topo zap_dnode (Z.shiftl (data_block_size_sectors zap_dnode) 9) o
   else sm_err (zap_error "zap_bad_type")) ms.
Proof using Hst Hsz.
  intros Hb. unfold zap_entries, sm_guard, guard_err.
  rewrite (proj2 (Z.eqb_neq _ _)) by (rewrite Z.shiftl_mul_pow2; lia).
  unfold mbind at 1, SM_bind at 1, sm_lift at 1. unfold mbind at 1, SM_bind at 1.
  rewrite (read_block_flat topo o ms zap_dnode trees 0 Hst) by lia. rewrite Hb. done.
Qed.

Lemma micro_lists h es rest :
  FileRead.blocks zap_dnode trees = Some (micro_block o h es) :: rest ->
  MicroHeader.wf h -> Forall entry_layable es ->
  zap_entries topo zap_dnode o ms = (Ok (micro_pairs es), ms).
Proof using Hst Hsz.
  intros Hb Hh Hes. rewrite (zap_entries_start _ _ Hb). smunfold.
  unfold micro_block at 1, MicroHeader.layout. rewrite <- app_assoc, block_type_prefix by (vm_compute; split; congruence).
  change (MicroHeader.BLOCK_TYPE =? ZAP_MICRO) with true. cbv iota. now rewrite micro_entries_block.
Qed.

(** A fat ZAP: a header block, leaves (and other blocks) and then holes. *)
Definition fat_zap (pss : list (list (bytes * bytes))) : Prop :=
  let dbsz := Z.shiftl (data_block_size_sectors zap_dnode) 9 in
  exists hdr bs holes,
    FileRead.blocks zap_dnode trees = Some (int_to o 8 ZAP_FAT_HEADER ++ hdr) :: (Some <$> bs) ++ replicate holes None /\
    Forall2 (fat_block o (leaf_base dbsz) (leaf_chunks dbsz)) bs pss /\ Z.of_nat (length bs) < MAX_ZAP_LEAF_BLOCKS.

Lemma fat_raw pss :
  fat_zap pss ->
  fat_entries_raw topo zap_dnode (Z.shiftl (data_block_size_sectors zap_dnode) 9) o ms = (Ok (concat pss), ms).
Proof using Hst Hsz.
  intros (hdr & bs & holes & Hb & Hbs & Hl). destruct (leaf_base_bound _ Hsz) as [Ht Hbase].
  unfold fat_entries_raw. rewrite checked_sub_ok by lia. cbn [unwrap]. unfold mbind at 1, SM_bind at 1, sm_lift.
  fold (leaf_base (Z.shiftl (data_block_size_sectors zap_dnode) 9)). unfold sm_guard, guard_err.
  rewrite (proj2 (Z.leb_gt _ _)) by done. unfold mbind at 1, SM_bind at 1, sm_lift.
  fold (leaf_chunks (Z.shiftl (data_block_size_sectors zap_dnode) 9)).
  rewrite (leaf_blocks_pairs topo o ms zap_dnode trees Hst _ _ bs pss Hbs); [done| | | | |].
  - change MAX_ZAP_LEAF_BLOCKS with 1048576 in *. lia.
  - lia.
  - change MAX_ZAP_LEAF_BLOCKS with 1048576 in *. lia.
  - intros i b Hi. rewrite Hb. change (Z.to_nat 1 + i)%nat with (S i). rewrite lookup_cons.
    rewrite lookup_app_l by (rewrite length_fmap; apply lookup_lt_Some in Hi; lia).
    rewrite list_lookup_fmap, Hi. done.
  - intros _. rewrite Hb. change (Z.to_nat 1 + length bs)%nat with (S (length bs)). rewrite lookup_cons.
    rewrite lookup_app_r by (rewrite length_fmap; lia). rewrite length_fmap, Nat.sub_diag.
    destruct holes; done.
Qed.

Lemma fat_lists pss :
  fat_zap pss ->
  zap_entries topo zap_dnode o ms = (Ok ((fun '(n, v) => (n, value_as_u64 v)) <$> concat pss), ms).
Proof using Hst Hsz.
  intros Hf. pose proof (fat_raw pss Hf) as Hr. destruct Hf as (hdr & bs & holes & Hb & _ & _).
  rewrite (zap_entries_start _ _ Hb). smunfold. rewrite block_type_prefix by (vm_compute; split; congruence).
  change (ZAP_FAT_HEADER =? ZAP_MICRO) with false. rewrite Z.eqb_refl. cbv iota. unfold fat_entries. smunfold. now rewrite Hr.
Qed.
End zap_theorems.

(** ** Objects of a dnode array *)
Lemma zget_at (l : bytes) x r i : i = blen l -> zget (l ++ x :: r) i = Some x.
Proof.
  intros ->. pose proof (blen_nonneg l). rewrite zget_nat by done. unfold blen. rewrite Nat2Z.id.
  now rewrite list_lookup_middle.
Qed.

Lemma layout_extra_slots o d : exists pre rest, Dn.layout o d = pre ++ extra_slots d :: rest /\ blen pre = 12.
Proof.
  exists ([DmuType.into_u8 (dn_dmu d); indirect_block_shift d; levels d; blen (Dn.pointers d);
   DmuType.into_u8 (bonus_type d); ChecksumType.into_u8 (dn_checksum d);
   CompressionType.into_u8 (dn_compression d); Dn.flags_of d] ++
   int_to o 2 (data_block_size_sectors d) ++ int_to o 2 (bonus_len d)). eexists. split.
  - unfold Dn.layout. rewrite <- !app_assoc. reflexivity.
  - rewrite !blen_app, !blen_int_to, !blen_cons, !blen_nil. done.
Qed.

(** A large dnode on disk: the header and pointers of [d] with the length of
    the real bonus, the bonus, and what follows it, the spill pointer included. *)
Definition large_layout (o : EndianOrder) (d : Dnode) (spill : bool) (bonus rest : bytes) : bytes :=
  [DmuType.into_u8 (dn_dmu d); indirect_block_shift d; levels d; blen (Dn.pointers d);
   DmuType.into_u8 (bonus_type d); ChecksumType.into_u8 (dn_checksum d);
   CompressionType.into_u8 (dn_compression d);
   Z.lor (Dn.flags_of d) (if spill then DNODE_FLAG_SPILL_BLKPTR else 0)] ++
  int_to o 2 (data_block_size_sectors d) ++ int_to o 2 (blen bonus) ++ [extra_slots d] ++
  (zrep Dn.PADDING_SIZE_A 0 ++ int_to o 8 (max_block_id d) ++ int_to o 8 (Dn.used_amount (used d)) ++
   zrep Dn.PADDING_SIZE_B 0 ++ concat (Dn.ptr_layout o <$> Dn.pointers d)) ++ bonus ++ rest.

(** What the decoder returns for it: the bonus is left to the caller. *)
Definition bare (d : Dnode) : Prop :=
  bonus_len d = 0 /\ Dn.bonus_capacity d = zrep (448 - 128 * blen (Dn.pointers d)) 0 /\
  match tail d with TailSpill _ _ _ => False | _ => True end.

Lemma tail_layout_bare o d :
  bare d -> Dn.tail_layout o (tail d) =
    concat (Dn.ptr_layout o <$> Dn.pointers d) ++ zrep (448 - 128 * blen (Dn.pointers d)) 0.
Proof.
  intros (_ & Hb & Hs). unfold Dn.bonus_capacity, Dn.pointers in *.
  destruct (tail d); cbn [Dn.tail_layout Dn.pointers_of Dn.bonus_of] in *; rewrite ?fmap_cons; cbn [concat fmap list_fmap];
    rewrite ?app_nil_r, <- ?app_assoc, ?Hb; done.
Qed.

Lemma ptrs_blen o d : bare d -> Dn.dnode_wf d -> Dn.tail_layable o (tail d) ->
  blen (concat (Dn.ptr_layout o <$> Dn.pointers d)) = 128 * blen (Dn.pointers d) /\ 0 <= blen (Dn.pointers d) <= 3.
Proof.
  intros Hb Hw Hl. destruct Hw as [Ht _]. pose proof (Dn.blen_tail_layout o _ Ht Hl) as Hn.
  rewrite (tail_layout_bare o d Hb), blen_app in Hn. pose proof (blen_nonneg (Dn.pointers d)).
  assert (blen (Dn.pointers d) <= 3) by (unfold Dn.pointers; destruct (tail d); vm_compute; congruence).
  rewrite blen_zrep in Hn by lia. lia.
Qed.

Lemma int2_bytes o x : exists a b, int_to o 2 x = [a; b].
Proof.
  pose proof (blen_int_to o 2 x) as Hl. destruct (int_to o 2 x) as [|a [|b [|c l]]]; try done; eauto.
  rewrite !blen_cons in Hl. pose proof (blen_nonneg l). lia.
Qed.

Lemma spill_flag_cleared d spill :
  match tail d with TailSpill _ _ _ => False | _ => True end ->
  Z.land (Z.lor (Dn.flags_of d) (if (spill : bool) then DNODE_FLAG_SPILL_BLKPTR else 0)) (255 - DNODE_FLAG_SPILL_BLKPTR) =
    Dn.flags_of d /\
  negb (Z.land (Z.lor (Dn.flags_of d) (if spill then DNODE_FLAG_SPILL_BLKPTR else 0)) DNODE_FLAG_SPILL_BLKPTR =? 0) = spill.
Proof.
  intros Hs. unfold Dn.flags_of. destruct (tail d), (used d), (user_used_accounted d), (user_obj_used_accounted d), spill;
    try done; vm_compute; split; reflexivity.
Qed.

Lemma int_zero2 o : int_to o 2 0 = [0; 0].
Proof. now destruct o. Qed.

Lemma slot0_layout o d spill bonus rest :
  bare d -> Dn.dnode_wf d -> Dn.tail_layable o (tail d) ->
  slot0_of (large_layout o d spill bonus rest) (64 + blen (Dn.pointers d) * 128) = Dn.layout o d.
Proof.
  intros Hb Hw Hl. destruct (ptrs_blen o d Hb Hw Hl) as [Hp Hn]. pose proof (tail_layout_bare o d Hb) as Ht.
  destruct Hb as (Hb0 & _ & Hs). destruct (spill_flag_cleared d spill Hs) as [Hf _].
  unfold large_layout, slot0_of, DNODE_SIZE.
  destruct (int2_bytes o (data_block_size_sectors d)) as (x0 & x1 & Hx). destruct (int2_bytes o (blen bonus)) as (y0 & y1 & Hy).
  rewrite Hx, Hy. set (mid := zrep Dn.PADDING_SIZE_A 0 ++ _).
  assert (Hm : blen mid = 51 + 128 * blen (Dn.pointers d)).
  { unfold mid. rewrite !blen_app, !blen_int_to, !blen_zrep, Hp by done.
    unfold Dn.PADDING_SIZE_A, Dn.PADDING_SIZE_B. lia. }
  rewrite !app_assoc, <- (app_assoc _ bonus rest). rewrite ztake_app_exact.
  2: { rewrite !blen_app, Hm, !blen_cons, !blen_nil. lia. }
  replace (512 - (64 + blen (Dn.pointers d) * 128)) with (448 - 128 * blen (Dn.pointers d)) by lia.
  set (f := Z.lor _ _) in *. set (zs := zrep (448 - _) 0).
  transitivity ([DmuType.into_u8 (dn_dmu d); indirect_block_shift d; levels d; blen (Dn.pointers d);
    DmuType.into_u8 (bonus_type d); ChecksumType.into_u8 (dn_checksum d); CompressionType.into_u8 (dn_compression d);
    Z.land f (255 - DNODE_FLAG_SPILL_BLKPTR)] ++ [x0; x1; 0; 0; extra_slots d] ++ mid ++ zs); [reflexivity|].
  rewrite Hf. unfold Dn.layout. rewrite Hx, Hb0, int_zero2, Ht. unfold mid. cbn [app]. now rewrite <- !app_assoc.
Qed.

Section read_object_spec.
Context {B : Build} {R : Type} `{BlockRead R} (topo : Topology) (o : EndianOrder)
  (ms : list (PoolMember R)) (array : Dnode) (trees : list tree).
Abbreviation dbsz := (512 * data_block_size_sectors array).
Hypothesis Hst : object_stored topo o ms array trees.
Hypothesis Hbs : blocks_sized array trees dbsz.
Hypothesis Hsz : 0 < data_block_size_sectors array.

(** The bytes of the slots of object [n]. *)
Definition slots_at (n count : Z) : bytes := span array trees dbsz (512 * n) (512 * count).

Lemma read_slots n count :
  0 <= n -> 0 <= count -> 512 * (n + count) <= 2 ^ 64 ->
  read_dnode_range topo array (512 * n) (512 * count) o ms = (Ok (slots_at n count), ms).
Proof using Hst Hbs Hsz.
  intros Hn Hc Hm. unfold slots_at. apply range_span; done || lia.
Qed.

Lemma decode_layout d n rest :
  Dn.option_layable o (Some d) -> bytes_ok rest -> decode_dnode (Dn.layout o d ++ rest) n o = Ok d.
Proof using.
  intros Hl Hr. pose proof (Dn.reads_option_dnode o (Some d) Hl) as Hrd. cbn [Dn.option_layout] in Hrd.
  destruct (Dn.option_layout_ok o (Some d) Hl) as [Hb _]. cbn [Dn.option_layout] in Hb.
  unfold decode_dnode, Dn.decode. assert (Hbr : bytes_ok (Dn.layout o d ++ rest)) by (apply Forall_app; auto).
  now rewrite (reads_run _ _ _ _ Hbr Hrd).
Qed.

Lemma read_object_start n :
  0 <= n -> 512 * (n + 1) <= 2 ^ 64 ->
  read_object topo array n o ms =
  (let byte_off := 512 * n in
   let first := slots_at n 1 in
   extra_slots ← sm_lift (at_index first DN_EXTRA_SLOTS);
   if extra_slots =? 0 then
     dnode ← sm_lift (decode_dnode first n o);
     bonus ← sm_lift (Dn.bonus_used dnode);
     mret {| od_dnode := dnode; od_bonus := bonus |}
   else
     let slots := extra_slots + 1 in
     let block_slots := Z.shiftl (data_block_size_sectors array) 9 / DNODE_SIZE in
     sm_guard ((DNODE_MAX_SLOTS <? slots) || (block_slots =? 0) || (block_slots <? n mod block_slots + slots))
       (Inconsistent "dnode_slots" (LDnode n));;
     full ← read_dnode_range topo array byte_off (slots * DNODE_SIZE) o;
     sm_lift (large_dnode full n (slots * DNODE_SIZE) o)) ms.
Proof using Hst Hbs Hsz.
  intros Hn Hm. unfold read_object. change (checked_mul 64 n DNODE_SIZE) with (checked_mul 64 n 512).
  rewrite checked_mul_ok by lia. cbn [ok_or].
  unfold mbind at 1, SM_bind at 1, sm_lift at 1. rewrite (Z.mul_comm n 512). unfold mbind at 1, SM_bind at 1.
  change (read_dnode_range topo array (512 * n) DNODE_SIZE o ms) with (read_dnode_range topo array (512 * n) (512 * 1) o ms).
  now rewrite (read_slots n 1) by lia.
Qed.

Lemma read_object_small n d :
  0 <= n -> 512 * (n + 1) <= 2 ^ 64 -> slots_at n 1 = Dn.layout o d ->
  Dn.option_layable o (Some d) -> extra_slots d = 0 ->
  read_object topo array n o ms =
  (Ok {| od_dnode := d; od_bonus := ztake (bonus_len d) (Dn.bonus_capacity d) |}, ms).
Proof using Hst Hbs Hsz.
  intros Hn Hm Hs Hl He. rewrite read_object_start by done. cbv zeta. rewrite Hs.
  destruct (layout_extra_slots o d) as (pre & rest & Hlay & Hpre). unfold at_index.
  rewrite Hlay at 1. rewrite zget_at by done. smunfold. rewrite He. cbn [Z.eqb].
  rewrite <- (app_nil_r (Dn.layout o d)), decode_layout by (done || constructor).
  rewrite Dn.bonus_used_ok by apply Hl. done.
Qed.

Lemma large_dnode_layout n d spill bonus rest size :
  bare d -> Dn.option_layable o (Some d) -> fits 16 (blen bonus) ->
  blen (large_layout o d spill bonus rest) = size ->
  64 + blen (Dn.pointers d) * 128 + blen bonus <= size - (if spill then 128 else 0) ->
  large_dnode (large_layout o d spill bonus rest) n size o = Ok {| od_dnode := d; od_bonus := bonus |}.
Proof using.
  intros Hb Hl Hfit Hsize Hroom. pose proof Hl as (Hw & Htl & _).
  pose proof (slot0_layout o d spill bonus rest Hb Hw Htl) as Hslot.
  destruct (ptrs_blen o d Hb Hw Htl) as [Hp Hn]. destruct Hb as (_ & _ & Hs).
  destruct (spill_flag_cleared d spill Hs) as [_ Hsp].
  assert (Hbon : get_range (large_layout o d spill bonus rest) (64 + blen (Dn.pointers d) * 128)
                   (64 + blen (Dn.pointers d) * 128 + blen bonus) = Some bonus).
  { unfold large_layout. rewrite !app_assoc, <- (app_assoc _ bonus rest).
    set (pre := _ ++ concat _). replace (64 + blen (Dn.pointers d) * 128) with (blen pre); [apply get_range_middle|].
    unfold pre. rewrite !blen_app, !blen_int_to, !blen_zrep, Hp, !blen_cons, !blen_nil by done.
    unfold Dn.PADDING_SIZE_A, Dn.PADDING_SIZE_B. lia. }
  unfold large_dnode, FileRead.BLKPTR_SIZE, DNODE_HEADER_SIZE, DNODE_SIZE. revert Hslot Hbon.
  destruct (int2_bytes o (data_block_size_sectors d)) as (x0 & x1 & Hx).
  destruct (int2_bytes o (blen bonus)) as (y0 & y1 & Hy).
  assert (Hat : at_index (large_layout o d spill bonus rest) DN_NBLKPTR = Ok (blen (Dn.pointers d)) /\
    at_index (large_layout o d spill bonus rest) DN_FLAGS = Ok (Z.lor (Dn.flags_of d) (if spill then DNODE_FLAG_SPILL_BLKPTR else 0)) /\
    at_index (large_layout o d spill bonus rest) DN_BONUSLEN = Ok y0 /\
    at_index (large_layout o d spill bonus rest) (DN_BONUSLEN + 1) = Ok y1).
  { unfold at_index. rewrite !zget_nat by done. unfold large_layout. rewrite Hx, Hy. splits; reflexivity. }
  destruct Hat as (-> & -> & -> & ->). intros Hslot Hbon. cbn [mbind outcome_bind]. rewrite Hsp, <- Hy, int_from_to by done.
  unfold guard_err. rewrite (proj2 (Z.ltb_ge 512 _)) by lia.
  rewrite (proj2 (Z.ltb_ge (size - _) _)) by lia. cbn [orb]. rewrite Hslot.
  rewrite <- (app_nil_r (Dn.layout o d)), decode_layout by (done || constructor). cbn [mbind outcome_bind].
  rewrite Hbon. done.
Qed.

(** The bytes of an object's slots, with the dnode and bonus they stand for. *)
Inductive object_image : bytes -> Dnode -> bytes -> Prop :=
| image_small d :
    Dn.option_layable o (Some d) -> extra_slots d = 0 ->
    object_image (Dn.layout o d) d (ztake (bonus_len d) (Dn.bonus_capacity d))
| image_large d spill bonus rest :
    bare d -> Dn.option_layable o (Some d) -> 0 < extra_slots d < DNODE_MAX_SLOTS -> fits 16 (blen bonus) ->
    blen (large_layout o d spill bonus rest) = 512 * (extra_slots d + 1) ->
    64 + 128 * blen (Dn.pointers d) + blen bonus + (if spill then 128 else 0) <= 512 * (extra_slots d + 1) ->
    object_image (large_layout o d spill bonus rest) d bonus.

Lemma first_slot n count : 1 <= count -> slots_at n 1 = ztake 512 (slots_at n count).
Proof using.
  intros Hc. unfold slots_at. replace (512 * count) with (512 * 1 + 512 * (count - 1)) by lia.
  rewrite span_app by lia. rewrite ztake_app_exact; [done|]. rewrite blen_span; lia.
Qed.

Lemma read_object_large n d spill bonus rest :
  0 <= n -> 512 * (n + (extra_slots d + 1)) <= 2 ^ 64 ->
  n mod data_block_size_sectors array + (extra_slots d + 1) <= data_block_size_sectors array ->
  slots_at n (extra_slots d + 1) = large_layout o d spill bonus rest ->
  bare d -> Dn.option_layable o (Some d) -> 0 < extra_slots d < DNODE_MAX_SLOTS -> fits 16 (blen bonus) ->
  64 + 128 * blen (Dn.pointers d) + blen bonus + (if spill then 128 else 0) <= 512 * (extra_slots d + 1) ->
  read_object topo array n o ms = (Ok {| od_dnode := d; od_bonus := bonus |}, ms).
Proof using Hst Hbs Hsz.
  intros Hn Hm Hfit Hs Hb Hl He Hbl Hroom. unfold DNODE_MAX_SLOTS in He. rewrite read_object_start by lia. cbv zeta.
  assert (Hx : at_index (slots_at n 1) DN_EXTRA_SLOTS = Ok (extra_slots d)).
  { rewrite (first_slot n (extra_slots d + 1)), Hs by lia. unfold at_index. rewrite zget_nat by done.
    rewrite ztake_take, lookup_take_lt by (unfold DN_EXTRA_SLOTS; lia). unfold large_layout.
    destruct (int2_bytes o (data_block_size_sectors d)) as (x0 & x1 & ->).
    destruct (int2_bytes o (blen bonus)) as (y0 & y1 & ->). reflexivity. }
  rewrite Hx. smunfold. rewrite (proj2 (Z.eqb_neq _ _)) by lia. unfold DNODE_SIZE, DNODE_MAX_SLOTS.
  rewrite Z.shiftl_mul_pow2 by lia. change (2 ^ 9) with 512. rewrite Z.div_mul by lia.
  rewrite (proj2 (Z.ltb_ge 32 _)), (proj2 (Z.eqb_neq (data_block_size_sectors array) 0)),
    (proj2 (Z.ltb_ge (data_block_size_sectors array) _)) by lia. cbn [orb guard_err sm_lift].
  unfold sm_lift. rewrite (Z.mul_comm (extra_slots d + 1) 512), read_slots by lia. rewrite Hs.
  rewrite large_dnode_layout; try done; [|lia]. rewrite <- Hs. unfold slots_at. rewrite blen_span; lia.
Qed.
End read_object_spec.

(** ** What the walk promises *)

Lemma object_exact {B : Build} {R} `{BlockRead R} topo o (ms : list (PoolMember R)) array trees n img d bonus :
  object_stored topo o ms array trees ->
  blocks_sized array trees (512 * data_block_size_sectors array) -> 0 < data_block_size_sectors array ->
  object_image o img d bonus -> slots_at array trees n (extra_slots d + 1) = img ->
  0 <= n -> 512 * (n + (extra_slots d + 1)) <= 2 ^ 64 ->
  n mod data_block_size_sectors array + (extra_slots d + 1) <= data_block_size_sectors array ->
  read_object topo array n o ms = (Ok {| od_dnode := d; od_bonus := bonus |}, ms).
Proof.
  intros Hst Hbs Hsz [d' Hl He|d' spill bonus' rest Hb Hl He Hf Hsize Hroom] Hs Hn Hm Hfit.
  - rewrite He in *. eapply read_object_small; eauto; lia.
  - eapply read_object_large; eauto.
Qed.

(** C21: Reading an object of a stored dnode array returns the dnode and the bonus that
    its slots stand for, ordinary dnodes and large dnodes with or without a
    spill pointer alike; a large dnode must not cross its block. *)
Theorem read_object_exact {B : Build} {R} `{BlockRead R} topo o (ms : list (PoolMember R)) array trees n img d bonus :
  object_stored topo o ms array trees ->
  blocks_sized array trees (512 * data_block_size_sectors array) -> 0 < data_block_size_sectors array ->
  object_image o img d bonus -> slots_at array trees n (extra_slots d + 1) = img ->
  0 <= n -> 512 * (n + (extra_slots d + 1)) <= 2 ^ 64 ->
  n mod data_block_size_sectors array + (extra_slots d + 1) <= data_block_size_sectors array ->
  read_object topo array n o ms = (Ok {| od_dnode := d; od_bonus := bonus |}, ms).
Proof. apply object_exact. Qed.

(** *** Examples: a micro ZAP, a fat ZAP and a large dnode on one disk *)
Definition sample_pointer (data : bytes) (sector : Z) : BlockPointerRegular := {|
  checksum_type := ChecksumType.Fletcher4;
  checksum_value := match Fletcher4.one_pass Little data with [a; b; c; d] => (a, b, c, d) | _ => (0, 0, 0, 0) end;
  compression := CompressionType.Off; dedup := false; dmu := DmuType.PlainFileContents;
  dva0 := Some {| allocated := 1; offset_ := sector; is_gang := false; vdev := 0 |}; dva1 := None; dva2 := None;
  order := Little; fill_count := 1; level := 0; logical_birth_txg := 7; logical_sectors := blen data / 512;
  physical_birth_txg := 7; physical_sectors := blen data / 512 |}.
Definition sample_object (sectors : Z) (tail : DnodeTail) : Dnode := {|
  bonus_len := 0; bonus_type := DmuType.SystemAttribute; dn_checksum := ChecksumType.Fletcher4;
  dn_compression := CompressionType.Off; data_block_size_sectors := sectors; extra_slots := 0;
  dn_dmu := DmuType.DirectoryContents; indirect_block_shift := 17; levels := 1; max_block_id := 1; tail := tail;
  used := UsedBytes 1024; user_obj_used_accounted := true; user_used_accounted := true |}.


Definition micro_sample : list (option ZapMicroEntryRef) :=
  [Some {| cd := 0; name := ascii_bytes "etc"; value := 4 * 2 ^ 60 + 7 |}; None;
   Some {| cd := 1; name := ascii_bytes "boot"; value := 9 |}; None; None; None; None].
Definition micro_data : bytes := Eval vm_compute in
  micro_block Little {| mi_salt := 5; mi_case_normalization := ZapCaseNormalization.None;
                        mi_unicode_normalization := ZapUnicodeNormalization.None |} micro_sample.

Definition fat_sample : list ZapLeafChunk :=
  [Entry {| hash := 99; entry_cd := 0; name_chunk := 1; name_length := 26; value_chunk := 3; value_length := 1;
            value_int_size := 8; entry_next := None |};
   Array {| chunk_data := ascii_bytes "org.illumos:checksum_"; data_next := Some 2 |};
   Array {| chunk_data := ascii_bytes "salt" ++ zrep 17 0; data_next := None |};
   Array {| chunk_data := int_to Big 8 34 ++ zrep 13 0; data_next := None |}] ++
  replicate 14 (Free {| free_next := None |}).
Definition fat_header_data : bytes := Eval vm_compute in int_to Little 8 ZAP_FAT_HEADER ++ zrep 504 0.
Definition fat_leaf_header : ZapLeafHeader := {|
  hash_prefix := 0; hash_prefix_len := 0; number_of_free_chunks := 14; number_of_entries := 1;
  next_free_chunk := None; cd_sorted := false |}.
Definition fat_leaf_data : bytes := Eval vm_compute in leaf_image Little fat_leaf_header (zrep 32 255) fat_sample [].

Definition large_sample : Dnode := {|
  bonus_len := 0; bonus_type := DmuType.SystemAttribute; dn_checksum := ChecksumType.Fletcher4;
  dn_compression := CompressionType.Off; data_block_size_sectors := 1; extra_slots := 1;
  dn_dmu := DmuType.PlainFileContents; indirect_block_shift := 17; levels := 1; max_block_id := 0;
  tail := TailOne None (zrep Dn.ONE_BONUS_SIZE 0);
  used := UsedBytes 512; user_obj_used_accounted := true; user_used_accounted := true |}.
Definition large_data : bytes := Eval vm_compute in large_layout Little large_sample true (zrep 600 9) (zrep 232 1).

Definition walk_disks : list (PoolMember extent) :=
  [disk (LABEL_RESERVE + 4096) (micro_data ++ fat_header_data ++ fat_leaf_data ++ large_data)].
Definition micro_bp : BlockPointerRegular := Eval vm_compute in sample_pointer micro_data 8.
Definition fat_header_bp : BlockPointerRegular := Eval vm_compute in sample_pointer fat_header_data 9.
Definition fat_leaf_bp : BlockPointerRegular := Eval vm_compute in sample_pointer fat_leaf_data 10.
Definition large_bp : BlockPointerRegular := Eval vm_compute in sample_pointer large_data 11.
Definition micro_object : Dnode :=
  sample_object 1 (TailOne (Some (Regular micro_bp)) (zrep Dn.ONE_BONUS_SIZE 0)).
Definition fat_object : Dnode :=
  sample_object 1 (TailTwo (Some (Regular fat_header_bp))
                           (Some (Regular fat_leaf_bp)) (zrep Dn.TWO_BONUS_SIZE 0)).
Definition large_array : Dnode :=
  sample_object 2 (TailOne (Some (Regular large_bp)) (zrep Dn.ONE_BONUS_SIZE 0)).

(** An object of direct blocks only. *)
Lemma direct_stored {B : Build} {R} `{BlockRead R} topo o (ms : list (PoolMember R)) d bps bs :
  levels d = 1 -> indirect_block_shift d = 17 -> Dn.pointers d = Some <$> bps ->
  Forall2 (fun bp b => read_block_pointer topo bp ms = (Ok b, ms)) bps bs ->
  object_stored topo o ms d (Leaf <$> bs) /\ FileRead.blocks d (Leaf <$> bs) = Some <$> bs.
Proof.
  intros Hl Hi Hp Hbs. assert (Hd : depth d = 0%nat) by (unfold depth; rewrite Hl; reflexivity). split.
  - unfold object_stored, DN_MAX_LEVELS, entry_shift, saturating_sub. rewrite Hl, Hi, Hd, Hp.
    splits; try lia. clear -Hbs. induction Hbs; [constructor|]. rewrite !fmap_cons. constructor; [now split|done].
  - unfold FileRead.blocks. rewrite Hd. clear. induction bs as [|b bs IH]; [done|]. rewrite !fmap_cons. cbn. now rewrite <- IH.
Qed.

Lemma large_sample_image :
  object_image Little (large_layout Little large_sample true (zrep 600 9) (zrep 232 1)) large_sample (zrep 600 9).
Proof.
  apply image_large.
  - unfold bare. split; [reflexivity|]. split; [vm_compute; reflexivity|exact I].
  - split; [|split; [split; [constructor; [exact I|constructor]|exact I]|vm_compute; reflexivity]].
    unfold Dn.dnode_wf. split; [|vm_compute; splits; congruence]. unfold Dn.tail_wf.
    split; [constructor; [exact I|constructor]|]. split; [apply Forall_replicate; unfold is_byte; lia|reflexivity].
  - vm_compute. split; congruence.
  - vm_compute. split; congruence.
  - vm_compute. reflexivity.
  - vm_compute. congruence.
Qed.

Lemma read_object_exact_witness :
  read_object (B := plain_build) disk_topo large_array 0 Little walk_disks =
  (Ok {| od_dnode := large_sample; od_bonus := zrep 600 9 |}, walk_disks).
Proof.
  destruct (direct_stored (B := plain_build) disk_topo Little walk_disks large_array
    [Regular large_bp] [large_data]) as [Hst Hbl];
    [reflexivity|reflexivity|reflexivity|constructor; [vm_compute; reflexivity|constructor]|].
  apply (read_object_exact (B := plain_build) disk_topo Little walk_disks large_array (Leaf <$> [large_data]) 0
    large_data large_sample (zrep 600 9) Hst).
  - unfold blocks_sized. rewrite Hbl. constructor; [now intros ? [= <-]|constructor].
  - vm_compute. reflexivity.
  - replace large_data with (large_layout Little large_sample true (zrep 600 9) (zrep 232 1)) by (vm_compute; reflexivity).
    exact large_sample_image.
  - vm_compute. reflexivity.
  - lia.
  - vm_compute. congruence.
  - vm_compute. congruence.
Defined.

(** C22: Listing a stored micro ZAP returns the names and values of its entries in use,
    in order. *)
Theorem zap_micro_lists {B : Build} {R} `{BlockRead R} topo o (ms : list (PoolMember R)) zap_dnode trees h es rest :
  object_stored topo o ms zap_dnode trees -> 0 < data_block_size_sectors zap_dnode ->
  FileRead.blocks zap_dnode trees = Some (micro_block o h es) :: rest ->
  MicroHeader.wf h -> Forall entry_layable es ->
  zap_entries topo zap_dnode o ms = (Ok (micro_pairs es), ms).
Proof. intros. eapply micro_lists; eauto. Qed.

Lemma micro_sample_layable : Forall entry_layable micro_sample.
Proof.
  repeat first [apply Forall_cons; split | apply Forall_nil]; try exact I;
    (split; [unfold MicroEntry.wf; splits|done]); try (vm_compute; congruence); try (vm_compute; split; congruence);
    repeat first [apply Forall_cons; split | apply Forall_nil]; vm_compute; try split; congruence.
Qed.

Lemma zap_micro_lists_witness :
  zap_entries (B := plain_build) disk_topo micro_object Little walk_disks =
  (Ok [(ascii_bytes "etc", 4 * 2 ^ 60 + 7); (ascii_bytes "boot", 9)], walk_disks).
Proof.
  destruct (direct_stored (B := plain_build) disk_topo Little walk_disks micro_object
    [Regular micro_bp] [micro_data]) as [Hst Hbl];
    [reflexivity|reflexivity|reflexivity|constructor; [vm_compute; reflexivity|constructor]|].
  apply (zap_micro_lists (B := plain_build) disk_topo Little walk_disks micro_object (Leaf <$> [micro_data])
    {| mi_salt := 5; mi_case_normalization := ZapCaseNormalization.None;
       mi_unicode_normalization := ZapUnicodeNormalization.None |} micro_sample [] Hst).
  - vm_compute. reflexivity.
  - rewrite Hbl. reflexivity.
  - vm_compute. split; congruence.
  - exact micro_sample_layable.
Defined.

(** C23: Listing a stored fat ZAP returns the entries of all its leaves, block by block
    and chunk by chunk, each with the name and value that its chains of chunks
    spell; other blocks are passed over, and the first hole ends the list. *)
Theorem zap_fat_lists {B : Build} {R} `{BlockRead R} topo o (ms : list (PoolMember R)) zap_dnode trees pss :
  object_stored topo o ms zap_dnode trees -> 0 < data_block_size_sectors zap_dnode ->
  fat_zap o zap_dnode trees pss ->
  zap_entries topo zap_dnode o ms = (Ok ((fun '(n, v) => (n, value_as_u64 v)) <$> concat pss), ms).
Proof. intros Hst Hsz Hf. now apply (fat_lists topo o ms zap_dnode trees). Qed.

Lemma fat_sample_pairs :
  leaf_pairs fat_sample fat_sample [(ascii_bytes "org.illumos:checksum_salt", int_to Big 8 34)].
Proof.
  apply (pairs_entry fat_sample _ (ascii_bytes "org.illumos:checksum_salt" ++ [0]) (int_to Big 8 34 ++ []));
    [|  |vm_compute; congruence|vm_compute; congruence|].
  - apply (spells_chunk _ 1 {| chunk_data := ascii_bytes "org.illumos:checksum_"; data_next := Some 2 |} 26
      (ascii_bytes "salt" ++ [0])); [lia|lia|reflexivity|].
    rewrite <- (app_nil_r (ascii_bytes "salt" ++ [0])).
    apply (spells_chunk _ 2 {| chunk_data := ascii_bytes "salt" ++ zrep 17 0; data_next := None |} 5 []);
      [lia|lia|reflexivity|]. apply spells_done. vm_compute. congruence.
  - apply (spells_chunk _ 3 {| chunk_data := int_to Big 8 34 ++ zrep 13 0; data_next := None |} 8 []);
      [lia|lia|reflexivity|]. apply spells_done. vm_compute. congruence.
  - repeat (apply pairs_skip; [discriminate|]). apply pairs_nil.
Qed.

Lemma zap_fat_lists_witness :
  zap_entries (B := plain_build) disk_topo fat_object Little walk_disks =
  (Ok [(ascii_bytes "org.illumos:checksum_salt", 34)], walk_disks).
Proof.
  destruct (direct_stored (B := plain_build) disk_topo Little walk_disks fat_object
    [Regular fat_header_bp; Regular fat_leaf_bp]
    [fat_header_data; fat_leaf_data]) as [Hst Hbl];
    [reflexivity|reflexivity|reflexivity|constructor; [vm_compute; reflexivity|constructor; [vm_compute; reflexivity|constructor]]|].
  apply (zap_fat_lists (B := plain_build) disk_topo Little walk_disks fat_object (Leaf <$> [fat_header_data; fat_leaf_data])
    [[(ascii_bytes "org.illumos:checksum_salt", int_to Big 8 34)]] Hst).
  - vm_compute. reflexivity.
  - exists (zrep 504 0), [fat_leaf_data], 0%nat. rewrite Hbl. split; [reflexivity|]. split; [|vm_compute; reflexivity].
    constructor; [|constructor].
    apply (fat_leaf Little _ _ fat_leaf_header (zrep 32 255) fat_sample []).
    + repeat first [apply Forall_cons; split | apply Forall_nil]; repeat split; vm_compute; try congruence;
        repeat first [apply Forall_cons; split | apply Forall_nil]; try split; congruence.
    + vm_compute. reflexivity.
    + vm_compute. reflexivity.
    + exact fat_sample_pairs.
Defined.
