(* ===== verification/WalkSafe.v ===== *)
(** * No panic in the walk (src/walk.rs)

    Whatever the devices hold, reading an object never panics on a single disk
    or a mirror, and listing a ZAP object panics only on a first block shorter
    than eight bytes, which the code slices without a check. *)

From S2P Require Import Prelude Errors Decoder Encoder Codec Types Dva BlockPointer Fletcher Sha256 Cksum Compress.
From S2P Require Import Vdev Heal Dnode FileRead ObjectSet Zap Walk.

Open Scope string_scope.
Open Scope Z_scope.
Open Scope list_scope.

(** Listed values are 64-bit integers. *)
Definition entries_ok (l : list (bytes * Z)) : Prop := Forall (fun e => fits 64 (snd e)) l.

Section micro_total.
Context (o : EndianOrder).
Abbreviation DL := (endian_decoder o).

Lemma entry_body_consumes : consumes 64 (MicroEntry.body_from_decoder DL).
Proof.
  change 64 with (8 + (4 + (2 + (50 + 0)))). unfold MicroEntry.body_from_decoder.
  apply consumes_bind; [apply consumes_map_err, consumes_int; lia|]. intros v.
  apply consumes_bind; [apply consumes_map_err, consumes_int; lia|]. intros c.
  apply consumes_bind; [apply consumes_map_err, consumes_skip_zeros; done|]. intros _.
  apply consumes_bind; [apply consumes_map_err, consumes_get_bytes; done|]. intros nm.
  destruct (MicroEntry.scan_null nm 0); [|apply consumes_err].
  change 0 with (0 + (0 + 0)). apply consumes_bind; [apply consumes_pure|]. intros d.
  apply consumes_bind; [apply consumes_pure|]. intros u. apply (consumes_pure (Ok _)).
Qed.

Lemma entry_consumes : consumes 64 (MicroEntry.from_decoder DL).
Proof.
  intros b r b' Hb Hr. unfold MicroEntry.from_decoder in Hr. apply SM_bind_ok in Hr as (e & b1 & H1 & H2).
  unfold sm_map_err in H1. destruct (d_is_skip_zeros _ b) as [[v|er|] s] eqn:E0; cbn in H1; try done.
  injection H1 as -> ->. apply is_skip_zeros_consumes in E0; [|done|done]. destruct e.
  - now injection H2 as <- <-.
  - subst. now apply (entry_body_consumes b r b').
Qed.

Abbreviation I w := (DecoderBuffer.inv w).

(** The iterator has enough fuel when it exceeds the bytes left over 64, and it
    leaves fewer bytes when it returns an entry. *)
Lemma next_total w fuel : forall b,
  DecoderBuffer.inv w b -> DecoderBuffer.len b <= 64 * Z.of_nat fuel ->
  let r := MicroEntry.next DL fuel b in
  DecoderBuffer.inv w (snd r) /\
  match fst r with
  | Ok (Some e) => DecoderBuffer.len (snd r) <= DecoderBuffer.len b - 64 /\ MicroEntry.wf e
  | Panic => False
  | _ => True
  end.
Proof.
  induction fuel as [|fuel IH]; intros b Hb Hl; cbn [MicroEntry.next]; unfold mbind, SM_bind, sm_get;
    pose proof (DecoderBuffer.len_remaining b (proj1 Hb)) as Hlr; unfold DecoderBuffer.is_empty;
    destruct (Z.eqb_spec (DecoderBuffer.len b) 0) as [E0|E0]; cbn; try done.
  - pose proof (blen_nonneg (DecoderBuffer.remaining b)). lia.
  - pose proof (MicroEntry.hoare_entry DL (L := endian_decoder_laws o) w b Hb) as [Hi Hs].
    destruct (MicroEntry.from_decoder DL b) as [[[e|]|er|] b1] eqn:E1; cbn in *; try done.
    + split; [done|]. destruct (entry_consumes b _ b1 (proj1 Hb) E1) as [_ ->]. split; [lia|done].
    + destruct (entry_consumes b _ b1 (proj1 Hb) E1) as [_ Hl1].
      destruct (IH b1 Hi ltac:(lia)) as [Hi2 Hr]. split; [done|]. destruct (fst _) as [[e|]|?|]; try done. destruct Hr. split; [lia|done].
Qed.

Lemma micro_loop_total w fuel : forall b out,
  DecoderBuffer.inv w b -> DecoderBuffer.len b <= 64 * Z.of_nat fuel -> entries_ok out ->
  safe entries_ok (fst (micro_loop DL fuel out b)).
Proof.
  induction fuel as [|fuel IH]; intros b out Hb Hl Ho.
  - cbn [micro_loop]. unfold mbind, SM_bind, sm_map_err. pose proof (next_total w 0 b Hb Hl) as [Hi Hr].
    destruct (MicroEntry.next DL 0 b) as [[[e|]|er|] b1]; cbn in *; try done.
    pose proof (DecoderBuffer.len_remaining b1 (proj1 Hi)). pose proof (blen_nonneg (DecoderBuffer.remaining b1)). lia.
  - cbn [micro_loop]. unfold mbind, SM_bind, sm_map_err. pose proof (next_total w (S fuel) b Hb Hl) as [Hi Hr].
    destruct (MicroEntry.next DL (S fuel) b) as [[[e|]|er|] b1]; cbn -[Z.of_nat] in *; try done.
    destruct Hr as [Hr (_ & Hv & _)]. apply IH; [done|lia|]. apply Forall_app. split; [done|]. now apply Forall_singleton.
Qed.

Lemma micro_entries_safe block : bytes_ok block -> safe entries_ok (micro_entries block o).
Proof.
  intros Hb. unfold micro_entries, with_decoder. unfold mbind, SM_bind, sm_map_err.
  assert (Hi : DecoderBuffer.inv (block, 0, blen block) (DecoderBuffer.from_bytes block)).
  { split; [now apply DecoderBuffer.wf_from_bytes | done]. }
  assert (Hh : hoare (DecoderBuffer.inv (block, 0, blen block)) (MicroIterator.from_decoder DL) (fun _ => True)).
  { unfold MicroIterator.from_decoder. pose proof (endian_decoder_laws o).
    eapply hoare_bind; [apply hoare_map_err, MicroHeader.hoare_micro_header; eauto|]. intros h _.
    eapply (hoare_bind _ _ _ (fun _ => True)); [now apply hoare_gets|]. intros n _.
    eapply hoare_bind; [apply hoare_guard|]. intros _ _. now apply hoare_ret. }
  specialize (Hh _ Hi) as [Hi1 Hs1].
  destruct (MicroIterator.from_decoder DL (DecoderBuffer.from_bytes block)) as [[h|er|] b1]; cbn [fst snd] in *; try done.
  apply (micro_loop_total (block, 0, blen block)); [done| |constructor].
  rewrite DecoderBuffer.len_remaining by apply Hi1. rewrite DecoderBuffer.blen_remaining by apply Hi1.
  destruct Hi1 as [(Hlo & Hhi & _) Hw]. unfold DecoderBuffer.window in Hw. injection Hw as Hd Hmn Hmx.
  rewrite Hmx. unfold blen. lia.
Qed.
End micro_total.

(** ** Leaves *)
Definition raw_ok (l : list (bytes * bytes)) : Prop := Forall (fun e => bytes_ok (snd e)) l.

Lemma value_as_u64_fits v : bytes_ok v -> fits 64 (value_as_u64 v).
Proof.
  intros Hv. unfold value_as_u64. pose proof (blen_nonneg v). set (n := Z.min (blen v) 8).
  apply (int_from_fits Big _ 8).
  - apply Forall_app. split; [apply bytes_ok_zrep|now apply bytes_ok_zdrop].
  - rewrite blen_app, blen_zrep, blen_zdrop by lia. lia.
Qed.

Section leaf_total.
Context (o : EndianOrder) (block : bytes) (base nchunks : Z).
Hypothesis block_ok : bytes_ok block.
Hypothesis nchunks_nonneg : 0 <= nchunks.

Lemma chunk_at_ok i c : chunk_at block base i = Some c -> bytes_ok c /\ blen c = 24.
Proof using block_ok.
  intros Hc. split; [eapply bytes_ok_get_range; eauto|]. apply blen_get_range in Hc. unfold ZAP_LEAF_CHUNK_SIZE in Hc. lia.
Qed.

Lemma chunks_loop_safe fuel : forall length next guard out,
  0 <= guard <= nchunks + 1 -> nchunks + 2 - guard <= Z.of_nat fuel -> bytes_ok out ->
  safe bytes_ok (chunks_loop block base nchunks o fuel length next guard out).
Proof using block_ok nchunks_nonneg.
  induction fuel as [|fuel IH]; intros length next guard out Hg Hf Ho; [lia|]. cbn [chunks_loop].
  destruct (Z.ltb_spec (blen out) length) as [Hlt|]; [|done]. destruct next as [idx|]; [|done].
  eapply safe_bind; [apply safe_guard|]. intros u Hgd. apply orb_false_iff in Hgd as [_ Hgd%Z.ltb_ge].
  eapply (safe_bind (fun c => bytes_ok c)); [apply safe_ok_or; intros c Hc; eapply chunk_at_ok; eauto|]. intros c Hc.
  eapply safe_bind; [apply safe_map_err, with_decoder_safe; [|exact Hc]|].
  { intros w. apply LeafChunk.hoare_data, endian_decoder_laws. }
  intros d (Hl & Hd & _). unfold LeafChunk.ZAP_LEAF_DATA_SIZE in *.
  rewrite get_range_ok by lia. cbn [unwrap mbind outcome_bind]. apply IH; [lia|lia|].
  apply Forall_app. split; [done|]. now apply bytes_ok_ztake, bytes_ok_zdrop.
Qed.

Lemma collect_chunks_safe start length : safe bytes_ok (collect_chunks block base nchunks o start length).
Proof using block_ok nchunks_nonneg. apply chunks_loop_safe; [lia|lia|constructor]. Qed.

Lemma leaf_loop_safe fuel : forall ci out, raw_ok out -> safe raw_ok (leaf_loop block base nchunks o fuel ci out).
Proof using block_ok nchunks_nonneg.
  induction fuel as [|fuel IH]; intros ci out Ho; cbn [leaf_loop]; [done|].
  eapply (safe_bind (fun c => bytes_ok c /\ blen c = 24)); [apply safe_ok_or; intros c Hc; eapply chunk_at_ok; eauto|].
  intros c [Hc Hl]. unfold at_index. destruct (zget_in c 0) as [x ->]; [lia|]. cbn [unwrap mbind outcome_bind].
  destruct (negb _); [now apply IH|].
  eapply safe_bind; [apply safe_map_err, with_decoder_safe; [|exact Hc]|].
  { intros w. apply LeafChunk.hoare_entry_chunk, endian_decoder_laws. }
  intros e _. eapply safe_bind; [apply collect_chunks_safe|]. intros nm _.
  eapply safe_bind; [apply collect_chunks_safe|]. intros v Hv. apply IH, Forall_app. split; [done|]. now apply Forall_singleton.
Qed.
End leaf_total.

(** ** Objects *)

(** A dnode as the decoder returns it, with a bonus of bytes. *)
Definition object_ok (ob : ObjectDnode) : Prop := Dn.dnode_wf (od_dnode ob) /\ bytes_ok (od_bonus ob).

Section walk_total.
Context {B : Build} {BL : BuildLaws B} {R : Type} `{BlockRead R} (topo : Topology) (o : EndianOrder).
Context {T : list (PoolMember R) -> Prop} {HT : ReadClosed T}.
Hypothesis Hplain : plain_layout topo.

Lemma decode_dnode_safe buf n : bytes_ok buf -> safe Dn.dnode_wf (decode_dnode buf n o).
Proof using.
  intros Hb. unfold decode_dnode. eapply safe_bind; [apply safe_map_err, (Dn.decode_bytes_safe o buf Hb)|].
  intros d Hd. apply safe_ok_or. now intros ? ->.
Qed.

Lemma land_byte x y : is_byte x -> is_byte (Z.land x y).
Proof using.
  intros Hx. unfold is_byte in *. assert (E : Z.land x (2 ^ 8 - 1) = x).
  { rewrite land_ones_mod by lia. apply Z.mod_small. lia. }
  rewrite <- E, <- Z.land_assoc, (Z.land_comm _ y), Z.land_assoc, land_ones_mod by lia.
  apply Z.mod_pos_bound. lia.
Qed.

Lemma slot0_ok full start : bytes_ok full -> bytes_ok (slot0_of full start).
Proof using.
  intros Hf. unfold slot0_of. cbv zeta. set (l := ztake start full ++ _).
  assert (Hl : bytes_ok l) by (apply Forall_app; split; [now apply bytes_ok_ztake|apply bytes_ok_zrep]).
  do 2 (apply Forall_insert; [|unfold is_byte; lia]). apply Forall_insert; [done|].
  assert (Hx : is_byte (default 0 (l !! Z.to_nat DN_FLAGS))).
  { destruct (l !! Z.to_nat DN_FLAGS) eqn:E; cbn; [|unfold is_byte; lia]. rewrite Forall_lookup in Hl. eauto. }
  now apply land_byte.
Qed.

Lemma at_index_ok buf i : bytes_ok buf -> 0 <= i < blen buf -> safe is_byte (at_index buf i).
Proof using.
  intros Hb Hi. unfold at_index. destruct (zget_in buf i Hi) as [x Hx]. rewrite Hx. cbn.
  apply zget_elem in Hx. rewrite Forall_forall in Hb. auto.
Qed.

Lemma large_dnode_safe full n size :
  bytes_ok full -> blen full = size -> 512 <= size ->
  safe object_ok (large_dnode full n size o).
Proof using.
  intros Hf Hl Hs. unfold large_dnode, DN_NBLKPTR, DN_FLAGS, DN_BONUSLEN.
  eapply safe_bind; [apply at_index_ok; [done|lia]|]. intros nb Hnb.
  eapply safe_bind; [apply at_index_ok; [done|lia]|]. intros fl _.
  eapply safe_bind; [apply at_index_ok; [done|lia]|]. intros b0 Hb0.
  eapply safe_bind; [apply at_index_ok; [done|lia]|]. intros b1 Hb1.
  assert (Hbl : fits 16 (int_from o [b0; b1])).
  { apply (int_from_fits o [b0; b1] 2); [|done]. repeat constructor; apply Hb0 || apply Hb1. }
  eapply safe_bind; [apply safe_guard|]. intros u Hg. apply orb_false_iff in Hg as [Hg1%Z.ltb_ge Hg2%Z.ltb_ge].
  eapply safe_bind; [apply decode_dnode_safe, slot0_ok, Hf|]. intros d Hd.
  unfold DNODE_HEADER_SIZE, FileRead.BLKPTR_SIZE, is_byte, fits in *.
  rewrite get_range_ok by (destruct (negb _); lia). cbn [unwrap mbind outcome_bind].
  split; [done|]. now apply bytes_ok_ztake, bytes_ok_zdrop.
Qed.

Lemma hoare_read_object array n :
  Dn.dnode_wf array -> 0 <= n ->
  hoare T (read_object topo array n o) object_ok.
Proof using Hplain BL HT.
  intros Ha Hn. unfold read_object, DNODE_SIZE.
  eapply (hoare_bind _ _ _ (fun off => 0 <= off)).
  { apply hoare_lift, safe_ok_or. intros off. unfold checked_mul. destruct (_ <? _); [|done]. intros [= <-]. lia. }
  intros off Hoff. eapply hoare_bind; [apply hoare_read_dnode_range; [done..|lia]|]. intros first [Hl Hf].
  eapply hoare_bind; [apply hoare_lift, at_index_ok; [done|unfold DN_EXTRA_SLOTS; lia]|]. intros ex Hex.
  destruct (ex =? 0).
  - eapply hoare_bind; [apply hoare_lift, decode_dnode_safe, Hf|]. intros d Hd.
    eapply (hoare_bind _ _ _ bytes_ok).
    { apply hoare_lift. rewrite Dn.bonus_used_ok by done. cbn. apply bytes_ok_ztake.
      destruct Hd as [(_ & Hb & _) _]. exact Hb. }
    intros b Hb. now apply hoare_ret.
  - eapply hoare_bind; [apply hoare_guard|]. intros u _.
    unfold is_byte in Hex. eapply hoare_bind; [apply hoare_read_dnode_range; [done..|lia]|]. intros full [Hfl Hff].
    apply hoare_lift, large_dnode_safe; [done|done|lia].
Qed.

(** ** ZAP objects *)
Lemma hoare_leaf_blocks d base nch fuel : forall blkid out,
  Dn.dnode_wf d -> 0 <= nch -> 0 <= blkid -> blkid + Z.of_nat fuel < 2 ^ 55 -> raw_ok out ->
  hoare T (leaf_blocks topo d o base nch fuel blkid out) raw_ok.
Proof using Hplain BL HT.
  induction fuel as [|fuel IH]; intros blkid out Hd Hn Hb Hm Ho; cbn [leaf_blocks]; [now apply hoare_ret|].
  eapply hoare_bind; [apply hoare_read_dnode_block; [done..|lia]|]. intros [b|] Hbs; [|now apply hoare_ret].
  specialize (Hbs b eq_refl). eapply (hoare_bind _ _ _ raw_ok); [|intros out' Ho'; apply IH; done || lia].
  destruct (Z.leb_spec 8 (blen b)) as [Hl|]; [|now apply hoare_ret].
  eapply (hoare_bind _ _ _ (fun _ => True)).
  { apply hoare_lift. unfold block_type. now rewrite get_range_ok by lia. }
  intros ty _. destruct (_ =? _); [|now apply hoare_ret]. now apply hoare_lift, leaf_loop_safe.
Qed.

Lemma hoare_fat_raw d : Dn.dnode_wf d -> 0 < data_block_size_sectors d ->
  hoare T (fat_entries_raw topo d (Z.shiftl (data_block_size_sectors d) 9) o) raw_ok.
Proof using Hplain BL HT.
  intros Hd Hs. destruct (leaf_base_bound _ Hs) as [Ht Hb]. unfold fat_entries_raw.
  eapply (hoare_bind _ _ _ (fun k => k = trailing_zeros (Z.shiftl (data_block_size_sectors d) 9) - 5)).
  { apply hoare_lift. now rewrite checked_sub_ok by lia. }
  intros k ->. eapply hoare_bind; [apply hoare_guard|]. intros u Hg%Z.leb_gt.
  apply hoare_leaf_blocks; [done| |lia|change MAX_ZAP_LEAF_BLOCKS with 1048576; lia|constructor].
  apply Z.div_pos; [lia|]. unfold ZAP_LEAF_CHUNK_SIZE. lia.
Qed.

(** The first block of the object reads to less than the eight bytes of its type. *)
Definition short_first_block (d : Dnode) (ms : list (PoolMember R)) : Prop :=
  exists b ms', read_dnode_block topo d 0 o ms = (Ok (Some b), ms') /\ blen b < 8.

(** What listing does, whatever the first block reads to. *)
Lemma zap_entries_upto d (ms : list (PoolMember R)) :
  Dn.dnode_wf d -> T ms -> wp (zap_entries topo d o) (ends_upto (short_first_block d ms) T entries_ok) ms.
Proof using Hplain BL HT.
  intros Hd HI. unfold zap_entries. set (F := short_first_block d ms).
  eapply wp_upto_bind; [apply (upto_hoare F), HI; apply hoare_guard|]. intros u s Eu _ Hnz%Z.eqb_neq.
  unfold sm_guard, sm_lift in Eu. injection Eu as _ <-.
  assert (Hs : 0 < data_block_size_sectors d).
  { destruct Hd as (_ & _ & _ & [Hs0 _] & _). rewrite Z.shiftl_mul_pow2 in Hnz by lia. lia. }
  eapply wp_upto_bind; [apply (upto_hoare F), HI; apply hoare_read_dnode_block; done || lia|]. intros [b|] ms' Er HI' Hr.
  2: { now split. }
  specialize (Hr b eq_refl). destruct (Z_lt_le_dec (blen b) 8) as [Hlt|Hge].
  { unfold wp, mbind, SM_bind, sm_lift, block_type. cbn [ok_or]. rewrite get_range_past by lia. split; [done|]. now exists b, ms'. }
  apply (upto_hoare F); [|done]. eapply (hoare_bind _ _ _ (eq b)); [now apply hoare_lift|]. intros b' <-.
  eapply (hoare_bind _ _ _ (fun _ => True)); [apply hoare_lift; unfold block_type; now rewrite get_range_ok by lia|]. intros bt _.
  destruct (bt =? _); [now apply hoare_lift, micro_entries_safe|]. destruct (bt =? _); [|apply hoare_err].
  eapply hoare_bind; [now apply hoare_fat_raw|]. intros raw Hraw. apply hoare_ret. apply Forall_fmap.
  eapply Forall_impl; [exact Hraw|]. intros [nm v] Hv. now apply value_as_u64_fits.
Qed.
End walk_total.

(** ** What holds of any input *)

(** Reading any object through any decoded dnode array, on a single disk or a
    mirror with any contents, ends without a panic, in an error or in a dnode
    with fields in range and its bonus. *)
Theorem read_object_total {B : Build} {BL : BuildLaws B} {R} `{BlockRead R} topo o array n (ms : list (PoolMember R)) :
  plain_layout topo -> Dn.dnode_wf array -> 0 <= n ->
  safe object_ok (fst (read_object topo array n o ms)).
Proof. intros Hp Ha Hn. exact (proj2 (hoare_read_object topo o Hp array n Ha Hn ms I)). Qed.

Lemma read_object_total_witness :
  safe object_ok (fst (read_object (B := plain_build) disk_topo Dn.sample_dnode 77 Big walk_disks)).
Proof.
  apply (read_object_total (B := plain_build) disk_topo Big Dn.sample_dnode 77 walk_disks);
    [exact I|exact Dn.sample_dnode_wf|lia].
Defined.

(** C32: Listing a ZAP object of any decoded dnode panics exactly when its first block
    reads to fewer than eight bytes: the block type is sliced from it without
    a check of its length. *)
Theorem zap_panics_on_short_block {B : Build} {BL : BuildLaws B} {R} `{BlockRead R} topo o d (ms : list (PoolMember R)) :
  plain_layout topo -> Dn.dnode_wf d -> 0 < data_block_size_sectors d ->
  fst (zap_entries topo d o ms) = Panic <-> short_first_block topo o d ms.
Proof.
  intros Hp Hd Hs. split.
  { intros Hpan. destruct (zap_entries_upto (T := fun _ => True) topo o Hp d ms Hd I) as [_ Hu]. now rewrite Hpan in Hu. }
  intros (b & ms' & Hr & Hl).
  unfold zap_entries, sm_guard, guard_err. rewrite (proj2 (Z.eqb_neq _ _)) by (rewrite Z.shiftl_mul_pow2; lia).
  unfold mbind, SM_bind, sm_lift. rewrite Hr. cbn [ok_or]. unfold block_type. now rewrite get_range_past by lia.
Qed.

(** A directory whose only block is embedded in its pointer, four bytes long. *)
Definition short_object : Dnode :=
  sample_object 1 (TailOne (Some (Embedded {|
    e_compression := CompressionType.Off; e_dmu := DmuType.DirectoryContents;
    e_embedded_type := BlockPointerEmbeddedType.Data; e_order := Little; e_level := 0; e_logical_birth_txg := 1;
    e_logical_size := 4; e_physical_size := 4; e_payload := zrep 112 1 |})) (zrep Dn.ONE_BONUS_SIZE 0)).

Lemma zap_panics_on_short_block_witness :
  fst (zap_entries (B := plain_build) disk_topo short_object Little walk_disks) = Panic.
Proof.
  apply (zap_panics_on_short_block (B := plain_build) disk_topo Little short_object walk_disks).
  - exact I.
  - unfold Dn.dnode_wf. split; [|vm_compute; splits; congruence]. unfold Dn.tail_wf.
    split; [constructor; [|constructor]|split; [apply Forall_replicate; unfold is_byte; lia|reflexivity]].
    cbn. unfold Bp.embedded_wf. split; [vm_compute; split; congruence|]. split; [vm_compute; split; congruence|].
    split; [vm_compute; split; congruence|]. split; [vm_compute; split; congruence|]. split; [reflexivity|].
    apply Forall_replicate. unfold is_byte. lia.
  - vm_compute. reflexivity.
  - exists (zrep 4 1), walk_disks. split; vm_compute; reflexivity.
Defined.
