(* ===== verification/Dsl.v ===== *)
(** * Dataset and snapshot layer records (src/phys/dsl.rs)

    A DSL directory names a dataset's head, parent and children; a DSL dataset
    points to an object set.  Both are kept in the bonus area of their dnodes.
    Decoding is total; a dataset decodes from its encoding; a directory does
    not, since its encoder leaves out a field. *)

From S2P Require Import Prelude Errors Decoder Encoder Codec Types Dva BlockPointer Dnode.

Open Scope Z_scope.
Open Scope list_scope.

(** An object number, with 0 for none. *)
Definition object_ref (v : Z) : option Z := if v =? 0 then None else Some v.
Definition ref_wf (r : option Z) : Prop := match r with Some v => fits 64 v /\ v <> 0 | None => True end.

Lemma object_ref_wf v : fits 64 v -> ref_wf (object_ref v).
Proof. intros. unfold object_ref. destruct (Z.eqb_spec v 0); [done|]. now split. Qed.
Lemma ref_code r : ref_wf r -> fits 64 (default 0 r) /\ object_ref (default 0 r) = r.
Proof.
  destruct r as [v|]; cbn; [|intros; split; [vm_compute; split; congruence|done]].
  intros [Hf Hn]. split; [done|]. unfold object_ref. now rewrite (proj2 (Z.eqb_neq _ _) Hn).
Qed.

(** ** Directories *)
Record DslDirectoryUsedBreakdown : Type := {
  ub_head : Z; ub_snapshot : Z; ub_child : Z; ub_child_reserved : Z; ub_referenced_reservation : Z
}.
Record DslDirectory : Type := {
  dd_creation_time : Z;
  head_dataset_obj : option Z;
  parent_directory_obj : option Z;
  origin_dataset_obj : option Z;
  child_directory_zap_obj : Z;
  dd_used_bytes : Z;
  dd_compressed_bytes : Z;
  dd_uncompressed_bytes : Z;
  dd_quota : Z;
  dd_reserved : Z;
  properties_zap_obj : Z;
  delegation_zap_obj : option Z;
  used_breakdown : option DslDirectoryUsedBreakdown;
  clones : Z
}.

Module DslDir.
Definition SIZE : Z := 256.
Definition PADDING_SIZE : Z := 104.
Definition BREAKDOWN_SIZE : Z := 40.
Definition FLAG_USED_BREAKDOWN : Z := Z.shiftl 1 0.
Definition FLAG_ALL : Z := FLAG_USED_BREAKDOWN.

Inductive DecodeError : Type :=
| DBinary (err : BinaryDecodeError)
| DFlags (flags : Z)
| DMissingChildDirectory
| DMissingProperties.
Inductive EncodeError : Type :=
| EBinary (err : BinaryEncodeError)
| EMissingChildDirectory
| EMissingProperties.

Definition breakdown_from_decoder (BD : BinaryDecoder) : SM BinaryDecoderBuffer DecodeError DslDirectoryUsedBreakdown :=
  head ← sm_map_err DBinary get_u64;
  snapshot ← sm_map_err DBinary get_u64;
  child ← sm_map_err DBinary get_u64;
  child_reserved ← sm_map_err DBinary get_u64;
  referenced_reservation ← sm_map_err DBinary get_u64;
  mret {| ub_head := head; ub_snapshot := snapshot; ub_child := child; ub_child_reserved := child_reserved;
          ub_referenced_reservation := referenced_reservation |}.

Definition from_decoder (BD : BinaryDecoder) : SM BinaryDecoderBuffer DecodeError DslDirectory :=
  creation_time ← sm_map_err DBinary get_u64;
  head_dataset ← sm_map_err DBinary get_u64;
  parent_directory ← sm_map_err DBinary get_u64;
  origin_dataset ← sm_map_err DBinary get_u64;
  child_directory_zap_obj ← sm_map_err DBinary get_u64;
  sm_guard (child_directory_zap_obj =? 0) DMissingChildDirectory;;
  used_bytes ← sm_map_err DBinary get_u64;
  compressed_bytes ← sm_map_err DBinary get_u64;
  uncompressed_bytes ← sm_map_err DBinary get_u64;
  quota ← sm_map_err DBinary get_u64;
  reserved ← sm_map_err DBinary get_u64;
  properties_zap_obj ← sm_map_err DBinary get_u64;
  sm_guard (properties_zap_obj =? 0) DMissingProperties;;
  delegation_zap ← sm_map_err DBinary get_u64;
  flags ← sm_map_err DBinary get_u64;
  sm_guard (negb (Z.land flags FLAG_ALL =? flags)) (DFlags flags);;
  used_breakdown ← (if Z.land flags FLAG_USED_BREAKDOWN =? 0
                    then sm_map_err DBinary (d_skip_zeros BREAKDOWN_SIZE);; mret None
                    else b ← breakdown_from_decoder BD; mret (Some b));
  clones ← sm_map_err DBinary get_u64;
  sm_map_err DBinary (d_skip_zeros PADDING_SIZE);;
  mret {| dd_creation_time := creation_time; head_dataset_obj := object_ref head_dataset;
          parent_directory_obj := object_ref parent_directory; origin_dataset_obj := object_ref origin_dataset;
          child_directory_zap_obj := child_directory_zap_obj; dd_used_bytes := used_bytes;
          dd_compressed_bytes := compressed_bytes; dd_uncompressed_bytes := uncompressed_bytes; dd_quota := quota;
          dd_reserved := reserved; properties_zap_obj := properties_zap_obj;
          delegation_zap_obj := object_ref delegation_zap; used_breakdown := used_breakdown; clones := clones |}.

Definition to_encoder (BE : BinaryEncoder) (d : DslDirectory) : SM BinaryEncoderBuffer EncodeError unit :=
  sm_map_err EBinary (put_u64 (dd_creation_time d));;
  sm_map_err EBinary (put_u64 (default 0 (head_dataset_obj d)));;
  sm_map_err EBinary (put_u64 (default 0 (parent_directory_obj d)));;
  sm_map_err EBinary (put_u64 (default 0 (origin_dataset_obj d)));;
  sm_guard (child_directory_zap_obj d =? 0) EMissingChildDirectory;;
  sm_map_err EBinary (put_u64 (child_directory_zap_obj d));;
  sm_map_err EBinary (put_u64 (dd_used_bytes d));;
  sm_map_err EBinary (put_u64 (dd_compressed_bytes d));;
  sm_map_err EBinary (put_u64 (dd_uncompressed_bytes d));;
  sm_map_err EBinary (put_u64 (dd_quota d));;
  sm_map_err EBinary (put_u64 (dd_reserved d));;
  sm_map_err EBinary (put_u64 (properties_zap_obj d));;
  sm_guard (properties_zap_obj d =? 0) EMissingProperties;;
  sm_map_err EBinary (put_u64 (default 0 (delegation_zap_obj d)));;
  sm_map_err EBinary (put_u64 (match used_breakdown d with None => 0 | Some _ => FLAG_USED_BREAKDOWN end));;
  match used_breakdown d with
  | Some b =>
      sm_map_err EBinary (put_u64 (ub_head b));;
      sm_map_err EBinary (put_u64 (ub_snapshot b));;
      sm_map_err EBinary (put_u64 (ub_child b));;
      sm_map_err EBinary (put_u64 (ub_child_reserved b));;
      sm_map_err EBinary (put_u64 (ub_referenced_reservation b))
  | None => sm_map_err EBinary (put_zeros BREAKDOWN_SIZE)
  end;;
  sm_map_err EBinary (put_zeros PADDING_SIZE).

Definition breakdown_wf (b : DslDirectoryUsedBreakdown) : Prop :=
  fits 64 (ub_head b) /\ fits 64 (ub_snapshot b) /\ fits 64 (ub_child b) /\ fits 64 (ub_child_reserved b) /\
  fits 64 (ub_referenced_reservation b).
Definition wf (d : DslDirectory) : Prop :=
  fits 64 (dd_creation_time d) /\ ref_wf (head_dataset_obj d) /\ ref_wf (parent_directory_obj d) /\
  ref_wf (origin_dataset_obj d) /\ ref_wf (Some (child_directory_zap_obj d)) /\ fits 64 (dd_used_bytes d) /\
  fits 64 (dd_compressed_bytes d) /\ fits 64 (dd_uncompressed_bytes d) /\ fits 64 (dd_quota d) /\
  fits 64 (dd_reserved d) /\ ref_wf (Some (properties_zap_obj d)) /\ ref_wf (delegation_zap_obj d) /\
  match used_breakdown d with Some b => breakdown_wf b | None => True end /\ fits 64 (clones d).

Lemma hoare_breakdown BD {L : BinaryDecoderLaws BD} w : hoare (DecoderBuffer.inv w) (breakdown_from_decoder BD) breakdown_wf.
Proof. unfold breakdown_from_decoder. repeat ccall. apply hoare_ret. now splits. Qed.

Lemma hoare_directory BD {L : BinaryDecoderLaws BD} w : hoare (DecoderBuffer.inv w) (from_decoder BD) wf.
Proof.
  unfold from_decoder. do 16 ccall.
  eapply (hoare_bind _ _ _ (fun b => match b with Some b => breakdown_wf b | None => True end)).
  { destruct (Z.land _ FLAG_USED_BREAKDOWN =? 0); [ccall; now apply hoare_ret|].
    eapply hoare_bind; [apply hoare_breakdown; exact L|]. intros b Hb. now apply hoare_ret. }
  intros ub Hub. repeat ccall. apply hoare_ret. cbv beta in *. rewrite !Z.eqb_neq in *.
  unfold wf. splits; try assumption; try (now apply object_ref_wf); now split.
Qed.

Definition breakdown_layout (o : EndianOrder) (b : option DslDirectoryUsedBreakdown) : bytes :=
  match b with
  | Some b => int_to o 8 (ub_head b) ++ int_to o 8 (ub_snapshot b) ++ int_to o 8 (ub_child b) ++
              int_to o 8 (ub_child_reserved b) ++ int_to o 8 (ub_referenced_reservation b)
  | None => zrep BREAKDOWN_SIZE 0
  end.
(** The fields up to the breakdown, which the encoder and the decoder share. *)
Definition head_layout (o : EndianOrder) (d : DslDirectory) : bytes :=
  int_to o 8 (dd_creation_time d) ++ int_to o 8 (default 0 (head_dataset_obj d)) ++
  int_to o 8 (default 0 (parent_directory_obj d)) ++ int_to o 8 (default 0 (origin_dataset_obj d)) ++
  int_to o 8 (child_directory_zap_obj d) ++ int_to o 8 (dd_used_bytes d) ++ int_to o 8 (dd_compressed_bytes d) ++
  int_to o 8 (dd_uncompressed_bytes d) ++ int_to o 8 (dd_quota d) ++ int_to o 8 (dd_reserved d) ++
  int_to o 8 (properties_zap_obj d) ++ int_to o 8 (default 0 (delegation_zap_obj d)) ++
  int_to o 8 (match used_breakdown d with None => 0 | Some _ => FLAG_USED_BREAKDOWN end) ++
  breakdown_layout o (used_breakdown d).
Definition layout (o : EndianOrder) (d : DslDirectory) : bytes :=
  head_layout o d ++ int_to o 8 (clones d) ++ zrep PADDING_SIZE 0.

Lemma directory_writes o d :
  wf d -> writes (to_encoder (endian_encoder o) d) (head_layout o d ++ zrep PADDING_SIZE 0).
Proof.
  intros (_ & _ & _ & _ & [_ Hc] & _ & _ & _ & _ & _ & [_ Hp] & _). unfold to_encoder, head_layout.
  rewrite <- !app_assoc. do 4 cwrite. eapply writes_bind_nil; [apply writes_guard; now apply Z.eqb_neq|].
  do 7 cwrite. eapply writes_bind_nil; [apply writes_guard; now apply Z.eqb_neq|]. do 2 cwrite.
  eapply writes_bind; [|now apply w_zeros].
  destruct (used_breakdown d); cbn [breakdown_layout]; [do 4 cwrite; apply w_u64|now apply w_zeros].
Qed.

Lemma breakdown_reads o b :
  match b with Some b => breakdown_wf b | None => True end ->
  reads (if Z.land (match b with None => 0 | Some _ => FLAG_USED_BREAKDOWN end) FLAG_USED_BREAKDOWN =? 0
         then sm_map_err DBinary (@d_skip_zeros (endian_decoder o) BREAKDOWN_SIZE);; mret None
         else b ← breakdown_from_decoder (endian_decoder o); mret (Some b)) (breakdown_layout o b) b.
Proof.
  destruct b as [b|]; cbn [breakdown_layout].
  - intros (? & ? & ? & ? & ?). apply reads_last. eapply (reads_bind _ _ _ _ b); [|apply reads_ret].
    unfold breakdown_from_decoder. do 4 cread. apply reads_last. cread. destruct b; apply reads_ret.
  - intros _. apply reads_last. eapply reads_bind; [now apply r_zeros|apply reads_ret].
Qed.

(** What both layouts of a directory share, for a reader [k] of the rest. *)
Ltac head_steps bnd nil :=
  do 5 (eapply bnd; [solve [eauto with codec]|]);
  eapply nil; [apply reads_guard; now apply Z.eqb_neq|];
  do 6 (eapply bnd; [solve [eauto with codec]|]);
  eapply nil; [apply reads_guard; now apply Z.eqb_neq|];
  do 2 (eapply bnd; [solve [eauto with codec]|]);
  eapply nil; [apply reads_guard; reflexivity || (case_match; reflexivity)|].

Lemma directory_reads o d : wf d -> reads (from_decoder (endian_decoder o)) (layout o d) d.
Proof.
  intros (? & Hh & Hpd & Ho & [? Hc] & ? & ? & ? & ? & ? & [? Hp] & Hd & Hb & ?).
  apply ref_code in Hh as [? Eh], Hpd as [? Ep], Ho as [? Eo], Hd as [? Ed].
  assert (Hf : fits 64 (match used_breakdown d with None => 0 | Some _ => FLAG_USED_BREAKDOWN end))
    by (case_match; vm_compute; split; congruence).
  unfold from_decoder, layout, head_layout. rewrite <- !app_assoc. head_steps @reads_bind @reads_bind_nil.
  eapply reads_bind; [now apply breakdown_reads|]. cread. apply reads_last.
  eapply reads_bind; [now apply r_zeros|]. rewrite Eh, Ep, Eo, Ed. destruct d; apply reads_ret.
Qed.

Lemma short_directory_stops o d :
  wf d -> stops (from_decoder (endian_decoder o)) (head_layout o d ++ zrep PADDING_SIZE 0)
    (fun e => exists off max cap, e = DBinary (EndOfInput off max cap PADDING_SIZE)).
Proof.
  intros (? & Hh & Hpd & Ho & [? Hc] & ? & ? & ? & ? & ? & [? Hp] & Hd & Hb & ?).
  apply ref_code in Hh as [? _], Hpd as [? _], Ho as [? _], Hd as [? _].
  assert (Hf : fits 64 (match used_breakdown d with None => 0 | Some _ => FLAG_USED_BREAKDOWN end))
    by (case_match; vm_compute; split; congruence).
  unfold from_decoder, head_layout. rewrite <- !app_assoc. head_steps @stops_bind @stops_bind_nil.
  eapply stops_bind; [now apply breakdown_reads|].
  replace (zrep PADDING_SIZE 0) with (int_to o 8 0 ++ zrep 96 0) by now destruct o.
  eapply stops_bind; [apply r_u64; vm_compute; split; congruence|]. apply stops_here.
  now apply stops_skip_zeros.
Qed.

Lemma head_layout_ok o d : bytes_ok (head_layout o d) /\ blen (head_layout o d) = 144.
Proof.
  assert (Hb : bytes_ok (breakdown_layout o (used_breakdown d)) /\ blen (breakdown_layout o (used_breakdown d)) = 40).
  { destruct (used_breakdown d); cbn [breakdown_layout]; [|split; [apply bytes_ok_zrep|done]].
    rewrite !Forall_app, !blen_app, !blen_int_to. auto 10 with zfs. }
  unfold head_layout. rewrite !Forall_app, !blen_app, !blen_int_to, (proj2 Hb). split; [|done].
  splits; auto with zfs. apply Hb.
Qed.

Lemma directory_bytes_ok o d : bytes_ok (layout o d).
Proof.
  unfold layout. rewrite !Forall_app. destruct (head_layout_ok o d). auto using bytes_ok_int_to, bytes_ok_zrep.
Qed.

(** A stored directory, laid out as its decoder reads it, decodes to itself in
    256 bytes.  The encoder leaves out the clones field: it writes 248 bytes,
    which the decoder refuses for being eight bytes short. *)
Theorem directory_encoding_is_short o d :
  wf d ->
  with_decoder o from_decoder (layout o d) = Ok d /\ blen (layout o d) = SIZE /\
  exists bs, encode_into SIZE (to_encoder (endian_encoder o) d) = Ok bs /\ blen bs = SIZE - 8 /\
    exists off max cap, with_decoder o from_decoder bs = Err (DBinary (EndOfInput off max cap PADDING_SIZE)).
Proof.
  intros Hw. destruct (head_layout_ok o d) as [Hb Hl].
  pose proof (directory_bytes_ok o d) as Hb'.
  split; [|split].
  - apply with_decoder_ends; [now apply reads_ends, directory_reads|done].
  - unfold layout. now rewrite !blen_app, blen_int_to, Hl.
  - assert (Hn : blen (head_layout o d ++ zrep PADDING_SIZE 0) = SIZE - 8) by now rewrite blen_app, Hl.
    exists (head_layout o d ++ zrep PADDING_SIZE 0). split; [|split; [done|]].
    + apply writes_encode; [now apply directory_writes|rewrite Hn; now vm_compute].
    + destruct (with_decoder_stops o from_decoder _ _ (short_directory_stops o d Hw)) as (e & He & off & mx & cap & ->).
      { rewrite Forall_app. auto using bytes_ok_zrep. }
      rewrite He. eauto.
Qed.

Definition sample_directory : DslDirectory := {|
  dd_creation_time := 1700000000; head_dataset_obj := Some 54; parent_directory_obj := None;
  origin_dataset_obj := None; child_directory_zap_obj := 4; dd_used_bytes := 98304; dd_compressed_bytes := 0;
  dd_uncompressed_bytes := 0; dd_quota := 0; dd_reserved := 0; properties_zap_obj := 3; delegation_zap_obj := None;
  used_breakdown := Some {| ub_head := 1; ub_snapshot := 2; ub_child := 3; ub_child_reserved := 4;
    ub_referenced_reservation := 5 |}; clones := 9 |}.

Lemma sample_directory_wf : wf sample_directory.
Proof. unfold wf; splits; vm_compute; repeat split; congruence. Qed.

Lemma directory_encoding_is_short_witness :
  with_decoder Big from_decoder (layout Big sample_directory) = Ok sample_directory /\
  blen (layout Big sample_directory) = SIZE /\
  exists bs, encode_into SIZE (to_encoder (endian_encoder Big) sample_directory) = Ok bs /\ blen bs = SIZE - 8 /\
    exists off max cap, with_decoder Big from_decoder bs = Err (DBinary (EndOfInput off max cap PADDING_SIZE)).
Proof. apply (directory_encoding_is_short Big sample_directory). exact sample_directory_wf. Defined.
End DslDir.

(** ** Datasets *)
Record DslDataSet : Type := {
  ds_dir_obj : Z;
  prev_snapshot_obj : option Z;
  prev_snapshot_txg : option Z;
  next_snapshot_obj : option Z;
  snapshot_names_zap_obj : option Z;
  num_children : Z;
  ds_creation_time : Z;
  creation_txg : Z;
  deadlist_obj : Z;
  referenced_bytes : Z;
  ds_compressed_bytes : Z;
  ds_uncompressed_bytes : Z;
  unique_bytes : Z;
  fsid_guid : Z;
  ds_guid : Z;
  ds_flags : Z;
  ds_block_pointer : option BlockPointer;
  next_clones_obj : Z;
  snapshot_props_obj : option Z;
  user_refs_obj : Z
}.

Module DslDs.
Definition SIZE : Z := 320.
Definition PADDING_SIZE : Z := 40.
Definition FLAG_INCONSISTENT : Z := Z.shiftl 1 0.
Definition FLAG_NO_PROMOTE : Z := Z.shiftl 1 1.
Definition FLAG_UNIQUE_ACCURATE : Z := Z.shiftl 1 2.
Definition FLAG_DEFER_DESTROY : Z := Z.shiftl 1 3.
Definition FLAG_CASE_INSENSITIVE_FS : Z := Z.shiftl 1 16.
Definition FLAG_NO_DIRTY : Z := Z.shiftl 1 24.
Definition FLAG_ALL : Z :=
  Z.lor (Z.lor (Z.lor (Z.lor (Z.lor FLAG_INCONSISTENT FLAG_NO_PROMOTE) FLAG_UNIQUE_ACCURATE) FLAG_DEFER_DESTROY)
    FLAG_CASE_INSENSITIVE_FS) FLAG_NO_DIRTY.

Inductive DecodeError : Type :=
| DBinary (err : BinaryDecodeError)
| DBlockPointer (err : Bp.DecodeError)
| DFlags (flags : Z)
| DMissingDirectory
| DPreviousSnapshot (prev_snapshot_obj prev_snapshot_txg : Z).
Inductive EncodeError : Type :=
| EBinary (err : BinaryEncodeError)
| EBlockPointer (err : Bp.EncodeError)
| EMissingDirectory
| EPreviousSnapshot (prev_snapshot_obj prev_snapshot_txg : Z).

Definition is_none {A} (x : option A) : bool := match x with None => true | Some _ => false end.

Definition from_decoder (BD : BinaryDecoder) : SM BinaryDecoderBuffer DecodeError DslDataSet :=
  dir_obj ← sm_map_err DBinary get_u64;
  sm_guard (dir_obj =? 0) DMissingDirectory;;
  v ← sm_map_err DBinary get_u64;
  let prev_snapshot_obj := object_ref v in
  v ← sm_map_err DBinary get_u64;
  let prev_snapshot_txg := object_ref v in
  sm_guard (negb (Bool.eqb (is_none prev_snapshot_obj) (is_none prev_snapshot_txg)))
    (DPreviousSnapshot (default 0 prev_snapshot_obj) (default 0 prev_snapshot_txg));;
  next_snapshot ← sm_map_err DBinary get_u64;
  snapshot_names_zap ← sm_map_err DBinary get_u64;
  num_children ← sm_map_err DBinary get_u64;
  creation_time ← sm_map_err DBinary get_u64;
  creation_txg ← sm_map_err DBinary get_u64;
  deadlist_obj ← sm_map_err DBinary get_u64;
  referenced_bytes ← sm_map_err DBinary get_u64;
  compressed_bytes ← sm_map_err DBinary get_u64;
  uncompressed_bytes ← sm_map_err DBinary get_u64;
  unique_bytes ← sm_map_err DBinary get_u64;
  fsid_guid ← sm_map_err DBinary get_u64;
  guid ← sm_map_err DBinary get_u64;
  flags ← sm_map_err DBinary get_u64;
  sm_guard (negb (Z.land flags FLAG_ALL =? flags)) (DFlags flags);;
  block_pointer ← sm_map_err DBlockPointer Bp.from_decoder;
  next_clones_obj ← sm_map_err DBinary get_u64;
  snapshot_props ← sm_map_err DBinary get_u64;
  user_refs_obj ← sm_map_err DBinary get_u64;
  sm_map_err DBinary (d_skip_zeros PADDING_SIZE);;
  mret {| ds_dir_obj := dir_obj; prev_snapshot_obj := prev_snapshot_obj; prev_snapshot_txg := prev_snapshot_txg;
          next_snapshot_obj := object_ref next_snapshot; snapshot_names_zap_obj := object_ref snapshot_names_zap;
          num_children := num_children; ds_creation_time := creation_time; creation_txg := creation_txg;
          deadlist_obj := deadlist_obj; referenced_bytes := referenced_bytes; ds_compressed_bytes := compressed_bytes;
          ds_uncompressed_bytes := uncompressed_bytes; unique_bytes := unique_bytes; fsid_guid := fsid_guid;
          ds_guid := guid; ds_flags := flags; ds_block_pointer := block_pointer; next_clones_obj := next_clones_obj;
          snapshot_props_obj := object_ref snapshot_props; user_refs_obj := user_refs_obj |}.

Definition to_encoder (BE : BinaryEncoder) (d : DslDataSet) : SM BinaryEncoderBuffer EncodeError unit :=
  sm_guard (ds_dir_obj d =? 0) EMissingDirectory;;
  sm_map_err EBinary (put_u64 (ds_dir_obj d));;
  sm_guard (negb (Bool.eqb (default 0 (prev_snapshot_obj d) =? 0) (default 0 (prev_snapshot_txg d) =? 0)))
    (EPreviousSnapshot (default 0 (prev_snapshot_obj d)) (default 0 (prev_snapshot_txg d)));;
  sm_map_err EBinary (put_u64 (default 0 (prev_snapshot_obj d)));;
  sm_map_err EBinary (put_u64 (default 0 (prev_snapshot_txg d)));;
  sm_map_err EBinary (put_u64 (default 0 (next_snapshot_obj d)));;
  sm_map_err EBinary (put_u64 (default 0 (snapshot_names_zap_obj d)));;
  sm_map_err EBinary (put_u64 (num_children d));;
  sm_map_err EBinary (put_u64 (ds_creation_time d));;
  sm_map_err EBinary (put_u64 (creation_txg d));;
  sm_map_err EBinary (put_u64 (deadlist_obj d));;
  sm_map_err EBinary (put_u64 (referenced_bytes d));;
  sm_map_err EBinary (put_u64 (ds_compressed_bytes d));;
  sm_map_err EBinary (put_u64 (ds_uncompressed_bytes d));;
  sm_map_err EBinary (put_u64 (unique_bytes d));;
  sm_map_err EBinary (put_u64 (fsid_guid d));;
  sm_map_err EBinary (put_u64 (ds_guid d));;
  sm_map_err EBinary (put_u64 (ds_flags d));;
  sm_map_err EBlockPointer (Bp.option_to_encoder (ds_block_pointer d));;
  sm_map_err EBinary (put_u64 (next_clones_obj d));;
  sm_map_err EBinary (put_u64 (default 0 (snapshot_props_obj d)));;
  sm_map_err EBinary (put_u64 (user_refs_obj d));;
  sm_map_err EBinary (put_zeros PADDING_SIZE).

Definition wf (d : DslDataSet) : Prop :=
  ref_wf (Some (ds_dir_obj d)) /\ ref_wf (prev_snapshot_obj d) /\ ref_wf (prev_snapshot_txg d) /\
  is_none (prev_snapshot_obj d) = is_none (prev_snapshot_txg d) /\ ref_wf (next_snapshot_obj d) /\
  ref_wf (snapshot_names_zap_obj d) /\ fits 64 (num_children d) /\ fits 64 (ds_creation_time d) /\
  fits 64 (creation_txg d) /\ fits 64 (deadlist_obj d) /\ fits 64 (referenced_bytes d) /\
  fits 64 (ds_compressed_bytes d) /\ fits 64 (ds_uncompressed_bytes d) /\ fits 64 (unique_bytes d) /\
  fits 64 (fsid_guid d) /\ fits 64 (ds_guid d) /\
  (fits 64 (ds_flags d) /\ Z.land (ds_flags d) FLAG_ALL = ds_flags d) /\ Dn.ptr_wf (ds_block_pointer d) /\
  fits 64 (next_clones_obj d) /\ ref_wf (snapshot_props_obj d) /\ fits 64 (user_refs_obj d).

Lemma hoare_dataset BD {L : BinaryDecoderLaws BD} w : hoare (DecoderBuffer.inv w) (from_decoder BD) wf.
Proof.
  unfold from_decoder. do 19 ccall.
  eapply hoare_bind; [apply hoare_map_err, Bp.hoare_bp; exact L|]. intros p Hp. repeat ccall. apply hoare_ret.
  cbv beta in *. repeat match goal with H : negb _ = false |- _ => apply negb_false_iff in H end.
  unfold wf; cbn. splits; try assumption; try (now apply object_ref_wf).
  - now apply Z.eqb_neq.
  - now apply Bool.eqb_prop.
  - now apply Z.eqb_eq.
Qed.

Definition layout (o : EndianOrder) (d : DslDataSet) : bytes :=
  int_to o 8 (ds_dir_obj d) ++ int_to o 8 (default 0 (prev_snapshot_obj d)) ++
  int_to o 8 (default 0 (prev_snapshot_txg d)) ++ int_to o 8 (default 0 (next_snapshot_obj d)) ++
  int_to o 8 (default 0 (snapshot_names_zap_obj d)) ++ int_to o 8 (num_children d) ++
  int_to o 8 (ds_creation_time d) ++ int_to o 8 (creation_txg d) ++ int_to o 8 (deadlist_obj d) ++
  int_to o 8 (referenced_bytes d) ++ int_to o 8 (ds_compressed_bytes d) ++ int_to o 8 (ds_uncompressed_bytes d) ++
  int_to o 8 (unique_bytes d) ++ int_to o 8 (fsid_guid d) ++ int_to o 8 (ds_guid d) ++ int_to o 8 (ds_flags d) ++
  Dn.ptr_layout o (ds_block_pointer d) ++ int_to o 8 (next_clones_obj d) ++
  int_to o 8 (default 0 (snapshot_props_obj d)) ++ int_to o 8 (user_refs_obj d) ++ zrep PADDING_SIZE 0.

Lemma dataset_reads o d :
  wf d -> Dn.ptr_layable o (ds_block_pointer d) -> reads (from_decoder (endian_decoder o)) (layout o d) d.
Proof.
  intros ([? Hd] & Hpo & Hpt & Hn & Hns & Hz & ? & ? & ? & ? & ? & ? & ? & ? & ? & ? & [? Hf] & _ & ? & Hp & ?) Hl.
  apply ref_code in Hpo as [? Epo], Hpt as [? Ept], Hns as [? En], Hz as [? Ez], Hp as [? Ep].
  unfold from_decoder, layout. cread. cguard; [now apply Z.eqb_neq|]. do 2 cread.
  cguard; [now rewrite Epo, Ept, Hn, eqb_reflx|]. do 13 cread. cguard; [now rewrite Hf, Z.eqb_refl|].
  eapply reads_bind; [apply reads_map_err, Dn.reads_ptr_bp, Hl|]. do 3 cread. apply reads_last.
  eapply reads_bind; [now apply r_zeros|]. rewrite Epo, Ept, En, Ez, Ep. destruct d; apply reads_ret.
Qed.

Lemma option_ptr_writes o p :
  Dn.ptr_layable o p -> writes (sm_map_err EBlockPointer (@Bp.option_to_encoder (endian_encoder o) p)) (Dn.ptr_layout o p).
Proof.
  intros Hp. apply writes_map_err. destruct p as [p|]; cbn; [apply Bp.writes_bp, Hp|].
  now apply writes_map_err, writes_put_zeros.
Qed.

Lemma dataset_writes o d :
  wf d -> Dn.ptr_layable o (ds_block_pointer d) -> writes (to_encoder (endian_encoder o) d) (layout o d).
Proof.
  intros ([? Hd] & Hpo & Hpt & Hn & _) Hl. unfold to_encoder, layout.
  eapply writes_bind_nil; [apply writes_guard; now apply Z.eqb_neq|]. cwrite.
  eapply writes_bind_nil.
  { apply writes_guard. destruct (prev_snapshot_obj d), (prev_snapshot_txg d); try discriminate; cbn in *; [|done].
    now rewrite !(proj2 (Z.eqb_neq _ _)) by tauto. }
  do 15 cwrite. eapply writes_bind; [now apply option_ptr_writes|]. do 3 cwrite. now apply w_zeros.
Qed.

Lemma dataset_layout_ok o d :
  Dn.ptr_layable o (ds_block_pointer d) -> bytes_ok (layout o d) /\ blen (layout o d) = SIZE.
Proof.
  intros Hl. unfold layout. rewrite !Forall_app, !blen_app, !blen_int_to, Dn.blen_ptr_layout by done.
  split; [|done]. splits; auto using bytes_ok_int_to, bytes_ok_zrep, Dn.bytes_ok_ptr_layout.
Qed.

(** A dataset whose block pointer is absent or encodable encodes to 320 bytes in
    either byte order and decodes back to itself; the previous snapshot's object
    and transaction group are both present or both absent. *)
Theorem dataset_roundtrip o d :
  wf d -> Dn.ptr_layable o (ds_block_pointer d) ->
  exists bs, encode_into SIZE (to_encoder (endian_encoder o) d) = Ok bs /\ blen bs = 320 /\
    with_decoder o from_decoder bs = Ok d.
Proof.
  intros Hw Hl. destruct (dataset_layout_ok o d Hl) as [Hb Hn]. exists (layout o d). split; [|split; [done|]].
  - apply writes_encode; [now apply dataset_writes|now rewrite Hn].
  - apply with_decoder_ends; [now apply reads_ends, dataset_reads|done].
Qed.

Definition sample_dataset : DslDataSet := {|
  ds_dir_obj := 2; prev_snapshot_obj := Some 18; prev_snapshot_txg := Some 1; next_snapshot_obj := None;
  snapshot_names_zap_obj := Some 55; num_children := 0; ds_creation_time := 1700000000; creation_txg := 1;
  deadlist_obj := 56; referenced_bytes := 98304; ds_compressed_bytes := 98304; ds_uncompressed_bytes := 98304;
  unique_bytes := 98304; fsid_guid := 7; ds_guid := 8; ds_flags := 4;
  ds_block_pointer := Some (Regular Bp.sample_regular); next_clones_obj := 0; snapshot_props_obj := None;
  user_refs_obj := 0 |}.

Lemma dataset_roundtrip_witness :
  exists bs, encode_into SIZE (to_encoder (endian_encoder Little) sample_dataset) = Ok bs /\ blen bs = 320 /\
    with_decoder Little from_decoder bs = Ok sample_dataset.
Proof.
  apply (dataset_roundtrip Little sample_dataset).
  - unfold wf; splits; vm_compute; repeat split; congruence.
  - split; [exact Bp.sample_regular_encodable|vm_compute; reflexivity].
Defined.
End DslDs.

(** Decoding any bytes as a directory or a dataset ends without a panic, and what
    is returned is well formed: the objects every reader dereferences are present
    and nonzero. *)
Theorem dsl_decode_safe o l :
  bytes_ok l ->
  safe DslDir.wf (with_decoder o DslDir.from_decoder l) /\ safe DslDs.wf (with_decoder o DslDs.from_decoder l).
Proof.
  intros Hl. split; (apply with_decoder_safe; [|exact Hl]); intros w.
  - apply DslDir.hoare_directory, endian_decoder_laws.
  - apply DslDs.hoare_dataset, endian_decoder_laws.
Qed.

Lemma dsl_decode_safe_witness :
  safe DslDir.wf (with_decoder Little DslDir.from_decoder (zrep 256 1)) /\
  safe DslDs.wf (with_decoder Little DslDs.from_decoder (zrep 256 1)).
Proof. apply (dsl_decode_safe Little (zrep 256 1)). apply Forall_replicate. unfold is_byte. lia. Defined.
