(* ===== verification/Acl.v ===== *)
(** * Access control lists (src/phys/acl.rs)

    An access control entry allows or denies permissions.  Two versions of lists
    are kept in a znode: six entries of one size (version 0), and 72 bytes of
    entries whose size depends on their type (version 1), which an iterator
    walks.  A version 0 list encodes and decodes; a version 1 list decodes
    from its layout, but its encoder cannot succeed; the iterator gives back the
    entries that were laid out. *)

From S2P Require Import Prelude Errors Decoder Encoder Codec Dsl.

Open Scope Z_scope.
Open Scope list_scope.

(** ** Sets of flags *)

(** The digits of [{:#0w$x}]: [0x] and the hexadecimal digits, zero-padded. *)
Definition hex_digit (d : Z) : string :=
  default "?"%string (["0"; "1"; "2"; "3"; "4"; "5"; "6"; "7"; "8"; "9"; "a"; "b"; "c"; "d"; "e"; "f"]%string !! Z.to_nat d).
Fixpoint hex_digits (n : nat) (x : Z) (acc : string) : string :=
  match n with
  | O => acc
  | S n' => hex_digits n' (x / 16) (String.append (hex_digit (x mod 16)) acc)
  end.
Definition hex_length (x : Z) : nat := if x =? 0 then 1%nat else Z.to_nat (Z.log2 x / 4 + 1).
Definition hex (w : nat) (x : Z) : string :=
  String.append "0x" (hex_digits (Nat.max (w - 2) (hex_length x)) x "").

(** [Display]: the names of the flags that are set, then what is not known. *)
Fixpoint flag_names (strings : list (Z * string)) (value : Z) : list string :=
  match strings with
  | [] => []
  | (mask, s) :: strings' =>
      if Z.land mask value =? mask then s :: flag_names strings' value else flag_names strings' value
  end.
Definition display_flags (strings : list (Z * string)) (mask : Z) (w : nat) (value : Z) : string :=
  let unknown := value - Z.land value mask in
  String.concat "|" (flag_names strings value ++ (if unknown =? 0 then [] else [hex w unknown])).

Module AcePermission.
Definition READ_DATA : Z := 0x00000001.
Definition LIST_DIRECTORY : Z := 0x00000001.
Definition WRITE_DATA : Z := 0x00000002.
Definition ADD_FILE : Z := 0x00000002.
Definition APPEND_DATA : Z := 0x00000004.
Definition ADD_SUBDIRECTORY : Z := 0x00000004.
Definition READ_NAMED_ATTRIBUTES : Z := 0x00000008.
Definition WRITE_NAMED_ATTRIBUTES : Z := 0x00000010.
Definition EXECUTE : Z := 0x00000020.
Definition TRAVERSE : Z := 0x00000020.
Definition DELETE_CHILD : Z := 0x00000040.
Definition READ_ATTRIBUTES : Z := 0x00000080.
Definition WRITE_ATTRIBUTES : Z := 0x00000100.
Definition DELETE : Z := 0x00010000.
Definition READ_ACL : Z := 0x00020000.
Definition WRITE_ACL : Z := 0x00040000.
Definition WRITE_OWNER : Z := 0x00080000.
Definition SYNCHRONIZE : Z := 0x00100000.
Definition STRINGS : list (Z * string) := [
  (READ_DATA, "READ_DATA"); (LIST_DIRECTORY, "LIST_DIRECTORY"); (WRITE_DATA, "WRITE_DATA"); (ADD_FILE, "ADD_FILE");
  (APPEND_DATA, "APPEND_DATA"); (ADD_SUBDIRECTORY, "ADD_SUBDIRECTORY"); (READ_NAMED_ATTRIBUTES, "READ_NAMED_ATTRIBUTES");
  (WRITE_NAMED_ATTRIBUTES, "WRITE_NAMED_ATTRIBUTES"); (EXECUTE, "EXECUTE"); (TRAVERSE, "TRAVERSE");
  (DELETE_CHILD, "DELETE_CHILD"); (READ_ATTRIBUTES, "READ_ATTRIBUTES"); (WRITE_ATTRIBUTES, "WRITE_ATTRIBUTES");
  (DELETE, "DELETE"); (READ_ACL, "READ_ACL"); (WRITE_ACL, "WRITE_ACL"); (WRITE_OWNER, "WRITE_OWNER");
  (SYNCHRONIZE, "SYNCHRONIZE")]%string.
Definition MASK : Z :=
  fold_left Z.lor [LIST_DIRECTORY; WRITE_DATA; ADD_FILE; APPEND_DATA; ADD_SUBDIRECTORY; READ_NAMED_ATTRIBUTES;
    WRITE_NAMED_ATTRIBUTES; EXECUTE; TRAVERSE; DELETE_CHILD; READ_ATTRIBUTES; WRITE_ATTRIBUTES; DELETE; READ_ACL;
    WRITE_ACL; WRITE_OWNER; SYNCHRONIZE] READ_DATA.
Definition display : Z -> string := display_flags STRINGS MASK 8.
End AcePermission.

Module AceFlag.
Definition FILE_INHERIT_ACE : Z := 0x0001.
Definition DIRECTORY_INHERIT_ACE : Z := 0x0002.
Definition NO_PROPAGATE_INHERIT_ACE : Z := 0x0004.
Definition INHERIT_ONLY_ACE : Z := 0x0008.
Definition SUCCESSFUL_ACCESS_ACE : Z := 0x0010.
Definition FAILED_ACCESS_ACE : Z := 0x0020.
Definition IDENTIFIER_GROUP : Z := 0x0040.
Definition INHERITED_ACE : Z := 0x0080.
Definition OWNER : Z := 0x1000.
Definition GROUP : Z := 0x2000.
Definition EVERYONE : Z := 0x4000.
Definition TYPE : Z := Z.lor (Z.lor (Z.lor OWNER GROUP) EVERYONE) IDENTIFIER_GROUP.
Definition OWNING_GROUP : Z := Z.lor GROUP IDENTIFIER_GROUP.
Definition MASK : Z :=
  fold_left Z.lor [DIRECTORY_INHERIT_ACE; NO_PROPAGATE_INHERIT_ACE; INHERIT_ONLY_ACE; SUCCESSFUL_ACCESS_ACE;
    FAILED_ACCESS_ACE; IDENTIFIER_GROUP; INHERITED_ACE; OWNER; GROUP; EVERYONE] FILE_INHERIT_ACE.
Definition STRINGS : list (Z * string) := [
  (FILE_INHERIT_ACE, "FILE_INHERIT_ACE"); (DIRECTORY_INHERIT_ACE, "DIRECTORY_INHERIT_ACE");
  (NO_PROPAGATE_INHERIT_ACE, "NO_PROPAGATE_INHERIT_ACE"); (INHERIT_ONLY_ACE, "INHERIT_ONLY_ACE");
  (SUCCESSFUL_ACCESS_ACE, "SUCCESSFUL_ACCESS_ACE"); (FAILED_ACCESS_ACE, "FAILED_ACCESS_ACE");
  (IDENTIFIER_GROUP, "IDENTIFIER_GROUP"); (INHERITED_ACE, "INHERITED_ACE"); (OWNER, "OWNER"); (GROUP, "GROUP");
  (EVERYONE, "EVERYONE")]%string.
Definition display : Z -> string := display_flags STRINGS MASK 4.
End AceFlag.

(** [(x & MASK) == x] *)
Definition within (mask x : Z) : bool := Z.land x mask =? x.

Module AceType.
Inductive t : Type :=
| Allow | Deny | Audit | Alarm | AccessAllowCompound | AccessAllowObject | AccessDenyObject | SystemAuditObject
| SystemAlarmObject | AccessAllowCallback | AccessDenyCallback | AccessAllowCallbackObject | AccessDenyCallbackObject
| SystemAuditCallback | SystemAlarmCallback | SystemAuditCallbackObject | SystemAlarmCallbackObject.
#[global] Instance ace_type_eq_dec : EqDecision t. Proof. solve_decision. Defined.
Definition into_u16 (x : t) : Z :=
  match x with
  | Allow => 0 | Deny => 1 | Audit => 2 | Alarm => 3 | AccessAllowCompound => 4 | AccessAllowObject => 5
  | AccessDenyObject => 6 | SystemAuditObject => 7 | SystemAlarmObject => 8 | AccessAllowCallback => 9
  | AccessDenyCallback => 10 | AccessAllowCallbackObject => 11 | AccessDenyCallbackObject => 12
  | SystemAuditCallback => 13 | SystemAlarmCallback => 14 | SystemAuditCallbackObject => 15
  | SystemAlarmCallbackObject => 16
  end.
(** The error is the unknown code. *)
Definition try_from (ace_type : Z) : outcome Z t :=
  match ace_type with
  | 0 => Ok Allow | 1 => Ok Deny | 2 => Ok Audit | 3 => Ok Alarm | 4 => Ok AccessAllowCompound
  | 5 => Ok AccessAllowObject | 6 => Ok AccessDenyObject | 7 => Ok SystemAuditObject | 8 => Ok SystemAlarmObject
  | 9 => Ok AccessAllowCallback | 10 => Ok AccessDenyCallback | 11 => Ok AccessAllowCallbackObject
  | 12 => Ok AccessDenyCallbackObject | 13 => Ok SystemAuditCallback | 14 => Ok SystemAlarmCallback
  | 15 => Ok SystemAuditCallbackObject | 16 => Ok SystemAlarmCallbackObject
  | _ => Err ace_type
  end.
Definition display (x : t) : string :=
  match x with
  | Allow => "Allow" | Deny => "Deny" | Audit => "Audit" | Alarm => "Alarm"
  | AccessAllowCompound => "AccessAllowCompound" | AccessAllowObject => "AccessAllowObject"
  | AccessDenyObject => "AccessDenyObject" | SystemAuditObject => "SystemAuditObject"
  | SystemAlarmObject => "SystemAlarmObject" | AccessAllowCallback => "AccessAllowCallback"
  | AccessDenyCallback => "AccessDenyCallback" | AccessAllowCallbackObject => "AccessAllowCallbackObject"
  | AccessDenyCallbackObject => "AccessDenyCallbackObject" | SystemAuditCallback => "SystemAuditCallback"
  | SystemAlarmCallback => "SystemAlarmCallback" | SystemAuditCallbackObject => "SystemAuditCallbackObject"
  | SystemAlarmCallbackObject => "SystemAlarmCallbackObject"
  end%string.
(** The four types that an encoder accepts, and that version 0 decodes. *)
Definition basic (x : t) : bool := match x with Allow | Deny | Audit | Alarm => true | _ => false end.

Lemma ace_type_try_from_into x : try_from (into_u16 x) = Ok x.
Proof. now destruct x. Qed.
Lemma ace_type_fits x : fits 16 (into_u16 x).
Proof. destruct x; vm_compute; split; congruence. Qed.
Lemma ace_type_safe c : safe (fun _ => True) (try_from c).
Proof. unfold try_from. repeat case_match; done. Qed.
End AceType.
#[export] Hint Resolve AceType.ace_type_fits AceType.ace_type_safe : zfs codec.

Inductive AceDecodeError : Type :=
| AceDBinary (err : BinaryDecodeError)
| AceDPermissions (permissions : Z)
| AceDFlags (flags : Z)
| AceDType (ace_type : Z)
| AceDUnexpectedType (ace_type : AceType.t).
Inductive AceEncodeError : Type :=
| AceEBinary (err : BinaryEncodeError)
| AceEFlags (flags : Z)
| AceEPermissions (permissions : Z)
| AceEUnexpectedType (ace_type : AceType.t).
Inductive AclDecodeError : Type :=
| AclDAce (err : AceDecodeError)
| AclDBinary (err : BinaryDecodeError)
| AclDVersion (version : Z).
Inductive AclEncodeError : Type :=
| AclEAce (err : AceEncodeError)
| AclEBinary (err : BinaryEncodeError).

(** ** Version 0 *)
Record AceV0 : Type := { a0_id : Z; a0_permissions : Z; a0_flags : Z; a0_type : AceType.t }.

Module Ace0.
Definition SIZE : Z := 12.

Definition from_decoder (BD : BinaryDecoder) : SM BinaryDecoderBuffer AceDecodeError AceV0 :=
  id ← sm_map_err AceDBinary get_u32;
  permissions ← sm_map_err AceDBinary get_u32;
  flags ← sm_map_err AceDBinary get_u16;
  code ← sm_map_err AceDBinary get_u16;
  ace_type ← sm_lift (map_err AceDType (AceType.try_from code));
  sm_guard (negb (within AcePermission.MASK permissions)) (AceDPermissions permissions);;
  sm_guard (negb (within AceFlag.MASK flags)) (AceDFlags flags);;
  sm_guard (negb (AceType.basic ace_type)) (AceDUnexpectedType ace_type);;
  mret {| a0_id := id; a0_permissions := permissions; a0_flags := flags; a0_type := ace_type |}.

Definition to_encoder (BE : BinaryEncoder) (a : AceV0) : SM BinaryEncoderBuffer AceEncodeError unit :=
  sm_guard (negb (within AcePermission.MASK (a0_permissions a))) (AceEPermissions (a0_permissions a));;
  sm_guard (negb (within AceFlag.MASK (a0_flags a))) (AceEFlags (a0_flags a));;
  sm_guard (negb (AceType.basic (a0_type a))) (AceEUnexpectedType (a0_type a));;
  sm_map_err AceEBinary (put_u32 (a0_id a));;
  sm_map_err AceEBinary (put_u32 (a0_permissions a));;
  sm_map_err AceEBinary (put_u16 (a0_flags a));;
  sm_map_err AceEBinary (put_u16 (AceType.into_u16 (a0_type a))).

Definition wf (a : AceV0) : Prop :=
  fits 32 (a0_id a) /\ fits 32 (a0_permissions a) /\ fits 16 (a0_flags a) /\
  within AcePermission.MASK (a0_permissions a) = true /\ within AceFlag.MASK (a0_flags a) = true /\
  AceType.basic (a0_type a) = true.
Definition layout (o : EndianOrder) (a : AceV0) : bytes :=
  int_to o 4 (a0_id a) ++ int_to o 4 (a0_permissions a) ++ int_to o 2 (a0_flags a) ++
  int_to o 2 (AceType.into_u16 (a0_type a)).

Lemma hoare_ace0 BD {L : BinaryDecoderLaws BD} w : hoare (DecoderBuffer.inv w) (from_decoder BD) wf.
Proof.
  unfold from_decoder. repeat ccall. apply hoare_ret. cbv beta in *.
  repeat match goal with H : negb _ = false |- _ => apply negb_false_iff in H end. now splits.
Qed.
Lemma ace0_reads o a : wf a -> reads (from_decoder (endian_decoder o)) (layout o a) a.
Proof.
  intros (? & ? & ? & Hp & Hf & Ht). unfold from_decoder, layout. do 3 cread. apply reads_last.
  eapply reads_bind; [apply r_u16; auto with zfs|].
  eapply reads_bind_nil; [eapply r_code, AceType.ace_type_try_from_into|]. cguard; [now rewrite Hp|]. cguard; [now rewrite Hf|].
  cguard; [now rewrite Ht|]. destruct a; apply reads_ret.
Qed.
Lemma ace0_writes o a : wf a -> writes (to_encoder (endian_encoder o) a) (layout o a).
Proof.
  intros (_ & _ & _ & Hp & Hf & Ht). unfold to_encoder, layout.
  eapply writes_bind_nil; [apply writes_guard; now rewrite Hp|]. eapply writes_bind_nil; [apply writes_guard; now rewrite Hf|].
  eapply writes_bind_nil; [apply writes_guard; now rewrite Ht|]. do 3 cwrite. apply w_u16.
Qed.
Lemma ace0_layout_ok o a : bytes_ok (layout o a) /\ blen (layout o a) = SIZE.
Proof. unfold layout. rewrite !Forall_app, !blen_app, !blen_int_to. auto 10 with zfs. Qed.
End Ace0.

Record AclV0 : Type := { l0_object_id : option Z; l0_count : Z; l0_aces : list AceV0 }.

Module Acl0.
Definition SIZE : Z := 88.
Definition VERSION : Z := 0.
Definition PADDING_SIZE : Z := 2.
(** [aces: [AceV0; 6]] *)
Definition ACES : nat := 6.

Definition from_decoder (BD : BinaryDecoder) : SM BinaryDecoderBuffer AclDecodeError AclV0 :=
  object_id ← sm_map_err AclDBinary get_u64;
  count ← sm_map_err AclDBinary get_u32;
  version ← sm_map_err AclDBinary get_u16;
  sm_map_err AclDBinary (d_skip_zeros PADDING_SIZE);;
  sm_guard (negb (version =? VERSION)) (AclDVersion version);;
  aces ← get_each (sm_map_err AclDAce (Ace0.from_decoder BD)) ACES;
  mret {| l0_object_id := object_ref object_id; l0_count := count; l0_aces := aces |}.

Definition to_encoder (BE : BinaryEncoder) (l : AclV0) : SM BinaryEncoderBuffer AclEncodeError unit :=
  sm_map_err AclEBinary (put_u64 (default 0 (l0_object_id l)));;
  sm_map_err AclEBinary (put_u32 (l0_count l));;
  sm_map_err AclEBinary (put_u16 VERSION);;
  sm_map_err AclEBinary (put_zeros PADDING_SIZE);;
  put_each (fun a => sm_map_err AclEAce (Ace0.to_encoder BE a)) (l0_aces l).

Definition wf (l : AclV0) : Prop :=
  ref_wf (l0_object_id l) /\ fits 32 (l0_count l) /\ length (l0_aces l) = ACES /\ Forall Ace0.wf (l0_aces l).
Definition layout (o : EndianOrder) (l : AclV0) : bytes :=
  int_to o 8 (default 0 (l0_object_id l)) ++ int_to o 4 (l0_count l) ++ int_to o 2 VERSION ++ zrep PADDING_SIZE 0 ++
  flat_map (Ace0.layout o) (l0_aces l).

Lemma hoare_acl0 BD {L : BinaryDecoderLaws BD} w : hoare (DecoderBuffer.inv w) (from_decoder BD) wf.
Proof.
  unfold from_decoder. do 5 ccall. eapply hoare_bind; [apply hoare_get_each, hoare_map_err, Ace0.hoare_ace0; exact L|].
  intros aces [Hn Ha]. apply hoare_ret. cbv beta in *. unfold wf; cbn. splits; try assumption. now apply object_ref_wf.
Qed.
Lemma acl0_reads o l : wf l -> reads (from_decoder (endian_decoder o)) (layout o l) l.
Proof.
  intros (Ho & ? & Hn & Ha). apply ref_code in Ho as [? Eo]. unfold from_decoder, layout. do 2 cread.
  eapply reads_bind; [apply r_u16; vm_compute; split; congruence|]. eapply reads_bind; [now apply r_zeros|]. cguard; [done|].
  apply reads_last. rewrite <- Hn. eapply reads_bind.
  { apply reads_get_each. eapply Forall_impl; [exact Ha|]. intros a Hw. now apply reads_map_err, Ace0.ace0_reads. }
  rewrite Eo. destruct l; apply reads_ret.
Qed.
Lemma acl0_writes o l : wf l -> writes (to_encoder (endian_encoder o) l) (layout o l).
Proof.
  intros (_ & _ & _ & Ha). unfold to_encoder, layout. do 3 cwrite. eapply writes_bind; [now apply w_zeros|].
  apply writes_put_each. eapply Forall_impl; [exact Ha|]. intros a Hw. now apply writes_map_err, Ace0.ace0_writes.
Qed.
Lemma acl0_layout_ok o l : wf l -> bytes_ok (layout o l) /\ blen (layout o l) = SIZE.
Proof.
  intros (_ & _ & Hn & Ha). unfold layout. rewrite !Forall_app, !blen_app, !blen_int_to.
  rewrite (blen_flat_map (Ace0.layout o) 12) by (apply Forall_true; intros a; apply Ace0.ace0_layout_ok).
  unfold blen at 2. rewrite Hn. split; [|done]. splits; auto using bytes_ok_zrep with zfs.
  apply bytes_ok_flat_map, Forall_true. intros a. apply Ace0.ace0_layout_ok.
Qed.
End Acl0.

(** ** Version 1 *)
Record AceV1Header : Type := { h1_type : AceType.t; h1_flags : Z; h1_permissions : Z }.
(** [AceV1Simple], [AceV1Id] and [AceV1Object] under their constructors. *)
Inductive AceV1 : Type :=
| AceSimple (header : AceV1Header)
| AceId (header : AceV1Header) (id : Z)
| AceObject (header : AceV1Header) (object_guid inherit_guid : bytes).

Module Ace1.
Definition HEADER_SIZE : Z := 8.

Definition header_from_decoder (BD : BinaryDecoder) : SM BinaryDecoderBuffer AceDecodeError AceV1Header :=
  code ← sm_map_err AceDBinary get_u16;
  ace_type ← sm_lift (map_err AceDType (AceType.try_from code));
  flags ← sm_map_err AceDBinary get_u16;
  permissions ← sm_map_err AceDBinary get_u32;
  sm_guard (negb (within AcePermission.MASK permissions)) (AceDPermissions permissions);;
  sm_guard (negb (within AceFlag.MASK flags)) (AceDFlags flags);;
  mret {| h1_type := ace_type; h1_flags := flags; h1_permissions := permissions |}.

Definition header_to_encoder (BE : BinaryEncoder) (h : AceV1Header) : SM BinaryEncoderBuffer AceEncodeError unit :=
  sm_guard (negb (within AcePermission.MASK (h1_permissions h))) (AceEPermissions (h1_permissions h));;
  sm_guard (negb (within AceFlag.MASK (h1_flags h))) (AceEFlags (h1_flags h));;
  sm_guard (negb (AceType.basic (h1_type h))) (AceEUnexpectedType (h1_type h));;
  sm_map_err AceEBinary (put_u16 (AceType.into_u16 (h1_type h)));;
  sm_map_err AceEBinary (put_u16 (h1_flags h));;
  sm_map_err AceEBinary (put_u32 (h1_permissions h)).

(** What follows a header: two GUIDs, nothing, or an identifier. *)
Inductive shape : Type := ShObject | ShSimple | ShId.
Definition shape_of (h : AceV1Header) : shape :=
  match h1_type h with
  | AceType.AccessAllowObject | AceType.AccessDenyObject | AceType.SystemAuditObject | AceType.SystemAlarmObject => ShObject
  | AceType.Allow | AceType.Deny =>
      let ty := Z.land (h1_flags h) AceFlag.TYPE in
      if (ty =? AceFlag.OWNER) || (ty =? AceFlag.OWNING_GROUP) || (ty =? AceFlag.EVERYONE) then ShSimple else ShId
  | _ => ShId
  end.

(** A header and what follows it. *)
Definition entry_from_decoder (BD : BinaryDecoder) : SM BinaryDecoderBuffer AceDecodeError (option AceV1) :=
  header ← header_from_decoder BD;
  match shape_of header with
  | ShObject =>
      object_guid ← sm_map_err AceDBinary (get_bytes_n 16);
      inherit_guid ← sm_map_err AceDBinary (get_bytes_n 16);
      mret (Some (AceObject header object_guid inherit_guid))
  | ShSimple => mret (Some (AceSimple header))
  | ShId => id ← sm_map_err AceDBinary get_u64; mret (Some (AceId header id))
  end.
(** [AceV1Iterator::next]: [Ok None] is the end, an error is an item that failed. *)
Definition next (BD : BinaryDecoder) : SM BinaryDecoderBuffer AceDecodeError (option AceV1) :=
  b ← sm_get;
  if DecoderBuffer.is_empty b then mret None
  else
    entry_from_decoder BD.

(** A consumer that takes items until the end or the first that failed. *)
Fixpoint take_all (BD : BinaryDecoder) (fuel : nat) : SM BinaryDecoderBuffer AceDecodeError (list AceV1) :=
  item ← next BD;
  match item, fuel with
  | None, _ => mret []
  | Some a, S fuel' => rest ← take_all BD fuel'; mret (a :: rest)
  | Some _, O => sm_panic
  end.

Definition header_wf (h : AceV1Header) : Prop :=
  fits 16 (h1_flags h) /\ fits 32 (h1_permissions h) /\
  within AcePermission.MASK (h1_permissions h) = true /\ within AceFlag.MASK (h1_flags h) = true.
Definition guid_wf (g : bytes) : Prop := blen g = 16 /\ bytes_ok g.
Definition wf (a : AceV1) : Prop :=
  match a with
  | AceSimple h => header_wf h /\ shape_of h = ShSimple
  | AceId h id => header_wf h /\ shape_of h = ShId /\ fits 64 id
  | AceObject h g i => header_wf h /\ shape_of h = ShObject /\ guid_wf g /\ guid_wf i
  end.
Definition header_layout (o : EndianOrder) (h : AceV1Header) : bytes :=
  int_to o 2 (AceType.into_u16 (h1_type h)) ++ int_to o 2 (h1_flags h) ++ int_to o 4 (h1_permissions h).
Definition layout (o : EndianOrder) (a : AceV1) : bytes :=
  match a with
  | AceSimple h => header_layout o h
  | AceId h id => header_layout o h ++ int_to o 8 id
  | AceObject h g i => header_layout o h ++ g ++ i
  end.

Lemma hoare_header1 BD {L : BinaryDecoderLaws BD} w : hoare (DecoderBuffer.inv w) (header_from_decoder BD) header_wf.
Proof.
  unfold header_from_decoder. repeat ccall. apply hoare_ret. cbv beta in *.
  repeat match goal with H : negb _ = false |- _ => apply negb_false_iff in H end. now splits.
Qed.
Lemma hoare_next1 BD {L : BinaryDecoderLaws BD} w :
  hoare (DecoderBuffer.inv w) (next BD) (fun r => match r with Some a => wf a | None => True end).
Proof.
  unfold next, entry_from_decoder. eapply hoare_bind; [apply hoare_get|]. intros b Hb.
  destruct (DecoderBuffer.is_empty b); [now apply hoare_ret|].
  eapply hoare_bind; [apply hoare_header1; exact L|]. intros h Hh. destruct (shape_of h) eqn:E.
  - do 2 ccall. apply hoare_ret. cbn. auto.
  - now apply hoare_ret.
  - ccall. apply hoare_ret. cbn. auto.
Qed.

Lemma header1_reads o h : header_wf h -> reads (header_from_decoder (endian_decoder o)) (header_layout o h) h.
Proof.
  intros (? & ? & Hp & Hf). unfold header_from_decoder, header_layout.
  eapply reads_bind; [apply r_u16; auto with zfs|]. eapply reads_bind_nil; [eapply r_code, AceType.ace_type_try_from_into|].
  cread. apply reads_last. cread. cguard; [now rewrite Hp|]. cguard; [now rewrite Hf|]. destruct h; apply reads_ret.
Qed.
Lemma header1_writes o h :
  header_wf h -> AceType.basic (h1_type h) = true -> writes (header_to_encoder (endian_encoder o) h) (header_layout o h).
Proof.
  intros (_ & _ & Hp & Hf) Ht. unfold header_to_encoder, header_layout.
  eapply writes_bind_nil; [apply writes_guard; now rewrite Hp|]. eapply writes_bind_nil; [apply writes_guard; now rewrite Hf|].
  eapply writes_bind_nil; [apply writes_guard; now rewrite Ht|]. do 2 cwrite. apply w_u32.
Qed.

(** The length of an entry is determined by its header. *)
Definition body_size (s : shape) : Z := match s with ShObject => 32 | ShSimple => 0 | ShId => 8 end.
Lemma blen_header1 o h : blen (header_layout o h) = HEADER_SIZE.
Proof. unfold header_layout. now rewrite !blen_app, !blen_int_to. Qed.
Lemma ace1_layout_ok o a : wf a -> bytes_ok (layout o a) /\ 8 <= blen (layout o a).
Proof.
  intros Ha. assert (Hh : forall h, bytes_ok (header_layout o h)) by (intros; unfold header_layout; rewrite !Forall_app; auto with zfs).
  destruct a as [h|h id|h g i]; cbn [layout]; rewrite ?Forall_app, ?blen_app, ?blen_header1, ?blen_int_to.
  - split; [apply Hh|done].
  - split; [auto with zfs|]. unfold HEADER_SIZE. lia.
  - destruct Ha as (_ & _ & [Hg ?] & [Hi ?]). rewrite Hg, Hi. split; [auto|done].
Qed.
Lemma next1_reads o a : wf a -> reads (next (endian_decoder o)) (layout o a) (Some a).
Proof.
  intros Ha b r Hb Hr. destruct (ace1_layout_ok o a Ha) as [_ Hl].
  unfold next. rewrite (SM_run sm_get _ b b b eq_refl).
  replace (DecoderBuffer.is_empty b) with false.
  2:{ unfold DecoderBuffer.is_empty. rewrite DecoderBuffer.len_remaining, Hr, blen_app by done. pose proof (blen_nonneg r). lia. }
  revert b r Hb Hr.
  change (reads (entry_from_decoder (endian_decoder o)) (layout o a) (Some a)). unfold entry_from_decoder.
  destruct a as [h|h id|h g i]; cbn [layout wf] in *.
  - destruct Ha as [Hh E]. apply reads_last. eapply reads_bind; [now apply header1_reads|]. rewrite E. apply reads_ret.
  - destruct Ha as (Hh & E & ?). eapply reads_bind; [now apply header1_reads|]. rewrite E. apply reads_last. cread. apply reads_ret.
  - destruct Ha as (Hh & E & [Hg _] & [Hi _]). eapply reads_bind; [now apply header1_reads|]. rewrite E. cread. apply reads_last. cread.
    apply reads_ret.
Qed.

Lemma take_all_reads o l : Forall wf l -> forall fuel, (length l <= fuel)%nat ->
  ends (take_all (endian_decoder o) fuel) (flat_map (layout o) l) l.
Proof.
  induction 1 as [|a l Ha _ IH]; intros fuel Hf b Hb Hr.
  - cbn [flat_map] in *. assert (He : next (endian_decoder o) b = (Ok None, b)).
    { unfold next. rewrite (SM_run sm_get _ b b b eq_refl). unfold DecoderBuffer.is_empty.
      now rewrite DecoderBuffer.len_remaining, Hr by done. }
    destruct fuel; cbn [take_all]; rewrite (SM_run _ _ _ _ _ He), blen_nil, advance_0; reflexivity.
  - destruct fuel as [|fuel]; [cbn in Hf; lia|]. cbn [flat_map take_all].
    revert b Hb Hr. change (ends (item ← next (endian_decoder o);
      match item with
      | Some a => rest ← take_all (endian_decoder o) fuel; mret (a :: rest)
      | None => mret []
      end) (layout o a ++ flat_map (layout o) l) (a :: l)).
    eapply ends_bind; [now apply next1_reads|]. eapply ends_last; [apply IH; cbn in Hf; lia|]. apply reads_ret.
Qed.

(** Every item takes at least its header. *)
Lemma header1_consumes o : consumes 8 (header_from_decoder (endian_decoder o)).
Proof.
  change 8 with (2 + (0 + (2 + (4 + (0 + (0 + 0)))))). unfold header_from_decoder.
  apply consumes_bind; [apply consumes_map_err, consumes_int; lia|]. intros c.
  apply consumes_bind; [apply consumes_pure|]. intros t.
  apply consumes_bind; [apply consumes_map_err, consumes_int; lia|]. intros f.
  apply consumes_bind; [apply consumes_map_err, consumes_int; lia|]. intros p.
  apply consumes_bind; [apply consumes_pure|]. intros _. apply consumes_bind; [apply consumes_pure|]. intros _.
  apply (consumes_pure (Ok _)).
Qed.
Lemma next1_consumes o b a b' :
  DecoderBuffer.wf b -> next (endian_decoder o) b = (Ok (Some a), b') -> DecoderBuffer.len b' <= DecoderBuffer.len b - 8.
Proof.
  intros Hb Hr. unfold next in Hr. rewrite (SM_run sm_get _ b b b eq_refl) in Hr.
  destruct (DecoderBuffer.is_empty b); [discriminate|]. apply SM_bind_ok in Hr as (h & b1 & H1 & H2).
  destruct (header1_consumes o b h b1 Hb H1) as [Hb1 Hl1]. destruct (shape_of h).
  - apply SM_bind_ok in H2 as (g & b2 & H2 & H3). apply SM_bind_ok in H3 as (i & b3 & H3 & H4). injection H4 as _ <-.
    destruct (consumes_map_err 16 AceDBinary _ (consumes_get_bytes 16 ltac:(lia)) b1 g b2 Hb1 H2) as [Hb2 Hl2].
    destruct (consumes_map_err 16 AceDBinary _ (consumes_get_bytes 16 ltac:(lia)) b2 i b3 Hb2 H3) as [Hb3 Hl3]. lia.
  - injection H2 as _ <-. lia.
  - apply SM_bind_ok in H2 as (i & b2 & H2 & H3). injection H3 as _ <-.
    destruct (consumes_map_err 8 AceDBinary _ (consumes_int o 8 ltac:(lia)) b1 i b2 Hb1 H2) as [_ Hl2]. lia.
Qed.
Lemma take_all_total o w fuel : forall b,
  DecoderBuffer.inv w b -> DecoderBuffer.len b <= 8 * Z.of_nat fuel ->
  safe (Forall wf) (fst (take_all (endian_decoder o) fuel b)).
Proof.
  induction fuel as [|fuel IH]; intros b Hb Hl; cbn [take_all]; unfold mbind at 1, SM_bind at 1;
    pose proof (hoare_next1 (endian_decoder o) (L := endian_decoder_laws o) w b Hb) as [Hi Hs];
    pose proof (fun a b' => next1_consumes o b a b' (proj1 Hb)) as Hc;
    destruct (next (endian_decoder o) b) as [[[a|]|e|] b1]; cbn [fst snd safe] in *; try done; try apply Forall_nil_2.
  - specialize (Hc a b1 eq_refl). pose proof (DecoderBuffer.len_remaining b1 (proj1 Hi)).
    pose proof (blen_nonneg (DecoderBuffer.remaining b1)). lia.
  - specialize (Hc a b1 eq_refl). specialize (IH b1 Hi ltac:(lia)). unfold mbind, SM_bind.
    destruct (take_all (endian_decoder o) fuel b1) as [[l|e|] b2]; cbn in *; try done. now constructor.
Qed.
End Ace1.

Record AclV1 : Type := { l1_object_id : option Z; l1_size : Z; l1_count : Z; l1_aces : bytes }.

Module Acl1.
Definition SIZE : Z := 88.
Definition VERSION : Z := 1.
Definition ACES_SIZE : Z := Ace0.SIZE * 6.

Definition from_decoder (BD : BinaryDecoder) : SM BinaryDecoderBuffer AclDecodeError AclV1 :=
  object_id ← sm_map_err AclDBinary get_u64;
  size ← sm_map_err AclDBinary get_u32;
  version ← sm_map_err AclDBinary get_u16;
  count ← sm_map_err AclDBinary get_u16;
  sm_guard (negb (version =? VERSION)) (AclDVersion version);;
  aces ← sm_map_err AclDBinary (get_bytes_n ACES_SIZE);
  mret {| l1_object_id := object_ref object_id; l1_size := size; l1_count := count; l1_aces := aces |}.

Definition to_encoder (BE : BinaryEncoder) (l : AclV1) : SM BinaryEncoderBuffer AclEncodeError unit :=
  sm_map_err AclEBinary (put_u64 (default 0 (l1_object_id l)));;
  sm_map_err AclEBinary (put_u32 (l1_size l));;
  sm_map_err AclEBinary (put_u16 VERSION);;
  sm_map_err AclEBinary (put_u16 (l1_count l));;
  sm_map_err AclEBinary (put_bytes (l1_aces l)).

Definition wf (l : AclV1) : Prop :=
  ref_wf (l1_object_id l) /\ fits 32 (l1_size l) /\ fits 16 (l1_count l) /\ blen (l1_aces l) = ACES_SIZE /\ bytes_ok (l1_aces l).
Definition layout (o : EndianOrder) (l : AclV1) : bytes :=
  int_to o 8 (default 0 (l1_object_id l)) ++ int_to o 4 (l1_size l) ++ int_to o 2 VERSION ++ int_to o 2 (l1_count l) ++ l1_aces l.

Lemma hoare_acl1 BD {L : BinaryDecoderLaws BD} w : hoare (DecoderBuffer.inv w) (from_decoder BD) wf.
Proof.
  unfold from_decoder. repeat ccall. apply hoare_ret. cbv beta in *. unfold wf; cbn. splits; try tauto. now apply object_ref_wf.
Qed.
Lemma acl1_reads o l : wf l -> reads (from_decoder (endian_decoder o)) (layout o l) l.
Proof.
  intros (Ho & ? & ? & Hl & _). apply ref_code in Ho as [? Eo]. unfold from_decoder, layout. do 2 cread.
  eapply reads_bind; [apply r_u16; vm_compute; split; congruence|]. cread. cguard; [done|]. apply reads_last. cread.
  rewrite Eo. destruct l; apply reads_ret.
Qed.
Lemma acl1_refused o l : returns (fun _ => False) (to_encoder (endian_encoder o) l).
Proof. unfold to_encoder. do 4 (eapply returns_bind; [apply returns_true|intros _ _]). apply w_bytes_refused. Qed.
Lemma acl1_layout_ok o l : wf l -> bytes_ok (layout o l) /\ blen (layout o l) = SIZE.
Proof.
  intros (_ & _ & _ & Hl & Hb). unfold layout. rewrite !Forall_app, !blen_app, !blen_int_to, Hl. auto 10 with zfs.
Qed.
End Acl1.

(** ** Either version *)
Inductive Acl : Type := AclOld (acl : AclV0) | AclNew (acl : AclV1).

Module AclRec.
Definition SIZE : Z := 88.

(** The version is twelve bytes in: it is read ahead and the decoder goes back. *)
Definition from_decoder (BD : BinaryDecoder) : SM BinaryDecoderBuffer AclDecodeError Acl :=
  offset ← sm_gets offset;
  sm_map_err AclDBinary (d_skip 12);;
  version ← sm_map_err AclDBinary get_u16;
  sm_map_err AclDBinary (d_seek offset);;
  if version =? Acl0.VERSION then acl ← Acl0.from_decoder BD; mret (AclOld acl)
  else if version =? Acl1.VERSION then acl ← Acl1.from_decoder BD; mret (AclNew acl)
  else sm_err (AclDVersion version).

Definition to_encoder (BE : BinaryEncoder) (a : Acl) : SM BinaryEncoderBuffer AclEncodeError unit :=
  match a with AclOld acl => Acl0.to_encoder BE acl | AclNew acl => Acl1.to_encoder BE acl end.

Definition wf (a : Acl) : Prop := match a with AclOld l => Acl0.wf l | AclNew l => Acl1.wf l end.
Definition layout (o : EndianOrder) (a : Acl) : bytes :=
  match a with AclOld l => Acl0.layout o l | AclNew l => Acl1.layout o l end.

Lemma hoare_acl BD {L : BinaryDecoderLaws BD} w : hoare (DecoderBuffer.inv w) (from_decoder BD) wf.
Proof.
  unfold from_decoder. eapply (hoare_bind _ _ _ (fun _ => True)); [now apply hoare_gets|]. intros off _. do 2 ccall.
  eapply hoare_bind; [apply hoare_map_err, law_seek|]. intros _ _.
  destruct (_ =? Acl0.VERSION); [|destruct (_ =? Acl1.VERSION); [|apply hoare_err]].
  - eapply hoare_bind; [apply Acl0.hoare_acl0; exact L|]. intros l Hl. now apply hoare_ret.
  - eapply hoare_bind; [apply Acl1.hoare_acl1; exact L|]. intros l Hl. now apply hoare_ret.
Qed.

Lemma acl_reads o a : wf a -> reads (from_decoder (endian_decoder o)) (layout o a) a.
Proof.
  intros Ha. unfold from_decoder.
  destruct a as [l|l]; cbn [layout wf] in *.
  - pose proof (Acl0.acl0_reads o l Ha) as Hr. unfold Acl0.layout in *. rewrite (app_assoc (int_to o 8 _)) in *.
    apply (reads_look_ahead o AclDBinary _ 12); [now rewrite blen_app, !blen_int_to|vm_compute; split; congruence|].
    cbn [Z.eqb Acl0.VERSION]. apply reads_last. eapply reads_bind; [exact Hr|]. apply reads_ret.
  - pose proof (Acl1.acl1_reads o l Ha) as Hr. unfold Acl1.layout in *. rewrite (app_assoc (int_to o 8 _)) in *.
    apply (reads_look_ahead o AclDBinary _ 12); [now rewrite blen_app, !blen_int_to|vm_compute; split; congruence|].
    cbn. apply reads_last. eapply reads_bind; [exact Hr|]. apply reads_ret.
Qed.
Lemma acl_layout_ok o a : wf a -> bytes_ok (layout o a) /\ blen (layout o a) = SIZE.
Proof. destruct a; [apply Acl0.acl0_layout_ok|apply Acl1.acl1_layout_ok]. Qed.
End AclRec.

(** The entries of a version 1 list, laid out one after the other, are what the
    iterator gives, in order and up to the end.  On any bytes it comes to an end or to
    an item that failed within one item for every eight bytes, without a panic,
    and the items it gave are well formed. *)
Theorem aces_read_back o (l : list AceV1) (data : bytes) :
  Forall Ace1.wf l -> bytes_ok data ->
  with_decoder o (fun BD => Ace1.take_all BD (length l)) (flat_map (Ace1.layout o) l) = Ok l /\
  safe (Forall Ace1.wf) (with_decoder o (fun BD => Ace1.take_all BD (Z.to_nat (blen data / 8 + 1))) data).
Proof.
  intros Hl Hd. split.
  - apply with_decoder_ends; [now apply Ace1.take_all_reads|]. apply bytes_ok_flat_map.
    eapply Forall_impl; [exact Hl|]. intros a Ha. now apply Ace1.ace1_layout_ok.
  - apply (Ace1.take_all_total o (data, 0, blen data)); [split; [now apply DecoderBuffer.wf_from_bytes|done]|].
    rewrite DecoderBuffer.len_remaining, DecoderBuffer.remaining_from_bytes by now apply DecoderBuffer.wf_from_bytes.
    pose proof (blen_nonneg data). rewrite Z2Nat.id by (Z.div_mod_to_equations; lia). Z.div_mod_to_equations; lia.
Qed.

Definition sample_aces : list AceV1 := [
  AceSimple {| h1_type := AceType.Allow; h1_flags := AceFlag.OWNER; h1_permissions := AcePermission.READ_DATA |};
  AceId {| h1_type := AceType.Deny; h1_flags := AceFlag.IDENTIFIER_GROUP; h1_permissions := AcePermission.DELETE |} 1000;
  AceObject {| h1_type := AceType.AccessAllowObject; h1_flags := 0; h1_permissions := 3 |} (zrep 16 7) (zrep 16 9);
  AceSimple {| h1_type := AceType.Allow; h1_flags := AceFlag.EVERYONE; h1_permissions := 0 |}].
Lemma sample_aces_wf : Forall Ace1.wf sample_aces.
Proof.
  unfold sample_aces. repeat constructor; cbn; try (vm_compute; congruence); try reflexivity; unfold is_byte; lia.
Qed.
Lemma aces_read_back_witness :
  with_decoder Big (fun BD => Ace1.take_all BD 4) (flat_map (Ace1.layout Big) sample_aces) = Ok sample_aces /\
  safe (Forall Ace1.wf) (with_decoder Big (fun BD => Ace1.take_all BD (Z.to_nat (blen (zrep 20 0) / 8 + 1))) (zrep 20 0)).
Proof. apply (aces_read_back Big sample_aces (zrep 20 0)); [exact sample_aces_wf|apply bytes_ok_zrep]. Defined.
