(* ===== verification/Zpl.v ===== *)
(** * Znodes (src/phys/zpl.rs)

    The attributes of a file as older file systems keep them in the bonus of its
    dnode: times, mode, links and an access control list.  A znode decodes from
    its layout; one with a version 0 list also encodes, and gives that layout; one
    with a version 1 list cannot be encoded. *)

From stdpp Require Import pretty.
From S2P Require Import Prelude Errors Decoder Encoder Codec Dsl Acl.

Open Scope Z_scope.
Open Scope list_scope.

Module ZplVersion.
Inductive t : Type := V1 | V2 | V3 | V4 | V5.
Definition into_u64 (x : t) : Z := match x with V1 => 1 | V2 => 2 | V3 => 3 | V4 => 4 | V5 => 5 end.
(** The error is the unknown version. *)
Definition try_from (version : Z) : outcome Z t :=
  match version with 1 => Ok V1 | 2 => Ok V2 | 3 => Ok V3 | 4 => Ok V4 | 5 => Ok V5 | _ => Err version end.
(** [Display] prints the number. *)
Definition display (x : t) : string := pretty (into_u64 x).

Lemma zpl_version_exact v x : try_from v = Ok x <-> v = into_u64 x.
Proof.
  split; [|intros ->; now destruct x]. unfold try_from. repeat case_match; try discriminate; intros [= <-]; reflexivity.
Qed.
End ZplVersion.

Module ZnodeFileType.
Inductive t : Type := Fifo | Character | Directory | Block | Regular | Symlink | Socket | Door | EventPort.
#[global] Instance file_type_eq_dec : EqDecision t. Proof. solve_decision. Defined.
Definition into_u8 (x : t) : Z :=
  match x with
  | Fifo => 1 | Character => 2 | Directory => 4 | Block => 6 | Regular => 8 | Symlink => 10 | Socket => 12 | Door => 13
  | EventPort => 14
  end.
Definition display (x : t) : string :=
  match x with
  | Fifo => "Fifo" | Character => "Character" | Directory => "Directory" | Block => "Block" | Regular => "Regular"
  | Symlink => "Symlink" | Socket => "Socket" | Door => "Door" | EventPort => "EventPort"
  end%string.
(** The error is the unknown type. *)
Definition try_from (file_type : Z) : outcome Z t :=
  match file_type with
  | 1 => Ok Fifo | 2 => Ok Character | 4 => Ok Directory | 6 => Ok Block | 8 => Ok Regular | 10 => Ok Symlink
  | 12 => Ok Socket | 13 => Ok Door | 14 => Ok EventPort
  | _ => Err file_type
  end.
Lemma file_type_try_from_into x : try_from (into_u8 x) = Ok x.
Proof. now destruct x. Qed.
Lemma file_type_safe c : safe (fun _ => True) (try_from c).
Proof. unfold try_from. repeat case_match; done. Qed.
Lemma file_type_nibble x : 0 <= into_u8 x < 16.
Proof. destruct x; cbn; lia. Qed.
End ZnodeFileType.
#[export] Hint Resolve ZnodeFileType.file_type_safe : zfs codec.

Module ZnodePermission.
Definition SUID : Z := 0x800. (* 0o4000 *)
Definition SGID : Z := 0x400. (* 0o2000 *)
Definition STCK : Z := 0x200. (* 0o1000 *)
Definition USR_R : Z := 0x100. (* 0o0400 *)
Definition USR_W : Z := 0x080. (* 0o0200 *)
Definition USR_X : Z := 0x040. (* 0o0100 *)
Definition GRP_R : Z := 0x020. (* 0o0040 *)
Definition GRP_W : Z := 0x010. (* 0o0020 *)
Definition GRP_X : Z := 0x008. (* 0o0010 *)
Definition OTH_R : Z := 0x004. (* 0o0004 *)
Definition OTH_W : Z := 0x002. (* 0o0002 *)
Definition OTH_X : Z := 0x001. (* 0o0001 *)
Definition MASK : Z := 0xfff. (* 0o7777 *)
End ZnodePermission.

Record ZnodeTime : Type := { seconds : Z; nanoseconds : Z }.
Record Znode : Type := {
  access_time : ZnodeTime;
  modified_time : ZnodeTime;
  change_time : ZnodeTime;
  creation_time : ZnodeTime;
  zn_creation_txg : Z;
  permission_bits : Z;
  file_type : ZnodeFileType.t;
  zn_size : Z;
  parent_object_id : Z;
  num_links : Z;
  xattr_object_id : option Z;
  device_number : Z;
  zn_flags : Z;
  user_id : Z;
  group_id : Z;
  extra_attributes : Z;
  acl : Acl
}.

Module Time.
Definition from_decoder (BD : BinaryDecoder) : SM BinaryDecoderBuffer BinaryDecodeError ZnodeTime :=
  s ← get_u64; n ← get_u64; mret {| seconds := s; nanoseconds := n |}.
Definition to_encoder (BE : BinaryEncoder) (t : ZnodeTime) : SM BinaryEncoderBuffer BinaryEncodeError unit :=
  put_u64 (seconds t);; put_u64 (nanoseconds t).
Definition wf (t : ZnodeTime) : Prop := fits 64 (seconds t) /\ fits 64 (nanoseconds t).
Definition layout (o : EndianOrder) (t : ZnodeTime) : bytes := int_to o 8 (seconds t) ++ int_to o 8 (nanoseconds t).

Lemma hoare_time BD {L : BinaryDecoderLaws BD} {E} (g : BinaryDecodeError -> E) w :
  hoare (DecoderBuffer.inv w) (sm_map_err g (from_decoder BD)) wf.
Proof.
  apply hoare_map_err. eapply hoare_bind; [apply law_u64|]. intros s Hs. eapply hoare_bind; [apply law_u64|]. intros n Hn.
  now apply hoare_ret.
Qed.
Lemma time_reads {E} (g : BinaryDecodeError -> E) o t : wf t -> reads (sm_map_err g (from_decoder (endian_decoder o))) (layout o t) t.
Proof.
  intros [Hs Hn]. apply reads_map_err. unfold from_decoder, layout. eapply reads_bind; [now apply (reads_get_int o 8)|].
  apply reads_last. eapply reads_bind; [now apply (reads_get_int o 8)|]. destruct t; apply reads_ret.
Qed.
Lemma time_writes {E} (h : BinaryEncodeError -> E) o t : writes (sm_map_err h (to_encoder (endian_encoder o) t)) (layout o t).
Proof. apply writes_map_err. eapply writes_bind; apply writes_put_int. Qed.
Lemma time_layout_ok o t : bytes_ok (layout o t) /\ blen (layout o t) = 16.
Proof. unfold layout. rewrite Forall_app, blen_app, !blen_int_to. auto with zfs. Qed.
End Time.
#[export] Hint Resolve Time.hoare_time Time.time_reads Time.time_writes : codec.

Inductive ZnodeDecodeError : Type :=
| ZnDAcl (err : AclDecodeError)
| ZnDBinary (err : BinaryDecodeError)
| ZnDFileType (file_type : Z)
| ZnDMissingParentObjectId
| ZnDMode (mode : Z).
Inductive ZnodeEncodeError : Type :=
| ZnEAcl (err : AclEncodeError)
| ZnEBinary (err : BinaryEncodeError)
| ZnEMissingParentObjectId
| ZnEPermissions (permissions : Z).

Module Zn.
Definition SIZE : Z := 512.
Definition PADDING_SIZE : Z := 24.
Definition MODE_UNKNOWN_MASK : Z := Z.lxor (2 ^ 64 - 1) (Z.shiftl 1 16 - 1).
Definition MODE_FILE_TYPE_MASK_DOWN_SHIFTED : Z := 0xf.
Definition MODE_FILE_TYPE_SHIFT : Z := 12.

(** The parts of a mode word. *)
Definition mode_permissions (mode : Z) : Z := wrap 16 (Z.land mode ZnodePermission.MASK).
Definition mode_file_type (mode : Z) : Z := wrap 8 (Z.land (Z.shiftr mode MODE_FILE_TYPE_SHIFT) MODE_FILE_TYPE_MASK_DOWN_SHIFTED).
Definition mode_of (z : Znode) : Z :=
  Z.lor (Z.shiftl (ZnodeFileType.into_u8 (file_type z)) MODE_FILE_TYPE_SHIFT) (permission_bits z).

Definition from_decoder (BD : BinaryDecoder) : SM BinaryDecoderBuffer ZnodeDecodeError Znode :=
  access_time ← sm_map_err ZnDBinary (Time.from_decoder BD);
  modified_time ← sm_map_err ZnDBinary (Time.from_decoder BD);
  change_time ← sm_map_err ZnDBinary (Time.from_decoder BD);
  creation_time ← sm_map_err ZnDBinary (Time.from_decoder BD);
  creation_txg ← sm_map_err ZnDBinary get_u64;
  mode ← sm_map_err ZnDBinary get_u64;
  sm_guard (negb (Z.land mode MODE_UNKNOWN_MASK =? 0)) (ZnDMode mode);;
  file_type ← sm_lift (map_err ZnDFileType (ZnodeFileType.try_from (mode_file_type mode)));
  size ← sm_map_err ZnDBinary get_u64;
  parent_object_id ← sm_map_err ZnDBinary get_u64;
  sm_guard (parent_object_id =? 0) ZnDMissingParentObjectId;;
  num_links ← sm_map_err ZnDBinary get_u64;
  xattr_object_id ← sm_map_err ZnDBinary get_u64;
  device_number ← sm_map_err ZnDBinary get_u64;
  flags ← sm_map_err ZnDBinary get_u64;
  user_id ← sm_map_err ZnDBinary get_u64;
  group_id ← sm_map_err ZnDBinary get_u64;
  extra_attributes ← sm_map_err ZnDBinary get_u64;
  sm_map_err ZnDBinary (d_skip_zeros PADDING_SIZE);;
  acl ← sm_map_err ZnDAcl (AclRec.from_decoder BD);
  mret {| access_time := access_time; modified_time := modified_time; change_time := change_time;
          creation_time := creation_time; zn_creation_txg := creation_txg; permission_bits := mode_permissions mode;
          file_type := file_type; zn_size := size; parent_object_id := parent_object_id; num_links := num_links;
          xattr_object_id := object_ref xattr_object_id; device_number := device_number; zn_flags := flags;
          user_id := user_id; group_id := group_id; extra_attributes := extra_attributes; acl := acl |}.

Definition to_encoder (BE : BinaryEncoder) (z : Znode) : SM BinaryEncoderBuffer ZnodeEncodeError unit :=
  sm_map_err ZnEBinary (Time.to_encoder BE (access_time z));;
  sm_map_err ZnEBinary (Time.to_encoder BE (modified_time z));;
  sm_map_err ZnEBinary (Time.to_encoder BE (change_time z));;
  sm_map_err ZnEBinary (Time.to_encoder BE (creation_time z));;
  sm_map_err ZnEBinary (put_u64 (zn_creation_txg z));;
  sm_guard (negb (within ZnodePermission.MASK (permission_bits z))) (ZnEPermissions (permission_bits z));;
  sm_map_err ZnEBinary (put_u64 (mode_of z));;
  sm_map_err ZnEBinary (put_u64 (zn_size z));;
  sm_guard (parent_object_id z =? 0) ZnEMissingParentObjectId;;
  sm_map_err ZnEBinary (put_u64 (parent_object_id z));;
  sm_map_err ZnEBinary (put_u64 (num_links z));;
  sm_map_err ZnEBinary (put_u64 (default 0 (xattr_object_id z)));;
  sm_map_err ZnEBinary (put_u64 (device_number z));;
  sm_map_err ZnEBinary (put_u64 (zn_flags z));;
  sm_map_err ZnEBinary (put_u64 (user_id z));;
  sm_map_err ZnEBinary (put_u64 (group_id z));;
  sm_map_err ZnEBinary (put_u64 (extra_attributes z));;
  sm_map_err ZnEBinary (put_zeros PADDING_SIZE);;
  sm_map_err ZnEAcl (AclRec.to_encoder BE (acl z)).

(** ** Modes *)
Definition perms_wf (p : Z) : Prop := 0 <= p < 2 ^ 12.

Lemma known_mode mode : fits 16 mode -> Z.land mode MODE_UNKNOWN_MASK = 0.
Proof.
  intros Hm. change MODE_UNKNOWN_MASK with (Z.shiftl (Z.ones 48) 16). apply Z.bits_inj'. intros i Hi.
  rewrite Z.land_spec, Z.bits_0. destruct (Z.lt_ge_cases i 16).
  - rewrite Z.shiftl_spec_low by lia. apply andb_false_r.
  - unfold fits in Hm. destruct (Z.eq_dec mode 0) as [->|]; [now rewrite Z.bits_0|].
    rewrite Z.bits_above_log2; [done|lia|]. assert (Z.log2 mode < 16) by (apply Z.log2_lt_pow2; lia). lia.
Qed.
Lemma mode_permissions_mod mode : mode_permissions mode = mode mod 2 ^ 12.
Proof.
  unfold mode_permissions, ZnodePermission.MASK. change 0xfff with (2 ^ 12 - 1). rewrite land_ones_mod by lia.
  apply wrap_id. unfold fits. pose proof (Z.mod_pos_bound mode (2 ^ 12)). lia.
Qed.
Lemma mode_file_type_field mode : mode_file_type mode = (mode / 2 ^ 12) mod 2 ^ 4.
Proof.
  unfold mode_file_type, MODE_FILE_TYPE_SHIFT, MODE_FILE_TYPE_MASK_DOWN_SHIFTED. change 0xf with (2 ^ 4 - 1).
  rewrite land_ones_mod, shiftr_div by lia. apply wrap_id. unfold fits. pose proof (Z.mod_pos_bound (mode / 2 ^ 12) (2 ^ 4)). lia.
Qed.
Lemma mode_of_sum z : perms_wf (permission_bits z) ->
  mode_of z = permission_bits z + ZnodeFileType.into_u8 (file_type z) * 2 ^ 12.
Proof. intros Hp. unfold mode_of. rewrite Z.lor_comm. now apply lor_shiftl_add. Qed.
Lemma mode_roundtrip z : perms_wf (permission_bits z) ->
  fits 16 (mode_of z) /\ mode_permissions (mode_of z) = permission_bits z /\
  mode_file_type (mode_of z) = ZnodeFileType.into_u8 (file_type z).
Proof.
  intros Hp. pose proof (ZnodeFileType.file_type_nibble (file_type z)) as Ht.
  rewrite mode_permissions_mod, mode_file_type_field, mode_of_sum by done. unfold perms_wf, fits in *. split; [lia|].
  split; Z.div_mod_to_equations; lia.
Qed.
Lemma perms_within p : perms_wf p -> within ZnodePermission.MASK p = true.
Proof.
  intros Hp. unfold within, ZnodePermission.MASK. change 0xfff with (2 ^ 12 - 1). rewrite land_ones_mod by lia.
  rewrite Z.mod_small by done. apply Z.eqb_refl.
Qed.

(** ** Decoding and encoding *)
Definition wf (z : Znode) : Prop :=
  Time.wf (access_time z) /\ Time.wf (modified_time z) /\ Time.wf (change_time z) /\ Time.wf (creation_time z) /\
  fits 64 (zn_creation_txg z) /\ perms_wf (permission_bits z) /\ fits 64 (zn_size z) /\
  ref_wf (Some (parent_object_id z)) /\ fits 64 (num_links z) /\ ref_wf (xattr_object_id z) /\
  fits 64 (device_number z) /\ fits 64 (zn_flags z) /\ fits 64 (user_id z) /\ fits 64 (group_id z) /\
  fits 64 (extra_attributes z) /\ AclRec.wf (acl z).
Definition layout (o : EndianOrder) (z : Znode) : bytes :=
  Time.layout o (access_time z) ++ Time.layout o (modified_time z) ++ Time.layout o (change_time z) ++
  Time.layout o (creation_time z) ++ int_to o 8 (zn_creation_txg z) ++ int_to o 8 (mode_of z) ++
  int_to o 8 (zn_size z) ++ int_to o 8 (parent_object_id z) ++ int_to o 8 (num_links z) ++
  int_to o 8 (default 0 (xattr_object_id z)) ++ int_to o 8 (device_number z) ++ int_to o 8 (zn_flags z) ++
  int_to o 8 (user_id z) ++ int_to o 8 (group_id z) ++ int_to o 8 (extra_attributes z) ++ zrep PADDING_SIZE 0 ++
  AclRec.layout o (acl z).

Lemma hoare_znode BD {L : BinaryDecoderLaws BD} w : hoare (DecoderBuffer.inv w) (from_decoder BD) wf.
Proof.
  unfold from_decoder. repeat ccall. eapply hoare_bind; [apply hoare_map_err, AclRec.hoare_acl; exact L|]. intros acl0 Hacl.
  apply hoare_ret. cbv beta in *. rewrite !Z.eqb_neq in *. unfold wf; cbn. splits; try assumption.
  - unfold perms_wf. rewrite mode_permissions_mod. now apply Z.mod_pos_bound.
  - now apply object_ref_wf.
Qed.
Lemma znode_reads o z : wf z -> reads (from_decoder (endian_decoder o)) (layout o z) z.
Proof.
  intros (? & ? & ? & ? & ? & Hp & ? & [? Hpar] & ? & Hx & ? & ? & ? & ? & ? & Ha).
  destruct (mode_roundtrip z Hp) as (Hm & Ep & Et). apply ref_code in Hx as [? Ex].
  assert (fits 64 (mode_of z)) by (unfold fits in *; lia).
  unfold from_decoder, layout. do 6 cread. cguard; [now rewrite known_mode|].
  eapply reads_bind_nil; [eapply r_code; rewrite Et; apply ZnodeFileType.file_type_try_from_into|]. do 2 cread.
  cguard; [now apply Z.eqb_neq|]. do 7 cread. eapply reads_bind; [now apply r_zeros|]. apply reads_last.
  eapply reads_bind; [now apply reads_map_err, AclRec.acl_reads|]. rewrite Ex, Ep. destruct z; apply reads_ret.
Qed.
(** Everything before the list is written; the list decides about the rest. *)
Lemma znode_head_writes o z bs : wf z ->
  writes (sm_map_err ZnEAcl (AclRec.to_encoder (endian_encoder o) (acl z))) bs -> bs = AclRec.layout o (acl z) ->
  writes (to_encoder (endian_encoder o) z) (layout o z).
Proof.
  intros (_ & _ & _ & _ & _ & Hp & _ & [_ Hpar] & _) Hk ->.
  unfold to_encoder, layout. do 5 cwrite. eapply writes_bind_nil; [apply writes_guard; now rewrite perms_within|]. do 2 cwrite.
  eapply writes_bind_nil; [apply writes_guard; now apply Z.eqb_neq|]. do 8 cwrite.
  eapply writes_bind; [now apply w_zeros|]. exact Hk.
Qed.
Lemma znode_old_writes o z l : wf z -> acl z = AclOld l -> writes (to_encoder (endian_encoder o) z) (layout o z).
Proof.
  intros Hw E. eapply znode_head_writes; [done| |reflexivity]. rewrite E. apply writes_map_err, Acl0.acl0_writes.
  destruct Hw as (_ & _ & _ & _ & _ & _ & _ & _ & _ & _ & _ & _ & _ & _ & _ & Ha). now rewrite E in Ha.
Qed.
Lemma znode_new_refused o z l : acl z = AclNew l -> returns (fun _ => False) (to_encoder (endian_encoder o) z).
Proof.
  intros E. unfold to_encoder. do 18 (eapply returns_bind; [apply returns_true|intros _ _]). rewrite E.
  intros s u s' H. unfold sm_map_err in H. cbn in H.
  destruct (Acl1.to_encoder (endian_encoder o) l s) as [[u1|e|] s1] eqn:Er; try discriminate. exact (Acl1.acl1_refused o l s u1 s1 Er).
Qed.
Lemma znode_layout_ok o z : wf z -> bytes_ok (layout o z) /\ blen (layout o z) = 264.
Proof.
  intros (_ & _ & _ & _ & _ & _ & _ & _ & _ & _ & _ & _ & _ & _ & _ & Ha). destruct (AclRec.acl_layout_ok o _ Ha) as [Hb Hn].
  pose proof (fun t => proj1 (Time.time_layout_ok o t)). unfold layout.
  rewrite !Forall_app, !blen_app, !blen_int_to, Hn, !(fun t => proj2 (Time.time_layout_ok o t)).
  split; [|done]. splits; auto using bytes_ok_int_to, bytes_ok_zrep.
Qed.
End Zn.

(** The decoder reads a znode from its 264 bytes, with either kind of list, and on
    any bytes it ends without a panic and with a well formed znode.  With a list of
    version 0 those bytes are what the encoder writes; with a list of version 1 the
    encoder never succeeds, whatever the room. *)
Theorem znode_roundtrip o z data :
  Zn.wf z -> bytes_ok data ->
  with_decoder o Zn.from_decoder (Zn.layout o z) = Ok z /\ blen (Zn.layout o z) = 264 /\
  safe Zn.wf (with_decoder o Zn.from_decoder data) /\
  match acl z with
  | AclOld _ => encode_into Zn.SIZE (Zn.to_encoder (endian_encoder o) z) = Ok (Zn.layout o z)
  | AclNew _ => forall n bs, encode_into n (Zn.to_encoder (endian_encoder o) z) <> Ok bs
  end.
Proof.
  intros Hw Hd. destruct (Zn.znode_layout_ok o z Hw) as [Hb Hn]. splits.
  - now apply with_decoder_ends; [apply reads_ends, Zn.znode_reads|].
  - done.
  - apply with_decoder_safe; [|done]. intros w. apply Zn.hoare_znode, endian_decoder_laws.
  - destruct (acl z) eqn:E.
    + apply writes_encode; [eapply Zn.znode_old_writes; eauto|now rewrite Hn].
    + intros n bs H. unfold encode_into in H. destruct (Zn.to_encoder (endian_encoder o) z _) as [[u|e|] s1] eqn:Er; try discriminate.
      eapply Zn.znode_new_refused; eauto.
Qed.

Definition sample_znode (a : Acl) : Znode :=
  let t := {| seconds := 1700000000; nanoseconds := 5 |} in {|
  access_time := t; modified_time := t; change_time := t; creation_time := t; zn_creation_txg := 4;
  permission_bits := 0x1ed; file_type := ZnodeFileType.Directory; zn_size := 2; parent_object_id := 34; num_links := 2;
  xattr_object_id := None; device_number := 0; zn_flags := 0; user_id := 0; group_id := 0; extra_attributes := 0; acl := a |}.
Definition sample_acl0 : Acl := AclOld {| l0_object_id := None; l0_count := 1; l0_aces :=
  replicate 6 {| a0_id := 0; a0_permissions := AcePermission.READ_DATA; a0_flags := AceFlag.OWNER; a0_type := AceType.Allow |} |}.

Lemma sample_acl0_wf : AclRec.wf sample_acl0.
Proof.
  unfold sample_acl0, AclRec.wf, Acl0.wf. splits; [done|vm_compute; split; congruence|done|].
  repeat constructor; vm_compute; congruence.
Qed.

Lemma znode_roundtrip_witness :
  with_decoder Little Zn.from_decoder (Zn.layout Little (sample_znode sample_acl0)) = Ok (sample_znode sample_acl0) /\
  encode_into Zn.SIZE (Zn.to_encoder (endian_encoder Little) (sample_znode sample_acl0)) =
    Ok (Zn.layout Little (sample_znode sample_acl0)).
Proof.
  destruct (znode_roundtrip Little (sample_znode sample_acl0) []) as (Hd & _ & _ & He).
  - unfold Zn.wf; splits; lazymatch goal with |- AclRec.wf _ => idtac | _ => vm_compute; repeat split; congruence end.
    exact sample_acl0_wf.
  - constructor.
  - exact (conj Hd He).
Defined.
