(* ===== verification/SpaceMap.v ===== *)
(** * Space maps (src/phys/space_map.rs)

    A space map is a header, kept in a bonus, and a log of entries, one word or two,
    that allocate or free a run of sectors.  The header encodes and decodes with or
    without its histogram; the decoder of an entry accepts exactly the layouts of
    entries, so the words of an entry are determined by it. *)

From S2P Require Import Prelude Errors Decoder Encoder Codec.

Open Scope Z_scope.
Open Scope list_scope.

Inductive SpaceMapHeaderDecodeError : Type :=
| SmhDBinary (err : BinaryDecodeError) | SmhDMissingObject | SmhDNonZeroPadding.
Inductive SpaceMapHeaderEncodeError : Type :=
| SmhEBinary (err : BinaryEncodeError) | SmhEMissingObject.

Record SpaceMapHeader : Type := { obj : Z; length_bytes : Z; allocated_bytes : Z; histogram : option (list Z) }.

Module SmHeader.
Definition SIZE_EXT_NONE : Z := 24.
Definition SIZE_EXT_HISTOGRAM : Z := 280.
Definition SIZE_EXT_HISTOGRAM_PADDING : Z := 40.
Definition HISTOGRAM_BUCKETS_COUNT : nat := 32.

(** The extension is there when the decoder is not at its end. *)
Definition histogram_from_decoder (BD : BinaryDecoder) : SM BinaryDecoderBuffer SpaceMapHeaderDecodeError (option (list Z)) :=
  b ← sm_get;
  if DecoderBuffer.is_empty b then mret None
  else
    sm_map_err SmhDBinary (d_skip_zeros SIZE_EXT_HISTOGRAM_PADDING);;
    counts ← get_each (sm_map_err SmhDBinary get_u64) HISTOGRAM_BUCKETS_COUNT;
    mret (Some counts).

Definition from_decoder (BD : BinaryDecoder) : SM BinaryDecoderBuffer SpaceMapHeaderDecodeError SpaceMapHeader :=
  obj ← sm_map_err SmhDBinary get_u64;
  sm_guard (obj =? 0) SmhDMissingObject;;
  length_bytes ← sm_map_err SmhDBinary get_u64;
  allocated_bytes ← sm_map_err SmhDBinary get_u64;
  histogram ← histogram_from_decoder BD;
  mret {| obj := obj; length_bytes := length_bytes; allocated_bytes := allocated_bytes; histogram := histogram |}.

Definition to_encoder (BE : BinaryEncoder) (h : SpaceMapHeader) : SM BinaryEncoderBuffer SpaceMapHeaderEncodeError unit :=
  sm_guard (obj h =? 0) SmhEMissingObject;;
  sm_map_err SmhEBinary (put_u64 (obj h));;
  sm_map_err SmhEBinary (put_u64 (length_bytes h));;
  sm_map_err SmhEBinary (put_u64 (allocated_bytes h));;
  match histogram h with
  | Some counts =>
      sm_map_err SmhEBinary (put_zeros SIZE_EXT_HISTOGRAM_PADDING);;
      put_each (fun v => sm_map_err SmhEBinary (put_u64 v)) counts
  | None => mret tt
  end.

Definition histogram_wf (h : option (list Z)) : Prop :=
  match h with Some c => length c = HISTOGRAM_BUCKETS_COUNT /\ Forall (fits 64) c | None => True end.
Definition wf (h : SpaceMapHeader) : Prop :=
  fits 64 (obj h) /\ obj h <> 0 /\ fits 64 (length_bytes h) /\ fits 64 (allocated_bytes h) /\
  histogram_wf (histogram h).
Definition histogram_layout (o : EndianOrder) (h : option (list Z)) : bytes :=
  match h with Some c => zrep SIZE_EXT_HISTOGRAM_PADDING 0 ++ flat_map (int_to o 8) c | None => [] end.
Definition layout (o : EndianOrder) (h : SpaceMapHeader) : bytes :=
  int_to o 8 (obj h) ++ int_to o 8 (length_bytes h) ++ int_to o 8 (allocated_bytes h) ++ histogram_layout o (histogram h).

(** The length of a layout: the padding counts. *)
Definition size (h : SpaceMapHeader) : Z := match histogram h with Some _ => 320 | None => 24 end.

Lemma hoare_histogram BD {L : BinaryDecoderLaws BD} w : hoare (DecoderBuffer.inv w) (histogram_from_decoder BD) histogram_wf.
Proof.
  eapply hoare_bind; [apply hoare_get|]. intros b Hb. destruct (DecoderBuffer.is_empty b); [now apply hoare_ret|]. ccall.
  eapply hoare_bind; [apply hoare_get_each, h_u64; exact L|]. intros c Hc. now apply hoare_ret.
Qed.
Lemma hoare_space_map_header BD {L : BinaryDecoderLaws BD} w : hoare (DecoderBuffer.inv w) (from_decoder BD) wf.
Proof.
  unfold from_decoder. do 4 ccall. eapply hoare_bind; [apply hoare_histogram; exact L|]. intros c Hc. apply hoare_ret.
  cbv beta in *. rewrite !Z.eqb_neq in *. unfold wf; cbn. tauto.
Qed.

Lemma histogram_layout_ok o h : wf h ->
  bytes_ok (histogram_layout o (histogram h)) /\
  blen (histogram_layout o (histogram h)) = match histogram h with Some _ => 296 | None => 0 end.
Proof.
  intros (_ & _ & _ & _ & Hh). unfold histogram_layout. destruct (histogram h) as [c|]; [|now split]. destruct Hh as [Hn Hc].
  rewrite Forall_app, blen_app, (blen_flat_map (int_to o 8) 8) by (apply Forall_true; intros; apply blen_int_to).
  unfold blen at 2. rewrite Hn. split; [|done]. split; [apply bytes_ok_zrep|].
  apply bytes_ok_flat_map, Forall_true. auto with zfs.
Qed.
Lemma space_map_header_layout_ok o h : wf h -> bytes_ok (layout o h) /\ blen (layout o h) = size h.
Proof.
  intros Hw. destruct (histogram_layout_ok o h Hw) as [Hb Hn]. unfold layout, size.
  rewrite !Forall_app, !blen_app, !blen_int_to, Hn. split; [auto 10 with zfs|]. now destruct (histogram h).
Qed.

(** The last step of the decoder, on a buffer that ends with the header. *)
Lemma histogram_ends o h : wf h -> ends (histogram_from_decoder (endian_decoder o)) (histogram_layout o (histogram h)) (histogram h).
Proof.
  intros Hw. destruct (histogram_layout_ok o h Hw) as [_ Hn]. destruct Hw as (_ & _ & _ & _ & Hh).
  apply ends_empty; intros Hb.
  - destruct (histogram h); [now rewrite Hb in Hn|]. apply reads_ends, reads_ret.
  - destruct (histogram h) as [c|]; [|done]. destruct Hh as [Hl Hc]. unfold histogram_layout.
    eapply ends_bind; [now apply r_zeros|]. rewrite <- Hl. apply reads_ends, reads_last. eapply reads_bind; [|apply reads_ret].
    apply reads_get_each. eapply Forall_impl; [exact Hc|]. intros v Hv. now apply r_u64.
Qed.
Lemma space_map_header_ends o h : wf h -> ends (from_decoder (endian_decoder o)) (layout o h) h.
Proof.
  intros Hw. pose proof (histogram_ends o h Hw) as Hh. destruct Hw as (? & ? & ? & ? & _).
  unfold from_decoder, layout. eread. eapply ends_bind_nil; [apply reads_guard; now apply Z.eqb_neq|]. do 2 eread.
  eapply ends_last; [exact Hh|]. destruct h; apply reads_ret.
Qed.
Lemma space_map_header_writes o h : wf h -> writes (to_encoder (endian_encoder o) h) (layout o h).
Proof.
  intros (_ & Ho & _). unfold to_encoder, layout. eapply writes_bind_nil; [apply writes_guard; now apply Z.eqb_neq|].
  do 3 cwrite. destruct (histogram h) as [c|]; [|apply writes_ret]. eapply writes_bind; [now apply w_zeros|].
  apply writes_put_each, Forall_true. intros v. apply w_u64.
Qed.
End SmHeader.

(** A header encodes to as many bytes as its histogram calls for, 24 or 320, and a
    bonus that holds exactly those bytes decodes to it; on any bytes the decoder ends
    without a panic, and a header it returns has its object number and all 32
    counts when it has a histogram. *)
Theorem space_map_header_roundtrip o h data :
  SmHeader.wf h -> bytes_ok data ->
  encode_into (SmHeader.size h) (SmHeader.to_encoder (endian_encoder o) h) = Ok (SmHeader.layout o h) /\
  blen (SmHeader.layout o h) = SmHeader.size h /\
  with_decoder o SmHeader.from_decoder (SmHeader.layout o h) = Ok h /\
  safe SmHeader.wf (with_decoder o SmHeader.from_decoder data).
Proof.
  intros Hw Hd. destruct (SmHeader.space_map_header_layout_ok o h Hw) as [Hb Hn]. splits.
  - apply writes_encode; [now apply SmHeader.space_map_header_writes|lia].
  - done.
  - now apply with_decoder_ends; [apply SmHeader.space_map_header_ends|].
  - apply with_decoder_safe; [|done]. intros w. apply SmHeader.hoare_space_map_header, endian_decoder_laws.
Qed.

Definition sample_space_map_header : SpaceMapHeader :=
  {| obj := 33; length_bytes := 4096; allocated_bytes := 65536; histogram := Some (replicate 32 1) |}.
Lemma space_map_header_roundtrip_witness :
  encode_into 320 (SmHeader.to_encoder (endian_encoder Little) sample_space_map_header) =
    Ok (SmHeader.layout Little sample_space_map_header) /\
  with_decoder Little SmHeader.from_decoder (SmHeader.layout Little sample_space_map_header) = Ok sample_space_map_header.
Proof.
  destruct (space_map_header_roundtrip Little sample_space_map_header []) as (He & _ & Hd & _).
  - unfold SmHeader.wf, fits; cbn. splits; try lia; [done|]. repeat constructor; unfold fits; lia.
  - constructor.
  - exact (conj He Hd).
Defined.

(** ** Entries *)
Module SpaceMapAction.
Inductive t : Type := Allocate | Free.
Definition into_u8 (x : t) : Z := match x with Allocate => 0 | Free => 1 end.
(** The error is the unknown action. *)
Definition try_from (action : Z) : outcome Z t := match action with 0 => Ok Allocate | 1 => Ok Free | _ => Err action end.
Lemma action_try_from_into x : try_from (into_u8 x) = Ok x.
Proof. now destruct x. Qed.
Lemma action_try_from_ok c x : try_from c = Ok x -> c = into_u8 x.
Proof. unfold try_from. repeat case_match; try discriminate; intros [= <-]; reflexivity. Qed.
Lemma action_bit x : 0 <= into_u8 x < 2.
Proof. destruct x; cbn; lia. Qed.
Lemma action_safe c : safe (fun _ => True) (try_from c).
Proof. unfold try_from. repeat case_match; done. Qed.
End SpaceMapAction.

Inductive SpaceMapEntryDecodeError : Type :=
| SmeDAction (action : Z) | SmeDBinary (err : BinaryDecodeError) | SmeDPadding (padding : Z).

Record SpaceMapDebugEntry : Type := { d_action : SpaceMapAction.t; d_sync_pass : Z; d_txg : Z }.
Record SpaceMapEntryV1 : Type := { e1_action : SpaceMapAction.t; e1_offset : Z; e1_run : Z }.
Record SpaceMapEntryV2 : Type := { e2_action : SpaceMapAction.t; e2_offset : Z; e2_run : Z; e2_vdev : Z }.
Inductive SpaceMapEntry : Type :=
| EDebug (entry : SpaceMapDebugEntry) | EV1 (entry : SpaceMapEntryV1) | EV2 (entry : SpaceMapEntryV2) | EPadding.

Module SmDebug.
Definition ACTION_SHIFT : Z := 60.
Definition ACTION_MASK_DOWN_SHIFTED : Z := Z.shiftl 1 2 - 1.
Definition SYNC_PASS_SHIFT : Z := 50.
Definition SYNC_PASS_MASK_DOWN_SHIFTED : Z := Z.shiftl 1 10 - 1.
Definition TXG_MASK : Z := Z.shiftl 1 50 - 1.
Definition PADDING_VALUE : Z := Z.shiftl 1 63.
Definition SYNC_PASS_MAX : Z := wrap 16 SYNC_PASS_MASK_DOWN_SHIFTED.
End SmDebug.
Module SmV1.
Definition ACTION_SHIFT : Z := 15.
Definition ACTION_MASK_DOWN_SHIFTED : Z := 1.
Definition OFFSET_SHIFT : Z := 16.
Definition OFFSET_MASK_DOWN_SHIFTED : Z := Z.shiftl 1 47 - 1.
Definition RUN_MASK : Z := Z.shiftl 1 15 - 1.
Definition RUN_MAX : Z := wrap 16 RUN_MASK.
End SmV1.
Module SmV2.
Definition ACTION_SHIFT : Z := 63.
Definition ACTION_MASK_DOWN_SHIFTED : Z := 1.
Definition OFFSET_MASK : Z := Z.shiftl 1 63 - 1.
Definition VDEV_MASK : Z := Z.shiftl 1 24 - 1.
Definition RUN_SHIFT : Z := 24.
Definition RUN_MASK_DOWN_SHIFTED : Z := Z.shiftl 1 36 - 1.
Definition PADDING_MASK : Z := Z.shiftl 3 60.
Definition VDEV_MAX : Z := wrap 32 VDEV_MASK.
End SmV2.

Module SmEntry.
(** [((word >> shift) & mask) as uW] *)
Definition field (w word shift mask : Z) : Z := wrap w (Z.land (Z.shiftr word shift) mask).

(** The three arms of [from_decoder]. *)
Definition v1_of (a : Z) : outcome SpaceMapEntryDecodeError SpaceMapEntry :=
  let action := field 8 a SmV1.ACTION_SHIFT SmV1.ACTION_MASK_DOWN_SHIFTED in
  action ← map_err SmeDAction (SpaceMapAction.try_from action);
  let offset := Z.land (Z.shiftr a SmV1.OFFSET_SHIFT) SmV1.OFFSET_MASK_DOWN_SHIFTED in
  let run := wrap 16 (Z.land a SmV1.RUN_MASK) in
  Ok (EV1 {| e1_action := action; e1_offset := offset; e1_run := run |}).
Definition debug_of (a : Z) : outcome SpaceMapEntryDecodeError SpaceMapEntry :=
  if a =? SmDebug.PADDING_VALUE then Ok EPadding
  else
    let action := field 8 a SmDebug.ACTION_SHIFT SmDebug.ACTION_MASK_DOWN_SHIFTED in
    action ← map_err SmeDAction (SpaceMapAction.try_from action);
    let sync_pass := field 16 a SmDebug.SYNC_PASS_SHIFT SmDebug.SYNC_PASS_MASK_DOWN_SHIFTED in
    let txg := Z.land a SmDebug.TXG_MASK in
    Ok (EDebug {| d_action := action; d_sync_pass := sync_pass; d_txg := txg |}).
Definition v2_of (a b : Z) : outcome SpaceMapEntryDecodeError SpaceMapEntry :=
  let padding := Z.land a SmV2.PADDING_MASK in
  if negb (padding =? 0) then Err (SmeDPadding padding)
  else
    let vdev := wrap 32 (Z.land a SmV2.VDEV_MASK) in
    let run := Z.land (Z.shiftr a SmV2.RUN_SHIFT) SmV2.RUN_MASK_DOWN_SHIFTED in
    let action := field 8 b SmV2.ACTION_SHIFT SmV2.ACTION_MASK_DOWN_SHIFTED in
    action ← map_err SmeDAction (SpaceMapAction.try_from action);
    let offset := Z.land b SmV2.OFFSET_MASK in
    Ok (EV2 {| e2_action := action; e2_offset := offset; e2_run := run; e2_vdev := vdev |}).

Definition from_decoder (BD : BinaryDecoder) : SM BinaryDecoderBuffer SpaceMapEntryDecodeError SpaceMapEntry :=
  a ← sm_map_err SmeDBinary get_u64;
  let entry_type_bits := Z.land (Z.shiftr a 62) 0x3 in
  match entry_type_bits with
  | 0 | 1 => sm_lift (v1_of a)
  | 2 => sm_lift (debug_of a)
  | 3 => b ← sm_map_err SmeDBinary get_u64; sm_lift (v2_of a b)
  | _ => sm_panic
  end.

Definition wf (e : SpaceMapEntry) : Prop :=
  match e with
  | EDebug d => 0 <= d_sync_pass d < 2 ^ 10 /\ 0 <= d_txg d < 2 ^ 50 /\
                ~ (d_action d = SpaceMapAction.Allocate /\ d_sync_pass d = 0 /\ d_txg d = 0)
  | EV1 e => 0 <= e1_offset e < 2 ^ 47 /\ 0 <= e1_run e < 2 ^ 15
  | EV2 e => 0 <= e2_offset e < 2 ^ 63 /\ 0 <= e2_run e < 2 ^ 36 /\ 0 <= e2_vdev e < 2 ^ 24
  | EPadding => True
  end.
(** The words of an entry. *)
Definition words (e : SpaceMapEntry) : list Z :=
  match e with
  | EDebug d => [d_txg d + d_sync_pass d * 2 ^ 50 + SpaceMapAction.into_u8 (d_action d) * 2 ^ 60 + 2 * 2 ^ 62]
  | EV1 e => [e1_run e + SpaceMapAction.into_u8 (e1_action e) * 2 ^ 15 + e1_offset e * 2 ^ 16]
  | EV2 e => [e2_vdev e + e2_run e * 2 ^ 24 + 3 * 2 ^ 62; e2_offset e + SpaceMapAction.into_u8 (e2_action e) * 2 ^ 63]
  | EPadding => [2 ^ 63]
  end.
Definition layout (o : EndianOrder) (e : SpaceMapEntry) : bytes := flat_map (int_to o 8) (words e).

(** *** Fields of a word *)
Lemma field_div w word shift n : 0 <= shift -> 0 <= n <= w ->
  field w word shift (Z.shiftl 1 n - 1) = (word / 2 ^ shift) mod 2 ^ n.
Proof.
  intros Hs Hn. unfold field. rewrite Z.shiftl_1_l, land_ones_mod, shiftr_div by lia. apply wrap_id. unfold fits.
  pose proof (Z.mod_pos_bound (word / 2 ^ shift) (2 ^ n) ltac:(lia)). pose proof (Z.pow_le_mono_r 2 n w ltac:(lia) ltac:(lia)). lia.
Qed.
Lemma field_low w word n : 0 <= n <= w -> wrap w (Z.land word (Z.shiftl 1 n - 1)) = word mod 2 ^ n.
Proof. intros Hn. pose proof (field_div w word 0 n ltac:(lia) Hn) as E. unfold field in E. now rewrite Z.shiftr_0_r, Z.div_1_r in E. Qed.
Lemma land_shifted word s n : 0 <= s -> 0 <= n -> Z.land (Z.shiftr word s) (Z.shiftl 1 n - 1) = (word / 2 ^ s) mod 2 ^ n.
Proof. intros. now rewrite Z.shiftl_1_l, land_ones_mod, shiftr_div. Qed.
Lemma land_low word n : 0 <= n -> Z.land word (Z.shiftl 1 n - 1) = word mod 2 ^ n.
Proof. intros. now rewrite Z.shiftl_1_l, land_ones_mod. Qed.
(** Bits 60 and 61. *)
Lemma padding_bits a : Z.land a SmV2.PADDING_MASK = (a / 2 ^ 60) mod 4 * 2 ^ 60.
Proof.
  unfold SmV2.PADDING_MASK. change 4 with (2 ^ 2). rewrite <- land_ones_mod, <- shiftr_div, <- Z.shiftl_mul_pow2 by lia.
  apply Z.bits_inj'. intros i Hi. rewrite !Z.land_spec. destruct (Z.lt_ge_cases i 60).
  - rewrite !Z.shiftl_spec_low by lia. apply andb_false_r.
  - rewrite !Z.shiftl_spec_high, Z.land_spec, Z.shiftr_spec by lia. do 2 f_equal. lia.
Qed.

(** *** The arms, on words *)
Ltac actions := repeat match goal with x : SpaceMapAction.t |- _ =>
  lazymatch goal with H : 0 <= SpaceMapAction.into_u8 x < 2 |- _ => fail | _ => pose proof (SpaceMapAction.action_bit x) end end.

Lemma v1_of_eq a : v1_of a =
  action ← map_err SmeDAction (SpaceMapAction.try_from ((a / 2 ^ 15) mod 2 ^ 1));
  Ok (EV1 {| e1_action := action; e1_offset := (a / 2 ^ 16) mod 2 ^ 47; e1_run := a mod 2 ^ 15 |}).
Proof.
  unfold v1_of. change SmV1.ACTION_MASK_DOWN_SHIFTED with (Z.shiftl 1 1 - 1). rewrite field_div by (vm_compute; intuition congruence).
  unfold SmV1.OFFSET_MASK_DOWN_SHIFTED, SmV1.RUN_MASK. now rewrite land_shifted, field_low by (vm_compute; intuition congruence).
Qed.
Lemma debug_of_eq a : debug_of a =
  if a =? 2 ^ 63 then Ok EPadding
  else action ← map_err SmeDAction (SpaceMapAction.try_from ((a / 2 ^ 60) mod 2 ^ 2));
       Ok (EDebug {| d_action := action; d_sync_pass := (a / 2 ^ 50) mod 2 ^ 10; d_txg := a mod 2 ^ 50 |}).
Proof.
  unfold debug_of. change SmDebug.PADDING_VALUE with (2 ^ 63). destruct (_ =? _); [done|].
  unfold SmDebug.ACTION_MASK_DOWN_SHIFTED, SmDebug.SYNC_PASS_MASK_DOWN_SHIFTED, SmDebug.TXG_MASK.
  now rewrite !field_div, land_low by (vm_compute; intuition congruence).
Qed.
Lemma v2_of_eq a b : v2_of a b =
  if negb ((a / 2 ^ 60) mod 4 * 2 ^ 60 =? 0) then Err (SmeDPadding ((a / 2 ^ 60) mod 4 * 2 ^ 60))
  else action ← map_err SmeDAction (SpaceMapAction.try_from ((b / 2 ^ 63) mod 2 ^ 1));
       Ok (EV2 {| e2_action := action; e2_offset := b mod 2 ^ 63; e2_run := (a / 2 ^ 24) mod 2 ^ 36; e2_vdev := a mod 2 ^ 24 |}).
Proof.
  unfold v2_of. rewrite padding_bits. destruct (negb _); [done|]. change SmV2.ACTION_MASK_DOWN_SHIFTED with (Z.shiftl 1 1 - 1).
  unfold SmV2.VDEV_MASK, SmV2.RUN_MASK_DOWN_SHIFTED, SmV2.OFFSET_MASK.
  now rewrite field_div, field_low, land_shifted, land_low by (vm_compute; intuition congruence).
Qed.

Lemma action_ok {C} c (f : SpaceMapAction.t -> outcome SpaceMapEntryDecodeError C) e :
  (action ← map_err SmeDAction (SpaceMapAction.try_from c); f action) = Ok e ->
  exists x, c = SpaceMapAction.into_u8 x /\ f x = Ok e.
Proof.
  destruct (SpaceMapAction.try_from c) as [x|?|] eqn:E; try discriminate. intros H. exists x.
  split; [now apply SpaceMapAction.action_try_from_ok|exact H].
Qed.
Lemma action_run {C} x (f : SpaceMapAction.t -> outcome SpaceMapEntryDecodeError C) :
  (action ← map_err SmeDAction (SpaceMapAction.try_from (SpaceMapAction.into_u8 x)); f action) = f x.
Proof. now rewrite SpaceMapAction.action_try_from_into. Qed.

Lemma v1_ok a e : 0 <= a < 2 ^ 63 -> v1_of a = Ok e -> wf e /\ words e = [a].
Proof.
  intros Ha. rewrite v1_of_eq. intros (x & Hx & [= <-])%action_ok. cbn [wf words e1_offset e1_run e1_action]. rewrite <- Hx.
  split; [split; apply Z.mod_pos_bound; lia|]. f_equal. Z.div_mod_to_equations; lia.
Qed.
Lemma debug_ok a e : 2 * 2 ^ 62 <= a < 3 * 2 ^ 62 -> debug_of a = Ok e -> wf e /\ words e = [a].
Proof.
  intros Ha. rewrite debug_of_eq. destruct (Z.eqb_spec a (2 ^ 63)) as [->|Hne]; [now intros [= <-]|].
  intros (x & Hx & [= <-])%action_ok. cbn [wf words d_action d_sync_pass d_txg].
  assert (Hw : a mod 2 ^ 50 + (a / 2 ^ 50) mod 2 ^ 10 * 2 ^ 50 + SpaceMapAction.into_u8 x * 2 ^ 60 + 2 * 2 ^ 62 = a)
    by (rewrite <- Hx; Z.div_mod_to_equations; lia).
  split; [|now f_equal]. split; [apply Z.mod_pos_bound; lia|]. split; [apply Z.mod_pos_bound; lia|].
  intros (-> & E1 & E2). rewrite E1, E2 in Hw. cbn in Hw. lia.
Qed.
Lemma v2_ok a b e : 3 * 2 ^ 62 <= a < 4 * 2 ^ 62 -> fits 64 b -> v2_of a b = Ok e -> wf e /\ words e = [a; b].
Proof.
  intros Ha Hb. unfold fits in Hb. rewrite v2_of_eq. destruct (Z.eqb_spec ((a / 2 ^ 60) mod 4 * 2 ^ 60) 0) as [Hp|]; [|done].
  cbn [negb]. intros (x & Hx & [= <-])%action_ok. cbn [wf words e2_offset e2_run e2_action e2_vdev]. rewrite <- Hx.
  split; [splits; apply Z.mod_pos_bound; lia|]. f_equal; [|f_equal]; Z.div_mod_to_equations; lia.
Qed.

Lemma v1_run e : wf (EV1 e) -> v1_of (e1_run e + SpaceMapAction.into_u8 (e1_action e) * 2 ^ 15 + e1_offset e * 2 ^ 16) = Ok (EV1 e).
Proof.
  intros [Ho Hr]. pose proof (SpaceMapAction.action_bit (e1_action e)). rewrite v1_of_eq.
  replace (_ mod 2 ^ 1) with (SpaceMapAction.into_u8 (e1_action e)) by (Z.div_mod_to_equations; lia). rewrite action_run.
  destruct e; cbn in *. do 3 f_equal; Z.div_mod_to_equations; lia.
Qed.
Lemma debug_run d : wf (EDebug d) ->
  debug_of (d_txg d + d_sync_pass d * 2 ^ 50 + SpaceMapAction.into_u8 (d_action d) * 2 ^ 60 + 2 * 2 ^ 62) = Ok (EDebug d).
Proof.
  intros (Hp & Ht & Hn). pose proof (SpaceMapAction.action_bit (d_action d)). rewrite debug_of_eq.
  rewrite (proj2 (Z.eqb_neq _ _)) by (destruct (d_action d); cbn in *; intros ?; try apply Hn; repeat split; lia).
  replace (_ mod 2 ^ 2) with (SpaceMapAction.into_u8 (d_action d)) by (Z.div_mod_to_equations; lia). rewrite action_run.
  destruct d; cbn in *. do 3 f_equal; Z.div_mod_to_equations; lia.
Qed.
Lemma v2_run e : wf (EV2 e) ->
  v2_of (e2_vdev e + e2_run e * 2 ^ 24 + 3 * 2 ^ 62) (e2_offset e + SpaceMapAction.into_u8 (e2_action e) * 2 ^ 63) = Ok (EV2 e).
Proof.
  intros (Ho & Hr & Hv). pose proof (SpaceMapAction.action_bit (e2_action e)). rewrite v2_of_eq.
  replace (_ mod 4 * 2 ^ 60) with 0 by (Z.div_mod_to_equations; lia). cbn [Z.eqb negb].
  replace (_ mod 2 ^ 1) with (SpaceMapAction.into_u8 (e2_action e)) by (Z.div_mod_to_equations; lia). rewrite action_run.
  destruct e; cbn in *. do 3 f_equal; Z.div_mod_to_equations; lia.
Qed.

(** *** The decoder *)
Lemma type_bits a : fits 64 a -> Z.land (Z.shiftr a 62) 0x3 = a / 2 ^ 62 /\ 0 <= a / 2 ^ 62 < 4.
Proof.
  unfold fits. intros Ha. change 3 with (2 ^ 2 - 1). rewrite land_ones_mod, shiftr_div by lia.
  assert (0 <= a / 2 ^ 62 < 4) by (Z.div_mod_to_equations; lia). split; [|done]. now apply Z.mod_small.
Qed.
Lemma sm_entry_reads o e : wf e -> reads (from_decoder (endian_decoder o)) (layout o e) e.
Proof.
  intros Hw. unfold from_decoder, layout.
  assert (Ht : forall a k, 0 <= k < 4 -> k * 2 ^ 62 <= a < (k + 1) * 2 ^ 62 -> fits 64 a /\ Z.land (Z.shiftr a 62) 0x3 = k).
  { intros a k Hk Ha. assert (Hf : fits 64 a) by (unfold fits; lia). destruct (type_bits a Hf) as [-> _].
    split; [done|]. Z.div_mod_to_equations; lia. }
  destruct e as [d|e|e|]; cbn [words flat_map].
  - destruct Hw as (Hp & Htx & Hn). pose proof (SpaceMapAction.action_bit (d_action d)).
    edestruct (Ht (d_txg d + d_sync_pass d * 2 ^ 50 + SpaceMapAction.into_u8 (d_action d) * 2 ^ 60 + 2 * 2 ^ 62) 2) as [Hf E]; [lia|lia|].
    eapply reads_bind; [now apply r_u64|]. cbv zeta. rewrite E, debug_run by done. apply reads_ret.
  - destruct Hw as [Ho Hr]. pose proof (SpaceMapAction.action_bit (e1_action e)).
    set (a := e1_run e + SpaceMapAction.into_u8 (e1_action e) * 2 ^ 15 + e1_offset e * 2 ^ 16).
    assert (Hf : fits 64 a) by (unfold fits, a; lia). eapply reads_bind; [now apply r_u64|]. cbv zeta.
    destruct (type_bits a Hf) as [-> _]. assert (a / 2 ^ 62 = 0 \/ a / 2 ^ 62 = 1) as [->| ->] by (subst a; Z.div_mod_to_equations; lia);
      unfold a; rewrite v1_run by done; apply reads_ret.
  - destruct Hw as (Ho & Hr & Hv). pose proof (SpaceMapAction.action_bit (e2_action e)).
    destruct (Ht (e2_vdev e + e2_run e * 2 ^ 24 + 3 * 2 ^ 62) 3) as [Hf E]; [lia|lia|].
    eapply reads_bind; [now apply r_u64|]. cbv zeta. rewrite E. eapply reads_bind; [apply r_u64; unfold fits; lia|].
    rewrite v2_run by done. apply reads_ret.
  - eapply reads_bind; [apply r_u64; unfold fits; lia|]. apply reads_ret.
Qed.
Lemma entry_taken o b e b' : DecoderBuffer.wf b -> from_decoder (endian_decoder o) b = (Ok e, b') ->
  wf e /\ DecoderBuffer.remaining b = layout o e ++ DecoderBuffer.remaining b'.
Proof.
  intros Hb (a & b1 & (Ha & Hr & Hb1)%u64_taken & H2)%SM_bind_ok; [|done]. cbv zeta in H2.
  destruct (type_bits a Ha) as [E Hk]. rewrite E in H2. unfold layout. unfold fits in Ha.
  assert (One : forall e, wf e /\ words e = [a] -> b1 = b' ->
                wf e /\ DecoderBuffer.remaining b = flat_map (int_to o 8) (words e) ++ DecoderBuffer.remaining b').
  { intros e' [He Hw] <-. split; [done|]. rewrite Hw, Hr. cbn [flat_map]. now rewrite app_nil_r. }
  assert (a / 2 ^ 62 = 0 \/ a / 2 ^ 62 = 1 \/ a / 2 ^ 62 = 2 \/ a / 2 ^ 62 = 3) as [Q|[Q|[Q|Q]]] by lia; rewrite Q in H2.
  - injection H2 as H3 H4. apply One; [|done]. apply v1_ok; [Z.div_mod_to_equations; lia|done].
  - injection H2 as H3 H4. apply One; [|done]. apply v1_ok; [Z.div_mod_to_equations; lia|done].
  - injection H2 as H3 H4. apply One; [|done]. apply debug_ok; [Z.div_mod_to_equations; lia|done].
  - apply SM_bind_ok in H2 as (v & b2 & (Hv & Hr2 & Hb2)%u64_taken & H3); [|done]. injection H3 as H3 <-.
    destruct (v2_ok a v e) as [He Hw]; [Z.div_mod_to_equations; lia|done|done|]. split; [done|].
    rewrite Hw, Hr, Hr2. cbn [flat_map]. now rewrite app_nil_r, <- app_assoc.
Qed.
End SmEntry.

(** C37: The decoder of an entry returns an entry exactly when the bytes start with its
    words and its fields are in range: the all-zero debug word is padding, never a
    debug entry, and every other entry has one encoding. *)
Theorem space_map_entry_exact o data e :
  bytes_ok data ->
  with_decoder o SmEntry.from_decoder data = Ok e <-> SmEntry.wf e /\ exists r, data = SmEntry.layout o e ++ r.
Proof.
  intros Hd. split.
  - intros H. unfold with_decoder in H. destruct (SmEntry.from_decoder _ _) as [m b'] eqn:E. cbn in H. subst m.
    apply SmEntry.entry_taken in E as [He Hr]; [|now apply DecoderBuffer.wf_from_bytes].
    rewrite DecoderBuffer.remaining_from_bytes in Hr. eauto.
  - intros [He [r ->]]. now apply with_decoder_reads; [apply SmEntry.sm_entry_reads|].
Qed.

Lemma space_map_entry_exact_witness :
  with_decoder Little SmEntry.from_decoder [5; 128; 1; 0; 0; 0; 0; 0] =
    Ok (EV1 {| e1_action := SpaceMapAction.Free; e1_offset := 1; e1_run := 5 |}).
Proof.
  apply (space_map_entry_exact Little [5; 128; 1; 0; 0; 0; 0; 0]).
  - repeat constructor; unfold is_byte; lia.
  - split; [split; cbn; lia|]. exists []. reflexivity.
Defined.
