(* ===== verification/BpObject.v ===== *)
(** * Headers of block pointer objects (the end of src/phys/block_pointer.rs)

    A block pointer object keeps a header in its bonus that has grown three times, by
    accounting, by dead lists and by a live list; the decoder tells which are there from
    where the bonus ends.  It accepts exactly the four layouts. *)

From S2P Require Import Prelude Errors Decoder Encoder Codec Dsl.

Open Scope Z_scope.
Open Scope list_scope.

Record BpObjectHeaderAccountingExtension : Type := { compressed_size : Z; uncompressed_size : Z }.
Record BpObjectHeaderDeadListsExtension : Type := { sub_objects_obj : option Z; sub_objects_num : Z }.
Record BpObjectHeaderLiveListExtension : Type := { block_pointers_freed : Z }.
Inductive BpObjectHeaderExtension : Type :=
| ExZero
| ExOne (accounting : BpObjectHeaderAccountingExtension)
| ExTwo (accounting : BpObjectHeaderAccountingExtension) (dead_lists : BpObjectHeaderDeadListsExtension)
| ExThree (accounting : BpObjectHeaderAccountingExtension) (dead_lists : BpObjectHeaderDeadListsExtension)
          (live_list : BpObjectHeaderLiveListExtension).
Record BpObjectHeader : Type := { block_pointers_count : Z; bpo_physical_size : Z; extensions : BpObjectHeaderExtension }.
Inductive BpObjectHeaderDecodeError : Type := BohBinary (err : BinaryDecodeError) | BohSize (size : Z).
Inductive BpObjectHeaderEncodeError : Type := BohEBinary (err : BinaryEncodeError).

Module BpObj.
Abbreviation u64 := (sm_map_err BohBinary get_u64).

(** Each extension is there when the one before is and bytes are left. *)
Definition extensions_from_decoder (BD : BinaryDecoder) : SM BinaryDecoderBuffer BpObjectHeaderDecodeError BpObjectHeaderExtension :=
  b ← sm_get;
  if DecoderBuffer.is_empty b then mret ExZero
  else
    compressed ← u64;
    uncompressed ← u64;
    let accounting := {| compressed_size := compressed; uncompressed_size := uncompressed |} in
    b ← sm_get;
    if DecoderBuffer.is_empty b then mret (ExOne accounting)
    else
      sub_obj ← u64;
      sub_num ← u64;
      let dead_lists := {| sub_objects_obj := object_ref sub_obj; sub_objects_num := sub_num |} in
      b ← sm_get;
      if DecoderBuffer.is_empty b then mret (ExTwo accounting dead_lists)
      else
        freed ← u64;
        mret (ExThree accounting dead_lists {| block_pointers_freed := freed |}).
Definition from_decoder (BD : BinaryDecoder) : SM BinaryDecoderBuffer BpObjectHeaderDecodeError BpObjectHeader :=
  count ← u64;
  physical_size ← u64;
  extensions ← extensions_from_decoder BD;
  b ← sm_get;
  sm_guard (negb (DecoderBuffer.is_empty b)) (BohSize (DecoderBuffer.len b));;
  mret {| block_pointers_count := count; bpo_physical_size := physical_size; extensions := extensions |}.

Definition accounting (h : BpObjectHeader) : option BpObjectHeaderAccountingExtension :=
  match extensions h with ExZero => None | ExOne a => Some a | ExTwo a _ => Some a | ExThree a _ _ => Some a end.
Definition dead_lists (h : BpObjectHeader) : option BpObjectHeaderDeadListsExtension :=
  match extensions h with ExZero => None | ExOne _ => None | ExTwo _ d => Some d | ExThree _ d _ => Some d end.
Definition live_list (h : BpObjectHeader) : option BpObjectHeaderLiveListExtension :=
  match extensions h with ExZero => None | ExOne _ => None | ExTwo _ _ => None | ExThree _ _ l => Some l end.

Definition to_encoder (BE : BinaryEncoder) (h : BpObjectHeader) : SM BinaryEncoderBuffer BpObjectHeaderEncodeError unit :=
  sm_map_err BohEBinary (put_u64 (block_pointers_count h));;
  sm_map_err BohEBinary (put_u64 (bpo_physical_size h));;
  match accounting h with
  | Some accounting =>
      sm_map_err BohEBinary (put_u64 (compressed_size accounting));;
      sm_map_err BohEBinary (put_u64 (uncompressed_size accounting));;
      match dead_lists h with
      | Some dead_lists =>
          sm_map_err BohEBinary (put_u64 (default 0 (sub_objects_obj dead_lists)));;
          sm_map_err BohEBinary (put_u64 (sub_objects_num dead_lists));;
          match live_list h with
          | Some live_list => sm_map_err BohEBinary (put_u64 (block_pointers_freed live_list))
          | None => mret tt
          end
      | None => mret tt
      end
  | None => mret tt
  end.

(** The words of a header. *)
Definition acc_words (a : BpObjectHeaderAccountingExtension) : list Z := [compressed_size a; uncompressed_size a].
Definition dead_words (d : BpObjectHeaderDeadListsExtension) : list Z := [default 0 (sub_objects_obj d); sub_objects_num d].
Definition ext_words (x : BpObjectHeaderExtension) : list Z :=
  match x with
  | ExZero => []
  | ExOne a => acc_words a
  | ExTwo a d => acc_words a ++ dead_words d
  | ExThree a d l => acc_words a ++ dead_words d ++ [block_pointers_freed l]
  end.
Definition words (h : BpObjectHeader) : list Z := block_pointers_count h :: bpo_physical_size h :: ext_words (extensions h).
Definition refs_wf (x : BpObjectHeaderExtension) : Prop :=
  match x with ExTwo _ d | ExThree _ d _ => ref_wf (sub_objects_obj d) | _ => True end.
Definition wf (h : BpObjectHeader) : Prop := Forall (fits 64) (words h) /\ refs_wf (extensions h).
Definition layout (o : EndianOrder) (h : BpObjectHeader) : bytes := flat_map (int_to o 8) (words h).

Lemma bpo_layout_ok o h : bytes_ok (layout o h) /\ blen (layout o h) = 8 * blen (words h).
Proof.
  unfold layout. split; [apply bytes_ok_flat_map, Forall_true; auto with zfs|]. apply blen_flat_map, Forall_true. intros. apply blen_int_to.
Qed.
Lemma bpo_writes o h : writes (to_encoder (endian_encoder o) h) (layout o h).
Proof.
  unfold to_encoder, layout, words, accounting, dead_lists, live_list. cbn [flat_map]. do 2 cwrite.
  destruct (extensions h) as [|a|a d|a d l]; cbn [ext_words acc_words dead_words app flat_map]; rewrite ?app_nil_r.
  - apply writes_ret.
  - cwrite. replace (int_to o 8 (uncompressed_size a)) with (int_to o 8 (uncompressed_size a) ++ []) by apply app_nil_r. cwrite. apply writes_ret.
  - do 3 cwrite. replace (int_to o 8 (sub_objects_num d)) with (int_to o 8 (sub_objects_num d) ++ []) by apply app_nil_r. cwrite. apply writes_ret.
  - do 4 cwrite. apply w_u64.
Qed.

(** *** Decoding *)
Lemma word_nonempty o v l : int_to o 8 v ++ l <> [].
Proof. intros E. apply (f_equal blen) in E. rewrite blen_app, blen_int_to in E. pose proof (blen_nonneg l). change (blen []) with 0 in E. lia. Qed.
(** At the end of the bonus, or with a word of an extension left. *)
Ltac at_end := let H := fresh in apply ends_empty; intros H; [|done].
Ltac more := let H := fresh in apply ends_empty; intros H; [now destruct (word_nonempty _ _ _ H)|].

Lemma ext_ends o x : Forall (fits 64) (ext_words x) -> refs_wf x ->
  ends (extensions_from_decoder (endian_decoder o)) (flat_map (int_to o 8) (ext_words x)) x.
Proof.
  intros Hw Hr. unfold extensions_from_decoder.
  destruct x as [|a|a d|a d l]; cbn [ext_words] in *; unfold acc_words, dead_words in *; cbn [app flat_map refs_wf] in *;
    repeat match goal with H : Forall _ (_ :: _) |- _ => apply Forall_cons in H as [? H] end.
  - at_end. apply reads_ends, reads_ret.
  - more. do 2 eread. at_end. destruct a; apply reads_ends, reads_ret.
  - apply ref_code in Hr as [_ Er]. more. do 2 eread. more. do 2 eread. at_end. rewrite Er.
    destruct a, d; apply reads_ends, reads_ret.
  - apply ref_code in Hr as [_ Er]. more. do 2 eread. more. do 2 eread. more. eread. rewrite Er.
    destruct a, d, l; apply reads_ends, reads_ret.
Qed.
Lemma bpo_ends o h : wf h -> ends (from_decoder (endian_decoder o)) (layout o h) h.
Proof.
  intros [Hw Hr]. unfold words in Hw. apply Forall_cons in Hw as [? Hw]. apply Forall_cons in Hw as [? Hw]. pose proof (ext_ends o _ Hw Hr) as He.
  unfold from_decoder, layout, words. cbn [flat_map]. do 2 eread. eapply ends_then; [exact He|].
  intros b Hb Hr0. rewrite (SM_run sm_get _ b b b eq_refl). unfold DecoderBuffer.is_empty.
  rewrite DecoderBuffer.len_remaining, Hr0 by done. destruct h. now rewrite advance_0.
Qed.

Ltac words_fit := repeat (apply Forall_cons_2; [assumption|]); apply Forall_nil_2.
(** What was decoded is what was there. *)
Lemma ext_taken o b x b' : DecoderBuffer.wf b -> extensions_from_decoder (endian_decoder o) b = (Ok x, b') ->
  Forall (fits 64) (ext_words x) /\ refs_wf x /\ DecoderBuffer.wf b' /\
  DecoderBuffer.remaining b = flat_map (int_to o 8) (ext_words x) ++ DecoderBuffer.remaining b'.
Proof.
  intros Hb H. unfold extensions_from_decoder in H. apply SM_bind_ok in H as (? & ? & [= <- <-] & H).
  destruct (DecoderBuffer.is_empty b); [injection H as <- <-; now splits|].
  apply SM_bind_ok in H as (c & b1 & (Hc & E1 & Hb1)%u64_taken & H); [|done].
  apply SM_bind_ok in H as (u & b2 & (Hu & E2 & Hb2)%u64_taken & H); [|done]. cbv zeta in H.
  apply SM_bind_ok in H as (? & ? & [= <- <-] & H). destruct (DecoderBuffer.is_empty b2).
  { injection H as <- <-. cbn [ext_words acc_words flat_map]. rewrite E1, E2, app_nil_r, <- app_assoc. splits; [words_fit|done|done|done]. }
  apply SM_bind_ok in H as (s & b3 & (Hs & E3 & Hb3)%u64_taken & H); [|done].
  apply SM_bind_ok in H as (n & b4 & (Hn & E4 & Hb4)%u64_taken & H); [|done]. cbv zeta in H.
  assert (Ed : default 0 (object_ref s) = s) by (unfold object_ref; now destruct (Z.eqb_spec s 0)).
  apply SM_bind_ok in H as (? & ? & [= <- <-] & H). destruct (DecoderBuffer.is_empty b4).
  { injection H as <- <-. unfold ext_words, acc_words, dead_words. cbn. rewrite Ed, E1, E2, E3, E4, app_nil_r, <- !app_assoc.
    splits; try done; [words_fit|now apply object_ref_wf]. }
  apply SM_bind_ok in H as (f & b5 & (Hf & E5 & Hb5)%u64_taken & H); [|done]. injection H as <- <-.
  unfold ext_words, acc_words, dead_words. cbn. rewrite Ed, E1, E2, E3, E4, E5, app_nil_r, <- !app_assoc.
  splits; try done; [words_fit|now apply object_ref_wf].
Qed.
End BpObj.

(** The header of a block pointer object: bytes decode to a header exactly when they are
    the layout of it, of 16, 32, 48 or 56 bytes; a bonus of any other size is refused.
    The encoder writes that layout. *)
Theorem bp_object_exact o data h :
  bytes_ok data ->
  (with_decoder o BpObj.from_decoder data = Ok h <-> BpObj.wf h /\ data = BpObj.layout o h) /\
  encode_into (blen (BpObj.layout o h)) (BpObj.to_encoder (endian_encoder o) h) = Ok (BpObj.layout o h) /\
  blen (BpObj.layout o h) =
    match extensions h with ExZero => 16 | ExOne _ => 32 | ExTwo _ _ => 48 | ExThree _ _ _ => 56 end.
Proof.
  intros Hd. split; [split|split].
  - intros H. unfold with_decoder in H. destruct (BpObj.from_decoder _ _) as [m b'] eqn:E. cbn in H. subst m.
    pose proof (DecoderBuffer.wf_from_bytes data Hd) as Hb. rewrite <- (DecoderBuffer.remaining_from_bytes data).
    apply SM_bind_ok in E as (c & b1 & (Hc & E1 & Hb1)%u64_taken & E); [|done].
    apply SM_bind_ok in E as (p & b2 & (Hp & E2 & Hb2)%u64_taken & E); [|done].
    apply SM_bind_ok in E as (x & b3 & (Hx & Hr & Hb3 & E3)%BpObj.ext_taken & E); [|done].
    apply SM_bind_ok in E as (? & ? & [= <- <-] & E). unfold sm_guard, DecoderBuffer.is_empty in E.
    rewrite DecoderBuffer.len_remaining in E by done. destruct (Z.eqb_spec (blen (DecoderBuffer.remaining b3)) 0) as [Ez|]; [|discriminate].
    injection E as <- <-. split; [split; [now constructor; [|constructor]|done]|].
    unfold BpObj.layout, BpObj.words. cbn [block_pointers_count bpo_physical_size extensions flat_map]. rewrite E1, E2, E3.
    destruct (DecoderBuffer.remaining b3); [now rewrite app_nil_r|]. rewrite blen_cons in Ez. pose proof (blen_nonneg l). lia.
  - intros [Hw ->]. apply with_decoder_ends; [now apply BpObj.bpo_ends|apply BpObj.bpo_layout_ok].
  - apply writes_encode; [apply BpObj.bpo_writes|lia].
  - rewrite (proj2 (BpObj.bpo_layout_ok o h)). unfold BpObj.words. now destruct (extensions h).
Qed.

Lemma bp_object_exact_witness :
  with_decoder Little BpObj.from_decoder (zrep 16 0) = Ok {| block_pointers_count := 0; bpo_physical_size := 0; extensions := ExZero |}.
Proof.
  apply (bp_object_exact Little (zrep 16 0)); [apply bytes_ok_zrep|]. split; [|reflexivity].
  split; [repeat constructor; vm_compute; congruence|exact I].
Defined.
