(* ===== verification/FixedStr.v ===== *)
(** * Strings of fixed capacity (src/util/fixed_str.rs)

    Errors carry the first bytes of a name in a [Fstr<N>].  Taking a [&str] into
    one keeps its longest prefix of whole characters that fits, as long as one
    character fits. *)

From S2P Require Import Prelude Decoder Encoder.

Open Scope Z_scope.
Open Scope list_scope.

Record Fstr : Type := { fs_bytes : bytes; fs_size : Z; fs_trimmed : bool }.

Module FixedStr.
(** [core::str::from_utf8(l).is_ok()] *)
Definition valid (l : bytes) : bool := match from_utf8 l with Ok _ => true | _ => false end.

(** [Fstr::new]; the length must have been clamped to the capacity [N]. *)
Definition new {E} (N : Z) (bs : bytes) (trimmed : bool) : outcome E Fstr :=
  let size := blen bs in
  b ← unwrap (EncoderBuffer.copy_at (zrep N 0) 0 bs);
  Ok {| fs_bytes := b; fs_size := size; fs_trimmed := trimmed |}.

Definition as_bytes {E} (f : Fstr) : outcome E bytes := unwrap (get_range (fs_bytes f) 0 (fs_size f)).
Definition as_str {E} (f : Fstr) : outcome E (option bytes) :=
  bs ← as_bytes f; Ok (match from_utf8 bs with Ok s => Some s | _ => None end).
Definition capacity (N : Z) (f : Fstr) : Z := N.
Definition len (f : Fstr) : Z := fs_size f.
Definition is_empty (f : Fstr) : bool := len f =? 0.
Definition is_trimmed (f : Fstr) : bool := fs_trimmed f.

(** [From<&[u8]>] *)
Definition from_slice {E} (N : Z) (bs : bytes) : outcome E Fstr :=
  let size := Z.min (blen bs) N in
  let trimmed := size <? blen bs in
  b ← unwrap (get_range bs 0 size);
  new N b trimmed.

(** The loop of [From<&str>]: the first size, from [size] down, whose prefix is
    valid; [n] more sizes are tried. *)
Fixpoint try_truncate {E} (bs : bytes) (size : Z) (truncate : Z) (n : nat) : outcome E Z :=
  match n with
  | O => Ok size
  | S n' =>
      let tsize := size - truncate in
      b ← unwrap (get_range bs 0 tsize);
      if valid b then Ok tsize else try_truncate bs size (truncate + 1) n'
  end.
(** [From<&str>] *)
Definition from_str {E} (N : Z) (bs : bytes) : outcome E Fstr :=
  let size := Z.min (blen bs) N in
  size ← (if (0 <? N) && (N <? blen bs) then try_truncate bs size 0 (Z.to_nat (Z.min size 4)) else Ok size);
  let trimmed := size <? blen bs in
  b ← unwrap (get_range bs 0 size);
  new N b trimmed.

(** ** UTF-8 by characters *)
(** [c] is a character: one byte below 128, or bytes of which none is, the first not a
    continuation; validating goes on after it. *)
Definition char (c : bytes) : Prop :=
  1 <= blen c <= 4 /\ (exists b t, c = b :: t /\ utf8_cont b = false /\ ((t = [] /\ b < 128) \/ Forall (fun x => 128 <= x) c)) /\
  forall pos l, utf8_validate pos (c ++ l) = utf8_validate (pos + blen c) l.

Lemma utf8_width b :
  utf8_char_width b = 0 \/ utf8_char_width b = 1 \/ utf8_char_width b = 2 \/ utf8_char_width b = 3 \/ utf8_char_width b = 4.
Proof. unfold utf8_char_width. repeat case_match; tauto. Qed.

Lemma utf8_lead b : utf8_char_width b <> 0 -> utf8_cont b = false /\ (utf8_char_width b = 1 <-> b < 128).
Proof. unfold utf8_char_width, utf8_cont, between. repeat case_match; lia. Qed.
Lemma utf8_follow b0 b : utf8_cont b = true \/ utf8_second3 b0 b = true \/ utf8_second4 b0 b = true -> 128 <= b.
Proof. unfold utf8_second3, utf8_second4, utf8_cont, between. repeat case_match; lia. Qed.

Ltac char_of c rest :=
  exists c, rest; split; [reflexivity|]; split; [|assumption]; split; [unfold blen; cbn; lia|]; split;
  [ lazymatch goal with H : utf8_char_width ?b = _ |- _ =>
      pose proof (utf8_lead b ltac:(rewrite H; discriminate)) as [Hlead Hone];
      eexists _, _; split; [reflexivity|]; split; [exact Hlead|];
      first [left; split; [reflexivity|apply Hone; exact H]
            |right; repeat constructor; first [lia | apply (utf8_follow 0); left; assumption
                                                 | eapply utf8_follow; right; eauto]] end
  | intros pos' l'; cbn [app utf8_validate];
    repeat match goal with H : ?x = _ |- context [?x] => rewrite H end; reflexivity ].

Lemma utf8_uncons pos l :
  utf8_validate pos l = None -> l <> [] ->
  exists c r, l = c ++ r /\ char c /\ utf8_validate (pos + blen c) r = None.
Proof.
  destruct l as [|b0 l1]; [done|]. intros H _. cbn [utf8_validate] in H.
  destruct (utf8_width b0) as [E|[E|[E|[E|E]]]]; rewrite E in H; [discriminate| | | |].
  - char_of [b0] l1.
  - destruct l1 as [|b1 l2]; [discriminate|]. destruct (utf8_cont b1) eqn:E1; [|discriminate]. char_of [b0; b1] l2.
  - destruct l1 as [|b1 l2]; [discriminate|]. destruct (utf8_second3 b0 b1) eqn:E1; [|discriminate].
    destruct l2 as [|b2 l3]; [discriminate|]. destruct (utf8_cont b2) eqn:E2; [|discriminate]. char_of [b0; b1; b2] l3.
  - destruct l1 as [|b1 l2]; [discriminate|]. destruct (utf8_second4 b0 b1) eqn:E1; [|discriminate].
    destruct l2 as [|b2 l3]; [discriminate|]. destruct (utf8_cont b2) eqn:E2; [|discriminate].
    destruct l3 as [|b3 l4]; [discriminate|]. destruct (utf8_cont b3) eqn:E3; [|discriminate]. char_of [b0; b1; b2; b3] l4.
Qed.

(** Validity does not depend on the position. *)
Lemma utf8_pos l pos pos' : utf8_validate pos l = None -> utf8_validate pos' l = None.
Proof.
  revert pos pos'. induction l as [l IH] using (induction_ltof1 _ (@length Z)). intros pos pos' H.
  destruct (decide (l = [])) as [->|Hne]; [done|]. destruct (utf8_uncons pos l H Hne) as (c & r & -> & (Hc & _ & Hv) & Hr).
  rewrite Hv. eapply IH; [|exact Hr]. unfold ltof, blen in *. rewrite length_app. lia.
Qed.
Lemma valid_iff l : valid l = true <-> utf8_validate 0 l = None.
Proof. unfold valid, from_utf8. now destruct (utf8_validate 0 l). Qed.
Lemma valid_cons c r : char c -> valid (c ++ r) = true <-> valid r = true.
Proof. intros (_ & _ & Hv). rewrite !valid_iff, Hv. split; apply utf8_pos. Qed.
Lemma valid_uncons l : valid l = true -> l <> [] -> exists c r, l = c ++ r /\ char c /\ valid r = true.
Proof.
  intros H Hne. apply valid_iff in H. destruct (utf8_uncons 0 l H Hne) as (c & r & -> & Hc & Hr). exists c, r.
  split; [done|]. split; [done|]. apply valid_iff. eapply utf8_pos, Hr.
Qed.

(** A string ends and starts over after any of its bytes below 128. *)
Lemma valid_after_ascii l i b :
  valid l = true -> l !! i = Some b -> b < 128 -> valid (take i l) = true /\ valid (drop (S i) l) = true.
Proof.
  revert i. induction l as [l IH] using (induction_ltof1 _ (@length Z)). intros i H Hi Hb.
  destruct (decide (l = [])) as [->|Hne]; [done|]. destruct (valid_uncons l H Hne) as (c & r & -> & Hc & Hr).
  destruct (decide (i < length c)%nat) as [Hlt|Hge].
  - rewrite lookup_app_l in Hi by done. pose proof Hc as (_ & (b0 & t & -> & _ & [[-> _]|Hall]) & _).
    + cbn in Hlt. assert (i = O) as -> by lia. cbn. now rewrite drop_0.
    + rewrite Forall_forall in Hall. apply list_elem_of_lookup_2 in Hi. apply Hall in Hi. lia.
  - rewrite lookup_app_r in Hi by lia. pose proof (proj1 Hc) as Hl. unfold blen in Hl.
    destruct (IH r) with (i := (i - length c)%nat) as [H1 H2]; [unfold ltof; rewrite length_app; lia|done|done|done|].
    rewrite take_app_ge, drop_app_ge by lia. split; [now apply valid_cons|]. now replace (S i - length c)%nat with (S (i - length c)) by lia.
Qed.
(** [str::is_char_boundary] *)
Definition is_char_boundary (s : bytes) (i : Z) : bool :=
  (i =? 0) || (i =? blen s) || match zget s i with Some b => negb (utf8_cont b) | None => false end.
Lemma boundary_of_valid l i : 0 <= i <= blen l -> valid (zdrop i l) = true -> is_char_boundary l i = true.
Proof.
  intros Hi Hv. unfold is_char_boundary. destruct (Z.eqb_spec i 0); [done|]. destruct (Z.eqb_spec i (blen l)); [done|]. cbn [orb].
  destruct (valid_uncons _ Hv) as (c & r & E & (_ & (b & t & -> & Hb & _) & _) & _).
  { intros E. apply (f_equal blen) in E. rewrite blen_zdrop in E by lia. change (blen []) with 0 in E. lia. }
  unfold zget. replace ((0 <=? i) && (i <? blen l)) with true by lia.
  rewrite zdrop_drop in E by lia. apply (f_equal (fun x => x !! O)) in E. rewrite lookup_drop, Nat.add_0_r in E. rewrite E. cbn.
  now rewrite Hb.
Qed.

(** A character has at most four bytes: at most three bytes before any place of a
    valid string is a character boundary. *)
Lemma boundary_near l n : valid l = true -> 0 <= n <= blen l -> exists t, 0 <= t <= 3 /\ t <= n /\ valid (ztake (n - t) l) = true.
Proof.
  revert n. induction l as [l IH] using (induction_ltof1 _ (@length Z)). intros n H Hn.
  destruct (decide (l = [])) as [->|Hne].
  { exists 0. split; [lia|]. split; [lia|]. unfold ztake. now rewrite take_nil. }
  destruct (valid_uncons l H Hne) as (c & r & -> & Hc & Hr). pose proof (proj1 Hc) as Hl. rewrite blen_app in Hn.
  destruct (Z.lt_ge_cases n (blen c)) as [|Hge].
  - exists n. split; [lia|]. split; [lia|]. now rewrite Z.sub_diag, ztake_take by lia.
  - destruct (IH r) with (n := n - blen c) as (t & Ht & Htn & Hv); [unfold ltof, blen in *; rewrite length_app; lia|done|lia|].
    exists t. split; [done|]. split; [lia|].
    replace (ztake (n - t) (c ++ r)) with (c ++ ztake (n - blen c - t) r); [now apply valid_cons|].
    rewrite ztake_app_ge by lia. do 2 f_equal. lia.
Qed.

(** ** Taking in strings *)
Definition wf (N : Z) (f : Fstr) : Prop := blen (fs_bytes f) = N /\ 0 <= fs_size f <= N.

Lemma new_ok {E} N bs trimmed : blen bs <= N ->
  exists f, new (E := E) N bs trimmed = Ok f /\ wf N f /\ len f = blen bs /\ is_trimmed f = trimmed /\
    as_bytes (E := E) f = Ok bs.
Proof.
  intros Hn. pose proof (blen_nonneg bs). unfold new, EncoderBuffer.copy_at.
  rewrite get_range_ok by (rewrite ?blen_zrep; lia). cbn [unwrap mbind outcome_bind]. eexists. split; [reflexivity|].
  unfold wf, as_bytes, len, is_trimmed. cbn [fs_bytes fs_size fs_trimmed]. rewrite Z.add_0_l.
  rewrite (ztake_take 0) by lia. change (take (Z.to_nat 0) (zrep N 0)) with ([] : bytes). cbn [app].
  assert (Hl : blen (bs ++ zdrop (blen bs) (zrep N 0)) = N) by (rewrite blen_app, blen_zdrop, blen_zrep; lia).
  splits; try done. rewrite get_range_ok by lia. cbn [unwrap]. f_equal. rewrite Z.sub_0_r, zdrop_0. now apply ztake_app_exact.
Qed.

(** The loop gives the largest valid size it tries, or the size it began with. *)
Lemma try_truncate_ok {E} bs size n truncate :
  0 <= truncate -> truncate + Z.of_nat n <= size <= blen bs ->
  exists r, try_truncate (E := E) bs size truncate n = Ok r /\
    ((exists t, truncate <= t < truncate + Z.of_nat n /\ r = size - t /\ valid (ztake r bs) = true /\
       forall u, truncate <= u < t -> valid (ztake (size - u) bs) = false) \/
     (r = size /\ forall u, truncate <= u < truncate + Z.of_nat n -> valid (ztake (size - u) bs) = false)).
Proof.
  revert truncate. induction n as [|n IH]; intros truncate H0 Hn; cbn [try_truncate].
  - exists size. split; [done|]. right. split; [done|]. lia.
  - rewrite get_range_ok by lia. cbn. rewrite Z.sub_0_r, zdrop_0.
    destruct (valid (ztake (size - truncate) bs)) eqn:Ev.
    + exists (size - truncate). split; [done|]. left. exists truncate. splits; [lia|lia|done|done|]. lia.
    + destruct (IH (truncate + 1)) as (r & -> & Hr); [lia|lia|]. exists r. split; [done|].
      assert (Hu : forall u m, (forall u, truncate + 1 <= u < m -> valid (ztake (size - u) bs) = false) ->
                   truncate <= u < m -> valid (ztake (size - u) bs) = false).
      { intros u m Hu Hm. destruct (Z.eq_dec u truncate) as [->|]; [done|]. apply Hu. lia. }
      destruct Hr as [(t & Ht & -> & Hv & Hb)|[-> Hb]].
      * left. exists t. splits; [lia|lia|done|done|]. intros u. now apply Hu.
      * right. split; [done|]. intros u Hm. apply (Hu u (truncate + 1 + Z.of_nat n)); [done|lia].
Qed.

Lemma from_str_safe {E} N s : 0 <= N -> safe (E := E) (wf N) (from_str N s).
Proof.
  intros HN. pose proof (blen_nonneg s). unfold from_str.
  apply (safe_bind (fun size => 0 <= size <= N /\ size <= blen s)).
  - destruct ((0 <? N) && (N <? blen s)) eqn:Eg; [|cbn; lia].
    destruct (try_truncate_ok (E := E) s (Z.min (blen s) N) (Z.to_nat (Z.min (Z.min (blen s) N) 4)) 0) as (r & -> & Hr); [lia|lia|].
    cbn. destruct Hr as [(t & Ht & -> & _)|[-> _]]; lia.
  - intros size [Hs Hl]. rewrite get_range_ok by lia. cbn [unwrap mbind outcome_bind]. rewrite Z.sub_0_r, zdrop_0.
    destruct (new_ok (E := E) N (ztake size s) (size <? blen s)) as (f & -> & Hw & _); [rewrite blen_ztake; lia|]. exact Hw.
Qed.

(** Whether some character boundary is in [1..N]. *)
Definition one_fits (N : Z) (s : bytes) : Prop := exists k, 0 < k <= N /\ k <= blen s /\ valid (ztake k s) = true.

(** The size [from_str] keeps. *)
Lemma from_str_size {E} N s : 0 <= N -> valid s = true ->
  exists size, 0 <= size <= N /\ size <= blen s /\
    (if (0 <? N) && (N <? blen s) then try_truncate (E := E) s (Z.min (blen s) N) 0 (Z.to_nat (Z.min (Z.min (blen s) N) 4))
     else Ok (Z.min (blen s) N)) = Ok size /\
    (one_fits N s \/ N = 0 \/ blen s = 0 -> valid (ztake size s) = true /\
       forall k, 0 <= k <= N -> k <= blen s -> valid (ztake k s) = true -> k <= size) /\
    (~ one_fits N s -> size = Z.min (blen s) N).
Proof.
  intros HN Hs. pose proof (blen_nonneg s). destruct (Z.ltb_spec 0 N), (Z.ltb_spec N (blen s)); cbn [andb];
    try (exists (Z.min (blen s) N); splits; try lia; try done; intros _; split; [|lia];
      first [rewrite ztake_ge by lia; done | replace (Z.min (blen s) N) with 0 by lia; now rewrite ztake_take by lia]).
  rewrite Z.min_r by lia.
  destruct (try_truncate_ok (E := E) s N (Z.to_nat (Z.min N 4)) 0) as (r & -> & Hr); [lia|lia|]. exists r.
  destruct Hr as [(t & Ht & -> & Hv & Hb)|[-> Hb]].
  - splits; try done; try lia.
    + intros _. split; [done|]. intros k Hk Hks Hvk. destruct (Z.le_gt_cases k (N - t)); [done|].
      specialize (Hb (N - k) ltac:(lia)). replace (N - (N - k)) with k in Hb by lia. congruence.
    + intros Hno. destruct Hno. exists (N - t). splits; [lia|lia|lia|done].
  - splits; try done; try lia. intros [(k & Hk & Hks & Hvk)|[?|?]]; [|lia|lia]. exfalso.
    destruct (boundary_near s N Hs ltac:(lia)) as (t & Ht & HtN & Hvt). destruct (Z.lt_ge_cases t N).
    + specialize (Hb t ltac:(lia)). congruence.
    + assert (N = t) by lia. subst t. specialize (Hb (N - k) ltac:(lia)). replace (N - (N - k)) with k in Hb by lia. congruence.
Qed.
End FixedStr.

(** A string of whole characters taken into a capacity of [N] bytes: the bytes kept
    are a prefix of it, marked as trimmed exactly when bytes were left out.  When a
    first character fits, or there is nothing to fit, what is kept is again a string
    and is the longest prefix of whole characters of at most [N] bytes; when no
    character fits, the first [N] bytes are kept as they are. *)
Theorem fixed_str_longest_prefix {E : Type} N s :
  0 <= N -> FixedStr.valid s = true ->
  exists f, FixedStr.from_str (E := E) N s = Ok f /\ FixedStr.wf N f /\
    FixedStr.as_bytes (E := E) f = Ok (ztake (FixedStr.len f) s) /\
    FixedStr.is_trimmed f = (FixedStr.len f <? blen s) /\
    (FixedStr.one_fits N s \/ N = 0 \/ blen s = 0 ->
       FixedStr.as_str (E := E) f = Ok (Some (ztake (FixedStr.len f) s)) /\
       forall k, 0 <= k <= N -> k <= blen s -> FixedStr.valid (ztake k s) = true -> k <= FixedStr.len f) /\
    (~ FixedStr.one_fits N s -> FixedStr.len f = Z.min (blen s) N).
Proof.
  intros HN Hs. destruct (FixedStr.from_str_size (E := E) N s HN Hs) as (size & Hsz & Hsl & Es & Hv & Hno). unfold FixedStr.from_str.
  rewrite Es. cbn [mbind outcome_bind]. rewrite get_range_ok by lia. cbn [unwrap mbind outcome_bind].
  rewrite Z.sub_0_r, zdrop_0.
  assert (Hb : blen (ztake size s) = size) by (rewrite blen_ztake; lia).
  destruct (FixedStr.new_ok (E := E) N (ztake size s) (size <? blen s)) as (f & -> & Hw & Hl & Ht & Ha); [lia|].
  exists f. rewrite Hb in Hl. rewrite Hl. splits; try done.
  - intros H. destruct (Hv H) as [Hval Hmax]. split; [|done]. unfold FixedStr.as_str. rewrite Ha. cbn [mbind outcome_bind].
    unfold FixedStr.valid in Hval. unfold from_utf8 in *. now destruct (utf8_validate 0 (ztake size s)).
Qed.

(** Four bytes hold one and a half characters of the three-byte string: one is kept. *)
Lemma fixed_str_longest_prefix_witness :
  exists f, FixedStr.from_str (E := unit) 4 [0xE2; 0x82; 0xAC; 0xE2; 0x82; 0xAC] = Ok f /\
    FixedStr.as_bytes (E := unit) f = Ok (ztake (FixedStr.len f) [0xE2; 0x82; 0xAC; 0xE2; 0x82; 0xAC]) /\ 3 <= FixedStr.len f.
Proof.
  destruct (fixed_str_longest_prefix (E := unit) 4 [0xE2; 0x82; 0xAC; 0xE2; 0x82; 0xAC]) as (f & Hf & _ & Hb & _ & Hm & _).
  - lia.
  - reflexivity.
  - exists f. split; [exact Hf|]. split; [exact Hb|]. apply Hm; [left; exists 3|lia|vm_compute; congruence|reflexivity].
    split; [lia|]. split; [vm_compute; congruence|reflexivity].
Defined.
