(* ===== verification/Vocab.v ===== *)
(** * The vocabulary of pool configurations (src/phys/pool.rs, src/phys/vdev.rs, src/phys/sector.rs)

    The states of a pool, the errata it may carry, the types of its virtual devices and
    the keys of its configuration, with the codes or names they go by on disk.
    Every code and every name stands for one member; every member but one is found
    under its name. *)

From S2P Require Import Prelude Errors Codec LabelChecksum.

Open Scope Z_scope.
Open Scope list_scope.

(** ** Matching on a name *)

(** [match s { "a" => Ok(A), ..., _ => Err(..) }] *)
Fixpoint match_str {T} (arms : list (string * T)) (s : bytes) : outcome unit T :=
  match arms with
  | [] => Err tt
  | (lit, x) :: arms' => if bool_decide (s = ascii_bytes lit) then Ok x else match_str arms' s
  end.

Lemma ascii_bytes_inj s t : ascii_bytes s = ascii_bytes t -> s = t.
Proof.
  unfold ascii_bytes. intros H. rewrite <- (String.string_of_list_ascii_of_string s), <- (String.string_of_list_ascii_of_string t).
  f_equal. apply (list_fmap_eq_inj _) in H; [done|]. intros c d E. apply N2Z.inj in E.
  rewrite <- (Ascii.ascii_N_embedding c), <- (Ascii.ascii_N_embedding d). now f_equal.
Qed.
Lemma match_str_in {T} (arms : list (string * T)) s x : match_str arms s = Ok x -> exists lit, s = ascii_bytes lit /\ (lit, x) ∈ arms.
Proof.
  induction arms as [|[lit y] arms IH]; cbn [match_str]; [done|]. case_bool_decide as E.
  - intros [= <-]. exists lit. split; [done|left].
  - intros (l & ? & ?)%IH. exists l. split; [done|now right].
Qed.
Lemma match_str_total {T} (arms : list (string * T)) s : safe (fun _ => True) (match_str arms s).
Proof. induction arms as [|[lit y] arms IH]; cbn [match_str]; [done|]. now case_bool_decide. Qed.

(** Arms that spell [name] find exactly the members they list. *)
Lemma match_str_exact {T} (arms : list (string * T)) (name : T -> string) `{!Inj eq eq name} s x :
  Forall (fun a => fst a = name (snd a)) arms ->
  match_str arms s = Ok x <-> s = ascii_bytes (name x) /\ x ∈ arms.*2.
Proof.
  intros Ha. split.
  - intros (lit & -> & Hin)%match_str_in. rewrite Forall_forall in Ha. pose proof (Ha _ Hin) as E. cbn in E. subst lit.
    split; [done|]. apply list_elem_of_fmap. now exists (name x, x).
  - intros [-> Hin]. induction Ha as [|[lit y] arms E _ IH]; [now apply not_elem_of_nil in Hin|]. cbn in E. subst lit. cbn [match_str].
    case_bool_decide as E.
    + apply ascii_bytes_inj, (inj name) in E. now subst.
    + apply IH. apply elem_of_cons in Hin as [E2|]; [|done]. cbn in E2. now subst.
Qed.

(** Which members a list of arms has is decided member by member. *)
Ltac listed x :=
  split; [intros [-> Hin]; first [reflexivity | split; [reflexivity|intros ->; apply (bool_decide_pack _) in Hin; vm_compute in Hin; exact Hin]]
         |intros Hs; first [split; [exact Hs|destruct x; apply (bool_decide_unpack _); vm_compute; exact I]
                           |destruct Hs as [Hs Hne]; split; [exact Hs|destruct x; first [destruct (Hne eq_refl)|apply (bool_decide_unpack _); vm_compute; exact I]]]].

Module PoolState.
Inductive t : Type :=
| Active | Exported | Destroyed | Spare | L2Cache.
#[global] Instance pool_state_eq_dec : EqDecision t. Proof. solve_decision. Defined.
Definition into_u64 (x : t) : Z := match x with Active => 0 | Exported => 1 | Destroyed => 2 | Spare => 3 | L2Cache => 4 end.
(** The error is the unknown code. *)
Definition try_from (code : Z) : outcome Z t :=
  match code with
  | 0 => Ok Active | 1 => Ok Exported | 2 => Ok Destroyed | 3 => Ok Spare | 4 => Ok L2Cache | _ => Err code
  end.
Definition display (x : t) : string :=
  match x with
  | Active => "Active" | Exported => "Exported" | Destroyed => "Destroyed" | Spare => "Spare"
  | L2Cache => "L2Cache"
  end%string.
Lemma pool_state_exact c x : try_from c = Ok x <-> c = into_u64 x.
Proof. split; [|intros ->; now destruct x]. unfold try_from. repeat case_match; try discriminate; intros [= <-]; reflexivity. Qed.
Lemma pool_state_safe c : safe (fun _ => True) (try_from c).
Proof. unfold try_from. repeat case_match; done. Qed.
End PoolState.
#[export] Hint Resolve PoolState.pool_state_safe : zfs codec.

Module PoolErrata.
Inductive t : Type :=
| None | Zol2094Scrub | Zol2094AsyncDestroy | Zol6845Encryption | Zol8308Encryption.
#[global] Instance pool_errata_eq_dec : EqDecision t. Proof. solve_decision. Defined.
Definition into_u64 (x : t) : Z := match x with None => 0 | Zol2094Scrub => 1 | Zol2094AsyncDestroy => 2 | Zol6845Encryption => 3 | Zol8308Encryption => 4 end.
(** The error is the unknown code. *)
Definition try_from (code : Z) : outcome Z t :=
  match code with
  | 0 => Ok None | 1 => Ok Zol2094Scrub | 2 => Ok Zol2094AsyncDestroy | 3 => Ok Zol6845Encryption
  | 4 => Ok Zol8308Encryption | _ => Err code
  end.
Definition display (x : t) : string :=
  match x with
  | None => "None" | Zol2094Scrub => "Zol2094Scrub" | Zol2094AsyncDestroy => "Zol2094AsyncDestroy"
  | Zol6845Encryption => "Zol6845Encryption" | Zol8308Encryption => "Zol8308Encryption"
  end%string.
Lemma pool_errata_exact c x : try_from c = Ok x <-> c = into_u64 x.
Proof. split; [|intros ->; now destruct x]. unfold try_from. repeat case_match; try discriminate; intros [= <-]; reflexivity. Qed.
Lemma pool_errata_safe c : safe (fun _ => True) (try_from c).
Proof. unfold try_from. repeat case_match; done. Qed.
End PoolErrata.
#[export] Hint Resolve PoolErrata.pool_errata_safe : zfs codec.

Module PoolConfigKey.
Inductive t : Type :=
| AllocateShift | Comment | Compatibility | Errata | FeaturesForRead | Guid | HostId | HostName | IsLog | IsSpare
| Name | PoolGuid | SplitGuid | State | TopGuid | Txg | VdevChildren | VdevTree | Version.
#[global] Instance pool_config_key_eq_dec : EqDecision t. Proof. solve_decision. Defined.
Definition name (x : t) : string :=
  match x with
  | AllocateShift => "ashift" | Comment => "comment" | Compatibility => "compatibility" | Errata => "errata"
  | FeaturesForRead => "features_for_read" | Guid => "guid" | HostId => "hostid" | HostName => "hostname"
  | IsLog => "is_log" | IsSpare => "is_spare" | Name => "name" | PoolGuid => "pool_guid"
  | SplitGuid => "split_guid" | State => "state" | TopGuid => "top_guid" | Txg => "txg"
  | VdevChildren => "vdev_children" | VdevTree => "vdev_tree" | Version => "version"
  end%string.
(** The error carries nothing. *)
Definition try_from (s : bytes) : outcome unit t :=
  match_str [
    ("comment", Comment); ("compatibility", Compatibility); ("errata", Errata);
    ("features_for_read", FeaturesForRead); ("guid", Guid); ("hostid", HostId); ("hostname", HostName);
    ("is_log", IsLog); ("is_spare", IsSpare); ("name", Name); ("pool_guid", PoolGuid); ("split_guid", SplitGuid);
    ("state", State); ("top_guid", TopGuid); ("txg", Txg); ("vdev_children", VdevChildren);
    ("vdev_tree", VdevTree); ("version", Version)]%string s.
Definition ALL : list t := [
  AllocateShift; Comment; Compatibility; Errata; FeaturesForRead; Guid; HostId; HostName; IsLog; IsSpare; Name;
  PoolGuid; State; TopGuid; Txg; VdevChildren; VdevTree; Version].
Definition all : list t := ALL.
(** [Into<&'static str>] *)
Definition str (x : t) : bytes := ascii_bytes (name x).

#[global] Instance pool_config_key_name_inj : Inj eq eq name.
Proof. intros [] []; vm_compute; congruence. Qed.
Lemma pool_config_key_exact s x : try_from s = Ok x <-> s = str x /\ x <> AllocateShift.
Proof.
  unfold try_from, str. rewrite (match_str_exact _ name) by (repeat constructor). listed x.
Qed.
Lemma pool_config_key_safe s : safe (fun _ => True) (try_from s).
Proof. apply match_str_total. Qed.
End PoolConfigKey.
#[export] Hint Resolve PoolConfigKey.pool_config_key_safe : zfs codec.

Module VdevType.
Inductive t : Type :=
| Disk | DRaid | DRaidSpare | File | Hole | Indirect | L2Cache | Log | Mirror | Missing | RaidZ | Replacing | Root
| Spare.
#[global] Instance vdev_type_eq_dec : EqDecision t. Proof. solve_decision. Defined.
Definition name (x : t) : string :=
  match x with
  | Root => "root" | Mirror => "mirror" | Replacing => "replacing" | RaidZ => "raidz" | Disk => "disk"
  | File => "file" | Missing => "missing" | Spare => "spare" | Log => "log" | L2Cache => "l2cache" | Hole => "hole"
  | Indirect => "indirect" | DRaid => "draid" | DRaidSpare => "dspare"
  end%string.
(** The error carries nothing. *)
Definition try_from (s : bytes) : outcome unit t :=
  match_str [
    ("root", Root); ("mirror", Mirror); ("replacing", Replacing); ("raidz", RaidZ); ("disk", Disk); ("file", File);
    ("missing", Missing); ("spare", Spare); ("log", Log); ("l2cache", L2Cache); ("hole", Hole);
    ("indirect", Indirect); ("draid", DRaid); ("dspare", DRaidSpare)]%string s.
(** [Into<&'static str>] *)
Definition str (x : t) : bytes := ascii_bytes (name x).

#[global] Instance vdev_type_name_inj : Inj eq eq name.
Proof. intros [] []; vm_compute; congruence. Qed.
Lemma vdev_type_exact s x : try_from s = Ok x <-> s = str x.
Proof.
  unfold try_from, str. rewrite (match_str_exact _ name) by (repeat constructor). listed x.
Qed.
Lemma vdev_type_safe s : safe (fun _ => True) (try_from s).
Proof. apply match_str_total. Qed.
End VdevType.
#[export] Hint Resolve VdevType.vdev_type_safe : zfs codec.

Module VdevTreeKey.
Inductive t : Type :=
| AllocateShift | AllocateSize | Children | CreateTxg | DevId | Guid | Id | IsLog | MetaSlabArray | MetaSlabShift
| NParity | Path | PhysPath | VdevType | WholeDisk.
#[global] Instance vdev_tree_key_eq_dec : EqDecision t. Proof. solve_decision. Defined.
Definition name (x : t) : string :=
  match x with
  | AllocateShift => "ashift" | AllocateSize => "asize" | Children => "children" | CreateTxg => "create_txg"
  | DevId => "devid" | Guid => "guid" | Id => "id" | IsLog => "is_log" | MetaSlabArray => "metaslab_array"
  | MetaSlabShift => "metaslab_shift" | NParity => "nparity" | Path => "path" | PhysPath => "phys_path"
  | VdevType => "type" | WholeDisk => "whole_disk"
  end%string.
(** The error carries nothing. *)
Definition try_from (s : bytes) : outcome unit t :=
  match_str [
    ("ashift", AllocateShift); ("asize", AllocateSize); ("create_txg", CreateTxg); ("children", Children);
    ("devid", DevId); ("guid", Guid); ("id", Id); ("is_log", IsLog); ("metaslab_array", MetaSlabArray);
    ("metaslab_shift", MetaSlabShift); ("nparity", NParity); ("path", Path); ("phys_path", PhysPath);
    ("type", VdevType); ("whole_disk", WholeDisk)]%string s.
Definition ALL : list t := [
  AllocateShift; AllocateSize; Children; CreateTxg; DevId; Guid; Id; IsLog; MetaSlabArray; MetaSlabShift; Path;
  PhysPath; VdevType; WholeDisk].
Definition all : list t := ALL.
(** [Into<&'static str>] *)
Definition str (x : t) : bytes := ascii_bytes (name x).

#[global] Instance vdev_tree_key_name_inj : Inj eq eq name.
Proof. intros [] []; vm_compute; congruence. Qed.
Lemma vdev_tree_key_exact s x : try_from s = Ok x <-> s = str x.
Proof.
  unfold try_from, str. rewrite (match_str_exact _ name) by (repeat constructor). listed x.
Qed.
Lemma vdev_tree_key_safe s : safe (fun _ => True) (try_from s).
Proof. apply match_str_total. Qed.
End VdevTreeKey.
#[export] Hint Resolve VdevTreeKey.vdev_tree_key_safe : zfs codec.

(** ** Sectors *)
Definition ASHIFT_MIN : Z := SECTOR_SHIFT.
Definition ASHIFT_MAX : Z := 16.
(** The trait's implementations for the unsigned widths are the same. *)
Definition is_multiple_of_sector_size (value : Z) : bool := Z.land value (Z.shiftl 1 SECTOR_SHIFT - 1) =? 0.
Lemma sector_multiple v : is_multiple_of_sector_size v = (v mod 512 =? 0).
Proof. unfold is_multiple_of_sector_size. change (Z.shiftl 1 SECTOR_SHIFT) with (2 ^ 9). now rewrite land_ones_mod by lia. Qed.

(** The names on disk: a string is taken for a type of device, or for a key of a vdev
    tree, exactly when it is the name of that member; the same holds of the
    keys of a pool configuration but for the allocation shift, which has a name and is
    not found under it.  Codes stand for one state and one erratum each. *)
Theorem vocabulary_exact :
  (forall s x, VdevType.try_from s = Ok x <-> s = VdevType.str x) /\
  (forall s x, VdevTreeKey.try_from s = Ok x <-> s = VdevTreeKey.str x) /\
  (forall s x, PoolConfigKey.try_from s = Ok x <-> s = PoolConfigKey.str x /\ x <> PoolConfigKey.AllocateShift) /\
  (forall c x, PoolState.try_from c = Ok x <-> c = PoolState.into_u64 x) /\
  (forall c x, PoolErrata.try_from c = Ok x <-> c = PoolErrata.into_u64 x).
Proof.
  splits; intros; [apply VdevType.vdev_type_exact|apply VdevTreeKey.vdev_tree_key_exact|apply PoolConfigKey.pool_config_key_exact
                  |apply PoolState.pool_state_exact|apply PoolErrata.pool_errata_exact].
Qed.
