(* ===== verification/Dataset.v ===== *)
(** * Datasets and their file systems (src/dataset.rs)

    The walk from the pool's object directory through the DSL directories to a
    dataset's object set, and through the directories of its file system to a
    file.  A pool is described by two trees: the datasets, each with its
    dnode array, and the files of one dataset.  When the devices hold the
    trees, the operations are lookups in them. *)

From S2P Require Import Prelude Errors Decoder Encoder Codec Types Dva BlockPointer Cksum Compress Vdev Dnode FileRead.
From S2P Require Import ObjectSet Zap Walk Dsl.

#[local] Set Warnings "-register-all".

Open Scope string_scope.
Open Scope Z_scope.
Open Scope list_scope.

Definition MOS_OBJECT_DIRECTORY : Z := 1.
Definition ZPL_MASTER_NODE : Z := 1.
Definition DIRENT_OBJ_MASK : Z := Z.shiftl 1 48 - 1.
Definition SA_MAGIC : Z := 0x002F505A.
Definition SA_SIZE_OFFSET_STD : Z := 8.

Record Dataset : Type := { meta_dnode : Dnode }.

Section operations.
Context {B : Build} {R : Type} `{BlockRead R} (topo : Topology).
Abbreviation M := (SM (list (PoolMember R)) Error).

Definition dsl_dir (mos : Dnode) (obj : Z) (order : EndianOrder) : M DslDirectory :=
  object ← read_object topo mos obj order;
  sm_lift (map_err (fun _ => Inconsistent "dsl_dir" (LDsl obj))
             (with_decoder order DslDir.from_decoder (od_bonus object))).

(** The loop over the components of a dataset's name. *)
Fixpoint child_dirs (mos : Dnode) (order : EndianOrder) (names : list bytes) (dir_obj : Z) : M Z :=
  match names with
  | [] => mret dir_obj
  | name :: names' =>
      dir ← dsl_dir mos dir_obj order;
      child_zap ← read_object_dnode topo mos (child_directory_zap_obj dir) order;
      found ← zap_lookup topo child_zap name order;
      dir_obj ← sm_lift (ok_or found (NotFound "dataset"));
      child_dirs mos order names' dir_obj
  end.

Definition open_dataset (mos : Dnode) (order : EndianOrder) (names : list bytes) : M Dataset :=
  objdir ← read_object_dnode topo mos MOS_OBJECT_DIRECTORY order;
  found ← zap_lookup topo objdir (ascii_bytes "root_dataset") order;
  dir_obj ← sm_lift (ok_or found (NotFound "root_dataset"));
  dir_obj ← child_dirs mos order names dir_obj;
  dir ← dsl_dir mos dir_obj order;
  ds_obj ← sm_lift (ok_or (head_dataset_obj dir) (NotFound "head_dataset"));
  ds_object ← read_object topo mos ds_obj order;
  ds ← sm_lift (map_err (fun _ => Inconsistent "dsl_dataset" (LDsl ds_obj))
                  (with_decoder order DslDs.from_decoder (od_bonus ds_object)));
  bp ← sm_lift (ok_or (ds_block_pointer ds) (Inconsistent "dataset_no_bp" (LDsl ds_obj)));
  objset ← read_objset topo bp order;
  mret {| meta_dnode := os_dnode objset |}.

(** [name.starts_with('$')]. *)
Definition starts_with_dollar (name : bytes) : bool :=
  match name with c :: _ => c =? 36 | [] => false end.

Definition child_dataset_names (mos : Dnode) (order : EndianOrder) (parent : list bytes) : M (list bytes) :=
  objdir ← read_object_dnode topo mos MOS_OBJECT_DIRECTORY order;
  found ← zap_lookup topo objdir (ascii_bytes "root_dataset") order;
  dir_obj ← sm_lift (ok_or found (NotFound "root_dataset"));
  dir_obj ← child_dirs mos order parent dir_obj;
  dir ← dsl_dir mos dir_obj order;
  child_zap ← read_object_dnode topo mos (child_directory_zap_obj dir) order;
  entries ← zap_entries topo child_zap order;
  mret (List.filter (fun name => negb (starts_with_dollar name)) (fst <$> entries)).

Definition root_dir_obj (dataset : Dataset) (order : EndianOrder) : M Z :=
  master ← read_object_dnode topo (meta_dnode dataset) ZPL_MASTER_NODE order;
  found ← zap_lookup topo master (ascii_bytes "ROOT") order;
  sm_lift (ok_or found (NotFound "ROOT")).

Definition list_dir (dataset : Dataset) (dir_obj : Z) (order : EndianOrder) : M (list (bytes * Z)) :=
  dir ← read_object_dnode topo (meta_dnode dataset) dir_obj order;
  zap_entries topo dir order.

(** The loop over the components of a path; the last one is the result. *)
Fixpoint components_loop (dataset : Dataset) (order : EndianOrder) (components : list bytes) (dir_obj : Z)
    (result : option (Z * Z)) : M (option (Z * Z)) :=
  match components with
  | [] => mret result
  | comp :: rest =>
      dir ← read_object_dnode topo (meta_dnode dataset) dir_obj order;
      found ← zap_lookup topo dir comp order;
      value ← sm_lift (ok_or found (NotFound "path"));
      let obj := Z.land value DIRENT_OBJ_MASK in
      if bool_decide (rest = []) then components_loop dataset order rest dir_obj (Some (obj, value))
      else components_loop dataset order rest obj result
  end.
Definition resolve_path (dataset : Dataset) (order : EndianOrder) (components : list bytes) : M (Z * Z) :=
  dir_obj ← root_dir_obj dataset order;
  result ← components_loop dataset order components dir_obj None;
  sm_lift (ok_or result (NotFound "empty_path")).
End operations.

Definition sa_file_size (bonus : bytes) (order : EndianOrder) : outcome Error Z :=
  let unsupported := UnsupportedFeature "sa_layout" in
  magic_bytes ← ok_or (get_range bonus 0 4) unsupported;
  guard_err (negb (int_from order magic_bytes =? SA_MAGIC)) unsupported;;
  info_bytes ← ok_or (get_range bonus 4 6) unsupported;
  let layout_info := int_from order info_bytes in
  let hdrsz := Z.land (Z.shiftr layout_info 10) 0x3f * 8 in
  let off := hdrsz + SA_SIZE_OFFSET_STD in
  size_bytes ← ok_or (get_range bonus off (off + 8)) unsupported;
  Ok (int_from order size_bytes).

(** ** What the devices hold *)
Section held.
Context {B : Build} {R : Type} `{BlockRead R} (topo : Topology) (o : EndianOrder) (ms : list (PoolMember R)).

(** Object [n] of a dnode array, in its slots. *)
Definition object_at (array : Dnode) (n : Z) (d : Dnode) (bonus : bytes) : Prop :=
  exists trees img,
    object_stored topo o ms array trees /\ blocks_sized array trees (512 * data_block_size_sectors array) /\
    0 < data_block_size_sectors array /\ object_image o img d bonus /\
    slots_at array trees n (extra_slots d + 1) = img /\ 0 <= n /\ 512 * (n + (extra_slots d + 1)) <= 2 ^ 64 /\
    n mod data_block_size_sectors array + (extra_slots d + 1) <= data_block_size_sectors array.

(** A ZAP object with a list of names and values, micro or fat. *)
Definition zap_at (d : Dnode) (l : list (bytes * Z)) : Prop :=
  exists trees, object_stored topo o ms d trees /\ 0 < data_block_size_sectors d /\
    ((exists h es rest, FileRead.blocks d trees = Some (micro_block o h es) :: rest /\ MicroHeader.wf h /\
        Forall entry_layable es /\ l = micro_pairs es) \/
     (exists pss, fat_zap o d trees pss /\ l = (fun '(n, v) => (n, value_as_u64 v)) <$> concat pss)).

Lemma object_at_reads array n d bonus :
  object_at array n d bonus -> read_object topo array n o ms = (Ok {| od_dnode := d; od_bonus := bonus |}, ms).
Proof using. intros (trees & img & Hst & Hbs & Hs & Hi & Hsl & Hn & Hm & Hf). eapply object_exact; eauto. Qed.

Lemma object_at_dnode array n d bonus :
  object_at array n d bonus -> read_object_dnode topo array n o ms = (Ok d, ms).
Proof using. intros Ho. unfold read_object_dnode. now rewrite (SM_run _ _ _ _ _ (object_at_reads _ _ _ _ Ho)). Qed.

Lemma zap_at_lists d l : zap_at d l -> zap_entries topo d o ms = (Ok l, ms).
Proof using.
  intros (trees & Hst & Hs & [(h & es & rest & Hb & Hh & Hes & ->)|(pss & Hf & ->)]).
  - eapply micro_lists; eauto.
  - eapply fat_lists; eauto.
Qed.

Lemma zap_at_lookup d l name : zap_at d l -> zap_lookup topo d name o ms = (Ok (find_name name l), ms).
Proof using. intros Hz. unfold zap_lookup. now rewrite (SM_run _ _ _ _ _ (zap_at_lists _ _ Hz)). Qed.

(** *** Datasets

    A dataset: the dnode array of its head, if it has one, and its children by
    name. *)
Inductive dsl_tree : Type := Ds (head : option Dnode) (children : list (bytes * dsl_tree)).

(** The head of a directory: the dataset's object, its record and its object set. *)
Definition head_at (mos : Dnode) (dir : DslDirectory) (head : option Dnode) : Prop :=
  match head with
  | None => head_dataset_obj dir = None
  | Some meta => exists ds_obj d ds rest bp s,
      head_dataset_obj dir = Some ds_obj /\ object_at mos ds_obj d (DslDs.layout o ds ++ rest) /\ bytes_ok rest /\
      DslDs.wf ds /\ Dn.ptr_layable o (ds_block_pointer ds) /\ ds_block_pointer ds = Some bp /\
      read_block_pointer topo bp ms = (Ok (Os.layout o s), ms) /\ Os.layable o s /\ os_dnode s = meta
  end.

Inductive dir_at (mos : Dnode) : Z -> dsl_tree -> Prop :=
| dir_at_node obj d dir rest zd zb entries head children :
    object_at mos obj d (DslDir.layout o dir ++ rest) -> bytes_ok rest -> DslDir.wf dir ->
    object_at mos (child_directory_zap_obj dir) zd zb -> zap_at zd entries ->
    Forall2 (fun e c => fst e = fst c /\ dir_at mos (snd e) (snd c)) entries children ->
    head_at mos dir head ->
    dir_at mos obj (Ds head children).

(** The pool: the object directory names the root dataset. *)
Definition pool_at (mos : Dnode) (t : dsl_tree) : Prop :=
  exists od ob entries root, object_at mos MOS_OBJECT_DIRECTORY od ob /\ zap_at od entries /\
    find_name (ascii_bytes "root_dataset") entries = Some root /\ dir_at mos root t.

(** The dataset at a path. *)
Fixpoint ds_find (t : dsl_tree) (names : list bytes) : option dsl_tree :=
  match names with
  | [] => Some t
  | name :: names' => let 'Ds _ children := t in c ← find_name name children; ds_find c names'
  end.

(** *** Files

    What a directory entry leads to: a directory of named entries, each with
    its directory-entry value, a regular file's contents, or something else. *)
Inductive node : Type :=
| Dir (entries : list (bytes * (Z * node)))
| File (contents : bytes)
| Special.

(** The system attributes of a file: header, mode, size and the rest. *)
Definition sa_bonus (size : Z) (bonus : bytes) : Prop :=
  exists words num hdr mode rest,
    bonus = (int_to o 4 SA_MAGIC ++ int_to o 2 (1024 * words + num) ++ hdr) ++ mode ++ int_to o 8 size ++ rest /\
    0 <= num < 1024 /\ 0 <= words < 64 /\ 6 + blen hdr = 8 * words /\ blen mode = 8 /\ fits 64 size.

Definition file_at (meta : Dnode) (obj : Z) (d : Dnode) (contents : bytes) : Prop :=
  exists bonus trees,
    object_at meta obj d bonus /\ sa_bonus (blen contents) bonus /\ object_stored topo o ms d trees /\
    blocks_sized d trees (512 * data_block_size_sectors d) /\ 0 < data_block_size_sectors d /\
    contents = span d trees (512 * data_block_size_sectors d) 0 (blen contents).

Inductive node_at (meta : Dnode) : Z -> node -> Prop :=
| node_at_dir obj d bonus entries :
    object_at meta obj d bonus -> zap_at d ((fun e => (fst e, fst (snd e))) <$> entries) ->
    Forall (fun e => node_at meta (Z.land (fst (snd e)) DIRENT_OBJ_MASK) (snd (snd e))) entries ->
    node_at meta obj (Dir entries)
| node_at_file obj d contents : file_at meta obj d contents -> node_at meta obj (File contents)
| node_at_special obj : node_at meta obj Special.

(** A file system: the master node names the root directory. *)
Definition fs_at (meta : Dnode) (t : node) : Prop :=
  exists md mb entries root, object_at meta ZPL_MASTER_NODE md mb /\ zap_at md entries /\
    find_name (ascii_bytes "ROOT") entries = Some root /\ node_at meta root t.

(** The entry at a path: [Blocked] when the path goes through a file. *)
Inductive path_result : Type := Found (value : Z) (n : node) | Missing | Blocked.
Fixpoint fs_find (t : node) (path : list bytes) : path_result :=
  match t, path with
  | _, [] => Missing
  | Dir entries, name :: path' =>
      match find_name name entries with
      | None => Missing
      | Some (value, n) => if bool_decide (path' = []) then Found value n else fs_find n path'
      end
  | _, _ :: _ => Blocked
  end.

Lemma find_name_fmap {V W} (f : V -> W) name (l : list (bytes * V)) :
  find_name name ((fun e => (fst e, f (snd e))) <$> l) = f <$> find_name name l.
Proof using.
  unfold find_name. induction l as [|[n v] l IH]; [done|]. rewrite fmap_cons. cbn [find fst snd].
  destruct (bool_decide (n = name)); [done|]. exact IH.
Qed.

Lemma find_name_elem {V} name (l : list (bytes * V)) v : find_name name l = Some v -> (name, v) ∈ l.
Proof using.
  unfold find_name. destruct (find _ l) as [[n w]|] eqn:Ef; [|done]. intros [= <-].
  apply find_some in Ef as [Hin Hn]. cbn in Hn. apply bool_decide_eq_true in Hn as ->. now apply list_elem_of_In.
Qed.

(** Lists related entry by entry find related values. *)
Lemma find_name_related {V W} (Q : V -> W -> Prop) name (l : list (bytes * V)) (k : list (bytes * W)) :
  Forall2 (fun e c => fst e = fst c /\ Q (snd e) (snd c)) l k ->
  match find_name name l, find_name name k with Some v, Some w => Q v w | None, None => True | _, _ => False end.
Proof using.
  unfold find_name. induction 1 as [|[n v] [n' w] l k [Hn Hq] Hl IH]; [done|]. cbn in Hn, Hq. subst n'. cbn [find fst].
  now destruct (bool_decide (n = name)).
Qed.

Lemma dsl_dir_held mos obj d dir rest :
  object_at mos obj d (DslDir.layout o dir ++ rest) -> bytes_ok rest -> DslDir.wf dir ->
  dsl_dir topo mos obj o ms = (Ok dir, ms).
Proof using.
  intros Ho Hr Hw. unfold dsl_dir. rewrite (SM_run _ _ _ _ _ (object_at_reads _ _ _ _ Ho)). unfold sm_lift. cbn [od_bonus].
  rewrite (with_decoder_reads o _ _ rest dir); [done|now apply DslDir.directory_reads|].
  apply Forall_app. split; [|done]. apply DslDir.directory_bytes_ok.
Qed.

Lemma child_dirs_find mos names : forall obj t,
  dir_at mos obj t ->
  exists r, child_dirs topo mos o names obj ms = (r, ms) /\
    match ds_find t names with
    | None => r = Err (NotFound "dataset")
    | Some t' => exists obj', r = Ok obj' /\ dir_at mos obj' t'
    end.
Proof using.
  induction names as [|name names IH]; intros obj t Ht; cbn [child_dirs ds_find]; [eexists; split; [done|eauto]|].
  destruct Ht as [obj d dir rest zd zb entries head children Ho Hr Hw Hz Hzap Hc Hh].
  rewrite (SM_run _ _ _ _ _ (dsl_dir_held _ _ _ _ _ Ho Hr Hw)), (SM_run _ _ _ _ _ (object_at_dnode _ _ _ _ Hz)).
  rewrite (SM_run _ _ _ _ _ (zap_at_lookup _ _ name Hzap)).
  pose proof (find_name_related _ name _ _ Hc) as Hf. unfold mbind, SM_bind, sm_lift, option_bind.
  destruct (find_name name entries) as [obj'|], (find_name name children) as [t'|]; try done; cbn [ok_or].
  - now apply IH.
  - eexists. split; reflexivity.
Qed.

(** The directory of a dataset, found from the root of the pool. *)
Lemma pool_walk mos t names :
  pool_at mos t ->
  exists r, (forall A (k : Z -> SM (list (PoolMember R)) Error A),
    (objdir ← read_object_dnode topo mos MOS_OBJECT_DIRECTORY o;
     found ← zap_lookup topo objdir (ascii_bytes "root_dataset") o;
     dir_obj ← sm_lift (ok_or found (NotFound "root_dataset"));
     dir_obj ← child_dirs topo mos o names dir_obj; k dir_obj) ms = (sm_lift r ≫= k) ms) /\
    match ds_find t names with
    | None => r = Err (NotFound "dataset")
    | Some t' => exists obj, r = Ok obj /\ dir_at mos obj t'
    end.
Proof using.
  intros (od & ob & entries & root & Ho & Hz & Hf & Hd).
  destruct (child_dirs_find mos names root t Hd) as (r & Hr & Hres). exists r. split; [intros A k|done].
  rewrite (SM_run _ _ _ _ _ (object_at_dnode _ _ _ _ Ho)), (SM_run _ _ _ _ _ (zap_at_lookup _ _ _ Hz)), Hf.
  rewrite (SM_run_lift _ _ _ root) by done. unfold mbind, SM_bind. now rewrite Hr.
Qed.

Lemma open_dataset_held mos t names :
  pool_at mos t ->
  open_dataset topo mos o names ms =
  (match ds_find t names with
   | None => Err (NotFound "dataset")
   | Some (Ds None _) => Err (NotFound "head_dataset")
   | Some (Ds (Some meta) _) => Ok {| meta_dnode := meta |}
   end, ms).
Proof using.
  intros Hp. destruct (pool_walk mos t names Hp) as (r & Hk & Hw). unfold open_dataset. rewrite Hk.
  destruct (ds_find t names) as [t'|]; [|now rewrite Hw]. destruct Hw as (obj & -> & Hd).
  rewrite (SM_run_lift _ _ _ obj) by done.
  destruct Hd as [obj d dir rest zd zb entries head children Ho Hr Hdw Hz Hzap Hc Hh].
  rewrite (SM_run _ _ _ _ _ (dsl_dir_held _ _ _ _ _ Ho Hr Hdw)). destruct head as [meta|]; cbn [head_at] in Hh.
  - destruct Hh as (ds_obj & dd & ds & rest' & bp & s & Hh & Hob & Hrb & Hds & Hl & Hbp & Hb & Hs & <-). rewrite Hh.
    rewrite (SM_run_lift _ _ _ ds_obj) by done. rewrite (SM_run _ _ _ _ _ (object_at_reads _ _ _ _ Hob)). cbn [od_bonus].
    rewrite (with_decoder_reads o DslDs.from_decoder _ rest' ds); [|now apply DslDs.dataset_reads|].
    2: { apply Forall_app. split; [now apply DslDs.dataset_layout_ok|done]. }
    rewrite (SM_run_lift _ _ _ ds) by done. rewrite Hbp, (SM_run_lift _ _ _ bp) by done.
    unfold read_objset. assert (Hos : with_decoder o Os.from_decoder (Os.layout o s) = Ok s).
    { apply with_decoder_ends; [now apply Os.ends_object_set|now apply Os.os_layout_ok]. }
    smunfold. rewrite Hb, Hos. done.
  - now rewrite Hh.
Qed.

Lemma child_names_held mos t names :
  pool_at mos t ->
  child_dataset_names topo mos o names ms =
  (match ds_find t names with
   | None => Err (NotFound "dataset")
   | Some (Ds _ children) => Ok (List.filter (fun name => negb (starts_with_dollar name)) (fst <$> children))
   end, ms).
Proof using.
  intros Hp. destruct (pool_walk mos t names Hp) as (r & Hk & Hw). unfold child_dataset_names. rewrite Hk.
  destruct (ds_find t names) as [t'|]; [|now rewrite Hw]. destruct Hw as (obj & -> & Hd).
  rewrite (SM_run_lift _ _ _ obj) by done.
  destruct Hd as [obj d dir rest zd zb entries head children Ho Hr Hdw Hz Hzap Hc Hh].
  rewrite (SM_run _ _ _ _ _ (dsl_dir_held _ _ _ _ _ Ho Hr Hdw)), (SM_run _ _ _ _ _ (object_at_dnode _ _ _ _ Hz)).
  rewrite (SM_run _ _ _ _ _ (zap_at_lists _ _ Hzap)). unfold mret, SM_ret. do 3 f_equal. clear -Hc.
  induction Hc as [|e c es cs [He _] Hes IH]; [done|]. now rewrite !fmap_cons, He, IH.
Qed.

(** The root directory of a file system. *)
Lemma root_dir_held meta t :
  fs_at meta t -> exists root, node_at meta root t /\ root_dir_obj topo {| meta_dnode := meta |} o ms = (Ok root, ms).
Proof using.
  intros (md & mb & entries & root & Ho & Hz & Hf & Hn). exists root. split; [done|]. unfold root_dir_obj. cbn [meta_dnode].
  now rewrite (SM_run _ _ _ _ _ (object_at_dnode _ _ _ _ Ho)), (SM_run _ _ _ _ _ (zap_at_lookup _ _ _ Hz)), Hf.
Qed.

Lemma components_find meta path : forall obj t,
  node_at meta obj t -> path <> [] ->
  match fs_find t path with
  | Found v n => node_at meta (Z.land v DIRENT_OBJ_MASK) n /\
      components_loop topo {| meta_dnode := meta |} o path obj None ms = (Ok (Some (Z.land v DIRENT_OBJ_MASK, v)), ms)
  | Missing => components_loop topo {| meta_dnode := meta |} o path obj None ms = (Err (NotFound "path"), ms)
  | Blocked => True
  end.
Proof using.
  induction path as [|name path IH]; intros obj t Ht Hp; [done|].
  destruct Ht as [obj d bonus entries Ho Hz Hc| |]; cbn [fs_find]; [|done|done].
  cbn [components_loop meta_dnode]. rewrite (SM_run _ _ _ _ _ (object_at_dnode _ _ _ _ Ho)).
  rewrite (SM_run _ _ _ _ _ (zap_at_lookup _ _ name Hz)), find_name_fmap.
  destruct (find_name name entries) as [[v n]|] eqn:Ef; [|reflexivity]. cbn [fmap option_fmap option_map fst].
  rewrite (SM_run_lift _ _ _ v) by done. apply find_name_elem in Ef. rewrite Forall_forall in Hc.
  specialize (Hc _ Ef). cbn [fst snd] in Hc. destruct (bool_decide_reflect (path = [])) as [->|Hne]; [now split|].
  specialize (IH _ n Hc Hne). destruct (fs_find n path); done.
Qed.

Lemma resolve_path_held meta t path :
  fs_at meta t -> path <> [] ->
  match fs_find t path with
  | Found v n => node_at meta (Z.land v DIRENT_OBJ_MASK) n /\
      resolve_path topo {| meta_dnode := meta |} o path ms = (Ok (Z.land v DIRENT_OBJ_MASK, v), ms)
  | Missing => resolve_path topo {| meta_dnode := meta |} o path ms = (Err (NotFound "path"), ms)
  | Blocked => True
  end.
Proof using.
  intros Hfs Hp. destruct (root_dir_held meta t Hfs) as (root & Hn & Hr).
  pose proof (components_find meta path root t Hn Hp) as Hc. unfold resolve_path. rewrite (SM_run _ _ _ _ _ Hr).
  unfold mbind, SM_bind. destruct (fs_find t path); [|now rewrite Hc|done].
  destruct Hc as [Hv ->]. now split.
Qed.

Lemma sa_file_size_held size bonus : sa_bonus size bonus -> sa_file_size bonus o = Ok size.
Proof using.
  intros (words & num & hdr & mode & rest & -> & Hn & Hw & Hh & Hm & Hs). unfold sa_file_size. rewrite <- !app_assoc.
  set (bs := int_to o 4 SA_MAGIC ++ _).
  assert (H1 : get_range bs 0 4 = Some (int_to o 4 SA_MAGIC)) by (eapply (get_range_at _ []); try reflexivity; now rewrite blen_int_to).
  assert (H2 : get_range bs 4 6 = Some (int_to o 2 (1024 * words + num))).
  { eapply get_range_at; [reflexivity|..]; now rewrite !blen_int_to. }
  assert (H3 : get_range bs (words * 8 + 8) (words * 8 + 8 + 8) = Some (int_to o 8 size)).
  { eapply (get_range_at _ (int_to o 4 SA_MAGIC ++ int_to o 2 (1024 * words + num) ++ hdr ++ mode) _ rest);
      [unfold bs; now rewrite <- !app_assoc|..]; rewrite !blen_app, !blen_int_to; lia. }
  rewrite H1. cbn [ok_or mbind outcome_bind]. rewrite int_from_to by (vm_compute; split; congruence).
  change (negb (SA_MAGIC =? SA_MAGIC)) with false. cbn [guard_err mbind outcome_bind].
  rewrite H2. cbn [ok_or mbind outcome_bind]. rewrite int_from_to by (unfold fits; cbn; lia).
  rewrite shiftr_div by lia. change 0x3f with (2 ^ 6 - 1). rewrite land_ones_mod by lia. change (2 ^ 10) with 1024.
  replace ((1024 * words + num) / 1024) with words by dlia. rewrite Z.mod_small by (cbn; lia).
  unfold SA_SIZE_OFFSET_STD. rewrite H3. cbn [ok_or mbind outcome_bind]. now rewrite int_from_to.
Qed.

Lemma sa_file_size_total bonus : bytes_ok bonus -> safe (fits 64) (sa_file_size bonus o).
Proof using.
  intros Hb. unfold sa_file_size.
  eapply (safe_bind (fun _ => True)); [now apply safe_ok_or|]. intros m _. eapply safe_bind; [apply safe_guard|]. intros _ _.
  eapply (safe_bind (fun _ => True)); [now apply safe_ok_or|]. intros i _.
  eapply (safe_bind (fun b => bytes_ok b /\ blen b = 8)).
  - apply safe_ok_or. intros b Hr. split; [eapply bytes_ok_get_range; eauto|]. apply blen_get_range in Hr. lia.
  - intros b [Hok Hl]. apply (int_from_fits o b 8); [done|]. exact Hl.
Qed.
End held.

(** ** Example: a pool with one dataset, on one disk *)
Definition word_ok (w : Z) : bool := fitsb 64 w.
(** A pointer with one address and fields in range. *)
Definition pointer_okb (r : BlockPointerRegular) : bool :=
  let '(a, b, c, d) := checksum_value r in
  word_ok a && word_ok b && word_ok c && word_ok d &&
  match dva0 r, dva1 r, dva2 r with
  | Some v, None, None => fitsb 24 (allocated v) && (1 <=? allocated v) && fitsb 63 (offset_ v) && fitsb 24 (vdev v)
  | _, _, _ => false
  end && word_ok (fill_count r) && fitsb 5 (level r) && word_ok (logical_birth_txg r) &&
  (1 <=? logical_sectors r) && (logical_sectors r <=? 2 ^ 16) && word_ok (physical_birth_txg r) &&
  (1 <=? physical_sectors r) && (physical_sectors r <=? 2 ^ 16).

Lemma pointer_okb_encodable r : pointer_okb r = true -> Bp.encodable (Regular r).
Proof.
  unfold pointer_okb, word_ok. destruct (checksum_value r) as [[[a b] c] d] eqn:Ec.
  destruct (dva0 r) as [v|] eqn:E0; [|rewrite !andb_false_r; done].
  destruct (dva1 r) eqn:E1; [rewrite !andb_false_r; done|]. destruct (dva2 r) eqn:E2; [rewrite !andb_false_r; done|].
  rewrite !andb_true_iff, !fitsb_spec, !Z.leb_le. intros Hb. decompose [and] Hb. clear Hb.
  assert (Hv : Dva.wf v) by (unfold Dva.wf; tauto).
  unfold Bp.encodable, Bp.regular_encodable, Bp.regular_wf. rewrite Ec, E0, E1, E2.
  split; [unfold Bp.dva_wf, ChecksumValue_.wf; tauto|].
  split; [intros w [= <-]; now split|]. split; intros w [=].
Qed.

(** An ordinary object with one direct block. *)
Definition object_okb (o : EndianOrder) (d : Dnode) : bool :=
  match tail d with
  | TailOne (Some (Regular r)) cap =>
      pointer_okb r && bool_decide (bytes_ok cap) && (blen cap =? Dn.ONE_BONUS_SIZE) &&
      negb (forallb (Z.eqb 0) (Bp.encoding o (Regular r)))
  | _ => false
  end &&
  fitsb 8 (indirect_block_shift d) && (levels d =? 1) && fitsb 16 (data_block_size_sectors d) && fitsb 16 (bonus_len d) &&
  (bonus_len d <=? 320) && (extra_slots d =? 0) && fitsb 64 (max_block_id d) && fitsb 64 (Dn.used_amount (used d)) &&
  negb (forallb (Z.eqb 0) (Dn.layout o d)).

Lemma object_okb_layable o d : object_okb o d = true -> Dn.option_layable o (Some d) /\ extra_slots d = 0.
Proof.
  unfold object_okb. destruct (tail d) as [|[[| |r]|] cap| | |] eqn:Et; try discriminate.
  rewrite !andb_true_iff, !negb_true_iff, !fitsb_spec, !Z.leb_le, !Z.eqb_eq, bool_decide_eq_true.
  intros Hb. decompose [and] Hb. clear Hb. assert (Hp : Bp.encodable (Regular r)) by now apply pointer_okb_encodable.
  split; [|done]. unfold Dn.option_layable, Dn.dnode_wf, Dn.tail_layable, Dn.tail_wf, Dn.bonus_capacity. rewrite Et.
  cbn [Dn.pointers_of Dn.bonus_of]. splits; try done; try (apply Forall_singleton; first [exact (proj1 Hp)|now split]).
  all: try (unfold fits; lia). match goal with H : blen cap = _ |- _ => rewrite H end. done.
Qed.

(** The objects of the example: a ZAP, a DSL record and a file, each with one
    block; blocks stand one after the other from sector 8. *)
Definition pool_object (data : bytes) (sector : Z) (bonus : bytes) : Dnode := {|
  bonus_len := blen bonus; bonus_type := DmuType.SystemAttribute; dn_checksum := ChecksumType.Fletcher4;
  dn_compression := CompressionType.Off; data_block_size_sectors := blen data / 512; extra_slots := 0;
  dn_dmu := DmuType.DirectoryContents; indirect_block_shift := 17; levels := 1; max_block_id := 0;
  tail := TailOne (Some (Regular (sample_pointer data sector))) (bonus ++ zrep (Dn.ONE_BONUS_SIZE - blen bonus) 0);
  used := UsedBytes 512; user_obj_used_accounted := true; user_used_accounted := true |}.
Definition zap_header0 : ZapMicroHeader :=
  {| mi_salt := 5; mi_case_normalization := ZapCaseNormalization.None; mi_unicode_normalization := ZapUnicodeNormalization.None |}.
Definition zap_slots (l : list (string * Z)) : list (option ZapMicroEntryRef) :=
  ((fun '(n, v) => Some {| cd := 0; name := ascii_bytes n; value := v |}) <$> l) ++ replicate (7 - length l) None.
Definition zap_data (l : list (string * Z)) : bytes := micro_block Little zap_header0 (zap_slots l).
Definition sample_dir (head : option Z) (zap : Z) : DslDirectory := {|
  dd_creation_time := 1; head_dataset_obj := head; parent_directory_obj := None; origin_dataset_obj := None;
  child_directory_zap_obj := zap; dd_used_bytes := 0; dd_compressed_bytes := 0; dd_uncompressed_bytes := 0;
  dd_quota := 0; dd_reserved := 0; properties_zap_obj := 9; delegation_zap_obj := None; used_breakdown := None;
  clones := 0 |}.

(** The file system: a root directory with one file. *)
Definition motd : bytes := Eval vm_compute in ascii_bytes "Welcome to the sample pool".
Definition motd_data : bytes := Eval vm_compute in motd ++ zrep (512 - blen motd) 0.
Definition motd_sa : bytes := Eval vm_compute in
  int_to Little 4 SA_MAGIC ++ int_to Little 2 (1024 * 1 + 2) ++ [0; 0] ++ int_to Little 8 33188 ++
  int_to Little 8 (blen motd) ++ zrep 16 7.
Definition motd_value : Z := 8 * 2 ^ 60 + 3.
Definition master_data : bytes := Eval vm_compute in zap_data [("ROOT", 2)].
Definition rootdir_data : bytes := Eval vm_compute in zap_data [("motd", motd_value)].
Definition master_object : Dnode := Eval vm_compute in pool_object master_data 9 [].
Definition rootdir_object : Dnode := Eval vm_compute in pool_object rootdir_data 10 [].
Definition motd_object : Dnode := Eval vm_compute in pool_object motd_data 8 motd_sa.
Definition fs_data : bytes := Eval vm_compute in
  zrep 512 0 ++ Dn.layout Little master_object ++ Dn.layout Little rootdir_object ++ Dn.layout Little motd_object.
Definition fs_array : Dnode := Eval vm_compute in pool_object fs_data 11 [].
Definition pool_set : ObjectSet := {|
  os_dnode := fs_array;
  zil_header := {| claim_blk_seq := 1; claim_lr_seq := 2; claim_txg := 3; zil_flags := 0; log := None; replay_seq := 4 |};
  os_type := ObjectSetType.ZFS; user_accounting_complete := true; user_object_accounting_complete := false;
  project_quota_complete := true; portable_mac := zrep 32 7; local_mac := zrep 32 8; extension := ExtZero |}.
Definition objset_data : bytes := Eval vm_compute in Os.layout Little pool_set.

(** The pool: a root dataset without a head, and its child BOOT. *)
Definition objset_bp : BlockPointer := Regular (sample_pointer objset_data 15).
Definition boot_ds : DslDataSet := {|
  ds_dir_obj := 4; prev_snapshot_obj := None; prev_snapshot_txg := None; next_snapshot_obj := None;
  snapshot_names_zap_obj := None; num_children := 0; ds_creation_time := 1; creation_txg := 1; deadlist_obj := 0;
  referenced_bytes := 0; ds_compressed_bytes := 0; ds_uncompressed_bytes := 0; unique_bytes := 0; fsid_guid := 7;
  ds_guid := 8; ds_flags := 4; ds_block_pointer := Some objset_bp; next_clones_obj := 0; snapshot_props_obj := None;
  user_refs_obj := 0 |}.
Definition objdir_data : bytes := Eval vm_compute in zap_data [("config", 20); ("root_dataset", 2)].
Definition children_data : bytes := Eval vm_compute in zap_data [("BOOT", 4); ("$MOS", 4)].
Definition nochildren_data : bytes := Eval vm_compute in zap_data [].
Definition objdir_object : Dnode := Eval vm_compute in pool_object objdir_data 17 [].
Definition rootds_object : Dnode := Eval vm_compute in
  pool_object nochildren_data 19 (DslDir.layout Little (sample_dir None 3)).
Definition children_object : Dnode := Eval vm_compute in pool_object children_data 18 [].
Definition boot_object : Dnode := Eval vm_compute in
  pool_object nochildren_data 19 (DslDir.layout Little (sample_dir (Some 5) 6)).
Definition bootds_object : Dnode := Eval vm_compute in pool_object nochildren_data 19 (DslDs.layout Little boot_ds).
Definition nochildren_object : Dnode := Eval vm_compute in pool_object nochildren_data 19 [].
Definition mos_data : bytes := Eval vm_compute in
  zrep 512 0 ++ concat (Dn.layout Little <$>
    [objdir_object; rootds_object; children_object; boot_object; bootds_object; nochildren_object]) ++ zrep 512 0.
Definition mos_array : Dnode := Eval vm_compute in pool_object mos_data 20 [].
Definition pool_disks : list (PoolMember extent) := Eval vm_compute in
  [disk (LABEL_RESERVE + 4096) (motd_data ++ master_data ++ rootdir_data ++ fs_data ++ objset_data ++ objdir_data ++
     children_data ++ nochildren_data ++ mos_data)].
Definition boot_tree : dsl_tree := Ds (Some fs_array) [].
Definition pool_tree : dsl_tree := Ds None [(ascii_bytes "BOOT", boot_tree); (ascii_bytes "$MOS", boot_tree)].
Definition file_tree : node := Dir [(ascii_bytes "motd", (motd_value, File motd))].

(** *** The disk holds the trees *)
Section sample_blocks.
Context {R : Type} `{BlockRead R} (ms : list (PoolMember R)).
#[local] Existing Instance plain_build.

(** The one block of an object, with whole sectors. *)
Definition block_held (d : Dnode) (data : bytes) : Prop :=
  levels d = 1 /\ indirect_block_shift d = 17 /\
  (exists bp, Dn.pointers d = [Some bp] /\ read_block_pointer disk_topo bp ms = (Ok data, ms)) /\
  blen data = 512 * data_block_size_sectors d /\ 0 < data_block_size_sectors d.

Lemma block_held_stored d data :
  block_held d data ->
  object_stored disk_topo Little ms d [Leaf data] /\ FileRead.blocks d [Leaf data] = [Some data] /\
  blocks_sized d [Leaf data] (512 * data_block_size_sectors d).
Proof.
  intros (Hl & Hi & (bp & Hp & Hr) & Hb & Hs).
  destruct (direct_stored disk_topo Little ms d [bp] [data] Hl Hi Hp) as [Hst Hbl]; [now repeat constructor|].
  change (Leaf <$> [data]) with [Leaf data] in *. change (Some <$> [data]) with [Some data] in Hbl.
  split; [exact Hst|]. split; [exact Hbl|]. unfold blocks_sized. rewrite Hbl.
  apply Forall_singleton. now intros ? [= <-].
Qed.

Lemma sample_object_at array data n d bonus :
  block_held array data -> object_okb Little d = true ->
  slots_at array [Leaf data] n 1 = Dn.layout Little d -> bonus = ztake (bonus_len d) (Dn.bonus_capacity d) ->
  0 <= n < data_block_size_sectors array -> data_block_size_sectors array <= 2 ^ 16 ->
  object_at disk_topo Little ms array n d bonus.
Proof.
  intros Hb Hd Hs -> Hn Hm. destruct (block_held_stored array data Hb) as (Hst & Hbl & Hbs).
  destruct (object_okb_layable Little d Hd) as [Hlay Hx]. exists [Leaf data], (Dn.layout Little d). rewrite Hx.
  splits; try done; try lia; [now apply image_small|]. rewrite Z.mod_small by lia. lia.
Qed.

(** The entries of an example's ZAP are in range. *)
Definition entry_okb (e : option ZapMicroEntryRef) : bool :=
  match e with
  | Some e => fitsb 32 (cd e) && fitsb 64 (value e) && bool_decide (bytes_ok (name e)) && (blen (name e) <=? MicroEntry.NAME_MAX) &&
              bool_decide (Forall (fun b => b <> 0) (name e)) && negb (bool_decide (name e = [])) &&
              match from_utf8 (name e) with Ok n => bool_decide (n = name e) | _ => false end
  | None => true
  end.
Lemma entries_okb_layable es : forallb entry_okb es = true -> Forall entry_layable es.
Proof.
  rewrite forallb_forall, Forall_forall. intros He e Hin%list_elem_of_In. specialize (He e Hin).
  destruct e as [e|]; [|done]. cbn [entry_okb] in He.
  rewrite !andb_true_iff, !fitsb_spec, !bool_decide_eq_true, Z.leb_le, negb_true_iff, bool_decide_eq_false in He.
  unfold entry_layable, MicroEntry.wf. destruct (from_utf8 (name e)) as [n| |]; [|destruct He as [_ He]; discriminate..]. rewrite bool_decide_eq_true in He.
  decompose [and] He. splits; try done. now f_equal.
Qed.

Lemma sample_zap_at d l pairs :
  block_held d (zap_data l) -> forallb entry_okb (zap_slots l) = true -> pairs = micro_pairs (zap_slots l) ->
  zap_at disk_topo Little ms d pairs.
Proof.
  intros Hb He ->. destruct (block_held_stored d _ Hb) as (Hst & Hbl & _). exists [Leaf (zap_data l)].
  split; [done|]. split; [apply Hb|]. left. exists zap_header0, (zap_slots l), []. split; [exact Hbl|].
  split; [vm_compute; split; congruence|]. split; [now apply entries_okb_layable|done].
Qed.
End sample_blocks.

(** Every block of the example, and its sector. *)
Definition pool_blocks : list (bytes * Z) :=
  [(motd_data, 8); (master_data, 9); (rootdir_data, 10); (fs_data, 11); (objset_data, 15); (objdir_data, 17); (children_data, 18);
   (nochildren_data, 19); (mos_data, 20)].
Section sample.
#[local] Existing Instance plain_build.
Context {R : Type} `{BlockRead R} (ms : list (PoolMember R)).
Hypothesis Hread : Forall (fun b => read_block_pointer disk_topo (Regular (sample_pointer (fst b) (snd b))) ms = (Ok (fst b), ms)) pool_blocks.
Lemma read_sample i data sector : pool_blocks !! i = Some (data, sector) ->
  read_block_pointer disk_topo (Regular (sample_pointer data sector)) ms = (Ok data, ms).
Proof using Hread. intros Hi. exact (proj1 (Forall_lookup _ _) Hread i _ Hi). Qed.
Ltac held i := split; [reflexivity|]; split; [reflexivity|]; split;
  [eexists; split; [|exact (read_sample i _ _ eq_refl)]; vm_compute; reflexivity|]; split; vm_compute; reflexivity.
Ltac object_held i data :=
  apply (sample_object_at _ _ data); [held i|vm_compute; reflexivity|vm_compute; reflexivity|vm_compute; reflexivity
    |vm_compute; split; congruence|vm_compute; congruence].
Ltac zap_held i l := apply (sample_zap_at _ _ l); [held i|vm_compute; reflexivity|vm_compute; reflexivity].

Lemma sample_motd_held : file_at disk_topo Little ms fs_array 3 motd_object motd.
Proof.
  exists motd_sa, [Leaf motd_data]. split; [object_held 3%nat fs_data|].
  split; [|destruct (block_held_stored ms motd_object motd_data) as (Hst & _ & Hbs); [held 0%nat|];
    split; [exact Hst|]; split; [exact Hbs|]; split; vm_compute; reflexivity].
  exists 1, 2, [0; 0], (int_to Little 8 33188), (zrep 16 7). splits; first [vm_compute; reflexivity | vm_compute; repeat split; congruence].
Qed.

Lemma sample_file_tree_held : fs_at disk_topo Little ms fs_array file_tree.
Proof.
  exists master_object, [], [(ascii_bytes "ROOT", 2)], 2. split; [object_held 3%nat fs_data|].
  split; [zap_held 1%nat [("ROOT", 2)]|]. split; [vm_compute; reflexivity|].
  apply (node_at_dir _ _ _ _ _ rootdir_object []); [object_held 3%nat fs_data|zap_held 2%nat [("motd", motd_value)]|].
  apply Forall_singleton. apply (node_at_file _ _ _ _ _ motd_object), sample_motd_held.
Qed.

Lemma sample_boot_head_held : head_at disk_topo Little ms mos_array (sample_dir (Some 5) 6) (Some fs_array).
Proof.
  exists 5, bootds_object, boot_ds, [], objset_bp, pool_set. split; [reflexivity|].
  split; [rewrite app_nil_r; object_held 8%nat mos_data|]. split; [constructor|].
  assert (Hp : Bp.encodable objset_bp) by (apply pointer_okb_encodable; vm_compute; reflexivity).
  assert (Hl : Dn.ptr_layable Little (Some objset_bp)) by (split; [exact Hp|vm_compute; reflexivity]).
  assert (Hd : Dn.option_layable Little (Some fs_array)) by (apply object_okb_layable; vm_compute; reflexivity).
  split; [unfold DslDs.wf; splits; try (vm_compute; repeat split; congruence); exact (proj1 Hp)|].
  split; [exact Hl|]. split; [reflexivity|]. split; [exact (read_sample 4%nat _ _ eq_refl)|]. split; [|reflexivity].
  split; [|split; [exact Hd|split; exact I]].
  split; [exact (proj1 Hd)|]. split; [unfold Zil.wf; splits; try (vm_compute; split; congruence); exact I|].
  splits; try reflexivity; (apply Forall_replicate; unfold is_byte; lia) || exact I.
Qed.

Lemma sample_dir_wf head zap : ref_wf head -> fits 64 zap -> zap <> 0 -> DslDir.wf (sample_dir head zap).
Proof. intros. unfold DslDir.wf. splits; cbn; try done; try (vm_compute; split; congruence). Qed.

Lemma sample_boot_dir_held : dir_at disk_topo Little ms mos_array 4 boot_tree.
Proof.
  apply (dir_at_node _ _ _ _ 4 boot_object (sample_dir (Some 5) 6) [] nochildren_object [] []).
  - rewrite app_nil_r. object_held 8%nat mos_data.
  - constructor.
  - apply sample_dir_wf; vm_compute; repeat split; congruence.
  - object_held 8%nat mos_data.
  - zap_held 7%nat (@nil (string * Z)).
  - constructor.
  - exact sample_boot_head_held.
Qed.

Lemma sample_pool_tree_held : pool_at disk_topo Little ms mos_array pool_tree.
Proof.
  exists objdir_object, [], [(ascii_bytes "config", 20); (ascii_bytes "root_dataset", 2)], 2.
  split; [object_held 8%nat mos_data|]. split; [zap_held 5%nat [("config", 20); ("root_dataset", 2)]|]. split; [vm_compute; reflexivity|].
  apply (dir_at_node _ _ _ _ 2 rootds_object (sample_dir None 3) [] children_object [] [(ascii_bytes "BOOT", 4); (ascii_bytes "$MOS", 4)]).
  - rewrite app_nil_r. object_held 8%nat mos_data.
  - constructor.
  - apply sample_dir_wf; vm_compute; repeat split; congruence.
  - object_held 8%nat mos_data.
  - zap_held 6%nat [("BOOT", 4); ("$MOS", 4)].
  - repeat constructor; exact sample_boot_dir_held.
  - reflexivity.
Qed.
End sample.

Lemma pool_disks_read : Forall (fun b => read_block_pointer (B := plain_build) disk_topo (Regular (sample_pointer (fst b) (snd b))) pool_disks =
  (Ok (fst b), pool_disks)) pool_blocks.
Proof. repeat (constructor; [vm_compute; reflexivity|]). constructor. Qed.
Lemma motd_held : file_at (B := plain_build) disk_topo Little pool_disks fs_array 3 motd_object motd.
Proof. exact (sample_motd_held pool_disks pool_disks_read). Qed.
Lemma file_tree_held : fs_at (B := plain_build) disk_topo Little pool_disks fs_array file_tree.
Proof. exact (sample_file_tree_held pool_disks pool_disks_read). Qed.
Lemma pool_tree_held : pool_at (B := plain_build) disk_topo Little pool_disks mos_array pool_tree.
Proof. exact (sample_pool_tree_held pool_disks pool_disks_read). Qed.

(** ** What the walk promises *)

(** C11: On a pool whose devices hold a tree of datasets, opening a dataset is a lookup
    of its path in the tree: the dnode array of its head, or the error for a
    name that is missing or a dataset without a head; listing the children of
    a dataset returns their names, those that start with a dollar left out. *)
Theorem open_dataset_refines {B : Build} {R} `{BlockRead R} topo o (ms : list (PoolMember R)) mos t names :
  pool_at topo o ms mos t ->
  open_dataset topo mos o names ms =
    (match ds_find t names with
     | None => Err (NotFound "dataset")
     | Some (Ds None _) => Err (NotFound "head_dataset")
     | Some (Ds (Some meta) _) => Ok {| meta_dnode := meta |}
     end, ms) /\
  child_dataset_names topo mos o names ms =
    (match ds_find t names with
     | None => Err (NotFound "dataset")
     | Some (Ds _ children) => Ok (List.filter (fun name => negb (starts_with_dollar name)) (fst <$> children))
     end, ms).
Proof. intros Hp. split; [now apply open_dataset_held|now apply child_names_held]. Qed.

Lemma open_dataset_refines_witness :
  open_dataset (B := plain_build) disk_topo mos_array Little [ascii_bytes "BOOT"] pool_disks =
    (Ok {| meta_dnode := fs_array |}, pool_disks) /\
  child_dataset_names (B := plain_build) disk_topo mos_array Little [ascii_bytes "BOOT"] pool_disks = (Ok [], pool_disks).
Proof. apply (open_dataset_refines (B := plain_build) disk_topo Little pool_disks mos_array pool_tree [ascii_bytes "BOOT"] pool_tree_held). Defined.

(** C12: On a dataset whose file system is held, resolving a path is a lookup in the
    tree of directories: the object number and directory-entry value of the
    entry, or the error for a missing component or an empty path.  The object
    number is the value's low 48 bits, and the object there is the entry's. *)
Theorem resolve_path_refines {B : Build} {R} `{BlockRead R} topo o (ms : list (PoolMember R)) meta t path :
  fs_at topo o ms meta t ->
  let resolved := resolve_path topo {| meta_dnode := meta |} o path ms in
  if bool_decide (path = []) then resolved = (Err (NotFound "empty_path"), ms)
  else match fs_find t path with
       | Found v n => resolved = (Ok (v mod 2 ^ 48, v), ms) /\ node_at topo o ms meta (v mod 2 ^ 48) n
       | Missing => resolved = (Err (NotFound "path"), ms)
       | Blocked => True
       end.
Proof.
  intros Hfs. cbv zeta. assert (Hm : forall v, Z.land v DIRENT_OBJ_MASK = v mod 2 ^ 48).
  { intros v. change DIRENT_OBJ_MASK with (2 ^ 48 - 1). now apply land_ones_mod. }
  case_bool_decide as Hp.
  - subst path. destruct (root_dir_held topo o ms meta t Hfs) as (root & _ & Hr). unfold resolve_path.
    now rewrite (SM_run _ _ _ _ _ Hr).
  - pose proof (resolve_path_held topo o ms meta t path Hfs Hp) as Hres. destruct (fs_find t path); [|done|done].
    rewrite Hm in Hres. now destruct Hres.
Qed.

Lemma resolve_path_refines_witness :
  resolve_path (B := plain_build) disk_topo {| meta_dnode := fs_array |} Little [ascii_bytes "motd"] pool_disks =
    (Ok (3, 8 * 2 ^ 60 + 3), pool_disks).
Proof.
  apply (resolve_path_refines (B := plain_build) disk_topo Little pool_disks fs_array file_tree [ascii_bytes "motd"]
    file_tree_held).
Defined.

(** The size of a file is the second attribute after its header, whatever the
    header's length and whatever follows; for any bonus the result fits 64 bits
    or is an error, never a panic. *)
Theorem sa_file_size_exact o size bonus any :
  sa_bonus o size bonus -> bytes_ok any ->
  sa_file_size bonus o = Ok size /\ safe (fits 64) (sa_file_size any o).
Proof. intros Hs Ha. split; [now apply sa_file_size_held|now apply sa_file_size_total]. Qed.

Lemma sa_file_size_exact_witness :
  sa_file_size motd_sa Little = Ok 26 /\ safe (fits 64) (sa_file_size [90; 80; 47; 0; 0; 252] Little).
Proof.
  apply (sa_file_size_exact Little 26 motd_sa [90; 80; 47; 0; 0; 252]).
  - exists 1, 2, [0; 0], (int_to Little 8 33188), (zrep 16 7).
    splits; first [vm_compute; reflexivity | vm_compute; repeat split; congruence].
  - repeat constructor; unfold is_byte; lia.
Defined.
