(* ===== verification/Uberblock.v ===== *)
(** * Uberblocks (src/phys/uberblock.rs, src/phys/spa.rs)

    An uberblock is a slot of a label's array: it carries a transaction group
    and the block pointer to the meta object set, is signed like the other
    label blocks and is written in either byte order.  An encoded uberblock
    decodes to itself; decoding any slot never panics. *)

From S2P Require Import Prelude Errors Decoder Encoder Codec Types Dva BlockPointer Stream Fletcher Sha256 LabelChecksum Dnode.
From Stdlib Require Import Btauto.

Open Scope Z_scope.
Open Scope list_scope.

(** ** Versions of the storage pool allocator *)
Module SpaVersion.
Inductive t : Type :=
| V1 | V2 | V3 | V4 | V5 | V6 | V7 | V8 | V9 | V10 | V11 | V12 | V13 | V14 | V15 | V16 | V17 | V18 | V19 | V20 | V21
| V22 | V23 | V24 | V25 | V26 | V27 | V28 | V5000.
#[global] Instance spa_eq_dec : EqDecision t. Proof. solve_decision. Defined.

Definition into_u64 (v : t) : Z :=
  match v with
  | V1 => 1 | V2 => 2 | V3 => 3 | V4 => 4 | V5 => 5 | V6 => 6 | V7 => 7 | V8 => 8 | V9 => 9 | V10 => 10
  | V11 => 11 | V12 => 12 | V13 => 13 | V14 => 14 | V15 => 15 | V16 => 16 | V17 => 17 | V18 => 18 | V19 => 19
  | V20 => 20 | V21 => 21 | V22 => 22 | V23 => 23 | V24 => 24 | V25 => 25 | V26 => 26 | V27 => 27 | V28 => 28
  | V5000 => 5000
  end.
Definition try_from (version : Z) : outcome Z t :=
  match version with
  | 1 => Ok V1 | 2 => Ok V2 | 3 => Ok V3 | 4 => Ok V4 | 5 => Ok V5 | 6 => Ok V6 | 7 => Ok V7 | 8 => Ok V8 | 9 => Ok V9
  | 10 => Ok V10 | 11 => Ok V11 | 12 => Ok V12 | 13 => Ok V13 | 14 => Ok V14 | 15 => Ok V15 | 16 => Ok V16
  | 17 => Ok V17 | 18 => Ok V18 | 19 => Ok V19 | 20 => Ok V20 | 21 => Ok V21 | 22 => Ok V22 | 23 => Ok V23
  | 24 => Ok V24 | 25 => Ok V25 | 26 => Ok V26 | 27 => Ok V27 | 28 => Ok V28 | 5000 => Ok V5000
  | _ => Err version
  end.

Lemma spa_roundtrip v : fits 64 (into_u64 v) /\ try_from (into_u64 v) = Ok v /\ into_u64 v <> 0.
Proof. destruct v; (split; [unfold fits; cbn; lia|]); split; (reflexivity || discriminate). Qed.
Lemma spa_safe c : safe (fun _ => True) (try_from c).
Proof. unfold try_from. repeat case_match; done. Qed.
End SpaVersion.
#[export] Hint Resolve SpaVersion.spa_safe : zfs.

(** ** Multi-modifier protection *)
Record UberBlockMmp : Type := {
  delay : Z;
  fail_intervals : option Z;
  sequence : option Z;
  write_interval : option Z
}.

Module Mmp.
Definition SIZE : Z := 24.
Definition MAGIC : Z := 0x00000000a11cea11.
Definition CONFIG_WRITE_INTERVAL_BIT_FLAG : Z := Z.shiftl 1 0.
Definition CONFIG_SEQUENCE_BIT_FLAG : Z := Z.shiftl 1 1.
Definition CONFIG_FAIL_INTERVALS_BIT_FLAG : Z := Z.shiftl 1 2.
Definition CONFIG_RESERVED_MASK : Z :=
  Z.lxor (Z.lxor (Z.lxor 0xff CONFIG_FAIL_INTERVALS_BIT_FLAG) CONFIG_SEQUENCE_BIT_FLAG) CONFIG_WRITE_INTERVAL_BIT_FLAG.
Definition CONFIG_WRITE_INTERVAL_SHIFT : Z := 8.
Definition CONFIG_WRITE_INTERVAL_MASK_DOWN_SHIFTED : Z := Z.shiftl 1 24 - 1.
Definition CONFIG_SEQUENCE_SHIFT : Z := 32.
Definition CONFIG_FAIL_INTERVALS_SHIFT : Z := 48.
Definition WRITE_INTERVAL_MAX : Z := wrap 32 CONFIG_WRITE_INTERVAL_MASK_DOWN_SHIFTED.

Inductive DecodeError : Type :=
| DEndian (err : BinaryDecodeError)
| DInvalidMagic (magic : Z)
| DNonZeroReservedConfigBits (config : Z)
| DNonZeroValues (magic delay config : Z).
Inductive EncodeError : Type :=
| EBinary (err : BinaryEncodeError)
| EWriteIntervalTooLarge (write_interval : Z).

(** A field that is there when its flag is set, and zero otherwise. *)
Definition flagged (config flag v : Z) (e : DecodeError) : outcome DecodeError (option Z) :=
  if negb (Z.land config flag =? 0) then Ok (Some v) else if negb (v =? 0) then Err e else Ok None.

Definition from_decoder (BD : BinaryDecoder) : SM BinaryDecoderBuffer DecodeError (option UberBlockMmp) :=
  magic ← sm_map_err DEndian get_u64;
  delay ← sm_map_err DEndian get_u64;
  config ← sm_map_err DEndian get_u64;
  if magic =? 0 then
    sm_guard (negb (delay =? 0) || negb (config =? 0)) (DNonZeroValues magic delay config);; mret None
  else if magic =? MAGIC then
    sm_guard (negb (Z.land config CONFIG_RESERVED_MASK =? 0)) (DNonZeroReservedConfigBits config);;
    let nonzero := DNonZeroValues magic delay config in
    let fail_intervals := wrap 16 (Z.shiftr config CONFIG_FAIL_INTERVALS_SHIFT) in
    let sequence := wrap 16 (Z.shiftr config CONFIG_SEQUENCE_SHIFT) in
    let write_interval :=
      wrap 32 (Z.land (Z.shiftr config CONFIG_WRITE_INTERVAL_SHIFT) CONFIG_WRITE_INTERVAL_MASK_DOWN_SHIFTED) in
    fail_intervals ← sm_lift (flagged config CONFIG_FAIL_INTERVALS_BIT_FLAG fail_intervals nonzero);
    sequence ← sm_lift (flagged config CONFIG_SEQUENCE_BIT_FLAG sequence nonzero);
    write_interval ← sm_lift (flagged config CONFIG_WRITE_INTERVAL_BIT_FLAG write_interval nonzero);
    mret (Some {| delay := delay; fail_intervals := fail_intervals; sequence := sequence;
                  write_interval := write_interval |})
  else sm_err (DInvalidMagic magic).

Definition config_of (m : UberBlockMmp) : outcome EncodeError Z :=
  let fail := match fail_intervals m with
              | Some v => Z.lor (Z.shiftl v CONFIG_FAIL_INTERVALS_SHIFT) CONFIG_FAIL_INTERVALS_BIT_FLAG
              | None => 0
              end in
  let seq := match sequence m with
             | Some v => Z.lor (Z.shiftl v CONFIG_SEQUENCE_SHIFT) CONFIG_SEQUENCE_BIT_FLAG
             | None => 0
             end in
  write ← match write_interval m with
          | Some v =>
              guard_err (CONFIG_WRITE_INTERVAL_MASK_DOWN_SHIFTED <? v) (EWriteIntervalTooLarge v);;
              Ok (Z.lor (Z.shiftl v CONFIG_WRITE_INTERVAL_SHIFT) CONFIG_WRITE_INTERVAL_BIT_FLAG)
          | None => Ok 0
          end;
  Ok (Z.lor (Z.lor fail seq) write).

Definition to_encoder (BE : BinaryEncoder) (m : UberBlockMmp) : SM BinaryEncoderBuffer EncodeError unit :=
  sm_map_err EBinary (put_u64 MAGIC);;
  sm_map_err EBinary (put_u64 (delay m));;
  config ← sm_lift (config_of m);
  sm_map_err EBinary (put_u64 config).

Definition opt_fits (w : Z) (x : option Z) : Prop := match x with Some v => fits w v | None => True end.
Definition wf (m : UberBlockMmp) : Prop :=
  fits 64 (delay m) /\ opt_fits 16 (fail_intervals m) /\ opt_fits 16 (sequence m) /\ opt_fits 24 (write_interval m).

Definition flag_if (x : option Z) (f : Z) : Z := match x with Some _ => f | None => 0 end.
Definition flags_of (m : UberBlockMmp) : Z :=
  flag_if (fail_intervals m) 4 + flag_if (sequence m) 2 + flag_if (write_interval m) 1.
(** The configuration word as a number. *)
Definition config_word (m : UberBlockMmp) : Z :=
  flags_of m + default 0 (write_interval m) * 2 ^ 8 + default 0 (sequence m) * 2 ^ 32 + default 0 (fail_intervals m) * 2 ^ 48.

Lemma flagged_safe config flag v e w : fits w v -> safe (opt_fits w) (flagged config flag v e).
Proof. intros Hv. unfold flagged. destruct (negb _); [done|]. now destruct (negb _). Qed.

Lemma hoare_mmp BD {L : BinaryDecoderLaws BD} w :
  hoare (DecoderBuffer.inv w) (from_decoder BD) (fun m => match m with Some m => wf m | None => True end).
Proof.
  unfold from_decoder. do 3 ccall. destruct (_ =? 0); [ccall; now apply hoare_ret|].
  destruct (_ =? MAGIC); [|apply hoare_err]. ccall.
  eapply hoare_bind; [apply hoare_lift, (flagged_safe _ _ _ _ 16), wrap_fits; lia|]. intros fi Hfi.
  eapply hoare_bind; [apply hoare_lift, (flagged_safe _ _ _ _ 16), wrap_fits; lia|]. intros sq Hsq.
  eapply hoare_bind; [apply hoare_lift, (flagged_safe _ _ _ _ 24)|].
  { change CONFIG_WRITE_INTERVAL_MASK_DOWN_SHIFTED with (2 ^ 24 - 1). rewrite land_ones_mod by lia. unfold wrap, fits.
    pose proof (Z.mod_pos_bound (Z.shiftr a1 CONFIG_WRITE_INTERVAL_SHIFT) (2 ^ 24) ltac:(lia)).
    rewrite Z.mod_small; lia. }
  intros wi Hwi. apply hoare_ret. now splits.
Qed.

Lemma default_fits w x : 0 <= w -> opt_fits w x -> fits w (default 0 x).
Proof. intros Hw. destruct x; [done|]. intros _. cbn. unfold fits. pose proof (Z.pow_pos_nonneg 2 w). lia. Qed.

Lemma config_of_word m : wf m -> config_of m = Ok (config_word m).
Proof.
  intros (_ & Hf & Hs & Hw). unfold config_of, config_word, flags_of.
  assert (Hg : forall v, write_interval m = Some v -> (CONFIG_WRITE_INTERVAL_MASK_DOWN_SHIFTED <? v) = false).
  { intros v Hv. rewrite Hv in Hw. apply Z.ltb_ge. unfold opt_fits, fits in Hw.
    change CONFIG_WRITE_INTERVAL_MASK_DOWN_SHIFTED with (2 ^ 24 - 1). lia. }
  set (fi := default 0 (fail_intervals m)). set (sq := default 0 (sequence m)). set (wi := default 0 (write_interval m)).
  set (ff := flag_if (fail_intervals m) 4). set (sf := flag_if (sequence m) 2). set (wf := flag_if (write_interval m) 1).
  assert (Hb : fits 16 fi /\ fits 16 sq /\ fits 24 wi).
  { unfold fi, sq, wi. splits; now apply default_fits. }
  assert (E : (match fail_intervals m with
               | Some v => Z.lor (Z.shiftl v CONFIG_FAIL_INTERVALS_SHIFT) CONFIG_FAIL_INTERVALS_BIT_FLAG | None => 0 end) =
              Z.lor (Z.shiftl fi 48) ff) by (unfold fi, ff; now destruct (fail_intervals m)).
  rewrite E. clear E.
  assert (E : (match sequence m with
               | Some v => Z.lor (Z.shiftl v CONFIG_SEQUENCE_SHIFT) CONFIG_SEQUENCE_BIT_FLAG | None => 0 end) =
              Z.lor (Z.shiftl sq 32) sf) by (unfold sq, sf; now destruct (sequence m)).
  rewrite E. clear E.
  assert (E : (match write_interval m with
               | Some v => guard_err (CONFIG_WRITE_INTERVAL_MASK_DOWN_SHIFTED <? v) (EWriteIntervalTooLarge v);;
                   Ok (Z.lor (Z.shiftl v CONFIG_WRITE_INTERVAL_SHIFT) CONFIG_WRITE_INTERVAL_BIT_FLAG)
               | None => Ok 0 end) = Ok (Z.lor (Z.shiftl wi 8) wf)).
  { unfold wi, wf. destruct (write_interval m) as [v|]; [|done]. now rewrite (Hg v eq_refl). }
  rewrite E. clear E. cbn [mbind outcome_bind]. f_equal.
  assert (Hfl : Z.lor (Z.lor ff sf) wf = ff + sf + wf /\ 0 <= ff + sf + wf < 2 ^ 8).
  { unfold ff, sf, wf, flag_if. destruct (fail_intervals m), (sequence m), (write_interval m); vm_compute; splits; congruence. }
  destruct Hfl as [Hfl Hr]. destruct Hb as (Hb1 & Hb2 & Hb3). unfold fits in *.
  transitivity (Z.lor (Z.lor (Z.lor (Z.lor (Z.lor ff sf) wf) (Z.shiftl wi 8)) (Z.shiftl sq 32)) (Z.shiftl fi 48)).
  { apply Z.bits_inj'. intros n _. rewrite !Z.lor_spec.
    destruct (Z.testbit (Z.shiftl fi 48) n), (Z.testbit ff n), (Z.testbit (Z.shiftl sq 32) n), (Z.testbit sf n),
      (Z.testbit (Z.shiftl wi 8) n), (Z.testbit wf n); reflexivity. }
  rewrite Hfl, (lor_shiftl_add _ wi), (lor_shiftl_add _ sq), (lor_shiftl_add _ fi) by lia. lia.
Qed.

Lemma config_word_fits m : wf m -> fits 64 (config_word m).
Proof.
  intros (_ & Hf & Hs & Hw). unfold config_word, flags_of, flag_if, opt_fits, fits in *.
  destruct (fail_intervals m), (sequence m), (write_interval m); cbn; lia.
Qed.

Definition layout (o : EndianOrder) (m : option UberBlockMmp) : bytes :=
  match m with
  | Some m => int_to o 8 MAGIC ++ int_to o 8 (delay m) ++ int_to o 8 (config_word m)
  | None => zrep SIZE 0
  end.

(** Flags are in the low byte. *)
Lemma config_flag m f : 0 <= f < 256 -> Z.land (config_word m) f = Z.land (flags_of m) f.
Proof.
  intros Hf. assert (E : Z.land 255 f = f).
  { rewrite Z.land_comm. change 255 with (2 ^ 8 - 1). rewrite land_ones_mod by lia. now apply Z.mod_small. }
  rewrite <- E, !Z.land_assoc. f_equal. change 255 with (2 ^ 8 - 1). rewrite !land_ones_mod by lia.
  unfold config_word. rewrite <- (Z.mod_add (flags_of m)
    (default 0 (write_interval m) + default 0 (sequence m) * 2 ^ 24 + default 0 (fail_intervals m) * 2 ^ 40)) by lia.
  f_equal. lia.
Qed.

Lemma flagged_word config flag (x : option Z) v e :
  Z.land config flag = flag_if x flag -> flag <> 0 -> v = default 0 x -> flagged config flag v e = Ok x.
Proof.
  intros Hf Hn ->. unfold flagged. rewrite Hf. destruct x as [v|]; cbn; [|done].
  now rewrite (proj2 (Z.eqb_neq _ _) Hn).
Qed.

Lemma config_fields m :
  wf m ->
  wrap 16 (Z.shiftr (config_word m) 48) = default 0 (fail_intervals m) /\
  wrap 16 (Z.shiftr (config_word m) 32) = default 0 (sequence m) /\
  wrap 32 (Z.land (Z.shiftr (config_word m) 8) (2 ^ 24 - 1)) = default 0 (write_interval m).
Proof.
  intros (_ & Hf & Hs & Hw). rewrite land_ones_mod, !shiftr_div by lia. unfold wrap, config_word.
  assert (Hr : 0 <= flags_of m < 8) by (unfold flags_of, flag_if; repeat case_match; lia).
  assert (Hb : fits 16 (default 0 (fail_intervals m)) /\ fits 16 (default 0 (sequence m)) /\ fits 24 (default 0 (write_interval m))).
  { splits; now apply default_fits. }
  unfold fits in Hb. splits; dlia.
Qed.

Lemma mmp_reads o m :
  match m with Some m => wf m | None => True end -> reads (from_decoder (endian_decoder o)) (layout o m) m.
Proof.
  intros Hm. unfold from_decoder. destruct m as [m|]; cbn [layout].
  - pose proof (config_word_fits m Hm) as Hc. destruct (config_fields m Hm) as (Ef & Es & Ew).
    pose proof Hm as (Hd & _). assert (Hmg : fits 64 MAGIC) by (vm_compute; split; congruence).
    do 2 cread. apply reads_last. cread. change (MAGIC =? 0) with false. rewrite Z.eqb_refl. cbv iota.
    assert (Hfl : forall f, 0 <= f < 256 -> Z.land (config_word m) f = Z.land (flags_of m) f) by apply config_flag.
    cguard; [rewrite Hfl by (vm_compute; split; congruence);
      unfold flags_of, flag_if; destruct (fail_intervals m), (sequence m), (write_interval m); reflexivity|].
    cbv zeta. unfold CONFIG_FAIL_INTERVALS_SHIFT, CONFIG_SEQUENCE_SHIFT, CONFIG_WRITE_INTERVAL_SHIFT.
    change CONFIG_WRITE_INTERVAL_MASK_DOWN_SHIFTED with (2 ^ 24 - 1). rewrite Ef, Es, Ew.
    rewrite (flagged_word _ CONFIG_FAIL_INTERVALS_BIT_FLAG (fail_intervals m)),
      (flagged_word _ CONFIG_SEQUENCE_BIT_FLAG (sequence m)), (flagged_word _ CONFIG_WRITE_INTERVAL_BIT_FLAG (write_interval m));
      try discriminate; try reflexivity;
      try (rewrite Hfl by (vm_compute; split; congruence); unfold flags_of, flag_if;
           destruct (fail_intervals m), (sequence m), (write_interval m); reflexivity).
    do 3 (eapply reads_bind_nil; [now apply Bp.reads_lift|]). destruct m; apply reads_ret.
  - change (zrep SIZE 0) with (zrep 8 0 ++ zrep 8 0 ++ zrep 8 0).
    replace (zrep 8 0) with (int_to o 8 0) by now destruct o. assert (H0 : fits 64 0) by (vm_compute; split; congruence).
    do 2 cread. apply reads_last. cread. cbv iota. apply reads_last. cguard; [done|apply reads_ret].
Qed.

Lemma mmp_writes o m : wf m -> writes (to_encoder (endian_encoder o) m) (layout o (Some m)).
Proof.
  intros Hm. unfold to_encoder. cbn [layout]. do 2 cwrite. rewrite (config_of_word m Hm).
  intros e He Ha. unfold mbind, SM_bind, sm_lift. now apply w_u64.
Qed.

Lemma blen_mmp o m : blen (layout o m) = SIZE.
Proof. destruct m; cbn [layout]; [|done]. now rewrite !blen_app, !blen_int_to. Qed.
Lemma mmp_bytes_ok o m : bytes_ok (layout o m).
Proof. destruct m; cbn [layout]; [rewrite !Forall_app; auto with zfs|apply bytes_ok_zrep]. Qed.
End Mmp.

(** ** Uberblocks *)
Record UberBlock : Type := {
  checkpoint_txg : Z;
  raidz_reflow_info : Z;
  ub_order : EndianOrder;
  guid_sum : Z;
  mmp : option UberBlockMmp;
  ptr : BlockPointer;
  software_version : option SpaVersion.t;
  timestamp : Z;
  txg : Z;
  version : SpaVersion.t
}.

Module Ub.
Definition TOTAL_SIZE : Z := 131072.
Definition TOTAL_SECTORS : Z := wrap 32 (Z.shiftr TOTAL_SIZE SECTOR_SHIFT).
Definition MAGIC : Z := 0x0000000000bab10c.

Definition is_newer_than (self other : UberBlock) : bool :=
  (txg other <? txg self) || ((txg self =? txg other) && (timestamp other <? timestamp self)).

Definition get_shift_from_version_ashift (version : SpaVersion.t) (ashift : Z) : Z :=
  let min_shift := 10 in
  let max_shift := match version with
                   | SpaVersion.V1 => 10
                   | SpaVersion.V5000 => 13
                   | _ => 17
                   end in
  wrap 32 (Z.max min_shift (Z.min ashift max_shift)).

Inductive DecodeError : Type :=
| DBinary (err : BinaryDecodeError)
| DBlockPointer (err : Bp.DecodeError)
| DEmptyBlockPointer
| DLabelVerify (err : LabelVerifyError)
| DSpaVersion (version : Z)
| DUberBlockMmp (err : Mmp.DecodeError).
Inductive EncodeError : Type :=
| EBinary (err : BinaryEncodeError)
| EBlockPointer (err : Bp.EncodeError)
| ELabelChecksum (err : LabelChecksumError)
| EUberBlockMmp (err : Mmp.EncodeError).

(** Whether a slot is zero but for its version, and its tail when [exclude_checksum]. *)
Definition bytes_are_empty (data : bytes) (exclude_checksum : bool) : bool :=
  match DecoderBuffer.skip_zeros 8 (DecoderBuffer.from_bytes data) with
  | (Ok _, b) =>
      match DecoderBuffer.skip 8 b with
      | (Ok _, b) =>
          match checked_sub (DecoderBuffer.len b) (if exclude_checksum then ChecksumTail_.SIZE else 0) with
          | Some rest_size =>
              match DecoderBuffer.skip_zeros rest_size b with (Ok _, _) => true | _ => false end
          | None => false
          end
      | _ => false
      end
  | _ => false
  end.

(** The zeros between the fields and the tail. *)
Definition skip_rest (BD : BinaryDecoder) (length : Z) : SM BinaryDecoderBuffer DecodeError unit :=
  b ← sm_get;
  rest_size ← sm_lift (ok_or (checked_sub (DecoderBuffer.len b) ChecksumTail_.SIZE)
    (DBinary (EndOfInput (Decoder.offset b) length (DecoderBuffer.capacity b) ChecksumTail_.SIZE)));
  sm_map_err DBinary (d_skip_zeros rest_size).

Definition software_from (v : Z) : outcome DecodeError (option SpaVersion.t) :=
  if v =? 0 then Ok None else s ← map_err DSpaVersion (SpaVersion.try_from v); Ok (Some s).

Definition body_from_decoder (BD : BinaryDecoder) (order : EndianOrder) (length : Z) :
    SM BinaryDecoderBuffer DecodeError (option UberBlock) :=
  v ← sm_map_err DBinary get_u64;
  version ← sm_lift (map_err DSpaVersion (SpaVersion.try_from v));
  txg ← sm_map_err DBinary get_u64;
  guid_sum ← sm_map_err DBinary get_u64;
  timestamp ← sm_map_err DBinary get_u64;
  bp ← sm_map_err DBlockPointer Bp.from_decoder;
  ptr ← sm_lift (ok_or bp DEmptyBlockPointer);
  v ← sm_map_err DBinary get_u64;
  software_version ← sm_lift (software_from v);
  mmp ← sm_map_err DUberBlockMmp (Mmp.from_decoder BD);
  checkpoint_txg ← sm_map_err DBinary get_u64;
  raidz_reflow_info ← sm_map_err DBinary get_u64;
  skip_rest BD length;;
  mret (Some {| checkpoint_txg := checkpoint_txg; raidz_reflow_info := raidz_reflow_info; ub_order := order;
                guid_sum := guid_sum; mmp := mmp; ptr := ptr; software_version := software_version;
                timestamp := timestamp; txg := txg; version := version |}).

Definition from_bytes (x86 : bool) (data : bytes) (offset : Z) : outcome DecodeError (option UberBlock) :=
  match label_verify x86 data offset with
  | Err err => if bytes_are_empty data false then Ok None else Err (DLabelVerify err)
  | Panic => Panic
  | Ok _ =>
      match from_u64_magic data MAGIC with
      | Err (InvalidU64Magic _ _ as err) => if bytes_are_empty data true then Ok None else Err (DBinary err)
      | Err err => Err (DBinary err)
      | Panic => Panic
      | Ok (o, b) => fst (body_from_decoder (endian_decoder o) o (blen data) b)
      end
  end.

Definition body_to_encoder (BE : BinaryEncoder) (u : UberBlock) : SM BinaryEncoderBuffer EncodeError unit :=
  sm_map_err EBinary (put_u64 MAGIC);;
  sm_map_err EBinary (put_u64 (SpaVersion.into_u64 (version u)));;
  sm_map_err EBinary (put_u64 (txg u));;
  sm_map_err EBinary (put_u64 (guid_sum u));;
  sm_map_err EBinary (put_u64 (timestamp u));;
  sm_map_err EBlockPointer (Bp.to_encoder (ptr u));;
  sm_map_err EBinary (put_u64 (match software_version u with Some v => SpaVersion.into_u64 v | None => 0 end));;
  match mmp u with
  | Some m => sm_map_err EUberBlockMmp (Mmp.to_encoder BE m)
  | None => sm_map_err EBinary (put_zeros Mmp.SIZE)
  end;;
  sm_map_err EBinary (put_u64 (checkpoint_txg u));;
  sm_map_err EBinary (put_u64 (raidz_reflow_info u)).

Definition put_rest (BE : BinaryEncoder) : SM BinaryEncoderBuffer EncodeError unit :=
  e ← sm_get;
  rest_size ← sm_lift (ok_or (checked_sub (EncoderBuffer.available e) ChecksumTail_.SIZE)
    (EBinary (EndOfOutput (eoffset e) (EncoderBuffer.capacity e) ChecksumTail_.SIZE)));
  sm_map_err EBinary (put_zeros rest_size).

(** The caller's buffer with the uberblock in it, signed. *)
Definition to_bytes (x86 : bool) (data : bytes) (offset : Z) (u : UberBlock) : outcome EncodeError bytes :=
  let BE := endian_encoder (ub_order u) in
  match (body_to_encoder BE u;; put_rest BE) {| edata := data; eoffset := 0 |} with
  | (Ok _, e) => map_err ELabelChecksum (label_checksum x86 (edata e) offset (ub_order u))
  | (Err err, _) => Err err
  | (Panic, _) => Panic
  end.

Definition software_wf (v : option SpaVersion.t) : Z := match v with Some v => SpaVersion.into_u64 v | None => 0 end.
Definition wf (u : UberBlock) : Prop :=
  fits 64 (checkpoint_txg u) /\ fits 64 (raidz_reflow_info u) /\ fits 64 (guid_sum u) /\
  match mmp u with Some m => Mmp.wf m | None => True end /\ Bp.bp_wf (ptr u) /\ fits 64 (timestamp u) /\ fits 64 (txg u).

(** *** Decoding never panics *)
Lemma software_safe v : safe (fun _ => True) (software_from v).
Proof.
  unfold software_from. destruct (v =? 0); [done|]. eapply safe_bind; [apply safe_map_err, SpaVersion.spa_safe|]. done.
Qed.

Lemma hoare_ub_body BD {L : BinaryDecoderLaws BD} w o n :
  hoare (DecoderBuffer.inv w) (body_from_decoder BD o n) (fun u => match u with Some u => wf u | None => True end).
Proof.
  unfold body_from_decoder. do 5 ccall. eapply hoare_bind; [apply hoare_map_err, Bp.hoare_bp; exact L|]. intros bp Hbp.
  eapply (hoare_bind _ _ _ Bp.bp_wf); [apply hoare_lift, safe_ok_or; now intros ? ->|]. intros p Hp. ccall.
  eapply hoare_bind; [apply hoare_lift, software_safe|]. intros sv _.
  eapply hoare_bind; [apply hoare_map_err, Mmp.hoare_mmp; exact L|]. intros m Hm. do 2 ccall.
  eapply (hoare_bind _ _ _ (fun _ => True)).
  { unfold skip_rest. eapply hoare_bind; [apply hoare_get|]. intros b Hb.
    eapply (hoare_bind _ _ _ (fun r => 0 <= r)).
    - apply hoare_lift, safe_ok_or. unfold checked_sub. intros r. destruct (Z.leb_spec ChecksumTail_.SIZE (DecoderBuffer.len b)); [|done].
      intros [= <-]. lia.
    - intros r Hr. now apply h_zeros. }
  intros _ _. apply hoare_ret. now splits.
Qed.

(** *** An encoded uberblock decodes to itself *)
Section roundtrip.
Context (u : UberBlock).
Abbreviation o := (ub_order u).
Hypothesis Hwf : wf u.
Hypothesis Hptr : Dn.ptr_layable o (Some (ptr u)).

Definition fields : bytes :=
  int_to o 8 (SpaVersion.into_u64 (version u)) ++ int_to o 8 (txg u) ++ int_to o 8 (guid_sum u) ++
  int_to o 8 (timestamp u) ++ Bp.encoding o (ptr u) ++ int_to o 8 (software_wf (software_version u)) ++
  Mmp.layout o (mmp u) ++ int_to o 8 (checkpoint_txg u) ++ int_to o 8 (raidz_reflow_info u).

Lemma blen_fields : blen fields = 208.
Proof using Hptr.
  unfold fields. rewrite !blen_app, !blen_int_to, Mmp.blen_mmp, Bp.blen_encoding_bp by apply Hptr. done.
Qed.

Lemma fields_write : writes (body_to_encoder (endian_encoder o) u) (int_to o 8 MAGIC ++ fields).
Proof using Hwf Hptr.
  destruct Hwf as (_ & _ & _ & Hm & _). destruct Hptr as [He _]. unfold body_to_encoder, fields. do 5 cwrite.
  eapply writes_bind; [now apply writes_map_err, Bp.writes_bp|]. eapply writes_bind; [apply w_u64|].
  eapply writes_bind; [|eapply writes_bind; [apply w_u64|apply w_u64]].
  destruct (mmp u) as [m|]; [now apply writes_map_err, Mmp.mmp_writes|now apply w_zeros].
Qed.

Lemma fields_ok : bytes_ok fields.
Proof using.
  unfold fields. rewrite !Forall_app. splits; auto using bytes_ok_int_to, Mmp.mmp_bytes_ok, Bp.bytes_ok_bp.
Qed.

(** What is signed: the fields, and zeros up to the tail. *)
Lemma to_bytes_signs x86 data offset :
  256 <= blen data < 2 ^ 60 ->
  exists t, to_bytes x86 data offset u = Ok (int_to o 8 MAGIC ++ fields ++ zrep (blen data - 256) 0 ++ t) /\
    blen t = 40 /\ bytes_ok t /\
    label_verify x86 (int_to o 8 MAGIC ++ fields ++ zrep (blen data - 256) 0 ++ t) offset = Ok tt.
Proof using Hwf Hptr.
  intros Hlen. pose proof blen_fields as Hf. set (img := int_to o 8 MAGIC ++ fields ++ zrep (blen data - 256) 0).
  assert (Himg : blen img = blen data - 40) by (unfold img; rewrite !blen_app, blen_int_to, Hf, blen_zrep; lia).
  set (e0 := {| edata := data; eoffset := 0 |}).
  assert (He : EncoderBuffer.wf e0) by (split; cbn; lia).
  assert (Hav : EncoderBuffer.available e0 = blen data) by (unfold EncoderBuffer.available, saturating_sub; cbn; lia).
  assert (Hrun : (body_to_encoder (endian_encoder o) u;; put_rest (endian_encoder o)) e0 =
    (Ok tt, EncoderBuffer.append img e0)).
  { unfold mbind, SM_bind. rewrite fields_write by (rewrite ?blen_app, ?blen_int_to; lia || done).
    destruct (EncoderBuffer.append_spec e0 (int_to o 8 MAGIC ++ fields) He) as (Hw & _ & _ & Ha);
      [rewrite blen_app, blen_int_to; lia|].
    rewrite blen_app, blen_int_to, Hav, Hf in Ha. unfold put_rest, mbind, SM_bind, sm_get, sm_lift. rewrite Ha.
    change ChecksumTail_.SIZE with 40. rewrite checked_sub_ok by lia. cbn [ok_or].
    replace (blen data - (Z.of_nat 8 + 208) - 40) with (blen data - 256) by lia.
    rewrite w_zeros by (lia || done || (rewrite blen_zrep, Ha by lia; lia)).
    rewrite EncoderBuffer.append_append; [unfold img; now rewrite <- app_assoc|done|]. 
    rewrite blen_app, blen_int_to, blen_zrep by lia. lia. }
  unfold to_bytes. cbv zeta. fold e0. rewrite Hrun.
  assert (Hed : edata (EncoderBuffer.append img e0) = img ++ zdrop (blen img) data).
  { cbn [edata EncoderBuffer.append eoffset e0]. now rewrite ztake_take, Z.add_0_l by lia. }
  rewrite Hed. set (d' := img ++ zdrop (blen img) data).
  assert (Hd : blen d' = blen data) by (unfold d'; rewrite blen_app, blen_zdrop; lia).
  destruct (label_signed x86 d' offset o) as (t & -> & Ht & Htb & Hv); [lia|].
  rewrite Hd, <- Himg in Hv |- *. unfold d' in Hv |- *. rewrite ztake_app_length in *.
  exists t. unfold img in *. rewrite <- !app_assoc in *. now split.
Qed.

Lemma skip_rest_gives n t len :
  0 <= n -> blen t = 40 -> gives (skip_rest (endian_decoder o) len;; mret (Some u)) (zrep n 0 ++ t) (Some u).
Proof using.
  intros Hn Ht b Hb Hr. unfold skip_rest. unfold mbind, SM_bind, sm_get, sm_lift. rewrite DecoderBuffer.len_remaining, Hr by done.
  rewrite blen_app, blen_zrep, Ht by done. change ChecksumTail_.SIZE with 40. rewrite checked_sub_ok by lia. cbn [ok_or].
  rewrite Z.add_simpl_r. now rewrite (r_zeros DBinary o n Hn b t Hb Hr).
Qed.

Lemma body_gives n t len :
  0 <= n -> blen t = 40 ->
  gives (body_from_decoder (endian_decoder o) o len) (fields ++ zrep n 0 ++ t) (Some u).
Proof using Hwf Hptr.
  intros Hn Ht. destruct Hwf as (? & ? & ? & Hm & _ & ? & ?). destruct (SpaVersion.spa_roundtrip (version u)) as (? & Hv & _).
  assert (Hs : fits 64 (software_wf (software_version u)) /\ software_from (software_wf (software_version u)) = Ok (software_version u)).
  { unfold software_wf, software_from. destruct (software_version u) as [s|]; [|split; [vm_compute; split; congruence|done]].
    destruct (SpaVersion.spa_roundtrip s) as (? & Hsv & Hnz). rewrite (proj2 (Z.eqb_neq _ _) Hnz), Hsv. now split. }
  destruct Hs as [? Hs]. unfold body_from_decoder, fields. rewrite <- !app_assoc. gread.
  eapply gives_bind_nil; [apply r_code, Hv|]. do 3 gread.
  eapply gives_bind; [apply reads_map_err, (Dn.reads_ptr_bp o (Some (ptr u))), Hptr|].
  eapply gives_bind_nil; [now apply Bp.reads_lift|]. gread. eapply gives_bind_nil; [apply Bp.reads_lift, Hs|].
  eapply gives_bind; [now apply reads_map_err, Mmp.mmp_reads|]. do 2 gread.
  pose proof (skip_rest_gives n t len Hn Ht) as Hg. destruct u. exact Hg.
Qed.
End roundtrip.

Lemma uberblock_decodes_encoding x86 u data offset :
  wf u -> Dn.ptr_layable (ub_order u) (Some (ptr u)) -> 256 <= blen data < 2 ^ 60 ->
  exists bs, to_bytes x86 data offset u = Ok bs /\ blen bs = blen data /\ from_bytes x86 bs offset = Ok (Some u).
Proof.
  intros Hw Hp Hl. destruct (to_bytes_signs u Hw Hp x86 data offset Hl) as (t & Hto & Ht & Htb & Hv).
  eexists. split; [exact Hto|]. pose proof (blen_fields u Hp) as Hf.
  split; [rewrite !blen_app, blen_int_to, Hf, blen_zrep, Ht; lia|].
  unfold from_bytes. rewrite Hv. set (rest := fields u ++ zrep (blen data - 256) 0 ++ t).
  assert (Hok : bytes_ok rest).
  { unfold rest. rewrite !Forall_app. split; [apply fields_ok|]. split; [apply bytes_ok_zrep|done]. }
  rewrite from_u64_magic_ok by (done || (vm_compute; split; congruence) || (vm_compute; congruence)).
  assert (Hok' : bytes_ok (int_to (ub_order u) 8 MAGIC ++ rest)) by (apply Forall_app; auto with zfs).
  destruct (remaining_app (DecoderBuffer.from_bytes (int_to (ub_order u) 8 MAGIC ++ rest)) (int_to (ub_order u) 8 MAGIC) rest)
    as [Hwf' Hr']; [now apply DecoderBuffer.wf_from_bytes|apply DecoderBuffer.remaining_from_bytes|].
  rewrite blen_int_to in Hwf', Hr'. apply (body_gives u Hw Hp (blen data - 256) t); [lia|done|exact Hwf'|exact Hr'].
Qed.

(** *** Any slot *)
Lemma from_u64_magic_safe l magic :
  bytes_ok l -> safe (fun ob => DecoderBuffer.inv (l, 0, blen l) (snd ob)) (from_u64_magic l magic).
Proof.
  intros Hl. assert (Hi : DecoderBuffer.inv (l, 0, blen l) (DecoderBuffer.from_bytes l)).
  { split; [now apply DecoderBuffer.wf_from_bytes|done]. }
  pose proof (hoare_get_int (l, 0, blen l) Little 8 ltac:(lia) _ Hi) as HL.
  pose proof (hoare_get_int (l, 0, blen l) Big 8 ltac:(lia) _ Hi) as HB. unfold wp, from_u64_magic in *.
  destruct (get_int Little 8 _) as [[v|e|] b], (get_int Big 8 _) as [[v'|e'|] b']; cbn in *; repeat case_match; cbn; tauto.
Qed.

Lemma checksum_tail_safe l : bytes_ok l -> safe (fun _ => True) (ChecksumTail_.from_bytes l).
Proof.
  intros Hl. unfold ChecksumTail_.from_bytes. eapply safe_bind; [apply safe_map_err, (from_u64_magic_safe l _ Hl)|].
  intros [o b] Hb. cbn in Hb. pose proof (ChecksumValue_.hoare_cksum_value (BinaryDecoderLaws0 := endian_decoder_laws o) (l, 0, blen l) b Hb) as [_ Hv].
  destruct (ChecksumValue_.from_decoder b) as [[v|e|] b']; done.
Qed.

Lemma label_verify_safe x86 data offset :
  bytes_ok data -> blen data < 2 ^ 60 -> safe (fun _ => True) (label_verify x86 data offset).
Proof.
  intros Hd Hl. unfold label_verify. change ChecksumTail_.SIZE with 40. eapply safe_bind; [apply safe_guard|].
  intros _ Hg%Z.ltb_ge. rewrite (get_range_ok data (blen data - 40)) by lia. cbn [unwrap mbind outcome_bind].
  eapply safe_bind; [apply safe_map_err, checksum_tail_safe; auto using bytes_ok_ztake, bytes_ok_zdrop|]. intros t _.
  unfold checked_shl, SECTOR_SHIFT. cbn [Z.ltb Z.compare Pos.compare Pos.compare_cont ok_or mbind outcome_bind].
  rewrite offset_tail_eq. cbn [map_err mbind outcome_bind]. rewrite body_range by lia. cbn [unwrap mbind outcome_bind].
  rewrite sha_label by lia. cbn [mbind outcome_bind]. now destruct (decide _).
Qed.

Lemma from_bytes_safe x86 data offset :
  bytes_ok data -> blen data < 2 ^ 60 ->
  safe (fun u => match u with Some u => wf u | None => True end) (from_bytes x86 data offset).
Proof.
  intros Hd Hl. unfold from_bytes. pose proof (label_verify_safe x86 data offset Hd Hl) as Hv.
  destruct (label_verify x86 data offset); [|now case_match|done].
  pose proof (from_u64_magic_safe data MAGIC Hd) as Hm. destruct (from_u64_magic data MAGIC) as [[o b]|e|]; [|repeat case_match; done|done].
  exact (proj2 (hoare_ub_body (endian_decoder o) (L := endian_decoder_laws o) (data, 0, blen data) o (blen data) b Hm)).
Qed.

(** A slot of zeros, whatever version it carries, is no uberblock, with or without a
    signature. *)
Lemma empty_slot v n : 
  blen v = 8 -> 0 <= n -> bytes_ok v -> bytes_are_empty (zrep 8 0 ++ v ++ zrep n 0) false = true.
Proof.
  intros Hv Hn Hok. unfold bytes_are_empty. set (data := zrep 8 0 ++ v ++ zrep n 0).
  assert (Hd : bytes_ok data) by (unfold data; rewrite !Forall_app; auto using bytes_ok_zrep).
  set (b := DecoderBuffer.from_bytes data).
  assert (Hb : DecoderBuffer.wf b) by now apply DecoderBuffer.wf_from_bytes.
  assert (Hr : DecoderBuffer.remaining b = data) by apply DecoderBuffer.remaining_from_bytes.
  rewrite (reads_skip_zeros 8 ltac:(lia) b (v ++ zrep n 0) Hb Hr).
  destruct (remaining_app b (zrep 8 0) (v ++ zrep n 0) Hb Hr) as [Hb' Hr'].
  rewrite (reads_skip v 8 ltac:(lia) _ (zrep n 0) Hb' Hr').
  destruct (remaining_app _ v (zrep n 0) Hb' Hr') as [Hb2 Hr2].
  rewrite DecoderBuffer.len_remaining, Hr2, blen_zrep, checked_sub_ok, Z.sub_0_r by (done || lia).
  rewrite <- (app_nil_r (zrep n 0)) in Hr2. now rewrite (reads_skip_zeros n Hn _ [] Hb2 Hr2).
Qed.

(** C30: An uberblock written into a slot of a label, in either byte order, with or without
    multi-modifier protection, verifies at its offset and decodes to itself. *)
Theorem uberblock_roundtrip x86 u data offset :
  wf u -> Dn.ptr_layable (ub_order u) (Some (ptr u)) -> 256 <= blen data < 2 ^ 60 ->
  exists bs, to_bytes x86 data offset u = Ok bs /\ blen bs = blen data /\ from_bytes x86 bs offset = Ok (Some u).
Proof. apply uberblock_decodes_encoding. Qed.

Definition sample_uberblock : UberBlock := {|
  checkpoint_txg := 0; raidz_reflow_info := 0; ub_order := Big; guid_sum := 77;
  mmp := Some {| delay := 5; fail_intervals := Some 10; sequence := None; write_interval := Some 1000 |};
  ptr := Regular Bp.sample_regular; software_version := Some SpaVersion.V5000; timestamp := 1700000000; txg := 4711;
  version := SpaVersion.V28 |}.

Lemma uberblock_roundtrip_witness :
  exists bs, to_bytes true (zrep 1024 9) 33 sample_uberblock = Ok bs /\ blen bs = blen (zrep 1024 9) /\
    from_bytes true bs 33 = Ok (Some sample_uberblock).
Proof.
  apply (uberblock_roundtrip true sample_uberblock (zrep 1024 9) 33).
  - unfold wf; splits; try (vm_compute; split; congruence); [vm_compute; repeat split; congruence|].
    exact (proj1 Bp.sample_regular_encodable).
  - split; [exact Bp.sample_regular_encodable|vm_compute; reflexivity].
  - vm_compute. split; congruence.
Defined.

Lemma never_written_none x86 data offset v n :
  data = zrep 8 0 ++ v ++ zrep n 0 -> bytes_ok data -> blen v = 8 -> 40 <= n -> from_bytes x86 data offset = Ok None.
Proof.
  intros Hdata Hd Hv Hn. assert (Hok : bytes_ok v) by (subst data; rewrite !Forall_app in Hd; tauto).
  assert (Hl : blen data = 16 + n) by (subst data; rewrite !blen_app, !blen_zrep; lia).
  assert (Hz : zrep n 0 = zrep (n - 40) 0 ++ zrep 40 0) by (unfold zrep; rewrite <- replicate_add; f_equal; lia).
  unfold from_bytes, label_verify. change ChecksumTail_.SIZE with 40. rewrite (proj2 (Z.ltb_ge _ _)) by lia.
  cbn [guard_err mbind outcome_bind].
  rewrite (get_range_at data (zrep 8 0 ++ v ++ zrep (n - 40) 0) (zrep 40 0) [] (blen data - 40) (blen data));
    [|subst data; rewrite app_nil_r, Hz, <- !app_assoc; done|rewrite !blen_app, !blen_zrep by lia; lia..].
  cbn [unwrap mbind outcome_bind].
  destruct (ChecksumTail_.from_bytes (zrep 40 0)) as [t|e|] eqn:Et; [vm_compute in Et; discriminate| |vm_compute in Et; discriminate].
  cbn [map_err mbind outcome_bind]. subst data. now rewrite empty_slot by (done || lia).
Qed.

(** Decoding any slot at any offset ends without a panic, in an uberblock with its
    fields in range or in an error; a slot that was never written, zero but for
    its version, is no uberblock rather than an error. *)
Theorem uberblock_decode_safe x86 data offset :
  bytes_ok data -> blen data < 2 ^ 60 ->
  safe (fun u => match u with Some u => wf u | None => True end) (from_bytes x86 data offset) /\
  (forall v n, data = zrep 8 0 ++ v ++ zrep n 0 -> blen v = 8 -> 40 <= n -> from_bytes x86 data offset = Ok None).
Proof.
  intros Hd Hl. split; [now apply from_bytes_safe|]. intros v n Hdata Hv Hn. now apply (never_written_none x86 data offset v n).
Qed.

Lemma uberblock_decode_safe_witness :
  safe (fun u => match u with Some u => wf u | None => True end) (from_bytes false (zrep 1024 0) 0) /\
  (forall v n, zrep 1024 0 = zrep 8 0 ++ v ++ zrep n 0 -> blen v = 8 -> 40 <= n -> from_bytes false (zrep 1024 0) 0 = Ok None).
Proof. apply (uberblock_decode_safe false (zrep 1024 0) 0); [apply bytes_ok_zrep|vm_compute; reflexivity]. Defined.
End Ub.
