(* ===== verification/Label.v ===== *)
(** * Vdev labels (src/phys/label.rs, the regions of a label)

    A label is a blank area, a boot header, name-value pairs and the uberblock
    array; two labels stand at each end of a device.  The boot header and the
    name-value pairs are signed blocks, the blank area and the boot block are
    not.  Each region decodes to the payload that was encoded, and the four
    labels of a device do not overlap. *)

From S2P Require Import Prelude Errors Decoder Encoder Codec Types Dva BlockPointer Stream Fletcher Sha256 LabelChecksum Dnode Uberblock.

Open Scope Z_scope.
Open Scope list_scope.

(** ** Plain regions: the boot block and the blank area *)
Inductive PlainDecodeError : Type := PdInvalidSize (size : Z).
Inductive PlainEncodeError : Type := PeInvalidPayloadSize (size : Z) | PeInvalidSize (size : Z).
Record Region : Type := { payload : bytes }.

Section plain.
Context (SIZE : Z).
Definition plain_from_bytes (data : bytes) : outcome PlainDecodeError Region :=
  guard_err (negb (blen data =? SIZE)) (PdInvalidSize (blen data));;
  Ok {| payload := data |}.
(** [copy_from_slice] panics on a length that differs. *)
Definition plain_to_bytes (r : Region) (data : bytes) : outcome PlainEncodeError bytes :=
  guard_err (negb (blen data =? SIZE)) (PeInvalidSize (blen data));;
  guard_err (negb (blen (payload r) =? SIZE)) (PeInvalidPayloadSize (blen (payload r)));;
  if blen data =? blen (payload r) then Ok (payload r) else Panic.
End plain.

Module BootBlock.
Definition SIZE : Z := 3584 * 1024.
Definition PAYLOAD_SIZE : Z := SIZE.
Definition SECTORS : Z := Z.shiftr SIZE SECTOR_SHIFT.
Definition from_bytes : bytes -> outcome PlainDecodeError Region := plain_from_bytes SIZE.
Definition to_bytes : Region -> bytes -> outcome PlainEncodeError bytes := plain_to_bytes SIZE.
End BootBlock.

Module LabelBlank.
Definition SIZE : Z := 8 * 1024.
Definition LABEL_OFFSET : Z := 0.
Definition PAYLOAD_SIZE : Z := SIZE.
Definition from_bytes : bytes -> outcome PlainDecodeError Region := plain_from_bytes SIZE.
Definition to_bytes : Region -> bytes -> outcome PlainEncodeError bytes := plain_to_bytes SIZE.
End LabelBlank.

(** ** Signed regions: the boot header and the name-value pairs *)
Inductive SignedDecodeError : Type := SdInvalidSize (size : Z) | SdLabelVerify (err : LabelVerifyError).
Inductive SignedEncodeError : Type :=
| SeInvalidPayloadSize (size : Z)
| SeInvalidSize (size : Z)
| SeLabelChecksum (err : LabelChecksumError).

Section signed.
Context (x86 : bool) (SIZE : Z).
Abbreviation PAYLOAD_SIZE := (SIZE - ChecksumTail_.SIZE).

Definition signed_from_bytes (data : bytes) (offset : Z) : outcome SignedDecodeError Region :=
  guard_err (negb (blen data =? SIZE)) (SdInvalidSize (blen data));;
  map_err SdLabelVerify (label_verify x86 data offset);;
  p ← unwrap (get_range data 0 PAYLOAD_SIZE);
  Ok {| payload := p |}.
Definition signed_to_bytes (r : Region) (data : bytes) (offset : Z) (order : EndianOrder) : outcome SignedEncodeError bytes :=
  guard_err (negb (blen data =? SIZE)) (SeInvalidSize (blen data));;
  guard_err (negb (blen (payload r) =? PAYLOAD_SIZE)) (SeInvalidPayloadSize (blen (payload r)));;
  data ← unwrap (EncoderBuffer.copy_at data 0 (payload r));
  map_err SeLabelChecksum (label_checksum x86 data offset order).
Definition signed_checksum (data : bytes) (offset : Z) (order : EndianOrder) : outcome SignedEncodeError bytes :=
  guard_err (negb (blen data =? SIZE)) (SeInvalidSize (blen data));;
  map_err SeLabelChecksum (label_checksum x86 data offset order).
Definition signed_verify (data : bytes) (offset : Z) : outcome SignedDecodeError unit :=
  guard_err (negb (blen data =? SIZE)) (SdInvalidSize (blen data));;
  map_err SdLabelVerify (label_verify x86 data offset).
End signed.

Module LabelBootHeader.
Definition SIZE : Z := 8 * 1024.
Definition LABEL_OFFSET : Z := LabelBlank.LABEL_OFFSET + Z.shiftr LabelBlank.SIZE SECTOR_SHIFT.
Definition PAYLOAD_SIZE : Z := SIZE - ChecksumTail_.SIZE.
Definition from_bytes (x86 : bool) : bytes -> Z -> outcome SignedDecodeError Region := signed_from_bytes x86 SIZE.
Definition to_bytes (x86 : bool) : Region -> bytes -> Z -> EndianOrder -> outcome SignedEncodeError bytes :=
  signed_to_bytes x86 SIZE.
Definition checksum (x86 : bool) : bytes -> Z -> EndianOrder -> outcome SignedEncodeError bytes := signed_checksum x86 SIZE.
Definition verify (x86 : bool) : bytes -> Z -> outcome SignedDecodeError unit := signed_verify x86 SIZE.
End LabelBootHeader.

Module LabelNvPairs.
Definition SIZE : Z := 112 * 1024.
Definition LABEL_OFFSET : Z := LabelBootHeader.LABEL_OFFSET + Z.shiftr LabelBootHeader.SIZE SECTOR_SHIFT.
Definition PAYLOAD_SIZE : Z := SIZE - ChecksumTail_.SIZE.
Definition from_bytes (x86 : bool) : bytes -> Z -> outcome SignedDecodeError Region := signed_from_bytes x86 SIZE.
Definition to_bytes (x86 : bool) : Region -> bytes -> Z -> EndianOrder -> outcome SignedEncodeError bytes :=
  signed_to_bytes x86 SIZE.
Definition checksum (x86 : bool) : bytes -> Z -> EndianOrder -> outcome SignedEncodeError bytes := signed_checksum x86 SIZE.
Definition verify (x86 : bool) : bytes -> Z -> outcome SignedDecodeError unit := signed_verify x86 SIZE.
End LabelNvPairs.

(** The uberblock array is the last region of a label. *)
Definition UberBlock_LABEL_OFFSET : Z := LabelNvPairs.LABEL_OFFSET + Z.shiftr LabelNvPairs.SIZE SECTOR_SHIFT.

(** ** The four labels of a device *)
Module Label.
Definition COUNT : Z := 4.
Definition SIZE : Z := LabelBlank.SIZE + LabelBootHeader.SIZE + LabelNvPairs.SIZE + Ub.TOTAL_SIZE.
Definition SECTORS : Z := Z.shiftr SIZE SECTOR_SHIFT.
Inductive SectorsError : Type := TooSmall (sectors : Z).

Definition offsets (vdev_sectors : Z) : outcome SectorsError (list Z) :=
  guard_err (vdev_sectors <? SECTORS * 4) (TooSmall vdev_sectors);;
  Ok [0; SECTORS; vdev_sectors - 2 * SECTORS; vdev_sectors - SECTORS].
End Label.
Definition BootBlock_BLOCK_DEVICE_OFFSET : Z := 2 * Label.SECTORS.

(** ** What the regions promise *)
Lemma signed_region_ok x86 SIZE r data offset order :
  40 <= SIZE < 2 ^ 60 -> blen data = SIZE -> blen (payload r) = SIZE - 40 ->
  exists bs, signed_to_bytes x86 SIZE r data offset order = Ok bs /\ blen bs = SIZE /\
    signed_from_bytes x86 SIZE bs offset = Ok r /\ signed_verify x86 SIZE bs offset = Ok tt /\
    (bytes_ok (payload r) -> bytes_ok bs).
Proof.
  intros Hs Hd Hp. unfold signed_to_bytes. change ChecksumTail_.SIZE with 40. rewrite Hd, Hp, !Z.eqb_refl.
  cbn [negb guard_err mbind outcome_bind]. rewrite copy_at_eq by lia. cbn [unwrap mbind outcome_bind].
  rewrite ztake_take, Z.add_0_l by lia. set (d' := take _ data ++ _).
  assert (Ed : d' = payload r ++ zdrop (blen (payload r)) data) by reflexivity.
  assert (Hd' : blen d' = SIZE) by (rewrite Ed, blen_app, blen_zdrop; lia).
  destruct (label_signed x86 d' offset order) as (t & -> & Ht & Hok & Hv); [lia|].
  rewrite Hd', <- Hp, Ed, ztake_app_length in *. cbn [map_err].
  assert (Hl : blen (payload r ++ t) = SIZE) by (rewrite blen_app; lia).
  exists (payload r ++ t). split; [done|]. split; [done|]. unfold signed_from_bytes, signed_verify.
  rewrite Hl, Z.eqb_refl, Hv. cbn [negb guard_err mbind outcome_bind map_err]. split; [|split; [done|intros; now apply Forall_app]].
  change ChecksumTail_.SIZE with 40. rewrite (get_range_at _ [] (payload r) t) by (done || (rewrite blen_nil; lia)).
  cbn [unwrap mbind outcome_bind]. now destruct r.
Qed.

(** Every region of a label that is written into a buffer of its size reads back as the
    same payload; a signed region verifies at the offset it was signed for. *)
Theorem label_regions_roundtrip x86 r data offset order (nvpairs : bool) :
  let SIZE := if nvpairs then LabelNvPairs.SIZE else LabelBootHeader.SIZE in
  blen data = SIZE -> blen (payload r) = SIZE - 40 ->
  exists bs,
    (if nvpairs then LabelNvPairs.to_bytes x86 else LabelBootHeader.to_bytes x86) r data offset order = Ok bs /\
    blen bs = SIZE /\
    (if nvpairs then LabelNvPairs.from_bytes x86 else LabelBootHeader.from_bytes x86) bs offset = Ok r /\
    (if nvpairs then LabelNvPairs.verify x86 else LabelBootHeader.verify x86) bs offset = Ok tt.
Proof.
  cbv zeta. intros Hd Hp. assert (Hs : 40 <= (if nvpairs then LabelNvPairs.SIZE else LabelBootHeader.SIZE) < 2 ^ 60)
    by (destruct nvpairs; vm_compute; split; congruence).
  destruct (signed_region_ok x86 _ r data offset order Hs Hd Hp) as (bs & H1 & H2 & H3 & H4 & _). exists bs.
  destruct nvpairs; done.
Qed.

Lemma label_regions_roundtrip_witness :
  exists bs,
    LabelBootHeader.to_bytes true {| payload := zrep 8152 3 |} (zrep 8192 0) 16 Little = Ok bs /\
    blen bs = LabelBootHeader.SIZE /\
    LabelBootHeader.from_bytes true bs 16 = Ok {| payload := zrep 8152 3 |} /\ LabelBootHeader.verify true bs 16 = Ok tt.
Proof.
  refine (label_regions_roundtrip true {| payload := zrep 8152 3 |} (zrep 8192 0) 16 Little false _ _).
  - vm_compute. reflexivity.
  - vm_compute. reflexivity.
Defined.

(** A device that is large enough has four labels, in order and without overlap, the
    first two at its start and the last two at its end; the regions of a label
    follow each other and fill it. *)
Theorem label_offsets_disjoint vdev_sectors :
  Label.SECTORS * 4 <= vdev_sectors ->
  exists l0 l1 l2 l3, Label.offsets vdev_sectors = Ok [l0; l1; l2; l3] /\
    l0 = 0 /\ l0 + Label.SECTORS <= l1 /\ l1 + Label.SECTORS <= l2 /\ l2 + Label.SECTORS <= l3 /\
    l3 + Label.SECTORS = vdev_sectors /\
    LabelBootHeader.LABEL_OFFSET * 512 = LabelBlank.SIZE /\
    LabelNvPairs.LABEL_OFFSET * 512 = LabelBlank.SIZE + LabelBootHeader.SIZE /\
    UberBlock_LABEL_OFFSET * 512 + Ub.TOTAL_SIZE = Label.SIZE /\
    BootBlock_BLOCK_DEVICE_OFFSET = l1 + Label.SECTORS.
Proof.
  intros Hs. unfold Label.offsets. rewrite (proj2 (Z.ltb_ge _ _)) by done. cbn [guard_err mbind outcome_bind].
  change Label.SECTORS with 512 in *. do 4 eexists. split; [reflexivity|]. splits; try lia; reflexivity.
Qed.

Lemma label_offsets_disjoint_witness :
  exists l0 l1 l2 l3, Label.offsets 4096 = Ok [l0; l1; l2; l3] /\
    l0 = 0 /\ l0 + Label.SECTORS <= l1 /\ l1 + Label.SECTORS <= l2 /\ l2 + Label.SECTORS <= l3 /\
    l3 + Label.SECTORS = 4096 /\
    LabelBootHeader.LABEL_OFFSET * 512 = LabelBlank.SIZE /\
    LabelNvPairs.LABEL_OFFSET * 512 = LabelBlank.SIZE + LabelBootHeader.SIZE /\
    UberBlock_LABEL_OFFSET * 512 + Ub.TOTAL_SIZE = Label.SIZE /\
    BootBlock_BLOCK_DEVICE_OFFSET = l1 + Label.SECTORS.
Proof. apply (label_offsets_disjoint 4096). vm_compute. congruence. Defined.
