(* ===== verification/Nv.v ===== *)
(** * Name-value lists (src/phys/nv.rs)

    The configuration in a vdev label is a name-value list in XDR: pairs of a
    name and a typed value, lists nested in lists.  A list is decoded lazily,
    pair by pair; looking a name up in the encoding of a list finds the first
    pair with that name, and no input makes decoding panic or run on. *)

From S2P Require Import Prelude Errors Decoder Encoder Codec.

#[local] Set Warnings "-register-all".

Open Scope Z_scope.
Open Scope list_scope.

(** ** Codes *)
Module NvEndianOrder.
Inductive t : Type := Big | Little.
Definition into_order (x : t) : EndianOrder := match x with Big => Decoder.Big | Little => Decoder.Little end.
Definition into_u8 (x : t) : Z := match x with Big => 0 | Little => 1 end.
End NvEndianOrder.

Module NvEncoding.
Inductive t : Type := Native | Xdr.
Definition into_u8 (x : t) : Z := match x with Native => 0 | Xdr => 1 end.
End NvEncoding.

Module NvUnique.
Inductive t : Type := None | Name | NameType.
Definition into_u8 (x : t) : Z := match x with None => 0 | Name => 1 | NameType => 2 end.
End NvUnique.

Module NvDataType.
Inductive t : Type :=
| Boolean | Byte | Int16 | Uint16 | Int32 | Uint32 | Int64 | Uint64 | String | ByteArray | Int16Array | Uint16Array
| Int32Array | Uint32Array | Int64Array | Uint64Array | StringArray | HrTime | NvList | NvListArray | BooleanValue
| Int8 | Uint8 | BooleanArray | Int8Array | Uint8Array | Double.
#[global] Instance nv_type_eq_dec : EqDecision t. Proof. solve_decision. Defined.
Definition into_u32 (x : t) : Z :=
  match x with
  | Boolean => 1 | Byte => 2 | Int16 => 3 | Uint16 => 4 | Int32 => 5 | Uint32 => 6 | Int64 => 7 | Uint64 => 8
  | String => 9 | ByteArray => 10 | Int16Array => 11 | Uint16Array => 12 | Int32Array => 13 | Uint32Array => 14
  | Int64Array => 15 | Uint64Array => 16 | StringArray => 17 | HrTime => 18 | NvList => 19 | NvListArray => 20
  | BooleanValue => 21 | Int8 => 22 | Uint8 => 23 | BooleanArray => 24 | Int8Array => 25 | Uint8Array => 26
  | Double => 27
  end.
End NvDataType.

Inductive NvDecodeError : Type :=
| NvBinaryDecoder (err : BinaryDecodeError)
| DataMismatch
| DataTypeMismatch (expected actual : NvDataType.t)
| EndOfArray
| NvEndOfInput (offset capacity count : Z) (detail : string)
| InvalidCount (data_type : NvDataType.t) (count : Z)
| InvalidEncodedSize (encoded_size used : Z)
| InvalidNestedSize
| InvalidReservedBytes (reserved0 reserved1 : Z)
| NestedDecoderMismatch
| UnknownDataType (data_type : Z)
| UnknownEncoding (encoding : Z)
| UnknownEndian (order : Z)
| UnknownFlags (flags : Z)
| UnknownUnique (unique : Z)
| UnknownVersion (version : Z).

Definition endian_try_from (order : Z) : outcome NvDecodeError NvEndianOrder.t :=
  match order with 0 => Ok NvEndianOrder.Big | 1 => Ok NvEndianOrder.Little | _ => Err (UnknownEndian order) end.
Definition encoding_try_from (encoding : Z) : outcome NvDecodeError NvEncoding.t :=
  match encoding with 0 => Ok NvEncoding.Native | 1 => Ok NvEncoding.Xdr | _ => Err (UnknownEncoding encoding) end.
Definition unique_try_from (unique : Z) : outcome NvDecodeError NvUnique.t :=
  match unique with
  | 0 => Ok NvUnique.None | 1 => Ok NvUnique.Name | 2 => Ok NvUnique.NameType | _ => Err (UnknownUnique unique)
  end.
Definition type_try_from (data_type : Z) : outcome NvDecodeError NvDataType.t :=
  match data_type with
  | 1 => Ok NvDataType.Boolean | 2 => Ok NvDataType.Byte | 3 => Ok NvDataType.Int16 | 4 => Ok NvDataType.Uint16
  | 5 => Ok NvDataType.Int32 | 6 => Ok NvDataType.Uint32 | 7 => Ok NvDataType.Int64 | 8 => Ok NvDataType.Uint64
  | 9 => Ok NvDataType.String | 10 => Ok NvDataType.ByteArray | 11 => Ok NvDataType.Int16Array
  | 12 => Ok NvDataType.Uint16Array | 13 => Ok NvDataType.Int32Array | 14 => Ok NvDataType.Uint32Array
  | 15 => Ok NvDataType.Int64Array | 16 => Ok NvDataType.Uint64Array | 17 => Ok NvDataType.StringArray
  | 18 => Ok NvDataType.HrTime | 19 => Ok NvDataType.NvList | 20 => Ok NvDataType.NvListArray
  | 21 => Ok NvDataType.BooleanValue | 22 => Ok NvDataType.Int8 | 23 => Ok NvDataType.Uint8
  | 24 => Ok NvDataType.BooleanArray | 25 => Ok NvDataType.Int8Array | 26 => Ok NvDataType.Uint8Array
  | 27 => Ok NvDataType.Double
  | _ => Err (UnknownDataType data_type)
  end.

(** Arrays whose elements all have one width. *)
Definition is_fixed_width_array (data_type : NvDataType.t) : bool :=
  match data_type with
  | NvDataType.BooleanArray | NvDataType.Int8Array | NvDataType.Uint8Array | NvDataType.Int16Array
  | NvDataType.Uint16Array | NvDataType.Int32Array | NvDataType.Uint32Array | NvDataType.Int64Array
  | NvDataType.Uint64Array => true
  | _ => false
  end.

Definition check_data_type_count_and_get_array_size (data_type : NvDataType.t) (count : Z) : outcome NvDecodeError Z :=
  let invalid := InvalidCount data_type count in
  array_element_size ← match data_type with
    | NvDataType.Boolean => if count =? 0 then Ok 0 else Err invalid
    | NvDataType.BooleanArray | NvDataType.Int16Array | NvDataType.Uint16Array | NvDataType.Int32Array
    | NvDataType.Uint32Array | NvDataType.Int8Array | NvDataType.Uint8Array => Ok 4
    | NvDataType.Int64Array | NvDataType.Uint64Array => Ok 8
    | NvDataType.ByteArray | NvDataType.StringArray | NvDataType.NvListArray => Ok 0
    | _ => if count =? 1 then Ok 0 else Err invalid
    end;
  ok_or (checked_mul 64 count array_element_size) invalid.

(** ** Lists, arrays and pairs *)
Record NvList : Type := {
  nv_data : bytes; nv_offset : Z; nv_length : Z; nv_encoding : NvEncoding.t; nv_order : EndianOrder; nv_unique : NvUnique.t
}.
(** The element type of an array is the constructor it stands under. *)
Record NvArray : Type := {
  arr_data : bytes; arr_offset : Z; arr_length : Z; arr_count : Z; arr_encoding : NvEncoding.t; arr_order : EndianOrder
}.
Inductive NvDataValue : Type :=
| VBoolean
| VByte (v : Z)
| VInt16 (v : Z)
| VUint16 (v : Z)
| VInt32 (v : Z)
| VUint32 (v : Z)
| VInt64 (v : Z)
| VUint64 (v : Z)
| VString (v : bytes)
| VByteArray (v : bytes)
| VInt16Array (v : NvArray)
| VUint16Array (v : NvArray)
| VInt32Array (v : NvArray)
| VUint32Array (v : NvArray)
| VInt64Array (v : NvArray)
| VUint64Array (v : NvArray)
| VStringArray (v : NvArray)
| VHrTime (v : Z)
| VNvList (v : NvList)
| VNvListArray (v : NvArray)
| VBooleanValue (v : bool)
| VInt8 (v : Z)
| VUint8 (v : Z)
| VBooleanArray (v : NvArray)
| VInt8Array (v : NvArray)
| VUint8Array (v : NvArray)
| VDouble (v : Z).
Record NvPair : Type := { pair_name : bytes; pair_value : NvDataValue }.

Module Pair.
Definition data_type (p : NvPair) : NvDataType.t :=
  match pair_value p with
  | VBoolean => NvDataType.Boolean | VByte _ => NvDataType.Byte | VInt16 _ => NvDataType.Int16
  | VUint16 _ => NvDataType.Uint16 | VInt32 _ => NvDataType.Int32 | VUint32 _ => NvDataType.Uint32
  | VInt64 _ => NvDataType.Int64 | VUint64 _ => NvDataType.Uint64 | VString _ => NvDataType.String
  | VByteArray _ => NvDataType.ByteArray | VInt16Array _ => NvDataType.Int16Array
  | VUint16Array _ => NvDataType.Uint16Array | VInt32Array _ => NvDataType.Int32Array
  | VUint32Array _ => NvDataType.Uint32Array | VInt64Array _ => NvDataType.Int64Array
  | VUint64Array _ => NvDataType.Uint64Array | VStringArray _ => NvDataType.StringArray
  | VHrTime _ => NvDataType.HrTime | VNvList _ => NvDataType.NvList | VNvListArray _ => NvDataType.NvListArray
  | VBooleanValue _ => NvDataType.BooleanValue | VInt8 _ => NvDataType.Int8 | VUint8 _ => NvDataType.Uint8
  | VBooleanArray _ => NvDataType.BooleanArray | VInt8Array _ => NvDataType.Int8Array
  | VUint8Array _ => NvDataType.Uint8Array | VDouble _ => NvDataType.Double
  end.
(** The value when it has the expected type. *)
Definition typed {A} (expected : NvDataType.t) (v : option A) (p : NvPair) : outcome NvDecodeError A :=
  match v with Some v => Ok v | None => Err (DataTypeMismatch expected (data_type p)) end.
Definition get_bool_array (p : NvPair) : outcome NvDecodeError NvArray :=
  typed NvDataType.BooleanArray (match pair_value p with VBooleanArray v => Some v | _ => None end) p.
Definition get_byte_array (p : NvPair) : outcome NvDecodeError bytes :=
  typed NvDataType.ByteArray (match pair_value p with VByteArray v => Some v | _ => None end) p.
Definition get_i8_array (p : NvPair) : outcome NvDecodeError NvArray :=
  typed NvDataType.Int8Array (match pair_value p with VInt8Array v => Some v | _ => None end) p.
Definition get_i16_array (p : NvPair) : outcome NvDecodeError NvArray :=
  typed NvDataType.Int16Array (match pair_value p with VInt16Array v => Some v | _ => None end) p.
Definition get_i32_array (p : NvPair) : outcome NvDecodeError NvArray :=
  typed NvDataType.Int32Array (match pair_value p with VInt32Array v => Some v | _ => None end) p.
Definition get_i64_array (p : NvPair) : outcome NvDecodeError NvArray :=
  typed NvDataType.Int64Array (match pair_value p with VInt64Array v => Some v | _ => None end) p.
Definition get_nv_list (p : NvPair) : outcome NvDecodeError NvList :=
  typed NvDataType.NvList (match pair_value p with VNvList v => Some v | _ => None end) p.
Definition get_nv_list_array (p : NvPair) : outcome NvDecodeError NvArray :=
  typed NvDataType.NvListArray (match pair_value p with VNvListArray v => Some v | _ => None end) p.
Definition get_str (p : NvPair) : outcome NvDecodeError bytes :=
  typed NvDataType.String (match pair_value p with VString v => Some v | _ => None end) p.
Definition get_str_array (p : NvPair) : outcome NvDecodeError NvArray :=
  typed NvDataType.StringArray (match pair_value p with VStringArray v => Some v | _ => None end) p.
Definition get_u8_array (p : NvPair) : outcome NvDecodeError NvArray :=
  typed NvDataType.Uint8Array (match pair_value p with VUint8Array v => Some v | _ => None end) p.
Definition get_u16_array (p : NvPair) : outcome NvDecodeError NvArray :=
  typed NvDataType.Uint16Array (match pair_value p with VUint16Array v => Some v | _ => None end) p.
Definition get_u32_array (p : NvPair) : outcome NvDecodeError NvArray :=
  typed NvDataType.Uint32Array (match pair_value p with VUint32Array v => Some v | _ => None end) p.
Definition get_u64_array (p : NvPair) : outcome NvDecodeError NvArray :=
  typed NvDataType.Uint64Array (match pair_value p with VUint64Array v => Some v | _ => None end) p.
Definition get_bool (p : NvPair) : outcome NvDecodeError bool :=
  typed NvDataType.BooleanValue (match pair_value p with VBooleanValue v => Some v | _ => None end) p.
Definition get_byte (p : NvPair) : outcome NvDecodeError Z :=
  typed NvDataType.Byte (match pair_value p with VByte v => Some v | _ => None end) p.
Definition get_f64 (p : NvPair) : outcome NvDecodeError Z :=
  typed NvDataType.Double (match pair_value p with VDouble v => Some v | _ => None end) p.
Definition get_hr_time (p : NvPair) : outcome NvDecodeError Z :=
  typed NvDataType.HrTime (match pair_value p with VHrTime v => Some v | _ => None end) p.
Definition get_i8 (p : NvPair) : outcome NvDecodeError Z :=
  typed NvDataType.Int8 (match pair_value p with VInt8 v => Some v | _ => None end) p.
Definition get_i16 (p : NvPair) : outcome NvDecodeError Z :=
  typed NvDataType.Int16 (match pair_value p with VInt16 v => Some v | _ => None end) p.
Definition get_i32 (p : NvPair) : outcome NvDecodeError Z :=
  typed NvDataType.Int32 (match pair_value p with VInt32 v => Some v | _ => None end) p.
Definition get_i64 (p : NvPair) : outcome NvDecodeError Z :=
  typed NvDataType.Int64 (match pair_value p with VInt64 v => Some v | _ => None end) p.
Definition get_u8 (p : NvPair) : outcome NvDecodeError Z :=
  typed NvDataType.Uint8 (match pair_value p with VUint8 v => Some v | _ => None end) p.
Definition get_u16 (p : NvPair) : outcome NvDecodeError Z :=
  typed NvDataType.Uint16 (match pair_value p with VUint16 v => Some v | _ => None end) p.
Definition get_u32 (p : NvPair) : outcome NvDecodeError Z :=
  typed NvDataType.Uint32 (match pair_value p with VUint32 v => Some v | _ => None end) p.
Definition get_u64 (p : NvPair) : outcome NvDecodeError Z :=
  typed NvDataType.Uint64 (match pair_value p with VUint64 v => Some v | _ => None end) p.
Definition get_bool_flag (p : NvPair) : outcome NvDecodeError bool :=
  typed NvDataType.Boolean (match pair_value p with VBoolean => Some true | _ => None end) p.
End Pair.

(** ** Decoding *)
Abbreviation XD := XdrDecoder.
Abbreviation D := (SM BinaryDecoderBuffer NvDecodeError).
Definition bd {A} (m : DecoderBuffer.D A) : D A := sm_map_err NvBinaryDecoder m.

Definition HEADER_SIZE : Z := 4.

(** Version and flags, and what is left. *)
Definition from_partial (data : bytes) (start length : Z) (encoding : NvEncoding.t) (order : EndianOrder) :
    outcome NvDecodeError NvList :=
  match encoding with
  | NvEncoding.Native => Err (UnknownEncoding (NvEncoding.into_u8 NvEncoding.Native))
  | NvEncoding.Xdr =>
      b ← map_err NvBinaryDecoder (DecoderBuffer.from_bytes_clamped data start length);
      fst ((version ← bd (@get_u32 XD);
            sm_guard (negb (version =? 0)) (UnknownVersion version);;
            flags ← bd (@get_u32 XD);
            let unique_flags := Z.land flags 0x3 in
            sm_guard (negb (unique_flags =? flags)) (UnknownFlags flags);;
            unique ← sm_lift (unique_try_from (wrap 8 unique_flags));
            b ← sm_get;
            mret {| nv_data := data; nv_offset := offset b; nv_length := DecoderBuffer.len b; nv_encoding := encoding;
                    nv_order := order; nv_unique := unique |}) b)
  end.

Definition from_bytes (data : bytes) : outcome NvDecodeError NvList :=
  guard_err (blen data <? HEADER_SIZE) (NvEndOfInput 0 (blen data) HEADER_SIZE "NV List header is truncated");;
  h0 ← unwrap (zget data 0);
  h1 ← unwrap (zget data 1);
  reserved_0 ← unwrap (zget data 2);
  reserved_1 ← unwrap (zget data 3);
  encoding ← encoding_try_from h0;
  endian ← endian_try_from h1;
  guard_err (negb (reserved_0 =? 0) || negb (reserved_1 =? 0)) (InvalidReservedBytes reserved_0 reserved_1);;
  from_partial data HEADER_SIZE (blen data - HEADER_SIZE) encoding (NvEndianOrder.into_order endian).

Section iterate.
Context (l : NvList).

Definition array_at (off length count : Z) : NvArray :=
  {| arr_data := nv_data l; arr_offset := off; arr_length := length; arr_count := count; arr_encoding := nv_encoding l;
     arr_order := nv_order l |}.

(** The value of a pair: [rem] is what its size leaves for it, [size] the width of a
    fixed-width array and [aoff] where the elements of one start. *)
Definition value_from_decoder (ty : NvDataType.t) (voff rem aoff size count : Z) : D NvDataValue :=
  let fixed (c : NvArray -> NvDataValue) := bd (@d_skip XD size);; mret (c (array_at aoff size count)) in
  match ty with
  | NvDataType.Boolean => mret VBoolean
  | NvDataType.Byte => v ← bd (@get_u8 XD); mret (VByte v)
  | NvDataType.Int16 => v ← bd (@get_i16 XD); mret (VInt16 v)
  | NvDataType.Uint16 => v ← bd (@get_u16 XD); mret (VUint16 v)
  | NvDataType.Int32 => v ← bd (@get_i32 XD); mret (VInt32 v)
  | NvDataType.Uint32 => v ← bd (@get_u32 XD); mret (VUint32 v)
  | NvDataType.Int64 => v ← bd (@get_i64 XD); mret (VInt64 v)
  | NvDataType.Uint64 => v ← bd (@get_u64 XD); mret (VUint64 v)
  | NvDataType.String => v ← bd (@get_str XD); mret (VString v)
  | NvDataType.ByteArray => v ← bd (@get_bytes XD); mret (VByteArray v)
  | NvDataType.Int16Array => fixed VInt16Array
  | NvDataType.Uint16Array => fixed VUint16Array
  | NvDataType.Int32Array => fixed VInt32Array
  | NvDataType.Uint32Array => fixed VUint32Array
  | NvDataType.Int64Array => fixed VInt64Array
  | NvDataType.Uint64Array => fixed VUint64Array
  | NvDataType.StringArray => bd (@d_skip XD rem);; mret (VStringArray (array_at voff rem count))
  | NvDataType.HrTime => v ← bd (@get_i64 XD); mret (VHrTime v)
  | NvDataType.NvList =>
      bd (@d_skip XD rem);;
      v ← sm_lift (from_partial (nv_data l) voff rem (nv_encoding l) (nv_order l));
      mret (VNvList v)
  | NvDataType.NvListArray => bd (@d_skip XD rem);; mret (VNvListArray (array_at voff rem count))
  | NvDataType.BooleanValue => v ← bd (@get_bool XD); mret (VBooleanValue v)
  | NvDataType.Int8 => v ← bd (@get_i8 XD); mret (VInt8 v)
  | NvDataType.Uint8 => v ← bd (@get_u8 XD); mret (VUint8 v)
  | NvDataType.BooleanArray => fixed VBooleanArray
  | NvDataType.Int8Array => fixed VInt8Array
  | NvDataType.Uint8Array => fixed VUint8Array
  | NvDataType.Double => v ← bd (@get_f64 XD); mret (VDouble v)
  end.

(** What a pair's size leaves after [start]; a size that is too small is refused. *)
Definition bytes_left (encoded_size start : Z) : D Z :=
  b ← sm_get;
  let used := offset b - start in
  sm_lift (ok_or (checked_sub encoded_size used) (InvalidEncodedSize encoded_size used)).

Definition next_pair_result : D (option NvPair) :=
  b ← sm_get;
  if DecoderBuffer.is_empty b then mret None
  else
    let starting_offset := offset b in
    encoded_size ← bd Xdr.get_usize_32;
    decoded_size ← bd Xdr.get_usize_32;
    if (encoded_size =? 0) && (decoded_size =? 0) then mret None
    else
      name ← bd (@get_str XD);
      code ← bd (@get_u32 XD);
      data_type ← sm_lift (type_try_from code);
      element_count ← bd Xdr.get_usize_32;
      value_offset ← sm_gets offset;
      bytes_rem ← bytes_left encoded_size starting_offset;
      array_value_size ← sm_lift (check_data_type_count_and_get_array_size data_type element_count);
      array_offset ← (if is_fixed_width_array data_type then
                        prefix ← bd Xdr.get_usize_32;
                        sm_guard (negb (prefix =? element_count)) (InvalidCount data_type prefix);;
                        sm_gets offset
                      else mret value_offset);
      value ← value_from_decoder data_type value_offset bytes_rem array_offset array_value_size element_count;
      bytes_rem ← bytes_left encoded_size starting_offset;
      sm_guard (0 <? bytes_rem) (InvalidEncodedSize encoded_size (encoded_size - bytes_rem));;
      mret (Some {| pair_name := name; pair_value := value |}).

(** The decoder that [iter] starts with; its failure is the first item. *)
Definition iter : outcome NvDecodeError BinaryDecoderBuffer :=
  map_err NvBinaryDecoder (DecoderBuffer.from_bytes_clamped (nv_data l) (nv_offset l) (nv_length l)).

(** A loop over the pairs of a list that stops when [k] returns a result; a pair takes
    at least eight bytes, so the length of the input bounds the turns.  [inj] is
    the caller's error for a pair that does not decode. *)
Fixpoint each_pair {E A} (inj : NvDecodeError -> E) (k : NvPair -> outcome E (option A)) (fuel : nat) :
    SM BinaryDecoderBuffer E (option A) :=
  pair ← sm_map_err inj next_pair_result;
  match pair with
  | None => mret None
  | Some p =>
      r ← sm_lift (k p);
      match r, fuel with
      | Some a, _ => mret (Some a)
      | None, S fuel' => each_pair inj k fuel'
      | None, O => sm_panic
      end
  end.
Definition turns : nat := length (nv_data l).
(** [for pair in list]. *)
Definition for_each {E A} (inj : NvDecodeError -> E) (k : NvPair -> outcome E (option A)) : outcome E (option A) :=
  b ← map_err inj iter; fst (each_pair inj k turns b).

(** The same loop over all the pairs, with a value [s] that [k] updates. *)
Fixpoint fold_pairs {E S} (inj : NvDecodeError -> E) (k : S -> NvPair -> outcome E S) (fuel : nat) (s : S) :
    SM BinaryDecoderBuffer E S :=
  pair ← sm_map_err inj next_pair_result;
  match pair with
  | None => mret s
  | Some p =>
      s' ← sm_lift (k s p);
      match fuel with Datatypes.S fuel' => fold_pairs inj k fuel' s' | O => sm_panic end
  end.
Definition fold_each {E S} (inj : NvDecodeError -> E) (k : S -> NvPair -> outcome E S) (s : S) : outcome E S :=
  b ← map_err inj iter; fst (fold_pairs inj k turns s b).

Definition find (name : bytes) : outcome NvDecodeError (option NvPair) :=
  for_each id (fun p => Ok (if bool_decide (pair_name p = name) then Some p else None)).
End iterate.

(** ** Arrays of lists *)
Section lists.
Context (a : NvArray).

(** One element: the list is walked to its end to find its length. *)
Definition next_list : D NvList :=
  b ← sm_get;
  list ← sm_lift (from_partial (data b) (offset b) (DecoderBuffer.len b) (arr_encoding a) (arr_order a));
  b' ← sm_lift (iter list);
  let '(r, b') := each_pair list id (fun _ => Ok (@None unit)) (turns list) b' in
  sm_lift r;;
  let bytes_used := offset b' - offset b in
  bd (@d_skip XD bytes_used);;
  sm_lift (from_partial (data b) (offset b) bytes_used (arr_encoding a) (arr_order a)).

(** All the elements, up to the first error. *)
Fixpoint lists_loop (n : nat) : D (list NvList) :=
  match n with
  | O => mret []
  | S n' => x ← next_list; xs ← lists_loop n'; mret (x :: xs)
  end.
End lists.

(** An element of a fixed-width or string array. *)
Fixpoint values_loop {A} (get : DecoderBuffer.D A) (n : nat) : D (list A) :=
  match n with
  | O => mret []
  | S n' => x ← bd get; xs ← values_loop get n'; mret (x :: xs)
  end.

Module Arr.
Definition is_empty (a : NvArray) : bool := arr_count a =? 0.
Definition len (a : NvArray) : Z := arr_count a.
Definition iter (a : NvArray) : outcome NvDecodeError BinaryDecoderBuffer :=
  map_err NvBinaryDecoder (DecoderBuffer.from_bytes_clamped (arr_data a) (arr_offset a) (arr_length a)).
(** Every element of an array, or the first error; an empty array has no error. *)
Definition collect {A} (m : nat -> D (list A)) (a : NvArray) : outcome NvDecodeError (list A) :=
  if is_empty a then Ok [] else b ← iter a; fst (m (Z.to_nat (arr_count a)) b).
Definition lists (a : NvArray) : outcome NvDecodeError (list NvList) := collect (lists_loop a) a.
Definition values {A} (get : DecoderBuffer.D A) (a : NvArray) : outcome NvDecodeError (list A) := collect (values_loop get) a.
End Arr.

(** ** Looking a name up *)
Module Nvl.
Definition get {A} (sel : NvPair -> outcome NvDecodeError A) (l : NvList) (name : bytes) : outcome NvDecodeError (option A) :=
  p ← find l name;
  match p with Some p => v ← sel p; Ok (Some v) | None => Ok None end.
Definition get_bool_array : NvList -> bytes -> outcome NvDecodeError (option NvArray) := get Pair.get_bool_array.
Definition get_byte_array : NvList -> bytes -> outcome NvDecodeError (option bytes) := get Pair.get_byte_array.
Definition get_i8_array : NvList -> bytes -> outcome NvDecodeError (option NvArray) := get Pair.get_i8_array.
Definition get_i16_array : NvList -> bytes -> outcome NvDecodeError (option NvArray) := get Pair.get_i16_array.
Definition get_i32_array : NvList -> bytes -> outcome NvDecodeError (option NvArray) := get Pair.get_i32_array.
Definition get_i64_array : NvList -> bytes -> outcome NvDecodeError (option NvArray) := get Pair.get_i64_array.
Definition get_nv_list : NvList -> bytes -> outcome NvDecodeError (option NvList) := get Pair.get_nv_list.
Definition get_nv_list_array : NvList -> bytes -> outcome NvDecodeError (option NvArray) := get Pair.get_nv_list_array.
Definition get_str : NvList -> bytes -> outcome NvDecodeError (option bytes) := get Pair.get_str.
Definition get_str_array : NvList -> bytes -> outcome NvDecodeError (option NvArray) := get Pair.get_str_array.
Definition get_u8_array : NvList -> bytes -> outcome NvDecodeError (option NvArray) := get Pair.get_u8_array.
Definition get_u16_array : NvList -> bytes -> outcome NvDecodeError (option NvArray) := get Pair.get_u16_array.
Definition get_u32_array : NvList -> bytes -> outcome NvDecodeError (option NvArray) := get Pair.get_u32_array.
Definition get_u64_array : NvList -> bytes -> outcome NvDecodeError (option NvArray) := get Pair.get_u64_array.
Definition get_bool : NvList -> bytes -> outcome NvDecodeError (option bool) := get Pair.get_bool.
Definition get_byte : NvList -> bytes -> outcome NvDecodeError (option Z) := get Pair.get_byte.
Definition get_f64 : NvList -> bytes -> outcome NvDecodeError (option Z) := get Pair.get_f64.
Definition get_hr_time : NvList -> bytes -> outcome NvDecodeError (option Z) := get Pair.get_hr_time.
Definition get_i8 : NvList -> bytes -> outcome NvDecodeError (option Z) := get Pair.get_i8.
Definition get_i16 : NvList -> bytes -> outcome NvDecodeError (option Z) := get Pair.get_i16.
Definition get_i32 : NvList -> bytes -> outcome NvDecodeError (option Z) := get Pair.get_i32.
Definition get_i64 : NvList -> bytes -> outcome NvDecodeError (option Z) := get Pair.get_i64.
Definition get_u8 : NvList -> bytes -> outcome NvDecodeError (option Z) := get Pair.get_u8.
Definition get_u16 : NvList -> bytes -> outcome NvDecodeError (option Z) := get Pair.get_u16.
Definition get_u32 : NvList -> bytes -> outcome NvDecodeError (option Z) := get Pair.get_u32.
Definition get_u64 : NvList -> bytes -> outcome NvDecodeError (option Z) := get Pair.get_u64.
Definition get_bool_flag : NvList -> bytes -> outcome NvDecodeError (option bool) := get Pair.get_bool_flag.
End Nvl.

(** ** Progress

    [forward k P m]: [m] does not panic, never moves back, keeps the input and its
    window, and has taken at least [k] bytes when it returns, a value in [P]. *)
Definition forward {E A} (k : Z) (P : A -> Prop) (m : SM BinaryDecoderBuffer E A) : Prop :=
  forall b, DecoderBuffer.wf b ->
    DecoderBuffer.wf (snd (m b)) /\ DecoderBuffer.window (snd (m b)) = DecoderBuffer.window b /\
    offset b <= offset (snd (m b)) /\
    match fst (m b) with Ok a => P a /\ offset b + k <= offset (snd (m b)) | Err _ => True | Panic => False end.

Lemma forward_bind {E A C} k1 k2 (P : A -> Prop) (Q : C -> Prop) (m : SM BinaryDecoderBuffer E A) (f : A -> SM _ E C) :
  forward k1 P m -> (forall a, P a -> forward k2 Q (f a)) -> forward (k1 + k2) Q (m ≫= f).
Proof.
  intros Hm Hf b Hb. destruct (Hm b Hb) as (Hw & Hd & Ho & Hr). unfold mbind, SM_bind.
  destruct (m b) as [[a|e|] b1]; cbn [fst snd] in *; [|done|done].
  destruct Hr as [Ha Hk]. destruct (Hf a Ha b1 Hw) as (Hw2 & Hd2 & Ho2 & Hr2).
  split; [done|]. split; [congruence|]. split; [lia|]. destruct (fst (f a b1)); [|done|done]. split; [tauto|lia].
Qed.
Lemma forward_mono {E A} k k' (P Q : A -> Prop) (m : SM BinaryDecoderBuffer E A) :
  k' <= k -> (forall a, P a -> Q a) -> forward k P m -> forward k' Q m.
Proof.
  intros Hk HPQ Hm b Hb. destruct (Hm b Hb) as (Hw & Hd & Ho & Hr). repeat split; [apply Hw|apply Hw|apply Hw|apply Hw|apply Hw|done|done|].
  destruct (fst (m b)); [|done|done]. destruct Hr. split; [auto|lia].
Qed.
Lemma forward_map_err {E F A} k (P : A -> Prop) (g : E -> F) (m : SM BinaryDecoderBuffer E A) :
  forward k P m -> forward k P (sm_map_err g m).
Proof.
  intros Hm b Hb. specialize (Hm b Hb). unfold sm_map_err. destruct (m b) as [[a|e|] b1]; exact Hm.
Qed.
Lemma forward_lift {E A} (P : A -> Prop) (m : outcome E A) : safe P m -> forward 0 P (sm_lift m).
Proof.
  intros Hm b Hb. unfold sm_lift. cbn [fst snd]. split; [done|]. split; [done|]. split; [lia|].
  destruct m; [split; [done|lia]|done|done].
Qed.
Lemma forward_ret {E A} (P : A -> Prop) (a : A) : P a -> forward (E := E) 0 P (mret a).
Proof. intros Ha. now apply (forward_lift P (Ok a)). Qed.
Lemma forward_err {E A} k (P : A -> Prop) (e : E) : forward k P (sm_err e).
Proof. intros b Hb. cbn. split; [done|]. split; [done|]. split; [lia|done]. Qed.
Lemma forward_guard {E} b (e : E) : forward 0 (fun _ => b = false) (sm_guard b e).
Proof. apply forward_lift, safe_guard. Qed.
Lemma forward_get {E} : forward (E := E) 0 DecoderBuffer.wf sm_get.
Proof. intros b Hb. cbn. split; [done|]. split; [done|]. split; [lia|]. split; [done|lia]. Qed.
Lemma forward_offset {E} : forward (E := E) 0 (fun o => 0 <= o) (sm_gets offset).
Proof. intros b Hb. cbn. split; [done|]. split; [done|]. split; [lia|]. destruct Hb as ([? ?] & _). split; lia. Qed.

Lemma forward_get_bytes n : 0 <= n -> forward n (fun v => blen v = n /\ bytes_ok v) (DecoderBuffer.get_bytes n).
Proof.
  intros Hn b Hb. rewrite DecoderBuffer.get_bytes_spec by done.
  destruct (Z.leb_spec n (blen (DecoderBuffer.remaining b))); cbn [fst snd].
  - split; [now apply DecoderBuffer.wf_advance|]. split; [done|]. cbn. split; [lia|]. split; [|lia].
    split; [rewrite blen_ztake by lia; lia|]. apply bytes_ok_ztake, DecoderBuffer.bytes_ok_remaining, Hb.
  - split; [done|]. split; [done|]. split; [lia|done].
Qed.
Lemma forward_skip n : 0 <= n -> forward n (fun _ => True) (DecoderBuffer.skip n).
Proof.
  intros Hn b Hb. unfold DecoderBuffer.skip; smunfold. rewrite DecoderBuffer.check_need_spec by done.
  destruct (Z.leb_spec n (blen (DecoderBuffer.remaining b))); cbn [fst snd sm_fun].
  - split; [now apply DecoderBuffer.wf_advance|]. split; [done|]. cbn. split; [lia|]. split; [done|lia].
  - split; [done|]. split; [done|]. split; [lia|done].
Qed.
Lemma forward_skip_zeros n : 0 <= n -> forward n (fun _ => True) (DecoderBuffer.skip_zeros n).
Proof.
  intros Hn. replace n with (0 + (n + 0)) at 1 by lia. unfold DecoderBuffer.skip_zeros.
  eapply forward_bind; [apply forward_offset|]. intros o _.
  eapply forward_bind; [now apply forward_get_bytes|]. intros bs _.
  destruct (forallb _ _); [now apply forward_ret|apply forward_err].
Qed.
Lemma forward_get_str n : 0 <= n -> forward n bytes_ok (DecoderBuffer.get_str n).
Proof.
  intros Hn b Hb. pose proof (forward_get_bytes n Hn b Hb) as (Hw & Hd & Ho & Hr).
  unfold DecoderBuffer.get_str; smunfold. destruct (DecoderBuffer.get_bytes n b) as [[v|e|] b1]; cbn [fst snd] in *; [|done|done].
  unfold from_utf8. destruct (utf8_validate 0 v) as [e|]; cbn [fst snd sm_fun].
  - unfold DecoderBuffer.window in *. injection Hd as Hd1 Hd2 Hd3. unfold DecoderBuffer.wf in *. cbn. rewrite Hd1, Hd2, Hd3 in *.
    split; [tauto|]. split; [done|]. split; [lia|done].
  - split; [done|]. split; [done|]. split; [lia|]. tauto.
Qed.
Lemma forward_int o n : 0 <= n -> forward n (fits (8 * n)) (get_int o n).
Proof.
  intros Hn. replace n with (n + 0) at 1 by lia. unfold get_int. eapply forward_bind.
  - intros b Hb. rewrite DecoderBuffer.get_n_bytes_spec by done. now apply forward_get_bytes.
  - intros v [Hl Hv]. apply forward_ret. now apply int_from_fits.
Qed.
Lemma forward_test {E A} k (P : A -> Prop) (m : SM BinaryDecoderBuffer E A) {C} (f : A -> C) (t : A -> bool) (err : Z -> A -> E) (R : C -> Prop) :
  forward k P m -> (forall v, P v -> t v = true -> R (f v)) ->
  forward k R (o ← sm_gets offset; v ← m; if t v then mret (f v) else sm_err (err o v)).
Proof.
  intros Hm Ht. replace k with (0 + (k + 0)) by lia. eapply forward_bind; [apply forward_offset|]. intros o _.
  eapply forward_bind; [exact Hm|]. intros v Hv. destruct (t v) eqn:Et; [apply forward_ret; auto|apply forward_err].
Qed.
Abbreviation advances k m := (forward k (fun _ => True) m).
Lemma forward_then {E A} k (P : A -> Prop) {C} (m : SM BinaryDecoderBuffer E A) (c : A -> C) (Q : C -> Prop) :
  forward k P m -> (forall a, P a -> Q (c a)) -> forward k Q (a ← m; mret (c a)).
Proof.
  intros Hm Hc. replace k with (k + 0) by lia. eapply forward_bind; [exact Hm|]. intros a Ha. apply forward_ret; auto.
Qed.
Lemma forward_u32 : forward 4 (fits 32) Xdr.get_u32.
Proof. now apply (forward_int _ 4). Qed.
Lemma forward_i32 : advances 4 Xdr.get_i32.
Proof. eapply forward_then; [apply forward_u32|done]. Qed.
Lemma forward_usize_32 : forward 4 (fun v => 0 <= v) Xdr.get_usize_32.
Proof. eapply (forward_test 4 (fits 32)); [apply forward_u32|]. now intros v [Hv _] _. Qed.
Lemma forward_aligned {A} k err (op : Z -> DecoderBuffer.D A) n P : forward k P (op n) -> forward k P (Xdr.aligned err op n).
Proof. intros. unfold Xdr.aligned. destruct (_ =? 0); [done|apply forward_err]. Qed.
Lemma forward_xskip n : 0 <= n -> advances n (@d_skip XD n).
Proof. intros. now apply forward_aligned, forward_skip. Qed.
Lemma forward_padded {A} k (m : DecoderBuffer.D A) n P : forward k P m -> forward k P (v ← m; Xdr.consume_padding n;; mret v).
Proof.
  intros Hm. replace k with (k + (0 + 0)) by lia. eapply forward_bind; [exact Hm|]. intros v Hv.
  eapply (forward_bind 0 0 (fun _ => True)).
  - unfold Xdr.consume_padding. destruct (_ =? 0); [now apply forward_ret|].
    pose proof (Z.mod_pos_bound n 4 ltac:(lia)). unfold Xdr.ALIGNMENT in *.
    eapply forward_mono; [| |apply forward_skip_zeros]; [lia|done|lia].
  - intros _ _. now apply forward_ret.
Qed.
Lemma forward_sized {A} (m : Z -> DecoderBuffer.D A) P :
  (forall n, 0 <= n -> forward 0 P (m n)) -> forward 4 P (n ← Xdr.get_usize_32; m n).
Proof. intros Hm. apply (forward_bind 4 0 (fun n => 0 <= n)); [apply forward_usize_32|exact Hm]. Qed.
Lemma forward_str : advances 4 (@get_str XD).
Proof.
  apply forward_sized. intros n Hn. apply forward_padded. eapply forward_mono; [| |now apply forward_get_str]; [done|done].
Qed.
Lemma forward_byte_array : advances 4 (@get_bytes XD).
Proof.
  apply forward_sized. intros n Hn. apply forward_padded. eapply forward_mono; [| |now apply forward_get_bytes]; [done|done].
Qed.
Lemma forward_u8 : advances 4 (@get_u8 XD).
Proof.
  unfold get_u8, XdrDecoder, Xdr.decoder, Xdr.get_u8.
  apply (forward_test 4 (fits 32) _ (fun v0 => if 0xffffff80 <=? v0 then v0 - 0xffffff00 else v0)
           (fun v0 => fitsb 8 (if 0xffffff80 <=? v0 then v0 - 0xffffff00 else v0)) (fun o v0 => U32toU8Conversion o (if 0xffffff80 <=? v0 then v0 - 0xffffff00 else v0)));
    [apply forward_u32|done].
Qed.
Lemma forward_u16 : advances 4 (@get_u16 XD).
Proof. apply (forward_test 4 (fits 32)); [apply forward_u32|done]. Qed.
Lemma forward_narrow w err : advances 4 (Xdr.get_narrow w err).
Proof. apply (forward_test 4 (fun _ => True)); [apply forward_i32|done]. Qed.
Lemma forward_bool : advances 4 (@get_bool XD).
Proof.
  unfold get_bool, XdrDecoder, Xdr.decoder, bool_of_u32. change 4 with (0 + (4 + 0)).
  eapply forward_bind; [apply forward_offset|]. intros o _. eapply forward_bind; [apply forward_u32|]. intros v _.
  destruct (v =? 0), (v =? 1); first [now apply forward_ret|apply forward_err].
Qed.
Lemma forward_i64 : advances 8 (@get_i64 XD).
Proof. eapply forward_then; [now apply (forward_int _ 8)|done]. Qed.
Lemma forward_any {E A} k k' (P : A -> Prop) (m : SM BinaryDecoderBuffer E A) : k' <= k -> forward k P m -> advances k' m.
Proof. intros. eapply forward_mono; eauto. Qed.

(** ** No input makes decoding panic or run on *)
(** A list whose window is inside its data; an array may say more than there is, which is noticed when it is walked. *)
Definition nv_ok (l : NvList) : Prop :=
  bytes_ok (nv_data l) /\ 0 <= nv_offset l /\ 0 <= nv_length l /\ nv_offset l + nv_length l <= blen (nv_data l).
Definition arr_ok (a : NvArray) : Prop := bytes_ok (arr_data a) /\ 0 <= arr_offset a /\ 0 <= arr_length a.
Definition value_ok (v : NvDataValue) : Prop :=
  match v with
  | VNvList l => nv_ok l
  | VInt16Array a | VUint16Array a | VInt32Array a | VUint32Array a | VInt64Array a | VUint64Array a | VStringArray a
  | VNvListArray a | VBooleanArray a | VInt8Array a | VUint8Array a => arr_ok a
  | _ => True
  end.
Definition pair_ok (p : NvPair) : Prop := value_ok (pair_value p).
(** A value whose lists and arrays are windows on [d]. *)
Definition value_in (d : bytes) (v : NvDataValue) : Prop :=
  value_ok v /\
  match v with
  | VNvList l => nv_data l = d
  | VInt16Array a | VUint16Array a | VInt32Array a | VUint32Array a | VInt64Array a | VUint64Array a | VStringArray a
  | VNvListArray a | VBooleanArray a | VInt8Array a | VUint8Array a => arr_data a = d
  | _ => True
  end.
Definition pair_in (d : bytes) (p : NvPair) : Prop := value_in d (pair_value p).

Lemma clamped_safe l o n : bytes_ok l -> 0 <= o -> 0 <= n -> safe (fun b => DecoderBuffer.wf b /\ offset b = o /\ data b = l) (DecoderBuffer.from_bytes_clamped l o n).
Proof.
  intros Hl Ho Hn. unfold DecoderBuffer.from_bytes_clamped.
  destruct (Z.ltb_spec (blen l) o); [done|]. destruct (Z.ltb_spec (blen l - o) n); [done|].
  cbn. unfold DecoderBuffer.wf. cbn. pose proof (blen_nonneg l). repeat split; try lia; done.
Qed.
Lemma bd_forward {A} k (P : A -> Prop) (m : DecoderBuffer.D A) : forward k P m -> forward k P (bd m).
Proof. apply forward_map_err. Qed.
(** One more step of a decoder, for a goal with no minimum of its own. *)
Ltac fwd H := eapply (forward_bind 0 0); [eapply forward_mono; [| |apply H]; [first [done|lia]|intros ? HH; exact HH]|].

Lemma run_forward {E A} k (P : A -> Prop) (m : SM BinaryDecoderBuffer E A) b :
  forward k P m -> DecoderBuffer.wf b -> safe P (fst (m b)).
Proof. intros Hm Hb. destruct (Hm b Hb) as (_ & _ & _ & Hr). destruct (fst (m b)); [apply Hr|done|done]. Qed.

(** Running on the data [d] at or after [lo]. *)
Definition ahead {E A} (lo : Z) (d : bytes) (P : A -> Prop) (m : SM BinaryDecoderBuffer E A) : Prop :=
  forall b, DecoderBuffer.wf b -> lo <= offset b -> data b = d -> safe P (fst (m b)).
Lemma ahead_bind {E A C} lo d k (Q : A -> Prop) (P : C -> Prop) (m : SM BinaryDecoderBuffer E A) (f : A -> SM _ E C) :
  forward k Q m -> (forall a, Q a -> ahead lo d P (f a)) -> ahead lo d P (m ≫= f).
Proof.
  intros Hm Hf b Hb Ho Hd. destruct (Hm b Hb) as (Hw & Hwin & Ho1 & Hr). unfold mbind, SM_bind.
  destruct (m b) as [[a|e|] b1]; cbn [fst snd] in *; [|done|done]. apply Hf; [apply Hr|done|lia|]. injection Hwin. congruence.
Qed.
Lemma unique_safe u : safe (fun _ => True) (unique_try_from u).
Proof. unfold unique_try_from. destruct u as [|[|[]|]|]; done. Qed.
Lemma from_partial_safe data start length encoding order :
  bytes_ok data -> 0 <= start -> 0 <= length ->
  safe (fun l => (nv_ok l /\ nv_data l = data) /\ start <= nv_offset l) (from_partial data start length encoding order).
Proof.
  intros Hd Hs Hl. unfold from_partial. destruct encoding; [done|].
  eapply safe_bind; [eapply safe_map_err, clamped_safe; done|]. intros b (Hb & Ho & Hdata).
  match goal with |- safe _ (fst (?m b)) => cut (ahead start data (fun l => (nv_ok l /\ nv_data l = data) /\ start <= nv_offset l) m);
    [intros H; apply H; [done|lia|done]|] end.
  eapply ahead_bind; [apply (bd_forward 4 _ _ forward_u32)|]. intros v _. eapply ahead_bind; [apply forward_guard|]. intros _ _.
  eapply ahead_bind; [apply (bd_forward 4 _ _ forward_u32)|]. intros fl _. eapply ahead_bind; [apply forward_guard|]. intros _ _.
  eapply ahead_bind; [apply (forward_lift _ _ (unique_safe (wrap 8 (Z.land fl 3))))|].
  intros u _ b' Hb' Ho' Hd'. rewrite (SM_run sm_get _ b' b' b' eq_refl). cbn [fst safe mret SM_ret sm_lift].
  destruct Hb' as ([? ?] & [? ?] & ?). rewrite Hd' in *. unfold nv_ok, DecoderBuffer.len, saturating_sub. cbn [nv_data nv_offset nv_length].
  repeat split; [done|lia..].
Qed.
Lemma zget_safe {E} (l : bytes) i : 0 <= i < blen l -> safe (E := E) (fun _ => True) (unwrap (zget l i)).
Proof.
  intros Hi. unfold zget. replace ((0 <=? i) && (i <? blen l)) with true by lia.
  destruct (lookup_lt_is_Some_2 l (Z.to_nat i)) as [x ->]; [|done]. unfold blen in Hi. lia.
Qed.
Lemma nv_from_bytes_in data : bytes_ok data -> safe (fun l => nv_ok l /\ nv_data l = data) (from_bytes data).
Proof.
  intros Hd. unfold from_bytes. destruct (blen data <? HEADER_SIZE) eqn:E; [done|]. apply Z.ltb_ge in E. unfold HEADER_SIZE in *.
  cbn [guard_err mbind outcome_bind].
  do 4 (eapply safe_bind; [apply zget_safe; lia|]; intros ? _). eapply safe_bind.
  { instantiate (1 := fun _ => True). unfold encoding_try_from. now destruct a as [|[]|]. }
  intros e _. eapply safe_bind.
  { instantiate (1 := fun _ => True). unfold endian_try_from. now destruct a0 as [|[]|]. }
  intros o _. eapply safe_bind; [apply safe_guard|]. intros _ _. eapply safe_mono; [apply from_partial_safe; [done|lia|lia]|]. now intros ? [? _].
Qed.
Lemma nv_from_bytes_safe data : bytes_ok data -> safe nv_ok (from_bytes data).
Proof. intros Hd. eapply safe_mono; [now apply nv_from_bytes_in|]. now intros ? []. Qed.

Lemma bytes_left_forward size start : forward 0 (fun r => 0 <= r) (bytes_left size start).
Proof.
  unfold bytes_left. fwd @forward_get. intros b _. apply forward_lift. unfold checked_sub.
  destruct (_ <=? _) eqn:E; cbn; [|done]. lia.
Qed.

Section pairs_safe.
Context (l : NvList) (Hl : nv_ok l).
Abbreviation value_here := (value_in (nv_data l)).

Lemma array_at_ok off length count : 0 <= off -> 0 <= length -> arr_ok (array_at l off length count).
Proof. destruct Hl as (Hd & _). done. Qed.
Lemma value_forward ty voff rem aoff size count :
  0 <= voff -> 0 <= rem -> 0 <= aoff -> 0 <= size -> forward 0 value_here (value_from_decoder l ty voff rem aoff size count).
Proof.
  intros Hv Hr Ha Hs. destruct Hl as (Hd & _).
  assert (Hat : forall off n, 0 <= off -> 0 <= n -> arr_ok (array_at l off n count)) by (intros; now apply array_at_ok).
  assert (Hsk : forall n (c : NvDataValue), 0 <= n -> value_here c -> forward 0 value_here (bd (@d_skip XD n);; mret c)).
  { intros n c Hn Hc. fwd (bd_forward _ _ _ (forward_xskip n Hn)). intros _ _. now apply forward_ret. }
  assert (Hget : forall A k (m : DecoderBuffer.D A) (c : A -> NvDataValue), 0 <= k -> advances k m -> (forall a, value_here (c a)) ->
            forward 0 value_here (v ← bd m; mret (c v))).
  { intros A k m c Hk Hm Hc. eapply forward_then; [eapply forward_mono; [exact Hk| |apply bd_forward, Hm]; intros ? HH; exact HH|]; auto. }
  unfold value_from_decoder.
  destruct ty; try (apply Hsk; [lia|split; [cbn; apply Hat; lia|done]]).
  - now apply forward_ret.
  - now apply (Hget _ 4 _ _ ltac:(done) forward_u8).
  - now apply (Hget _ 4 _ _ ltac:(done) (forward_narrow 16 _)).
  - now apply (Hget _ 4 _ _ ltac:(done) forward_u16).
  - now apply (Hget _ 4 _ _ ltac:(done) forward_i32).
  - now apply (Hget _ 4 _ _ ltac:(done) (forward_any _ 4 _ _ ltac:(done) forward_u32)).
  - now apply (Hget _ 8 _ _ ltac:(done) forward_i64).
  - now apply (Hget _ 8 _ _ ltac:(done) (forward_any _ 8 _ _ ltac:(done) (forward_int Big 8 ltac:(done)))).
  - now apply (Hget _ 4 _ _ ltac:(done) forward_str).
  - now apply (Hget _ 4 _ _ ltac:(done) forward_byte_array).
  - now apply (Hget _ 8 _ _ ltac:(done) forward_i64).
  - fwd (bd_forward _ _ _ (forward_xskip rem Hr)). intros _ _.
    eapply forward_then; [apply forward_lift, from_partial_safe; done|]. now intros ? [? _].
  - now apply (Hget _ 4 _ _ ltac:(done) forward_bool).
  - now apply (Hget _ 4 _ _ ltac:(done) (forward_narrow 8 _)).
  - now apply (Hget _ 4 _ _ ltac:(done) forward_u8).
  - now apply (Hget _ 8 _ _ ltac:(done) (forward_any _ 8 _ _ ltac:(done) (forward_int Big 8 ltac:(done)))).
Qed.

Lemma type_safe ty : safe (fun _ => True) (type_try_from ty).
Proof. unfold type_try_from. repeat case_match; done. Qed.
Lemma count_safe ty count : 0 <= count -> safe (fun n => 0 <= n) (check_data_type_count_and_get_array_size ty count).
Proof.
  intros Hc. unfold check_data_type_count_and_get_array_size. apply (safe_bind (fun n => 0 <= n)).
  - destruct ty; first [cbn; lia|case_match; cbn; (done || lia)].
  - intros n Hn. unfold checked_mul. destruct (_ <? _); cbn; [nia|done].
Qed.

Definition opt_ok (p : option NvPair) : Prop := match p with Some p => pair_in (nv_data l) p | None => True end.

(** A pair that is returned has taken eight bytes of input. *)
Lemma next_pair_step b : DecoderBuffer.wf b ->
  let r := next_pair_result l b in
  DecoderBuffer.wf (snd r) /\ DecoderBuffer.window (snd r) = DecoderBuffer.window b /\ offset b <= offset (snd r) /\
  match fst r with
  | Ok (Some p) => pair_in (nv_data l) p /\ offset b + 8 <= offset (snd r)
  | Ok None => True | Err _ => True | Panic => False
  end.
Proof.
  intros Hb. cbn zeta. unfold next_pair_result. rewrite (SM_run sm_get _ b b b eq_refl). destruct (DecoderBuffer.is_empty b) eqn:Ee.
  { cbn. split; [done|]. split; [done|]. split; [lia|done]. }
  assert (Ho : 0 <= offset b) by (destruct Hb as ([? ?] & _); lia).
  match goal with |- context [fst (?m b)] => assert (Hf : forward 8 opt_ok m) end.
  { change 8 with (4 + (4 + 0)). eapply forward_bind; [apply bd_forward, forward_usize_32|]. intros es Hes.
    eapply forward_bind; [apply bd_forward, forward_usize_32|]. intros ds Hds.
    destruct ((es =? 0) && (ds =? 0)); [now apply forward_ret|].
    fwd (bd_forward _ _ _ forward_str). intros name _. fwd (bd_forward _ _ _ forward_u32). intros code _.
    fwd (forward_lift _ _ (type_safe code)). intros ty _. fwd (bd_forward _ _ _ forward_usize_32). intros count Hcount.
    fwd (@forward_offset NvDecodeError). intros voff Hvoff. fwd (bytes_left_forward es (offset b)). intros rem Hrem.
    fwd (forward_lift _ _ (count_safe ty count Hcount)). intros size Hsize.
    apply (forward_bind 0 0 (fun aoff => 0 <= aoff)).
    { destruct (is_fixed_width_array ty); [|now apply forward_ret]. fwd (bd_forward _ _ _ forward_usize_32). intros prefix _.
      fwd @forward_guard. intros _ _. apply forward_offset. }
    intros aoff Haoff. fwd (value_forward ty voff rem aoff size count Hvoff Hrem Haoff Hsize). intros v Hv.
    fwd (bytes_left_forward es (offset b)). intros rem' _. fwd @forward_guard. intros _ _. now apply forward_ret. }
  destruct (Hf b Hb) as (Hw & Hd & Ho2 & Hr). split; [exact Hw|]. split; [exact Hd|]. split; [exact Ho2|].
  destruct (fst _) as [[p|]|e|]; [exact Hr|done|done|done].
Qed.

Lemma each_pair_turn {E A} (inj : NvDecodeError -> E) (k : NvPair -> outcome E (option A)) fuel b :
  each_pair l inj k fuel b =
  match next_pair_result l b with
  | (Ok (Some p), b1) =>
      match k p with
      | Ok (Some a) => (Ok (Some a), b1)
      | Ok None => match fuel with S fuel => each_pair l inj k fuel b1 | O => (Panic, b1) end
      | Err e => (Err e, b1)
      | Panic => (Panic, b1)
      end
  | (Ok None, b1) => (Ok None, b1)
  | (Err e, b1) => (Err (inj e), b1)
  | (Panic, b1) => (Panic, b1)
  end.
Proof.
  destruct fuel; cbn [each_pair]; unfold mbind, SM_bind, sm_map_err, sm_lift; destruct (next_pair_result l b) as [[[p|]|e|] b1];
    cbn [map_err]; try done; destruct (k p) as [[a|]|e|]; done.
Qed.
Lemma each_pair_forward {E A} (inj : NvDecodeError -> E) (k : NvPair -> outcome E (option A)) fuel b (P : A -> Prop) :
  (forall p, pair_in (nv_data l) p -> safe (fun r => match r with Some a => P a | None => True end) (k p)) ->
  DecoderBuffer.wf b -> max_offset b - offset b < 8 * (Z.of_nat fuel + 1) ->
  let r := each_pair l inj k fuel b in
  DecoderBuffer.wf (snd r) /\ DecoderBuffer.window (snd r) = DecoderBuffer.window b /\ offset b <= offset (snd r) /\
  safe (fun r => match r with Some a => P a | None => True end) (fst r).
Proof.
  intros Hk. revert b. induction fuel as [|fuel IH]; intros b Hb Hf; cbn zeta; rewrite each_pair_turn;
    destruct (next_pair_step b Hb) as (Hw & Hd & Ho & Hr); destruct (next_pair_result l b) as [[[p|]|e|] b1]; cbn [fst snd] in *;
    try exact (conj Hw (conj Hd (conj Ho Hr))); destruct Hr as [Hp H8]; specialize (Hk p Hp);
    destruct (k p) as [[a|]|e|]; try exact (conj Hw (conj Hd (conj Ho Hk))).
  - exfalso. destruct Hw as (? & ? & ?). injection Hd as ? ? ?. lia.
  - assert (Hm : max_offset b1 = max_offset b) by now injection Hd.
    destruct (IH b1 Hw ltac:(lia)) as (Hw2 & Hd2 & Ho2 & Hs). split; [done|]. split; [congruence|]. split; [lia|done].
Qed.

Lemma iter_safe : safe (fun b => DecoderBuffer.wf b /\ max_offset b - offset b <= Z.of_nat (turns l) /\ offset b = nv_offset l) (iter l).
Proof.
  destruct Hl as (Hd & Ho & Hn). unfold iter. apply safe_map_err. unfold turns, DecoderBuffer.from_bytes_clamped.
  destruct (Z.ltb_spec (blen (nv_data l)) (nv_offset l)); [done|]. destruct (Z.ltb_spec (blen (nv_data l) - nv_offset l) (nv_length l)); [done|].
  cbn. unfold DecoderBuffer.wf, blen in *. cbn. repeat split; try lia; done.
Qed.
Lemma for_each_in {E A} (inj : NvDecodeError -> E) (k : NvPair -> outcome E (option A)) (P : A -> Prop) :
  (forall p, pair_in (nv_data l) p -> safe (fun r => match r with Some a => P a | None => True end) (k p)) ->
  safe (fun r => match r with Some a => P a | None => True end) (for_each l inj k).
Proof.
  intros Hk. unfold for_each. eapply safe_bind; [apply safe_map_err, iter_safe|]. intros b (Hb & Hm & _).
  now apply (each_pair_forward inj k (turns l) b P); [| |lia].
Qed.
Lemma for_each_safe {E A} (inj : NvDecodeError -> E) (k : NvPair -> outcome E (option A)) (P : A -> Prop) :
  (forall p, pair_ok p -> safe (fun r => match r with Some a => P a | None => True end) (k p)) ->
  safe (fun r => match r with Some a => P a | None => True end) (for_each l inj k).
Proof. intros Hk. apply for_each_in. intros p [Hp _]. now apply Hk. Qed.
Lemma fold_pairs_turn {E S} (inj : NvDecodeError -> E) (k : S -> NvPair -> outcome E S) fuel s b :
  fold_pairs l inj k fuel s b =
  match next_pair_result l b with
  | (Ok (Some p), b1) =>
      match k s p with
      | Ok s' => match fuel with Datatypes.S fuel => fold_pairs l inj k fuel s' b1 | O => (Panic, b1) end
      | Err e => (Err e, b1)
      | Panic => (Panic, b1)
      end
  | (Ok None, b1) => (Ok s, b1)
  | (Err e, b1) => (Err (inj e), b1)
  | (Panic, b1) => (Panic, b1)
  end.
Proof.
  destruct fuel; cbn [fold_pairs]; unfold mbind, SM_bind, sm_map_err, sm_lift; destruct (next_pair_result l b) as [[[p|]|e|] b1];
    cbn [map_err]; try done; destruct (k s p) as [a|e|]; done.
Qed.
Lemma fold_pairs_safe {E S} (inj : NvDecodeError -> E) (k : S -> NvPair -> outcome E S) (P : S -> Prop) fuel s b :
  (forall s p, P s -> pair_ok p -> safe P (k s p)) -> P s ->
  DecoderBuffer.wf b -> max_offset b - offset b < 8 * (Z.of_nat fuel + 1) -> safe P (fst (fold_pairs l inj k fuel s b)).
Proof.
  intros Hk. revert s b. induction fuel as [|fuel IH]; intros s b Hs Hb Hf; rewrite fold_pairs_turn;
    destruct (next_pair_step b Hb) as (Hw & Hd & Ho & Hr); destruct (next_pair_result l b) as [[[p|]|e|] b1]; cbn [fst snd] in *;
    try done; destruct Hr as [[Hp _] H8]; specialize (Hk s p Hs Hp); destruct (k s p) as [s'|e|]; try done;
    assert (Hm : max_offset b1 = max_offset b) by now injection Hd.
  - exfalso. destruct Hw as (? & ? & ?). lia.
  - apply IH; [done|done|lia].
Qed.
Lemma fold_each_safe {E S} (inj : NvDecodeError -> E) (k : S -> NvPair -> outcome E S) (P : S -> Prop) s :
  (forall s p, P s -> pair_ok p -> safe P (k s p)) -> P s -> safe P (fold_each l inj k s).
Proof.
  intros Hk Hs. unfold fold_each. eapply safe_bind; [apply safe_map_err, iter_safe|]. intros b (Hb & Hm & _).
  apply fold_pairs_safe; [done|done|done|lia].
Qed.
Lemma find_in name : safe (fun r => match r with Some p => pair_in (nv_data l) p | None => True end) (find l name).
Proof. apply for_each_in. intros p Hp. now destruct (bool_decide _). Qed.
Lemma find_safe name : safe (fun r => match r with Some p => pair_ok p | None => True end) (find l name).
Proof. eapply safe_mono; [apply find_in|]. now intros [p|] Hp; [destruct Hp|]. Qed.
End pairs_safe.

Section arrays_safe.
Context (a : NvArray).

Lemma forward_with_state {E A} k (P : A -> Prop) (f : BinaryDecoderBuffer -> SM BinaryDecoderBuffer E A) :
  (forall c, DecoderBuffer.wf c -> forward k P (f c)) -> forward k P (c ← sm_get; f c).
Proof. intros Hf b Hb. rewrite (SM_run sm_get _ b b b eq_refl). now apply Hf. Qed.

Lemma next_list_forward : forward 0 nv_ok (next_list a).
Proof.
  unfold next_list. apply forward_with_state. intros c Hc.
  assert (Hlen : 0 <= DecoderBuffer.len c) by (unfold DecoderBuffer.len, saturating_sub; lia).
  destruct Hc as ([? ?] & [? ?] & Hd).
  assert (Hp : forall n, 0 <= n -> safe (fun l => (nv_ok l /\ nv_data l = data c) /\ offset c <= nv_offset l) (from_partial (data c) (offset c) n (arr_encoding a) (arr_order a)))
    by (intros; apply from_partial_safe; [done|lia|done]).
  fwd (forward_lift _ _ (Hp _ Hlen)). intros l [[Hl _] Hlo].
  fwd (forward_lift _ _ (iter_safe l Hl)). intros b' (Hb' & Hm & Hb'o).
  pose proof (each_pair_forward l Hl id (fun _ => Ok (@None unit)) (turns l) b' (fun _ => True) ltac:(done) Hb' ltac:(lia)) as Hr.
  cbn zeta in Hr. destruct (each_pair l id _ (turns l) b') as [r b2]. cbn [fst snd] in Hr. destruct Hr as (_ & _ & Ho2 & Hr).
  fwd (forward_lift _ _ Hr). intros _ _. fwd (bd_forward _ _ _ (forward_xskip (offset b2 - offset c) ltac:(lia))). intros _ _.
  apply forward_lift. eapply safe_mono; [apply Hp; lia|]. now intros ? [[? _] _].
Qed.
Lemma lists_loop_forward n : forward 0 (Forall nv_ok) (lists_loop a n).
Proof.
  induction n as [|n IH]; cbn [lists_loop]; [now apply forward_ret|].
  fwd next_list_forward. intros x Hx. eapply forward_then; [apply IH|]. intros xs Hxs. now constructor.
Qed.
Lemma values_loop_forward {A} (get : DecoderBuffer.D A) n : advances 0 get -> advances 0 (values_loop get n).
Proof.
  intros Hg. induction n as [|n IH]; cbn [values_loop]; [now apply forward_ret|].
  fwd (bd_forward _ _ _ Hg). intros x _. eapply forward_then; [apply IH|done].
Qed.
Lemma collect_safe {A} (m : nat -> D (list A)) (P : list A -> Prop) :
  arr_ok a -> P [] -> (forall n, forward 0 P (m n)) -> safe P (Arr.collect m a).
Proof.
  intros (Hd & Ho & Hn) H0 Hm. unfold Arr.collect. destruct (Arr.is_empty a); [done|].
  eapply safe_bind; [apply safe_map_err, clamped_safe; done|]. intros b [Hb _]. now eapply run_forward.
Qed.
Lemma lists_safe : arr_ok a -> safe (Forall nv_ok) (Arr.lists a).
Proof. intros Ha. apply collect_safe; [done|done|apply lists_loop_forward]. Qed.

(** The elements are windows on the data that the array is one on. *)
Lemma from_partial_data d start length e o l : from_partial d start length e o = Ok l -> nv_data l = d.
Proof.
  unfold from_partial. destruct e; [done|]. destruct (map_err _ _) as [b|err|]; cbn [mbind outcome_bind]; [|done..].
  match goal with |- fst (?m b) = _ -> _ => cut (returns (fun l => nv_data l = d) m) end.
  { intros Hr Hf. match type of Hf with fst (?m b) = _ => apply (Hr b l (snd (m b))); rewrite <- Hf; apply surjective_pairing end. }
  do 6 (eapply returns_bind; [apply returns_true|]; intros ? _). now apply returns_ret.
Qed.
Lemma next_list_data b l b' : next_list a b = (Ok l, b') -> nv_data l = data b.
Proof.
  unfold next_list. rewrite (SM_run sm_get _ b b b eq_refl). intros H.
  match type of H with ?m b = _ => cut (returns (fun l => nv_data l = data b) m); [intros Hr; exact (Hr _ _ _ H)|] end.
  do 2 (eapply returns_bind; [apply returns_true|]; intros ? _). destruct (each_pair _ _ _ _ _) as [r b2].
  do 2 (eapply returns_bind; [apply returns_true|]; intros ? _). intros s x s' [= Hx _]. exact (from_partial_data _ _ _ _ _ _ Hx).
Qed.
Lemma lists_loop_data n : forall b ls b', DecoderBuffer.wf b -> lists_loop a n b = (Ok ls, b') -> Forall (fun l => nv_data l = data b) ls.
Proof.
  induction n as [|n IH]; intros b ls b' Hb; cbn [lists_loop]; [now intros [= <- _]|].
  destruct (next_list_forward b Hb) as (Hw & Hwin & _). unfold mbind, SM_bind.
  destruct (next_list a b) as [[l|e|] b1] eqn:E; cbn [fst snd] in *; [|done..].
  destruct (lists_loop a n b1) as [[ls1|e|] b2] eqn:E1; [|done..]. intros [= <- _].
  constructor; [exact (next_list_data _ _ _ E)|]. injection Hwin as Hd _ _. rewrite <- Hd. exact (IH _ _ _ Hw E1).
Qed.
Lemma lists_data ls : arr_ok a -> Arr.lists a = Ok ls -> Forall (fun l => nv_data l = arr_data a) ls.
Proof.
  intros (Hd & Ho & Hn). unfold Arr.lists, Arr.collect, Arr.iter. destruct (Arr.is_empty a); [now intros [= <-]|].
  pose proof (clamped_safe _ _ _ Hd Ho Hn) as Hc. destruct (DecoderBuffer.from_bytes_clamped _ _ _) as [b|e|]; cbn; [|done..].
  destruct Hc as (Hb & _ & <-). destruct (lists_loop a _ b) as [r b'] eqn:E. cbn. intros ->. exact (lists_loop_data _ _ _ _ Hb E).
Qed.
End arrays_safe.

Lemma get_safe {A} (sel : NvPair -> outcome NvDecodeError A) (P : A -> Prop) l name :
  (forall p, pair_ok p -> safe P (sel p)) -> nv_ok l -> safe (fun r => match r with Some a => P a | None => True end) (Nvl.get sel l name).
Proof.
  intros Hs Hl. unfold Nvl.get. eapply safe_bind; [now apply find_safe|]. intros [p|] Hp; [|done].
  eapply safe_bind; [now apply Hs|]. now intros.
Qed.
Lemma get_nv_list_safe l name : nv_ok l -> safe (fun r => match r with Some x => nv_ok x | None => True end) (Nvl.get_nv_list l name).
Proof. apply get_safe. intros [nm v] Hp. now destruct v. Qed.
(** What is found under a name is a window on the same data. *)
Lemma get_in {A} (sel : NvPair -> outcome NvDecodeError A) (P : A -> Prop) l name v :
  (forall p, pair_in (nv_data l) p -> safe P (sel p)) -> nv_ok l -> Nvl.get sel l name = Ok (Some v) -> P v.
Proof.
  intros Hs Hl. unfold Nvl.get. pose proof (find_in l Hl name) as Hf. destruct (find l name) as [[p|]|e|]; cbn in *; [|done..].
  specialize (Hs p Hf). destruct (sel p); cbn in *; [|done..]. now intros [= <-].
Qed.
Lemma get_nv_list_in l name l' : nv_ok l -> Nvl.get_nv_list l name = Ok (Some l') -> nv_ok l' /\ nv_data l' = nv_data l.
Proof. apply (get_in _ (fun x => nv_ok x /\ nv_data x = nv_data l)). intros [nm v] [Hp Hd]. now destruct v. Qed.
Lemma get_nv_list_array_in l name a : nv_ok l -> Nvl.get_nv_list_array l name = Ok (Some a) -> arr_ok a /\ arr_data a = nv_data l.
Proof. apply (get_in _ (fun x => arr_ok x /\ arr_data x = nv_data l)). intros [nm v] [Hp Hd]. now destruct v. Qed.
Lemma get_nv_list_array_safe l name :
  nv_ok l -> safe (fun r => match r with Some x => arr_ok x | None => True end) (Nvl.get_nv_list_array l name).
Proof. apply get_safe. intros [nm v] Hp. now destruct v. Qed.

(** The lists that can be reached from an encoding: the list itself, a list under a
    name, an element of an array of lists under a name. *)
Inductive nv_reach (data : bytes) : NvList -> Prop :=
| reach_root l : from_bytes data = Ok l -> nv_reach data l
| reach_nested l name l' : nv_reach data l -> Nvl.get_nv_list l name = Ok (Some l') -> nv_reach data l'
| reach_element l name arr ls l' :
    nv_reach data l -> Nvl.get_nv_list_array l name = Ok (Some arr) -> Arr.lists arr = Ok ls -> l' ∈ ls -> nv_reach data l'.

Lemma safe_ok {E A} (P : A -> Prop) (m : outcome E A) a : safe P m -> m = Ok a -> P a.
Proof. now intros Hm ->. Qed.
Lemma safe_panic {E A} (P : A -> Prop) (m : outcome E A) : safe P m -> m <> Panic.
Proof. now destruct m. Qed.
Lemma reach_in data l : bytes_ok data -> nv_reach data l -> nv_ok l /\ nv_data l = data.
Proof.
  intros Hd. induction 1 as [l Hf|l name l' _ [IH Hi] Hg|l name arr ls l' _ [IH Hi] Hg Hls Hin].
  - exact (safe_ok _ _ _ (nv_from_bytes_in data Hd) Hf).
  - rewrite <- Hi. exact (get_nv_list_in l name l' IH Hg).
  - destruct (get_nv_list_array_in l name arr IH Hg) as [Ha Hda]. pose proof (safe_ok _ _ _ (lists_safe arr Ha) Hls) as Hall.
    pose proof (lists_data arr ls Ha Hls) as Hdata. rewrite Forall_forall in Hall, Hdata. split; [auto|]. rewrite (Hdata l' Hin). congruence.
Qed.

(** C19: Name-value lists, at any depth of nesting, of any bytes whatsoever: every list that can be
    reached is a window on the input that lies inside it, looking a name up and walking an
    array of lists come back with a result or an error, and never index
    out of range or run past the input. *)
Theorem nv_reachable_total (data : bytes) :
  bytes_ok data ->
  from_bytes data <> Panic /\
  forall l, nv_reach data l ->
    (nv_data l = data /\ 0 <= nv_offset l /\ 0 <= nv_length l /\ nv_offset l + nv_length l <= blen data) /\
    forall name, find l name <> Panic /\
      forall arr, Nvl.get_nv_list_array l name = Ok (Some arr) -> Arr.lists arr <> Panic.
Proof.
  intros Hd. split; [exact (safe_panic _ _ (nv_from_bytes_safe data Hd))|]. intros l Hl. destruct (reach_in data l Hd Hl) as [Hok Hdata].
  split; [destruct Hok as (_ & Ho & Hn & Hw); rewrite Hdata in Hw; done|]. intros name.
  split; [exact (safe_panic _ _ (find_safe l Hok name))|]. intros arr Ha.
  exact (safe_panic _ _ (lists_safe arr (proj1 (get_nv_list_array_in l name arr Hok Ha)))).
Qed.

