(* ===== verification/NvSpec.v ===== *)
(** * What an encoded name-value list says (src/phys/nv.rs)

    A list of names and values as it is meant, its XDR encoding, and the theorems
    that the lazy decoder of Nv.v gives back what was encoded: looking a name up
    returns the first value under it, a list in a list and the elements of an array of
    lists are lists that hold what was nested. *)

From S2P Require Import Prelude Errors Decoder Encoder Codec Wire Nv.

#[local] Set Warnings "-register-all".

Open Scope Z_scope.
Open Scope list_scope.

(** ** Values and their encoding *)
Inductive nvv : Type :=
| NFlag
| NBool (b : bool)
| NU64 (v : Z)
| NStr (s : bytes)
| NU64s (vs : list Z)
| NList (u : NvUnique.t) (ps : list (bytes * Z * nvv))
| NLists (ls : list (NvUnique.t * list (bytes * Z * nvv))).
(** A name, the size of the pair in memory, and the value. *)
Abbreviation entry := (bytes * Z * nvv)%type.

Abbreviation int4 := (int_to Big 4).
Definition xdr_str (s : bytes) : bytes := int4 (blen s) ++ s ++ zrep (- blen s mod 4) 0.
Definition v_type (v : nvv) : NvDataType.t :=
  match v with
  | NFlag => NvDataType.Boolean | NBool _ => NvDataType.BooleanValue | NU64 _ => NvDataType.Uint64
  | NStr _ => NvDataType.String | NU64s _ => NvDataType.Uint64Array | NList _ _ => NvDataType.NvList
  | NLists _ => NvDataType.NvListArray
  end.
Definition v_count (v : nvv) : Z :=
  match v with NFlag => 0 | NU64s vs => blen vs | NLists ls => blen ls | _ => 1 end.
(** The bytes of a pair, [body] those of its value. *)
Definition pair_bytes (name : bytes) (decoded_size : Z) (v : nvv) (body : bytes) : bytes :=
  let rest := xdr_str name ++ int4 (NvDataType.into_u32 (v_type v)) ++ int4 (v_count v) ++ body in
  int4 (8 + blen rest) ++ int4 decoded_size ++ rest.
Definition list_header (u : NvUnique.t) : bytes := int4 0 ++ int4 (NvUnique.into_u8 u).
Fixpoint value_bytes (v : nvv) : bytes :=
  let entries := flat_map (fun e : entry => let '(name, d, w) := e in pair_bytes name d w (value_bytes w)) in
  let list_bytes u ps := list_header u ++ entries ps ++ zrep 8 0 in
  match v with
  | NFlag => []
  | NBool b => int4 (if b then 1 else 0)
  | NU64 x => int_to Big 8 x
  | NStr s => xdr_str s
  | NU64s vs => int4 (blen vs) ++ flat_map (int_to Big 8) vs
  | NList u ps => list_bytes u ps
  | NLists ls => flat_map (fun l : NvUnique.t * list entry => let '(u, ps) := l in list_bytes u ps) ls
  end.
Definition entry_bytes (e : entry) : bytes := let '(name, d, v) := e in pair_bytes name d v (value_bytes v).
Definition entries_bytes (ps : list entry) : bytes := flat_map entry_bytes ps.
Definition list_bytes (l : NvUnique.t * list entry) : bytes := let '(u, ps) := l in list_header u ++ entries_bytes ps ++ zrep 8 0.
Definition packed (l : NvUnique.t * list entry) : bytes := [1; 0; 0; 0] ++ list_bytes l.

(** What fits the encoding. *)
Definition str_ok (s : bytes) : Prop := bytes_ok s /\ from_utf8 s = Ok s /\ fits 32 (blen s).
Definition head_ok (e : entry) : Prop := let '(name, d, v) := e in str_ok name /\ fits 32 d /\ fits 32 (blen (entry_bytes e)).
Fixpoint value_fits (v : nvv) : Prop :=
  let all := fold_right (fun (e : entry) P => head_ok e /\ value_fits (snd e) /\ P) True in
  match v with
  | NFlag | NBool _ => True
  | NU64 x => fits 64 x
  | NStr s => str_ok s
  | NU64s vs => Forall (fits 64) vs /\ fits 32 (blen vs)
  | NList _ ps => all ps
  | NLists ls => fold_right (fun (l : NvUnique.t * list entry) P => all (snd l) /\ P) True ls /\ fits 32 (blen ls)
  end.
Definition entries_fit (ps : list entry) : Prop := Forall (fun e => head_ok e /\ value_fits (snd e)) ps.

Lemma fold_all {A} (P : A -> Prop) l : fold_right (fun x Q => P x /\ Q) True l <-> Forall P l.
Proof. induction l as [|x l IH]; cbn; [done|]. rewrite IH, Forall_cons. done. Qed.
Lemma fits_entries ps : fold_right (fun (e : entry) P => head_ok e /\ value_fits (snd e) /\ P) True ps <-> entries_fit ps.
Proof. unfold entries_fit. induction ps as [|x l IH]; cbn; [done|]. rewrite IH, Forall_cons. tauto. Qed.
Lemma fits_list u ps : value_fits (NList u ps) <-> entries_fit ps.
Proof. apply fits_entries. Qed.
Lemma fits_lists ls : value_fits (NLists ls) <-> Forall (fun l => entries_fit (snd l)) ls /\ fits 32 (blen ls).
Proof.
  cbn [value_fits]. rewrite <- fold_all. apply and_iff_compat_r. induction ls as [|x l IH]; cbn; [done|].
  now rewrite fits_entries, IH.
Qed.

(** ** What a decoded list holds *)
Definition nv_window (d : bytes) (o n : Z) (bs : bytes) : Prop := get_range d o (o + n) = Some bs.
Definition holds (l : NvList) (ps : list entry) : Prop :=
  bytes_ok (nv_data l) /\ nv_encoding l = NvEncoding.Xdr /\ entries_fit ps /\
  exists r, nv_window (nv_data l) (nv_offset l) (nv_length l) (entries_bytes ps ++ zrep 8 0 ++ r).
Definition array_window (a : NvArray) (n : Z) (bs : bytes) : Prop :=
  bytes_ok (arr_data a) /\ arr_encoding a = NvEncoding.Xdr /\ arr_count a = n /\
  nv_window (arr_data a) (arr_offset a) (arr_length a) bs.
Definition value_is (v : nvv) (x : NvDataValue) : Prop :=
  match v, x with
  | NFlag, VBoolean => True
  | NBool b, VBooleanValue b' => b' = b
  | NU64 z, VUint64 z' => z' = z
  | NStr s, VString s' => s' = s
  | NU64s vs, VUint64Array a => array_window a (blen vs) (flat_map (int_to Big 8) vs)
  | NList _ ps, VNvList l => holds l ps
  | NLists ls, VNvListArray a => array_window a (blen ls) (flat_map list_bytes ls)
  | _, _ => False
  end.

(** ** Lengths *)
Lemma blen_xdr_str s : blen (xdr_str s) = 4 + blen s + (- blen s) mod 4.
Proof.
  unfold xdr_str. rewrite !blen_app, blen_int_to, blen_zrep by (apply Z.mod_pos_bound; lia). lia.
Qed.
Lemma xdr_str_aligned s : blen (xdr_str s) mod 4 = 0.
Proof. rewrite blen_xdr_str. pose proof (blen_nonneg s). generalize (blen s). intros n. zify; Z.div_mod_to_equations; lia. Qed.
Lemma blen_pair name d v body : blen (pair_bytes name d v body) = 16 + blen (xdr_str name) + blen body.
Proof. unfold pair_bytes. rewrite !blen_app, !blen_int_to. lia. Qed.
Lemma pair_aligned name d v body : blen body mod 4 = 0 -> blen (pair_bytes name d v body) mod 4 = 0.
Proof. intros Hb. rewrite blen_pair. pose proof (xdr_str_aligned name). Z.div_mod_to_equations; lia. Qed.
Lemma flat_map_aligned {A} (f : A -> bytes) l : Forall (fun x => blen (f x) mod 4 = 0) l -> blen (flat_map f l) mod 4 = 0.
Proof.
  induction 1 as [|x l Hx _ IH]; cbn [flat_map]; [done|]. rewrite blen_app. Z.div_mod_to_equations; lia.
Qed.
Lemma blen_header u : blen (list_header u) = 8.
Proof. unfold list_header. now rewrite blen_app, !blen_int_to. Qed.
Lemma list_aligned u ps : blen (entries_bytes ps) mod 4 = 0 -> blen (list_bytes (u, ps)) mod 4 = 0.
Proof.
  intros Hp. cbn [list_bytes]. rewrite !blen_app, blen_header, blen_zrep by lia. Z.div_mod_to_equations; lia.
Qed.
Lemma value_aligned : forall v, blen (value_bytes v) mod 4 = 0.
Proof.
  fix IH 1. intros v.
  assert (Hps : forall ps : list entry, Forall (fun e => blen (value_bytes (snd e)) mod 4 = 0) ps -> blen (entries_bytes ps) mod 4 = 0).
  { intros ps Hps. apply flat_map_aligned. eapply Forall_impl; [exact Hps|]. intros [[n d] w] Hw. now apply pair_aligned. }
  destruct v as [|b|x|s|vs|u ps|ls]; cbn [value_bytes].
  - done.
  - now rewrite blen_int_to.
  - now rewrite blen_int_to.
  - apply xdr_str_aligned.
  - rewrite blen_app, blen_int_to. assert (H : blen (flat_map (int_to Big 8) vs) mod 4 = 0).
    { apply flat_map_aligned. apply Forall_true. intros y. now rewrite blen_int_to. }
    Z.div_mod_to_equations; lia.
  - apply (list_aligned u ps), Hps. induction ps as [|[[n d] w] ps IHps]; constructor; [apply (IH w)|exact IHps].
  - change (blen (flat_map list_bytes ls) mod 4 = 0). apply flat_map_aligned.
    induction ls as [|[u ps] ls IHls]; constructor; [|exact IHls]. apply list_aligned, Hps.
    clear IHls ls. induction ps as [|[[n d] w] ps IHps]; constructor; [apply (IH w)|exact IHps].
Qed.
Lemma entries_aligned ps : blen (entries_bytes ps) mod 4 = 0.
Proof. apply flat_map_aligned, Forall_true. intros [[n d] w]. apply pair_aligned, value_aligned. Qed.

(** ** Reading *)
Lemma reads_u32 x : fits 32 x -> reads (bd (@get_u32 XD)) (int4 x) x.
Proof. intros Hx. now apply reads_map_err, reads_get_int. Qed.
Lemma reads_nv_u64 x : fits 64 x -> reads (bd (@get_u64 XD)) (int_to Big 8 x) x.
Proof. intros Hx. now apply reads_map_err, reads_get_int. Qed.
Lemma reads_xdr_str s : str_ok s -> reads (@get_str XD) (xdr_str s) s.
Proof.
  intros (Hok & Hu & Hs). unfold xdr_str. eapply reads_bind; [now apply reads_usize|].
  apply reads_padded; [apply blen_nonneg|]. now apply reads_get_str.
Qed.
Lemma reads_xskip bs n : n = blen bs -> n mod 4 = 0 -> reads (@d_skip XD n) bs tt.
Proof.
  intros Hn Ha. unfold d_skip, XdrDecoder, Xdr.decoder, Xdr.aligned, Xdr.ALIGNMENT. rewrite Ha. now apply reads_skip.
Qed.

Section steps.
Import DecoderBuffer.
Lemma reads_step {E A C} (m : SM BinaryDecoderBuffer E A) (f : A -> SM _ E C) bs a b r :
  reads m bs a -> wf b -> remaining b = bs ++ r -> (m ≫= f) b = f a (advance (blen bs) b).
Proof. intros Hm Hb Hr. now rewrite (SM_run _ _ b _ _ (Hm b r Hb Hr)). Qed.
Lemma window_remaining b bs r : wf b -> remaining b = bs ++ r -> nv_window (data b) (offset b) (blen bs) bs.
Proof.
  intros Hb Hr. unfold nv_window. rewrite get_range_remaining; [now rewrite Hr, ztake_app_length|done|].
  rewrite Hr, blen_app. pose proof (blen_nonneg bs). pose proof (blen_nonneg r). lia.
Qed.
Lemma clamped_window d o n bs : bytes_ok d -> nv_window d o n bs ->
  exists b, from_bytes_clamped d o n = Ok b /\ wf b /\ remaining b = bs /\ data b = d /\ offset b = o.
Proof.
  intros Hd Hw. unfold nv_window in Hw. pose proof (blen_get_range _ _ _ _ Hw) as Hl. pose proof (blen_nonneg bs). apply get_range_Some in Hw as (H1 & H2 & ->).
  unfold from_bytes_clamped. replace ((blen d <? o) || (blen d - o <? n)) with false by lia. eexists. split; [reflexivity|].
  split; [unfold wf; cbn; repeat split; try lia; done|]. repeat split.
Qed.
Lemma empty_remaining b : wf b -> is_empty b = (blen (remaining b) =? 0).
Proof. intros Hb. unfold is_empty. now rewrite len_remaining. Qed.
End steps.

Lemma blen_window d o n bs : nv_window d o n bs -> n = blen bs.
Proof. unfold nv_window. intros H. apply blen_get_range in H. lia. Qed.

(** A list at a position: its header is read, the window after it is what is left. *)
Lemma from_partial_window d o n u bs order :
  bytes_ok d -> nv_window d o n (list_header u ++ bs) ->
  from_partial d o n NvEncoding.Xdr order =
    Ok {| nv_data := d; nv_offset := o + 8; nv_length := n - 8; nv_encoding := NvEncoding.Xdr; nv_order := order; nv_unique := u |} /\
  nv_window d (o + 8) (n - 8) bs.
Proof.
  intros Hd Hw. pose proof (blen_window _ _ _ _ Hw) as Hn. rewrite blen_app, blen_header in Hn.
  destruct (clamped_window d o n _ Hd Hw) as (b & Hc & Hb & Hr & Hbd & Hbo). unfold list_header in Hr. rewrite <- app_assoc in Hr.
  destruct (remaining_app b _ _ Hb Hr) as [Hb1 Hr1]. destruct (remaining_app _ _ _ Hb1 Hr1) as [Hb2 Hr2].
  rewrite advance_advance, !blen_int_to in Hb2, Hr2. change (Z.of_nat 4 + Z.of_nat 4) with 8 in *.
  pose proof (window_remaining (DecoderBuffer.advance 8 b) bs [] Hb2 ltac:(now rewrite app_nil_r)) as Hw2. cbn in Hw2. rewrite Hbd, Hbo in Hw2.
  split; [|replace (n - 8) with (blen bs) by lia; exact Hw2].
  unfold from_partial. rewrite Hc. cbn [map_err mbind outcome_bind].
  rewrite (reads_step _ _ _ _ b _ (reads_u32 0 ltac:(done)) Hb Hr). cbn [Z.eqb negb].
  rewrite (SM_run (sm_guard false _) _ _ tt _ eq_refl).
  assert (Hu : fits 32 (NvUnique.into_u8 u)) by now destruct u.
  rewrite (reads_step _ _ _ _ _ _ (reads_u32 _ Hu) Hb1 Hr1). rewrite advance_advance, !blen_int_to. change (Z.of_nat 4 + Z.of_nat 4) with 8.
  assert (Hlen : DecoderBuffer.len (DecoderBuffer.advance 8 b) = n - 8) by (rewrite DecoderBuffer.len_remaining, Hr2 by done; lia).
  set (b2 := DecoderBuffer.advance 8 b) in *. assert (Ho2 : offset b2 = o + 8) by (cbn; lia).
  destruct u; cbn [NvUnique.into_u8 Z.land Pos.land Z.eqb Pos.eqb negb]; rewrite (SM_run (sm_guard false _) _ _ tt _ eq_refl);
    (erewrite (SM_run_lift (unique_try_from _)) by reflexivity); rewrite (SM_run sm_get _ b2 b2 b2 eq_refl), Hlen, Ho2; reflexivity.
Qed.

Lemma v_count_fits v : value_fits v -> fits 32 (v_count v).
Proof. destruct v; try done; cbn [v_count]; [now intros [_ H]|]. rewrite fits_lists. now intros [_ H]. Qed.
Lemma blen_u64s vs : blen (flat_map (int_to Big 8) vs) = 8 * blen vs.
Proof. induction vs as [|x vs IH]; [done|]. cbn [flat_map]. rewrite blen_app, blen_int_to, blen_cons. lia. Qed.

Section pair.
Context (l : NvList).

(** Where the elements of a fixed-width array start. *)
Definition array_offset (ty : NvDataType.t) (count voff : Z) : D Z :=
  if is_fixed_width_array ty then
    prefix ← bd Xdr.get_usize_32;
    sm_guard (negb (prefix =? count)) (InvalidCount ty prefix);;
    sm_gets offset
  else mret voff.

Lemma array_offset_plain {A} ty count voff (f : Z -> D A) b :
  is_fixed_width_array ty = false -> (array_offset ty count voff ≫= f) b = f voff b.
Proof. intros Hty. unfold array_offset. now rewrite Hty. Qed.
Lemma value_step v b r :
  DecoderBuffer.wf b -> data b = nv_data l -> nv_encoding l = NvEncoding.Xdr -> value_fits v ->
  DecoderBuffer.remaining b = value_bytes v ++ r ->
  exists size x,
    check_data_type_count_and_get_array_size (v_type v) (v_count v) = Ok size /\ value_is v x /\
    (aoff ← array_offset (v_type v) (v_count v) (offset b);
     value_from_decoder l (v_type v) (offset b) (blen (value_bytes v)) aoff size (v_count v)) b =
      (Ok x, DecoderBuffer.advance (blen (value_bytes v)) b).
Proof.
  intros Hb Hd He Hv Hr. pose proof (value_aligned v) as Ha. pose proof (window_remaining b _ _ Hb Hr) as Hw. rewrite Hd in Hw.
  assert (Hok : bytes_ok (nv_data l)) by (rewrite <- Hd; apply Hb).
  destruct v as [|bo|x|s|vs|u ps|ls]; cbn [v_type v_count] in *.
  - exists 0, VBoolean. split; [done|]. split; [done|]. cbn. now rewrite advance_0.
  - exists 0, (VBooleanValue bo). split; [done|]. split; [done|]. cbn [value_bytes] in *.
    rewrite array_offset_plain by done. cbn [value_from_decoder].
    now rewrite (reads_step _ _ _ _ b r (reads_map_err NvBinaryDecoder _ _ _ (reads_bool Big bo)) Hb Hr).
  - exists 0, (VUint64 x). split; [done|]. split; [done|]. rewrite array_offset_plain by done. cbn [value_from_decoder]. now rewrite (reads_step _ _ _ _ b r (reads_nv_u64 x Hv) Hb Hr).
  - exists 0, (VString s). split; [done|]. split; [done|]. rewrite array_offset_plain by done. cbn [value_from_decoder].
    now rewrite (reads_step _ _ _ _ b r (reads_map_err NvBinaryDecoder _ _ _ (reads_xdr_str s Hv)) Hb Hr).
  - destruct Hv as [Hvs Hn]. exists (8 * blen vs), (VUint64Array (array_at l (offset b + 4) (8 * blen vs) (blen vs))).
    cbn [value_bytes] in *. rewrite <- app_assoc in Hr. destruct (remaining_app b _ _ Hb Hr) as [Hb1 Hr1]. rewrite blen_int_to in Hb1, Hr1.
    split; [cbn; unfold checked_mul; unfold fits in Hn; replace (blen vs * 8 <? _) with true by lia; cbn; f_equal; lia|].
    split.
    { pose proof (window_remaining _ _ _ Hb1 Hr1) as Hw1. cbn in Hw1. rewrite Hd, blen_u64s in Hw1. done. }
    rewrite blen_app, blen_int_to in Ha |- *. rewrite blen_u64s in *.
    unfold array_offset. cbn [is_fixed_width_array]. rewrite SM_assoc.
    rewrite (reads_step _ _ _ _ b _ (reads_map_err NvBinaryDecoder _ _ _ (reads_usize _ Hn)) Hb Hr), blen_int_to, Z.eqb_refl.
    cbn [negb]. rewrite SM_assoc, (SM_run (sm_guard false _) _ _ tt _ eq_refl). rewrite (SM_run (sm_gets offset) _ _ _ _ eq_refl).
    cbn [value_from_decoder]. rewrite (reads_step _ _ _ tt _ r (reads_map_err NvBinaryDecoder _ (flat_map (int_to Big 8) vs) tt
      (reads_xskip _ (8 * blen vs) ltac:(now rewrite blen_u64s) ltac:(Z.div_mod_to_equations; lia))) Hb1 Hr1).
    rewrite advance_advance, blen_u64s. done.
  - apply fits_list in Hv. change (value_bytes (NList u ps)) with (list_bytes (u, ps)) in *.
    destruct (from_partial_window _ _ _ u (entries_bytes ps ++ zrep 8 0) (nv_order l) Hok Hw) as [Hp Hw2].
    eexists 0, (VNvList _). split; [done|]. split; [|rewrite array_offset_plain by done; cbn [value_from_decoder];
      rewrite (reads_step _ _ _ tt _ r (reads_map_err NvBinaryDecoder _ _ tt (reads_xskip (list_bytes (u, ps)) _ eq_refl Ha)) Hb Hr);
      rewrite He; rewrite (SM_run_lift _ _ _ _ Hp); reflexivity].
    cbn. split; [done|]. split; [done|]. split; [done|]. exists []. now rewrite app_nil_r.
  - change (value_bytes (NLists ls)) with (flat_map list_bytes ls) in *.
    eexists 0, (VNvListArray _). split; [cbn; unfold checked_mul; now rewrite Z.mul_0_r|]. split; [|rewrite array_offset_plain by done; cbn [value_from_decoder];
      rewrite (reads_step _ _ _ tt _ r (reads_map_err NvBinaryDecoder _ _ tt (reads_xskip (flat_map list_bytes ls) _ eq_refl Ha)) Hb Hr); reflexivity].
    cbn. done.
Qed.

Lemma type_round v : type_try_from (NvDataType.into_u32 (v_type v)) = Ok (v_type v).
Proof. now destruct v. Qed.
Lemma bytes_left_at size start b : offset b - start <= size -> bytes_left size start b = (Ok (size - (offset b - start)), b).
Proof.
  intros H. unfold bytes_left. rewrite (SM_run sm_get _ b b b eq_refl). unfold checked_sub.
  now replace (offset b - start <=? size) with true by lia.
Qed.

(** One pair. *)
Lemma next_pair_holds e b r :
  DecoderBuffer.wf b -> data b = nv_data l -> nv_encoding l = NvEncoding.Xdr -> head_ok e -> value_fits (snd e) ->
  DecoderBuffer.remaining b = entry_bytes e ++ r ->
  exists x, value_is (snd e) x /\
    next_pair_result l b = (Ok (Some {| pair_name := fst (fst e); pair_value := x |}), DecoderBuffer.advance (blen (entry_bytes e)) b).
Proof.
  destruct e as [[name d] v]. cbn [fst snd]. intros Hb Hd He (Hname & Hdf & Hsz) Hv Hr.
  assert (Hne : DecoderBuffer.is_empty b = false).
  { rewrite empty_remaining, Hr, blen_app by done. cbn [entry_bytes]. rewrite blen_pair, blen_xdr_str.
    pose proof (blen_nonneg r). pose proof (blen_nonneg name). pose proof (blen_nonneg (value_bytes v)).
    pose proof (Z.mod_pos_bound (- blen name) 4 ltac:(lia)). lia. }
  pose proof (blen_pair name d v (value_bytes v)) as Hlen. cbn [entry_bytes] in *. rewrite Hlen in *.
  unfold pair_bytes in Hr. rewrite !blen_app, !blen_int_to, <- !app_assoc in Hr.
  replace (8 + (blen (xdr_str name) + (Z.of_nat 4 + (Z.of_nat 4 + blen (value_bytes v))))) with (16 + blen (xdr_str name) + blen (value_bytes v)) in Hr by lia.
  set (size := 16 + blen (xdr_str name) + blen (value_bytes v)) in *.
  assert (Hty : fits 32 (NvDataType.into_u32 (v_type v))) by now destruct v.
  pose proof (v_count_fits v Hv) as Hc.
  destruct (remaining_app b _ _ Hb Hr) as [Hb1 Hr1]. destruct (remaining_app _ _ _ Hb1 Hr1) as [Hb2 Hr2].
  destruct (remaining_app _ _ _ Hb2 Hr2) as [Hb3 Hr3]. destruct (remaining_app _ _ _ Hb3 Hr3) as [Hb4 Hr4].
  destruct (remaining_app _ _ _ Hb4 Hr4) as [Hb5 Hr5].
  destruct (value_step v _ r Hb5 ltac:(exact Hd) He Hv Hr5) as (asize & x & Hsize & Hx & Hval).
  exists x. split; [done|]. unfold next_pair_result. rewrite (SM_run sm_get _ b b b eq_refl), Hne.
  rewrite (reads_step _ _ _ _ b _ (reads_map_err NvBinaryDecoder _ _ _ (reads_usize size Hsz)) Hb Hr).
  rewrite (reads_step _ _ _ _ _ _ (reads_map_err NvBinaryDecoder _ _ _ (reads_usize d Hdf)) Hb1 Hr1).
  pose proof (blen_nonneg (value_bytes v)). pose proof (blen_nonneg (xdr_str name)).
  replace (size =? 0) with false by lia. cbn [andb].
  rewrite (reads_step _ _ _ _ _ _ (reads_map_err NvBinaryDecoder _ _ _ (reads_xdr_str name Hname)) Hb2 Hr2).
  rewrite (reads_step _ _ _ _ _ _ (reads_u32 _ Hty) Hb3 Hr3), (SM_run_lift _ _ _ _ (type_round v)).
  rewrite (reads_step _ _ _ _ _ _ (reads_map_err NvBinaryDecoder _ _ _ (reads_usize _ Hc)) Hb4 Hr4).
  rewrite (SM_run (sm_gets offset) _ _ _ _ eq_refl).
  rewrite !advance_advance, !blen_int_to in *.
  set (n5 := Z.of_nat 4 + (Z.of_nat 4 + (blen (xdr_str name) + (Z.of_nat 4 + Z.of_nat 4)))) in *.
  assert (Hn5 : n5 + blen (value_bytes v) = size) by lia.
  rewrite (SM_run _ _ _ _ _ (bytes_left_at size (offset b) (DecoderBuffer.advance n5 b) ltac:(cbn; lia))).
  rewrite (SM_run_lift _ _ _ _ Hsize).
  replace (size - (offset (DecoderBuffer.advance n5 b) - offset b)) with (blen (value_bytes v)) by (cbn; lia).
  fold (array_offset (v_type v) (v_count v) (offset (DecoderBuffer.advance n5 b))).
  rewrite <- SM_assoc, (SM_run _ _ _ _ _ Hval). rewrite Hn5.
  rewrite (SM_run _ _ _ _ _ (bytes_left_at size (offset b) (DecoderBuffer.advance size b) ltac:(cbn; lia))).
  replace (size - (offset (DecoderBuffer.advance size b) - offset b)) with 0 by (cbn; lia). reflexivity.
Qed.

(** The end of a list. *)
Lemma next_pair_end b r :
  DecoderBuffer.wf b -> DecoderBuffer.remaining b = zrep 8 0 ++ r -> next_pair_result l b = (Ok None, DecoderBuffer.advance 8 b).
Proof.
  intros Hb Hr. change (zrep 8 0) with (int4 0 ++ int4 0) in Hr. rewrite <- app_assoc in Hr. unfold next_pair_result.
  rewrite (SM_run sm_get _ b b b eq_refl), empty_remaining, Hr, !blen_app, !blen_int_to by done.
  pose proof (blen_nonneg r). destruct (Z.eqb_spec (Z.of_nat 4 + (Z.of_nat 4 + blen r)) 0) as [E|_]; [exfalso; change (Z.of_nat 4) with 4 in E; lia|]. destruct (remaining_app b _ _ Hb Hr) as [Hb1 Hr1].
  rewrite (reads_step _ _ _ _ b _ (reads_map_err NvBinaryDecoder _ _ _ (reads_usize 0 ltac:(done))) Hb Hr).
  rewrite (reads_step _ _ _ _ _ _ (reads_map_err NvBinaryDecoder _ _ _ (reads_usize 0 ltac:(done))) Hb1 Hr1).
  cbn [Z.eqb andb]. rewrite advance_advance. reflexivity.
Qed.
End pair.

(** ** Walking a list *)
Section walk.
Context (l : NvList) (He : nv_encoding l = NvEncoding.Xdr).

Definition stands_for (e : entry) (p : NvPair) : Prop := pair_name p = fst (fst e) /\ value_is (snd e) (pair_value p).
Lemma blen_entry e : 20 <= blen (entry_bytes e).
Proof.
  destruct e as [[name d] v]. cbn [entry_bytes]. rewrite blen_pair, blen_xdr_str. pose proof (blen_nonneg name).
  pose proof (blen_nonneg (value_bytes v)). pose proof (Z.mod_pos_bound (- blen name) 4 ltac:(lia)). lia.
Qed.

(** A walk that [k] does not stop comes to the end of the list; one that it does stops at
    the first pair it stops at. *)
Lemma each_pair_holds {E A} (inj : NvDecodeError -> E) (k : NvPair -> outcome E (option A)) (stop : entry -> bool) ps fuel b r :
  DecoderBuffer.wf b -> data b = nv_data l -> entries_fit ps ->
  DecoderBuffer.remaining b = entries_bytes ps ++ zrep 8 0 ++ r -> (length ps <= fuel)%nat ->
  (forall e p, e ∈ ps -> stands_for e p -> if stop e then k p <> Ok None else k p = Ok None) ->
  match List.find stop ps with
  | Some e => exists p b', stands_for e p /\ each_pair l inj k fuel b = (k p, b')
  | None => each_pair l inj k fuel b = (Ok None, DecoderBuffer.advance (blen (entries_bytes ps) + 8) b)
  end.
Proof.
  revert fuel b. induction ps as [|e ps IH]; intros fuel b Hb Hd Hps Hr Hf Hk; cbn [List.find]; rewrite each_pair_turn.
  { now rewrite (next_pair_end l b r Hb Hr). }
  apply Forall_cons in Hps as [[Hh Hv] Hps]. cbn [entries_bytes flat_map] in Hr. rewrite <- app_assoc in Hr.
  destruct (next_pair_holds l e b _ Hb Hd He Hh Hv Hr) as (x & Hx & ->).
  assert (Hp : stands_for e {| pair_name := fst (fst e); pair_value := x |}) by done.
  pose proof (Hk e _ ltac:(left) Hp) as Hke. destruct (stop e).
  { eexists _, _. split; [exact Hp|]. destruct (k _) as [[a|]|e'|]; done. }
  rewrite Hke. destruct (remaining_app b _ _ Hb Hr) as [Hb1 Hr1]. destruct fuel as [|fuel]; [cbn in Hf; lia|].
  specialize (IH fuel _ Hb1 Hd Hps Hr1 ltac:(cbn in Hf; lia) ltac:(intros e' p' Hin; apply Hk; now right)).
  destruct (List.find stop ps); [exact IH|]. rewrite IH, advance_advance. cbn [entries_bytes flat_map].
  rewrite blen_app. f_equal. f_equal. fold (entries_bytes ps). lia.
Qed.
Lemma fold_pairs_holds {E S} (inj : NvDecodeError -> E) (k : S -> NvPair -> outcome E S) (f : S -> entry -> S) ps fuel s b r :
  DecoderBuffer.wf b -> data b = nv_data l -> entries_fit ps ->
  DecoderBuffer.remaining b = entries_bytes ps ++ zrep 8 0 ++ r -> (length ps <= fuel)%nat ->
  (forall e p s, e ∈ ps -> stands_for e p -> k s p = Ok (f s e)) ->
  fst (fold_pairs l inj k fuel s b) = Ok (foldl f s ps).
Proof.
  revert fuel s b. induction ps as [|e ps IH]; intros fuel s b Hb Hd Hps Hr Hf Hk; rewrite fold_pairs_turn.
  { now rewrite (next_pair_end l b r Hb Hr). }
  apply Forall_cons in Hps as [[Hh Hv] Hps]. cbn [entries_bytes flat_map] in Hr. rewrite <- app_assoc in Hr.
  destruct (next_pair_holds l e b _ Hb Hd He Hh Hv Hr) as (x & Hx & ->).
  rewrite (Hk e _ s ltac:(left) (conj eq_refl Hx : stands_for e {| pair_name := fst (fst e); pair_value := x |})).
  destruct (remaining_app b _ _ Hb Hr) as [Hb1 Hr1]. destruct fuel as [|fuel]; [cbn in Hf; lia|].
  apply IH; [done|done|done|done|cbn in Hf; lia|]. intros e' p' s' Hin. apply Hk. now right.
Qed.
Lemma entries_turns ps : Z.of_nat (length ps) <= blen (entries_bytes ps).
Proof.
  induction ps as [|e ps IH]; [done|]. cbn [entries_bytes flat_map length]. rewrite blen_app. pose proof (blen_entry e).
  fold (entries_bytes ps). lia.
Qed.
End walk.

Lemma iter_holds l ps : holds l ps -> exists b r, iter l = Ok b /\ DecoderBuffer.wf b /\ data b = nv_data l /\ offset b = nv_offset l /\
  DecoderBuffer.remaining b = entries_bytes ps ++ zrep 8 0 ++ r /\ (length ps <= turns l)%nat.
Proof.
  intros (Hd & _ & _ & r & Hw). destruct (clamped_window _ _ _ _ Hd Hw) as (b & Hc & Hb & Hr & Hbd & Hbo). exists b, r.
  unfold iter. rewrite Hc. splits; try done. unfold turns. pose proof (entries_turns ps) as Hn.
  apply (f_equal blen) in Hr. rewrite DecoderBuffer.blen_remaining, !blen_app in Hr by done.
  destruct Hb as (? & ? & _). rewrite Hbd in *. pose proof (blen_nonneg r). pose proof (blen_nonneg (zrep 8 0)). unfold blen in *. lia.
Qed.
Definition named (name : bytes) (e : entry) : bool := bool_decide (fst (fst e) = name).
Lemma for_each_holds {E A} (inj : NvDecodeError -> E) (k : NvPair -> outcome E (option A)) (stop : entry -> bool) l ps :
  holds l ps ->
  (forall e p, e ∈ ps -> stands_for e p -> if stop e then k p <> Ok None else k p = Ok None) ->
  match List.find stop ps with
  | Some e => exists p, stands_for e p /\ for_each l inj k = k p
  | None => for_each l inj k = Ok None
  end.
Proof.
  intros Hh Hk. destruct (iter_holds l ps Hh) as (b & r & Hi & Hb & Hd & _ & Hr & Hn). destruct Hh as (_ & He & Hps & _).
  unfold for_each. rewrite Hi. cbn [map_err mbind outcome_bind].
  pose proof (each_pair_holds l He inj k stop ps (turns l) b r Hb Hd Hps Hr Hn Hk) as Hw.
  destruct (List.find stop ps) as [e|]; [|now rewrite Hw]. destruct Hw as (p & b' & Hp & ->). now exists p.
Qed.
Lemma fold_each_holds {E S} (inj : NvDecodeError -> E) (k : S -> NvPair -> outcome E S) (f : S -> entry -> S) l ps s :
  holds l ps -> (forall e p s, e ∈ ps -> stands_for e p -> k s p = Ok (f s e)) -> fold_each l inj k s = Ok (foldl f s ps).
Proof.
  intros Hh Hk. destruct (iter_holds l ps Hh) as (b & r & Hi & Hb & Hd & _ & Hr & Hn). destruct Hh as (_ & He & Hps & _).
  unfold fold_each. rewrite Hi. cbn [map_err mbind outcome_bind]. exact (fold_pairs_holds l He inj k f ps (turns l) s b r Hb Hd Hps Hr Hn Hk).
Qed.
Lemma find_holds l ps name : holds l ps ->
  match List.find (named name) ps with
  | Some e => exists p, stands_for e p /\ find l name = Ok (Some p)
  | None => find l name = Ok None
  end.
Proof.
  intros Hh. pose proof (for_each_holds id (fun p => Ok (if bool_decide (pair_name p = name) then Some p else None)) (named name) l ps Hh) as H.
  unfold find. destruct (List.find (named name) ps) as [e|] eqn:E; [|apply H].
  - destruct H as (p & Hp & ->).
    + intros e' p _ [Hn _]. unfold named. rewrite Hn. now destruct (bool_decide _).
    + exists p. split; [done|]. apply find_some in E as [_ E]. unfold named in E. destruct Hp as [-> _]. now rewrite E.
  - intros e' p _ [Hn _]. unfold named. rewrite Hn. now destruct (bool_decide _).
Qed.

(** The value under a name, and the typed lookups on a list that holds it. *)
Definition value_of (ps : list entry) (name : bytes) : option nvv := snd <$> List.find (named name) ps.
Lemma get_holds {A} (sel : NvPair -> outcome NvDecodeError A) l ps name :
  holds l ps ->
  match value_of ps name with
  | Some v => exists x p, value_is v x /\ p = {| pair_name := name; pair_value := x |} /\
                Nvl.get sel l name = (r ← sel p; Ok (Some r))
  | None => Nvl.get sel l name = Ok None
  end.
Proof.
  intros Hh. pose proof (find_holds l ps name Hh) as Hf. unfold value_of, Nvl.get.
  destruct (List.find (named name) ps) as [[[n d] v]|] eqn:E; cbn [fmap option_fmap option_map snd].
  - destruct Hf as ([pn pv] & [Hn Hv] & ->). apply find_some in E as [_ E]. apply bool_decide_eq_true_1 in E. cbn in *. subst.
    eexists _, _. split; [exact Hv|]. split; reflexivity.
  - now rewrite Hf.
Qed.
Lemma get_none_holds {A} (sel : NvPair -> outcome NvDecodeError A) l ps name :
  holds l ps -> value_of ps name = None -> Nvl.get sel l name = Ok None.
Proof. intros Hh Hv. pose proof (get_holds sel l ps name Hh) as H. now rewrite Hv in H. Qed.
Lemma get_u64_holds l ps name v : holds l ps -> value_of ps name = Some (NU64 v) -> Nvl.get_u64 l name = Ok (Some v).
Proof.
  intros Hh Hv. pose proof (get_holds Pair.get_u64 l ps name Hh) as H. rewrite Hv in H. destruct H as (x & p & Hx & -> & H).
  unfold Nvl.get_u64. rewrite H. destruct x; try done. cbn in Hx. now subst.
Qed.
Lemma get_str_holds l ps name v : holds l ps -> value_of ps name = Some (NStr v) -> Nvl.get_str l name = Ok (Some v).
Proof.
  intros Hh Hv. pose proof (get_holds Pair.get_str l ps name Hh) as H. rewrite Hv in H. destruct H as (x & p & Hx & -> & H).
  unfold Nvl.get_str. rewrite H. destruct x; try done. cbn in Hx. now subst.
Qed.
Lemma get_nv_list_holds l ps name u qs :
  holds l ps -> value_of ps name = Some (NList u qs) -> exists l', Nvl.get_nv_list l name = Ok (Some l') /\ holds l' qs.
Proof.
  intros Hh Hv. pose proof (get_holds Pair.get_nv_list l ps name Hh) as H. rewrite Hv in H. destruct H as (x & p & Hx & -> & H).
  unfold Nvl.get_nv_list. rewrite H. destruct x; try done. now eexists.
Qed.
Lemma get_nv_list_array_holds l ps name ls :
  holds l ps -> value_of ps name = Some (NLists ls) ->
  exists a, Nvl.get_nv_list_array l name = Ok (Some a) /\ array_window a (blen ls) (flat_map list_bytes ls).
Proof.
  intros Hh Hv. pose proof (get_holds Pair.get_nv_list_array l ps name Hh) as H. rewrite Hv in H. destruct H as (x & p & Hx & -> & H).
  unfold Nvl.get_nv_list_array. rewrite H. destruct x; try done. now eexists.
Qed.

(** ** Arrays *)
Lemma find_none_stop {A} (l : list A) : List.find (fun _ => false) l = None.
Proof. induction l as [|x l IH]; [done|exact IH]. Qed.
Lemma blen_list u ps : blen (list_bytes (u, ps)) = blen (entries_bytes ps) + 16.
Proof. cbn [list_bytes]. rewrite !blen_app, blen_header, blen_zrep by lia. lia. Qed.

Lemma partial_holds d o n u ps r order :
  bytes_ok d -> entries_fit ps -> nv_window d o n (list_bytes (u, ps) ++ r) ->
  exists l, from_partial d o n NvEncoding.Xdr order = Ok l /\ holds l ps /\ nv_offset l = o + 8 /\ nv_data l = d.
Proof.
  intros Hd Hps Hw. cbn [list_bytes] in Hw. rewrite <- !app_assoc in Hw.
  destruct (from_partial_window _ _ _ u _ order Hd Hw) as [Hp Hw2]. eexists. split; [exact Hp|]. split; [|done].
  split; [done|]. split; [done|]. split; [done|]. now exists r.
Qed.

Section array.
Context (a : NvArray) (He : arr_encoding a = NvEncoding.Xdr).

Lemma next_list_holds u ps b r :
  DecoderBuffer.wf b -> entries_fit ps -> DecoderBuffer.remaining b = list_bytes (u, ps) ++ r ->
  exists l, next_list a b = (Ok l, DecoderBuffer.advance (blen (list_bytes (u, ps))) b) /\ holds l ps.
Proof.
  intros Hb Hps Hr. assert (Hok : bytes_ok (data b)) by apply Hb.
  pose proof (window_remaining b _ [] Hb ltac:(rewrite app_nil_r; exact Hr)) as Hall. rewrite <- Hr, <- DecoderBuffer.len_remaining in Hall by done.
  rewrite Hr in Hall. destruct (partial_holds _ _ _ u ps r (arr_order a) Hok Hps Hall) as (l1 & Hp1 & Hl1 & Ho1 & Hd1).
  destruct (iter_holds l1 ps Hl1) as (b1 & r1 & Hi & Hb1 & Hbd & Hbo & Hr1 & Hn).
  pose proof (each_pair_holds l1 ltac:(apply Hl1) id (fun _ => Ok (@None unit)) (fun _ => false) ps (turns l1) b1 r1 Hb1 Hbd Hps Hr1 Hn
                ltac:(done)) as Hw. rewrite find_none_stop in Hw.
  destruct (partial_holds _ _ _ u ps [] (arr_order a) Hok Hps ltac:(rewrite app_nil_r; exact (window_remaining b _ r Hb Hr)))
    as (l2 & Hp2 & Hl2 & _).
  exists l2. split; [|done]. unfold next_list. rewrite (SM_run sm_get _ b b b eq_refl), He, (SM_run_lift _ _ _ _ Hp1), (SM_run_lift _ _ _ _ Hi), Hw.
  rewrite (SM_run_lift (Ok None) _ _ None eq_refl). cbn [offset DecoderBuffer.advance DecoderBuffer.with_offset]. rewrite Hbo, Ho1.
  replace (offset b + 8 + (blen (entries_bytes ps) + 8) - offset b) with (blen (list_bytes (u, ps))) by (rewrite blen_list; lia).
  rewrite (reads_step _ _ _ tt _ r (reads_map_err NvBinaryDecoder _ _ tt (reads_xskip (list_bytes (u, ps)) _ eq_refl
             (list_aligned u ps (entries_aligned ps)))) Hb Hr). unfold sm_lift. now rewrite Hp2.
Qed.
Lemma lists_loop_holds ls b r :
  DecoderBuffer.wf b -> Forall (fun l => entries_fit (snd l)) ls -> DecoderBuffer.remaining b = flat_map list_bytes ls ++ r ->
  exists xs, fst (lists_loop a (length ls) b) = Ok xs /\ Forall2 (fun l x => holds x (snd l)) ls xs.
Proof.
  revert b. induction ls as [|[u ps] ls IH]; intros b Hb Hls Hr; [now exists []|]. apply Forall_cons in Hls as [Hps Hls].
  cbn [flat_map length lists_loop] in *. rewrite <- app_assoc in Hr.
  destruct (next_list_holds u ps b _ Hb Hps Hr) as (x & Hx & Hh). rewrite (SM_run _ _ _ _ _ Hx).
  destruct (remaining_app b _ _ Hb Hr) as [Hb1 Hr1]. destruct (IH _ Hb1 Hls Hr1) as (xs & Hxs & Hf). exists (x :: xs).
  split; [|now constructor]. unfold mbind, SM_bind. destruct (lists_loop a (length ls) _) as [[ys|e|] b2]; cbn [fst] in Hxs; [|done|done].
  now injection Hxs as ->.
Qed.
End array.

Lemma collect_window {A} (m : nat -> D (list A)) a n bs :
  array_window a (Z.of_nat n) bs -> bytes_ok (arr_data a) ->
  (n = O -> forall b, fst (m O b) = Ok []) ->
  exists b, DecoderBuffer.wf b /\ DecoderBuffer.remaining b = bs /\ Arr.collect m a = fst (m n b).
Proof.
  intros (_ & _ & Hc & Hw) Hd H0. destruct (clamped_window _ _ _ _ Hd Hw) as (b & Hi & Hb & Hr & _). exists b.
  split; [done|]. split; [done|]. unfold Arr.collect, Arr.is_empty, Arr.iter. rewrite Hc, Nat2Z.id, Hi.
  destruct n; [cbn; now rewrite H0|]. reflexivity.
Qed.
Lemma lists_hold a ls :
  array_window a (blen ls) (flat_map list_bytes ls) -> Forall (fun l => entries_fit (snd l)) ls ->
  exists xs, Arr.lists a = Ok xs /\ Forall2 (fun l x => holds x (snd l)) ls xs.
Proof.
  intros Ha Hls. destruct (collect_window (lists_loop a) a (length ls) _ Ha (proj1 Ha) ltac:(done)) as (b & Hb & Hr & Hc).
  unfold Arr.lists. rewrite Hc. apply (lists_loop_holds a ltac:(apply Ha) ls b []); [done|done|]. now rewrite app_nil_r.
Qed.
Lemma u64s_hold a vs :
  array_window a (blen vs) (flat_map (int_to Big 8) vs) -> Forall (fits 64) vs -> Arr.values (@get_u64 XD) a = Ok vs.
Proof.
  intros Ha Hvs. destruct (collect_window (values_loop (@get_u64 XD)) a (length vs) _ Ha (proj1 Ha) ltac:(done)) as (b & Hb & Hr & Hc).
  unfold Arr.values. rewrite Hc. clear Ha Hc. rewrite <- (app_nil_r (flat_map _ _)) in Hr.
  enough (H : reads (values_loop (@get_u64 XD) (length vs)) (flat_map (int_to Big 8) vs) vs) by now rewrite (H b [] Hb Hr).
  clear b Hb Hr. induction Hvs as [|x vs Hx _ IH]; cbn [length values_loop flat_map]; [apply reads_ret|].
  eapply reads_bind; [now apply reads_nv_u64|]. apply reads_last. eapply reads_bind; [exact IH|apply reads_ret].
Qed.

(** ** The encoding is bytes *)
Lemma bytes_ok_app l k : bytes_ok l -> bytes_ok k -> bytes_ok (l ++ k).
Proof. apply Forall_app_2. Qed.
Ltac okbytes := repeat first [assumption|apply bytes_ok_int_to|apply bytes_ok_zrep|apply bytes_ok_app].
Lemma xdr_str_ok s : bytes_ok s -> bytes_ok (xdr_str s).
Proof. intros Hs. unfold xdr_str. okbytes. Qed.
Lemma pair_bytes_ok name d v body : bytes_ok name -> bytes_ok body -> bytes_ok (pair_bytes name d v body).
Proof. intros Hn Hb. unfold pair_bytes. pose proof (xdr_str_ok name Hn). okbytes. Qed.
Lemma list_bytes_ok u ps : bytes_ok (entries_bytes ps) -> bytes_ok (list_bytes (u, ps)).
Proof. intros Hp. unfold list_bytes, list_header. okbytes. Qed.
Lemma value_bytes_ok : forall v, value_fits v -> bytes_ok (value_bytes v).
Proof.
  fix IH 1. intros v Hv.
  assert (Hps : forall ps : list entry, Forall (fun e => head_ok e /\ bytes_ok (value_bytes (snd e))) ps -> bytes_ok (entries_bytes ps)).
  { intros ps Hps. apply bytes_ok_flat_map. eapply Forall_impl; [exact Hps|]. intros [[n d] w] [(Hn & _) Hw]. apply pair_bytes_ok; [apply Hn|exact Hw]. }
  destruct v as [|b|x|s|vs|u ps|ls]; cbn [value_bytes].
  - constructor.
  - auto with zfs.
  - auto with zfs.
  - apply xdr_str_ok, Hv.
  - apply Forall_app_2; [auto with zfs|]. apply bytes_ok_flat_map, Forall_true. auto with zfs.
  - apply (list_bytes_ok u ps), Hps. apply fits_list in Hv. induction ps as [|[[n d] w] ps IHps]; constructor.
    + apply Forall_cons in Hv as [[Hh Hw] _]. split; [exact Hh|apply (IH w Hw)].
    + apply IHps. now apply Forall_cons in Hv as [_ Hv].
  - change (bytes_ok (flat_map list_bytes ls)). apply fits_lists in Hv as [Hv _]. apply bytes_ok_flat_map.
    induction ls as [|[u ps] ls IHls]; constructor; [|apply IHls; now apply Forall_cons in Hv as [_ Hv]].
    apply list_bytes_ok, Hps. apply Forall_cons in Hv as [Hp _]. cbn [snd] in Hp. clear IHls ls.
    induction ps as [|[[n d] w] ps IHps]; constructor.
    + apply Forall_cons in Hp as [[Hh Hw] _]. split; [exact Hh|apply (IH w Hw)].
    + apply IHps. now apply Forall_cons in Hp as [_ Hp].
Qed.
Lemma entries_bytes_ok ps : entries_fit ps -> bytes_ok (entries_bytes ps).
Proof.
  intros Hps. apply bytes_ok_flat_map. eapply Forall_impl; [exact Hps|]. intros [[n d] v] [(Hn & _) Hv]. apply pair_bytes_ok; [apply Hn|].
  now apply value_bytes_ok.
Qed.

Lemma packed_ok u ps r : entries_fit ps -> bytes_ok r -> bytes_ok (packed (u, ps) ++ r).
Proof.
  intros Hps Hr. unfold packed. pose proof (list_bytes_ok u ps (entries_bytes_ok ps Hps)). apply bytes_ok_app; [|done]. apply bytes_ok_app; [|done].
  repeat (constructor; [unfold is_byte; lia|]). constructor.
Qed.
Lemma packed_holds u ps r : entries_fit ps -> bytes_ok r -> exists l, from_bytes (packed (u, ps) ++ r) = Ok l /\ holds l ps.
Proof.
  intros Hps Hr. pose proof (packed_ok u ps r Hps Hr) as Hok.
  unfold from_bytes. set (d := packed (u, ps) ++ r) in *.
  assert (Hlen : blen d = 4 + blen (list_bytes (u, ps) ++ r)).
  { unfold d, packed. rewrite <- app_assoc, blen_app. done. }
  pose proof (blen_nonneg (list_bytes (u, ps) ++ r)). unfold HEADER_SIZE. replace (blen d <? 4) with false by lia.
  assert (Hg : forall i, 0 <= i < 4 -> zget d i = [1; 0; 0; 0] !! Z.to_nat i).
  { intros i Hi. unfold zget. replace ((0 <=? i) && (i <? blen d)) with true by lia. unfold d, packed. rewrite <- app_assoc.
    apply lookup_app_l. cbn. lia. }
  rewrite !Hg by lia. cbn [guard_err mbind outcome_bind].
  destruct (partial_holds d 4 (blen d - 4) u ps r Big Hok Hps) as (l & Hl & Hh & _); [|now exists l].
  unfold nv_window, get_range. replace ((0 <=? 4) && (4 <=? 4 + (blen d - 4)) && (4 + (blen d - 4) <=? blen d)) with true by lia.
  f_equal. replace (zdrop 4 d) with (list_bytes (u, ps) ++ r); [apply ztake_ge; lia|].
  unfold d, packed. rewrite <- app_assoc. symmetry. apply (zdrop_app_length [1; 0; 0; 0]).
Qed.


(** The elements of an array of lists, in order, each holding what was nested. *)
Theorem nv_lists_exact (l : NvList) (qs : list entry) (name : bytes) ls :
  holds l qs -> (exists d, List.find (named name) qs = Some (name, d, NLists ls)) ->
  exists a xs, Nvl.get_nv_list_array l name = Ok (Some a) /\ Arr.lists a = Ok xs /\
    Forall2 (fun x e => holds x (snd e)) xs ls.
Proof.
  intros Hh [d Hf]. pose proof (find_holds l qs name Hh) as Hp. rewrite Hf in Hp. destruct Hp as ([pn pv] & [_ Hv] & Hfind).
  cbn [snd pair_value] in Hv. destruct pv; try done. cbn in Hv. apply find_some in Hf as [Hin _].
  destruct Hh as (_ & _ & Hqs & _). unfold entries_fit in Hqs. rewrite Forall_forall in Hqs. apply list_elem_of_In in Hin. destruct (Hqs _ Hin) as [_ Hls].
  apply fits_lists in Hls as [Hls _]. destruct (lists_hold v ls Hv Hls) as (xs & Hxs & Hall). exists v, xs.
  split; [|split; [done|now apply Forall2_flip]]. unfold Nvl.get_nv_list_array, Nvl.get. now rewrite Hfind.
Qed.

(** *** A vdev tree in a label *)
Definition nv_child (guid : Z) : NvUnique.t * list entry :=
  (NvUnique.Name, [(ascii_bytes "type", 48, NStr (ascii_bytes "disk")); (ascii_bytes "guid", 32, NU64 guid); (ascii_bytes "whole_disk", 32, NFlag)]).
Definition nv_tree : list entry :=
  [(ascii_bytes "type", 48, NStr (ascii_bytes "mirror")); (ascii_bytes "ids", 64, NU64s [7; 9]); (ascii_bytes "is_log", 32, NBool false); (ascii_bytes "children", 80, NLists [nv_child 7; nv_child 9])].
Definition nv_config : list entry := [(ascii_bytes "version", 32, NU64 5000); (ascii_bytes "vdev_tree", 64, NList NvUnique.Name nv_tree)].
Lemma fits_by b x : fitsb b x = true -> fits b x.
Proof. apply fitsb_spec. Qed.
Lemma bytes_ok_by l : forallb (fitsb 8) l = true -> bytes_ok l.
Proof. intros H. apply Forall_forall. intros x Hx. rewrite forallb_forall in H. apply (fits_by 8), H. now apply list_elem_of_In. Qed.
Ltac fit_solve := repeat match goal with
  | |- _ /\ _ => split
  | |- True => exact I
  | |- fits _ _ => apply fits_by; vm_compute; reflexivity
  | |- bytes_ok _ => apply bytes_ok_by; vm_compute; reflexivity
  | |- _ = Ok _ => vm_compute; reflexivity
  | |- entries_fit _ => unfold entries_fit, nv_child; cbn [snd]
  | |- Forall _ (_ :: _) => constructor; cbv beta
  | |- Forall _ [] => constructor
  | |- head_ok _ => unfold head_ok, str_ok
  | |- value_fits (snd _) => cbn [snd]
  | |- value_fits (NList _ _) => apply fits_list
  | |- value_fits (NLists _) => apply fits_lists
  | |- value_fits _ => unfold value_fits, str_ok
  end.
Lemma nv_tree_fits : entries_fit nv_tree.
Proof. unfold nv_tree. fit_solve. Qed.
Lemma nv_config_fits : entries_fit nv_config.
Proof. unfold nv_config. pose proof nv_tree_fits. fit_solve; done. Qed.

Lemma nv_lists_exact_witness :
  exists l a xs, from_bytes (packed (NvUnique.Name, nv_tree) ++ []) = Ok l /\
    Nvl.get_nv_list_array l (ascii_bytes "children") = Ok (Some a) /\ Arr.lists a = Ok xs /\
    Forall2 (fun x e => holds x (snd e)) xs [nv_child 7; nv_child 9].
Proof.
  destruct (packed_holds NvUnique.Name nv_tree [] nv_tree_fits ltac:(constructor)) as (l & Hl & Hh). exists l.
  destruct (nv_lists_exact l nv_tree (ascii_bytes "children") [nv_child 7; nv_child 9] Hh) as (a & xs & H).
  - exists 80. reflexivity.
  - exists a, xs. split; [exact Hl|exact H].
Defined.
