(* ===== verification/Feature.v ===== *)
(** * Features (src/phys/feature.rs)

    The compatibility property of a pool, a list of file names set apart by commas; the
    features of a pool, each by its name; and a set of features, which the code keeps
    as the bits of a word.  The set of bits is a set: insertion, removal, membership,
    size and iteration are those of the finite set it stands for. *)

From stdpp Require Import gmap.
From S2P Require Import Prelude Errors Decoder Encoder Codec FixedStr Vocab Nv NvSpec.

#[local] Set Warnings "-register-all,-clear-no-such-hyp".

Open Scope Z_scope.
Open Scope list_scope.

(** ** Compatibility *)
Inductive Compatibility : Type := Off | Legacy | Files (files : bytes).

(** [&s[lo..hi]]: both ends must be in range and between characters. *)
Definition str_slice (s : bytes) (lo hi : Z) : option bytes :=
  if FixedStr.is_char_boundary s lo && FixedStr.is_char_boundary s hi then get_range s lo hi else None.
(** [s.find(c)] for a character of one byte. *)
Fixpoint find_char (c : Z) (s : bytes) : option Z :=
  match s with
  | [] => None
  | b :: r => if b =? c then Some 0 else i ← find_char c r; Some (i + 1)
  end.

Module Compat.
Definition from (compatibility : bytes) : Compatibility :=
  if bool_decide (compatibility = ascii_bytes "off") then Off
  else if bool_decide (compatibility = ascii_bytes "legacy") then Legacy
  else Files compatibility.
Definition into_str (val : Compatibility) : bytes :=
  match val with Off => ascii_bytes "off" | Legacy => ascii_bytes "legacy" | Files compatibility => compatibility end.
Definition COMMA : Z := 44.

Record CompatibilityIterator : Type := { compatibility : Compatibility; index : Z }.
Definition iter (c : Compatibility) : CompatibilityIterator :=
  {| compatibility := match c with Off => Off | Legacy => Legacy | Files files => Files files end; index := 0 |}.
Definition at_index (it : CompatibilityIterator) (i : Z) : CompatibilityIterator := {| compatibility := compatibility it; index := i |}.

Definition next {E} (it : CompatibilityIterator) : outcome E (option bytes * CompatibilityIterator) :=
  match compatibility it with
  | Off => Ok (None, it)
  | Legacy => Ok (None, it)
  | Files comp =>
      match index it ?= blen comp with
      | Gt => Ok (None, it)
      | Eq => Ok (Some [], at_index it (index it + 1))
      | Lt =>
          suffix ← unwrap (str_slice comp (index it) (blen comp));
          match find_char COMMA suffix with
          | None => Ok (Some suffix, at_index it (blen comp + 1))
          | Some i =>
              file ← unwrap (str_slice suffix 0 i);
              Ok (Some file, at_index it (index it + (i + 1)))
          end
      end
  end.
(** The items up to the end. *)
Fixpoint collect {E} (fuel : nat) (it : CompatibilityIterator) : outcome E (list bytes) :=
  r ← next it;
  match r, fuel with
  | (None, _), _ => Ok []
  | (Some x, it'), S fuel' => xs ← collect fuel' it'; Ok (x :: xs)
  | (Some _, _), O => Panic
  end.

(** [str::split(',')] *)
Fixpoint split (s : bytes) : list bytes :=
  match s with
  | [] => [[]]
  | b :: r =>
      if b =? COMMA then [] :: split r
      else match split r with x :: xs => (b :: x) :: xs | [] => [[b]] end
  end.

Lemma split_find s :
  match find_char COMMA s with
  | None => split s = [s]
  | Some i => 0 <= i < blen s /\ s !! Z.to_nat i = Some COMMA /\ split s = ztake i s :: split (zdrop (i + 1) s)
  end.
Proof.
  induction s as [|b s IH]; [done|]. cbn [find_char split]. destruct (Z.eqb_spec b COMMA) as [->|Hb].
  - rewrite blen_cons. pose proof (blen_nonneg s). split; [lia|]. split; [done|]. now rewrite zdrop_drop by lia.
  - destruct (find_char COMMA s) as [i|]; cbn [mbind option_bind]; [|now rewrite IH]. destruct IH as (Hi & Hc & ->).
    rewrite blen_cons. split; [lia|]. replace (Z.to_nat (i + 1)) with (S (Z.to_nat i)) by lia. split; [exact Hc|].
    rewrite !ztake_take, !zdrop_drop by lia. replace (Z.to_nat (i + 1)) with (S (Z.to_nat i)) by lia.
    now replace (Z.to_nat (i + 1 + 1)) with (S (S (Z.to_nat i))) by lia.
Qed.
Lemma split_length s : Z.of_nat (length (split s)) <= blen s + 1.
Proof.
  induction s as [|b s IH]; [done|]. cbn [split]. rewrite blen_cons. destruct (b =? COMMA); cbn [length]; [lia|].
  destruct (split s) as [|x xs]; cbn [length] in *; [|lia]. pose proof (blen_nonneg s). lia.
Qed.

Lemma slice_from_valid s i : 0 <= i <= blen s -> FixedStr.valid (zdrop i s) = true -> str_slice s i (blen s) = Some (zdrop i s).
Proof.
  intros Hi Hv. unfold str_slice. rewrite FixedStr.boundary_of_valid by done.
  replace (FixedStr.is_char_boundary s (blen s)) with true
    by (unfold FixedStr.is_char_boundary; rewrite Z.eqb_refl; now rewrite orb_true_r).
  cbn [andb]. rewrite get_range_ok by lia. now rewrite ztake_ge by (rewrite blen_zdrop; lia).
Qed.
Lemma slice_to_ascii s i b : 0 <= i < blen s -> s !! Z.to_nat i = Some b -> b < 128 -> str_slice s 0 i = Some (ztake i s).
Proof.
  intros Hi Hc Hb. unfold str_slice. change (FixedStr.is_char_boundary s 0) with true.
  replace (FixedStr.is_char_boundary s i) with true.
  2:{ unfold FixedStr.is_char_boundary, zget. replace ((0 <=? i) && (i <? blen s)) with true by lia. rewrite Hc.
      unfold utf8_cont, between. replace (128 <=? b) with false by lia. cbn. now rewrite orb_true_r. }
  cbn [andb]. rewrite get_range_ok by lia. now rewrite Z.sub_0_r, zdrop_0.
Qed.

(** From any place where a file starts, the iterator gives what is left. *)
Lemma collect_from {E} s fuel i :
  0 <= i <= blen s -> FixedStr.valid (zdrop i s) = true -> (length (split (zdrop i s)) <= fuel)%nat ->
  collect (E := E) fuel {| compatibility := Files s; index := i |} = Ok (split (zdrop i s)).
Proof.
  revert i. induction fuel as [|fuel IH]; intros i Hi Hv Hf.
  { exfalso. destruct (zdrop i s) as [|b r]; cbn in Hf; [lia|]. destruct (b =? COMMA); cbn in Hf; [lia|].
    destruct (split r); cbn in Hf; lia. }
  assert (Hend : forall fuel j, blen s < j -> collect (E := E) fuel {| compatibility := Files s; index := j |} = Ok []).
  { intros fuel' j Hj. destruct fuel'; cbn [collect]; unfold next; cbn [compatibility index];
      rewrite (proj2 (Z.compare_gt_iff j (blen s)) Hj); reflexivity. }
  cbn [collect]. unfold next. cbn [compatibility index at_index]. destruct (Z.compare_spec i (blen s)) as [->|Hlt|?]; [| |lia].
  - cbn [mbind outcome_bind]. unfold at_index; cbn [compatibility]. rewrite Hend by lia. rewrite zdrop_drop by lia. unfold blen. rewrite Nat2Z.id, drop_all. reflexivity.
  - rewrite slice_from_valid by (done || lia). cbn [unwrap mbind outcome_bind].
    pose proof (split_find (zdrop i s)) as Hs. set (u := zdrop i s) in *. destruct (find_char COMMA u) as [k|].
    + destruct Hs as (Hk & Hc & Es). destruct (FixedStr.valid_after_ascii u _ _ Hv Hc ltac:(unfold COMMA; lia)) as [_ Hv2].
      rewrite (slice_to_ascii u k COMMA) by (done || unfold COMMA; lia). cbn [unwrap mbind outcome_bind].
      assert (Eu : zdrop (k + 1) u = zdrop (i + (k + 1)) s) by (unfold u; apply zdrop_zdrop; lia).
      assert (Hl : blen u = blen s - i) by (unfold u; rewrite blen_zdrop; lia).
      unfold at_index; cbn [compatibility]. rewrite IH; [|lia| |].
      * cbn [mbind outcome_bind]. rewrite Es, Eu. reflexivity.
      * rewrite <- Eu, zdrop_drop by lia. now replace (Z.to_nat (k + 1)) with (S (Z.to_nat k)) by lia.
      * rewrite <- Eu. rewrite Es in Hf. cbn [length] in Hf. lia.
    + cbn [mbind outcome_bind]. unfold at_index; cbn [compatibility]. rewrite Hend by lia. now rewrite Hs.
Qed.
End Compat.

(** The compatibility property comes back as the string it was made from, and its items
    are those of splitting the string at its commas, an empty item for every empty
    place between them, and none for the two words that are not lists.  No slice is
    out of range or through a character. *)
Theorem compatibility_splits {E : Type} (s : bytes) :
  FixedStr.valid s = true ->
  Compat.into_str (Compat.from s) = s /\
  Compat.collect (E := E) (Z.to_nat (blen s + 1)) (Compat.iter (Compat.from s)) =
    Ok (match Compat.from s with Files _ => Compat.split s | _ => [] end).
Proof.
  intros Hv. unfold Compat.from. case_bool_decide as E1; [subst; split; [done|]; now destruct (Z.to_nat _)|].
  case_bool_decide as E2; [subst; split; [done|]; now destruct (Z.to_nat _)|]. split; [done|]. pose proof (blen_nonneg s).
  pose proof (Compat.split_length s). unfold Compat.iter. rewrite Compat.collect_from; rewrite ?zdrop_0; [done|lia|done|lia].
Qed.
Lemma compatibility_splits_witness :
  Compat.collect (E := unit) (Z.to_nat (blen (ascii_bytes "a,,bc") + 1)) (Compat.iter (Compat.from (ascii_bytes "a,,bc"))) =
    Ok (Compat.split (ascii_bytes "a,,bc")).
Proof. apply (compatibility_splits (ascii_bytes "a,,bc")). reflexivity. Defined.

(** ** Features by name *)
Module Feature.
Inductive t : Type :=
| AllocationClasses | AsyncDestroy | Blake3 | BlockCloning | BookmarkV2 | BookmarkWritten | Bookmarks
| DeviceRebuild | DeviceRemoval | Draid | Edonr | EmbeddedData | EmptyBlockPointerObject | EnabledTxg | Encryption
| ExtensibleDataset | FilesystemLimits | HeadErrorLog | HoleBirth | LargeBlocks | LargeDnode | LiveList
| LogSpaceMap | Lz4Compress | MultiVdevCrashDump | ObsoleteCounts | ProjectQuota | RaidzExpansion
| RedactedDatasets | RedactionListSpill | RedactionBookmarks | ResilverDefer | Sha512 | Skein | SpacemapHistogram
| SpacemapV2 | UserObjectAccounting | VdevZapsV2 | ZilSaXattr | ZpoolCheckpoint | ZstdCompress.
#[global] Instance feature_eq_dec : EqDecision t. Proof. solve_decision. Defined.
Definition name (x : t) : string :=
  match x with
  | AllocationClasses => "org.zfsonlinux:allocation_classes" | AsyncDestroy => "com.delphix:async_destroy"
  | Blake3 => "org.openzfs:blake3" | BlockCloning => "com.fudosecurity:block_cloning"
  | BookmarkV2 => "com.datto:bookmark_v2" | BookmarkWritten => "com.delphix:bookmark_written"
  | Bookmarks => "com.delphix:bookmarks" | DeviceRebuild => "org.openzfs:device_rebuild"
  | DeviceRemoval => "com.delphix:device_removal" | Draid => "org.openzfs:draid" | Edonr => "org.illumos:edonr"
  | EmbeddedData => "com.delphix:embedded_data" | EmptyBlockPointerObject => "com.delphix:empty_bpobj"
  | EnabledTxg => "com.delphix:enabled_txg" | Encryption => "com.datto:encryption"
  | ExtensibleDataset => "com.delphix:extensible_dataset" | FilesystemLimits => "com.joyent:filesystem_limits"
  | HeadErrorLog => "com.delphix:head_errlog" | HoleBirth => "com.delphix:hole_birth"
  | LargeBlocks => "org.open-zfs:large_blocks" | LargeDnode => "org.zfsonlinux:large_dnode"
  | LiveList => "com.delphix:livelist" | LogSpaceMap => "com.delphix:log_spacemap"
  | Lz4Compress => "org.illumos:lz4_compress" | MultiVdevCrashDump => "com.joyent:multi_vdev_crash_dump"
  | ObsoleteCounts => "com.delphix:obsolete_counts" | ProjectQuota => "org.zfsonlinux:project_quota"
  | RaidzExpansion => "org.openzfs:raidz_expansion" | RedactedDatasets => "com.delphix:redacted_datasets"
  | RedactionBookmarks => "com.delphix:redaction_bookmarks"
  | RedactionListSpill => "com.delphix:redaction_list_spill" | ResilverDefer => "com.datto:resilver_defer"
  | Sha512 => "org.illumos:sha512" | Skein => "org.illumos:skein"
  | SpacemapHistogram => "com.delphix:spacemap_histogram" | SpacemapV2 => "com.delphix:spacemap_v2"
  | UserObjectAccounting => "org.zfsonlinux:userobj_accounting" | VdevZapsV2 => "com.klarasystems:vdev_zaps_v2"
  | ZilSaXattr => "org.openzfs:zilsaxattr" | ZpoolCheckpoint => "com.delphix:zpool_checkpoint"
  | ZstdCompress => "org.freebsd:zstd_compress"
  end%string.
(** The error carries nothing. *)
Definition try_from (s : bytes) : outcome unit t :=
  match_str [
    ("org.zfsonlinux:allocation_classes", AllocationClasses); ("com.delphix:async_destroy", AsyncDestroy);
    ("org.openzfs:blake3", Blake3); ("com.fudosecurity:block_cloning", BlockCloning);
    ("com.datto:bookmark_v2", BookmarkV2); ("com.delphix:bookmark_written", BookmarkWritten);
    ("com.delphix:bookmarks", Bookmarks); ("org.openzfs:device_rebuild", DeviceRebuild);
    ("com.delphix:device_removal", DeviceRemoval); ("org.openzfs:draid", Draid); ("org.illumos:edonr", Edonr);
    ("com.delphix:embedded_data", EmbeddedData); ("com.delphix:empty_bpobj", EmptyBlockPointerObject);
    ("com.delphix:enabled_txg", EnabledTxg); ("com.datto:encryption", Encryption);
    ("com.delphix:extensible_dataset", ExtensibleDataset); ("com.joyent:filesystem_limits", FilesystemLimits);
    ("com.delphix:head_errlog", HeadErrorLog); ("com.delphix:hole_birth", HoleBirth);
    ("org.open-zfs:large_blocks", LargeBlocks); ("org.zfsonlinux:large_dnode", LargeDnode);
    ("com.delphix:livelist", LiveList); ("com.delphix:log_spacemap", LogSpaceMap);
    ("org.illumos:lz4_compress", Lz4Compress); ("com.joyent:multi_vdev_crash_dump", MultiVdevCrashDump);
    ("com.delphix:obsolete_counts", ObsoleteCounts); ("org.zfsonlinux:project_quota", ProjectQuota);
    ("org.openzfs:raidz_expansion", RaidzExpansion); ("com.delphix:redacted_datasets", RedactedDatasets);
    ("com.delphix:redaction_bookmarks", RedactionBookmarks);
    ("com.delphix:redaction_list_spill", RedactionListSpill); ("com.datto:resilver_defer", ResilverDefer);
    ("org.illumos:sha512", Sha512); ("org.illumos:skein", Skein);
    ("com.delphix:spacemap_histogram", SpacemapHistogram); ("com.delphix:spacemap_v2", SpacemapV2);
    ("org.zfsonlinux:userobj_accounting", UserObjectAccounting); ("com.klarasystems:vdev_zaps_v2", VdevZapsV2);
    ("org.openzfs:zilsaxattr", ZilSaXattr); ("com.delphix:zpool_checkpoint", ZpoolCheckpoint);
    ("org.freebsd:zstd_compress", ZstdCompress)]%string s.
Definition ALL_FEATURES : list t := [
  AllocationClasses; AsyncDestroy; Blake3; BlockCloning; BookmarkV2; BookmarkWritten; Bookmarks; DeviceRebuild;
  DeviceRemoval; Draid; Edonr; EmbeddedData; EmptyBlockPointerObject; EnabledTxg; Encryption; ExtensibleDataset;
  FilesystemLimits; HeadErrorLog; HoleBirth; LargeBlocks; LargeDnode; LiveList; LogSpaceMap; Lz4Compress;
  MultiVdevCrashDump; ObsoleteCounts; ProjectQuota; RaidzExpansion; RedactedDatasets; RedactionBookmarks;
  RedactionListSpill; ResilverDefer; Sha512; Skein; SpacemapHistogram; SpacemapV2; UserObjectAccounting;
  VdevZapsV2; ZilSaXattr; ZpoolCheckpoint; ZstdCompress].
Definition all : list t := ALL_FEATURES.
(** [Into<&'static str>] *)
Definition str (x : t) : bytes := ascii_bytes (name x).

Lemma feature_try_name x : try_from (ascii_bytes (name x)) = Ok x.
Proof. destruct x; vm_compute; reflexivity. Qed.
#[global] Instance feature_name_inj : Inj eq eq name.
Proof. intros x y E. pose proof (feature_try_name x) as Hx. rewrite E, feature_try_name in Hx. congruence. Qed.
Lemma feature_exact s x : try_from s = Ok x <-> s = str x.
Proof. unfold try_from, str. rewrite (match_str_exact _ name) by (repeat constructor). listed x. Qed.
Lemma feature_safe s : safe (fun _ => True) (try_from s).
Proof. apply match_str_total. Qed.
End Feature.
#[export] Hint Resolve Feature.feature_safe : zfs codec.

(** ** Sets of features *)
Record FeatureSet : Type := { features : Z }.
Inductive FeatureSetDecodeError : Type := FsFeature (err : unit) | FsNv (err : NvDecodeError) | FsUnknown (feature : Fstr).

(** [u64::count_ones] *)
Fixpoint count_ones_from (n : nat) (x : Z) : Z :=
  match n with O => 0 | S n' => count_ones_from n' x + (if Z.testbit x (Z.of_nat n') then 1 else 0) end.
Definition count_ones (x : Z) : Z := count_ones_from 64 x.

Module FSet.
Definition feature_to_bit_shift (feature : Feature.t) : Z :=
  match feature with
  | Feature.AllocationClasses => 0 | Feature.AsyncDestroy => 1 | Feature.Blake3 => 2 | Feature.BlockCloning => 3
  | Feature.BookmarkV2 => 4 | Feature.BookmarkWritten => 5 | Feature.Bookmarks => 6 | Feature.DeviceRebuild => 7
  | Feature.DeviceRemoval => 8 | Feature.Draid => 9 | Feature.Edonr => 10 | Feature.EmbeddedData => 11
  | Feature.EmptyBlockPointerObject => 12 | Feature.EnabledTxg => 13 | Feature.Encryption => 14
  | Feature.ExtensibleDataset => 15 | Feature.FilesystemLimits => 16 | Feature.HeadErrorLog => 17
  | Feature.HoleBirth => 18 | Feature.LargeBlocks => 19 | Feature.LargeDnode => 20 | Feature.LiveList => 21
  | Feature.LogSpaceMap => 22 | Feature.Lz4Compress => 23 | Feature.MultiVdevCrashDump => 24
  | Feature.ObsoleteCounts => 25 | Feature.ProjectQuota => 26 | Feature.RaidzExpansion => 27
  | Feature.RedactedDatasets => 28 | Feature.RedactionBookmarks => 29 | Feature.RedactionListSpill => 30
  | Feature.ResilverDefer => 31 | Feature.Sha512 => 32 | Feature.Skein => 33 | Feature.SpacemapHistogram => 34
  | Feature.SpacemapV2 => 35 | Feature.UserObjectAccounting => 36 | Feature.VdevZapsV2 => 37
  | Feature.ZilSaXattr => 38 | Feature.ZpoolCheckpoint => 39 | Feature.ZstdCompress => 40
  end.
Definition mask_of (feature : Feature.t) : Z := Z.shiftl 1 (feature_to_bit_shift feature).

Definition len (s : FeatureSet) : Z := count_ones (features s).
Definition is_empty (s : FeatureSet) : bool := features s =? 0.
(** The set afterwards, and whether it changed. *)
Definition insert (s : FeatureSet) (feature : Feature.t) : FeatureSet * bool :=
  let mask := mask_of feature in
  if Z.land (features s) mask =? 0 then ({| features := Z.lor (features s) mask |}, true) else (s, false).
Definition remove (s : FeatureSet) (feature : Feature.t) : FeatureSet * bool :=
  let mask := mask_of feature in
  if Z.land (features s) mask =? 0 then (s, false)
  else ({| features := Z.land (features s) (Z.lxor (2 ^ 64 - 1) mask) |}, true).
Definition contains (s : FeatureSet) (feature : Feature.t) : bool :=
  let mask := mask_of feature in negb (Z.land (features s) mask =? 0).

Record FeatureSetIterator : Type := { feature_set : FeatureSet; fs_index : nat }.
Definition iter (s : FeatureSet) : FeatureSetIterator := {| feature_set := s; fs_index := 0 |}.
(** The loop of [next]; the features left bound the turns. *)
Fixpoint next_loop (s : FeatureSet) (index n : nat) : option Feature.t * FeatureSetIterator :=
  match n with
  | O => (None, {| feature_set := s; fs_index := index |})
  | S n' =>
      match Feature.ALL_FEATURES !! index with
      | Some feature =>
          if contains s feature then (Some feature, {| feature_set := s; fs_index := S index |})
          else next_loop s (S index) n'
      | None => (None, {| feature_set := s; fs_index := index |})
      end
  end.
Definition next (it : FeatureSetIterator) : option Feature.t * FeatureSetIterator :=
  next_loop (feature_set it) (fs_index it) (length Feature.ALL_FEATURES - fs_index it).
Fixpoint collect (n : nat) (it : FeatureSetIterator) : list Feature.t :=
  match n with
  | O => []
  | S n' => match next it with (Some f, it') => f :: collect n' it' | (None, _) => [] end
  end.

Definition add_pair (fs : Z) (pair : NvPair) : outcome FeatureSetDecodeError Z :=
  map_err FsNv (Pair.get_bool_flag pair);;
  match Feature.try_from (pair_name pair) with
  | Ok feature => Ok (Z.lor fs (mask_of feature))
  | Err _ => name ← FixedStr.from_str 16 (pair_name pair); Err (FsUnknown name)
  | Panic => Panic
  end.
Definition from_nv_list (l : NvList) : outcome FeatureSetDecodeError FeatureSet :=
  fs ← fold_each l FsNv add_pair 0;
  Ok {| features := fs |}.

(** *** The set that a word stands for *)
Definition wf (s : FeatureSet) : Prop := 0 <= features s < 2 ^ 41.

Lemma shift_range f : 0 <= feature_to_bit_shift f < 41.
Proof. destruct f; cbn; lia. Qed.
Lemma shift_all : feature_to_bit_shift <$> Feature.ALL_FEATURES = seqZ 0 41.
Proof. reflexivity. Qed.
Lemma all_features f : Feature.ALL_FEATURES !! Z.to_nat (feature_to_bit_shift f) = Some f.
Proof. destruct f; reflexivity. Qed.
#[global] Instance shift_inj : Inj eq eq feature_to_bit_shift.
Proof. intros f g E. pose proof (all_features f) as Hf. rewrite E, all_features in Hf. congruence. Qed.
#[global] Instance feature_countable : Countable Feature.t.
Proof.
  apply (inj_countable feature_to_bit_shift (fun z => Feature.ALL_FEATURES !! Z.to_nat z)). apply all_features.
Defined.
Lemma all_nodup : NoDup Feature.ALL_FEATURES.
Proof. apply (NoDup_fmap_1 feature_to_bit_shift). rewrite shift_all. apply NoDup_seqZ. Qed.
Lemma elem_of_all f : f ∈ Feature.ALL_FEATURES.
Proof. eapply list_elem_of_lookup_2, all_features. Qed.

Definition members (s : FeatureSet) : gset Feature.t := list_to_set (filter (fun f => contains s f = true) Feature.ALL_FEATURES).

Lemma contains_bit s f : contains s f = Z.testbit (features s) (feature_to_bit_shift f).
Proof. apply (bit_set_testbit (features s)). pose proof (shift_range f). lia. Qed.
Lemma elem_of_members s f : f ∈ members s <-> contains s f = true.
Proof. unfold members. rewrite elem_of_list_to_set, list_elem_of_filter. pose proof (elem_of_all f). tauto. Qed.

(** Bits of the words the operations build. *)
Lemma mask_testbit f i : 0 <= i -> Z.testbit (mask_of f) i = bool_decide (i = feature_to_bit_shift f).
Proof.
  intros Hi. pose proof (shift_range f). unfold mask_of. rewrite Z.shiftl_1_l, Z.pow2_bits_eqb by lia.
  case_bool_decide; [subst; apply Z.eqb_refl|]. apply Z.eqb_neq. lia.
Qed.
Lemma contains_lor x f g : contains {| features := Z.lor x (mask_of f) |} g = contains {| features := x |} g || bool_decide (g = f).
Proof.
  pose proof (shift_range g). rewrite !contains_bit. cbn [features]. rewrite Z.lor_spec, mask_testbit by lia. f_equal.
  apply bool_decide_ext. split; [apply (inj feature_to_bit_shift)|congruence].
Qed.
Lemma contains_clear x f g :
  contains {| features := Z.land x (Z.lxor (2 ^ 64 - 1) (mask_of f)) |} g = contains {| features := x |} g && bool_decide (g <> f).
Proof.
  pose proof (shift_range g). rewrite !contains_bit. cbn [features]. rewrite Z.land_spec, Z.lxor_spec, mask_testbit by lia. f_equal.
  change (2 ^ 64 - 1) with (Z.ones 64). rewrite Z.ones_spec_low by lia. cbn [xorb].
  case_bool_decide as E1; case_bool_decide as E2; try done; [apply (inj feature_to_bit_shift) in E1; done|].
  destruct (decide (g = f)) as [->|]; done.
Qed.
Lemma features_lor_wf x f : 0 <= x < 2 ^ 41 -> 0 <= Z.lor x (mask_of f) < 2 ^ 41.
Proof.
  intros Hx. pose proof (shift_range f). assert (Hm : 0 <= mask_of f < 2 ^ 41).
  { unfold mask_of. rewrite Z.shiftl_1_l. split; [apply Z.pow_nonneg; lia|]. apply Z.pow_lt_mono_r; lia. }
  split; [apply Z.lor_nonneg; lia|]. destruct (Z.eq_dec (Z.lor x (mask_of f)) 0) as [->|Hn]; [lia|].
  apply Z.log2_lt_pow2; [pose proof (proj2 (Z.lor_nonneg x (mask_of f))); lia|]. rewrite Z.log2_lor by lia.
  assert (Hl : forall y, 0 <= y < 2 ^ 41 -> Z.log2 y < 41).
  { intros y Hy. destruct (Z.eq_dec y 0) as [->|]; [done|]. apply Z.log2_lt_pow2; lia. }
  pose proof (Hl x Hx). pose proof (Hl _ Hm). lia.
Qed.

(** Counting the bits counts the members. *)
Lemma filter_none {A} (P : A -> Prop) `{!forall x, Decision (P x)} l : (forall x, x ∈ l -> ~ P x) -> filter P l = [].
Proof.
  induction l as [|x l IH]; intros Hno; [done|]. rewrite filter_cons_False by (apply Hno; left). apply IH. intros y Hy. apply Hno. now right.
Qed.
Lemma length_filter_fmap {A C} (f : A -> C) (P : C -> Prop) `{!forall x, Decision (P x)} l :
  length (filter P (f <$> l)) = length (filter (fun x => P (f x)) l).
Proof.
  induction l as [|x l IH]; [done|]. rewrite fmap_cons, !filter_cons. destruct (decide (P (f x))); cbn [length]; now rewrite ?IH.
Qed.
Lemma count_ones_filter n x : count_ones_from n x = Z.of_nat (length (filter (fun i => Z.testbit x i = true) (seqZ 0 (Z.of_nat n)))).
Proof.
  induction n as [|n IH]; [done|]. cbn [count_ones_from]. rewrite IH. replace (Z.of_nat (S n)) with (Z.of_nat n + 1) by lia.
  rewrite seqZ_app by lia. rewrite filter_app, length_app, Nat2Z.inj_add. f_equal.
  rewrite seqZ_cons by lia. change (seqZ _ (Z.pred 1)) with ([] : list Z). rewrite Z.add_0_l, filter_cons, filter_nil.
  destruct (Z.testbit x (Z.of_nat n)); reflexivity.
Qed.
Lemma bits_above x i : 0 <= x < 2 ^ 41 -> 41 <= i -> Z.testbit x i = false.
Proof.
  intros Hx Hi. destruct (Z.eq_dec x 0) as [->|]; [apply Z.bits_0|]. apply Z.bits_above_log2; [lia|].
  assert (Z.log2 x < 41) by (apply Z.log2_lt_pow2; lia). lia.
Qed.
Lemma len_members s : wf s -> len s = Z.of_nat (size (members s)).
Proof.
  intros Hw. unfold len, count_ones, members. rewrite count_ones_filter. f_equal.
  rewrite size_list_to_set by (apply NoDup_filter, all_nodup).
  replace (seqZ 0 (Z.of_nat 64)) with (seqZ 0 41 ++ seqZ 41 23) by reflexivity. rewrite filter_app, length_app.
  rewrite (filter_none _ (seqZ 41 23)).
  2:{ intros i [Hi _]%elem_of_seqZ. rewrite bits_above by (done || lia). done. }
  cbn [length]. rewrite Nat.add_0_r, <- shift_all, length_filter_fmap. f_equal. apply list_filter_iff. intros f. now rewrite contains_bit.
Qed.

Lemma contains_members s f : contains s f = bool_decide (f ∈ members s).
Proof.
  pose proof (elem_of_members s f). destruct (contains s f); symmetry; [apply bool_decide_true|apply bool_decide_false]; [tauto|].
  intros Hin. apply H in Hin. discriminate.
Qed.
Lemma insert_members s f : wf s ->
  wf (fst (insert s f)) /\ members (fst (insert s f)) = {[f]} ∪ members s /\ snd (insert s f) = bool_decide (f ∉ members s).
Proof.
  intros Hw. rewrite bool_decide_not, <- contains_members. pose proof (elem_of_members s f) as Hf. unfold insert, contains in *.
  destruct (Z.land (features s) (mask_of f) =? 0); cbn [fst snd negb] in *.
  - split; [now apply features_lor_wf|]. split; [|done].
    apply set_eq. intros g. rewrite elem_of_union, elem_of_singleton, !elem_of_members, contains_lor, orb_true_iff, bool_decide_eq_true.
    destruct s; cbn [features]. tauto.
  - split; [done|]. split; [|done]. assert (f ∈ members s) by now apply Hf. clear Hf. set_solver.
Qed.
Lemma clear_below x m : 0 <= x < 2 ^ 41 -> 0 <= m -> 0 <= Z.land x m < 2 ^ 41.
Proof.
  intros Hx Hm. pose proof (proj2 (Z.land_nonneg x m) (or_introl (proj1 Hx))) as Hl. split; [done|].
  destruct (Z.eq_dec (Z.land x m) 0) as [->|]; [lia|]. destruct (Z.eq_dec x 0) as [->|]; [rewrite Z.land_0_l; lia|].
  apply Z.log2_lt_pow2; [lia|]. pose proof (Z.log2_land x m ltac:(lia) Hm).
  assert (Z.log2 x < 41) by (apply Z.log2_lt_pow2; lia). lia.
Qed.
Lemma mask_nonneg f : 0 <= mask_of f.
Proof. unfold mask_of. apply Z.shiftl_nonneg. lia. Qed.
Lemma remove_members s f : wf s ->
  wf (fst (remove s f)) /\ members (fst (remove s f)) = members s ∖ {[f]} /\ snd (remove s f) = bool_decide (f ∈ members s).
Proof.
  intros Hw. rewrite <- contains_members. pose proof (elem_of_members s f) as Hf. unfold remove, contains in *.
  destruct (Z.land (features s) (mask_of f) =? 0); cbn [fst snd negb] in *.
  - split; [done|]. split; [|done]. assert (f ∉ members s) by (intros Hin; apply Hf in Hin; discriminate). clear Hf. set_solver.
  - split; [|split; [|done]].
    + apply clear_below; [exact Hw|]. apply Z.lxor_nonneg. pose proof (mask_nonneg f). lia.
    + apply set_eq. intros g. rewrite elem_of_difference, elem_of_singleton, !elem_of_members, contains_clear, andb_true_iff, bool_decide_eq_true.
      destruct s; cbn [features]. tauto.
Qed.
Lemma empty_members s : wf s -> is_empty s = bool_decide (members s = ∅).
Proof.
  intros Hw. unfold is_empty. symmetry. destruct (Z.eqb_spec (features s) 0) as [E|E].
  - apply bool_decide_true, set_eq. intros f. rewrite elem_of_members, contains_bit, E, Z.bits_0. set_solver.
  - apply bool_decide_false. intros Hm. apply E. apply Z.bits_inj'. intros i Hi. rewrite Z.bits_0.
    destruct (Z.lt_ge_cases i 41) as [Hlt|]; [|now apply bits_above].
    assert (Hn : i ∈ feature_to_bit_shift <$> Feature.ALL_FEATURES) by (rewrite shift_all; apply elem_of_seqZ; lia).
    apply list_elem_of_fmap in Hn as (f & -> & _). rewrite <- contains_bit. apply not_true_is_false. rewrite <- elem_of_members, Hm. set_solver.
Qed.

(** Iteration gives the members in the order of [ALL_FEATURES]. *)
Lemma next_loop_spec s index n : (index + n = length Feature.ALL_FEATURES)%nat ->
  let rest := filter (fun f => contains s f = true) (drop index Feature.ALL_FEATURES) in
  match next_loop s index n with
  | (Some f, it') => exists xs, rest = f :: xs /\ feature_set it' = s /\ (index < fs_index it' <= length Feature.ALL_FEATURES)%nat /\
                      xs = filter (fun f => contains s f = true) (drop (fs_index it') Feature.ALL_FEATURES)
  | (None, _) => rest = []
  end.
Proof.
  revert index. induction n as [|n IH]; intros index Hn; cbn [next_loop].
  - rewrite drop_ge by lia. reflexivity.
  - destruct (lookup_lt_is_Some_2 Feature.ALL_FEATURES index ltac:(lia)) as [f Hf]. rewrite Hf, (drop_S _ f) by done. cbv zeta.
    rewrite filter_cons. destruct (contains s f) eqn:E; cbn [decide].
    + destruct (decide (true = true)); [|done]. eexists. split; [reflexivity|]. cbn [feature_set fs_index]. split; [done|]. split; [lia|done].
    + destruct (decide (false = true)); [done|]. specialize (IH (S index) ltac:(lia)). cbv zeta in IH.
      destruct (next_loop s (S index) n) as [[g|] it']; [|exact IH]. destruct IH as (xs & Hx & Hs & Hi & Hxs). exists xs.
      split; [exact Hx|]. split; [exact Hs|]. split; [lia|exact Hxs].
Qed.
Lemma collect_spec s n index : (index <= length Feature.ALL_FEATURES)%nat -> (length Feature.ALL_FEATURES - index <= n)%nat ->
  collect n {| feature_set := s; fs_index := index |} = filter (fun f => contains s f = true) (drop index Feature.ALL_FEATURES).
Proof.
  revert index. induction n as [|n IH]; intros index Hi Hn; cbn [collect].
  - now rewrite drop_ge by lia.
  - unfold next. cbn [feature_set fs_index]. pose proof (next_loop_spec s index (length Feature.ALL_FEATURES - index) ltac:(lia)) as Hs.
    cbv zeta in Hs. destruct (next_loop s index _) as [[f|] [s' j]]; [|now rewrite Hs]. cbn [feature_set fs_index] in Hs.
    destruct Hs as (xs & -> & -> & Hj & ->). f_equal. apply IH; lia.
Qed.

(** *** The features of a pool *)
Lemma add_pair_safe fs p : 0 <= fs < 2 ^ 41 -> safe (fun fs => 0 <= fs < 2 ^ 41) (add_pair fs p).
Proof.
  intros Hfs. unfold add_pair. apply (safe_bind (fun _ => True)).
  { apply safe_map_err. unfold Pair.get_bool_flag, Pair.typed. now destruct (pair_value p). }
  intros _ _. pose proof (Feature.feature_safe (pair_name p)) as Ht. destruct (Feature.try_from (pair_name p)); [|  |done].
  - cbn. now apply features_lor_wf.
  - eapply safe_bind; [apply FixedStr.from_str_safe; lia|]. done.
Qed.
Lemma from_nv_list_safe l : nv_ok l -> safe wf (from_nv_list l).
Proof.
  intros Hl. eapply safe_bind; [apply (fold_each_safe l Hl FsNv add_pair (fun fs => 0 <= fs < 2 ^ 41)); [|lia]|].
  - intros s p Hs _. now apply add_pair_safe.
  - intros fs Hfs. exact Hfs.
Qed.
(** A list of flags, one under the name of each feature. *)
Definition flags_of (fl : list (Feature.t * Z)) : list entry := (fun p => (Feature.str (fst p), snd p, NFlag)) <$> fl.
Lemma from_nv_list_flags l fl :
  holds l (flags_of fl) -> exists s, from_nv_list l = Ok s /\ wf s /\ members s = list_to_set (fst <$> fl).
Proof.
  intros Hh. set (step := fun fs (e : entry) => match Feature.try_from (fst (fst e)) with Ok f => Z.lor fs (mask_of f) | _ => fs end).
  unfold from_nv_list. rewrite (fold_each_holds FsNv add_pair step l (flags_of fl) 0 Hh).
  2:{ intros e p fs Hin [Hn Hv]. apply list_elem_of_fmap in Hin as ([f d] & -> & _). cbn in Hn, Hv. unfold add_pair, step.
      destruct (pair_value p) eqn:Ev; try done. rewrite Hn. cbn [fst]. unfold Pair.get_bool_flag. rewrite Ev.
      cbn [Pair.typed map_err mbind outcome_bind]. now rewrite (proj2 (Feature.feature_exact (Feature.str f) f) eq_refl). }
  cbn [mbind outcome_bind]. eexists. split; [reflexivity|]. unfold flags_of.
  assert (H : forall fl fs, wf {| features := fs |} -> let r := foldl step fs ((fun p => (Feature.str (fst p), snd p, NFlag)) <$> fl) in
            wf {| features := r |} /\ members {| features := r |} = members {| features := fs |} ∪ list_to_set (fst <$> fl)).
  { clear. induction fl as [|[f d] fl IH]; intros fs Hw; cbn [foldl fmap list_fmap list_to_set]; [split; [done|set_solver]|].
    unfold step at 2 4. cbn [fst]. rewrite (proj2 (Feature.feature_exact (Feature.str f) f) eq_refl).
    destruct (IH (Z.lor fs (mask_of f))) as [H1 H2]; [now apply features_lor_wf|]. split; [exact H1|]. rewrite H2. cbn [fst].
    apply set_eq. intros g. rewrite !elem_of_union, elem_of_singleton, !elem_of_members, contains_lor, orb_true_iff, bool_decide_eq_true. tauto. }
  destruct (H fl 0) as [H1 H2]; [unfold wf; cbn; lia|]. split; [exact H1|]. rewrite H2. apply set_eq. intros g.
  rewrite elem_of_union, elem_of_members, contains_bit. cbn [features]. rewrite Z.bits_0. set_solver.
Qed.
End FSet.

(** C34: The bits of a word as a finite set: every operation is the one of the set it stands
    for, and says whether it changed it.  A word in range stays in range, its
    ones are as many as the members, and iterating gives every member once, in the
    order of [ALL_FEATURES]. *)
Theorem feature_set_refines (s : FeatureSet) (f : Feature.t) :
  FSet.wf s ->
  (let '(s', changed) := FSet.insert s f in
     FSet.wf s' /\ FSet.members s' = {[f]} ∪ FSet.members s /\ changed = bool_decide (f ∉ FSet.members s)) /\
  (let '(s', changed) := FSet.remove s f in
     FSet.wf s' /\ FSet.members s' = FSet.members s ∖ {[f]} /\ changed = bool_decide (f ∈ FSet.members s)) /\
  FSet.contains s f = bool_decide (f ∈ FSet.members s) /\
  FSet.len s = Z.of_nat (size (FSet.members s)) /\
  FSet.is_empty s = bool_decide (FSet.members s = ∅) /\
  (let items := FSet.collect (length Feature.ALL_FEATURES) (FSet.iter s) in
     NoDup items /\ list_to_set items = FSet.members s /\ sublist items Feature.ALL_FEATURES).
Proof.
  intros Hw. pose proof (FSet.insert_members s f Hw) as Hi. pose proof (FSet.remove_members s f Hw) as Hr.
  destruct (FSet.insert s f), (FSet.remove s f). splits; try tauto.
  - apply FSet.contains_members.
  - now apply FSet.len_members.
  - now apply FSet.empty_members.
  - cbv zeta. unfold FSet.iter. rewrite FSet.collect_spec, drop_0 by lia. splits.
    + apply NoDup_filter, FSet.all_nodup.
    + reflexivity.
    + apply sublist_filter.
Qed.
Lemma feature_set_refines_witness :
  FSet.contains {| features := 8388608 |} Feature.Lz4Compress = bool_decide (Feature.Lz4Compress ∈ FSet.members {| features := 8388608 |}).
Proof. apply (feature_set_refines {| features := 8388608 |} Feature.Lz4Compress). split; vm_compute; congruence. Defined.

(** The features of a configuration: a list of flags under the names of features
    decodes to the set of those features, in any order and with repetitions, and
    decoding any list ends in a set of features or an error, never a panic. *)
Theorem feature_list_decodes (l any : NvList) (fl : list (Feature.t * Z)) :
  holds l (FSet.flags_of fl) -> nv_ok any ->
  (exists s, FSet.from_nv_list l = Ok s /\ FSet.wf s /\ FSet.members s = list_to_set (fst <$> fl)) /\
  safe FSet.wf (FSet.from_nv_list any).
Proof. intros Hh Ha. split; [now apply FSet.from_nv_list_flags|now apply FSet.from_nv_list_safe]. Qed.

Definition sample_flags : list (Feature.t * Z) := [(Feature.HoleBirth, 48); (Feature.EmbeddedData, 48)].
Lemma sample_flags_fit : entries_fit (FSet.flags_of sample_flags).
Proof. unfold FSet.flags_of, sample_flags. cbn [fmap list_fmap fst snd]. fit_solve. Qed.
Lemma feature_list_decodes_witness :
  exists l s, from_bytes (packed (NvUnique.Name, FSet.flags_of sample_flags) ++ []) = Ok l /\ FSet.from_nv_list l = Ok s /\
    FSet.members s = {[Feature.HoleBirth; Feature.EmbeddedData]}.
Proof.
  destruct (packed_holds NvUnique.Name (FSet.flags_of sample_flags) [] sample_flags_fit ltac:(constructor)) as (l & Hl & Hh). exists l.
  destruct (feature_list_decodes l l sample_flags Hh) as [(s & Hs & _ & Hm) _].
  - apply (safe_ok _ _ _ (nv_from_bytes_safe _ (packed_ok NvUnique.Name _ [] sample_flags_fit ltac:(constructor))) Hl).
  - exists s. split; [exact Hl|]. split; [exact Hs|]. rewrite Hm. vm_compute. reflexivity.
Defined.
