(* ===== verification/LabelConfig.v ===== *)
(** * The configuration in a label (src/phys/label.rs)

    A label carries a name-value list that describes the pool and the virtual device:
    a storage configuration with its vdev tree, a spare, or an L2 cache.  What a
    configuration says under its keys, in any order, is what the decoder returns,
    down to the children of a mirror or a RAID-Z; decoding any list whatsoever ends
    without a panic; and no list at all decodes as an L2 cache. *)

From stdpp Require Import gmap.
From S2P Require Import Prelude Errors Decoder Encoder Codec FixedStr Vocab Uberblock Nv NvSpec Feature.

#[local] Set Warnings "-register-all".

Open Scope Z_scope.
Open Scope list_scope.

(** ** Data *)
Record LabelConfigL2Cache : Type := { l2_allocate_shift : Z; l2_guid : Z; l2_version : SpaVersion.t }.
Record LabelConfigSpare : Type := { sp_guid : Z; sp_version : SpaVersion.t }.
Record LabelVdevTreeDisk : Type :=
  { dk_path : bytes; dk_dev_id : option bytes; dk_phys_path : option bytes; dk_whole_disk : option bool }.
Record LabelVdevTreeFile : Type := { fl_path : bytes }.
Record LabelVdevTreeMirror : Type := { mr_children : NvArray }.
Record LabelVdevTreeRaidZ : Type := { rz_children : NvArray; rz_parity : option Z }.
Inductive LabelVdevTreeType : Type :=
| TyDisk (disk : LabelVdevTreeDisk) | TyFile (file : LabelVdevTreeFile) | TyMirror (mirror : LabelVdevTreeMirror)
| TyRaidZ (raidz : LabelVdevTreeRaidZ).
Record LabelVdevTree : Type := {
  vt_allocate_shift : Z; vt_allocate_size : Z; vt_guid : Z; vt_id : Z; vt_metaslab_array : Z; vt_metaslab_shift : Z;
  vt_vdev_type : LabelVdevTreeType; vt_create_txg : option Z; vt_is_log : option bool
}.
Record LabelVdevChild : Type :=
  { ch_guid : Z; ch_id : Z; ch_path : bytes; ch_vdev_type : VdevType.t; ch_create_txg : option Z }.
Record LabelConfigStorage : Type := {
  st_guid : Z; st_name : bytes; st_pool_guid : Z; st_state : PoolState.t; st_top_guid : Z; st_txg : Z;
  st_vdev_tree : LabelVdevTree; st_version : SpaVersion.t; st_comment : option bytes;
  st_compatibility : option Compatibility; st_errata : option PoolErrata.t; st_host_id : option Z;
  st_host_name : option bytes; st_is_log : option bool; st_is_spare : option bool;
  st_features_for_read : option FeatureSet; st_split_guid : option Z; st_vdev_children : option Z
}.
Inductive LabelConfig : Type :=
| CfL2Cache (cache : LabelConfigL2Cache) | CfSpare (spare : LabelConfigSpare) | CfStorage (storage : LabelConfigStorage).

Inductive LabelVdevTreeDecodeError : Type :=
| TMissing (name : bytes) | TNv (err : NvDecodeError) | TUnexpected (name : VdevTreeKey.t) | TUnknown (name : Fstr)
| TUnknownVdevType (vdev_type : Fstr) | TUnsupportedVdevType (vdev_type : VdevType.t).
Inductive LabelConfigDecodeError : Type :=
| CFeatureSet (err : FeatureSetDecodeError) | CMissing (name : bytes) | CPoolErrata (pool_errata : Z) | CPoolState (pool_state : Z)
| CNv (err : NvDecodeError) | CUnexpectedField (name : PoolConfigKey.t) | CUnexpectedState (state : PoolState.t)
| CUnknownField (name : Fstr) | CVdevTree (err : LabelVdevTreeDecodeError) | CVersion (version : Z).

(** ** Shared steps *)

(** [match list.get_..(name)? { Some(v) => v, None => return Err(Missing { name }) }] *)
Definition required {E A} (nv : NvDecodeError -> E) (missing : bytes -> E) (get : NvList -> bytes -> outcome NvDecodeError (option A))
    (l : NvList) (name : bytes) : outcome E A :=
  v ← map_err nv (get l name); ok_or v (missing name).
(** The loop over the pairs: every name is a key that is expected. *)
Definition check_keys {E K} (nv : NvDecodeError -> E) (try_from : bytes -> outcome unit K) (unknown : Fstr -> E) (unexpected : K -> E)
    (expected : K -> bool) (l : NvList) : outcome E unit :=
  for_each l nv (fun pair =>
    match try_from (pair_name pair) with
    | Ok key => if expected key then Ok (@None unit) else Err (unexpected key)
    | Err _ => name ← FixedStr.from_str 16 (pair_name pair); Err (unknown name)
    | Panic => Panic
    end);;
  Ok tt.
Definition contains {K} `{EqDecision K} (l : list K) (k : K) : bool := bool_decide (k ∈ l).
(** [.map(|v| v != 0)] *)
Definition as_flag (v : option Z) : option bool := (fun v => negb (v =? 0)) <$> v.

(** ** Vdev trees *)
Abbreviation tree_required get := (required TNv TMissing get).
Abbreviation tree_check expected := (check_keys TNv VdevTreeKey.try_from TUnknown TUnexpected expected).
Abbreviation TO := (outcome LabelVdevTreeDecodeError).

Module TreeDisk.
Definition EXPECTED : list VdevTreeKey.t := [VdevTreeKey.DevId; VdevTreeKey.Path; VdevTreeKey.PhysPath; VdevTreeKey.WholeDisk].
Definition from_list (l : NvList) : TO LabelVdevTreeDisk :=
  path ← tree_required Nvl.get_str l (VdevTreeKey.str VdevTreeKey.Path);
  dev_id ← map_err TNv (Nvl.get_str l (VdevTreeKey.str VdevTreeKey.DevId));
  phys_path ← map_err TNv (Nvl.get_str l (VdevTreeKey.str VdevTreeKey.PhysPath));
  whole_disk ← map_err TNv (Nvl.get_u64 l (VdevTreeKey.str VdevTreeKey.WholeDisk));
  Ok {| dk_path := path; dk_dev_id := dev_id; dk_phys_path := phys_path; dk_whole_disk := as_flag whole_disk |}.
End TreeDisk.
Module TreeFile.
Definition EXPECTED : list VdevTreeKey.t := [VdevTreeKey.Path].
Definition from_list (l : NvList) : TO LabelVdevTreeFile :=
  path ← tree_required Nvl.get_str l (VdevTreeKey.str VdevTreeKey.Path);
  Ok {| fl_path := path |}.
End TreeFile.
Module TreeMirror.
Definition EXPECTED : list VdevTreeKey.t := [VdevTreeKey.Children].
Definition from_list (l : NvList) : TO LabelVdevTreeMirror :=
  children ← tree_required Nvl.get_nv_list_array l (VdevTreeKey.str VdevTreeKey.Children);
  Ok {| mr_children := children |}.
End TreeMirror.
Module TreeRaidZ.
Definition EXPECTED : list VdevTreeKey.t := [VdevTreeKey.Children; VdevTreeKey.NParity].
Definition from_list (l : NvList) : TO LabelVdevTreeRaidZ :=
  children ← tree_required Nvl.get_nv_list_array l (VdevTreeKey.str VdevTreeKey.Children);
  parity ← map_err TNv (Nvl.get_u64 l (VdevTreeKey.str VdevTreeKey.NParity));
  Ok {| rz_children := children; rz_parity := parity |}.
End TreeRaidZ.

Module TreeType.
Definition children (ty : LabelVdevTreeType) : option NvArray :=
  match ty with TyDisk _ | TyFile _ => None | TyMirror mirror => Some (mr_children mirror) | TyRaidZ raidz => Some (rz_children raidz) end.
(** The name of a type, and the error with its first bytes. *)
Definition type_from_str (v : bytes) : TO VdevType.t :=
  match VdevType.try_from v with
  | Ok ty => Ok ty
  | Err _ => vdev_type ← FixedStr.from_str 16 v; Err (TUnknownVdevType vdev_type)
  | Panic => Panic
  end.
(** The fields of the type, and which keys they are under. *)
Definition from_list (ty : VdevType.t) (l : NvList) : TO (LabelVdevTreeType * list VdevTreeKey.t) :=
  match ty with
  | VdevType.Disk => v ← TreeDisk.from_list l; Ok (TyDisk v, TreeDisk.EXPECTED)
  | VdevType.File => v ← TreeFile.from_list l; Ok (TyFile v, TreeFile.EXPECTED)
  | VdevType.Mirror => v ← TreeMirror.from_list l; Ok (TyMirror v, TreeMirror.EXPECTED)
  | VdevType.RaidZ => v ← TreeRaidZ.from_list l; Ok (TyRaidZ v, TreeRaidZ.EXPECTED)
  | _ => Err (TUnsupportedVdevType ty)
  end.
End TreeType.

Module Tree.
Definition EXPECTED : list VdevTreeKey.t := [
  VdevTreeKey.AllocateShift; VdevTreeKey.AllocateSize; VdevTreeKey.CreateTxg; VdevTreeKey.Guid; VdevTreeKey.Id;
  VdevTreeKey.IsLog; VdevTreeKey.MetaSlabArray; VdevTreeKey.MetaSlabShift; VdevTreeKey.VdevType].
Definition from_list (l : NvList) : TO LabelVdevTree :=
  allocate_shift ← tree_required Nvl.get_u64 l (VdevTreeKey.str VdevTreeKey.AllocateShift);
  allocate_size ← tree_required Nvl.get_u64 l (VdevTreeKey.str VdevTreeKey.AllocateSize);
  guid ← tree_required Nvl.get_u64 l (VdevTreeKey.str VdevTreeKey.Guid);
  id ← tree_required Nvl.get_u64 l (VdevTreeKey.str VdevTreeKey.Id);
  metaslab_array ← tree_required Nvl.get_u64 l (VdevTreeKey.str VdevTreeKey.MetaSlabArray);
  metaslab_shift ← tree_required Nvl.get_u64 l (VdevTreeKey.str VdevTreeKey.MetaSlabShift);
  create_txg ← map_err TNv (Nvl.get_u64 l (VdevTreeKey.str VdevTreeKey.CreateTxg));
  is_log ← map_err TNv (Nvl.get_u64 l (VdevTreeKey.str VdevTreeKey.IsLog));
  vdev_type ← tree_required Nvl.get_str l (VdevTreeKey.str VdevTreeKey.VdevType);
  vdev_type ← TreeType.type_from_str vdev_type;
  ty ← TreeType.from_list vdev_type l;
  let '(vdev_type, vdev_type_expected_fields) := ty in
  tree_check (fun key => contains EXPECTED key || contains vdev_type_expected_fields key) l;;
  Ok {| vt_allocate_shift := allocate_shift; vt_allocate_size := allocate_size; vt_guid := guid; vt_id := id;
        vt_metaslab_array := metaslab_array; vt_metaslab_shift := metaslab_shift; vt_vdev_type := vdev_type;
        vt_create_txg := create_txg; vt_is_log := as_flag is_log |}.
End Tree.

Module Child.
Definition EXPECTED : list VdevTreeKey.t :=
  [VdevTreeKey.CreateTxg; VdevTreeKey.Guid; VdevTreeKey.Id; VdevTreeKey.Path; VdevTreeKey.VdevType].
Definition from_list (l : NvList) : TO LabelVdevChild :=
  id ← tree_required Nvl.get_u64 l (VdevTreeKey.str VdevTreeKey.Id);
  guid ← tree_required Nvl.get_u64 l (VdevTreeKey.str VdevTreeKey.Guid);
  path ← tree_required Nvl.get_str l (VdevTreeKey.str VdevTreeKey.Path);
  vdev_type ← tree_required Nvl.get_str l (VdevTreeKey.str VdevTreeKey.VdevType);
  vdev_type ← TreeType.type_from_str vdev_type;
  create_txg ← map_err TNv (Nvl.get_u64 l (VdevTreeKey.str VdevTreeKey.CreateTxg));
  tree_check (contains EXPECTED) l;;
  Ok {| ch_guid := guid; ch_id := id; ch_path := path; ch_vdev_type := vdev_type; ch_create_txg := create_txg |}.
End Child.

(** ** Configurations *)
Abbreviation config_required get := (required CNv CMissing get).
Abbreviation config_check expected := (check_keys CNv PoolConfigKey.try_from CUnknownField CUnexpectedField (contains expected)).
Abbreviation CO := (outcome LabelConfigDecodeError).

(** The state and the version, required and known. *)
Definition config_state (l : NvList) : CO PoolState.t :=
  v ← config_required Nvl.get_u64 l (PoolConfigKey.str PoolConfigKey.State); map_err CPoolState (PoolState.try_from v).
Definition config_version (l : NvList) : CO SpaVersion.t :=
  v ← config_required Nvl.get_u64 l (PoolConfigKey.str PoolConfigKey.Version); map_err CVersion (SpaVersion.try_from v).

Module L2Cache.
Definition EXPECTED : list PoolConfigKey.t :=
  [PoolConfigKey.AllocateShift; PoolConfigKey.Guid; PoolConfigKey.State; PoolConfigKey.Version].
Definition from_list (l : NvList) : CO LabelConfigL2Cache :=
  state ← config_state l;
  guard_err (negb (bool_decide (state = PoolState.L2Cache))) (CUnexpectedState state);;
  allocate_shift ← config_required Nvl.get_u64 l (PoolConfigKey.str PoolConfigKey.AllocateShift);
  guid ← config_required Nvl.get_u64 l (PoolConfigKey.str PoolConfigKey.Guid);
  version ← config_version l;
  config_check EXPECTED l;;
  Ok {| l2_allocate_shift := allocate_shift; l2_guid := guid; l2_version := version |}.
End L2Cache.

Module Spare.
Definition EXPECTED : list PoolConfigKey.t := [PoolConfigKey.Guid; PoolConfigKey.State; PoolConfigKey.Version].
Definition from_list (l : NvList) : CO LabelConfigSpare :=
  state ← config_state l;
  guard_err (negb (bool_decide (state = PoolState.Spare))) (CUnexpectedState state);;
  guid ← config_required Nvl.get_u64 l (PoolConfigKey.str PoolConfigKey.Guid);
  version ← config_version l;
  config_check EXPECTED l;;
  Ok {| sp_guid := guid; sp_version := version |}.
End Spare.

Module Storage.
Definition EXPECTED : list PoolConfigKey.t := [
  PoolConfigKey.Comment; PoolConfigKey.Compatibility; PoolConfigKey.Guid; PoolConfigKey.Errata; PoolConfigKey.FeaturesForRead;
  PoolConfigKey.HostId; PoolConfigKey.HostName; PoolConfigKey.IsLog; PoolConfigKey.IsSpare; PoolConfigKey.Name;
  PoolConfigKey.PoolGuid; PoolConfigKey.SplitGuid; PoolConfigKey.State; PoolConfigKey.TopGuid; PoolConfigKey.Txg;
  PoolConfigKey.VdevChildren; PoolConfigKey.VdevTree; PoolConfigKey.Version].
Definition is_storage (state : PoolState.t) : bool :=
  match state with PoolState.Active | PoolState.Exported | PoolState.Destroyed => true | _ => false end.
(** [match v { Some(v) => Some(f(v)?), None => None }] *)
Definition if_some {E A C} (f : A -> outcome E C) (v : option A) : outcome E (option C) :=
  match v with Some v => r ← f v; Ok (Some r) | None => Ok None end.

Definition from_list (l : NvList) : CO LabelConfigStorage :=
  guid ← config_required Nvl.get_u64 l (PoolConfigKey.str PoolConfigKey.Guid);
  name ← config_required Nvl.get_str l (PoolConfigKey.str PoolConfigKey.Name);
  pool_guid ← config_required Nvl.get_u64 l (PoolConfigKey.str PoolConfigKey.PoolGuid);
  state ← config_state l;
  guard_err (negb (is_storage state)) (CUnexpectedState state);;
  top_guid ← config_required Nvl.get_u64 l (PoolConfigKey.str PoolConfigKey.TopGuid);
  txg ← config_required Nvl.get_u64 l (PoolConfigKey.str PoolConfigKey.Txg);
  vdev_tree_list ← config_required Nvl.get_nv_list l (PoolConfigKey.str PoolConfigKey.VdevTree);
  vdev_tree ← map_err CVdevTree (Tree.from_list vdev_tree_list);
  version ← config_version l;
  comment ← map_err CNv (Nvl.get_str l (PoolConfigKey.str PoolConfigKey.Comment));
  compatibility ← map_err CNv (Nvl.get_str l (PoolConfigKey.str PoolConfigKey.Compatibility));
  errata ← map_err CNv (Nvl.get_u64 l (PoolConfigKey.str PoolConfigKey.Errata));
  errata ← if_some (fun v => map_err CPoolErrata (PoolErrata.try_from v)) errata;
  host_id ← map_err CNv (Nvl.get_u64 l (PoolConfigKey.str PoolConfigKey.HostId));
  host_name ← map_err CNv (Nvl.get_str l (PoolConfigKey.str PoolConfigKey.HostName));
  is_log ← map_err CNv (Nvl.get_u64 l (PoolConfigKey.str PoolConfigKey.IsLog));
  is_spare ← map_err CNv (Nvl.get_u64 l (PoolConfigKey.str PoolConfigKey.IsSpare));
  features_for_read ← map_err CNv (Nvl.get_nv_list l (PoolConfigKey.str PoolConfigKey.FeaturesForRead));
  features_for_read ← if_some (fun v => map_err CFeatureSet (FSet.from_nv_list v)) features_for_read;
  split_guid ← map_err CNv (Nvl.get_u64 l (PoolConfigKey.str PoolConfigKey.SplitGuid));
  vdev_children ← map_err CNv (Nvl.get_u64 l (PoolConfigKey.str PoolConfigKey.VdevChildren));
  config_check EXPECTED l;;
  Ok {| st_guid := guid; st_name := name; st_pool_guid := pool_guid; st_state := state; st_top_guid := top_guid; st_txg := txg;
        st_vdev_tree := vdev_tree; st_version := version; st_comment := comment; st_compatibility := Compat.from <$> compatibility;
        st_errata := errata; st_host_id := host_id; st_host_name := host_name; st_is_log := as_flag is_log;
        st_is_spare := as_flag is_spare; st_features_for_read := features_for_read; st_split_guid := split_guid;
        st_vdev_children := vdev_children |}.
End Storage.

Module Config.
Definition from_list (l : NvList) : CO LabelConfig :=
  state ← config_state l;
  match state with
  | PoolState.L2Cache => v ← L2Cache.from_list l; Ok (CfL2Cache v)
  | PoolState.Spare => v ← Spare.from_list l; Ok (CfSpare v)
  | PoolState.Active | PoolState.Exported | PoolState.Destroyed => v ← Storage.from_list l; Ok (CfStorage v)
  end.
Definition state (c : LabelConfig) : PoolState.t :=
  match c with CfL2Cache _ => PoolState.L2Cache | CfSpare _ => PoolState.Spare | CfStorage storage => st_state storage end.
End Config.

(** ** No list makes decoding panic *)
Section safety.
Context (l : NvList) (Hl : nv_ok l).

Lemma get_u64_safe name : safe (fun _ => True) (Nvl.get_u64 l name).
Proof. eapply safe_mono; [apply (get_safe _ (fun _ => True))|]; [|done|done]. intros p _. unfold Pair.get_u64. now destruct (pair_value p). Qed.
Lemma get_str_safe name : safe (fun _ => True) (Nvl.get_str l name).
Proof. eapply safe_mono; [apply (get_safe _ (fun _ => True))|]; [|done|done]. intros p _. unfold Pair.get_str. now destruct (pair_value p). Qed.
Lemma required_safe {E A} (nv : NvDecodeError -> E) missing (get : NvList -> bytes -> outcome NvDecodeError (option A)) P name :
  safe (fun r => match r with Some a => P a | None => True end) (get l name) -> safe P (required nv missing get l name).
Proof. intros Hg. eapply safe_bind; [apply safe_map_err, Hg|]. intros [a|] Ha; done. Qed.
Lemma required_u64_safe {E} (nv : NvDecodeError -> E) missing name : safe (fun _ => True) (required nv missing Nvl.get_u64 l name).
Proof. apply required_safe. eapply safe_mono; [apply get_u64_safe|]. now intros []. Qed.
Lemma required_str_safe {E} (nv : NvDecodeError -> E) missing name : safe (fun _ => True) (required nv missing Nvl.get_str l name).
Proof. apply required_safe. eapply safe_mono; [apply get_str_safe|]. now intros []. Qed.
Lemma required_lists_safe {E} (nv : NvDecodeError -> E) missing name : safe arr_ok (required nv missing Nvl.get_nv_list_array l name).
Proof. apply required_safe. now apply get_nv_list_array_safe. Qed.
Lemma check_keys_safe {E K} (nv : NvDecodeError -> E) try_from unknown unexpected (expected : K -> bool) :
  (forall s, safe (fun _ => True) (try_from s)) -> safe (fun _ => True) (check_keys nv try_from unknown unexpected expected l).
Proof.
  intros Ht. eapply safe_bind; [apply (for_each_safe l Hl nv _ (fun _ => True))|]; [|done]. intros p _.
  specialize (Ht (pair_name p)). destruct (try_from (pair_name p)); [now destruct (expected _)|  |done].
  eapply safe_bind; [apply FixedStr.from_str_safe; lia|done].
Qed.
End safety.
#[local] Create HintDb label.
#[local] Hint Resolve get_u64_safe get_str_safe required_u64_safe required_str_safe required_lists_safe : label.
(** One more step of a decoder of lists. *)
Ltac lstep := eapply safe_bind;
  [first [apply safe_map_err; solve [eauto with label] | solve [eauto with label] | apply safe_guard]|]; intros ? ?.

Lemma type_from_str_safe v : safe (fun _ => True) (TreeType.type_from_str v).
Proof.
  unfold TreeType.type_from_str. pose proof (VdevType.vdev_type_safe v). destruct (VdevType.try_from v); [done| |done].
  eapply safe_bind; [apply FixedStr.from_str_safe; lia|done].
Qed.
Definition type_ok (ty : LabelVdevTreeType) : Prop := match TreeType.children ty with Some a => arr_ok a | None => True end.
Lemma tree_type_safe ty l : nv_ok l -> safe (fun r => type_ok (fst r)) (TreeType.from_list ty l).
Proof.
  intros Hl. destruct ty; cbn [TreeType.from_list]; try done.
  - eapply (safe_bind (fun _ => True)); [|done]. unfold TreeDisk.from_list. repeat lstep. done.
  - eapply (safe_bind (fun _ => True)); [|done]. unfold TreeFile.from_list. repeat lstep. done.
  - eapply (safe_bind (fun v => arr_ok (mr_children v))); [|now intros]. unfold TreeMirror.from_list. repeat lstep. done.
  - eapply (safe_bind (fun v => arr_ok (rz_children v))); [|now intros]. unfold TreeRaidZ.from_list. repeat lstep. done.
Qed.
Lemma tree_safe l : nv_ok l -> safe (fun t => type_ok (vt_vdev_type t)) (Tree.from_list l).
Proof.
  intros Hl. unfold Tree.from_list. do 9 lstep. eapply safe_bind; [apply type_from_str_safe|]. intros ty _.
  eapply safe_bind; [now apply tree_type_safe|]. intros [ty' ex] Hty.
  eapply safe_bind; [apply check_keys_safe; [done|apply VdevTreeKey.vdev_tree_key_safe]|]. intros _ _. exact Hty.
Qed.
Lemma child_safe l : nv_ok l -> safe (fun _ => True) (Child.from_list l).
Proof.
  intros Hl. unfold Child.from_list. do 4 lstep. eapply safe_bind; [apply type_from_str_safe|]. intros ty _. lstep.
  eapply safe_bind; [apply check_keys_safe; [done|apply VdevTreeKey.vdev_tree_key_safe]|]. done.
Qed.
Lemma state_safe l : nv_ok l -> safe (fun _ => True) (config_state l).
Proof. intros Hl. unfold config_state. lstep. apply safe_map_err, PoolState.pool_state_safe. Qed.
Lemma version_safe l : nv_ok l -> safe (fun _ => True) (config_version l).
Proof. intros Hl. unfold config_version. lstep. apply safe_map_err, SpaVersion.spa_safe. Qed.
Lemma config_check_safe l expected : nv_ok l -> safe (fun _ => True) (config_check expected l).
Proof. intros Hl. apply check_keys_safe; [done|apply PoolConfigKey.pool_config_key_safe]. Qed.
Lemma if_some_safe {E A C} (f : A -> outcome E C) (P : A -> Prop) v :
  match v with Some a => P a | None => True end -> (forall a, P a -> safe (fun _ => True) (f a)) -> safe (fun _ => True) (Storage.if_some f v).
Proof. intros Hv Hf. destruct v as [a|]; cbn; [|done]. eapply safe_bind; [now apply Hf|done]. Qed.
Lemma storage_safe l : nv_ok l -> safe (fun s => type_ok (vt_vdev_type (st_vdev_tree s))) (Storage.from_list l).
Proof.
  intros Hl. unfold Storage.from_list. do 3 lstep. eapply safe_bind; [now apply state_safe|]. intros st _. do 3 lstep.
  eapply safe_bind; [eapply required_safe, get_nv_list_safe; exact Hl|]. intros tl Htl.
  eapply safe_bind; [apply safe_map_err, tree_safe, Htl|]. intros t Ht. eapply safe_bind; [now apply version_safe|]. intros ve _.
  do 3 lstep. eapply safe_bind; [apply (if_some_safe _ (fun _ => True)); [now case_match|]|].
  { intros c _. apply safe_map_err, PoolErrata.pool_errata_safe. }
  intros er _. do 4 lstep. eapply safe_bind; [apply safe_map_err, get_nv_list_safe; exact Hl|]. intros fl Hfl.
  eapply safe_bind; [apply (if_some_safe _ nv_ok); [exact Hfl|]|].
  { intros c Hc. apply safe_map_err. eapply safe_mono; [now apply FSet.from_nv_list_safe|done]. }
  intros fs _. do 2 lstep. eapply safe_bind; [now apply config_check_safe|]. intros _ _. exact Ht.
Qed.

(** ** Keys that are read are keys that are checked *)

(** A walk that comes to the end has passed every pair that a lookup returns. *)
Lemma each_pair_agree {E} l (nv : NvDecodeError -> E) (k : NvPair -> outcome E (option unit)) name fuel b p b1 b2 :
  each_pair l id (fun p => Ok (if bool_decide (pair_name p = name) then Some p else None)) fuel b = (Ok (Some p), b1) ->
  each_pair l nv k fuel b = (Ok None, b2) -> pair_name p = name /\ k p = Ok None.
Proof.
  revert b. induction fuel as [|fuel IH]; intros b; rewrite !each_pair_turn; destruct (next_pair_result l b) as [[[q|]|e|] b0]; try done;
    case_bool_decide as En; try done.
  - intros [= -> _]. destruct (k p) as [[]|?|]; done.
  - intros [= -> _]. destruct (k p) as [[]|?|]; done.
  - intros Hf. destruct (k q) as [[u|]|?|]; try done. intros Hk. now apply (IH b0).
Qed.
Lemma checked_after_find {E} l (nv : NvDecodeError -> E) (k : NvPair -> outcome E (option unit)) name p :
  find l name = Ok (Some p) -> for_each l nv k = Ok None -> pair_name p = name /\ k p = Ok None.
Proof.
  unfold find, for_each. destruct (iter l) as [b|e|]; cbn [map_err mbind outcome_bind]; try done.
  destruct (each_pair l id _ (turns l) b) as [r1 b1] eqn:E1. destruct (each_pair l nv k (turns l) b) as [r2 b2] eqn:E2.
  cbn [fst]. intros -> ->. eapply each_pair_agree; eauto.
Qed.
Lemma get_u64_find l name v : Nvl.get_u64 l name = Ok (Some v) -> exists p, find l name = Ok (Some p).
Proof.
  unfold Nvl.get_u64, Nvl.get. destruct (find l name) as [[p|]|e|]; cbn [mbind outcome_bind]; try done. intros _. now exists p.
Qed.
Lemma required_ok {E A} (nv : NvDecodeError -> E) missing (get : NvList -> bytes -> outcome NvDecodeError (option A)) l name v :
  required nv missing get l name = Ok v -> get l name = Ok (Some v).
Proof. unfold required. destruct (get l name) as [[a|]|e|]; cbn; try done. now intros [= ->]. Qed.
(** A key that is read and whose name is not recognised makes the check fail. *)
Lemma check_refuses {E K} (nv : NvDecodeError -> E) try_from unknown unexpected (expected : K -> bool) l name v u :
  Nvl.get_u64 l name = Ok (Some v) -> try_from name = Err u -> check_keys nv try_from unknown unexpected expected l <> Ok tt.
Proof.
  intros (p & Hf)%get_u64_find Ht Hc. unfold check_keys in Hc. apply outcome_bind_ok in Hc as (r & Hc & _).
  destruct r as [u'|].
  - clear -Hc. exfalso. revert Hc. unfold for_each. destruct (iter l) as [b|e|]; cbn [map_err mbind outcome_bind]; try done.
    generalize (turns l). intros fuel. revert b. induction fuel as [|fuel IH]; intros b; rewrite each_pair_turn;
      destruct (next_pair_result l b) as [[[q|]|e|] b0]; cbn [fst]; try done; destruct (try_from (pair_name q)) as [key|?|]; try done;
      try (destruct (expected key); try done; try apply IH); destruct (FixedStr.from_str 16 (pair_name q)); done.
  - destruct (checked_after_find l nv _ name p Hf Hc) as [Hn Hk]. rewrite Hn, Ht in Hk.
    destruct (FixedStr.from_str 16 name); done.
Qed.

(** C40: No list decodes as the configuration of an L2 cache: it must have an allocation
    shift, and the check of its keys does not know the name of that key. *)
Theorem l2cache_never_decodes (l : NvList) :
  (forall c, L2Cache.from_list l <> Ok c) /\ (forall c, Config.from_list l <> Ok (CfL2Cache c)).
Proof.
  assert (H : forall c, L2Cache.from_list l <> Ok c).
  { intros c H. unfold L2Cache.from_list in H. repeat (apply outcome_bind_ok in H as (? & ? & H)).
    match goal with Ha : required _ _ _ l (PoolConfigKey.str PoolConfigKey.AllocateShift) = Ok _, Hc : check_keys _ _ _ _ _ l = Ok _ |- _ =>
      apply required_ok in Ha; destruct (check_refuses CNv PoolConfigKey.try_from CUnknownField CUnexpectedField (contains L2Cache.EXPECTED) l _ _ tt Ha eq_refl) end.
    match goal with Hc : check_keys _ _ _ _ _ l = Ok ?u |- _ => destruct u; exact Hc end. }
  split; [exact H|]. intros c Hc. unfold Config.from_list in Hc. apply outcome_bind_ok in Hc as (st & _ & Hc).
  destruct st; apply outcome_bind_ok in Hc as (v & Hv & Hc); try discriminate. exact (H v Hv).
Qed.

(** ** What a configuration says *)

(** [says str field ps]: the entries [ps] have the values [field] gives under the names
    of keys, and nothing else. *)
Definition says {K} (str : K -> bytes) (field : K -> option nvv) (ps : list entry) : Prop :=
  (forall k, value_of ps (str k) = field k) /\ Forall (fun e => exists k, fst (fst e) = str k /\ is_Some (field k)) ps.
Abbreviation tree_says := (says VdevTreeKey.str).
Abbreviation config_says := (says PoolConfigKey.str).
Definition NFlagged (b : bool) : nvv := NU64 (if b then 1 else 0).

Section lookups.
Context {K : Type} (str : K -> bytes) (field : K -> option nvv) (l : NvList) (ps : list entry).
Context (Hh : holds l ps) (Hs : says str field ps).

Lemma get_u64_says k o : field k = NU64 <$> o -> Nvl.get_u64 l (str k) = Ok o.
Proof.
  intros Hk. rewrite <- (proj1 Hs) in Hk. destruct o; [now apply (get_u64_holds l ps)|]. now apply (get_none_holds _ l ps).
Qed.
Lemma get_flag_says k o : field k = NFlagged <$> o -> exists v, Nvl.get_u64 l (str k) = Ok v /\ as_flag v = o.
Proof.
  intros Hk. destruct o as [b|].
  - exists (Some (if b then 1 else 0)). split; [now apply get_u64_says|]. now destruct b.
  - exists None. split; [now apply get_u64_says|done].
Qed.
Lemma get_str_says k o : field k = NStr <$> o -> Nvl.get_str l (str k) = Ok o.
Proof.
  intros Hk. rewrite <- (proj1 Hs) in Hk. destruct o; [now apply (get_str_holds l ps)|]. now apply (get_none_holds _ l ps).
Qed.
Lemma need_u64_says {E} (nv : NvDecodeError -> E) missing k v : field k = Some (NU64 v) -> required nv missing Nvl.get_u64 l (str k) = Ok v.
Proof. intros Hk. unfold required. now rewrite (get_u64_says k (Some v) Hk). Qed.
Lemma need_str_says {E} (nv : NvDecodeError -> E) missing k v : field k = Some (NStr v) -> required nv missing Nvl.get_str l (str k) = Ok v.
Proof. intros Hk. unfold required. now rewrite (get_str_says k (Some v) Hk). Qed.
Lemma opt_u64_says {E} (nv : NvDecodeError -> E) k o : field k = NU64 <$> o -> map_err nv (Nvl.get_u64 l (str k)) = Ok o.
Proof. intros Hk. now rewrite (get_u64_says k o Hk). Qed.
Lemma opt_str_says {E} (nv : NvDecodeError -> E) k o : field k = NStr <$> o -> map_err nv (Nvl.get_str l (str k)) = Ok o.
Proof. intros Hk. now rewrite (get_str_says k o Hk). Qed.
Lemma get_list_says k u qs : field k = Some (NList u qs) -> exists l', Nvl.get_nv_list l (str k) = Ok (Some l') /\ holds l' qs.
Proof. intros Hk. rewrite <- (proj1 Hs) in Hk. now apply (get_nv_list_holds l ps _ u). Qed.
Lemma need_lists_says {E} (nv : NvDecodeError -> E) missing k ls : field k = Some (NLists ls) ->
  exists a xs, required nv missing Nvl.get_nv_list_array l (str k) = Ok a /\ Arr.lists a = Ok xs /\
    Forall2 (fun e x => holds x (snd e)) ls xs.
Proof.
  intros Hk. rewrite <- (proj1 Hs) in Hk. destruct (get_nv_list_array_holds l ps _ ls Hh Hk) as (a & Ha & Hw).
  assert (Hf : value_fits (NLists ls)).
  { unfold value_of in Hk. destruct (List.find _ ps) as [e|] eqn:Ef; [|done]. cbn in Hk. injection Hk as Hk. rewrite <- Hk.
    apply find_some in Ef as [Hin _]. destruct Hh as (_ & _ & Hps & _). unfold entries_fit in Hps. rewrite Forall_forall in Hps.
    now apply Hps, list_elem_of_In. }
  apply fits_lists in Hf as [Hf _]. destruct (lists_hold a ls Hw Hf) as (xs & Hxs & Hall). exists a, xs. unfold required. now rewrite Ha.
Qed.
Lemma check_says {E} (nv : NvDecodeError -> E) try_from unknown unexpected (expected : K -> bool) :
  (forall k, is_Some (field k) -> try_from (str k) = Ok k /\ expected k = true) ->
  check_keys nv try_from unknown unexpected expected l = Ok tt.
Proof.
  intros Hex. destruct Hs as [_ Hall]. rewrite Forall_forall in Hall. unfold check_keys.
  match goal with |- context [for_each l nv ?k] => pose proof (for_each_holds nv k (fun _ => false) l ps Hh) as H end.
  rewrite find_none_stop in H. rewrite H; [done|]. intros e p Hin [Hn _]. destruct (Hall e Hin) as (k & Hk & Hsome).
  rewrite Hn, Hk. destruct (Hex k Hsome) as [-> ->]. done.
Qed.
End lookups.

(** *** Children and trees *)
Inductive type_spec : Type :=
| SDisk (disk : LabelVdevTreeDisk) | SFile (file : LabelVdevTreeFile) | SMirror (children : list LabelVdevChild)
| SRaidZ (children : list LabelVdevChild) (parity : option Z).
Definition spec_type (sp : type_spec) : VdevType.t :=
  match sp with SDisk _ => VdevType.Disk | SFile _ => VdevType.File | SMirror _ => VdevType.Mirror | SRaidZ _ _ => VdevType.RaidZ end.
Definition spec_children (sp : type_spec) : list LabelVdevChild :=
  match sp with SDisk _ | SFile _ => [] | SMirror cs | SRaidZ cs _ => cs end.

Definition child_fields (c : LabelVdevChild) (k : VdevTreeKey.t) : option nvv :=
  match k with
  | VdevTreeKey.Id => Some (NU64 (ch_id c)) | VdevTreeKey.Guid => Some (NU64 (ch_guid c)) | VdevTreeKey.Path => Some (NStr (ch_path c))
  | VdevTreeKey.VdevType => Some (NStr (VdevType.str (ch_vdev_type c))) | VdevTreeKey.CreateTxg => NU64 <$> ch_create_txg c
  | _ => None
  end.
Abbreviation kids := (list (NvUnique.t * list entry)).
Definition type_fields (sp : type_spec) (ks : kids) (k : VdevTreeKey.t) : option nvv :=
  match sp, k with
  | SDisk d, VdevTreeKey.Path => Some (NStr (dk_path d))
  | SDisk d, VdevTreeKey.DevId => NStr <$> dk_dev_id d
  | SDisk d, VdevTreeKey.PhysPath => NStr <$> dk_phys_path d
  | SDisk d, VdevTreeKey.WholeDisk => NFlagged <$> dk_whole_disk d
  | SFile f, VdevTreeKey.Path => Some (NStr (fl_path f))
  | SMirror _, VdevTreeKey.Children => Some (NLists ks)
  | SRaidZ _ _, VdevTreeKey.Children => Some (NLists ks)
  | SRaidZ _ parity, VdevTreeKey.NParity => NU64 <$> parity
  | _, _ => None
  end.
Definition tree_fields (t : LabelVdevTree) (sp : type_spec) (ks : kids) (k : VdevTreeKey.t) : option nvv :=
  match k with
  | VdevTreeKey.AllocateShift => Some (NU64 (vt_allocate_shift t)) | VdevTreeKey.AllocateSize => Some (NU64 (vt_allocate_size t))
  | VdevTreeKey.Guid => Some (NU64 (vt_guid t)) | VdevTreeKey.Id => Some (NU64 (vt_id t))
  | VdevTreeKey.MetaSlabArray => Some (NU64 (vt_metaslab_array t)) | VdevTreeKey.MetaSlabShift => Some (NU64 (vt_metaslab_shift t))
  | VdevTreeKey.CreateTxg => NU64 <$> vt_create_txg t | VdevTreeKey.IsLog => NFlagged <$> vt_is_log t
  | VdevTreeKey.VdevType => Some (NStr (VdevType.str (spec_type sp)))
  | _ => type_fields sp ks k
  end.
Definition kids_say (cs : list LabelVdevChild) (ks : kids) : Prop := Forall2 (fun kid c => tree_says (child_fields c) (snd kid)) ks cs.

(** The decoded type, with the children that its array decodes to. *)
Definition kids_decode (cs : list LabelVdevChild) (a : NvArray) : Prop :=
  exists xs, Arr.lists a = Ok xs /\ Forall2 (fun x c => Child.from_list x = Ok c) xs cs.
Definition type_decodes (sp : type_spec) (ty : LabelVdevTreeType) : Prop :=
  match sp, ty with
  | SDisk d, TyDisk d' => d' = d
  | SFile f, TyFile f' => f' = f
  | SMirror cs, TyMirror m => kids_decode cs (mr_children m)
  | SRaidZ cs parity, TyRaidZ r => rz_parity r = parity /\ kids_decode cs (rz_children r)
  | _, _ => False
  end.
Definition with_type (t : LabelVdevTree) (ty : LabelVdevTreeType) : LabelVdevTree := {|
  vt_allocate_shift := vt_allocate_shift t; vt_allocate_size := vt_allocate_size t; vt_guid := vt_guid t; vt_id := vt_id t;
  vt_metaslab_array := vt_metaslab_array t; vt_metaslab_shift := vt_metaslab_shift t; vt_vdev_type := ty;
  vt_create_txg := vt_create_txg t; vt_is_log := vt_is_log t |}.

(** The next lookup of a decoder, on a list that says what is looked up. *)
Ltac said_step E := rewrite E; cbn [mbind outcome_bind].
Ltac said Hh Hs := lazymatch goal with |- (?m ≫= _) = _ =>
  let E := fresh in eassert (E : m = Ok _);
  [ first [ eapply (need_u64_says _ _ _ _ Hh Hs); reflexivity | eapply (need_str_says _ _ _ _ Hh Hs); reflexivity
          | eapply (opt_u64_says _ _ _ _ Hh Hs); reflexivity | eapply (opt_str_says _ _ _ _ Hh Hs); reflexivity ]
  | said_step E; clear E ] end.
Ltac said_flag Hh Hs k := let v := fresh "v" in let Hv := fresh "Hv" in let Hf := fresh "Hf" in
  edestruct (get_flag_says _ _ _ _ Hh Hs k) as (v & Hv & Hf); [reflexivity|]; rewrite Hv; cbn [map_err mbind outcome_bind].

Lemma type_known ty : TreeType.type_from_str (VdevType.str ty) = Ok ty.
Proof. unfold TreeType.type_from_str. now rewrite (proj2 (VdevType.vdev_type_exact _ ty) eq_refl). Qed.
Lemma tree_key_known k : VdevTreeKey.try_from (VdevTreeKey.str k) = Ok k.
Proof. now apply VdevTreeKey.vdev_tree_key_exact. Qed.

Lemma child_decodes l ps c : holds l ps -> tree_says (child_fields c) ps -> Child.from_list l = Ok c.
Proof.
  intros Hh Hs. unfold Child.from_list. do 4 said Hh Hs. rewrite type_known. cbn [mbind outcome_bind]. said Hh Hs.
  rewrite (check_says _ _ _ _ Hh Hs); [now destruct c|]. intros k [v Hv]. split; [apply tree_key_known|].
  destruct k; try discriminate; reflexivity.
Qed.
Lemma kids_decoded cs ks xs :
  kids_say cs ks -> Forall2 (fun e x => holds x (snd e)) ks xs -> Forall2 (fun x c => Child.from_list x = Ok c) xs cs.
Proof.
  intros Hk. revert xs. induction Hk as [|kid c ks cs Hc _ IH]; intros xs Hx; inversion Hx; subst; constructor; [|now apply IH].
  eapply child_decodes; eauto.
Qed.
Lemma disk_decodes l ps t d ks : holds l ps -> tree_says (tree_fields t (SDisk d) ks) ps -> TreeDisk.from_list l = Ok d.
Proof. intros Hh Hs. unfold TreeDisk.from_list. do 3 said Hh Hs. said_flag Hh Hs VdevTreeKey.WholeDisk. rewrite Hf. now destruct d. Qed.
Lemma file_decodes l ps t f ks : holds l ps -> tree_says (tree_fields t (SFile f) ks) ps -> TreeFile.from_list l = Ok f.
Proof. intros Hh Hs. unfold TreeFile.from_list. said Hh Hs. now destruct f. Qed.
Lemma type_of_decodes l ps t sp ks :
  holds l ps -> tree_says (tree_fields t sp ks) ps -> kids_say (spec_children sp) ks ->
  exists ty ex, TreeType.from_list (spec_type sp) l = Ok (ty, ex) /\ type_decodes sp ty /\
    forall k, is_Some (tree_fields t sp ks k) -> contains Tree.EXPECTED k || contains ex k = true.
Proof.
  intros Hh Hs Hk. destruct sp as [d|f|cs|cs parity]; cbn [spec_type TreeType.from_list spec_children] in *.
  - rewrite (disk_decodes l ps t d ks Hh Hs). eexists _, _. split; [reflexivity|]. split; [done|]. intros k [v' Hv']. destruct k; try discriminate; reflexivity.
  - rewrite (file_decodes l ps t f ks Hh Hs). eexists _, _. split; [reflexivity|]. split; [done|]. intros k [v' Hv']. destruct k; try discriminate; reflexivity.
  - unfold TreeMirror.from_list. destruct (need_lists_says _ _ _ _ Hh Hs TNv TMissing VdevTreeKey.Children ks eq_refl) as (a & xs & Ha & Hx & Hall).
    rewrite Ha. cbn [mbind outcome_bind]. eexists _, _. split; [reflexivity|]. split.
    + exists xs. split; [exact Hx|eapply kids_decoded; eauto].
    + intros k [v' Hv']. destruct k; try discriminate; reflexivity.
  - unfold TreeRaidZ.from_list. destruct (need_lists_says _ _ _ _ Hh Hs TNv TMissing VdevTreeKey.Children ks eq_refl) as (a & xs & Ha & Hx & Hall).
    rewrite Ha. cbn [mbind outcome_bind]. rewrite (opt_u64_says _ _ _ _ Hh Hs TNv VdevTreeKey.NParity parity eq_refl).
    cbn [mbind outcome_bind]. eexists _, _. split; [reflexivity|]. split.
    + split; [done|]. exists xs. split; [exact Hx|eapply kids_decoded; eauto].
    + intros k [v' Hv']. destruct k; try discriminate; reflexivity.
Qed.
Lemma tree_decodes l ps t sp ks :
  holds l ps -> tree_says (tree_fields t sp ks) ps -> kids_say (spec_children sp) ks ->
  exists ty, Tree.from_list l = Ok (with_type t ty) /\ type_decodes sp ty.
Proof.
  intros Hh Hs Hk. destruct (type_of_decodes l ps t sp ks Hh Hs Hk) as (ty & ex & Hty & Hd & Hex). exists ty. split; [|exact Hd].
  unfold Tree.from_list. do 7 said Hh Hs. said_flag Hh Hs VdevTreeKey.IsLog. said Hh Hs. rewrite type_known. cbn [mbind outcome_bind].
  rewrite Hty. cbn [mbind outcome_bind]. rewrite (check_says _ _ _ _ Hh Hs); [|intros k Hsome; split; [apply tree_key_known|now apply Hex]].
  cbn [mbind outcome_bind]. rewrite Hf. reflexivity.
Qed.

(** *** Configurations *)
Definition spare_fields (c : LabelConfigSpare) (k : PoolConfigKey.t) : option nvv :=
  match k with
  | PoolConfigKey.Guid => Some (NU64 (sp_guid c)) | PoolConfigKey.State => Some (NU64 (PoolState.into_u64 PoolState.Spare))
  | PoolConfigKey.Version => Some (NU64 (SpaVersion.into_u64 (sp_version c)))
  | _ => None
  end.
Definition storage_fields (c : LabelConfigStorage) (tree : nvv) (features : option nvv) (k : PoolConfigKey.t) : option nvv :=
  match k with
  | PoolConfigKey.Guid => Some (NU64 (st_guid c)) | PoolConfigKey.Name => Some (NStr (st_name c))
  | PoolConfigKey.PoolGuid => Some (NU64 (st_pool_guid c)) | PoolConfigKey.State => Some (NU64 (PoolState.into_u64 (st_state c)))
  | PoolConfigKey.TopGuid => Some (NU64 (st_top_guid c)) | PoolConfigKey.Txg => Some (NU64 (st_txg c))
  | PoolConfigKey.VdevTree => Some tree | PoolConfigKey.Version => Some (NU64 (SpaVersion.into_u64 (st_version c)))
  | PoolConfigKey.Comment => NStr <$> st_comment c
  | PoolConfigKey.Compatibility => NStr <$> (Compat.into_str <$> st_compatibility c)
  | PoolConfigKey.Errata => NU64 <$> (PoolErrata.into_u64 <$> st_errata c)
  | PoolConfigKey.HostId => NU64 <$> st_host_id c | PoolConfigKey.HostName => NStr <$> st_host_name c
  | PoolConfigKey.IsLog => NFlagged <$> st_is_log c | PoolConfigKey.IsSpare => NFlagged <$> st_is_spare c
  | PoolConfigKey.FeaturesForRead => features | PoolConfigKey.SplitGuid => NU64 <$> st_split_guid c
  | PoolConfigKey.VdevChildren => NU64 <$> st_vdev_children c | PoolConfigKey.AllocateShift => None
  end.
(** A storage configuration, what its tree is and the features it lists, as entries. *)
Definition storage_says (c : LabelConfigStorage) (sp : type_spec) (fl : option (list (Feature.t * Z))) (ps : list entry) : Prop :=
  Storage.is_storage (st_state c) = true /\
  (forall x, st_compatibility c = Some x -> Compat.from (Compat.into_str x) = x) /\
  exists u v tps ks, config_says (storage_fields c (NList u tps) ((fun fl => NList v (FSet.flags_of fl)) <$> fl)) ps /\
    tree_says (tree_fields (st_vdev_tree c) sp ks) tps /\ kids_say (spec_children sp) ks.
Definition with_parts (c : LabelConfigStorage) (t : LabelVdevTree) (fs : option FeatureSet) : LabelConfigStorage := {|
  st_guid := st_guid c; st_name := st_name c; st_pool_guid := st_pool_guid c; st_state := st_state c; st_top_guid := st_top_guid c;
  st_txg := st_txg c; st_vdev_tree := t; st_version := st_version c; st_comment := st_comment c;
  st_compatibility := st_compatibility c; st_errata := st_errata c; st_host_id := st_host_id c; st_host_name := st_host_name c;
  st_is_log := st_is_log c; st_is_spare := st_is_spare c; st_features_for_read := fs; st_split_guid := st_split_guid c;
  st_vdev_children := st_vdev_children c |}.
Definition features_decode (fl : option (list (Feature.t * Z))) (fs : option FeatureSet) : Prop :=
  match fl, fs with
  | Some fl, Some s => FSet.members s = list_to_set (fst <$> fl)
  | None, None => True
  | _, _ => False
  end.

Lemma config_key_known k : k <> PoolConfigKey.AllocateShift -> PoolConfigKey.try_from (PoolConfigKey.str k) = Ok k.
Proof. intros. now apply PoolConfigKey.pool_config_key_exact. Qed.

Section config.
Context (field : PoolConfigKey.t -> option nvv) (l : NvList) (ps : list entry) (Hh : holds l ps) (Hs : config_says field ps).

Lemma state_says st : field PoolConfigKey.State = Some (NU64 (PoolState.into_u64 st)) -> config_state l = Ok st.
Proof.
  intros Hk. unfold config_state. rewrite (need_u64_says _ _ _ _ Hh Hs _ _ _ _ Hk). cbn [mbind outcome_bind].
  now rewrite (proj2 (PoolState.pool_state_exact _ st) eq_refl).
Qed.
Lemma version_says v : field PoolConfigKey.Version = Some (NU64 (SpaVersion.into_u64 v)) -> config_version l = Ok v.
Proof.
  intros Hk. unfold config_version. rewrite (need_u64_says _ _ _ _ Hh Hs _ _ _ _ Hk). cbn [mbind outcome_bind].
  destruct (SpaVersion.spa_roundtrip v) as (_ & -> & _). done.
Qed.
Lemma config_check_says expected :
  (forall k, is_Some (field k) -> k <> PoolConfigKey.AllocateShift /\ contains expected k = true) -> config_check expected l = Ok tt.
Proof.
  intros Hex. apply (check_says _ _ _ _ Hh Hs). intros k Hk. destruct (Hex k Hk). split; [now apply config_key_known|done].
Qed.
End config.

Lemma spare_decodes l ps c : holds l ps -> config_says (spare_fields c) ps -> Spare.from_list l = Ok c.
Proof.
  intros Hh Hs. unfold Spare.from_list. rewrite (state_says _ _ _ Hh Hs PoolState.Spare eq_refl).
  cbn [mbind outcome_bind]. rewrite bool_decide_true by done. cbn [mbind outcome_bind negb guard_err]. said Hh Hs. rewrite (version_says _ _ _ Hh Hs (sp_version c) eq_refl). cbn [mbind outcome_bind].
  rewrite (config_check_says _ _ _ Hh Hs); [now destruct c|]. intros k [v Hv]. destruct k; try discriminate; now split.
Qed.

Lemma features_said l ps field v fl :
  holds l ps -> config_says field ps -> field PoolConfigKey.FeaturesForRead = (fun fl => NList v (FSet.flags_of fl)) <$> fl ->
  exists o fs, Nvl.get_nv_list l (PoolConfigKey.str PoolConfigKey.FeaturesForRead) = Ok o /\
    Storage.if_some (fun x => map_err CFeatureSet (FSet.from_nv_list x)) o = Ok fs /\ features_decode fl fs.
Proof.
  intros Hh Hs Hf. destruct fl as [fl|]; cbn [fmap option_fmap option_map] in Hf.
  - destruct (get_list_says _ _ _ _ Hh Hs _ _ _ Hf) as (l' & Hg & Hl'). destruct (FSet.from_nv_list_flags l' fl Hl') as (s & Hd & _ & Hm).
    exists (Some l'), (Some s). split; [exact Hg|]. cbn [Storage.if_some]. now rewrite Hd.
  - exists None, None. split; [|done]. rewrite <- (proj1 Hs) in Hf. now apply (get_none_holds _ l ps).
Qed.
Lemma errata_said o : Storage.if_some (fun v => map_err CPoolErrata (PoolErrata.try_from v)) (PoolErrata.into_u64 <$> o) = Ok o.
Proof. destruct o as [e|]; [|done]. cbn. now rewrite (proj2 (PoolErrata.pool_errata_exact _ e) eq_refl). Qed.
Lemma compatibility_said (o : option Compatibility) :
  (forall x, o = Some x -> Compat.from (Compat.into_str x) = x) -> Compat.from <$> (Compat.into_str <$> o) = o.
Proof. intros H. destruct o as [x|]; [|done]. cbn. f_equal. now apply H. Qed.

Lemma storage_decodes l ps c sp fl : holds l ps -> storage_says c sp fl ps ->
  exists ty fs, Storage.from_list l = Ok (with_parts c (with_type (st_vdev_tree c) ty) fs) /\ type_decodes sp ty /\ features_decode fl fs.
Proof.
  intros Hh (Hst & Hco & u & v & tps & ks & Hs & Ht & Hk).
  destruct (get_list_says _ _ _ _ Hh Hs PoolConfigKey.VdevTree u tps eq_refl) as (tl & Htl & Htl').
  destruct (tree_decodes tl tps (st_vdev_tree c) sp ks Htl' Ht Hk) as (ty & Hty & Hd).
  destruct (features_said l ps _ v fl Hh Hs eq_refl) as (o & fs & Ho & Hfs & Hfd). exists ty, fs. split; [|done].
  unfold Storage.from_list. do 3 said Hh Hs. rewrite (state_says _ _ _ Hh Hs (st_state c) eq_refl). cbn [mbind outcome_bind].
  rewrite Hst. cbn [mbind outcome_bind negb guard_err].
  do 2 said Hh Hs. unfold required at 1. rewrite Htl. cbn [map_err mbind outcome_bind ok_or]. rewrite Hty. cbn [map_err mbind outcome_bind].
  rewrite (version_says _ _ _ Hh Hs (st_version c) eq_refl). cbn [mbind outcome_bind]. do 3 said Hh Hs.
  rewrite errata_said. cbn [mbind outcome_bind]. do 2 said Hh Hs. said_flag Hh Hs PoolConfigKey.IsLog. said_flag Hh Hs PoolConfigKey.IsSpare.
  rewrite Ho. cbn [map_err mbind outcome_bind]. rewrite Hfs. cbn [mbind outcome_bind]. do 2 said Hh Hs.
  rewrite (config_check_says _ _ _ Hh Hs).
  - cbn [mbind outcome_bind]. rewrite Hf, Hf0, compatibility_said by exact Hco. reflexivity.
  - intros k [w Hw]. destruct k; try discriminate; now split.
Qed.

(** C33: A label's configuration reads back.  A list that says a storage configuration, under
    its keys and in any order, decodes to that configuration: every field, the vdev
    tree with the fields of its type, the children of a mirror or a RAID-Z one by one, and
    the set of features.  A list that says a spare decodes to that spare. *)
Theorem label_config_reads_back (l : NvList) (ps : list entry) :
  holds l ps ->
  (forall c sp fl, storage_says c sp fl ps ->
     exists ty fs, Config.from_list l = Ok (CfStorage (with_parts c (with_type (st_vdev_tree c) ty) fs)) /\
       type_decodes sp ty /\ features_decode fl fs) /\
  (forall c, config_says (spare_fields c) ps -> Config.from_list l = Ok (CfSpare c)).
Proof.
  intros Hh. split.
  - intros c sp fl Hc. destruct (storage_decodes l ps c sp fl Hh Hc) as (ty & fs & Hd & Hty & Hfs). exists ty, fs. split; [|done].
    destruct Hc as (Hst & _ & u & v & tps & ks & Hs & _). unfold Config.from_list. rewrite (state_says _ _ _ Hh Hs (st_state c) eq_refl), Hd.
    cbn [mbind outcome_bind]. now destruct (st_state c).
  - intros c Hs. unfold Config.from_list. rewrite (state_says _ _ _ Hh Hs PoolState.Spare eq_refl), (spare_decodes l ps c Hh Hs). done.
Qed.

(** Decoding the configuration of any list that can be reached from any bytes ends in a
    configuration or an error, and so does decoding the children it leads to; none of
    them panics. *)
Theorem label_config_total (data : bytes) (l : NvList) :
  bytes_ok data -> nv_reach data l ->
  Config.from_list l <> Panic /\ Child.from_list l <> Panic /\
  forall s a, Config.from_list l = Ok (CfStorage s) -> TreeType.children (vt_vdev_type (st_vdev_tree s)) = Some a ->
    Arr.lists a <> Panic /\ forall xs x, Arr.lists a = Ok xs -> x ∈ xs -> Child.from_list x <> Panic.
Proof.
  intros Hd Hl. destruct (reach_in data l Hd Hl) as [Hok _]. pose proof (storage_safe l Hok) as Hst.
  assert (Hc : safe (fun c => match c with CfStorage s => type_ok (vt_vdev_type (st_vdev_tree s)) | _ => True end) (Config.from_list l)).
  { unfold Config.from_list. eapply safe_bind; [now apply state_safe|]. intros st _. destruct st.
    1-3: eapply safe_bind; [exact Hst|]; now intros.
    - eapply (safe_bind (fun _ => True)); [|done]. unfold Spare.from_list. eapply safe_bind; [now apply state_safe|]. intros s _. do 2 lstep.
      eapply safe_bind; [now apply version_safe|]. intros v _. eapply safe_bind; [now apply config_check_safe|]. done.
    - eapply (safe_bind (fun _ => True)); [|done]. unfold L2Cache.from_list. eapply safe_bind; [now apply state_safe|]. intros s _. do 3 lstep.
      eapply safe_bind; [now apply version_safe|]. intros v _. eapply safe_bind; [now apply config_check_safe|]. done. }
  split; [exact (safe_panic _ _ Hc)|]. split; [exact (safe_panic _ _ (child_safe l Hok))|]. intros s a Hs Ha.
  pose proof (safe_ok _ _ _ Hc Hs) as Hty. cbn in Hty. unfold type_ok in Hty. rewrite Ha in Hty. pose proof (lists_safe a Hty) as Hls.
  split; [exact (safe_panic _ _ Hls)|]. intros xs x Hxs Hin. pose proof (safe_ok _ _ _ Hls Hxs) as Hall. rewrite Forall_forall in Hall.
  exact (safe_panic _ _ (child_safe x (Hall x Hin))).
Qed.

(** *** A mirror *)

(** Entries by key say what looking the keys up says. *)
Definition keyed {K} (str : K -> bytes) (kvs : list (K * Z * nvv)) : list entry := (fun '(k, d, v) => (str k, d, v)) <$> kvs.
Definition key_value {K} `{EqDecision K} (kvs : list (K * Z * nvv)) (k : K) : option nvv :=
  snd <$> List.find (fun e => bool_decide (fst (fst e) = k)) kvs.
Lemma keyed_says {K} `{EqDecision K} (str : K -> bytes) (Hinj : forall k k', str k = str k' -> k = k') (field : K -> option nvv) kvs :
  (forall k, key_value kvs k = field k) -> says str field (keyed str kvs).
Proof.
  intros Hf. assert (Hv : forall k, value_of (keyed str kvs) (str k) = key_value kvs k).
  { intros k. clear Hf. unfold value_of, key_value. induction kvs as [|[[k' d] v] kvs IH]; [done|]. cbn. unfold named at 1. cbn [fst].
    destruct (decide (k' = k)) as [->|Hne].
    - rewrite !bool_decide_true by done. done.
    - rewrite !bool_decide_false by (intros E; apply Hne; first [exact E|now apply Hinj]). exact IH. }
  split; [intros k; now rewrite Hv|]. apply Forall_fmap, Forall_forall. intros [[k d] v] Hin. exists k. split; [done|].
  rewrite <- Hf. unfold key_value. destruct (List.find _ kvs) as [e|] eqn:E; [now eexists|]. exfalso.
  apply list_elem_of_In in Hin. pose proof (find_none _ _ E _ Hin) as Hn. cbn in Hn. now rewrite bool_decide_true in Hn.
Qed.
Lemma config_keyed field kvs : (forall k, key_value kvs k = field k) -> config_says field (keyed PoolConfigKey.str kvs).
Proof. apply keyed_says. intros k k' E. now apply ascii_bytes_inj, (inj PoolConfigKey.name) in E. Qed.
Lemma tree_keyed field kvs : (forall k, key_value kvs k = field k) -> tree_says field (keyed VdevTreeKey.str kvs).
Proof. apply keyed_says. intros k k' E. now apply ascii_bytes_inj, (inj VdevTreeKey.name) in E. Qed.

Definition sample_child (id : Z) : LabelVdevChild := {|
  ch_guid := 100 + id; ch_id := id; ch_path := ascii_bytes "/dev/sda"; ch_vdev_type := VdevType.Disk; ch_create_txg := Some 4 |}.
Definition child_entries (c : LabelVdevChild) : NvUnique.t * list entry := (NvUnique.Name, keyed VdevTreeKey.str [
  (VdevTreeKey.VdevType, 48, NStr (VdevType.str (ch_vdev_type c))); (VdevTreeKey.Id, 32, NU64 (ch_id c));
  (VdevTreeKey.Guid, 32, NU64 (ch_guid c)); (VdevTreeKey.Path, 64, NStr (ch_path c)); (VdevTreeKey.CreateTxg, 40, NU64 4)]).
Definition sample_spec : type_spec := SMirror [sample_child 0; sample_child 1].
Definition sample_label_tree : LabelVdevTree := {|
  vt_allocate_shift := 12; vt_allocate_size := 2 ^ 30; vt_guid := 99; vt_id := 0; vt_metaslab_array := 256; vt_metaslab_shift := 29;
  vt_vdev_type := TyFile {| fl_path := [] |}; vt_create_txg := Some 4; vt_is_log := Some false |}.
Definition sample_tree_entries : list entry := keyed VdevTreeKey.str [
  (VdevTreeKey.VdevType, 48, NStr (ascii_bytes "mirror")); (VdevTreeKey.Id, 32, NU64 0); (VdevTreeKey.Guid, 32, NU64 99);
  (VdevTreeKey.MetaSlabArray, 48, NU64 256); (VdevTreeKey.MetaSlabShift, 48, NU64 29); (VdevTreeKey.AllocateShift, 40, NU64 12);
  (VdevTreeKey.AllocateSize, 40, NU64 (2 ^ 30)); (VdevTreeKey.IsLog, 40, NU64 0); (VdevTreeKey.CreateTxg, 40, NU64 4);
  (VdevTreeKey.Children, 80, NLists [child_entries (sample_child 0); child_entries (sample_child 1)])].
Definition sample_storage : LabelConfigStorage := {|
  st_guid := 100; st_name := ascii_bytes "tank"; st_pool_guid := 5; st_state := PoolState.Active; st_top_guid := 99; st_txg := 77;
  st_vdev_tree := sample_label_tree; st_version := SpaVersion.V5000; st_comment := None; st_compatibility := Some Legacy;
  st_errata := Some PoolErrata.None; st_host_id := Some 1; st_host_name := Some (ascii_bytes "host"); st_is_log := None;
  st_is_spare := None; st_features_for_read := None; st_split_guid := None; st_vdev_children := Some 1 |}.
Definition sample_storage_entries : list entry := keyed PoolConfigKey.str [
  (PoolConfigKey.Version, 40, NU64 5000); (PoolConfigKey.Name, 40, NStr (ascii_bytes "tank")); (PoolConfigKey.State, 40, NU64 0);
  (PoolConfigKey.Txg, 40, NU64 77); (PoolConfigKey.PoolGuid, 40, NU64 5); (PoolConfigKey.Errata, 40, NU64 0);
  (PoolConfigKey.HostId, 40, NU64 1); (PoolConfigKey.HostName, 40, NStr (ascii_bytes "host"));
  (PoolConfigKey.TopGuid, 40, NU64 99); (PoolConfigKey.Guid, 40, NU64 100); (PoolConfigKey.VdevChildren, 40, NU64 1);
  (PoolConfigKey.VdevTree, 64, NList NvUnique.Name sample_tree_entries);
  (PoolConfigKey.Compatibility, 40, NStr (ascii_bytes "legacy"));
  (PoolConfigKey.FeaturesForRead, 64, NList NvUnique.Name (FSet.flags_of sample_flags))].
Lemma sample_storage_says : storage_says sample_storage sample_spec (Some sample_flags) sample_storage_entries.
Proof.
  split; [done|]. split; [now intros x [= <-]|].
  exists NvUnique.Name, NvUnique.Name, sample_tree_entries, [child_entries (sample_child 0); child_entries (sample_child 1)]. splits.
  - apply config_keyed. intros []; reflexivity.
  - apply tree_keyed. intros []; reflexivity.
  - constructor; [|constructor; [|constructor]]; cbn [snd child_entries]; apply tree_keyed; intros []; reflexivity.
Qed.
Lemma sample_storage_fits : entries_fit sample_storage_entries.
Proof.
  unfold sample_storage_entries, sample_tree_entries, child_entries, FSet.flags_of, sample_flags, keyed. cbn [fmap list_fmap fst snd]. fit_solve.
Qed.

Lemma label_config_reads_back_witness :
  exists l ty fs, from_bytes (packed (NvUnique.Name, sample_storage_entries) ++ [0; 0; 0]) = Ok l /\
    Config.from_list l = Ok (CfStorage (with_parts sample_storage (with_type sample_label_tree ty) fs)) /\
    type_decodes sample_spec ty /\ features_decode (Some sample_flags) fs.
Proof.
  destruct (packed_holds NvUnique.Name sample_storage_entries [0; 0; 0] sample_storage_fits (bytes_ok_by [0; 0; 0] eq_refl)) as (l & Hl & Hh).
  exists l. destruct (label_config_reads_back l sample_storage_entries Hh) as [H _].
  destruct (H sample_storage sample_spec (Some sample_flags) sample_storage_says) as (ty & fs & Hd & Hty & Hfs). exists ty, fs.
  exact (conj Hl (conj Hd (conj Hty Hfs))).
Defined.
(** An empty list, in big-endian XDR. *)
Definition empty_list : bytes := [1; 0; 0; 0] ++ zrep 16 0.
Lemma label_config_total_witness : exists l, from_bytes empty_list = Ok l /\ Config.from_list l <> Panic.
Proof.
  destruct (from_bytes empty_list) as [l|e|] eqn:E; [|vm_compute in E; discriminate|vm_compute in E; discriminate].
  exists l. split; [reflexivity|]. apply (label_config_total empty_list l); [|exact (reach_root _ _ E)].
  exact (bytes_ok_by empty_list eq_refl).
Defined.
