(* ===== verification/Pool.v ===== *)
(** * Importing a pool (src/pool.rs)

    A pool is imported from the configuration in the label of its first member:
    the layout of its one top-level vdev is matched with the members that are
    present, the newest uberblock of their labels is selected, and the object
    directory that it leads to is checked for features that reading
    must understand. *)

From S2P Require Import Prelude Errors Decoder Encoder Codec Types Dva BlockPointer Fletcher Sha256 LabelChecksum Cksum Compress.
From S2P Require Import Vdev Heal Dnode FileRead ObjectSet Zap Walk WalkSafe Dsl Dataset Uberblock Label Nv NvSpec.

Open Scope Z_scope.
Open Scope list_scope.

Definition L0_NVPAIRS_BYTE : Z := 16 * 1024.
Definition L0_NVPAIRS_SECTOR : Z := Z.shiftr L0_NVPAIRS_BYTE 9.
Definition LABEL_SIZE : Z := 256 * 1024.
Definition LABEL_UBERBLOCK_OFFSET : Z := 128 * 1024.
Definition MOS_OBJECT_DIRECTORY : Z := 1.
Definition UBERBLOCK_ARRAY_SIZE : Z := 128 * 1024.
Definition UBERBLOCK_SHIFT_MIN : Z := 10.
Definition UBERBLOCK_SHIFT_MAX : Z := 13.

Record ImportedPool : Type := {
  pool_guid : Z;
  pool_name : bytes;
  topology : Topology;
  uberblock : UberBlock;
  mos_dnode : Dnode;
  pool_order : EndianOrder
}.

(** ** Looking keys up in the configuration *)
Definition nv_decode : NvDecodeError -> Error := fun _ => Inconsistent "nv_decode" (LVdev 0).
Definition nv_find (list : NvList) (key : string) : outcome Error NvPair :=
  r ← for_each list nv_decode (fun p => Ok (if bool_decide (pair_name p = ascii_bytes key) then Some p else None));
  ok_or r (NotFound key).
Definition nv_has (list : NvList) (key : string) : outcome Error bool :=
  match nv_find list key with
  | Ok _ => Ok true
  | Err (NotFound _) => Ok false
  | Err e => Err e
  | Panic => Panic
  end.
Definition nv_typed {A} (token : string) (get : NvPair -> outcome NvDecodeError A) (list : NvList) (key : string) : outcome Error A :=
  pair ← nv_find list key; map_err (fun _ => Inconsistent token (LVdev 0)) (get pair).
Definition nv_u64 : NvList -> string -> outcome Error Z := nv_typed "nv_u64" Pair.get_u64.
Definition nv_str : NvList -> string -> outcome Error bytes := nv_typed "nv_str" Pair.get_str.
Definition nv_nvlist : NvList -> string -> outcome Error NvList := nv_typed "nv_nvlist" Pair.get_nv_list.

(** The guids of the children, up to the first that fails. *)
Fixpoint guids_loop (a : NvArray) (n : nat) : SM BinaryDecoderBuffer Error (list Z) :=
  match n with
  | O => mret []
  | S n' =>
      child ← sm_map_err (fun _ => Inconsistent "nv_child" (LVdev 0)) (next_list a);
      guid ← sm_lift (nv_u64 child "guid");
      out ← guids_loop a n';
      mret (guid :: out)
  end.
Definition nv_child_guids (vtree : NvList) : outcome Error (list Z) :=
  pair ← nv_find vtree "children";
  array ← map_err (fun _ => Inconsistent "nv_children" (LVdev 0)) (Pair.get_nv_list_array pair);
  if Arr.is_empty array then Ok []
  else
    b ← map_err (fun _ => Inconsistent "nv_child" (LVdev 0)) (Arr.iter array);
    fst (guids_loop array (Z.to_nat (arr_count array)) b).

(** ** Features *)
Definition READ_FEATURES_UNDERSTOOD : list string := [
  "com.datto:encryption";
  "org.illumos:lz4_compress";
  "org.freebsd:zstd_compress";
  "com.delphix:embedded_data";
  "com.delphix:hole_birth";
  "org.open-zfs:large_blocks";
  "org.zfsonlinux:large_dnode";
  "com.delphix:extensible_dataset";
  "com.klarasystems:vdev_zaps_v2";
  "com.delphix:head_errlog";
  "com.delphix:bookmarks";
  "com.datto:bookmark_v2";
  "com.delphix:bookmark_written";
  "com.delphix:redaction_bookmarks";
  "com.joyent:multi_vdev_crash_dump";
  "org.zfsonlinux:longname";
  "org.illumos:sha512";
  "org.illumos:skein";
  "org.illumos:edonr";
  "org.openzfs:blake3" ]%string.
Definition REFUSED_FEATURE_TOKENS : list string := [
  "raidz_expansion";
  "device_removal";
  "draid";
  "dynamic_gang_header";
  "redacted_datasets";
  "redaction_list_spill" ]%string.

(** [rsplit(':').next()]: what follows the last colon. *)
Fixpoint after_last_colon (acc l : bytes) : bytes :=
  match l with
  | [] => acc
  | c :: l' => if c =? 58 then after_last_colon l' l' else after_last_colon acc l'
  end.
Definition understood (guid : bytes) : bool := existsb (fun s => bool_decide (ascii_bytes s = guid)) READ_FEATURES_UNDERSTOOD.
Definition check_read_feature (guid : bytes) : outcome Error unit :=
  if understood guid then Ok tt
  else
    let short := after_last_colon guid guid in
    Err (UnsupportedFeature
           (default "feat_unknown_read_incompat"%string
              (List.find (fun t => bool_decide (ascii_bytes t = short)) REFUSED_FEATURE_TOKENS))).

(** ** Labels *)
(** No subtraction underflows: [end] is at most the size, and at least four labels. *)
Definition label_offsets (device_size : Z) : list Z :=
  let end_ := device_size - device_size mod LABEL_SIZE in
  [0; LABEL_SIZE] ++ (if 4 * LABEL_SIZE <=? end_ then [end_ - 2 * LABEL_SIZE; end_ - LABEL_SIZE] else []).

Section import.
Context {B : Build} {R : Type} `{BlockRead R}.
Abbreviation M := (SM (list (PoolMember R)) Error).
Abbreviation MM := (SM (PoolMember R) Error).

(** [read_exact(&mut member.reader, ..)]. *)
Definition member_exact (offset len vdev : Z) (token : string) : MM bytes :=
  fun m => let '(r, rd) := read_exact offset len vdev token (reader m) in (r, Build_PoolMember rd (device_size_bytes m)).
(** [&mut members[i]], which panics out of range. *)
Definition at_member {A} (i : Z) (m : MM A) : M A :=
  fun ms => match zget ms i with
            | None => (Panic, ms)
            | Some x => let '(r, x') := m x in (r, <[Z.to_nat i := x']> ms)
            end.

Definition read_nvpairs : MM bytes := member_exact L0_NVPAIRS_BYTE LabelNvPairs.SIZE 0 "io_nvpairs".
(** The configuration in the first label. *)
Definition label_config (buf : bytes) : outcome Error NvList :=
  nvp ← map_err (fun _ => BadLabel BadChecksum) (LabelNvPairs.from_bytes x86 buf L0_NVPAIRS_SECTOR);
  map_err (fun _ => BadLabel BadMagic) (Nv.from_bytes (payload nvp)).

Definition peek_pool_id : MM (Z * bytes) :=
  buf ← read_nvpairs;
  config ← sm_lift (label_config buf);
  guid ← sm_lift (nv_u64 config "pool_guid");
  name ← sm_lift (nv_str config "name");
  mret (guid, name).

(** The first member whose label has the guid: a label that does not decode is passed over,
    a read that fails is not. *)
Fixpoint find_member_from (guid : Z) (n : nat) (i : Z) : M Z :=
  match n with
  | O => sm_err (BadLabel PoolGuidMismatch)
  | S n' =>
      buf ← at_member i read_nvpairs;
      match config ← label_config buf; nv_u64 config "guid" with
      | Ok g => if g =? guid then mret i else find_member_from guid n' (i + 1)
      | Err _ => find_member_from guid n' (i + 1)
      | Panic => sm_panic
      end
  end.
Definition find_member_by_guid (guid : Z) : M Z := fun ms => find_member_from guid (length ms) 0 ms.

Fixpoint mirror_children (guids : list Z) : M (list Z) :=
  match guids with
  | [] => mret []
  | guid :: guids' => i ← find_member_by_guid guid; idx ← mirror_children guids'; mret (i :: idx)
  end.
(** [find_member_by_guid(..).ok()]. *)
Fixpoint raidz_children (guids : list Z) : M (list (option Z)) :=
  match guids with
  | [] => mret []
  | guid :: guids' =>
      m ← sm_catch (find_member_by_guid guid) (fun i => mret (Some i)) (fun _ => mret None);
      idx ← raidz_children guids';
      mret (m :: idx)
  end.
Definition present (idx : list (option Z)) : Z := blen (omap id idx).

Definition build_topology (vtree : NvList) : M Layout :=
  vtype ← sm_lift (nv_str vtree "type");
  if bool_decide (vtype = ascii_bytes "disk") || bool_decide (vtype = ascii_bytes "file") then mret (Single 0)
  else if bool_decide (vtype = ascii_bytes "mirror") then
    children ← sm_lift (nv_child_guids vtree);
    idx ← mirror_children children;
    mret (Mirror idx)
  else if bool_decide (vtype = ascii_bytes "raidz") then
    nparity ← sm_catch (sm_lift (nv_u64 vtree "nparity")) mret (fun _ => mret 1);
    sm_guard (negb (nparity =? 1)) (UnsupportedTopology "topo_raidz_multiparity");;
    txgs ← sm_lift (nv_has vtree "raidz_expand_txgs");
    expanding ← (if (txgs : bool) then mret true else sm_lift (nv_has vtree "raidz_expanding"));
    sm_guard expanding (UnsupportedFeature "raidz_expansion");;
    ashift ← sm_lift (nv_u64 vtree "ashift");
    let ashift := if fitsb 8 ashift then ashift else 9 in
    children ← sm_lift (nv_child_guids vtree);
    idx ← raidz_children children;
    sm_guard (present idx + 1 <? blen idx) (UnsupportedTopology "topo_raidz_degraded");;
    mret (RaidZ1 idx ashift)
  else if bool_decide (vtype = ascii_bytes "draid") then sm_err (UnsupportedTopology "topo_draid")
  else sm_err (UnsupportedTopology "topo_unknown").

(** *** The newest uberblock *)
Definition newer (best : option UberBlock) (ub : UberBlock) : option UberBlock :=
  match best with
  | Some b => if negb (Ub.is_newer_than ub b) then Some b else Some ub
  | None => Some ub
  end.
(** The offsets stay below 2^64 with those of the labels (see [slots_in_range]). *)
Definition slot_offset (label slot i : Z) : Z := label + LABEL_UBERBLOCK_OFFSET + i * slot.
Definition slot_step (label slot i : Z) (best : option UberBlock) : MM (option UberBlock) :=
  let byte_off := slot_offset label slot i in
  sm_catch (member_exact byte_off slot 0 "io_uberblock")
    (fun buf => match Ub.from_bytes x86 buf (Z.shiftr byte_off 9) with
                | Ok (Some ub) => mret (newer best ub)
                | Panic => sm_panic
                | _ => mret best
                end)
    (fun _ => mret best).
Fixpoint slots_loop (label slot : Z) (n : nat) (i : Z) (best : option UberBlock) : MM (option UberBlock) :=
  match n with
  | O => mret best
  | S n' => best ← slot_step label slot i best; slots_loop label slot n' (i + 1) best
  end.
Fixpoint labels_loop (slot : Z) (labels : list Z) (best : option UberBlock) : MM (option UberBlock) :=
  match labels with
  | [] => mret best
  | label :: labels' =>
      best ← slots_loop label slot (Z.to_nat (UBERBLOCK_ARRAY_SIZE / slot)) 0 best;
      labels_loop slot labels' best
  end.
Fixpoint members_loop (slot : Z) (mis : list Z) (best : option UberBlock) : M (option UberBlock) :=
  match mis with
  | [] => mret best
  | mi :: mis' =>
      best ← (fun ms => match zget ms mi with
                        | None => (Ok best, ms)
                        | Some m => at_member mi (labels_loop slot (label_offsets (device_size_bytes m)) best) ms
                        end);
      members_loop slot mis' best
  end.
Definition slot_size (ashift : Z) : Z := Z.shiftl 1 (Z.max UBERBLOCK_SHIFT_MIN (Z.min ashift UBERBLOCK_SHIFT_MAX)).
Definition select_uberblock (topo : Topology) (ashift : Z) : M UberBlock :=
  best ← members_loop (slot_size ashift) (Vdev.members topo) None;
  sm_lift (ok_or best NoValidUberblock).

(** *** What the object directory says *)
Fixpoint check_features (l : list (bytes * Z)) : outcome Error unit :=
  match l with
  | [] => Ok tt
  | (guid, refcount) :: l' => (if negb (refcount =? 0) then check_read_feature guid else Ok tt);; check_features l'
  end.
Definition check_mos_features (topo : Topology) (mos objdir : Dnode) (order : EndianOrder) : M unit :=
  found ← zap_lookup topo objdir (ascii_bytes "features_for_read") order;
  match found with
  | None => mret tt
  | Some obj =>
      features ← read_object_dnode topo mos obj order;
      entries ← zap_entries topo features order;
      sm_lift (check_features entries)
  end.
Definition checksum_salt (topo : Topology) (objdir : Dnode) (order : EndianOrder) : M (option bytes) :=
  found ← zap_lookup_bytes topo objdir (ascii_bytes "org.illumos:checksum_salt") order;
  match found with
  | None => mret None
  | Some salt =>
      sm_guard (negb (blen salt =? 32)) (Inconsistent "checksum_salt" LMos);;
      mret (Some salt)
  end.

(** The features that the label names. *)
Definition check_label_features (config : NvList) : outcome Error unit :=
  has ← nv_has config "features_for_read";
  if (has : bool) then
    label_features ← nv_nvlist config "features_for_read";
    _ ← for_each label_features nv_decode (fun p => check_read_feature (pair_name p);; Ok (@None unit));
    Ok tt
  else Ok tt.
Definition check_one_child (config : NvList) : outcome Error unit :=
  has ← nv_has config "vdev_children";
  if (has : bool) then
    n ← nv_u64 config "vdev_children";
    guard_err (negb (n =? 1)) (UnsupportedTopology "topo_multi_toplevel")
  else Ok tt.

Definition import : M ImportedPool :=
  ms ← sm_get;
  sm_guard (blen ms =? 0) (BadLabel NoLabels);;
  buf ← at_member 0 read_nvpairs;
  config ← sm_lift (label_config buf);
  pool_guid ← sm_lift (nv_u64 config "pool_guid");
  pool_name ← sm_lift (nv_str config "name");
  sm_lift (check_label_features config);;
  sm_lift (check_one_child config);;
  vtree ← sm_lift (nv_nvlist config "vdev_tree");
  ashift ← sm_lift (nv_u64 vtree "ashift");
  let ashift := if fitsb 8 ashift then ashift else UBERBLOCK_SHIFT_MIN in
  lay ← build_topology vtree;
  let topo := {| layout := lay; Vdev.checksum_salt := None |} in
  ub ← select_uberblock topo ashift;
  sm_guard (negb (raidz_reflow_info ub =? 0)) (UnsupportedFeature "raidz_expansion");;
  let order := Bp.bp_order (ptr ub) in
  mos ← read_objset topo (ptr ub) order;
  objdir ← read_object_dnode topo (os_dnode mos) MOS_OBJECT_DIRECTORY order;
  check_mos_features topo (os_dnode mos) objdir order;;
  salt ← checksum_salt topo objdir order;
  mret {| pool_guid := pool_guid; pool_name := pool_name; topology := {| layout := lay; Vdev.checksum_salt := salt |};
          uberblock := ub; mos_dnode := os_dnode mos; pool_order := order |}.
End import.

(** ** The newest uberblock is selected *)
Section newest.
Context {B : Build} {R : Type} `{BlockRead R}.

(** Reading does not change what is read. *)
Definition repeatable (m : PoolMember R) : Prop := forall off n, snd (read_at (reader m) off n) = reader m.

(** The uberblock in a slot, when it is readable and valid. *)
Definition slot_ub (m : PoolMember R) (label slot i : Z) : option UberBlock :=
  match fst (read_at (reader m) (slot_offset label slot i) slot) with
  | Some buf => match Ub.from_bytes x86 buf (Z.shiftr (slot_offset label slot i) 9) with Ok (Some ub) => Some ub | _ => None end
  | None => None
  end.
Definition label_ubs (slot : Z) (m : PoolMember R) (label : Z) : list UberBlock :=
  omap (fun i => slot_ub m label slot (Z.of_nat i)) (seq 0 (Z.to_nat (UBERBLOCK_ARRAY_SIZE / slot))).
Definition member_ubs (slot : Z) (m : PoolMember R) : list UberBlock :=
  flat_map (label_ubs slot m) (label_offsets (device_size_bytes m)).
(** Every valid uberblock of the members of a topology, in the order in which they are looked at. *)
Definition pool_ubs (slot : Z) (ms : list (PoolMember R)) (mis : list Z) : list UberBlock :=
  flat_map (fun mi => match zget ms mi with Some m => member_ubs slot m | None => [] end) mis.

Lemma member_exact_repeatable off n vdev token m : repeatable m ->
  member_exact off n vdev token m =
    (match fst (read_at (reader m) off n) with Some bs => Ok bs | None => Err (Io token vdev off) end, m).
Proof.
  intros Hm. unfold member_exact, read_exact. pose proof (Hm off n) as Hs.
  destruct (read_at (reader m) off n) as [[bs|] r']; cbn [fst snd] in *; rewrite Hs; now destruct m.
Qed.
Lemma slot_step_spec label slot i best m : 0 <= slot < 2 ^ 60 -> repeatable m ->
  slot_step label slot i best m = (Ok (match slot_ub m label slot i with Some ub => newer best ub | None => best end), m).
Proof.
  intros Hs Hm. unfold slot_step, sm_catch, slot_ub. rewrite member_exact_repeatable by done.
  destruct (read_at (reader m) (slot_offset label slot i) slot) as [[buf|] r'] eqn:E; cbn [fst]; [|done].
  destruct (read_at_len _ _ _ _ _ (proj1 Hs) E) as [Hlen Hbuf].
  pose proof (Ub.from_bytes_safe x86 buf (Z.shiftr (slot_offset label slot i) 9) Hbuf ltac:(lia)) as Hsafe.
  destruct (Ub.from_bytes _ _ _) as [[ub|]|e|]; done.
Qed.
Lemma slots_loop_spec label slot m n i best : 0 <= slot < 2 ^ 60 -> repeatable m ->
  slots_loop label slot n (Z.of_nat i) best m =
    (Ok (fold_left newer (omap (fun i => slot_ub m label slot (Z.of_nat i)) (seq i n)) best), m).
Proof.
  intros Hs Hm. revert i best. induction n as [|n IH]; intros i best; [done|]. cbn [slots_loop seq].
  rewrite (SM_run _ _ _ _ _ (slot_step_spec label slot (Z.of_nat i) best m Hs Hm)).
  replace (Z.of_nat i + 1) with (Z.of_nat (S i)) by lia. rewrite IH. cbn. now destruct (slot_ub m label slot (Z.of_nat i)).
Qed.
Lemma labels_loop_spec slot m labels best : 0 <= slot < 2 ^ 60 -> repeatable m ->
  labels_loop slot labels best m = (Ok (fold_left newer (flat_map (label_ubs slot m) labels) best), m).
Proof.
  intros Hs Hm. revert best. induction labels as [|label labels IH]; intros best; [done|]. cbn [labels_loop flat_map].
  rewrite (SM_run _ _ _ _ _ (slots_loop_spec label slot m _ 0%nat best Hs Hm)), IH. now rewrite fold_left_app.
Qed.
Lemma at_member_same {A} i (f : SM (PoolMember R) Error A) ms m r :
  zget ms i = Some m -> f m = (r, m) -> at_member i f ms = (r, ms).
Proof.
  intros Hi Hf. unfold at_member. rewrite Hi, Hf. f_equal. apply list_insert_id. now apply zget_lookup in Hi as [_ Hi].
Qed.
Lemma members_loop_spec slot mis ms best : 0 <= slot < 2 ^ 60 -> Forall repeatable ms ->
  members_loop slot mis best ms = (Ok (fold_left newer (pool_ubs slot ms mis) best), ms).
Proof.
  intros Hs Hms. revert best. induction mis as [|mi mis IH]; intros best; [done|]. cbn [members_loop pool_ubs flat_map].
  unfold mbind, SM_bind. rewrite fold_left_app. destruct (zget ms mi) as [m|] eqn:E; [|apply IH].
  assert (Hm : repeatable m) by (rewrite Forall_forall in Hms; apply Hms; now apply zget_elem in E).
  rewrite (at_member_same mi _ ms m _ E (labels_loop_spec slot m _ best Hs Hm)). apply IH.
Qed.
End newest.

(** *** Newer, and the first of the newest, by transaction group and timestamp *)
Definition later (u v : UberBlock) : Prop := txg v < txg u \/ (txg u = txg v /\ timestamp v < timestamp u).
Lemma newer_later u v : Ub.is_newer_than u v = bool_decide (later u v).
Proof. apply eq_true_iff_eq. rewrite bool_decide_eq_true. unfold Ub.is_newer_than, later. lia. Qed.

Definition newest_of (l : list UberBlock) (ub : UberBlock) : Prop :=
  exists before after, l = before ++ ub :: after /\ Forall (later ub) before /\ Forall (fun u => ~ later u ub) after.
Lemma fold_newer_some l b : exists ub, fold_left newer l (Some b) = Some ub /\ newest_of (b :: l) ub.
Proof.
  revert b. induction l as [|x l IH]; intros b; cbn [fold_left].
  { exists b. split; [done|]. exists [], []. done. }
  unfold newer at 2. rewrite newer_later. case_bool_decide as E; cbn [negb].
  - destruct (IH x) as (ub & Hf & before & after & Hl & Hb & Ha). exists ub. split; [done|].
    exists (b :: before), after. rewrite Hl. split; [done|]. split; [|done]. constructor; [|done].
    destruct before as [|y before]; cbn [app] in Hl; injection Hl as <- Hl; [done|].
    apply Forall_cons in Hb as [Hy _]. revert E Hy. unfold later. lia.
  - destruct (IH b) as (ub & Hf & before & after & Hl & Hb & Ha). exists ub. split; [done|].
    destruct before as [|y before]; cbn [app] in Hl; injection Hl as <- Hl.
    + exists [], (x :: after). rewrite Hl. split; [done|]. split; [done|]. now constructor.
    + exists (b :: x :: before), after. rewrite Hl. split; [done|]. split; [|done].
      apply Forall_cons in Hb as [Hy Hb]. constructor; [done|]. constructor; [|done]. revert E Hy. unfold later. lia.
Qed.
Lemma fold_newer l : match fold_left newer l None with Some ub => newest_of l ub | None => l = [] end.
Proof.
  destruct l as [|b l]; [done|]. cbn [fold_left newer]. now destruct (fold_newer_some l b) as (ub & -> & H).
Qed.
Lemma newest_maximal l ub : newest_of l ub ->
  ub ∈ l /\ Forall (fun u => txg u < txg ub \/ (txg u = txg ub /\ timestamp u <= timestamp ub)) l.
Proof.
  intros (before & after & -> & Hb & Ha). split; [apply elem_of_app; right; left|]. apply Forall_app. split.
  - eapply Forall_impl; [exact Hb|]. unfold later. lia.
  - constructor; [lia|]. eapply Forall_impl; [exact Ha|]. unfold later. lia.
Qed.

Lemma newest_unique l u v : newest_of l u -> newest_of l v -> u = v.
Proof.
  intros (b1 & a1 & H1 & Hb1 & Ha1) (b2 & a2 & H2 & Hb2 & Ha2). rewrite H1 in H2. clear H1.
  apply app_eq_app in H2 as (k & [[-> Hk]|[-> Hk]]); destruct k as [|x k]; cbn [app] in Hk; injection Hk; [done| |done|].
  - intros Hk' ->. apply Forall_app in Hb1 as [_ Hb1]. apply Forall_cons in Hb1 as [Hvx _]. rewrite Hk' in Ha2.
    apply Forall_app in Ha2 as [_ Ha2]. apply Forall_cons in Ha2 as [Hx _]. congruence.
  - intros Hk' ->. apply Forall_app in Hb2 as [_ Hb2]. apply Forall_cons in Hb2 as [Hvx _]. rewrite Hk' in Ha1.
    apply Forall_app in Ha1 as [_ Ha1]. apply Forall_cons in Ha1 as [Hx _]. congruence.
Qed.

Lemma slot_size_range ashift : 1024 <= slot_size ashift <= 8192.
Proof.
  unfold slot_size, UBERBLOCK_SHIFT_MIN, UBERBLOCK_SHIFT_MAX. rewrite Z.shiftl_mul_pow2, Z.mul_1_l by lia.
  split; [change 1024 with (2 ^ 10)|change 8192 with (2 ^ 13)]; apply Z.pow_le_mono_r; lia.
Qed.
Lemma select_newest {B : Build} {R} `{BlockRead R} (ms : list (PoolMember R)) topo ashift :
  Forall repeatable ms ->
  select_uberblock topo ashift ms =
    (ok_or (fold_left newer (pool_ubs (slot_size ashift) ms (Vdev.members topo)) None) NoValidUberblock, ms).
Proof.
  intros Hms. unfold select_uberblock. pose proof (slot_size_range ashift).
  now rewrite (SM_run _ _ _ _ _ (members_loop_spec (slot_size ashift) (Vdev.members topo) ms None ltac:(lia) Hms)).
Qed.

(** *** Where uberblocks are, by the label format

    The labels of a device take 256 KiB each: two at its front and two at the
    end of the whole labels that it has, or the front two alone on a device
    without room for four.  The second half of a label is its array of
    uberblocks, in slots of a sector, of no less than 1 KiB and no more than 8 KiB. *)
Definition format_labels (device_size : Z) : list Z :=
  let whole := device_size / 262144 in
  if whole <? 4 then [0; 262144] else [0; 262144; 262144 * (whole - 2); 262144 * (whole - 1)].
Definition format_slot (ashift : Z) : Z := if ashift <=? 10 then 1024 else if 13 <=? ashift then 8192 else 2 ^ ashift.
(** The members that make up a vdev, those that are missing from a RAID-Z left out. *)
Definition leaves (topo : Topology) : list Z :=
  match layout topo with Single i => [i] | Mirror children => children | RaidZ1 children _ => omap id children end.

Section stored.
Context {B : Build} {R : Type} `{BlockRead R} (ashift : Z).
(** The uberblock in the slot at a byte offset, when that is readable and valid. *)
Definition stored_at (m : PoolMember R) (byte : Z) : option UberBlock :=
  match fst (read_at (reader m) byte (format_slot ashift)) with
  | Some buf => match Ub.from_bytes x86 buf (byte / 512) with Ok (Some ub) => Some ub | _ => None end
  | None => None
  end.
Definition stored_in (m : PoolMember R) (label : Z) : list UberBlock :=
  omap (fun i => stored_at m (label + 131072 + Z.of_nat i * format_slot ashift)) (seq 0 (Z.to_nat (131072 / format_slot ashift))).
Definition stored_uberblocks (ms : list (PoolMember R)) (topo : Topology) : list UberBlock :=
  flat_map (fun mi => match zget ms mi with Some m => flat_map (stored_in m) (format_labels (device_size_bytes m)) | None => [] end) (leaves topo).

Lemma format_labels_match size : label_offsets size = format_labels size.
Proof using.
  unfold label_offsets, format_labels, LABEL_SIZE. change (256 * 1024) with 262144. pose proof (Z.div_mod size 262144 ltac:(lia)).
  replace (size - size mod 262144) with (262144 * (size / 262144)) by lia.
  destruct (Z.ltb_spec (size / 262144) 4), (Z.leb_spec (4 * 262144) (262144 * (size / 262144))); try lia; [done|].
  cbn [app]. do 2 f_equal. f_equal; [lia|]. f_equal. lia.
Qed.
Lemma format_slot_match : slot_size ashift = format_slot ashift.
Proof using.
  unfold slot_size, format_slot, UBERBLOCK_SHIFT_MIN, UBERBLOCK_SHIFT_MAX. rewrite Z.shiftl_mul_pow2, Z.mul_1_l by lia.
  destruct (Z.leb_spec ashift 10); [now rewrite Z.max_l by lia|]. destruct (Z.leb_spec 13 ashift); [now rewrite Z.min_r by lia|].
  f_equal. lia.
Qed.
Lemma stored_match ms topo : pool_ubs (slot_size ashift) ms (Vdev.members topo) = stored_uberblocks ms topo.
Proof using.
  unfold pool_ubs, stored_uberblocks. change (Vdev.members topo) with (leaves topo). rewrite format_slot_match.
  apply flat_map_ext. intros mi. destruct (zget ms mi) as [m|]; [|done]. unfold member_ubs. rewrite format_labels_match.
  apply flat_map_ext. intros label. unfold label_ubs, stored_in, slot_ub, stored_at, slot_offset, UBERBLOCK_ARRAY_SIZE, LABEL_UBERBLOCK_OFFSET.
  apply list_omap_ext, Forall_Forall2_diag, Forall_true. intros i. change (128 * 1024) with 131072. now rewrite Z.shiftr_div_pow2 by lia.
Qed.
End stored.

(** C10: The uberblock a pool is opened from is the newest (the highest transaction group, and the latest
    timestamp within it) of all the valid ones in every slot of all the labels, at both ends of every
    member that is present, the first of them when several are equally new; it is an
    error that there is none, and slots that cannot be read or do not verify are
    passed over. *)
Theorem uberblock_newest {B : Build} {R} `{BlockRead R} (ms : list (PoolMember R)) topo ashift :
  Forall repeatable ms ->
  let ubs := stored_uberblocks ashift ms topo in
  (ubs = [] /\ select_uberblock topo ashift ms = (Err NoValidUberblock, ms)) \/
  exists ub, select_uberblock topo ashift ms = (Ok ub, ms) /\ newest_of ubs ub /\
    ub ∈ ubs /\ Forall (fun u => txg u < txg ub \/ (txg u = txg ub /\ timestamp u <= timestamp ub)) ubs.
Proof.
  intros Hms. cbv zeta. rewrite select_newest, stored_match by done. set (ubs := stored_uberblocks _ _ _). pose proof (fold_newer ubs) as Hf.
  destruct (fold_left newer ubs None) as [ub|]; [right|left; done]. exists ub. pose proof (newest_maximal ubs ub Hf). done.
Qed.

(** ** Where the labels are *)

(** The labels of a device that has room for four of them are those of the label format, at both ends of
    its whole labels, without overlap and inside the device; a smaller device is looked at
    for the first two only.  The uberblock slots that are read stay inside
    their label, and no offset reaches 2^64. *)
Theorem label_offsets_match device_size ashift :
  0 <= device_size < 2 ^ 64 ->
  (4 * LABEL_SIZE <= device_size ->
     exists sectors, Label.offsets (device_size / LABEL_SIZE * Label.SECTORS) = Ok sectors /\
       label_offsets device_size = (fun s => 512 * s) <$> sectors /\
       Forall (fun l => l + LABEL_SIZE <= device_size) (label_offsets device_size)) /\
  (device_size < 4 * LABEL_SIZE -> label_offsets device_size = [0; LABEL_SIZE]) /\
  forall label i, label ∈ label_offsets device_size -> 0 <= i < UBERBLOCK_ARRAY_SIZE / slot_size ashift ->
    label + LABEL_UBERBLOCK_OFFSET <= slot_offset label (slot_size ashift) i /\
    slot_offset label (slot_size ashift) i + slot_size ashift <= label + LABEL_SIZE < 2 ^ 64.
Proof.
  intros Hd. unfold label_offsets, LABEL_SIZE in *. set (k := device_size / (256 * 1024)).
  assert (Hk : device_size - device_size mod (256 * 1024) = k * (256 * 1024)) by (unfold k; Z.div_mod_to_equations; lia).
  assert (Hr : 0 <= device_size mod (256 * 1024) < 256 * 1024) by (apply Z.mod_pos_bound; lia). rewrite Hk.
  assert (H4 : 4 * (256 * 1024) <= device_size <-> 4 <= k) by (unfold k; split; intros; Z.div_mod_to_equations; lia).
  split; [|split].
  - intros Hs. apply H4 in Hs as Hk4. unfold Label.offsets. change Label.SECTORS with 512. rewrite (proj2 (Z.ltb_ge _ _)) by lia.
    rewrite (proj2 (Z.leb_le _ _)) by lia. eexists. split; [reflexivity|]. split; [cbn [fmap list_fmap app]; repeat f_equal; lia|].
    repeat constructor; lia.
  - intros Hs. rewrite (proj2 (Z.leb_gt _ _)); [done|]. assert (~ 4 <= k) by (rewrite <- H4; lia). lia.
  - intros label i Hl Hi. pose proof (slot_size_range ashift) as Hsz. unfold slot_offset, LABEL_UBERBLOCK_OFFSET, UBERBLOCK_ARRAY_SIZE in *.
    assert (Hi' : (i + 1) * slot_size ashift <= 128 * 1024) by (Z.div_mod_to_equations; nia).
    assert (Hlab : 0 <= label /\ label + 256 * 1024 < 2 ^ 64).
    { destruct (Z.leb_spec (4 * (256 * 1024)) (k * (256 * 1024))); cbn [app] in Hl; repeat rewrite elem_of_cons in Hl; rewrite elem_of_nil in Hl;
        intuition (subst; lia). }
    split; [nia|]. lia.
Qed.
Lemma label_offsets_match_witness :
  label_offsets (2 ^ 30 + 1000) = [0; 262144; 1073217536; 1073479680] /\
  exists sectors, Label.offsets ((2 ^ 30 + 1000) / LABEL_SIZE * Label.SECTORS) = Ok sectors /\
    label_offsets (2 ^ 30 + 1000) = (fun s => 512 * s) <$> sectors.
Proof.
  split; [reflexivity|].
  destruct (label_offsets_match (2 ^ 30 + 1000) 12 ltac:(lia)) as [H _].
  destruct (H ltac:(vm_compute; congruence)) as (sectors & Hs & Hl & _). now exists sectors.
Defined.

(** ** Features *)
Lemma understood_spec guid : understood guid = true <-> exists s, s ∈ READ_FEATURES_UNDERSTOOD /\ guid = ascii_bytes s.
Proof.
  unfold understood. rewrite existsb_exists. split; intros (s & Hin & Hs); exists s.
  - split; [now apply list_elem_of_In|]. now apply bool_decide_eq_true_1 in Hs.
  - split; [now apply list_elem_of_In|]. now apply bool_decide_eq_true_2.
Qed.
Lemma check_read_feature_spec guid :
  (understood guid = true /\ check_read_feature guid = Ok tt) \/
  (understood guid = false /\ exists t, check_read_feature guid = Err (UnsupportedFeature t)).
Proof. unfold check_read_feature. destruct (understood guid); [now left|right]. split; [done|]. eauto. Qed.
Lemma check_features_spec l : check_features l = Ok tt <-> Forall (fun e => snd e <> 0 -> understood (fst e) = true) l.
Proof.
  induction l as [|[g n] l IH]; [easy|]. cbn [check_features]. rewrite Forall_cons. cbn [fst snd].
  destruct (Z.eqb_spec n 0) as [->|Hn]; cbn [negb].
  - cbn [mbind outcome_bind]. rewrite IH. intuition lia.
  - destruct (check_read_feature_spec g) as [[Hu ->]|[Hu [t ->]]]; cbn [mbind outcome_bind].
    + rewrite IH. intuition.
    + rewrite Hu. split; [done|]. intros [Hc _]. now apply Hc in Hn.
Qed.
