(* ===== verification/PoolSpec.v ===== *)
(** * What an import promises (src/pool.rs)

    The configurations that the labels of the members hold, the vdev that they
    describe, and the theorems that importing such a pool succeeds with what they say
    and that a pool with a feature the reader does not understand is never
    imported. *)

From S2P Require Import Prelude Errors Decoder Encoder Codec Types Dva BlockPointer Fletcher Sha256 LabelChecksum Cksum Compress.
From S2P Require Import Vdev Heal Dnode FileRead ObjectSet Zap Walk WalkSafe Dsl Dataset Uberblock Label Nv NvSpec Pool.

Open Scope Z_scope.
Open Scope list_scope.

(** ** Keys of a configuration *)
Definition lookup_key (ps : list entry) (key : string) : option nvv := snd <$> List.find (named (ascii_bytes key)) ps.

Section keys.
Context (c : NvList) (ps : list entry) (Hc : holds c ps).

Lemma nv_find_holds key :
  match lookup_key ps key with
  | Some v => exists p, nv_find c key = Ok p /\ value_is v (pair_value p)
  | None => nv_find c key = Err (NotFound key)
  end.
Proof using Hc.
  unfold nv_find, lookup_key.
  pose proof (for_each_holds nv_decode (fun p => Ok (if bool_decide (pair_name p = ascii_bytes key) then Some p else None))
                (named (ascii_bytes key)) c ps Hc) as H.
  destruct (List.find (named (ascii_bytes key)) ps) as [e|] eqn:E; cbn [fmap option_fmap option_map].
  - destruct H as (p & Hp & ->).
    + intros e' p _ [Hn _]. unfold named. rewrite Hn. now destruct (bool_decide _).
    + exists p. apply find_some in E as [_ E]. unfold named in E. destruct Hp as [-> Hv]. now rewrite E.
  - rewrite H; [done|]. intros e' p _ [Hn _]. unfold named. rewrite Hn. now destruct (bool_decide _).
Qed.
Lemma nv_has_holds key : nv_has c key = Ok (match lookup_key ps key with Some _ => true | None => false end).
Proof using Hc.
  unfold nv_has. pose proof (nv_find_holds key) as H. destruct (lookup_key ps key); [destruct H as (p & -> & _)|rewrite H]; done.
Qed.
Lemma nv_u64_holds key :
  nv_u64 c key = match lookup_key ps key with
                 | Some (NU64 x) => Ok x
                 | Some _ => Err (Inconsistent "nv_u64" (LVdev 0))
                 | None => Err (NotFound key)
                 end.
Proof using Hc.
  unfold nv_u64, nv_typed. pose proof (nv_find_holds key) as H. destruct (lookup_key ps key) as [v|]; [|now rewrite H].
  destruct H as ([pn pv] & -> & Hv). cbn [pair_value] in Hv. destruct v, pv; try contradiction; cbn in *; congruence.
Qed.
Lemma nv_str_holds key s : lookup_key ps key = Some (NStr s) -> nv_str c key = Ok s.
Proof using Hc.
  intros Hk. unfold nv_str, nv_typed. pose proof (nv_find_holds key) as H. rewrite Hk in H. destruct H as ([pn pv] & -> & Hv).
  cbn [pair_value] in Hv. destruct pv; try contradiction. cbn in *. congruence.
Qed.
Lemma nv_nvlist_holds key u qs : lookup_key ps key = Some (NList u qs) -> exists l, nv_nvlist c key = Ok l /\ holds l qs.
Proof using Hc.
  intros Hk. unfold nv_nvlist, nv_typed. pose proof (nv_find_holds key) as H. rewrite Hk in H. destruct H as ([pn pv] & -> & Hv).
  cbn [pair_value] in Hv. destruct pv; try contradiction. now exists v.
Qed.
Lemma key_fits key v : lookup_key ps key = Some v -> value_fits v.
Proof using Hc.
  unfold lookup_key. destruct (List.find _ ps) as [[[n d] w]|] eqn:E; [|done]. intros [= <-].
  apply find_some in E as [Hin _]. destruct Hc as (_ & _ & Hps & _). unfold entries_fit in Hps. rewrite Forall_forall in Hps.
  apply list_elem_of_In in Hin. now destruct (Hps _ Hin).
Qed.
End keys.

(** ** Children *)
Definition child_guid (l : NvUnique.t * list entry) : option Z :=
  match lookup_key (snd l) "guid" with Some (NU64 g) => Some g | _ => None end.
Lemma child_guid_holds x u qs g : holds x qs -> child_guid (u, qs) = Some g -> nv_u64 x "guid" = Ok g.
Proof.
  intros Hx. rewrite (nv_u64_holds x qs Hx). unfold child_guid. cbn [snd]. destruct (lookup_key qs "guid") as [[]|]; try done.
  now intros [= ->].
Qed.
Lemma guids_loop_holds a ls guids b r :
  arr_encoding a = NvEncoding.Xdr -> DecoderBuffer.wf b -> Forall (fun l => entries_fit (snd l)) ls ->
  DecoderBuffer.remaining b = flat_map list_bytes ls ++ r -> Forall2 (fun l g => child_guid l = Some g) ls guids ->
  fst (guids_loop a (length ls) b) = Ok guids.
Proof.
  intros He Hb Hls Hr Hg. revert b Hb Hr. induction Hg as [|[u qs] g ls guids Hg _ IH]; intros b Hb Hr; [done|].
  apply Forall_cons in Hls as [Hqs Hls]. cbn [flat_map length guids_loop] in *. rewrite <- app_assoc in Hr.
  destruct (next_list_holds a He u qs b _ Hb Hqs Hr) as (x & Hx & Hh).
  assert (Hx' : sm_map_err (fun _ : NvDecodeError => Inconsistent "nv_child" (LVdev 0)) (next_list a) b =
                (Ok x, DecoderBuffer.advance (blen (list_bytes (u, qs))) b)) by (unfold sm_map_err; now rewrite Hx).
  rewrite (SM_run _ _ _ _ _ Hx'), (SM_run_lift _ _ _ _ (child_guid_holds x u qs g Hh Hg)).
  destruct (remaining_app b _ _ Hb Hr) as [Hb1 Hr1]. specialize (IH Hls _ Hb1 Hr1). unfold mbind, SM_bind.
  destruct (guids_loop a (length ls) _) as [[ys|e|] b2]; cbn [fst] in IH; [|done|done]. now injection IH as ->.
Qed.
Lemma child_guids_holds c ps ls guids :
  holds c ps -> lookup_key ps "children" = Some (NLists ls) -> Forall2 (fun l g => child_guid l = Some g) ls guids ->
  nv_child_guids c = Ok guids.
Proof.
  intros Hc Hk Hg. unfold nv_child_guids. pose proof (nv_find_holds c ps Hc "children") as H. rewrite Hk in H.
  destruct H as ([pn pv] & -> & Hv). cbn [pair_value] in Hv. destruct pv as [| | | | | | | | | | | | | | | | | | |a| | | | | | |]; try contradiction.
  pose proof (key_fits c ps Hc _ _ Hk) as Hf. apply fits_lists in Hf as [Hls _].
  change (array_window a (blen ls) (flat_map list_bytes ls)) in Hv. destruct Hv as (Hd & He & Hn & Hw).
  destruct (clamped_window _ _ _ _ Hd Hw) as (b & Hi & Hb & Hr & _). rewrite <- (app_nil_r (flat_map _ _)) in Hr.
  cbn [mbind outcome_bind map_err Pair.get_nv_list_array Pair.typed pair_value]. unfold Arr.is_empty, Arr.iter. rewrite Hn, Hi.
  pose proof (guids_loop_holds a ls guids b [] He Hb Hls Hr Hg) as Hloop.
  destruct ls as [|l ls]; [inversion Hg; done|]. replace (blen (l :: ls) =? 0) with false by (rewrite blen_cons; pose proof (blen_nonneg ls); lia).
  unfold blen. rewrite Nat2Z.id. exact Hloop.
Qed.

(** ** Members *)
Section members.
Context {B : Build} {R : Type} `{BlockRead R} (ms : list (PoolMember R)) (configs : list (list entry)).

(** The label of a member holds a configuration. *)
Definition member_config (m : PoolMember R) (ps : list entry) : Prop :=
  repeatable m /\ exists buf c,
    fst (read_at (reader m) L0_NVPAIRS_BYTE LabelNvPairs.SIZE) = Some buf /\ label_config buf = Ok c /\ holds c ps.
Hypothesis Hms : Forall2 member_config ms configs.

Lemma read_label i ps : configs !! i = Some ps ->
  exists buf c, at_member (Z.of_nat i) read_nvpairs ms = (Ok buf, ms) /\ label_config buf = Ok c /\ holds c ps.
Proof using Hms.
  intros Hi. destruct (Forall2_lookup_r _ _ _ _ _ Hms Hi) as (m & Hm & Hrep & buf & c & Hb & Hc). exists buf, c. split; [|done].
  apply (at_member_same _ _ _ m).
  - apply lookup_lt_Some in Hm as Hlt. unfold zget, blen. replace ((0 <=? Z.of_nat i) && (Z.of_nat i <? Z.of_nat (length ms))) with true by lia.
    now rewrite Nat2Z.id.
  - unfold read_nvpairs. rewrite member_exact_repeatable, Hb by done. done.
Qed.
Definition config_guid (ps : list entry) : option Z :=
  match lookup_key ps "guid" with Some (NU64 g) => Some g | _ => None end.
(** The first member with a guid. *)
Definition index_of (guid : Z) : option Z :=
  (fun p => Z.of_nat (fst p)) <$> list_find (fun ps => config_guid ps = Some guid) configs.

Lemma label_guid buf c ps : label_config buf = Ok c -> holds c ps ->
  match config ← label_config buf; nv_u64 config "guid" with
  | Ok g => config_guid ps = Some g | Err _ => config_guid ps = None | Panic => False
  end.
Proof using.
  intros Hl Hc. rewrite Hl. cbn [mbind outcome_bind]. rewrite (nv_u64_holds c ps Hc). unfold config_guid.
  destruct (lookup_key ps "guid") as [[]|]; done.
Qed.
Lemma find_member_from_spec guid k : forall n, length configs = (k + n)%nat ->
  find_member_from guid n (Z.of_nat k) ms =
    (match list_find (fun ps => config_guid ps = Some guid) (drop k configs) with
     | Some (j, _) => Ok (Z.of_nat (k + j)) | None => Err (BadLabel PoolGuidMismatch)
     end, ms).
Proof using Hms.
  intros n. revert k. induction n as [|n IH]; intros k Hk.
  { rewrite drop_ge by lia. done. }
  destruct (lookup_lt_is_Some_2 configs k ltac:(lia)) as [ps Hps]. cbn [find_member_from].
  destruct (read_label k ps Hps) as (buf & c & Hr & Hl & Hc). rewrite (SM_run _ _ _ _ _ Hr).
  pose proof (label_guid buf c ps Hl Hc) as Hg. rewrite (drop_S _ _ _ Hps). cbn [list_find].
  specialize (IH (S k) ltac:(lia)). replace (Z.of_nat (S k)) with (Z.of_nat k + 1) in IH by lia.
  destruct (config ← label_config buf; nv_u64 config "guid") as [g|e|]; [|..|done].
  - destruct (decide (config_guid ps = Some guid)) as [Hd|Hd].
    + rewrite Hg in Hd. injection Hd as ->. rewrite Z.eqb_refl. cbn. now rewrite Nat.add_0_r.
    + replace (g =? guid) with false by (symmetry; apply Z.eqb_neq; intros ->; now rewrite Hg in Hd). rewrite IH.
      destruct (list_find _ (drop (S k) configs)) as [[j x]|]; cbn; [|done]. do 2 f_equal. f_equal. lia.
  - destruct (decide (config_guid ps = Some guid)) as [Hd|Hd]; [now rewrite Hg in Hd|]. rewrite IH.
    destruct (list_find _ (drop (S k) configs)) as [[j x]|]; cbn; [|done]. do 2 f_equal. f_equal. lia.
Qed.
Lemma find_member_spec guid :
  find_member_by_guid guid ms = (ok_or (index_of guid) (BadLabel PoolGuidMismatch), ms).
Proof using Hms.
  unfold find_member_by_guid. pose proof (Forall2_length _ _ _ Hms) as Hl.
  pose proof (find_member_from_spec guid 0%nat (length ms) ltac:(lia)) as Hf. change (Z.of_nat 0) with 0 in Hf. rewrite Hf, drop_0. unfold index_of.
  destruct (list_find _ configs) as [[j x]|]; done.
Qed.

(** ** The top-level vdev *)
Inductive vdev : Type := VDisk | VMirror (guids : list Z) | VRaidz (guids : list Z) (ashift : Z).
Definition vdev_type (ps : list entry) (s : string) : Prop := lookup_key ps "type" = Some (NStr (ascii_bytes s)).
Definition vdev_children (ps : list entry) (guids : list Z) : Prop :=
  exists ls, lookup_key ps "children" = Some (NLists ls) /\ Forall2 (fun l g => child_guid l = Some g) ls guids.
Definition vdev_is (ps : list entry) (v : vdev) : Prop :=
  match v with
  | VDisk => vdev_type ps "disk" \/ vdev_type ps "file"
  | VMirror guids => vdev_type ps "mirror" /\ vdev_children ps guids
  | VRaidz guids ashift =>
      vdev_type ps "raidz" /\ vdev_children ps guids /\
      (lookup_key ps "nparity" = None \/ lookup_key ps "nparity" = Some (NU64 1)) /\
      lookup_key ps "raidz_expand_txgs" = None /\ lookup_key ps "raidz_expanding" = None /\
      lookup_key ps "ashift" = Some (NU64 ashift) /\ fits 8 ashift
  end.
(** Every child of a mirror has to be present; a RAID-Z may miss one. *)
Definition layout_of (v : vdev) : outcome Error Layout :=
  match v with
  | VDisk => Ok (Single 0)
  | VMirror guids => match mapM index_of guids with Some idx => Ok (Mirror idx) | None => Err (BadLabel PoolGuidMismatch) end
  | VRaidz guids ashift =>
      let idx := index_of <$> guids in
      if present idx + 1 <? blen idx then Err (UnsupportedTopology "topo_raidz_degraded") else Ok (RaidZ1 idx ashift)
  end.

Lemma mirror_children_spec guids :
  mirror_children guids ms =
    (match mapM index_of guids with Some idx => Ok idx | None => Err (BadLabel PoolGuidMismatch) end, ms).
Proof using Hms.
  induction guids as [|g guids IH]; [done|]. cbn [mirror_children mapM]. unfold mbind at 1, SM_bind at 1. rewrite find_member_spec.
  destruct (index_of g) as [i|]; cbn [ok_or]; [|done]. unfold mbind at 1, SM_bind at 1. rewrite IH.
  cbn [mbind option_bind]. now destruct (mapM index_of guids).
Qed.
Lemma raidz_children_spec guids : raidz_children guids ms = (Ok (index_of <$> guids), ms).
Proof using Hms.
  induction guids as [|g guids IH]; [done|]. cbn [raidz_children fmap list_fmap]. unfold mbind at 1, SM_bind at 1, sm_catch.
  rewrite find_member_spec. destruct (index_of g) as [i|]; cbn [ok_or]; cbn [mret SM_ret]; unfold mbind, SM_bind; rewrite IH; done.
Qed.

Lemma build_topology_held c ps v : holds c ps -> vdev_is ps v -> build_topology c ms = (layout_of v, ms).
Proof using Hms.
  intros Hc Hv. unfold build_topology. destruct v as [|guids|guids ashift]; cbn [vdev_is layout_of] in *.
  - destruct Hv as [Ht|Ht]; now rewrite (SM_run_lift _ _ _ _ (nv_str_holds c ps Hc _ _ Ht)).
  - destruct Hv as (Ht & ls & Hl & Hg). rewrite (SM_run_lift _ _ _ _ (nv_str_holds c ps Hc _ _ Ht)).
    cbn [bool_decide]. rewrite !bool_decide_false by (vm_compute; congruence). cbn [orb]. rewrite bool_decide_true by done.
    rewrite (SM_run_lift _ _ _ _ (child_guids_holds c ps ls guids Hc Hl Hg)). unfold mbind, SM_bind. rewrite mirror_children_spec.
    now destruct (mapM index_of guids).
  - destruct Hv as (Ht & (ls & Hl & Hg) & Hn & Hx & Hy & Ha & Hf). rewrite (SM_run_lift _ _ _ _ (nv_str_holds c ps Hc _ _ Ht)).
    rewrite !bool_decide_false by (vm_compute; congruence). cbn [orb]. rewrite bool_decide_true by done.
    assert (Hp : sm_catch (sm_lift (nv_u64 c "nparity")) mret (fun _ : Error => mret 1) ms = (Ok (E := Error) 1, ms)).
    { unfold sm_catch, sm_lift. rewrite (nv_u64_holds c ps Hc). now destruct Hn as [-> | ->]. }
    rewrite (SM_run _ _ _ _ _ Hp). cbn [Z.eqb Pos.eqb negb]. rewrite (SM_run (sm_guard false _) _ _ tt _ eq_refl).
    pose proof (nv_has_holds c ps Hc "raidz_expand_txgs") as H1. rewrite Hx in H1. rewrite (SM_run_lift _ _ _ _ H1).
    pose proof (nv_has_holds c ps Hc "raidz_expanding") as H2. rewrite Hy in H2. rewrite (SM_run_lift _ _ _ _ H2).
    rewrite (SM_run (sm_guard false _) _ _ tt _ eq_refl). pose proof (nv_u64_holds c ps Hc "ashift") as H3. rewrite Ha in H3.
    rewrite (SM_run_lift _ _ _ _ H3). rewrite (proj2 (fitsb_spec 8 ashift) Hf).
    rewrite (SM_run_lift _ _ _ _ (child_guids_holds c ps ls guids Hc Hl Hg)), (SM_run _ _ _ _ _ (raidz_children_spec guids)).
    now destruct (present (index_of <$> guids) + 1 <? blen (index_of <$> guids)).
Qed.
End members.

(** ** Features *)
Definition refused (guid : bytes) : option string :=
  if understood guid then None
  else Some (default "feat_unknown_read_incompat"%string
               (List.find (fun t => bool_decide (ascii_bytes t = after_last_colon guid guid)) REFUSED_FEATURE_TOKENS)).
(** The token of the first feature of a list that is refused. *)
Fixpoint first_refused (names : list bytes) : option string :=
  match names with
  | [] => None
  | name :: names' => match refused name with Some t => Some t | None => first_refused names' end
  end.
Definition gate (t : option string) : outcome Error unit :=
  match t with Some t => Err (UnsupportedFeature t) | None => Ok tt end.

Lemma check_read_feature_gate guid : check_read_feature guid = gate (refused guid).
Proof. unfold check_read_feature, refused. now destruct (understood guid). Qed.
Lemma refused_none guid : refused guid = None <-> understood guid = true.
Proof. unfold refused. now destruct (understood guid). Qed.
Lemma first_refused_none names : first_refused names = None <-> Forall (fun n => understood n = true) names.
Proof.
  induction names as [|n names IH]; [easy|]. cbn [first_refused]. rewrite Forall_cons, <- refused_none.
  destruct (refused n); [|tauto]. split; [done|]. now intros [? _].
Qed.
Definition active (l : list (bytes * Z)) : list bytes := fst <$> List.filter (fun e => negb (snd e =? 0)) l.
Lemma check_features_gate l : check_features l = gate (first_refused (active l)).
Proof.
  unfold active. induction l as [|[g n] l IH]; [done|]. cbn [check_features List.filter snd]. destruct (negb (n =? 0)).
  - cbn [fmap list_fmap first_refused fst]. rewrite check_read_feature_gate. now destruct (refused g).
  - exact IH.
Qed.
Definition label_names (ps : list entry) : list bytes :=
  match lookup_key ps "features_for_read" with Some (NList _ fs) => (fun e => fst (fst e)) <$> fs | _ => [] end.
Definition features_listed (ps : list entry) : Prop :=
  match lookup_key ps "features_for_read" with None => True | Some (NList _ _) => True | _ => False end.

Lemma find_refused (fs : list entry) :
  first_refused ((fun e => fst (fst e)) <$> fs) =
  match List.find (fun e => negb (understood (fst (fst e)))) fs with Some e => refused (fst (fst e)) | None => None end.
Proof.
  induction fs as [|e fs IH]; [done|]. cbn [fmap list_fmap first_refused List.find]. unfold refused at 1.
  destruct (understood (fst (fst e))) eqn:E; cbn [negb]; [exact IH|]. unfold refused. now rewrite E.
Qed.
Lemma label_features_held c ps : holds c ps -> features_listed ps -> check_label_features c = gate (first_refused (label_names ps)).
Proof.
  intros Hc Hl. unfold check_label_features, label_names, features_listed in *. rewrite (nv_has_holds c ps Hc).
  destruct (lookup_key ps "features_for_read") as [v|] eqn:E; [|done]. destruct v as [|?|?|?|?|u fs|?]; try done. cbn [mbind outcome_bind].
  destruct (nv_nvlist_holds c ps Hc _ _ _ E) as (l & -> & Hh). cbn [mbind outcome_bind]. rewrite find_refused.
  pose proof (for_each_holds nv_decode (fun p => check_read_feature (pair_name p);; Ok (@None unit))
                (fun e => negb (understood (fst (fst e)))) l fs Hh) as H.
  destruct (List.find _ fs) as [e|] eqn:Ef.
  - destruct H as (p & [Hn _] & ->).
    + intros e' p _ [Hn _]. rewrite Hn, check_read_feature_gate. unfold refused. now destruct (understood _).
    + rewrite Hn, check_read_feature_gate. now destruct (refused (fst (fst e))).
  - rewrite H; [done|]. intros e' p _ [Hn _]. rewrite Hn, check_read_feature_gate. unfold refused. now destruct (understood _).
Qed.

(** ** Values as bytes *)
Lemma find_name_values {V W} (f : V -> W) name (l : list (bytes * V)) :
  find_name name ((fun e => (fst e, f (snd e))) <$> l) = f <$> find_name name l.
Proof.
  unfold find_name. induction l as [|[n v] l IH]; [done|]. cbn [fmap list_fmap List.find fst snd]. destruct (bool_decide (n = name)); [done|exact IH].
Qed.
Section raw.
Context {B : Build} {R : Type} `{BlockRead R} (topo : Topology) (o : EndianOrder) (ms : list (PoolMember R)).
(** A ZAP object with a list of names and values as bytes: a micro entry's value is a word. *)
Definition zap_raw_at (d : Dnode) (raw : list (bytes * bytes)) : Prop :=
  exists trees, object_stored topo o ms d trees /\ 0 < data_block_size_sectors d /\
    ((exists h es rest, FileRead.blocks d trees = Some (micro_block o h es) :: rest /\ MicroHeader.wf h /\
        Forall entry_layable es /\ raw = (fun e => (fst e, int_to Big 8 (snd e))) <$> micro_pairs es) \/
     (exists pss, fat_zap o d trees pss /\ raw = concat pss)).
Lemma zap_raw_lookup d raw name : zap_raw_at d raw -> zap_lookup_bytes topo d name o ms = (Ok (find_name name raw), ms).
Proof.
  intros (trees & Hst & Hs & Hz). unfold zap_lookup_bytes.
  assert (Hd : (Z.shiftl (data_block_size_sectors d) 9 =? 0) = false) by (apply Z.eqb_neq; rewrite Z.shiftl_mul_pow2; lia).
  unfold mbind at 1, SM_bind at 1. rewrite (read_block_flat topo o ms d trees 0 Hst), Hd by lia.
  destruct Hz as [(h & es & rest & Hb & Hh & Hes & ->)|(pss & Hf & ->)].
  - assert (Hbt : block_type (micro_block o h es) o = Ok ZAP_MICRO).
    { unfold micro_block at 1, MicroHeader.layout. rewrite <- app_assoc. now rewrite block_type_prefix by (vm_compute; split; congruence). }
    rewrite Hb. rewrite (SM_run_lift (ok_or _ _) _ _ (micro_block o h es)) by reflexivity. rewrite SM_assoc, (SM_run_lift _ _ _ _ Hbt).
    change (ZAP_MICRO =? ZAP_FAT_HEADER) with false. rewrite (SM_run (mret false) _ _ false _ eq_refl).
    assert (Hz : zap_at topo o ms d (micro_pairs es)) by (exists trees; splits; [done|done|left; eauto 10]).
    unfold mbind, SM_bind. rewrite (zap_at_lookup topo o ms d _ name Hz). cbn [mret SM_ret]. now rewrite find_name_values.
  - pose proof (fat_raw topo o ms d trees Hst Hs pss Hf) as Hraw. destruct Hf as (hdr & bs & holes & Hb & _ & _).
    rewrite Hb. rewrite (SM_run_lift (ok_or _ _) _ _ (int_to o 8 ZAP_FAT_HEADER ++ hdr)) by reflexivity. rewrite SM_assoc.
    rewrite (SM_run_lift _ _ _ ZAP_FAT_HEADER) by (now rewrite block_type_prefix by (vm_compute; split; congruence)).
    rewrite Z.eqb_refl, (SM_run (mret true) _ _ true _ eq_refl). unfold mbind, SM_bind. now rewrite Hraw.
Qed.
End raw.

(** ** A described pool *)
Record description : Type := {
  d_config : list entry; d_guid : Z; d_name : bytes; d_ashift : Z; d_tree : list entry; d_vdev : vdev; d_layout : Layout;
  d_ub : UberBlock; d_set : ObjectSet; d_objdir : Dnode; d_entries : list (bytes * Z); d_features : list (bytes * Z);
  d_salt : option bytes
}.

Section described.
Context {B : Build} {R : Type} `{BlockRead R} (ms : list (PoolMember R)) (configs : list (list entry)) (d : description).

Definition d_topo : Topology := {| layout := d_layout d; Vdev.checksum_salt := None |}.
Definition d_order : EndianOrder := Bp.bp_order (ptr (d_ub d)).

(** The configuration of the first label, the vdev that it describes and the members that make it up. *)
Definition configured : Prop :=
  Forall2 member_config ms configs /\ configs !! 0%nat = Some (d_config d) /\ features_listed (d_config d) /\
  lookup_key (d_config d) "pool_guid" = Some (NU64 (d_guid d)) /\ lookup_key (d_config d) "name" = Some (NStr (d_name d)) /\
  (lookup_key (d_config d) "vdev_children" = None \/ lookup_key (d_config d) "vdev_children" = Some (NU64 1)) /\
  (exists u, lookup_key (d_config d) "vdev_tree" = Some (NList u (d_tree d))) /\
  lookup_key (d_tree d) "ashift" = Some (NU64 (d_ashift d)) /\ fits 8 (d_ashift d) /\
  vdev_is (d_tree d) (d_vdev d) /\ layout_of configs (d_vdev d) = Ok (d_layout d).
(** The newest uberblock, and the object set and object directory that it leads to. *)
Definition rooted : Prop :=
  newest_of (stored_uberblocks (d_ashift d) ms d_topo) (d_ub d) /\
  read_block_pointer d_topo (ptr (d_ub d)) ms = (Ok (Os.layout d_order (d_set d)), ms) /\ Os.layable d_order (d_set d) /\
  (exists bonus, object_at d_topo d_order ms (os_dnode (d_set d)) 1 (d_objdir d) bonus) /\
  zap_at d_topo d_order ms (d_objdir d) (d_entries d) /\
  match find_name (ascii_bytes "features_for_read") (d_entries d) with
  | None => d_features d = []
  | Some obj => exists fd fb, object_at d_topo d_order ms (os_dnode (d_set d)) obj fd fb /\ zap_at d_topo d_order ms fd (d_features d)
  end /\
  (exists raw, zap_raw_at d_topo d_order ms (d_objdir d) raw /\ find_name (ascii_bytes "org.illumos:checksum_salt") raw = d_salt d) /\
  match d_salt d with Some s => blen s = 32 | None => True end.

(** What is refused, in the order in which it is looked at. *)
Definition d_refused : option string :=
  match first_refused (label_names (d_config d)) with
  | Some t => Some t
  | None => if raidz_reflow_info (d_ub d) =? 0 then first_refused (active (d_features d)) else Some "raidz_expansion"%string
  end.
Definition d_pool : ImportedPool := {|
  pool_guid := d_guid d; pool_name := d_name d; topology := {| layout := d_layout d; Vdev.checksum_salt := d_salt d |};
  uberblock := d_ub d; mos_dnode := os_dnode (d_set d); pool_order := d_order |}.

Lemma one_child_held c : holds c (d_config d) ->
  (lookup_key (d_config d) "vdev_children" = None \/ lookup_key (d_config d) "vdev_children" = Some (NU64 1)) -> check_one_child c = Ok tt.
Proof using.
  intros Hc Hv. unfold check_one_child. rewrite (nv_has_holds c _ Hc). destruct Hv as [-> | Hv]; [done|]. rewrite Hv.
  cbn [mbind outcome_bind]. now rewrite (nv_u64_holds c _ Hc), Hv.
Qed.
Lemma mos_features_held : rooted ->
  check_mos_features d_topo (os_dnode (d_set d)) (d_objdir d) d_order ms = (gate (first_refused (active (d_features d))), ms).
Proof using.
  intros (_ & _ & _ & _ & Hz & Hf & _). unfold check_mos_features. rewrite (SM_run _ _ _ _ _ (zap_at_lookup _ _ _ _ _ _ Hz)).
  destruct (find_name _ (d_entries d)) as [obj|]; [|now rewrite Hf].
  destruct Hf as (fd & fb & Ho & Hfz). rewrite (SM_run _ _ _ _ _ (object_at_dnode _ _ _ _ _ _ _ Ho)), (SM_run _ _ _ _ _ (zap_at_lists _ _ _ _ _ Hfz)).
  unfold sm_lift. now rewrite check_features_gate.
Qed.
Lemma salt_held : rooted -> checksum_salt d_topo (d_objdir d) d_order ms = (Ok (d_salt d), ms).
Proof using.
  intros (_ & _ & _ & _ & _ & _ & (raw & Hr & Hs) & Hl). unfold checksum_salt.
  rewrite (SM_run _ _ _ _ _ (zap_raw_lookup _ _ _ _ _ _ Hr)), Hs. destruct (d_salt d) as [s|]; [|done].
  rewrite Hl. reflexivity.
Qed.
Lemma root_held : rooted -> Forall repeatable ms ->
  select_uberblock d_topo (d_ashift d) ms = (Ok (d_ub d), ms) /\
  read_objset d_topo (ptr (d_ub d)) d_order ms = (Ok (d_set d), ms) /\
  read_object_dnode d_topo (os_dnode (d_set d)) MOS_OBJECT_DIRECTORY d_order ms = (Ok (d_objdir d), ms).
Proof using.
  intros (Hub & Hr & Hlay & (bonus & Ho) & _) Hrep. split; [|split].
  - rewrite select_newest, stored_match by done. set (ubs := stored_uberblocks _ _ _) in *. pose proof (fold_newer ubs) as Hf.
    destruct (fold_left newer ubs None) as [ub|]; [|destruct Hub as ([|? ?] & ? & Heq & _); rewrite Hf in Heq; discriminate].
    now rewrite (newest_unique ubs ub (d_ub d) Hf Hub).
  - unfold read_objset. rewrite (SM_run _ _ _ _ _ Hr). unfold sm_lift.
    rewrite (with_decoder_ends d_order Os.from_decoder (Os.layout d_order (d_set d)) (d_set d)); [done|now apply Os.ends_object_set|now apply Os.os_layout_ok].
  - exact (object_at_dnode _ _ _ _ _ _ _ Ho).
Qed.

Lemma import_held : configured -> rooted ->
  import ms = (match d_refused with Some t => Err (UnsupportedFeature t) | None => Ok d_pool end, ms).
Proof using.
  intros (Hms & H0 & Hfl & Hg & Hn & Hch & (u & Ht) & Ha & Hfa & Hv & Hlay) Hroot.
  assert (Hrep : Forall repeatable ms) by (clear - Hms; induction Hms as [|m c ? ? [Hm _]]; constructor; done).
  destruct (root_held Hroot Hrep) as (Hub & Hset & Hdir).
  destruct (read_label ms configs Hms 0 _ H0) as (buf & c & Hbuf & Hl & Hc). change (Z.of_nat 0) with 0 in Hbuf.
  destruct (nv_nvlist_holds c _ Hc _ _ _ Ht) as (vt & Hvt & Hhvt).
  pose proof (nv_u64_holds c _ Hc "pool_guid") as Hg'. rewrite Hg in Hg'. pose proof (nv_u64_holds vt _ Hhvt "ashift") as Ha'. rewrite Ha in Ha'.
  unfold import. rewrite (SM_run sm_get _ _ _ _ eq_refl).
  assert (Hne : (blen ms =? 0) = false).
  { clear - Hms H0. destruct Hms as [|m ? ms' ? _ _]; [done|]. rewrite blen_cons. pose proof (blen_nonneg ms'). apply Z.eqb_neq. lia. }
  rewrite Hne.
  rewrite (SM_run (sm_guard false _) _ _ tt _ eq_refl), (SM_run _ _ _ _ _ Hbuf), (SM_run_lift _ _ _ _ Hl), (SM_run_lift _ _ _ _ Hg').
  rewrite (SM_run_lift _ _ _ _ (nv_str_holds c _ Hc _ _ Hn)). unfold d_refused.
  pose proof (label_features_held c _ Hc Hfl) as Hlf. destruct (first_refused (label_names (d_config d))) as [t|]; cbn [gate] in Hlf.
  { unfold mbind at 1, SM_bind at 1, sm_lift at 1. now rewrite Hlf. }
  rewrite (SM_run_lift _ _ _ _ Hlf), (SM_run_lift _ _ _ _ (one_child_held c Hc Hch)), (SM_run_lift _ _ _ _ Hvt), (SM_run_lift _ _ _ _ Ha').
  rewrite (proj2 (fitsb_spec 8 (d_ashift d)) Hfa). pose proof (build_topology_held ms configs Hms vt _ _ Hhvt Hv) as Hb. rewrite Hlay in Hb.
  rewrite (SM_run _ _ _ _ _ Hb). change {| layout := d_layout d; Vdev.checksum_salt := None |} with d_topo.
  rewrite (SM_run _ _ _ _ _ Hub). change (Bp.bp_order (ptr (d_ub d))) with d_order. destruct (raidz_reflow_info (d_ub d) =? 0); cbn [negb]; [|done].
  rewrite (SM_run (sm_guard false _) _ _ tt _ eq_refl), (SM_run _ _ _ _ _ Hset), (SM_run _ _ _ _ _ Hdir).
  pose proof (mos_features_held Hroot) as Hm. destruct (first_refused (active (d_features d))) as [t|]; cbn [gate] in Hm.
  { unfold mbind at 1, SM_bind at 1. now rewrite Hm. }
  rewrite (SM_run _ _ _ _ _ Hm). now rewrite (SM_run _ _ _ _ _ (salt_held Hroot)).
Qed.
End described.

(** ** What an import promises *)

(** C7: On members whose labels hold configurations, and whose newest uberblock leads to an object set
    and an object directory, importing is what the configuration of the first
    label says: the pool's name and guid, the layout of the vdev it describes, the
    newest uberblock and the dnode array and salt behind it; unless a feature that is
    in the label, or active in the object directory, is not understood, and then
    the import fails with the token of the first of these.  Nothing else of
    the members decides it, and they are left as they were. *)
Theorem import_refines {B : Build} {R} `{BlockRead R} (ms : list (PoolMember R)) configs d :
  configured ms configs d -> rooted ms d ->
  import ms = (match d_refused d with Some t => Err (UnsupportedFeature t) | None => Ok (d_pool d) end, ms) /\
  (d_refused d = None <->
     Forall (fun n => understood n = true) (label_names (d_config d)) /\ raidz_reflow_info (d_ub d) = 0 /\
     Forall (fun n => understood n = true) (active (d_features d))).
Proof.
  intros Hc Hr. split; [now apply (import_held ms configs)|]. unfold d_refused. rewrite <- !first_refused_none.
  destruct (first_refused (label_names (d_config d))); [easy|]. destruct (Z.eqb_spec (raidz_reflow_info (d_ub d)) 0); [tauto|].
  split; [done|]. now intros (_ & ? & _).
Qed.

(** A configuration that is packed and written into the name-value region of a label reads
    back from the label. *)
Lemma label_config_written {B : Build} u ps pad data order :
  entries_fit ps -> bytes_ok pad -> blen (packed (u, ps) ++ pad) = LabelNvPairs.PAYLOAD_SIZE -> blen data = LabelNvPairs.SIZE ->
  exists buf c, LabelNvPairs.to_bytes x86 {| payload := packed (u, ps) ++ pad |} data L0_NVPAIRS_SECTOR order = Ok buf /\
    blen buf = LabelNvPairs.SIZE /\ bytes_ok buf /\ label_config buf = Ok c /\ holds c ps.
Proof.
  intros Hps Hpad Hlen Hdata. destruct (packed_holds u ps pad Hps Hpad) as (c & Hc & Hh).
  destruct (signed_region_ok x86 LabelNvPairs.SIZE {| payload := packed (u, ps) ++ pad |} data L0_NVPAIRS_SECTOR order) as (buf & Hb & Hl & Hf & _ & Hok);
    [vm_compute; split; congruence|exact Hdata|exact Hlen|]. exists buf, c. split; [exact Hb|]. split; [exact Hl|].
  split; [now apply Hok, packed_ok|]. split; [|exact Hh].
  unfold label_config. unfold LabelNvPairs.from_bytes. rewrite Hf. cbn [map_err mbind outcome_bind payload]. now rewrite Hc.
Qed.

(** A pool whose configuration was packed and written into the name-value region of a
    member's first label is identified by the GUID and the name of that configuration,
    without being imported. *)
Theorem peek_reads_label {B : Build} {R} `{BlockRead R} (m : PoolMember R) u ps pad data order buf guid name :
  entries_fit ps -> bytes_ok pad -> blen (packed (u, ps) ++ pad) = LabelNvPairs.PAYLOAD_SIZE -> blen data = LabelNvPairs.SIZE ->
  LabelNvPairs.to_bytes x86 {| payload := packed (u, ps) ++ pad |} data L0_NVPAIRS_SECTOR order = Ok buf ->
  repeatable m -> fst (read_at (reader m) L0_NVPAIRS_BYTE LabelNvPairs.SIZE) = Some buf ->
  lookup_key ps "pool_guid" = Some (NU64 guid) -> lookup_key ps "name" = Some (NStr name) ->
  peek_pool_id m = (Ok (guid, name), m) /\ member_config m ps.
Proof.
  intros Hps Hpad Hlen Hdata Hb Hm Hr Hg Hn. destruct (label_config_written u ps pad data order Hps Hpad Hlen Hdata) as (buf' & c & Hb' & _ & _ & Hc & Hh).
  rewrite Hb in Hb'. injection Hb' as <-. split; [|split; [done|now exists buf, c]]. unfold peek_pool_id, read_nvpairs.
  rewrite (SM_run _ _ _ buf m) by (rewrite member_exact_repeatable, Hr; done). rewrite (SM_run_lift _ _ _ _ Hc).
  rewrite (SM_run_lift _ _ _ guid) by (rewrite (nv_u64_holds c ps Hh), Hg; done). now rewrite (SM_run_lift _ _ _ _ (nv_str_holds c ps Hh _ _ Hn)).
Qed.

(** ** An example: one disk with a label, two uberblocks and the pool of Dataset.v *)
Definition image : Type := list (Z * Z * bytes).
Definition image_at (i : image) (off n : Z) : option bytes :=
  match List.find (fun e => (fst (fst e) <=? off) && (off + n <=? fst (fst e) + snd (fst e))) i with
  | Some (base, _, bs) =>
      match get_range bs (off - base) (off - base + n) with
      | Some r => if forallb is_byteb r then Some r else None
      | None => None
      end
  | None => None
  end.
#[global] Instance image_read : BlockRead image.
Proof.
  refine {| read_at := fun i off n => (image_at i off n, i) |}.
  intros i off n bs i' Hn [= Hi _]. unfold image_at in Hi. destruct (List.find _ i) as [[[base span] l]|]; [|done].
  destruct (get_range l _ _) as [r|] eqn:E; [|done]. destruct (forallb is_byteb r) eqn:Eb; [|done]. injection Hi as <-.
  split; [apply blen_get_range in E; lia|]. rewrite forallb_forall in Eb. apply Forall_forall.
  intros x Hx%list_elem_of_In. apply Eb in Hx. unfold is_byteb, is_byte in *. lia.
Defined.

Definition tank_tree : list entry :=
  [(ascii_bytes "type", 48, NStr (ascii_bytes "disk")); (ascii_bytes "ashift", 32, NU64 9); (ascii_bytes "guid", 32, NU64 5)].
Definition tank_config : list entry :=
  [(ascii_bytes "name", 48, NStr (ascii_bytes "tank")); (ascii_bytes "pool_guid", 32, NU64 77); (ascii_bytes "guid", 32, NU64 5);
   (ascii_bytes "vdev_children", 32, NU64 1); (ascii_bytes "vdev_tree", 64, NList NvUnique.Name tank_tree);
   (ascii_bytes "features_for_read", 64, NList NvUnique.Name [(ascii_bytes "com.delphix:hole_birth", 48, NFlag)])].
Definition tank_packed : bytes := Eval vm_compute in packed (NvUnique.Name, tank_config).
Definition tank_pad : bytes := zrep (LabelNvPairs.PAYLOAD_SIZE - blen tank_packed) 0.
Definition mos_set : ObjectSet := {|
  os_dnode := mos_array; zil_header := zil_header pool_set; os_type := ObjectSetType.Meta; user_accounting_complete := false;
  user_object_accounting_complete := false; project_quota_complete := false; portable_mac := zrep 32 0; local_mac := zrep 32 0;
  extension := ExtZero |}.
Definition mos_set_data : bytes := Eval vm_compute in Os.layout Little mos_set.
Definition tank_ub (t : Z) : UberBlock := {|
  checkpoint_txg := 0; raidz_reflow_info := 0; ub_order := Little; guid_sum := 5; mmp := None;
  ptr := Regular (sample_pointer mos_set_data 28); software_version := Some SpaVersion.V5000; timestamp := 1700000000; txg := t;
  version := SpaVersion.V5000 |}.
Definition ub_slot (t sector : Z) : bytes := match Ub.to_bytes true (zrep 1024 0) sector (tank_ub t) with Ok bs => bs | _ => [] end.
Definition ub_slots : bytes := Eval vm_compute in ub_slot 4710 256 ++ ub_slot 4711 258.
Definition tank_data : bytes := Eval vm_compute in
  motd_data ++ master_data ++ rootdir_data ++ fs_data ++ objset_data ++ objdir_data ++ children_data ++ nochildren_data ++ mos_data ++ mos_set_data.
Definition tank (label : bytes) : list (PoolMember image) :=
  [Build_PoolMember [(L0_NVPAIRS_BYTE, LabelNvPairs.SIZE, label); (131072, 2048, ub_slots); (LABEL_RESERVE + 4096, 22 * 512, tank_data)] (2 ^ 30)].
Definition tank_description : description := {|
  d_config := tank_config; d_guid := 77; d_name := ascii_bytes "tank"; d_ashift := 9; d_tree := tank_tree; d_vdev := VDisk;
  d_layout := Single 0; d_ub := tank_ub 4711; d_set := mos_set; d_objdir := objdir_object;
  d_entries := [(ascii_bytes "config", 20); (ascii_bytes "root_dataset", 2)]; d_features := []; d_salt := None |}.

(** The nested list of the configuration, reached from its bytes. *)
Lemma nv_reachable_total_witness : exists l l',
  from_bytes tank_packed = Ok l /\ Nvl.get_nv_list l (ascii_bytes "vdev_tree") = Ok (Some l') /\
  (nv_data l' = tank_packed /\ 0 <= nv_offset l' /\ 0 <= nv_length l' /\ nv_offset l' + nv_length l' <= blen tank_packed) /\
  0 < nv_length l' /\ find l' (ascii_bytes "guid") <> Panic.
Proof.
  assert (Hok : bytes_ok tank_packed) by (unfold tank_packed; repeat (constructor; [unfold is_byte; lia|]); constructor).
  destruct (nv_reachable_total tank_packed Hok) as [_ H].
  destruct (from_bytes tank_packed) as [l|e|] eqn:E; [|vm_compute in E; discriminate..].
  destruct (Nvl.get_nv_list l (ascii_bytes "vdev_tree")) as [[l'|]|e|] eqn:El;
    [|vm_compute in E; injection E as <-; vm_compute in El; discriminate..].
  exists l, l'. destruct (H l' (reach_nested _ _ _ _ (reach_root _ _ E) El)) as [Hw Hf].
  split; [reflexivity|]. split; [exact El|]. split; [exact Hw|]. split; [|apply Hf].
  vm_compute in E. injection E as <-. vm_compute in El. injection El as <-. reflexivity.
Defined.
Lemma tank_fits : entries_fit tank_config.
Proof.
  assert (entries_fit tank_tree) by (unfold tank_tree; fit_solve). unfold tank_config. fit_solve; done.
Qed.
Lemma mos_set_layable : Os.layable Little mos_set.
Proof.
  assert (Hd : Dn.option_layable Little (Some mos_array)) by (apply object_okb_layable; vm_compute; reflexivity).
  split; [|split; [exact Hd|split; exact I]].
  split; [exact (proj1 Hd)|]. split; [unfold Zil.wf; splits; try (vm_compute; split; congruence); exact I|].
  splits; try reflexivity; (apply Forall_replicate; unfold is_byte; lia) || exact I.
Qed.
Section tank.
#[local] Existing Instance plain_build.
Context (label : bytes) (c : NvList) (Hok : bytes_ok label) (Hl : blen label = LabelNvPairs.SIZE)
  (Hc : label_config label = Ok c) (Hh : holds c tank_config).

Lemma tank_repeatable : Forall repeatable (tank label).
Proof using. repeat constructor. Qed.
Lemma label_read : image_at (reader (hd (Build_PoolMember [] 0) (tank label))) L0_NVPAIRS_BYTE LabelNvPairs.SIZE = Some label.
Proof using Hok Hl.
  unfold image_at, tank. cbn [hd reader List.find fst snd]. rewrite Z.leb_refl, Z.leb_refl. cbn [andb].
  rewrite Z.sub_diag, Z.add_0_l. rewrite (get_range_at label [] label [] 0 LabelNvPairs.SIZE).
  - replace (forallb is_byteb label) with true; [done|]. symmetry. apply forallb_forall. intros x Hx%list_elem_of_In.
    rewrite Forall_forall in Hok. apply Hok in Hx. unfold is_byteb, is_byte in *. lia.
  - now rewrite app_nil_r.
  - done.
  - rewrite blen_nil. lia.
Qed.
Lemma tank_configured : configured (tank label) [tank_config] tank_description.
Proof using All.
  split.
  { constructor; [|constructor]. split; [now intros|].
    exists label, c. split; [exact label_read|done]. }
  splits; try (vm_compute; reflexivity); [right; vm_compute; reflexivity|exists NvUnique.Name; vm_compute; reflexivity|
    vm_compute; split; congruence|left; vm_compute; reflexivity].
Qed.
Ltac held := split; [reflexivity|]; split; [reflexivity|]; split;
  [eexists; split; [reflexivity|vm_compute; reflexivity]|]; split; vm_compute; reflexivity.
Lemma tank_rooted : rooted (tank label) tank_description.
Proof using.
  assert (Hdir : block_held (tank label) objdir_object (zap_data [("config", 20); ("root_dataset", 2)])) by held.
  split; [|split; [|split; [|split; [|split; [|split; [|split]]]]]].
  - exists [tank_ub 4710], []. split; [vm_compute; reflexivity|]. split; [|constructor]. constructor; [left; reflexivity|constructor].
  - vm_compute. reflexivity.
  - exact mos_set_layable.
  - exists []. change (d_topo tank_description) with disk_topo. change (d_order tank_description) with Little.
    apply (sample_object_at _ _ mos_data); [held|vm_compute; reflexivity|vm_compute; reflexivity|vm_compute; reflexivity
      |vm_compute; split; congruence|vm_compute; congruence].
  - apply (sample_zap_at _ _ [("config", 20); ("root_dataset", 2)]); [exact Hdir|vm_compute; reflexivity|vm_compute; reflexivity].
  - vm_compute. reflexivity.
  - destruct (block_held_stored (tank label) _ _ Hdir) as (Hst & Hbl & _).
    exists ((fun e => (fst e, int_to Big 8 (snd e))) <$> micro_pairs (zap_slots [("config", 20); ("root_dataset", 2)])). split; [|vm_compute; reflexivity].
    exists [Leaf (zap_data [("config", 20); ("root_dataset", 2)])]. split; [exact Hst|]. split; [vm_compute; reflexivity|]. left.
    exists zap_header0, (zap_slots [("config", 20); ("root_dataset", 2)]), []. split; [exact Hbl|].
    split; [vm_compute; split; congruence|]. split; [apply entries_okb_layable; vm_compute; reflexivity|reflexivity].
  - done.
Qed.
End tank.

Lemma import_refines_witness :
  exists label, import (B := plain_build) (tank label) = (Ok (d_pool tank_description), tank label).
Proof.
  destruct (label_config_written (B := plain_build) NvUnique.Name tank_config tank_pad (zrep LabelNvPairs.SIZE 0) Little tank_fits)
    as (buf & c & Hb & Hl & Hok & Hc & Hh).
  - apply bytes_ok_zrep.
  - vm_compute. reflexivity.
  - vm_compute. reflexivity.
  - exists buf. exact (proj1 (import_refines (B := plain_build) (tank buf) [tank_config] tank_description
      (tank_configured buf c Hok Hl Hc Hh) (tank_rooted buf))).
Defined.
Lemma peek_reads_label_witness :
  exists label, peek_pool_id (B := plain_build) (hd (Build_PoolMember [] 0) (tank label)) =
    (Ok (77, ascii_bytes "tank"), hd (Build_PoolMember [] 0) (tank label)).
Proof.
  assert (Hlen : blen (packed (NvUnique.Name, tank_config) ++ tank_pad) = LabelNvPairs.PAYLOAD_SIZE) by (vm_compute; reflexivity).
  assert (Hz : blen (zrep LabelNvPairs.SIZE 0) = LabelNvPairs.SIZE) by (vm_compute; reflexivity).
  destruct (label_config_written (B := plain_build) NvUnique.Name tank_config tank_pad (zrep LabelNvPairs.SIZE 0) Little tank_fits
              (bytes_ok_zrep _) Hlen Hz) as (buf & c & Hb & Hl & Hok & Hc & Hh).
  exists buf. refine (proj1 (peek_reads_label (B := plain_build) (hd (Build_PoolMember [] 0) (tank buf)) NvUnique.Name tank_config tank_pad
    (zrep LabelNvPairs.SIZE 0) Little buf 77 (ascii_bytes "tank") tank_fits (bytes_ok_zrep _) Hlen Hz Hb _ _ _ _)).
  - exact (fun _ _ => eq_refl).
  - exact (label_read buf Hok Hl).
  - vm_compute. reflexivity.
  - vm_compute. reflexivity.
Defined.
Lemma tank_has_uberblocks : stored_uberblocks (B := plain_build) 9 (tank []) disk_topo <> [].
Proof. destruct (proj1 (tank_rooted [])) as (before & after & H & _). intros E. apply (app_cons_not_nil before after (tank_ub 4711)). rewrite <- E. exact H. Qed.
Lemma uberblock_newest_witness :
  select_uberblock (B := plain_build) disk_topo 9 (tank []) = (Ok (tank_ub 4711), tank []).
Proof.
  destruct (uberblock_newest (B := plain_build) (tank []) disk_topo 9 (tank_repeatable [])) as [[H _]|(ub & H & Hn & _)].
  - exact (False_ind _ (tank_has_uberblocks H)).
  - rewrite H. do 2 f_equal. refine (newest_unique _ _ _ Hn (proj1 (tank_rooted []))).
Defined.
