(* ===== verification/Zfs.v ===== *)
(** * The reader's interface (src/lib.rs)

    [Zfs] is an imported pool with its members.  Its operations list datasets
    and directories and read files by path; each is a walk of Dataset.v and
    FileRead.v from the pool's object set. *)

From S2P Require Import Prelude Errors Decoder Encoder Codec Types Dva BlockPointer Fletcher Sha256 LabelChecksum Cksum Compress.
From S2P Require Import Vdev Heal Dnode FileRead ObjectSet Zap Walk WalkSafe Dsl Dataset Uberblock Label Nv NvSpec Pool PoolSpec.

Open Scope Z_scope.
Open Scope list_scope.

Definition MAX_FILE_BYTES : Z := 256 * 1024 * 1024.
Definition MAX_DATASETS : Z := 256.
Definition MAX_DATASET_DEPTH : Z := 16.
Definition DIRENT_OBJ_MASK : Z := Z.shiftl 1 48 - 1.

Module EntryKind.
Inductive t : Type := Regular | Directory | Symlink | Other.
#[global] Instance kind_eq_dec : EqDecision t. Proof. solve_decision. Defined.
End EntryKind.
Record DirEntry : Type := { de_name : bytes; de_kind : EntryKind.t; object_id : Z }.
Record Stat : Type := { st_kind : EntryKind.t; st_size : Z }.
Record PoolId : Type := { id_guid : Z; id_name : bytes }.

Definition dirent_kind (value : Z) : EntryKind.t :=
  match Z.shiftr value 60 with
  | 4 => EntryKind.Directory
  | 8 => EntryKind.Regular
  | 10 => EntryKind.Symlink
  | _ => EntryKind.Other
  end.

Section zfs.
Context {B : Build} {R : Type} `{BlockRead R}.

Definition peek_pool_id : SM (PoolMember R) Error PoolId :=
  '(guid, name) ← Pool.peek_pool_id; mret {| id_guid := guid; id_name := name |}.

Record Zfs : Type := { z_members : list (PoolMember R); z_pool : ImportedPool }.
Abbreviation M := (SM Zfs Error).

(** The members are consumed: on an error they are gone with the pool. *)
Definition import (members : list (PoolMember R)) : outcome Error Zfs :=
  let '(r, members) := Pool.import members in
  pool ← r; Ok {| z_members := members; z_pool := pool |}.

Definition pool_guid (z : Zfs) : Z := Pool.pool_guid (z_pool z).
Definition pool_name (z : Zfs) : bytes := Pool.pool_name (z_pool z).
Definition txg (z : Zfs) : Z := Uberblock.txg (uberblock (z_pool z)).
Definition member_count (z : Zfs) : Z := blen (z_members z).

(** A call with [&mut self.members] and what it needs of the pool. *)
Definition on_members {A} (f : ImportedPool -> SM (list (PoolMember R)) Error A) : M A :=
  fun z => let '(r, ms) := f (z_pool z) (z_members z) in (r, {| z_members := ms; z_pool := z_pool z |}).

Definition child_datasets (parent : list bytes) : M (list bytes) :=
  on_members (fun p => child_dataset_names (topology p) (mos_dnode p) (pool_order p) parent).

(** The children of one dataset: into the output and onto the queue, while there is room. *)
Fixpoint push_children (parent children : list bytes) (out queue : list (list bytes)) : list (list bytes) * list (list bytes) :=
  match children with
  | [] => (out, queue)
  | child :: children' =>
      if MAX_DATASETS <=? blen out then (out, queue)
      else let path := parent ++ [child] in push_children parent children' (out ++ [path]) (path :: queue)
  end.
(** The last path of the queue is its head here, since [pop] takes the last; [fuel] bounds the turns. *)
Fixpoint datasets_loop (fuel : nat) (out queue : list (list bytes)) : M (list (list bytes)) :=
  match queue, fuel with
  | [], _ => mret out
  | _ :: _, O => sm_panic
  | parent :: queue', S fuel' =>
      if (MAX_DATASETS <=? blen out) || (MAX_DATASET_DEPTH <=? blen parent) then datasets_loop fuel' out queue'
      else
        sm_catch (child_datasets parent)
          (fun children => let '(out, queue) := push_children parent children out queue' in datasets_loop fuel' out queue)
          (fun _ => datasets_loop fuel' out queue')
  end.
Definition datasets : M (list (list bytes)) := datasets_loop (Z.to_nat MAX_DATASETS) [[]] [[]].

Definition open_dataset (dataset_path : list bytes) : M Dataset :=
  on_members (fun p => Dataset.open_dataset (topology p) (mos_dnode p) (pool_order p) dataset_path).
Definition resolve (ds : Dataset) (path : list bytes) : M (Z * Z) :=
  on_members (fun p => resolve_path (topology p) ds (pool_order p) path).

Definition read_dir (dataset_path dir_path : list bytes) : M (list DirEntry) :=
  ds ← open_dataset dataset_path;
  dir_obj ← (if bool_decide (dir_path = []) then on_members (fun p => root_dir_obj (topology p) ds (pool_order p))
             else
               '(obj, value) ← resolve ds dir_path;
               sm_guard (negb (bool_decide (dirent_kind value = EntryKind.Directory))) NotADirectory;;
               mret obj);
  entries ← on_members (fun p => list_dir (topology p) ds dir_obj (pool_order p));
  mret ((fun e => {| de_name := fst e; de_kind := dirent_kind (snd e); object_id := Z.land (snd e) DIRENT_OBJ_MASK |}) <$> entries).

Definition stat (dataset_path path : list bytes) : M Stat :=
  ds ← open_dataset dataset_path;
  if bool_decide (path = []) then mret {| st_kind := EntryKind.Directory; st_size := 0 |}
  else
    '(obj, value) ← resolve ds path;
    let kind := dirent_kind value in
    size ← (if bool_decide (kind = EntryKind.Regular) then
              order ← sm_gets (fun z => pool_order (z_pool z));
              object ← on_members (fun p => read_object (topology p) (meta_dnode ds) obj (pool_order p));
              sm_lift (sa_file_size (od_bonus object) order)
            else mret 0);
    mret {| st_kind := kind; st_size := size |}.

Definition exists_ (dataset_path path : list bytes) : M bool :=
  sm_catch (stat dataset_path path) (fun _ => mret true)
    (fun e => match e with NotFound _ => mret false | e => sm_err e end).

Definition regular_file (ds : Dataset) (file_path : list bytes) : M (Dnode * Z) :=
  '(obj, value) ← resolve ds file_path;
  sm_guard (negb (bool_decide (dirent_kind value = EntryKind.Regular))) NotARegularFile;;
  order ← sm_gets (fun z => pool_order (z_pool z));
  object ← on_members (fun p => read_object (topology p) (meta_dnode ds) obj (pool_order p));
  size ← sm_lift (sa_file_size (od_bonus object) order);
  mret (od_dnode object, size).

(** A size that is below the limit converts to [usize]. *)
Definition read (dataset_path file_path : list bytes) : M bytes :=
  ds ← open_dataset dataset_path;
  '(dnode, size) ← regular_file ds file_path;
  sm_guard (MAX_FILE_BYTES <? size) (FileTooLarge size MAX_FILE_BYTES);;
  on_members (fun p => read_dnode_range (topology p) dnode 0 size (pool_order p)).

Definition read_at (dataset_path file_path : list bytes) (offset len : Z) : M bytes :=
  ds ← open_dataset dataset_path;
  '(dnode, size) ← regular_file ds file_path;
  if size <=? offset then mret []
  else
    let want := Z.min len (size - offset) in
    sm_guard (MAX_FILE_BYTES <? want) (FileTooLarge want MAX_FILE_BYTES);;
    on_members (fun p => read_dnode_range (topology p) dnode offset want (pool_order p)).
End zfs.
Arguments Zfs _ : clear implicits.

(** ** The list of datasets is bounded *)
Definition extend (parent : list bytes) (child : bytes) : list bytes := parent ++ [child].
Definition room (out : list (list bytes)) : nat := (256 - length out)%nat.

Lemma push_children_spec parent children : forall out queue,
  let new := extend parent <$> take (room out) children in
  push_children parent children out queue = (out ++ new, rev new ++ queue).
Proof.
  induction children as [|c children IH]; intros out queue; cbn [push_children].
  { unfold room. rewrite take_nil. cbn. now rewrite app_nil_r. }
  unfold MAX_DATASETS, blen. destruct (Z.leb_spec 256 (Z.of_nat (length out))) as [Hge|Hlt].
  { replace (room out) with 0%nat by (unfold room; lia). cbn. now rewrite app_nil_r. }
  rewrite IH. replace (room out) with (S (room (out ++ [parent ++ [c]]))) by (unfold room; rewrite length_app; cbn [length]; lia).
  cbn [take fmap list_fmap rev]. unfold extend at 1 3. rewrite <- !app_assoc. done.
Qed.

(** What every list of datasets is, in the course of it: no more than 256 paths, none longer than 16, from the
    root on, each the extension of one that is listed. *)
Definition listing (out : list (list bytes)) : Prop :=
  blen out <= MAX_DATASETS /\ Forall (fun p => blen p <= MAX_DATASET_DEPTH) out /\ head out = Some [] /\
  Forall (fun p => p = [] \/ exists q n, p = extend q n /\ q ∈ out) out.

Lemma listing_extend out parent new :
  listing out -> parent ∈ out -> blen parent < MAX_DATASET_DEPTH -> (length new <= room out)%nat ->
  listing (out ++ (extend parent <$> new)).
Proof.
  intros (Hn & Hd & Hh & Hc) Hp Hlt Hroom. unfold listing, MAX_DATASETS, MAX_DATASET_DEPTH in *. split; [|split; [|split]].
  - unfold room in Hroom. rewrite blen_app. unfold blen in *. rewrite length_fmap. lia.
  - apply Forall_app. split; [done|]. apply Forall_fmap, Forall_true. intros c. cbn. unfold extend. rewrite blen_app.
    change (blen [c]) with 1. lia.
  - destruct out; [done|]. exact Hh.
  - apply Forall_app. split.
    + eapply Forall_impl; [exact Hc|]. intros p [->|(q & n & -> & Hq)]; [now left|right]. exists q, n. split; [done|]. apply elem_of_app. now left.
    + apply Forall_fmap, Forall_true. intros c. right. exists parent, c. split; [done|]. apply elem_of_app. now left.
Qed.

Section bounded.
Context {B : Build} {R : Type} `{BlockRead R} (F : Prop) (I : Zfs R -> Prop).
(** Listing the children of a dataset does not panic, unless [F]. *)
Hypothesis Hchild : forall names, hoare_upto F I (child_datasets names) (fun _ => True).

(** The list of datasets is finished, without an error. *)
Definition listed (r : outcome Error (list (list bytes))) (z : Zfs R) : Prop :=
  I z /\ match r with Ok out => listing out | Err _ => False | Panic => F end.

Lemma datasets_loop_bounded fuel : forall out queue z,
  I z -> listing out -> Forall (fun p => p ∈ out) queue -> (length queue + room out <= fuel)%nat ->
  wp (datasets_loop fuel out queue) listed z.
Proof using Hchild.
  induction fuel as [|fuel IH]; intros out queue z Hz Hl Hq Hf; (destruct queue as [|parent queue]; [done|]).
  { cbn in Hf. lia. }
  apply Forall_cons in Hq as [Hp Hq]. cbn [datasets_loop]. destruct ((MAX_DATASETS <=? blen out) || (MAX_DATASET_DEPTH <=? blen parent)) eqn:E.
  { apply IH; [done|done|done|cbn in Hf; lia]. }
  apply orb_false_elim in E as [En Ed]. apply Z.leb_gt in En, Ed. unfold wp, sm_catch. destruct (Hchild parent z Hz) as [Hz1 Hr].
  destruct (child_datasets parent z) as [[children|e|] z1]; cbn [fst snd] in *; [| |done].
  2: { apply IH; [done|done|done|cbn in Hf; lia]. }
  rewrite push_children_spec. set (new := take (room out) children).
  assert (Hnew : (length new <= room out)%nat) by (unfold new; rewrite length_take; lia).
  assert (Hlen : length (extend parent <$> new) = length new) by apply length_fmap.
  apply (IH (out ++ (extend parent <$> new)) (rev (extend parent <$> new) ++ queue) z1 Hz1).
  - now apply listing_extend.
  - apply Forall_app. split.
    + apply Forall_rev, Forall_forall. intros x Hx. apply elem_of_app. now right.
    + eapply Forall_impl; [exact Hq|]. intros x Hx. apply elem_of_app. now left.
  - unfold MAX_DATASETS, blen, room in *. cbn [length] in Hf. rewrite !length_app, length_rev, Hlen. lia.
Qed.
(** Whatever the devices return, the list of datasets is finished within its bounds: no more than 256 paths, none of
    more than 16 names, from the root on, each below one that is listed; a dataset that cannot
    be listed is passed over and no error is returned. *)
Lemma datasets_bounded z : I z -> wp datasets listed z.
Proof using Hchild.
  intros Hz. apply datasets_loop_bounded; [done| | |].
  - split; [done|]. split; [apply Forall_singleton; vm_compute; congruence|]. split; [done|]. apply Forall_singleton. now left.
  - apply Forall_singleton. left.
  - apply Nat.leb_le. vm_compute. reflexivity.
Qed.
End bounded.

(** ** Every dataset is listed *)
Definition visible (children : list (bytes * dsl_tree)) : list (bytes * dsl_tree) :=
  List.filter (fun c => negb (starts_with_dollar (fst c))) children.
(** The paths of the datasets of a tree, those under a name that starts with a dollar left out. *)
Fixpoint ds_paths (t : dsl_tree) : list (list bytes) :=
  let 'Ds _ children := t in
  [] :: flat_map (fun c : bytes * dsl_tree => if negb (starts_with_dollar (fst c)) then cons (fst c) <$> ds_paths (snd c) else []) children.
Fixpoint names_unique (t : dsl_tree) : Prop :=
  let 'Ds _ children := t in
  NoDup (fst <$> children) /\ fold_right (fun (c : bytes * dsl_tree) P => names_unique (snd c) /\ P) True children.

Lemma ds_paths_visible h ch : ds_paths (Ds h ch) = [] :: flat_map (fun c => cons (fst c) <$> ds_paths (snd c)) (visible ch).
Proof.
  cbn [ds_paths]. f_equal. unfold visible. induction ch as [|c ch IH]; [done|]. cbn [flat_map List.filter].
  destruct (negb (starts_with_dollar (fst c))); cbn [flat_map app]; now rewrite IH.
Qed.
Lemma visible_names ch : List.filter (fun name => negb (starts_with_dollar name)) (fst <$> ch) = fst <$> visible ch.
Proof.
  unfold visible. induction ch as [|c ch IH]; [done|]. cbn [fmap list_fmap List.filter].
  destruct (negb (starts_with_dollar (fst c))); cbn [fmap list_fmap]; now rewrite IH.
Qed.
Lemma ds_find_app t p q : ds_find t (p ++ q) = (t' ← ds_find t p; ds_find t' q).
Proof.
  revert t. induction p as [|n p IH]; intros [h ch]; [done|]. cbn [app ds_find]. destruct (find_name n ch); [apply IH|done].
Qed.
Lemma unique_children h ch c : names_unique (Ds h ch) -> c ∈ ch -> names_unique (snd c) /\ find_name (fst c) ch = Some (snd c).
Proof.
  intros [Hn Hall] Hin. split.
  - revert Hall. clear Hn. induction Hin as [|c d ch _ IH]; cbn; tauto.
  - clear Hall. unfold find_name. induction Hin as [c ch|c d ch Hin IH]; cbn [List.find].
    + now rewrite bool_decide_true.
    + rewrite fmap_cons, NoDup_cons in Hn. destruct Hn as [Hnotin Hn]. rewrite bool_decide_false.
      * exact (IH Hn).
      * intros Heq. apply Hnotin. rewrite Heq. now apply list_elem_of_fmap_2.
Qed.
Lemma unique_find t p t' : names_unique t -> ds_find t p = Some t' -> names_unique t'.
Proof.
  revert t. induction p as [|n p IH]; intros [h ch] Hu; [now intros [= <-]|]. cbn [ds_find]. destruct (find_name n ch) as [c|] eqn:E; [|done].
  cbn. apply IH. apply find_name_elem in E. exact (proj1 (unique_children h ch (n, c) Hu E)).
Qed.
Lemma visible_elem c ch : c ∈ visible ch -> c ∈ ch.
Proof. unfold visible. rewrite !list_elem_of_In, filter_In. tauto. Qed.

(** The paths strictly below a dataset at [p]. *)
Definition below (e : list bytes * dsl_tree) : list (list bytes) := app (fst e) <$> List.tl (ds_paths (snd e)).
Definition child_entries (p : list bytes) (ch : list (bytes * dsl_tree)) : list (list bytes * dsl_tree) :=
  (fun c => (extend p (fst c), snd c)) <$> visible ch.

Lemma child_entries_paths p ch : fst <$> rev (child_entries p ch) = rev (extend p <$> (fst <$> visible ch)).
Proof.
  unfold child_entries. induction (visible ch) as [|c v IHv]; [done|]. cbn [fmap list_fmap rev]. now rewrite fmap_app, IHv.
Qed.
Lemma below_children p h ch :
  below (p, Ds h ch) ≡ₚ (extend p <$> (fst <$> visible ch)) ++ flat_map below (child_entries p ch).
Proof.
  unfold below, child_entries. cbn [fst snd]. rewrite ds_paths_visible. cbn [List.tl]. induction (visible ch) as [|[n [h' ch']] v IH]; [done|].
  cbn [flat_map fmap list_fmap fst snd app]. rewrite fmap_app, IH, ds_paths_visible. cbn [List.tl fmap list_fmap app].
  constructor. set (x := flat_map _ (visible ch')).
  replace (app p <$> (cons n <$> x)) with (app (extend p n) <$> x).
  { apply Permutation_app_swap_app. }
  unfold extend. rewrite <- list_fmap_compose. apply list_fmap_ext. intros i y _. cbn. now rewrite <- app_assoc.
Qed.
Lemma below_deeper p t q : q ∈ below (p, t) -> blen p < blen q.
Proof.
  unfold below. destruct t as [h ch]. cbn [fst snd]. rewrite ds_paths_visible. cbn [List.tl]. intros (y & -> & Hy)%list_elem_of_fmap.
  apply list_elem_of_In, in_flat_map in Hy as (c & _ & Hy). apply list_elem_of_In, list_elem_of_fmap in Hy as (z & -> & _).
  rewrite blen_app, blen_cons. pose proof (blen_nonneg z). lia.
Qed.

Lemma zfs_eta {R} (z : Zfs R) : {| z_members := z_members z; z_pool := z_pool z |} = z.
Proof. now destruct z. Qed.
Section complete.
Context {B : Build} {R : Type} `{BlockRead R} (z : Zfs R) (t : dsl_tree).
Abbreviation p := (z_pool z).
Hypothesis Hpool : pool_at (topology p) (pool_order p) (z_members z) (mos_dnode p) t.
Hypothesis Hunique : names_unique t.

Lemma on_members_same {A} (f : ImportedPool -> SM (list (PoolMember R)) Error A) r :
  f p (z_members z) = (r, z_members z) -> on_members f z = (r, z).
Proof using. intros Hf. unfold on_members. now rewrite Hf, zfs_eta. Qed.
Lemma children_listed path h ch : ds_find t path = Some (Ds h ch) -> child_datasets path z = (Ok (fst <$> visible ch), z).
Proof using Hpool.
  intros Hf. unfold child_datasets. apply on_members_same. rewrite (child_names_held _ _ _ _ t path Hpool), Hf. now rewrite visible_names.
Qed.
Lemma child_entries_found path h ch : ds_find t path = Some (Ds h ch) ->
  Forall (fun e => ds_find t (fst e) = Some (snd e)) (child_entries path ch).
Proof using Hunique.
  intros Hf. apply Forall_fmap, Forall_forall. intros c Hc%visible_elem. cbn. unfold extend. rewrite ds_find_app, Hf.
  pose proof (unique_find t path _ Hunique Hf) as Hu. destruct (unique_children h ch c Hu Hc) as [_ Hn]. cbn. now rewrite Hn.
Qed.

Hypothesis Hsmall : (length (ds_paths t) <= 256)%nat.
Hypothesis Hshallow : Forall (fun q => blen q <= MAX_DATASET_DEPTH) (ds_paths t).

Lemma datasets_loop_complete fuel : forall out S,
  Forall (fun e => ds_find t (fst e) = Some (snd e)) S -> ds_paths t ≡ₚ out ++ flat_map below S ->
  (length S + room out <= fuel)%nat ->
  exists out', datasets_loop fuel out (fst <$> S) z = (Ok out', z) /\ out' ≡ₚ ds_paths t.
Proof using All.
  induction fuel as [|fuel IH]; intros out S HS Hp Hf;
    (destruct S as [|[path t'] S]; [exists out; split; [done|]; cbn in Hp; rewrite app_nil_r in Hp; now symmetry|]).
  { cbn in Hf. lia. }
  apply Forall_cons in HS as [Hfind HS]. cbn [fst snd] in Hfind. cbn [fmap list_fmap fst datasets_loop].
  pose proof (Permutation_length Hp) as Hlen. rewrite length_app in Hlen. cbn [flat_map] in Hp, Hlen. rewrite length_app in Hlen.
  destruct ((MAX_DATASETS <=? blen out) || (MAX_DATASET_DEPTH <=? blen path)) eqn:E.
  - assert (Hnil : below (path, t') = []).
    { apply orb_true_iff in E as [E|E]; apply Z.leb_le in E.
      - apply length_zero_iff_nil. unfold MAX_DATASETS, blen in E. lia.
      - destruct (below (path, t')) as [|q l] eqn:Eb; [done|]. exfalso.
        assert (Hq : q ∈ below (path, t')) by (rewrite Eb; left). apply below_deeper in Hq.
        rewrite Forall_forall in Hshallow. specialize (Hshallow q). rewrite Hp in Hshallow.
        assert (blen q <= MAX_DATASET_DEPTH) by (apply Hshallow; apply elem_of_app; right; apply elem_of_app; left; left). lia. }
    rewrite Hnil in Hp. apply IH; [done|done|cbn in Hf; lia].
  - apply orb_false_elim in E as [En _]. apply Z.leb_gt in En. destruct t' as [h ch]. unfold sm_catch.
    rewrite (children_listed path h ch Hfind), push_children_spec.
    rewrite below_children in Hp. pose proof (Permutation_length Hp) as Hlen2. rewrite !length_app, !length_fmap in Hlen2.
    rewrite take_ge by (rewrite length_fmap; unfold room; lia).
    replace (rev (extend path <$> (fst <$> visible ch)) ++ (fst <$> S)) with (fst <$> (rev (child_entries path ch) ++ S)).
    2: { rewrite fmap_app. f_equal. apply child_entries_paths. }
    apply IH.
    + apply Forall_app. split; [|done]. now apply Forall_rev, (child_entries_found path h ch).
    + rewrite Hp, flat_map_app, <- !app_assoc. do 2 apply Permutation_app_head. apply Permutation_app_tail.
      rewrite <- (Permutation_rev (child_entries path ch)). done.
    + unfold room, MAX_DATASETS, blen in *. cbn [length] in Hf. rewrite !length_app, length_rev. unfold child_entries. rewrite !length_fmap. lia.
Qed.
Lemma datasets_complete : exists out, datasets z = (Ok out, z) /\ out ≡ₚ ds_paths t.
Proof using All.
  refine (datasets_loop_complete (Z.to_nat MAX_DATASETS) [[]] [([], t)] _ _ _).
  - now apply Forall_singleton.
  - destruct t as [h ch]. rewrite ds_paths_visible. cbn [flat_map]. unfold below. cbn [fst snd]. rewrite ds_paths_visible. cbn [List.tl].
    rewrite app_nil_r, (list_fmap_id _ : app [] <$> _ = _). done.
  - apply Nat.leb_le. vm_compute. reflexivity.
Qed.
End complete.

(** ** Files and directories *)
Lemma span_window d trees dbsz c off want :
  c = span d trees dbsz 0 (blen c) -> 0 <= off -> 0 <= want -> off + want <= blen c ->
  span d trees dbsz off want = ztake want (zdrop off c).
Proof.
  intros Hc Ho Hw Hl. rewrite Hc at 1. replace (blen c) with (off + (want + (blen c - off - want))) by lia.
  rewrite span_app by lia. rewrite <- (blen_span d trees dbsz 0 off Ho) at 2. rewrite zdrop_app_length.
  rewrite Z.add_0_l, span_app by lia. rewrite <- (blen_span d trees dbsz off want Hw) at 2. now rewrite ztake_app_length.
Qed.

Section files.
Context {B : Build} {R : Type} `{BlockRead R} (z : Zfs R) (t : dsl_tree) (dataset_path : list bytes) (meta : Dnode)
  (children : list (bytes * dsl_tree)) (root : node).
Abbreviation pool := (z_pool z).
Abbreviation topo := (topology pool).
Abbreviation o := (pool_order pool).
Abbreviation ms := (z_members z).
Hypothesis Hpool : pool_at topo o ms (mos_dnode pool) t.
Hypothesis Hds : ds_find t dataset_path = Some (Ds (Some meta) children).
Hypothesis Hfs : fs_at topo o ms meta root.

Lemma opened : open_dataset dataset_path z = (Ok {| meta_dnode := meta |}, z).
Proof using Hpool Hds. unfold open_dataset. apply on_members_same. now rewrite (open_dataset_held _ _ _ _ t dataset_path Hpool), Hds. Qed.

Lemma resolved path v n : fs_find root path = Found v n ->
  resolve {| meta_dnode := meta |} path z = (Ok (Z.land v DIRENT_OBJ_MASK, v), z) /\ node_at topo o ms meta (Z.land v DIRENT_OBJ_MASK) n.
Proof using Hfs.
  intros Hf. assert (Hp : path <> []) by (intros ->; destruct root; discriminate).
  pose proof (resolve_path_held topo o ms meta root path Hfs Hp) as H0. rewrite Hf in H0. destruct H0 as [Hn Hr].
  split; [|exact Hn]. unfold resolve. now apply on_members_same.
Qed.
Lemma unresolved path : path <> [] -> fs_find root path = Missing -> resolve {| meta_dnode := meta |} path z = (Err (NotFound "path"), z).
Proof using Hfs.
  intros Hp Hf. pose proof (resolve_path_held topo o ms meta root path Hfs Hp) as H0. rewrite Hf in H0.
  unfold resolve. now apply on_members_same.
Qed.

Section file.
Context (path : list bytes) (v : Z) (c : bytes) (Hfind : fs_find root path = Found v (File c)) (Hkind : dirent_kind v = EntryKind.Regular).

Lemma file_dnode : exists d trees,
  regular_file {| meta_dnode := meta |} path z = (Ok (d, blen c), z) /\ fits 64 (blen c) /\
  (exists bonus, on_members (fun p => read_object (topology p) meta (Z.land v DIRENT_OBJ_MASK) (pool_order p)) z =
     (Ok {| od_dnode := d; od_bonus := bonus |}, z) /\ sa_file_size bonus o = Ok (blen c)) /\
  forall off want, 0 <= off -> 0 <= want -> off + want <= blen c ->
    on_members (fun p => read_dnode_range (topology p) d off want (pool_order p)) z = (Ok (ztake want (zdrop off c)), z) /\
    object_stored topo o ms d trees.
Proof using Hfs Hfind Hkind.
  destruct (resolved path v _ Hfind) as [Hres Hn]. inversion Hn as [|? d ? Hfile|]; subst.
  destruct Hfile as (bonus & trees & Ho & Hsa & Hst & Hbs & Hsz & Hc). exists d, trees.
  pose proof (sa_file_size_held o (blen c) bonus Hsa) as Hsize. destruct Hsa as (? & ? & ? & ? & ? & _ & _ & _ & _ & _ & Hfits).
  assert (Hobj : on_members (fun p => read_object (topology p) meta (Z.land v DIRENT_OBJ_MASK) (pool_order p)) z =
                 (Ok {| od_dnode := d; od_bonus := bonus |}, z)) by (apply on_members_same; exact (object_at_reads _ _ _ _ _ _ _ Ho)).
  split; [|split; [exact Hfits|split; [now exists bonus|]]].
  - unfold regular_file. rewrite (SM_run _ _ _ _ _ Hres). cbn beta iota. rewrite Hkind, bool_decide_true by done. cbn [negb].
    rewrite (SM_run (sm_guard false _) _ _ tt _ eq_refl), (SM_run (sm_gets _) _ _ _ _ eq_refl).
    cbn [meta_dnode]. rewrite (SM_run _ _ _ _ _ Hobj). cbn [od_bonus od_dnode]. now rewrite (SM_run_lift _ _ _ _ Hsize).
  - intros off want Hoff Hwant Hle. split; [|exact Hst]. apply on_members_same. unfold fits in Hfits.
    rewrite (range_span topo o ms d trees off want Hst Hbs Hsz Hoff Hwant ltac:(lia)). do 2 f_equal. now apply span_window.
Qed.

Lemma read_held : read dataset_path path z =
  (if MAX_FILE_BYTES <? blen c then Err (FileTooLarge (blen c) MAX_FILE_BYTES) else Ok c, z).
Proof using All.
  destruct file_dnode as (d & trees & Hr & _ & _ & Hw). unfold read. rewrite (SM_run _ _ _ _ _ opened), (SM_run _ _ _ _ _ Hr). cbn beta iota.
  destruct (MAX_FILE_BYTES <? blen c); [done|]. rewrite (SM_run (sm_guard false _) _ _ tt _ eq_refl).
  destruct (Hw 0 (blen c) ltac:(lia) (blen_nonneg c) ltac:(lia)) as [-> _]. now rewrite zdrop_0, ztake_ge.
Qed.
Lemma read_at_held off len : 0 <= off -> 0 <= len -> read_at dataset_path path off len z =
  (if blen c <=? off then Ok []
   else let want := Z.min len (blen c - off) in
        if MAX_FILE_BYTES <? want then Err (FileTooLarge want MAX_FILE_BYTES) else Ok (ztake len (zdrop off c)), z).
Proof using All.
  intros Ho Hl. destruct file_dnode as (d & trees & Hr & _ & _ & Hw). unfold read_at.
  rewrite (SM_run _ _ _ _ _ opened), (SM_run _ _ _ _ _ Hr). cbn beta iota zeta. destruct (Z.leb_spec (blen c) off); [done|].
  destruct (MAX_FILE_BYTES <? _); [done|]. rewrite (SM_run (sm_guard false _) _ _ tt _ eq_refl).
  destruct (Hw off (Z.min len (blen c - off)) Ho ltac:(lia) ltac:(lia)) as [-> _]. do 2 f_equal.
  destruct (Z.le_ge_cases len (blen c - off)); [now rewrite Z.min_l|]. rewrite Z.min_r by lia.
  rewrite !ztake_ge; [done|rewrite blen_zdrop; lia|rewrite blen_zdrop; lia].
Qed.
Lemma stat_held : stat dataset_path path z = (Ok {| st_kind := EntryKind.Regular; st_size := blen c |}, z).
Proof using All.
  destruct file_dnode as (d & trees & _ & _ & (bonus & Hobj & Hsize) & _). destruct (resolved path v _ Hfind) as [Hres _]. unfold stat.
  rewrite (SM_run _ _ _ _ _ opened), bool_decide_false by (intros ->; destruct root; discriminate).
  rewrite (SM_run _ _ _ _ _ Hres). cbn beta iota zeta. rewrite Hkind, bool_decide_true, SM_assoc, (SM_run (sm_gets _) _ _ _ _ eq_refl) by done.
  rewrite SM_assoc. cbn [meta_dnode]. rewrite (SM_run _ _ _ _ _ Hobj). cbn [od_bonus]. now rewrite (SM_run_lift _ _ _ _ Hsize).
Qed.
End file.

(** A path that does not resolve, and an entry that is not a regular file. *)
Lemma unresolved_fails path e : path <> [] -> resolve {| meta_dnode := meta |} path z = (Err e, z) ->
  stat dataset_path path z = (Err e, z) /\ read dataset_path path z = (Err e, z) /\
  forall off len, read_at dataset_path path off len z = (Err e, z).
Proof using Hpool Hds.
  intros Hp Hr. assert (Hf : regular_file {| meta_dnode := meta |} path z = (Err e, z)) by (unfold regular_file, mbind, SM_bind; now rewrite Hr).
  unfold stat, read, read_at. rewrite !(SM_run _ _ _ _ _ opened), bool_decide_false by done. split; [|split; [|intros off len; rewrite (SM_run _ _ _ _ _ opened)]];
    unfold mbind, SM_bind; now rewrite ?Hr, ?Hf.
Qed.
Lemma not_file path v n : fs_find root path = Found v n -> dirent_kind v <> EntryKind.Regular ->
  stat dataset_path path z = (Ok {| st_kind := dirent_kind v; st_size := 0 |}, z) /\ read dataset_path path z = (Err NotARegularFile, z) /\
  forall off len, read_at dataset_path path off len z = (Err NotARegularFile, z).
Proof using Hpool Hds Hfs.
  intros Hf Hk. destruct (resolved path v n Hf) as [Hr _].
  assert (Hreg : regular_file {| meta_dnode := meta |} path z = (Err NotARegularFile, z)).
  { unfold regular_file. rewrite (SM_run _ _ _ _ _ Hr). cbn beta iota. now rewrite bool_decide_false. }
  split; [|split; [|intros off len]].
  - unfold stat. rewrite (SM_run _ _ _ _ _ opened), bool_decide_false by (intros ->; destruct root; discriminate).
    rewrite (SM_run _ _ _ _ _ Hr). cbn beta iota zeta. now rewrite bool_decide_false.
  - unfold read. rewrite (SM_run _ _ _ _ _ opened). unfold mbind, SM_bind. now rewrite Hreg.
  - unfold read_at. rewrite (SM_run _ _ _ _ _ opened). unfold mbind, SM_bind. now rewrite Hreg.
Qed.
(** The root of the file system, which has no entry of its own. *)
Lemma root_unresolved : resolve {| meta_dnode := meta |} [] z = (Err (NotFound "empty_path"), z).
Proof using Hfs.
  destruct (root_dir_held topo o ms meta root Hfs) as (obj & _ & Hr). unfold resolve. apply on_members_same. unfold resolve_path.
  now rewrite (SM_run _ _ _ _ _ Hr).
Qed.
Lemma root_answers : stat dataset_path [] z = (Ok {| st_kind := EntryKind.Directory; st_size := 0 |}, z) /\
  read dataset_path [] z = (Err (NotFound "empty_path"), z) /\ forall off len, read_at dataset_path [] off len z = (Err (NotFound "empty_path"), z).
Proof using Hpool Hds Hfs.
  assert (Hreg : regular_file {| meta_dnode := meta |} [] z = (Err (NotFound "empty_path"), z)).
  { unfold regular_file, mbind, SM_bind. now rewrite root_unresolved. }
  split; [unfold stat; now rewrite (SM_run _ _ _ _ _ opened)|]. split; [|intros off len].
  - unfold read. rewrite (SM_run _ _ _ _ _ opened). unfold mbind, SM_bind. now rewrite Hreg.
  - unfold read_at. rewrite (SM_run _ _ _ _ _ opened). unfold mbind, SM_bind. now rewrite Hreg.
Qed.
Lemma exists_found path st : stat dataset_path path z = (Ok st, z) -> exists_ dataset_path path z = (Ok true, z).
Proof using. intros Hs. unfold exists_, sm_catch. now rewrite Hs. Qed.
Lemma exists_missing path c : stat dataset_path path z = (Err (NotFound c), z) -> exists_ dataset_path path z = (Ok false, z).
Proof using. intros Hs. unfold exists_, sm_catch. now rewrite Hs. Qed.
Definition dir_entry (e : bytes * (Z * node)) : DirEntry :=
  {| de_name := fst e; de_kind := dirent_kind (fst (snd e)); object_id := Z.land (fst (snd e)) DIRENT_OBJ_MASK |}.
Lemma list_held obj entries : node_at topo o ms meta obj (Dir entries) ->
  on_members (fun p => list_dir (topology p) {| meta_dnode := meta |} obj (pool_order p)) z =
    (Ok ((fun e => (fst e, fst (snd e))) <$> entries), z).
Proof using.
  intros Hn. inversion Hn as [? d bonus ? Ho Hz _| |]; subst. apply on_members_same. unfold list_dir. cbn [meta_dnode].
  now rewrite (SM_run _ _ _ _ _ (object_at_dnode _ _ _ _ _ _ _ Ho)), (zap_at_lists _ _ _ _ _ Hz).
Qed.
Lemma read_dir_held path v entries :
  (path = [] /\ root = Dir entries) \/ (fs_find root path = Found v (Dir entries) /\ dirent_kind v = EntryKind.Directory) ->
  read_dir dataset_path path z = (Ok (dir_entry <$> entries), z).
Proof using Hpool Hds Hfs.
  intros Hc. unfold read_dir. rewrite (SM_run _ _ _ _ _ opened).
  assert (Hobj : exists obj, node_at topo o ms meta obj (Dir entries) /\
    (if bool_decide (path = []) then on_members (fun p => root_dir_obj (topology p) {| meta_dnode := meta |} (pool_order p))
     else '(obj, value) ← resolve {| meta_dnode := meta |} path;
          sm_guard (negb (bool_decide (dirent_kind value = EntryKind.Directory))) NotADirectory;; mret obj) z = (Ok obj, z)).
  { destruct Hc as [[-> Hr]|[Hf Hk]].
    - destruct (root_dir_held topo o ms meta root Hfs) as (robj & Hn & Hr0). exists robj. split; [now rewrite <- Hr|].
      rewrite bool_decide_true by done. now apply on_members_same.
    - destruct (resolved path v _ Hf) as [Hr Hn]. eexists. split; [exact Hn|].
      rewrite bool_decide_false by (intros ->; destruct root; discriminate).
      rewrite (SM_run _ _ _ _ _ Hr). cbn beta iota. now rewrite Hk, bool_decide_true. }
  destruct Hobj as (obj & Hn & Hobj). rewrite (SM_run _ _ _ _ _ Hobj), (SM_run _ _ _ _ _ (list_held obj entries Hn)).
  unfold mret, SM_ret. do 2 f_equal. rewrite <- list_fmap_compose. done.
Qed.
End files.

(** ** What the interface promises *)

(** The answers of the four operations at a path: those of a regular file with contents [c]; of an entry of another
    kind; and of a path with no entry. *)
Section answers.
Context {B : Build} {R : Type} `{BlockRead R} (z : Zfs R) (dataset_path path : list bytes).
Definition file_answers (c : bytes) : Prop :=
  stat dataset_path path z = (Ok {| st_kind := EntryKind.Regular; st_size := blen c |}, z) /\
  exists_ dataset_path path z = (Ok true, z) /\
  read dataset_path path z = (if MAX_FILE_BYTES <? blen c then Err (FileTooLarge (blen c) MAX_FILE_BYTES) else Ok c, z) /\
  forall off len, 0 <= off -> 0 <= len ->
    read_at dataset_path path off len z =
      (if blen c <=? off then Ok []
       else let want := Z.min len (blen c - off) in
            if MAX_FILE_BYTES <? want then Err (FileTooLarge want MAX_FILE_BYTES) else Ok (ztake len (zdrop off c)), z).
Definition other_answers (kind : EntryKind.t) (refusal : Error) : Prop :=
  stat dataset_path path z = (Ok {| st_kind := kind; st_size := 0 |}, z) /\
  exists_ dataset_path path z = (Ok true, z) /\
  read dataset_path path z = (Err refusal, z) /\
  forall off len, read_at dataset_path path off len z = (Err refusal, z).
Definition missing_answers : Prop :=
  stat dataset_path path z = (Err (NotFound "path"), z) /\
  exists_ dataset_path path z = (Ok false, z) /\
  read dataset_path path z = (Err (NotFound "path"), z) /\
  forall off len, read_at dataset_path path off len z = (Err (NotFound "path"), z).
End answers.

(** A path that does not lead through a file, to an entry that is a file when its kind says so. *)
Definition path_described (root : node) (path : list bytes) : Prop :=
  match fs_find root path with
  | Found v n => dirent_kind v = EntryKind.Regular -> exists c, n = File c
  | Missing => True
  | Blocked => False
  end.

(** C3: On an imported pool whose devices hold a tree of datasets and a file system in one of them, [stat],
    [exists], [read] and [read_at] of a path are lookups in the directories: of a regular file, its size and its
    contents, or the part of them that a window covers, whole and in order, never more than the
    limit and never past the end; of a directory or a special file, its kind, and a refusal to read it; of a
    missing path, that it is not found.  The empty path is the root, a directory that is not read.  A path through a
    file is not described: the code looks the next name up in the file as it does in a directory. *)
Theorem files_refine {B : Build} {R} `{BlockRead R} (z : Zfs R) t dataset_path meta children root :
  pool_at (topology (z_pool z)) (pool_order (z_pool z)) (z_members z) (mos_dnode (z_pool z)) t ->
  ds_find t dataset_path = Some (Ds (Some meta) children) ->
  fs_at (topology (z_pool z)) (pool_order (z_pool z)) (z_members z) meta root ->
  other_answers z dataset_path [] EntryKind.Directory (NotFound "empty_path") /\
  forall path, path <> [] -> path_described root path ->
    match fs_find root path with
    | Found v n =>
        match dirent_kind v, n with
        | EntryKind.Regular, File c => file_answers z dataset_path path c
        | EntryKind.Regular, _ => False
        | kind, _ => other_answers z dataset_path path kind NotARegularFile
        end
    | Missing => missing_answers z dataset_path path
    | Blocked => False
    end.
Proof.
  intros Hp Hd Hf. split.
  { destruct (root_answers z t dataset_path meta children root Hp Hd Hf) as (Hs & Hr & Ha). split; [done|].
    split; [exact (exists_found z dataset_path _ _ Hs)|done]. }
  intros path Hpath Hdesc. unfold path_described in Hdesc. destruct (fs_find root path) as [v n| |] eqn:E; [| |done].
  - assert (Hother : dirent_kind v <> EntryKind.Regular -> other_answers z dataset_path path (dirent_kind v) NotARegularFile).
    { intros Hk. destruct (not_file z t dataset_path meta children root Hp Hd Hf path v n E Hk) as (Hs & Hr & Ha).
      split; [done|]. split; [exact (exists_found z dataset_path _ _ Hs)|done]. }
    destruct (dirent_kind v) eqn:Hk; [|now apply Hother..]. destruct (Hdesc eq_refl) as [c ->].
    pose proof (stat_held z t dataset_path meta children root Hp Hd Hf path v c E Hk) as Hs. split; [exact Hs|].
    split; [exact (exists_found z dataset_path _ _ Hs)|].
    split; [exact (read_held z t dataset_path meta children root Hp Hd Hf path v c E Hk)|].
    exact (read_at_held z t dataset_path meta children root Hp Hd Hf path v c E Hk).
  - destruct (unresolved_fails z t dataset_path meta children Hp Hd path _ Hpath (unresolved z meta root Hf path Hpath E)) as (Hs & Hr & Ha).
    split; [done|]. split; [exact (exists_missing z dataset_path _ _ Hs)|done].
Qed.

(** A directory, the root or one at a path, lists its entries in the order of its ZAP object, each with its
    name, the kind in the upper bits of its value and the object number in the lower ones. *)
Theorem read_dir_lists {B : Build} {R} `{BlockRead R} (z : Zfs R) t dataset_path meta children root path v entries :
  pool_at (topology (z_pool z)) (pool_order (z_pool z)) (z_members z) (mos_dnode (z_pool z)) t ->
  ds_find t dataset_path = Some (Ds (Some meta) children) ->
  fs_at (topology (z_pool z)) (pool_order (z_pool z)) (z_members z) meta root ->
  (path = [] /\ root = Dir entries) \/ (fs_find root path = Found v (Dir entries) /\ dirent_kind v = EntryKind.Directory) ->
  read_dir dataset_path path z = (Ok (dir_entry <$> entries), z).
Proof. intros Hp Hd Hf. apply (read_dir_held z t dataset_path meta children root Hp Hd Hf). Qed.

(** C18: On a pool that holds a tree of datasets which is within the bounds, every dataset is listed, and exactly once:
    the list is a permutation of the paths of the tree. *)
Theorem datasets_all_listed {B : Build} {R} `{BlockRead R} (z : Zfs R) t :
  pool_at (topology (z_pool z)) (pool_order (z_pool z)) (z_members z) (mos_dnode (z_pool z)) t ->
  names_unique t -> (length (ds_paths t) <= 256)%nat -> Forall (fun q => blen q <= MAX_DATASET_DEPTH) (ds_paths t) ->
  exists out, datasets z = (Ok out, z) /\ out ≡ₚ ds_paths t.
Proof. intros Hp Hu Hs Hd. exact (datasets_complete z t Hp Hu Hs Hd). Qed.

(** C1: From the disks to the bytes of a file: members that are described are imported as the pool
    they describe, and reading a file of it returns the contents that its blocks hold. *)
Theorem imported_pool_reads {B : Build} {R} `{BlockRead R} (ms : list (PoolMember R)) configs d t dataset_path meta children root path v c :
  configured ms configs d -> rooted ms d -> d_refused d = None ->
  pool_at (topology (d_pool d)) (d_order d) ms (os_dnode (d_set d)) t ->
  ds_find t dataset_path = Some (Ds (Some meta) children) ->
  fs_at (topology (d_pool d)) (d_order d) ms meta root ->
  fs_find root path = Found v (File c) -> dirent_kind v = EntryKind.Regular -> blen c <= MAX_FILE_BYTES ->
  exists z, import ms = Ok z /\ pool_name z = d_name d /\ pool_guid z = d_guid d /\ txg z = Uberblock.txg (d_ub d) /\
    member_count z = blen ms /\ read dataset_path path z = (Ok c, z).
Proof.
  intros Hc Hr Hn Hp Hd Hf Hfind Hk Hsz. pose proof (import_held ms configs d Hc Hr) as Hi. rewrite Hn in Hi.
  exists {| z_members := ms; z_pool := d_pool d |}. unfold import. rewrite Hi. splits; try done.
  rewrite (read_held {| z_members := ms; z_pool := d_pool d |} t dataset_path meta children root Hp Hd Hf path v c Hfind Hk).
  now rewrite (proj2 (Z.ltb_ge _ _)).
Qed.

(** *** The example pool *)
Definition tank_zfs (label : bytes) : Zfs image := {| z_members := tank label; z_pool := d_pool tank_description |}.
Section sample.
#[local] Existing Instance plain_build.
Context (label : bytes).
Lemma tank_reads : Forall (fun b => read_block_pointer disk_topo (Regular (sample_pointer (fst b) (snd b))) (tank label) =
  (Ok (fst b), tank label)) pool_blocks.
Proof using. repeat (constructor; [vm_compute; reflexivity|]). constructor. Qed.
Lemma tank_pool : pool_at disk_topo Little (tank label) mos_array pool_tree.
Proof using. exact (sample_pool_tree_held (tank label) tank_reads). Qed.
Lemma tank_files : fs_at disk_topo Little (tank label) fs_array file_tree.
Proof using. exact (sample_file_tree_held (tank label) tank_reads). Qed.
End sample.
Abbreviation boot := [ascii_bytes "BOOT"].
Abbreviation motd_path := [ascii_bytes "motd"].

Lemma files_refine_witness :
  read (B := plain_build) boot motd_path (tank_zfs []) = (Ok motd, tank_zfs []) /\
  read_at (B := plain_build) boot motd_path 8 6 (tank_zfs []) = (Ok (ascii_bytes "to the"), tank_zfs []) /\
  stat (B := plain_build) boot [] (tank_zfs []) = (Ok {| st_kind := EntryKind.Directory; st_size := 0 |}, tank_zfs []) /\
  read_at (B := plain_build) boot [ascii_bytes "nothing"] 8 6 (tank_zfs []) = (Err (NotFound "path"), tank_zfs []).
Proof.
  destruct (files_refine (B := plain_build) (tank_zfs []) pool_tree boot fs_array [] file_tree (tank_pool []) eq_refl (tank_files []))
    as [Hroot H]. destruct (H motd_path ltac:(discriminate) (fun _ => ex_intro _ motd eq_refl)) as (_ & _ & Hr & Hat).
  split; [exact Hr|]. split; [exact (Hat 8 6 ltac:(lia) ltac:(lia))|]. split; [apply Hroot|].
  destruct (H [ascii_bytes "nothing"] ltac:(discriminate) I) as (_ & _ & _ & Hm). apply Hm.
Defined.
Lemma read_dir_lists_witness :
  read_dir (B := plain_build) boot [] (tank_zfs []) =
    (Ok [{| de_name := ascii_bytes "motd"; de_kind := EntryKind.Regular; object_id := 3 |}], tank_zfs []).
Proof.
  exact (read_dir_lists (B := plain_build) (tank_zfs []) pool_tree boot fs_array [] file_tree [] 0 _ (tank_pool []) eq_refl (tank_files [])
           (or_introl (conj eq_refl eq_refl))).
Defined.
Lemma datasets_all_listed_witness : exists out, datasets (B := plain_build) (tank_zfs []) = (Ok out, tank_zfs []) /\ out ≡ₚ [[]; boot].
Proof.
  refine (datasets_all_listed (B := plain_build) (tank_zfs []) pool_tree (tank_pool []) _ _ _).
  - vm_compute. repeat split; repeat constructor; rewrite ?elem_of_cons, ?elem_of_nil; intuition discriminate.
  - apply Nat.leb_le. reflexivity.
  - repeat constructor; vm_compute; discriminate.
Defined.
(** A label with its configuration. *)
Lemma tank_label : exists buf, configured (B := plain_build) (tank buf) [tank_config] tank_description.
Proof.
  assert (Hlen : blen (packed (NvUnique.Name, tank_config) ++ tank_pad) = LabelNvPairs.PAYLOAD_SIZE) by (vm_compute; reflexivity).
  assert (Hz : blen (zrep LabelNvPairs.SIZE 0) = LabelNvPairs.SIZE) by (vm_compute; reflexivity).
  destruct (label_config_written (B := plain_build) NvUnique.Name tank_config tank_pad (zrep LabelNvPairs.SIZE 0) Little tank_fits
              (bytes_ok_zrep _) Hlen Hz) as (buf & c & Hb & Hl & Hok & Hc & Hh).
  exists buf. exact (tank_configured buf c Hok Hl Hc Hh).
Qed.
Lemma imported_pool_reads_witness : exists label z, import (B := plain_build) (tank label) = Ok z /\ pool_name z = ascii_bytes "tank" /\
  read (B := plain_build) boot motd_path z = (Ok motd, z).
Proof.
  destruct tank_label as [buf Hconf].
  destruct (imported_pool_reads (B := plain_build) (tank buf) [tank_config] tank_description pool_tree boot fs_array [] file_tree motd_path
              motd_value motd Hconf (tank_rooted buf) eq_refl (tank_pool buf) eq_refl (tank_files buf) eq_refl eq_refl
              ltac:(vm_compute; congruence)) as (z & Hi & Hn & _ & _ & _ & Hr).
  exists buf, z. split; [exact Hi|]. split; [exact Hn|exact Hr].
Defined.
