(* ===== verification/Safe.v ===== *)
(** * Hostile devices

    Importing a pool and serving any sequence of requests, on devices that
    return anything.  On a single disk or a mirror nothing panics, but for one
    fault: a ZAP object of the pool whose first block is shorter than the eight
    bytes of its type.  The members are only ever read, the pool does not
    change, and what is returned stays within the documented limits. *)

From S2P Require Import Prelude Errors Decoder Encoder Codec Types Dva BlockPointer Fletcher Sha256 LabelChecksum Cksum Compress.
From S2P Require Import Vdev Heal Dnode FileRead ObjectSet Zap Walk WalkSafe Dsl Dataset Uberblock Label Nv NvSpec Pool PoolSpec Zfs.

Open Scope string_scope.
Open Scope Z_scope.
Open Scope list_scope.

(** Side conditions of the rules: instances, and what the invariant says. *)
Ltac seen := first [done | apply _ | by (intros; destruct_and?; auto)].

(** ** Objects of a dnode array, and the fault *)
Section walks.
Context {B : Build} {BL : BuildLaws B} {R : Type} `{BlockRead R} (topo : Topology) (o : EndianOrder).
Hypothesis Hplain : plain_layout topo.

#[local] Instance and_closed (I J : list (PoolMember R) -> Prop) :
  ReadClosed I -> ReadClosed J -> ReadClosed (fun ms => I ms /\ J ms).
Proof using. intros HI HJ ms mi m off len [Hi Hj] Hm. split; now apply read_closed. Qed.

(** [d] was read as an object of [array], in the course of reads that started at
    [ms0] and have come to [ms]. *)
Definition object_seen (array : Dnode) (ms0 : list (PoolMember R)) (d : Dnode) (ms : list (PoolMember R)) : Prop :=
  exists n ms1 ms2, after_reads ms0 ms1 /\ read_object_dnode topo array n o ms1 = (Ok d, ms2) /\ after_reads ms2 ms.

#[global] Instance object_seen_closed array ms0 d : ReadClosed (object_seen array ms0 d).
Proof using. intros ms mi m off len (n & ms1 & ms2 & H1 & H2 & H3) Hm. exists n, ms1, ms2. eauto using after_reads_one. Qed.

(** The fault: an object of [array] has a first block without room for a type. *)
Definition short_zap (array : Dnode) (ms0 : list (PoolMember R)) : Prop :=
  exists d ms, object_seen array ms0 d ms /\ short_first_block topo o d ms.

Lemma short_zap_earlier array ms0 ms1 : after_reads ms0 ms1 -> short_zap array ms1 -> short_zap array ms0.
Proof using.
  intros H01 (d & ms & (n & a & b & Ha & Hr & Hb) & Hs). exists d, ms. split; [|done]. exists n, a, b. eauto using after_reads_trans.
Qed.

Section array.
Context (array : Dnode) (ms0 : list (PoolMember R)) (F : Prop).
Hypothesis Harray : Dn.dnode_wf array.
Hypothesis HF : short_zap array ms0 -> F.
Context (T : list (PoolMember R) -> Prop) {HT : ReadClosed T}.
Hypothesis Tseen : forall ms, T ms -> after_reads ms0 ms.

(** Reading an object and going on with its dnode, which has then been seen. *)
Lemma upto_object {A} n (k : Dnode -> SM (list (PoolMember R)) Error A) Q :
  0 <= n ->
  (forall d ms, Dn.dnode_wf d -> T ms -> object_seen array ms0 d ms -> wp (k d) (ends_upto F T Q) ms) ->
  hoare_upto F T (d ← read_object_dnode topo array n o; k d) Q.
Proof using Hplain BL Harray HT Tseen.
  intros Hn Hk ms Hms. eapply (wp_upto_bind _ _ _ _ Dn.dnode_wf).
  { apply (upto_hoare F); [|exact Hms]. unfold read_object_dnode.
    eapply hoare_bind; [now apply hoare_read_object|]. intros x [Hd _]. now apply hoare_ret. }
  intros d ms' Hr Hms' Hd. apply Hk; [done..|]. exists n, ms, ms'. splits; [auto|done|constructor].
Qed.

Lemma upto_entries d ms : Dn.dnode_wf d -> T ms -> object_seen array ms0 d ms ->
  wp (zap_entries topo d o) (ends_upto F T entries_ok) ms.
Proof using Hplain BL HF HT.
  intros Hd Hms Hseen. destruct (zap_entries_upto topo o Hplain d ms Hd Hms) as [Hi Hs]. split; [done|].
  destruct (fst (zap_entries topo d o ms)); [done..|]. apply HF. exists d, ms. auto.
Qed.

Lemma find_name_fits name l v : entries_ok l -> find_name name l = Some v -> fits 64 v.
Proof using. intros Hl Hf%find_name_elem. unfold entries_ok in Hl. rewrite Forall_forall in Hl. exact (Hl _ Hf). Qed.

Lemma upto_lookup d ms name : Dn.dnode_wf d -> T ms -> object_seen array ms0 d ms ->
  wp (zap_lookup topo d name o) (ends_upto F T (fun r => forall v, r = Some v -> fits 64 v)) ms.
Proof using Hplain BL HF HT.
  intros Hd Hms Hseen. eapply wp_upto_bind; [now apply upto_entries|]. intros l ms' _ Hms' Hl. split; [done|].
  intros v. now apply find_name_fits.
Qed.

(** The entries of the ZAP object [n], and one of them that must be there. *)
Lemma upto_listed {A} n (k : list (bytes * Z) -> SM (list (PoolMember R)) Error A) Q :
  0 <= n -> (forall l, entries_ok l -> hoare_upto F T (k l) Q) ->
  hoare_upto F T (d ← read_object_dnode topo array n o; l ← zap_entries topo d o; k l) Q.
Proof using All.
  intros Hn Hk. apply upto_object; [done|]. intros d ms Hd Hms Hs. eapply wp_upto_bind; [now apply upto_entries|].
  intros l ms' _ Hms' Hl. now apply Hk.
Qed.

Lemma upto_found {A} n name e (k : Z -> SM (list (PoolMember R)) Error A) Q :
  0 <= n -> (forall v, 0 <= v -> hoare_upto F T (k v) Q) ->
  hoare_upto F T (d ← read_object_dnode topo array n o; found ← zap_lookup topo d name o; v ← sm_lift (ok_or found e); k v) Q.
Proof using All.
  intros Hn Hk. apply upto_object; [done|]. intros d ms Hd Hms Hs. eapply wp_upto_bind; [now apply upto_lookup|].
  intros r ms' _ Hms' Hr. apply (upto_bind F T _ _ (fits 64)); [|intros v [Hv _]; now apply Hk|done].
  now apply upto_hoare, hoare_lift, safe_ok_or.
Qed.

Lemma upto_lookup_bytes d name : Dn.dnode_wf d -> (forall ms, T ms -> object_seen array ms0 d ms) ->
  hoare_upto F T (zap_lookup_bytes topo d name o) (fun _ => True).
Proof using All.
  intros Hd Hseen ms Hms. unfold zap_lookup_bytes.
  eapply wp_upto_bind; [apply (upto_hoare F); [|exact Hms]; apply hoare_read_dnode_block; done || lia|]. intros [b|] ms1 Er Hms1 Hb; [|now split].
  apply (upto_bind F T _ _ (eq b)); [now apply upto_hoare, hoare_lift| |done]. intros b' <-.
  apply (upto_bind F T _ _ (fun fat => fat = true -> 0 < data_block_size_sectors d)).
  - destruct (Z.eqb_spec (Z.shiftl (data_block_size_sectors d) 9) 0) as [|Hnz]; [now apply upto_hoare, hoare_ret|].
    intros ms2 Hms2. unfold wp, mbind, SM_bind, sm_lift, block_type. destruct (Z_lt_le_dec (blen b) 8) as [Hlt|Hge].
    + rewrite get_range_past by lia. split; [done|]. apply HF. exists d, ms. split; [auto|]. now exists b, ms1.
    + rewrite get_range_ok by lia. split; [done|]. intros _. destruct Hd as (_ & _ & _ & [Hs0 _] & _).
      rewrite Z.shiftl_mul_pow2 in Hnz by lia. lia.
  - intros [] Hfat.
    + eapply upto_bind; [apply upto_hoare, hoare_fat_raw; [done..|auto]|]. intros raw _. now apply upto_hoare, hoare_ret.
    + eapply (upto_bind _ _ _ _ (fun _ => True)); [|intros v _; now apply upto_hoare, hoare_ret].
      intros ms2 Hms2. destruct (upto_lookup d ms2 name Hd Hms2 (Hseen _ Hms2)) as [Hi Hs]. split; [done|].
      now destruct (fst _).
Qed.
End array.

(** ** Datasets *)
Section dsl.
Context (T : list (PoolMember R) -> Prop) {HT : ReadClosed T}.

Lemma hoare_dsl_dir mos obj : Dn.dnode_wf mos -> 0 <= obj -> hoare T (dsl_dir topo mos obj o) DslDir.wf.
Proof using All.
  intros Hm Hn. eapply hoare_bind; [now apply hoare_read_object|]. intros x [_ Hb].
  apply hoare_lift, safe_map_err, with_decoder_safe; [|done]. intros w. apply DslDir.hoare_directory, endian_decoder_laws.
Qed.

Lemma hoare_objset bp : Bp.bp_wf bp -> hoare T (read_objset topo bp o) Os.wf.
Proof using All.
  intros Hw. eapply hoare_bind; [now apply hoare_read|]. intros bs Hb.
  apply hoare_lift, safe_map_err, with_decoder_safe; [|done]. intros w. apply Os.hoare_object_set, endian_decoder_laws.
Qed.
End dsl.

(** From the pool's object directory to a dataset. *)
Section mos.
Context (mos : Dnode) (ms0 : list (PoolMember R)) (F : Prop).
Hypothesis Hmos : Dn.dnode_wf mos.
Hypothesis HF : short_zap mos ms0 -> F.
Context (T : list (PoolMember R) -> Prop) {HT : ReadClosed T}.
Hypothesis Tseen : forall ms, T ms -> after_reads ms0 ms.

Lemma upto_child_dirs names : forall obj, 0 <= obj -> hoare_upto F T (child_dirs topo mos o names obj) (fun v => 0 <= v).
Proof using All.
  induction names as [|name names IH]; intros obj Hn; cbn [child_dirs]; [now apply upto_hoare, hoare_ret|].
  eapply upto_bind; [apply upto_hoare, hoare_dsl_dir; seen|]. intros dir (_ & _ & _ & _ & [[Hc _] _] & _).
  apply (upto_found mos ms0); seen.
Qed.

(** The directory of a dataset. *)
Lemma upto_walk {A} names (k : Z -> SM (list (PoolMember R)) Error A) Q :
  (forall obj, 0 <= obj -> hoare_upto F T (k obj) Q) ->
  hoare_upto F T
    (objdir ← read_object_dnode topo mos Dataset.MOS_OBJECT_DIRECTORY o;
     found ← zap_lookup topo objdir (ascii_bytes "root_dataset") o;
     dir_obj ← sm_lift (ok_or found (NotFound "root_dataset"));
     dir_obj ← child_dirs topo mos o names dir_obj; k dir_obj) Q.
Proof using All.
  intros Hk. apply (upto_found mos ms0); [seen..|]. intros v Hv. eapply upto_bind; [now apply upto_child_dirs|]. exact Hk.
Qed.

Lemma upto_open_dataset names :
  hoare_upto F T (Dataset.open_dataset topo mos o names) (fun ds => Dn.dnode_wf (meta_dnode ds)).
Proof using All.
  apply upto_walk. intros obj Hn. apply upto_hoare. eapply hoare_bind; [apply hoare_dsl_dir; seen|]. intros dir (_ & Hh & _).
  eapply (hoare_bind _ _ _ (fun v => 0 <= v)).
  { apply hoare_lift, safe_ok_or. intros v Hv. rewrite Hv in Hh. apply Hh. }
  intros ds_obj Hds. eapply hoare_bind; [now apply hoare_read_object|]. intros x [_ Hb].
  eapply (hoare_bind _ _ _ DslDs.wf).
  { apply hoare_lift, safe_map_err, with_decoder_safe; [|done]. intros w. apply DslDs.hoare_dataset, endian_decoder_laws. }
  intros ds Hds'. eapply (hoare_bind _ _ _ Bp.bp_wf).
  { apply hoare_lift, safe_ok_or. intros bp Hbp. unfold DslDs.wf in Hds'. destruct_and!. now rewrite Hbp in *. }
  intros bp Hbp. eapply hoare_bind; [apply hoare_objset; seen|]. intros s [Hs _]. now apply hoare_ret.
Qed.

Lemma upto_child_names names : hoare_upto F T (child_dataset_names topo mos o names) (fun _ => True).
Proof using All.
  apply upto_walk. intros obj Hn. eapply upto_bind; [apply upto_hoare, hoare_dsl_dir; seen|].
  intros dir (_ & _ & _ & _ & [[Hc _] _] & _). apply (upto_listed mos ms0); [seen..|]. intros l _. now apply upto_hoare, hoare_ret.
Qed.

(** Within one dataset, whose dnode array is [mos] here. *)
Abbreviation ds := {| meta_dnode := mos |}.

Lemma upto_root_dir : hoare_upto F T (root_dir_obj topo ds o) (fun v => 0 <= v).
Proof using All.
  apply (upto_object mos ms0); [seen..|]. intros d ms Hd Hms Hs. eapply wp_upto_bind; [apply (upto_lookup mos ms0); seen|].
  intros r ms' _ Hms' Hr. apply (upto_hoare F); [|done]. apply hoare_lift, safe_ok_or. intros v Hv. now apply Hr.
Qed.

Lemma upto_list_dir obj : 0 <= obj -> hoare_upto F T (list_dir topo ds obj o) (fun _ => True).
Proof using All.
  intros Hn. apply (upto_object mos ms0); [seen..|]. intros d ms Hd Hms Hs.
  destruct (upto_entries mos ms0 F HF T d ms Hd Hms Hs) as [Hi He]. split; [done|]. now destruct (fst _).
Qed.

(** The object number in a directory entry. *)
Lemma dirent_obj_range v : 0 <= v -> 0 <= Z.land v Dataset.DIRENT_OBJ_MASK.
Proof using. intros Hv. apply Z.land_nonneg. now left. Qed.

Lemma upto_components components : forall obj result,
  0 <= obj -> (forall r, result = Some r -> 0 <= fst r) ->
  hoare_upto F T (components_loop topo ds o components obj result) (fun r => forall x, r = Some x -> 0 <= fst x).
Proof using All.
  induction components as [|c rest IH]; intros obj result Hn Hr; cbn [components_loop]; [now apply upto_hoare, hoare_ret|].
  apply (upto_found mos ms0); [seen..|]. intros v Hv. pose proof (dirent_obj_range v Hv).
  destruct (bool_decide (rest = [])); apply IH; try done. now intros r [= <-].
Qed.

Lemma upto_resolve components : hoare_upto F T (resolve_path topo ds o components) (fun r => 0 <= fst r).
Proof using All.
  eapply upto_bind; [apply upto_root_dir|]. intros obj Hn. eapply upto_bind; [now apply upto_components|]. intros r Hr.
  now apply upto_hoare, hoare_lift, safe_ok_or.
Qed.
End mos.
End walks.

(** ** Requests to an imported pool *)
Section requests.
Context {B : Build} {BL : BuildLaws B} {R : Type} `{BlockRead R}.

Lemma closed_after (T : list (PoolMember R) -> Prop) {HT : ReadClosed T} a b : T a -> after_reads a b -> T b.
Proof using. intros Ha Hab. induction Hab; [done|]. apply read_closed; auto. Qed.

(** [ds] was opened as a dataset of the pool, in the course of reads from [ms0] to [ms]. *)
Definition dataset_seen (p : ImportedPool) (ms0 : list (PoolMember R)) (ds : Dataset) (ms : list (PoolMember R)) : Prop :=
  exists names ms1, after_reads ms0 ms1 /\ Dataset.open_dataset (topology p) (mos_dnode p) (pool_order p) names ms1 = (Ok ds, ms).

(** The fault of a pool: a short ZAP block, among the pool's own objects or those of one of its datasets. *)
Definition pool_fault (p : ImportedPool) (ms0 : list (PoolMember R)) : Prop :=
  short_zap (topology p) (pool_order p) (mos_dnode p) ms0 \/
  exists ds ms, dataset_seen p ms0 ds ms /\ short_zap (topology p) (pool_order p) (meta_dnode ds) ms.

Context (p : ImportedPool) (ms0 : list (PoolMember R)).
Hypothesis Hplain : plain_layout (topology p).
Hypothesis Hmos : Dn.dnode_wf (mos_dnode p).
Abbreviation F := (pool_fault p ms0).

(** The pool itself stays, and its members are only read. *)
Definition serving_from (ms : list (PoolMember R)) (z : Zfs R) : Prop := z_pool z = p /\ after_reads ms (z_members z).

Lemma upto_on_members {A} ms (f : ImportedPool -> SM (list (PoolMember R)) Error A) P :
  hoare_upto F (after_reads ms) (f p) P -> hoare_upto F (serving_from ms) (on_members f) P.
Proof using.
  intros Hf [zm zp] [Hp Hms]. cbn in Hp, Hms. subst zp. specialize (Hf zm Hms). unfold wp, on_members in *. cbn [z_pool z_members].
  destruct (f p zm) as [r ms']. now destruct Hf.
Qed.

(** Opening a dataset and going on with it, from where it was opened. *)
Lemma upto_opened {A} names (k : Dataset -> SM (Zfs R) Error A) Q :
  (forall ds ms, Dn.dnode_wf (meta_dnode ds) -> (short_zap (topology p) (pool_order p) (meta_dnode ds) ms -> F) ->
     hoare_upto F (serving_from ms) (k ds) Q) ->
  hoare_upto F (serving_from ms0) (ds ← open_dataset names; k ds) Q.
Proof using Hplain Hmos BL.
  intros Hk z [Hp Hz]. eapply wp_upto_bind.
  { apply (upto_on_members ms0); [|split; done]. apply (upto_open_dataset _ _ Hplain _ ms0); seen || (now left). }
  intros ds z' Ho [Hp' Hz'] Hd. assert (Hseen : dataset_seen p ms0 ds (z_members z')).
  { unfold open_dataset, on_members in Ho. rewrite Hp in Ho. exists names, (z_members z). split; [done|].
    destruct (Dataset.open_dataset _ _ _ _ _) as [r ms']. now injection Ho as -> <-. }
  destruct (Hk ds (z_members z') Hd) with (s := z') as [[Hp2 Hz2] Hs].
  - intros Hf. right. eauto.
  - split; [done|constructor].
  - split; [|done]. split; [done|]. eapply after_reads_trans; eauto.
Qed.

Definition dirent_ok (e : DirEntry) : Prop := 0 <= object_id e < 2 ^ 48.

(** Within a dataset, from the members as they were when it was opened. *)
Lemma ds_eta (ds : Dataset) : ds = {| meta_dnode := meta_dnode ds |}.
Proof using. now destruct ds. Qed.

Section opened.
Context (ds : Dataset) (ms : list (PoolMember R)).
Hypothesis Hds : Dn.dnode_wf (meta_dnode ds).
Hypothesis HF : short_zap (topology p) (pool_order p) (meta_dnode ds) ms -> F.
Abbreviation I := (serving_from ms).

Lemma upto_resolve_in path : hoare_upto F I (resolve ds path) (fun r => 0 <= fst r).
Proof using All. apply upto_on_members. rewrite (ds_eta ds). apply (upto_resolve _ _ Hplain _ ms); seen. Qed.

Lemma upto_object_in obj : 0 <= obj ->
  hoare_upto F I (on_members (fun p => read_object (topology p) (meta_dnode ds) obj (pool_order p))) object_ok.
Proof using All. intros Hn. apply upto_on_members, upto_hoare. apply hoare_read_object; seen. Qed.

Lemma upto_regular_file path : hoare_upto F I (regular_file ds path) (fun r => Dn.dnode_wf (fst r) /\ fits 64 (snd r)).
Proof using All.
  eapply upto_bind; [apply upto_resolve_in|]. intros [obj value] Hobj. cbn in Hobj.
  eapply upto_bind; [apply upto_hoare, hoare_guard|]. intros _ _. 
  eapply (upto_bind _ _ _ _ (fun _ => True)); [apply upto_hoare; now apply hoare_gets|]. intros order _.
  eapply upto_bind; [now apply upto_object_in|]. intros x [Hd Hb].
  eapply upto_bind; [apply upto_hoare, hoare_lift; now apply sa_file_size_total|]. intros size Hs. now apply upto_hoare, hoare_ret.
Qed.

Lemma upto_range_in d off len : Dn.dnode_wf d -> 0 <= off -> 0 <= len ->
  hoare_upto F I (on_members (fun p => read_dnode_range (topology p) d off len (pool_order p))) (filled_with len).
Proof using Hplain BL. intros Hd Ho Hl. apply upto_on_members, upto_hoare, hoare_read_dnode_range; seen. Qed.
End opened.

Lemma upto_read_dir names path : hoare_upto F (serving_from ms0) (read_dir names path) (Forall dirent_ok).
Proof using Hplain Hmos BL.
  apply upto_opened. intros ds ms Hds HF. eapply (upto_bind _ _ _ _ (fun obj => 0 <= obj)).
  - destruct (bool_decide (path = [])).
    + apply upto_on_members. rewrite (ds_eta ds). apply (upto_root_dir _ _ Hplain _ ms); seen.
    + eapply upto_bind; [apply upto_resolve_in; seen|]. intros [obj value] Hobj. cbn in Hobj.
      eapply upto_bind; [apply upto_hoare, hoare_guard|]. intros _ _. now apply upto_hoare, hoare_ret.
  - intros obj Hobj. eapply upto_bind.
    + apply upto_on_members. rewrite (ds_eta ds). apply (upto_list_dir _ _ Hplain _ ms); seen.
    + intros l _. apply upto_hoare, hoare_ret. apply Forall_fmap, Forall_true. intros e. unfold dirent_ok.
      unfold compose, DIRENT_OBJ_MASK. cbn [object_id]. rewrite Z.shiftl_1_l, land_ones_mod by lia. apply Z.mod_pos_bound. lia.
Qed.

Lemma upto_stat names path : hoare_upto F (serving_from ms0) (stat names path) (fun st => fits 64 (st_size st)).
Proof using Hplain Hmos BL.
  assert (H0 : fits 64 0) by (unfold fits; lia).
  apply upto_opened. intros ds ms Hds HF. destruct (bool_decide (path = [])); [now apply upto_hoare, hoare_ret|].
  eapply upto_bind; [apply upto_resolve_in; seen|]. intros [obj value] Hobj. cbn in Hobj.
  eapply (upto_bind _ _ _ _ (fits 64)); [|intros size Hs; now apply upto_hoare, hoare_ret].
  destruct (bool_decide _); [|now apply upto_hoare, hoare_ret].
  eapply (upto_bind _ _ _ _ (fun _ => True)); [apply upto_hoare; now apply hoare_gets|]. intros order _.
  eapply upto_bind; [apply upto_object_in; seen|]. intros x [Hd Hb]. apply upto_hoare, hoare_lift. now apply sa_file_size_total.
Qed.

Lemma upto_exists names path : hoare_upto F (serving_from ms0) (exists_ names path) (fun _ => True).
Proof using Hplain Hmos BL.
  eapply upto_catch; [apply upto_stat|intros st _; now apply upto_hoare, hoare_ret|].
  intros e. apply upto_hoare. destruct e; first [now apply hoare_ret|apply hoare_err].
Qed.

Lemma upto_read names path : hoare_upto F (serving_from ms0) (read names path) (fun b => bytes_ok b /\ blen b <= MAX_FILE_BYTES).
Proof using Hplain Hmos BL.
  apply upto_opened. intros ds ms Hds HF. eapply upto_bind; [apply upto_regular_file; seen|]. intros [d size] [Hd [Hs _]].
  cbn in Hd, Hs. eapply upto_bind; [apply upto_hoare, hoare_guard|]. intros _ Hm%Z.ltb_ge.
  eapply upto_mono; [apply upto_range_in; seen|]. intros b [Hl Hb]. split; [done|lia].
Qed.

Lemma upto_read_at names path off len : 0 <= off -> 0 <= len ->
  hoare_upto F (serving_from ms0) (read_at names path off len) (fun b => bytes_ok b /\ blen b <= Z.min len MAX_FILE_BYTES).
Proof using Hplain Hmos BL.
  intros Ho Hl. apply upto_opened. intros ds ms Hds HF. eapply upto_bind; [apply upto_regular_file; seen|].
  intros [d size] [Hd [Hs _]]. cbn in Hd, Hs. destruct (Z.leb_spec size off).
  { apply upto_hoare, hoare_ret. split; [constructor|]. change (blen []) with 0. unfold MAX_FILE_BYTES. lia. }
  eapply upto_bind; [apply upto_hoare, hoare_guard|]. intros _ Hm%Z.ltb_ge.
  eapply upto_mono; [apply upto_range_in; seen || lia|]. intros b [Hb1 Hb2]. split; [done|lia].
Qed.

Lemma upto_datasets z : serving_from ms0 z -> wp datasets (listed F (serving_from ms0)) z.
Proof using Hplain Hmos BL.
  apply datasets_bounded. intros names. apply upto_on_members. apply (upto_child_names _ _ Hplain _ ms0); seen || (now left).
Qed.
End requests.
