(* ===== verification/Session.v ===== *)
(** * From hostile devices to a session (src/pool.rs, lib.rs)

    Importing a pool from devices that return anything, and then serving any
    sequence of requests: what can go wrong, and what cannot. *)

From S2P Require Import Prelude Errors Decoder Encoder Codec Types Dva BlockPointer Fletcher Sha256 LabelChecksum Cksum Compress.
From S2P Require Import Vdev Heal Dnode FileRead ObjectSet Zap Walk WalkSafe Dsl Dataset Uberblock Label Nv NvSpec Pool PoolSpec Zfs Safe.

Open Scope string_scope.
Open Scope Z_scope.
Open Scope list_scope.

(** ** The configuration *)
Lemma label_config_safe {B : Build} buf : bytes_ok buf -> safe nv_ok (label_config buf).
Proof.
  intros Hb. unfold label_config. eapply (safe_bind (fun r => bytes_ok (payload r))).
  - apply safe_map_err. unfold LabelNvPairs.from_bytes, signed_from_bytes. eapply safe_bind; [apply safe_guard|].
    intros _ Hl%negb_false_iff%Z.eqb_eq. assert (Hs : 0 <= LabelNvPairs.SIZE < 2 ^ 60) by (vm_compute; split; congruence).
    eapply safe_bind; [apply safe_map_err, Ub.label_verify_safe; [done|lia]|]. intros _ _.
    assert (Hp : 0 <= LabelNvPairs.PAYLOAD_SIZE <= LabelNvPairs.SIZE) by (vm_compute; split; congruence).
    change (LabelNvPairs.SIZE - ChecksumTail_.SIZE) with LabelNvPairs.PAYLOAD_SIZE. rewrite get_range_ok by lia. cbn. now apply bytes_ok_ztake, bytes_ok_zdrop.
  - intros r Hr. now apply safe_map_err, nv_from_bytes_safe.
Qed.

Section config.
Context (l : NvList) (Hl : nv_ok l).

Lemma nv_find_safe key : safe pair_ok (nv_find l key).
Proof using Hl.
  unfold nv_find. eapply safe_bind; [apply (for_each_safe l Hl _ _ pair_ok)|].
  - intros p Hp. now destruct (bool_decide _).
  - intros r Hr. apply safe_ok_or. now intros p ->.
Qed.
Lemma nv_has_safe key : safe (fun _ => True) (nv_has l key).
Proof using Hl. unfold nv_has. pose proof (nv_find_safe key). now destruct (nv_find l key) as [|[]|]. Qed.
Lemma nv_typed_safe {A} (P : A -> Prop) token (get : NvPair -> outcome NvDecodeError A) key :
  (forall p, pair_ok p -> safe P (get p)) -> safe P (nv_typed token get l key).
Proof using Hl.
  intros Hg. eapply safe_bind; [apply nv_find_safe|]. intros p Hp. now apply safe_map_err, Hg.
Qed.
Lemma nv_u64_safe key : safe (fun _ => True) (nv_u64 l key).
Proof using Hl. apply nv_typed_safe. intros [nm v] _. now destruct v. Qed.
Lemma nv_str_safe key : safe (fun _ => True) (nv_str l key).
Proof using Hl. apply nv_typed_safe. intros [nm v] _. now destruct v. Qed.
Lemma nv_nvlist_safe key : safe nv_ok (nv_nvlist l key).
Proof using Hl. apply nv_typed_safe. intros [nm v] Hp. now destruct v. Qed.

Lemma check_label_features_safe : safe (fun _ => True) (check_label_features l).
Proof using Hl.
  eapply safe_bind; [apply nv_has_safe|]. intros [] _; [|done].
  eapply safe_bind; [apply nv_nvlist_safe|]. intros fl Hfl.
  eapply (safe_bind (fun _ => True)); [|done]. eapply safe_mono; [apply (for_each_safe fl Hfl _ _ (fun _ : unit => True))|done].
  intros p _. destruct (check_read_feature_spec (pair_name p)) as [[_ ->]|[_ [t ->]]]; done.
Qed.
Lemma check_one_child_safe : safe (fun _ => True) (check_one_child l).
Proof using Hl.
  eapply safe_bind; [apply nv_has_safe|]. intros [] _; [|done].
  eapply safe_bind; [apply nv_u64_safe|]. intros n _. eapply safe_mono; [apply safe_guard|done].
Qed.
End config.

Lemma guids_loop_forward a n : forward 0 (fun _ => True) (guids_loop a n).
Proof.
  induction n as [|n IH]; cbn [guids_loop]; [now apply forward_ret|].
  eapply (forward_bind 0 0); [apply forward_map_err, next_list_forward|]. intros child Hc.
  eapply (forward_bind 0 0); [apply forward_lift; now apply nv_u64_safe|]. intros g _.
  eapply forward_then; [apply IH|done].
Qed.
Lemma nv_child_guids_safe vtree : nv_ok vtree -> safe (fun _ => True) (nv_child_guids vtree).
Proof.
  intros Hv. eapply safe_bind; [now apply nv_find_safe|]. intros p Hp.
  eapply (safe_bind arr_ok); [apply safe_map_err; destruct p as [nm v]; now destruct v|]. intros a (Hd & Ho & Hn).
  destruct (Arr.is_empty a); [done|]. eapply safe_bind; [apply safe_map_err, safe_map_err, clamped_safe; done|].
  intros b [Hb _]. eapply run_forward; [apply guids_loop_forward|done].
Qed.

(** ** Members *)
Section members.
Context {B : Build} {BL : BuildLaws B} {R : Type} `{BlockRead R}.

(** A predicate on one member that reads of it preserve. *)
Class MemberClosed (J : PoolMember R -> Prop) : Prop :=
  member_closed : forall m off len, J m -> J (Build_PoolMember (snd (Errors.read_at (reader m) off len)) (device_size_bytes m)).

Section member.
Context (J : PoolMember R -> Prop) {HJ : MemberClosed J}.

Lemma hoare_member_exact off len vdev token : 0 <= len -> hoare J (member_exact off len vdev token) (sized len).
Proof using HJ.
  intros Hl m Hm. unfold wp, member_exact, read_exact. pose proof (member_closed m off len Hm) as Hc.
  destruct (Errors.read_at (reader m) off len) as [[bs|] rd] eqn:E; cbn in *; [|done]. split; [done|]. eapply read_at_len; eauto.
Qed.

Definition best_ok (best : option UberBlock) : Prop := match best with Some ub => Ub.wf ub | None => True end.

Lemma newer_ok best ub : best_ok best -> Ub.wf ub -> best_ok (newer best ub).
Proof using. intros Hb Hu. unfold newer. destruct best as [b|]; [destruct (negb _)|]; done. Qed.

Lemma hoare_slot_step label slot i best : 0 <= slot < 2 ^ 60 -> best_ok best -> hoare J (slot_step label slot i best) best_ok.
Proof using HJ.
  intros Hs Hb. eapply hoare_catch; [now apply hoare_member_exact| |intros e; now apply hoare_ret]. intros buf [Hl Hbuf].
  pose proof (Ub.from_bytes_safe x86 buf (Z.shiftr (slot_offset label slot i) 9) Hbuf ltac:(lia)) as Hsafe.
  destruct (Ub.from_bytes _ _ _) as [[ub|]|e|]; [|now apply hoare_ret..|done]. now apply hoare_ret, newer_ok.
Qed.

Lemma hoare_slots_loop label slot n : 0 <= slot < 2 ^ 60 ->
  forall i best, best_ok best -> hoare J (slots_loop label slot n i best) best_ok.
Proof using HJ.
  intros Hs. induction n as [|n IH]; intros i best Hb; cbn [slots_loop]; [now apply hoare_ret|].
  eapply hoare_bind; [now apply hoare_slot_step|]. intros b Hb'. now apply IH.
Qed.

Lemma hoare_labels_loop slot labels : 0 <= slot < 2 ^ 60 -> forall best, best_ok best -> hoare J (labels_loop slot labels best) best_ok.
Proof using HJ.
  intros Hs. induction labels as [|label labels IH]; intros best Hb; cbn [labels_loop]; [now apply hoare_ret|].
  eapply hoare_bind; [now apply hoare_slots_loop|]. intros b Hb'. now apply IH.
Qed.
End member.

Context (ms0 : list (PoolMember R)).
Abbreviation T := (after_reads ms0).

Lemma after_reads_len ms : T ms -> blen ms = blen ms0.
Proof using. intros Hr%after_reads_sizes%(f_equal length). rewrite !length_fmap in Hr. unfold blen. lia. Qed.

Lemma zget_insert_same (ms : list (PoolMember R)) i m m' :
  zget ms i = Some m -> zget (<[Z.to_nat i := m']> ms) i = Some m'.
Proof using.
  intros Hm. apply zget_lookup in Hm as [Hi Hl]. unfold zget, blen in *. rewrite length_insert.
  replace ((0 <=? i) && (i <? Z.of_nat (length ms))) with true by lia. apply list_lookup_insert_eq. lia.
Qed.

(** What a member is taken through, the pool is. *)
Lemma hoare_at_member {A} i (mm : SM (PoolMember R) Error A) P :
  0 <= i < blen ms0 -> (forall J, MemberClosed J -> hoare J mm P) -> hoare T (at_member i mm) P.
Proof using.
  intros Hi Hmm ms Hms. unfold wp, at_member. destruct (zget_in ms i) as [m Hm]; [now rewrite after_reads_len|]. rewrite Hm.
  set (J := fun m' => T (<[Z.to_nat i := m']> ms)).
  assert (HJ : MemberClosed J).
  { intros m' off len Hm'. unfold J in *.
    pose proof (read_closed _ i m' off len Hm' (zget_insert_same ms i m m' Hm)) as Hc. unfold after_read in Hc.
    now rewrite list_insert_insert_eq in Hc. }
  assert (Hj : J m). { unfold J. rewrite list_insert_id; [done|]. now apply zget_lookup in Hm as [_ Hm]. }
  specialize (Hmm J HJ m Hj). unfold wp in Hmm. destruct (mm m) as [r m']. exact Hmm.
Qed.

Lemma hoare_nvpairs i : 0 <= i < blen ms0 -> hoare T (at_member i read_nvpairs) bytes_ok.
Proof using.
  intros Hi. apply hoare_at_member; [done|]. intros J HJ. eapply hoare_mono; [apply (hoare_member_exact J); vm_compute; congruence|].
  now intros bs [_ Hb].
Qed.

Lemma hoare_find_member guid n : forall i, 0 <= i -> i + Z.of_nat n <= blen ms0 ->
  hoare T (find_member_from guid n i) (fun _ => True).
Proof using.
  induction n as [|n IH]; intros i Hi Hn; cbn [find_member_from]; [apply hoare_err|].
  eapply hoare_bind; [apply hoare_nvpairs; lia|]. intros buf Hb.
  assert (Hs : safe (fun _ => True) (config ← label_config buf; nv_u64 config "guid")).
  { eapply safe_bind; [now apply label_config_safe|]. intros config Hc. now apply nv_u64_safe. }
  destruct (config ← label_config buf; nv_u64 config "guid") as [g|e|]; [|apply IH; lia|done].
  destruct (g =? guid); [now apply hoare_ret|apply IH; lia].
Qed.

Lemma hoare_find_by_guid guid : hoare T (find_member_by_guid guid) (fun _ => True).
Proof using.
  intros ms Hms. unfold find_member_by_guid. apply hoare_find_member; [lia| |done].
  rewrite <- (after_reads_len ms Hms). unfold blen. lia.
Qed.

Lemma hoare_mirror_children guids : hoare T (mirror_children guids) (fun _ => True).
Proof using.
  induction guids as [|g guids IH]; cbn [mirror_children]; [now apply hoare_ret|].
  eapply hoare_bind; [apply hoare_find_by_guid|]. intros i _. eapply hoare_bind; [apply IH|]. intros idx _. now apply hoare_ret.
Qed.
Lemma hoare_raidz_children guids : hoare T (raidz_children guids) (fun _ => True).
Proof using.
  induction guids as [|g guids IH]; cbn [raidz_children]; [now apply hoare_ret|].
  eapply (hoare_bind _ _ _ (fun _ => True)).
  - eapply hoare_catch; [apply hoare_find_by_guid|intros; now apply hoare_ret..].
  - intros m _. eapply hoare_bind; [apply IH|]. intros idx _. now apply hoare_ret.
Qed.

Lemma hoare_build_topology vtree : nv_ok vtree -> hoare T (build_topology vtree) (fun _ => True).
Proof using.
  intros Hv. unfold build_topology. eapply hoare_bind; [apply hoare_lift; now apply nv_str_safe|]. intros ty _.
  destruct (_ || _); [now apply hoare_ret|]. destruct (bool_decide _).
  { eapply hoare_bind; [apply hoare_lift; now apply nv_child_guids_safe|]. intros children _.
    eapply hoare_bind; [apply hoare_mirror_children|]. intros idx _. now apply hoare_ret. }
  destruct (bool_decide _); [|destruct (bool_decide _); apply hoare_err].
  eapply (hoare_bind _ _ _ (fun _ => True)).
  { eapply hoare_catch; [apply hoare_lift; now apply nv_u64_safe|intros; now apply hoare_ret..]. }
  intros np _. eapply hoare_bind; [apply hoare_guard|]. intros _ _.
  eapply hoare_bind; [apply hoare_lift; now apply nv_has_safe|]. intros txgs _.
  eapply (hoare_bind _ _ _ (fun _ => True)); [destruct txgs; [now apply hoare_ret|apply hoare_lift; now apply nv_has_safe]|].
  intros ex _. eapply hoare_bind; [apply hoare_guard|]. intros _ _.
  eapply hoare_bind; [apply hoare_lift; now apply nv_u64_safe|]. intros ash _.
  eapply hoare_bind; [apply hoare_lift; now apply nv_child_guids_safe|]. intros children _.
  eapply hoare_bind; [apply hoare_raidz_children|]. intros idx _.
  eapply hoare_bind; [apply hoare_guard|]. intros _ _. now apply hoare_ret.
Qed.

Lemma hoare_members_loop slot mis : 0 <= slot < 2 ^ 60 -> forall best, best_ok best -> hoare T (members_loop slot mis best) best_ok.
Proof using.
  intros Hs. induction mis as [|mi mis IH]; intros best Hb; cbn [members_loop]; [now apply hoare_ret|].
  eapply (hoare_bind _ _ _ best_ok); [|intros b Hb'; now apply IH]. intros ms Hms. unfold wp.
  destruct (zget ms mi) as [m|] eqn:Em; [|now split]. apply hoare_at_member; [|intros; now apply hoare_labels_loop|done].
  rewrite <- (after_reads_len ms Hms). now apply zget_lookup in Em as [? _].
Qed.

Lemma hoare_select_uberblock topo ashift : hoare T (select_uberblock topo ashift) Ub.wf.
Proof using.
  pose proof (slot_size_range ashift). eapply hoare_bind; [apply hoare_members_loop; [lia|done]|]. intros best Hb.
  apply hoare_lift, safe_ok_or. now intros ub ->.
Qed.
End members.

(** ** Importing *)
Section import.
Context {B : Build} {BL : BuildLaws B} {R : Type} `{BlockRead R}.
#[local] Existing Instance and_closed.

(** What the object directory says, when the directory has been seen. *)
Section directory.
Context (topo : Topology) (o : EndianOrder) (mos objdir : Dnode) (ms0 : list (PoolMember R)) (F : Prop).
Hypothesis Hplain : plain_layout topo.
Hypothesis Hmos : Dn.dnode_wf mos.
Hypothesis Hdir : Dn.dnode_wf objdir.
Hypothesis HF : short_zap topo o mos ms0 -> F.
Definition directory_seen (ms : list (PoolMember R)) : Prop := after_reads ms0 ms /\ object_seen topo o mos ms0 objdir ms.
#[local] Instance directory_seen_closed : ReadClosed directory_seen.
Proof using. unfold directory_seen. apply _. Qed.

Lemma check_features_safe l : safe (fun _ => True) (check_features l).
Proof using.
  induction l as [|[g n] l IH]; cbn [check_features]; [done|]. destruct (negb _); [|exact IH].
  destruct (check_read_feature_spec g) as [[_ ->]|[_ [t ->]]]; [exact IH|done].
Qed.

Lemma upto_mos_features : hoare_upto F directory_seen (check_mos_features topo mos objdir o) (fun _ => True).
Proof using All.
  intros ms Hms. eapply wp_upto_bind; [apply (upto_lookup _ _ Hplain mos ms0); [done|apply _|done|done|apply Hms]|].
  intros [obj|] ms' _ Hms' Hr; [|done]. apply (upto_listed topo o Hplain mos ms0 F Hmos HF directory_seen); [now intros ? []| | |done].
  - now apply Hr.
  - intros l _. apply upto_hoare, hoare_lift, check_features_safe.
Qed.

Lemma upto_salt : hoare_upto F directory_seen (checksum_salt topo objdir o) (fun _ => True).
Proof using All.
  eapply upto_bind; [apply (upto_lookup_bytes topo o Hplain mos ms0 F Hmos HF directory_seen); [now intros ? []|done|now intros ? []]|].
  intros [salt|] _; [|now apply upto_hoare, hoare_ret]. eapply upto_bind; [apply upto_hoare, hoare_guard|].
  intros _ _. now apply upto_hoare, hoare_ret.
Qed.
End directory.

#[global] Instance plain_layout_dec topo : Decision (plain_layout topo).
Proof using. unfold plain_layout. destruct (layout topo); apply _. Defined.

(** The pool that the labels of [ms0] describe: its layout, the members when it
    has been matched with them, and the object set that its uberblock leads to. *)
Definition described_layout (ms0 : list (PoolMember R)) (lay : Layout) (ms : list (PoolMember R)) : Prop :=
  exists buf config vtree ms1,
    fst (at_member 0 read_nvpairs ms0) = Ok buf /\ label_config buf = Ok config /\ nv_nvlist config "vdev_tree" = Ok vtree /\
    after_reads ms0 ms1 /\ build_topology vtree ms1 = (Ok lay, ms).
Abbreviation unsalted lay := {| layout := lay; Vdev.checksum_salt := None |}.
Definition described_mos (ms0 : list (PoolMember R)) (lay : Layout) (o : EndianOrder) (mos : Dnode) (ms : list (PoolMember R)) : Prop :=
  exists ms1 ashift ub ms2 s, described_layout ms0 lay ms1 /\ select_uberblock (unsalted lay) ashift ms1 = (Ok ub, ms2) /\
    o = Bp.bp_order (ptr ub) /\ read_objset (unsalted lay) (ptr ub) o ms2 = (Ok s, ms) /\ mos = os_dnode s.

(** The faults of an import: a layout of RAID-Z, whose column offsets can
    overflow, or a short ZAP block among the objects of the pool. *)
Definition import_fault (ms0 : list (PoolMember R)) : Prop :=
  exists lay ms, described_layout ms0 lay ms /\
    (~ plain_layout (unsalted lay) \/
     exists o mos ms', described_mos ms0 lay o mos ms' /\ short_zap (unsalted lay) o mos ms').

Definition pool_ok (p : ImportedPool) : Prop := Dn.dnode_wf (mos_dnode p).

(** From the layout on. *)
Lemma upto_import_layout ms0 lay ms guid name ashift :
  described_layout ms0 lay ms -> plain_layout (unsalted lay) -> after_reads ms0 ms ->
  wp (ub ← select_uberblock (unsalted lay) ashift;
      sm_guard (negb (raidz_reflow_info ub =? 0)) (UnsupportedFeature "raidz_expansion");;
      mos ← read_objset (unsalted lay) (ptr ub) (Bp.bp_order (ptr ub));
      objdir ← read_object_dnode (unsalted lay) (os_dnode mos) MOS_OBJECT_DIRECTORY (Bp.bp_order (ptr ub));
      check_mos_features (unsalted lay) (os_dnode mos) objdir (Bp.bp_order (ptr ub));;
      salt ← checksum_salt (unsalted lay) objdir (Bp.bp_order (ptr ub));
      mret {| Pool.pool_guid := guid; Pool.pool_name := name; topology := {| layout := lay; Vdev.checksum_salt := salt |};
              uberblock := ub; mos_dnode := os_dnode mos; pool_order := Bp.bp_order (ptr ub) |})
     (ends_upto (import_fault ms0) (after_reads ms0) pool_ok) ms.
Proof using BL.
  intros Hlay Hplain Hms. set (F := import_fault ms0).
  eapply wp_upto_bind; [apply (upto_hoare F); [apply hoare_select_uberblock|done]|]. intros ub ms2 Hub Hms2 (_ & _ & _ & _ & Hptr & _).
  set (o := Bp.bp_order (ptr ub)).
  eapply wp_upto_lift; [done|apply safe_guard|]. intros u _ _.
  eapply wp_upto_bind; [apply (upto_hoare F); [apply (hoare_objset _ _ Hplain); seen|done]|]. intros s ms3 Hs Hms3 [Hmos _].
  assert (HF : short_zap (unsalted lay) o (os_dnode s) ms3 -> F).
  { intros Hz. exists lay, ms. split; [done|right]. exists o, (os_dnode s), ms3. split; [|done]. now exists ms, ashift, ub, ms2, s. }
  cut (wp (objdir ← read_object_dnode (unsalted lay) (os_dnode s) MOS_OBJECT_DIRECTORY o;
      check_mos_features (unsalted lay) (os_dnode s) objdir o;; salt ← checksum_salt (unsalted lay) objdir o;
      mret {| Pool.pool_guid := guid; Pool.pool_name := name; topology := {| layout := lay; Vdev.checksum_salt := salt |};
              uberblock := ub; mos_dnode := os_dnode s; pool_order := o |}) (ends_upto F (after_reads ms3) pool_ok) ms3).
  { intros [Hr Hok]. split; [|exact Hok]. eapply after_reads_trans; eauto. }
  eapply (upto_object _ _ Hplain _ ms3); [seen..| |constructor]. intros objdir ms4 Hdir Hms4 Hseen.
  destruct (upto_bind F (directory_seen (unsalted lay) o (os_dnode s) objdir ms3) _
    (fun _ => salt ← checksum_salt (unsalted lay) objdir o;
      mret {| Pool.pool_guid := guid; Pool.pool_name := name; topology := {| layout := lay; Vdev.checksum_salt := salt |};
              uberblock := ub; mos_dnode := os_dnode s; pool_order := o |}) _ pool_ok
    (upto_mos_features _ _ _ _ ms3 F Hplain Hmos Hdir HF)) with (s := ms4) as [[Hr _] Hok]; [|now split|now split].
  intros _ _. eapply upto_bind; [now apply upto_salt|]. intros salt _. now apply upto_hoare, hoare_ret.
Qed.

(** A pool of a single disk or a mirror has a well-formed object set, and its members have only been read. *)
Definition imported_upto (ms0 : list (PoolMember R)) (r : outcome Error ImportedPool) (ms : list (PoolMember R)) : Prop :=
  match r with
  | Ok p => plain_layout (topology p) -> after_reads ms0 ms /\ pool_ok p
  | Err _ => True
  | Panic => import_fault ms0
  end.

Lemma ends_imported ms0 r ms : ends_upto (import_fault ms0) (after_reads ms0) pool_ok r ms -> imported_upto ms0 r ms.
Proof using. intros [Hr Hs]. now destruct r. Qed.

Section steps.
Context (ms0 : list (PoolMember R)).
Abbreviation M := (SM (list (PoolMember R)) Error).

Lemma imported_step {A} (m : M A) (f : A -> M ImportedPool) P ms :
  hoare (after_reads ms0) m P -> after_reads ms0 ms ->
  (forall a ms', m ms = (Ok a, ms') -> after_reads ms0 ms' -> P a -> wp (f a) (imported_upto ms0) ms') ->
  wp (m ≫= f) (imported_upto ms0) ms.
Proof using.
  intros Hm Hms Hf. apply wp_bind. destruct (Hm ms Hms) as [Hr Hs]. unfold wp. destruct (m ms) as [[a|e|] ms'] eqn:E; [|done..].
  now apply Hf.
Qed.
Lemma imported_lift {A} (m : outcome Error A) (f : A -> M ImportedPool) P ms :
  safe P m -> (forall a, m = Ok a -> P a -> wp (f a) (imported_upto ms0) ms) -> wp (sm_lift m ≫= f) (imported_upto ms0) ms.
Proof using. intros Hm Hf. apply wp_bind. destruct m; cbn in *; [now apply Hf|done..]. Qed.

Lemma raidz_imported (m : M ImportedPool) ms :
  import_fault ms0 -> returns (fun p => ~ plain_layout (topology p)) m -> wp m (imported_upto ms0) ms.
Proof using. intros HF Hm. unfold wp. destruct (m ms) as [[p|e|] ms'] eqn:E; [|done..]. intros Hp. now apply Hm in E. Qed.

Lemma upto_import : wp Pool.import (imported_upto ms0) ms0.
Proof using BL.
  unfold Pool.import. assert (H0 : after_reads ms0 ms0) by constructor.
  apply (imported_step _ _ (fun _ => True)); [now apply hoare_get; intros|done|]. intros ms a [= <- <-] _ _.
  eapply imported_lift; [apply safe_guard|]. intros u _ Hn%Z.eqb_neq.
  eapply imported_step; [apply hoare_nvpairs; pose proof (blen_nonneg ms0); lia|done|].
  intros buf ms1 Hbuf Hms1 Hb. assert (Hb0 : fst (at_member 0 read_nvpairs ms0) = Ok buf) by now rewrite Hbuf.
  eapply imported_lift; [now apply label_config_safe|]. intros config Hconf Hcok.
  eapply imported_lift; [now apply nv_u64_safe|]. intros guid _ _.
  eapply imported_lift; [now apply nv_str_safe|]. intros name _ _.
  eapply imported_lift; [now apply check_label_features_safe|]. intros _ _ _.
  eapply imported_lift; [now apply check_one_child_safe|]. intros _ _ _.
  eapply imported_lift; [now apply nv_nvlist_safe|]. intros vtree Hvt Hvok.
  eapply imported_lift; [now apply nv_u64_safe|]. intros ashift _ _.
  eapply imported_step; [now apply hoare_build_topology|done|]. intros lay ms2 Hlay Hms2 _.
  assert (Hd : described_layout ms0 lay ms2) by now exists buf, config, vtree, ms1.
  destruct (plain_layout_dec (unsalted lay)) as [Hp|Hp]; [now apply ends_imported, upto_import_layout|].
  apply raidz_imported; [exists lay, ms2; auto|].
  do 6 (eapply returns_bind; [apply returns_true|]; intros ? _). now apply returns_ret.
Qed.
End steps.

Lemma after_reads_same (ms0 ms : list (PoolMember R)) : Forall repeatable ms0 -> after_reads ms0 ms -> ms = ms0.
Proof using.
  intros Hrep. induction 1 as [|ms0 ms mi m off len _ IH Hm]; [done|]. specialize (IH Hrep). subst ms. unfold after_read.
  apply zget_lookup in Hm as [_ Hm]. apply list_insert_id. rewrite Hm. f_equal. rewrite Forall_lookup in Hrep. rewrite (Hrep _ _ Hm off len). now destruct m.
Qed.
(** The layout of an imported pool is the described one; the only one, when reading changes nothing. *)
Lemma import_described ms0 p ms' : Pool.import ms0 = (Ok p, ms') -> exists ms,
  described_layout ms0 (layout (topology p)) ms /\
  forall ms'' lay, Forall repeatable ms0 -> described_layout ms0 lay ms'' -> lay = layout (topology p).
Proof using.
  unfold Pool.import. rewrite (SM_run sm_get _ _ _ _ eq_refl).
  intros (u & s1 & [= Hg <-] & Hi)%SM_bind_ok. assert (Hn : (blen ms0 =? 0) = false) by now destruct (blen ms0 =? 0).
  apply Z.eqb_neq in Hn. apply SM_bind_ok in Hi as (buf & ms1 & Hbuf & Hi).
  assert (Hb0 : fst (at_member 0 read_nvpairs ms0) = Ok buf) by now rewrite Hbuf.
  apply SM_bind_ok in Hi as (config & ? & [= Hconf <-] & Hi). do 4 (apply SM_bind_ok in Hi as (? & ? & [= _ <-] & Hi)).
  apply SM_bind_ok in Hi as (vtree & ? & [= Hvt <-] & Hi). apply SM_bind_ok in Hi as (ashift & ? & [= _ <-] & Hi). cbv zeta in Hi.
  apply SM_bind_ok in Hi as (lay & ms2 & Hlay & Hi). assert (Hp : layout (topology p) = lay).
  { match type of Hi with ?m ms2 = _ => cut (returns (fun p => layout (topology p) = lay) m); [intros Hr; exact (Hr _ _ _ Hi)|] end.
    do 6 (eapply returns_bind; [apply returns_true|]; intros ? _). now apply returns_ret. }
  assert (Hms1 : after_reads ms0 ms1).
  { destruct (hoare_nvpairs ms0 0 ltac:(pose proof (blen_nonneg ms0); lia) ms0 (after_reads_none ms0)) as [Hr _]. now rewrite Hbuf in Hr. }
  rewrite Hp. exists ms2. split; [now exists buf, config, vtree, ms1|].
  intros ms'' lay' Hrep (buf' & config' & vtree' & ms1' & Hb' & Hc' & Hv' & Hr' & Hl'). rewrite Hb0 in Hb'. injection Hb' as <-.
  rewrite Hconf in Hc'. injection Hc' as <-. rewrite Hvt in Hv'. injection Hv' as <-.
  rewrite (after_reads_same ms0 ms1 Hrep Hms1) in Hlay. rewrite (after_reads_same ms0 ms1' Hrep Hr') in Hl'. congruence.
Qed.
End import.

(** ** Sessions *)

(** The requests of the interface, with the ranges of their integers. *)
Inductive request : Type :=
| ChildDatasets (parent : list bytes)
| Datasets
| ReadDir (dataset_path dir_path : list bytes)
| Stat_ (dataset_path path : list bytes)
| Exists (dataset_path path : list bytes)
| Read (dataset_path file_path : list bytes)
| ReadAt (dataset_path file_path : list bytes) (offset len : Z).
Inductive response : Type :=
| RNames (names : list bytes)
| RDatasets (paths : list (list bytes))
| REntries (entries : list DirEntry)
| RStat (st : Stat)
| RExists (b : bool)
| RBytes (bs : bytes).
Definition request_wf (q : request) : Prop :=
  match q with ReadAt _ _ offset len => fits 64 offset /\ fits 64 len | _ => True end.

(** What an answer is, whatever the devices hold. *)
Definition answer_ok (q : request) (a : response) : Prop :=
  match q, a with
  | ChildDatasets _, RNames _ => True
  | Datasets, RDatasets paths => listing paths
  | ReadDir _ _, REntries entries => Forall dirent_ok entries
  | Stat_ _ _, RStat st => fits 64 (st_size st)
  | Exists _ _, RExists _ => True
  | Read _ _, RBytes bs => bytes_ok bs /\ blen bs <= MAX_FILE_BYTES
  | ReadAt _ _ _ len, RBytes bs => bytes_ok bs /\ blen bs <= Z.min len MAX_FILE_BYTES
  | _, _ => False
  end.
Definition answered (F : Prop) (q : request) (r : outcome Error response) : Prop :=
  match r with Ok a => answer_ok q a | Err _ => q <> Datasets | Panic => F end.

Section session.
Context {B : Build} {R : Type} `{BlockRead R}.

Definition serve (q : request) : SM (Zfs R) Error response :=
  match q with
  | ChildDatasets parent => names ← child_datasets parent; mret (RNames names)
  | Datasets => paths ← datasets; mret (RDatasets paths)
  | ReadDir ds path => entries ← read_dir ds path; mret (REntries entries)
  | Stat_ ds path => st ← stat ds path; mret (RStat st)
  | Exists ds path => b ← exists_ ds path; mret (RExists b)
  | Read ds path => bs ← read ds path; mret (RBytes bs)
  | ReadAt ds path offset len => bs ← read_at ds path offset len; mret (RBytes bs)
  end.
(** The answers to requests in turn, each on the members as the last one left them, an error or not. *)
Fixpoint session (qs : list request) (z : Zfs R) : list (outcome Error response) * Zfs R :=
  match qs with
  | [] => ([], z)
  | q :: qs => let '(r, z) := serve q z in let '(rs, z) := session qs z in (r :: rs, z)
  end.

Context {BL : BuildLaws B} (p : ImportedPool) (ms0 : list (PoolMember R)).
Hypothesis Hplain : plain_layout (topology p).
Hypothesis Hmos : Dn.dnode_wf (mos_dnode p).
Abbreviation F := (pool_fault p ms0).
Abbreviation I := (serving_from p ms0).
Definition served (q : request) (r : outcome Error response) (z : Zfs R) : Prop := I z /\ answered F q r.

(** A request that is answered by mapping a result. *)
Lemma served_map {A} q (m : SM (Zfs R) Error A) (f : A -> response) P z :
  q <> Datasets -> (forall a, P a -> answer_ok q (f a)) -> hoare_upto F I m P -> I z -> wp (a ← m; mret (f a)) (served q) z.
Proof using.
  intros Hq Hf Hm Hz. apply wp_bind. destruct (Hm z Hz) as [Hi Hs]. unfold wp. destruct (fst (m z)); cbn in *; [|done..]. split; [done|]. now apply Hf.
Qed.

Lemma served_listing (m : SM (Zfs R) Error (list (list bytes))) z :
  wp m (listed F I) z -> wp (a ← m; mret (RDatasets a)) (served Datasets) z.
Proof using. intros [Hi Hs]. apply wp_bind. unfold wp. destruct (fst (m z)); cbn in *; [|done..]. now split. Qed.

Lemma serve_answers q z : request_wf q -> I z -> wp (serve q) (served q) z.
Proof using BL Hplain Hmos.
  intros Hq Hz. destruct q as [parent| |ds path|ds path|ds path|ds path|ds path off len]; cbn [serve].
  2: { apply served_listing. now apply upto_datasets. }
  all: eapply served_map; [done| | |exact Hz].
  - intros a Ha. exact Logic.I.
  - apply upto_on_members, (upto_child_names _ _ Hplain _ ms0); seen || (now left).
  - intros a Ha. exact Ha.
  - now apply upto_read_dir.
  - intros a Ha. exact Ha.
  - now apply upto_stat.
  - intros a Ha. exact Logic.I.
  - now apply upto_exists.
  - intros a Ha. exact Ha.
  - now apply upto_read.
  - intros a Ha. exact Ha.
  - destruct Hq as [[? _] [? _]]. now apply upto_read_at.
Qed.

Lemma session_answers qs : forall z, Forall request_wf qs -> I z ->
  Forall2 (answered F) qs (fst (session qs z)) /\ I (snd (session qs z)).
Proof using BL Hplain Hmos.
  induction qs as [|q qs IH]; intros z Hqs Hz; cbn [session]; [now split; [constructor|]|].
  apply Forall_cons in Hqs as [Hq Hqs]. destruct (serve_answers q z Hq Hz) as [Hz1 Hr]. destruct (serve q z) as [r z1]. cbn in Hz1, Hr.
  destruct (IH z1 Hqs Hz1) as [Hrs Hz2]. destruct (session qs z1) as [rs z2]. cbn in *. split; [now constructor|done].
Qed.
End session.

(** C2: Whatever the devices return, importing a pool from them and serving any requests
    on it ends in results or errors: on a single disk or a mirror the one
    panic there can be is that of a ZAP object of the pool whose first block
    has no room for its type.  The list of datasets always ends, within its bounds and without an error; a file gives no more than
    the limit or what was asked for; the pool stays as it was imported, and its members are only read. *)
Theorem hostile_devices {B : Build} {BL : BuildLaws B} {R} `{BlockRead R} (ms : list (PoolMember R)) (qs : list request) :
  Forall request_wf qs ->
  match import ms with
  | Ok z =>
      plain_layout (topology (z_pool z)) ->
      let '(answers, z') := session qs z in
      Forall2 (answered (pool_fault (z_pool z) (z_members z))) qs answers /\
      z_pool z' = z_pool z /\ after_reads ms (z_members z')
  | Err _ => True
  | Panic => import_fault ms
  end.
Proof.
  intros Hqs. unfold import. pose proof (upto_import ms) as Hi. unfold wp, imported_upto in Hi.
  destruct (Pool.import ms) as [[p|e|] ms1]; cbn in *; [|done..]. intros Hp. destruct (Hi Hp) as [Hr Hok].
  destruct (session_answers p ms1 Hp Hok qs {| z_members := ms1; z_pool := p |} Hqs) as [Ha [Hz1 Hz2]]; [split; [done|constructor]|].
  destruct (session qs _) as [answers z']. cbn in *. splits; [done..|]. eapply after_reads_trans; eauto.
Qed.

(** The example pool, imported. *)
Lemma tank_imports : exists label, import (B := plain_build) (tank label) = Ok (tank_zfs label).
Proof.
  destruct tank_label as [buf Hconf]. exists buf. unfold import.
  now rewrite (import_held (B := plain_build) (tank buf) [tank_config] tank_description Hconf (tank_rooted buf)).
Qed.
(** A session on it, with the size of a file that is there, and one that is not. *)
Definition sample_requests : list request := [Datasets; Stat_ boot motd_path; Exists boot [ascii_bytes "nothing"]; ReadAt boot motd_path 8 6].

Lemma hostile_devices_witness : exists label answers z',
  session (B := plain_build) sample_requests (tank_zfs label) = (answers, z') /\
  Forall2 (answered (pool_fault (B := plain_build) (d_pool tank_description) (tank label))) sample_requests answers /\
  z_pool z' = d_pool tank_description /\ after_reads (tank label) (z_members z').
Proof.
  destruct tank_imports as [label Hi]. exists label.
  assert (Hw : Forall request_wf sample_requests) by (repeat constructor; vm_compute; congruence).
  pose proof (hostile_devices (B := plain_build) (tank label) sample_requests Hw) as Hs. rewrite Hi in Hs. specialize (Hs I).
  destruct (session sample_requests (tank_zfs label)) as [answers z']. exists answers, z'. destruct Hs as (H1 & H2 & H3).
  split; [reflexivity|]. split; [exact H1|]. split; [exact H2|exact H3].
Defined.
