(* ===== verification/ErrorText.v ===== *)
(** * Error texts

    Every error type of the crate has a [Display] text and, as a standard
    [Error] (in a build with the std feature), a source: the error that caused it.  [StdError] is that interface,
    with its law: a text ends in the text of its cause.  Below are its
    instances for the buffers, the small types, checksums, compression, block
    pointers, dnodes and object sets, each from the [fmt] and [source] of its
    type. *)

From stdpp Require Import pretty.
From S2P Require Import Prelude Errors Decoder Encoder Endian Types Dva BlockPointer Stream Fletcher Sha256 LabelChecksum Lzjb.
From S2P Require Import Dnode ObjectSet Acl BpObject.

#[local] Set Warnings "-register-all".

Open Scope string_scope.
Open Scope Z_scope.
Open Scope list_scope.

(** ** Formatting *)

(** [{}] of an integer, and of a truth value. *)
Definition dec (x : Z) : string := pretty x.
Definition bool_text (b : bool) : string := if b then "true" else "false".
(** [{:0w$x}]: hexadecimal digits without a prefix. *)
Definition zero_hex (w : nat) (x : Z) : string := hex_digits (Nat.max w (hex_length x)) x "".
Definition newline : string := String (Ascii.ascii_of_nat 10) "".
(** [{:#?}] of an array, an element a line. *)
Definition debug_list (l : list string) : string :=
  match l with
  | [] => "[]"
  | _ => "[" +:+ newline +:+ String.concat "" ((fun x => "    " +:+ x +:+ "," +:+ newline) <$> l) +:+ "]"
  end.

(** ** The interface *)

(** [&dyn Error]: a text, and the source. *)
Inductive DynError : Type := Dyn (text : string) (cause : option DynError).
Definition dyn_text (d : DynError) : string := let 'Dyn text _ := d in text.
(** The causes of an error, by following the sources. *)
Fixpoint causes (d : DynError) : list DynError :=
  match d with Dyn _ (Some c) => c :: causes c | Dyn _ None => [] end.

(** A text that ends in that of its cause. *)
Definition ends_in (text cause : string) : Prop := exists front, text = front +:+ " | " +:+ cause.
Fixpoint shown (d : DynError) : Prop :=
  match d with Dyn text (Some c) => ends_in text (dyn_text c) /\ shown c | Dyn _ None => True end.

Class StdError (E : Type) := {
  display : E -> string;
  source : E -> option DynError;
  reported : forall e, shown (Dyn (display e) (source e))
}.
Definition dyn {E} `{StdError E} (e : E) : DynError := Dyn (display e) (source e).

Lemma app_assoc_str (a b c : string) : a +:+ (b +:+ c) = (a +:+ b) +:+ c.
Proof. induction a as [|x a IH]; [done|]. change (String x (a +:+ (b +:+ c)) = String x ((a +:+ b) +:+ c)). congruence. Qed.
Lemma ends_here s : ends_in (" | " +:+ s) s.
Proof. now exists "". Qed.
Lemma ends_app a t s : ends_in t s -> ends_in (a +:+ t) s.
Proof. intros [front ->]. exists (a +:+ front). now rewrite app_assoc_str. Qed.
#[global] Hint Resolve ends_here ends_app : zfs.

Lemma shown_dyn {E} `{StdError E} (e : E) : shown (dyn e).
Proof. apply reported. Qed.

(** The causes of an error whose text shows its cause are all in its text. *)
Lemma shown_causes d : shown d -> Forall (fun c => ends_in (dyn_text d) (dyn_text c)) (causes d).
Proof.
  revert d. fix IH 1. intros [text [c|]]; cbn [causes shown]; [|done]. intros [He Hc]. constructor; [exact He|].
  specialize (IH c Hc). eapply Forall_impl; [exact IH|]. cbn. intros x [front Hx]. rewrite Hx in He. destruct He as [f ->].
  exists (f +:+ " | " +:+ front). now rewrite !app_assoc_str.
Qed.

(** An instance reports its causes: the text of each constructor with a source ends in it. *)
Ltac by_source :=
  first [exact I | split; [cbn -[String.append display]; solve [auto 20 with zfs]|apply shown_dyn] | match goal with err : _ |- _ => destruct err; by_source end].
Ltac reports := let e := fresh "e" in intros e; destruct e; by_source.

(** ** Instances *)

(** The reader's own error, whose text is its token. *)
#[global, refine] Instance Error_error : StdError Error := {| display := Error_display; source := fun _ => None; reported := _ |}.
Proof. reports. Defined.

(** [core::str::Utf8Error], of the standard library. *)
Definition Utf8Error_display (e : Utf8Error) : string :=
  match error_len e with
  | Some n => "invalid utf-8 sequence of "
        +:+ dec n +:+ " bytes from index " +:+ dec (valid_up_to e)
  | None => "incomplete utf-8 byte sequence from index "
        +:+ dec (valid_up_to e)
  end.
#[global, refine] Instance Utf8Error_error : StdError Utf8Error := {| display := Utf8Error_display; source := fun _ => None; reported := _ |}.
Proof. reports. Defined.

Definition BinaryDecodeError_display (e : BinaryDecodeError) : string :=
  match e with
  | EndOfInput offset max_offset capacity count =>
      "BinaryDecoder error, end of input at offset " +:+ dec offset +:+ " max_offset " +:+ dec max_offset +:+ " capacity "
        +:+ dec capacity +:+ " count " +:+ dec count
  | I32toI8Conversion offset value =>
      "BinaryDecoder error, i32 to i8 conversion at offset " +:+ dec offset +:+ ", value " +:+ dec value
  | I32toI16Conversion offset value =>
      "BinaryDecoder error, i32 to i16 conversion at offset " +:+ dec offset +:+ ", value " +:+ dec value
  | InvalidBoolean offset value => "BinaryDecoder error, invalid boolean at offset " +:+ dec offset +:+ " value " +:+ dec value
  | InvalidClamp capacity offset length =>
      "BinaryDecoder error, invalid clamp offset " +:+ dec offset +:+ " length " +:+ dec length +:+ ") for capacity "
        +:+ dec capacity
  | InvalidU64Magic expected actual =>
      "BinaryDecoder error, invalid u64 magic, expected 0x" +:+ zero_hex 16 expected +:+ " actual "
        +:+ debug_list (hex 2 <$> actual)
  | InvalidStr offset length err =>
      "BinaryDecoder error, invalid UTF8 str of length " +:+ dec length +:+ " at offset " +:+ dec offset +:+ " | " +:+ display err
  | NonZero offset count => "BinaryDecoder error, found non-zero in offset " +:+ dec offset +:+ " length " +:+ dec count
  | DecodeNotSupported operation => "BinaryDecoder error, operation " +:+ operation +:+ " not supported"
  | MissingNull offset => "BinaryDecoder error, did not find NULL byte after offset " +:+ dec offset
  | RewindAlignment count alignment => "BinaryDecoder error, rewind " +:+ dec count +:+ " is not a multiple of " +:+ dec alignment
  | RewindPastStart offset min_offset count =>
      "BinaryDecoder error, rewind past start at offset " +:+ dec offset +:+ " min_offset " +:+ dec min_offset +:+ " count "
        +:+ dec count
  | SeekAlignment offset alignment => "BinaryDecoder error, seek " +:+ dec offset +:+ " is not a multiple of " +:+ dec alignment
  | SeekPastEnd offset max_offset capacity =>
      "BinaryDecoder error, seek past end to offset " +:+ dec offset +:+ " max_offset " +:+ dec max_offset +:+ " capacity "
        +:+ dec capacity
  | SeekPastStart offset min_offset capacity =>
      "BinaryDecoder error, seek past end to offset " +:+ dec offset +:+ " min_offset " +:+ dec min_offset +:+ " capacity "
        +:+ dec capacity
  | SkipAlignment count alignment => "BinaryDecoder error, skip " +:+ dec count +:+ " is not a multiple of " +:+ dec alignment
  | U32toU8Conversion offset value =>
      "BinaryDecoder error, u32 to u8 conversion at offset " +:+ dec offset +:+ ", value " +:+ dec value
  | U32toU16Conversion offset value =>
      "BinaryDecoder error, u32 to u16 conversion at offset " +:+ dec offset +:+ ", value " +:+ dec value
  | UsizeConversion offset value => "BinaryDecoder error, usize conversion at offset " +:+ dec offset +:+ ", value " +:+ dec value
  end.
Definition BinaryDecodeError_source (e : BinaryDecodeError) : option DynError :=
  match e with
  | InvalidStr _ _ err => Some (dyn err)
  | _ => None
  end.
#[global, refine] Instance BinaryDecodeError_error : StdError BinaryDecodeError := {| display := BinaryDecodeError_display; source := BinaryDecodeError_source; reported := _ |}.
Proof. reports. Defined.

Definition BinaryEncodeError_display (e : BinaryEncodeError) : string :=
  match e with
  | EndOfOutput offset capacity count =>
      "BinaryEncoder error, end of output at offset " +:+ dec offset +:+ " capacity " +:+ dec capacity +:+ " count " +:+ dec count
  | EncodeNotSupported operation => "BinaryEncoder error, operation " +:+ operation +:+ " not supported"
  | EncodeRewindPastStart offset count =>
      "BinaryEncoder error, rewind past start at offset " +:+ dec offset +:+ " count " +:+ dec count
  | EncodeSeekPastEnd offset capacity =>
      "BinaryEncoder error, seek past end to offset " +:+ dec offset +:+ " capacity " +:+ dec capacity
  | EncodeUsizeConversion offset value =>
      "BinaryEncoder error, usize conversion at offset " +:+ dec offset +:+ ", value " +:+ dec value
  end.
Definition BinaryEncodeError_source (e : BinaryEncodeError) : option DynError := None.
#[global, refine] Instance BinaryEncodeError_error : StdError BinaryEncodeError := {| display := BinaryEncodeError_display; source := BinaryEncodeError_source; reported := _ |}.
Proof. reports. Defined.

Definition EndianEncodeError_display (e : EndianEncodeError) : string :=
  match e with
  | EndianEndOfOutput offset capacity count =>
      "Endian end of output at offset " +:+ dec offset +:+ " capacity " +:+ dec capacity +:+ " count " +:+ dec count
  end.
Definition EndianEncodeError_source (e : EndianEncodeError) : option DynError := None.
#[global, refine] Instance EndianEncodeError_error : StdError EndianEncodeError := {| display := EndianEncodeError_display; source := EndianEncodeError_source; reported := _ |}.
Proof. reports. Defined.

Inductive ChecksumTypeError : Type := ChecksumTypeUnknown (checksum : Z).
Definition ChecksumTypeError_display (e : ChecksumTypeError) : string :=
  match e with
  | ChecksumTypeUnknown checksum => "Unknown ChecksumType " +:+ dec checksum
  end.
Definition ChecksumTypeError_source (e : ChecksumTypeError) : option DynError := None.
#[global, refine] Instance ChecksumTypeError_error : StdError ChecksumTypeError := {| display := ChecksumTypeError_display; source := ChecksumTypeError_source; reported := _ |}.
Proof. reports. Defined.

Inductive CompressionTypeError : Type := CompressionTypeUnknown (compression : Z).
Definition CompressionTypeError_display (e : CompressionTypeError) : string :=
  match e with
  | CompressionTypeUnknown compression => "Unknown CompressionType " +:+ dec compression
  end.
Definition CompressionTypeError_source (e : CompressionTypeError) : option DynError := None.
#[global, refine] Instance CompressionTypeError_error : StdError CompressionTypeError := {| display := CompressionTypeError_display; source := CompressionTypeError_source; reported := _ |}.
Proof. reports. Defined.

Inductive DmuTypeError : Type := DmuTypeUnknown (dmu : Z).
Definition DmuTypeError_display (e : DmuTypeError) : string :=
  match e with
  | DmuTypeUnknown dmu => "Unknown DmuType " +:+ dec dmu
  end.
Definition DmuTypeError_source (e : DmuTypeError) : option DynError := None.
#[global, refine] Instance DmuTypeError_error : StdError DmuTypeError := {| display := DmuTypeError_display; source := DmuTypeError_source; reported := _ |}.
Proof. reports. Defined.

Inductive ChecksumValueDecodeError : Type := ChecksumValueDecodeBinary (err : BinaryDecodeError).
Definition ChecksumValueDecodeError_display (e : ChecksumValueDecodeError) : string :=
  match e with
  | ChecksumValueDecodeBinary err => "ChecksumValue decode error" +:+ " | " +:+ display err
  end.
Definition ChecksumValueDecodeError_source (e : ChecksumValueDecodeError) : option DynError :=
  match e with
  | ChecksumValueDecodeBinary err => Some (dyn err)
  end.
#[global, refine] Instance ChecksumValueDecodeError_error : StdError ChecksumValueDecodeError := {| display := ChecksumValueDecodeError_display; source := ChecksumValueDecodeError_source; reported := _ |}.
Proof. reports. Defined.

Inductive ChecksumValueEncodeError : Type := ChecksumValueEncodeBinary (err : BinaryEncodeError).
Definition ChecksumValueEncodeError_display (e : ChecksumValueEncodeError) : string :=
  match e with
  | ChecksumValueEncodeBinary err => "ChecksumValue encode error" +:+ " | " +:+ display err
  end.
Definition ChecksumValueEncodeError_source (e : ChecksumValueEncodeError) : option DynError :=
  match e with
  | ChecksumValueEncodeBinary err => Some (dyn err)
  end.
#[global, refine] Instance ChecksumValueEncodeError_error : StdError ChecksumValueEncodeError := {| display := ChecksumValueEncodeError_display; source := ChecksumValueEncodeError_source; reported := _ |}.
Proof. reports. Defined.

Definition ChecksumTailDecodeError_display (e : ChecksumTail_.DecodeError) : string :=
  match e with
  | ChecksumTail_.DBinary err => "ChecksumTail decode error" +:+ " | " +:+ display err
  | ChecksumTail_.DChecksumValue err => "ChecksumTail decode error" +:+ " | " +:+ display (ChecksumValueDecodeBinary err)
  end.
Definition ChecksumTailDecodeError_source (e : ChecksumTail_.DecodeError) : option DynError :=
  match e with
  | ChecksumTail_.DBinary err => Some (dyn err)
  | ChecksumTail_.DChecksumValue err => Some (dyn (ChecksumValueDecodeBinary err))
  end.
#[global, refine] Instance ChecksumTailDecodeError_error : StdError ChecksumTail_.DecodeError := {| display := ChecksumTailDecodeError_display; source := ChecksumTailDecodeError_source; reported := _ |}.
Proof. reports. Defined.

Definition ChecksumTailEncodeError_display (e : ChecksumTail_.EncodeError) : string :=
  match e with
  | ChecksumTail_.EBinary err => "ChecksumTail encode error" +:+ " | " +:+ display err
  | ChecksumTail_.EChecksumValue err => "ChecksumTail encode error" +:+ " | " +:+ display (ChecksumValueEncodeBinary err)
  end.
Definition ChecksumTailEncodeError_source (e : ChecksumTail_.EncodeError) : option DynError :=
  match e with
  | ChecksumTail_.EBinary err => Some (dyn err)
  | ChecksumTail_.EChecksumValue err => Some (dyn (ChecksumValueEncodeBinary err))
  end.
#[global, refine] Instance ChecksumTailEncodeError_error : StdError ChecksumTail_.EncodeError := {| display := ChecksumTailEncodeError_display; source := ChecksumTailEncodeError_source; reported := _ |}.
Proof. reports. Defined.

Definition ChecksumError_display (e : ChecksumError) : string :=
  match e with
  | ChecksumUnsupported checksum implementation =>
      "Unsupported Checksum " +:+ ChecksumType.display checksum +:+ " implementation " +:+ implementation
  end.
Definition ChecksumError_source (e : ChecksumError) : option DynError := None.
#[global, refine] Instance ChecksumError_error : StdError ChecksumError := {| display := ChecksumError_display; source := ChecksumError_source; reported := _ |}.
Proof. reports. Defined.

Definition LabelChecksumError_display (e : LabelChecksumError) : string :=
  match e with
  | LcBinary err => "Label checksum error" +:+ " | " +:+ display err
  | LcChecksum err => "Label checksum error" +:+ " | " +:+ display err
  | LcChecksumTail err => "Label checksum error" +:+ " | " +:+ display err
  | LcInvalidLength length => "Label checksum error, invalid length " +:+ dec length
  | LcOffsetTooLarge offset => "Label checksum error, offset is too large " +:+ dec offset
  end.
Definition LabelChecksumError_source (e : LabelChecksumError) : option DynError :=
  match e with
  | LcBinary err => Some (dyn err)
  | LcChecksum err => Some (dyn err)
  | LcChecksumTail err => Some (dyn err)
  | _ => None
  end.
#[global, refine] Instance LabelChecksumError_error : StdError LabelChecksumError := {| display := LabelChecksumError_display; source := LabelChecksumError_source; reported := _ |}.
Proof. reports. Defined.

Definition LabelVerifyError_display (e : LabelVerifyError) : string :=
  match e with
  | LvBinaryDecode err => "Label verify error" +:+ " | " +:+ display err
  | LvBinaryEncode err => "Label verify error" +:+ " | " +:+ display err
  | LvChecksum err => "Label verify error" +:+ " | " +:+ display err
  | LvChecksumTailDecode err => "Label verify error" +:+ " | " +:+ display err
  | LvChecksumTailEncode err => "Label verify error" +:+ " | " +:+ display err
  | LvInvalidLength length => "Label verify error, invalid length " +:+ dec length
  | LvMismatch computed stored =>
      "Label verify checksum mismatch, computed " +:+ debug_list (hex 16 <$> computed) +:+ " stored "
        +:+ debug_list (hex 16 <$> stored)
  | LvOffsetTooLarge offset => "Label verify error, offset is too large " +:+ dec offset
  end.
Definition LabelVerifyError_source (e : LabelVerifyError) : option DynError :=
  match e with
  | LvBinaryDecode err => Some (dyn err)
  | LvBinaryEncode err => Some (dyn err)
  | LvChecksum err => Some (dyn err)
  | LvChecksumTailDecode err => Some (dyn err)
  | LvChecksumTailEncode err => Some (dyn err)
  | _ => None
  end.
#[global, refine] Instance LabelVerifyError_error : StdError LabelVerifyError := {| display := LabelVerifyError_display; source := LabelVerifyError_source; reported := _ |}.
Proof. reports. Defined.

Definition CompressionError_display (e : CompressionError) : string :=
  match e with
  | NotCompressable => "Compression error, not compressable"
  | CompUnsupported compression => "Unsupported Compression " +:+ CompressionType.display compression
  end.
Definition CompressionError_source (e : CompressionError) : option DynError := None.
#[global, refine] Instance CompressionError_error : StdError CompressionError := {| display := CompressionError_display; source := CompressionError_source; reported := _ |}.
Proof. reports. Defined.

Definition DecompressionError_display (e : DecompressionError) : string :=
  match e with
  | DecEndOfInput offset capacity count =>
      "Decompression error, end of input at offset " +:+ dec offset +:+ " capacity " +:+ dec capacity +:+ " count " +:+ dec count
  | DecInvalidInput offset => "Decompression error, invalid input at offset " +:+ dec offset
  | DecUnsupported compression => "Decompression error, unsupported compression " +:+ CompressionType.display compression
  end.
Definition DecompressionError_source (e : DecompressionError) : option DynError := None.
#[global, refine] Instance DecompressionError_error : StdError DecompressionError := {| display := DecompressionError_display; source := DecompressionError_source; reported := _ |}.
Proof. reports. Defined.

Definition DvaDecodeError_display (e : Dva.DecodeError) : string :=
  match e with
  | Dva.Binary err => "DVA decode error" +:+ " | " +:+ display err
  | Dva.InvalidOffset offset => "DVA decode error, invalid offset " +:+ dec offset
  | Dva.NonZeroGrid grid => "DVA decode error, non-zero grid " +:+ dec grid
  | Dva.NonZeroPadding padding => "DVA decode error, non-zero padding " +:+ dec padding
  end.
Definition DvaDecodeError_source (e : Dva.DecodeError) : option DynError :=
  match e with
  | Dva.Binary err => Some (dyn err)
  | _ => None
  end.
#[global, refine] Instance DvaDecodeError_error : StdError Dva.DecodeError := {| display := DvaDecodeError_display; source := DvaDecodeError_source; reported := _ |}.
Proof. reports. Defined.

Definition DvaEncodeError_display (e : Dva.EncodeError) : string :=
  match e with
  | Dva.EBinary err => "DVA encode error" +:+ " | " +:+ display err
  | Dva.EInvalidAllocated allocated => "DVA encode error, invalid allocated " +:+ dec allocated
  | Dva.EInvalidOffset offset => "DVA encode error, invalid offset " +:+ dec offset
  | Dva.EInvalidVdev vdev => "DVA encode error, invalid vdev " +:+ dec vdev
  end.
Definition DvaEncodeError_source (e : Dva.EncodeError) : option DynError :=
  match e with
  | Dva.EBinary err => Some (dyn err)
  | _ => None
  end.
#[global, refine] Instance DvaEncodeError_error : StdError Dva.EncodeError := {| display := DvaEncodeError_display; source := DvaEncodeError_source; reported := _ |}.
Proof. reports. Defined.

Inductive BlockPointerEmbeddedTypeError : Type := EmbeddedTypeUnknown (embedded_type : Z).
Definition BlockPointerEmbeddedTypeError_display (e : BlockPointerEmbeddedTypeError) : string :=
  match e with
  | EmbeddedTypeUnknown embedded_type => "Unknown BlockPointerEmbeddedType " +:+ dec embedded_type
  end.
Definition BlockPointerEmbeddedTypeError_source (e : BlockPointerEmbeddedTypeError) : option DynError := None.
#[global, refine] Instance BlockPointerEmbeddedTypeError_error : StdError BlockPointerEmbeddedTypeError := {| display := BlockPointerEmbeddedTypeError_display; source := BlockPointerEmbeddedTypeError_source; reported := _ |}.
Proof. reports. Defined.

Definition BlockPointerDecodeError_display (e : Bp.DecodeError) : string :=
  match e with
  | Bp.DBinary err => "BlockPointer decode error" +:+ " | " +:+ display err
  | Bp.DEmbeddedType code => "BlockPointer decode error" +:+ " | " +:+ display (EmbeddedTypeUnknown code)
  | Bp.DChecksumType code => "BlockPointer decode error" +:+ " | " +:+ display (ChecksumTypeUnknown code)
  | Bp.DChecksumValue err => "BlockPointer decode error" +:+ " | " +:+ display (ChecksumValueDecodeBinary err)
  | Bp.DCompressionType code => "BlockPointer decode error" +:+ " | " +:+ display (CompressionTypeUnknown code)
  | Bp.DDmuType code => "BlockPointer decode error" +:+ " | " +:+ display (DmuTypeUnknown code)
  | Bp.DDva err => "BlockPointer decode error" +:+ " | " +:+ display err
  | Bp.InvalidBlockPointerType embedded encrypted =>
      "BlockPointer decode error, invalid embedded " +:+ bool_text embedded +:+ " encrypted " +:+ bool_text encrypted
  | Bp.InvalidDedupValue dedup => "BlockPointer decode error, invalid dedup value " +:+ bool_text dedup
  | Bp.InvalidEmbeddedLength length => "BlockPointer decode error, invalid embdedded length " +:+ dec length
  | Bp.LogicalSizeTooLarge logical_size => "BlockPointer decode error, logical size too big for usize " +:+ dec logical_size
  end.
Definition BlockPointerDecodeError_source (e : Bp.DecodeError) : option DynError :=
  match e with
  | Bp.DBinary err => Some (dyn err)
  | Bp.DEmbeddedType code => Some (dyn (EmbeddedTypeUnknown code))
  | Bp.DChecksumType code => Some (dyn (ChecksumTypeUnknown code))
  | Bp.DChecksumValue err => Some (dyn (ChecksumValueDecodeBinary err))
  | Bp.DCompressionType code => Some (dyn (CompressionTypeUnknown code))
  | Bp.DDmuType code => Some (dyn (DmuTypeUnknown code))
  | Bp.DDva err => Some (dyn err)
  | _ => None
  end.
#[global, refine] Instance BlockPointerDecodeError_error : StdError Bp.DecodeError := {| display := BlockPointerDecodeError_display; source := BlockPointerDecodeError_source; reported := _ |}.
Proof. reports. Defined.

Definition BlockPointerEncodeError_display (e : Bp.EncodeError) : string :=
  match e with
  | Bp.EChecksumValue err => "BlockPointer encode error" +:+ " | " +:+ display (ChecksumValueEncodeBinary err)
  | Bp.EDva err => "BlockPointer encode error" +:+ " | " +:+ display err
  | Bp.EEndian err => "BlockPointer encode error" +:+ " | " +:+ display err
  | Bp.EInvalidEmbeddedLength length => "BlockPointer encode error, invalid embdedded length " +:+ dec length
  | Bp.EInvalidLevel level => "BlockPointer encode error, invalid level " +:+ dec level
  | Bp.EInvalidLogicalSectors sectors => "BlockPointer encode error, invalid logical sectors " +:+ dec sectors
  | Bp.EInvalidLogicalSize logical_size => "BlockPointer encode error, invalid logical size " +:+ dec logical_size
  | Bp.EInvalidPhysicalSectors sectors => "BlockPointer encode error, invalid physical sectors " +:+ dec sectors
  end.
Definition BlockPointerEncodeError_source (e : Bp.EncodeError) : option DynError :=
  match e with
  | Bp.EChecksumValue err => Some (dyn (ChecksumValueEncodeBinary err))
  | Bp.EDva err => Some (dyn err)
  | Bp.EEndian err => Some (dyn err)
  | _ => None
  end.
#[global, refine] Instance BlockPointerEncodeError_error : StdError Bp.EncodeError := {| display := BlockPointerEncodeError_display; source := BlockPointerEncodeError_source; reported := _ |}.
Proof. reports. Defined.

Definition BpObjectHeaderDecodeError_display (e : BpObjectHeaderDecodeError) : string :=
  match e with
  | BohBinary err => "BpObjectHeader decode error" +:+ " | " +:+ display err
  | BohSize size => "BpObjectHeader decode error, unknown size " +:+ dec size
  end.
Definition BpObjectHeaderDecodeError_source (e : BpObjectHeaderDecodeError) : option DynError :=
  match e with
  | BohBinary err => Some (dyn err)
  | _ => None
  end.
#[global, refine] Instance BpObjectHeaderDecodeError_error : StdError BpObjectHeaderDecodeError := {| display := BpObjectHeaderDecodeError_display; source := BpObjectHeaderDecodeError_source; reported := _ |}.
Proof. reports. Defined.

Definition BpObjectHeaderEncodeError_display (e : BpObjectHeaderEncodeError) : string :=
  match e with
  | BohEBinary err => "BpObjectHeader encode error" +:+ " | " +:+ display err
  end.
Definition BpObjectHeaderEncodeError_source (e : BpObjectHeaderEncodeError) : option DynError :=
  match e with
  | BohEBinary err => Some (dyn err)
  end.
#[global, refine] Instance BpObjectHeaderEncodeError_error : StdError BpObjectHeaderEncodeError := {| display := BpObjectHeaderEncodeError_display; source := BpObjectHeaderEncodeError_source; reported := _ |}.
Proof. reports. Defined.

Definition DnodeDecodeError_display (e : Dn.DecodeError) : string :=
  match e with
  | Dn.DBinary e => "Dnode decode error" +:+ " | " +:+ display e
  | Dn.DBlockPointer e => "Dnode decode error" +:+ " | " +:+ display e
  | Dn.DBlockPointerCount count => "Dnode decode error, block pointer count " +:+ dec count
  | Dn.DBonusLength length => "Dnode decode error, invalid bonus length " +:+ dec length
  | Dn.DChecksumType c => "Dnode decode error" +:+ " | " +:+ display (ChecksumTypeUnknown c)
  | Dn.DCompressionType c => "Dnode decode error" +:+ " | " +:+ display (CompressionTypeUnknown c)
  | Dn.DDmuType c => "Dnode decode error" +:+ " | " +:+ display (DmuTypeUnknown c)
  | Dn.DFlags flags => "Dnode decode error, unknown flags " +:+ hex 2 flags
  | Dn.DSpillBlockPointerCount count => "Dnode decode error, invalid spill block pointer count " +:+ dec count
  end.
Definition DnodeDecodeError_source (e : Dn.DecodeError) : option DynError :=
  match e with
  | Dn.DBinary e => Some (dyn e)
  | Dn.DBlockPointer e => Some (dyn e)
  | Dn.DChecksumType c => Some (dyn (ChecksumTypeUnknown c))
  | Dn.DCompressionType c => Some (dyn (CompressionTypeUnknown c))
  | Dn.DDmuType c => Some (dyn (DmuTypeUnknown c))
  | _ => None
  end.
#[global, refine] Instance DnodeDecodeError_error : StdError Dn.DecodeError := {| display := DnodeDecodeError_display; source := DnodeDecodeError_source; reported := _ |}.
Proof. reports. Defined.

Definition DnodeEncodeError_display (e : Dn.EncodeError) : string :=
  match e with
  | Dn.EBinary e => "Dnode encode error" +:+ " | " +:+ display e
  | Dn.EBlockPointer e => "Dnode encode error" +:+ " | " +:+ display e
  | Dn.EBonusLength length => "Dnode encode error, invalid bonus length " +:+ dec length
  end.
Definition DnodeEncodeError_source (e : Dn.EncodeError) : option DynError :=
  match e with
  | Dn.EBinary e => Some (dyn e)
  | Dn.EBlockPointer e => Some (dyn e)
  | _ => None
  end.
#[global, refine] Instance DnodeEncodeError_error : StdError Dn.EncodeError := {| display := DnodeEncodeError_display; source := DnodeEncodeError_source; reported := _ |}.
Proof. reports. Defined.

Definition ZilHeaderDecodeError_display (e : Zil.DecodeError) : string :=
  match e with
  | Zil.DBinary err => "ZilHeader decode error" +:+ " | " +:+ display err
  | Zil.DBlockPointer err => "ZilHeader decode error" +:+ " | " +:+ display err
  end.
Definition ZilHeaderDecodeError_source (e : Zil.DecodeError) : option DynError :=
  match e with
  | Zil.DBinary err => Some (dyn err)
  | Zil.DBlockPointer err => Some (dyn err)
  end.
#[global, refine] Instance ZilHeaderDecodeError_error : StdError Zil.DecodeError := {| display := ZilHeaderDecodeError_display; source := ZilHeaderDecodeError_source; reported := _ |}.
Proof. reports. Defined.

Definition ZilHeaderEncodeError_display (e : Zil.EncodeError) : string :=
  match e with
  | Zil.EBinary err => "ZilHeader encode error" +:+ " | " +:+ display err
  | Zil.EBlockPointer err => "ZilHeader encode error" +:+ " | " +:+ display err
  end.
Definition ZilHeaderEncodeError_source (e : Zil.EncodeError) : option DynError :=
  match e with
  | Zil.EBinary err => Some (dyn err)
  | Zil.EBlockPointer err => Some (dyn err)
  end.
#[global, refine] Instance ZilHeaderEncodeError_error : StdError Zil.EncodeError := {| display := ZilHeaderEncodeError_display; source := ZilHeaderEncodeError_source; reported := _ |}.
Proof. reports. Defined.

Inductive ObjectSetTypeError : Type := ObjectSetTypeUnknown (os_type : Z).
Definition ObjectSetTypeError_display (e : ObjectSetTypeError) : string :=
  match e with
  | ObjectSetTypeUnknown os_type => "Unknown ObjectSetType " +:+ dec os_type
  end.
Definition ObjectSetTypeError_source (e : ObjectSetTypeError) : option DynError := None.
#[global, refine] Instance ObjectSetTypeError_error : StdError ObjectSetTypeError := {| display := ObjectSetTypeError_display; source := ObjectSetTypeError_source; reported := _ |}.
Proof. reports. Defined.

Definition ObjectSetDecodeError_display (e : Os.DecodeError) : string :=
  match e with
  | Os.DBinary err => "ObjectSet decode error" +:+ " | " +:+ display err
  | Os.DDnode err => "ObjectSet decode error" +:+ " | " +:+ display err
  | Os.DEmptyDnode => "ObjectSet decode error, empty dnode"
  | Os.DFlags flags => "ObjectSet decode error, unknown flags " +:+ hex 16 flags
  | Os.DObjectSetType os_type => "ObjectSet decode error" +:+ " | " +:+ display (ObjectSetTypeUnknown os_type)
  | Os.DZilHeader err => "ObjectSet decode error" +:+ " | " +:+ display err
  end.
Definition ObjectSetDecodeError_source (e : Os.DecodeError) : option DynError :=
  match e with
  | Os.DBinary err => Some (dyn err)
  | Os.DDnode err => Some (dyn err)
  | Os.DObjectSetType os_type => Some (dyn (ObjectSetTypeUnknown os_type))
  | Os.DZilHeader err => Some (dyn err)
  | _ => None
  end.
#[global, refine] Instance ObjectSetDecodeError_error : StdError Os.DecodeError := {| display := ObjectSetDecodeError_display; source := ObjectSetDecodeError_source; reported := _ |}.
Proof. reports. Defined.

Definition ObjectSetEncodeError_display (e : Os.EncodeError) : string :=
  match e with
  | Os.EBinary err => "ObjectSet encode error" +:+ " | " +:+ display err
  | Os.EDnode err => "ObjectSet encode error" +:+ " | " +:+ display err
  | Os.EZilHeader err => "ObjectSet encode error" +:+ " | " +:+ display err
  end.
Definition ObjectSetEncodeError_source (e : Os.EncodeError) : option DynError :=
  match e with
  | Os.EBinary err => Some (dyn err)
  | Os.EDnode err => Some (dyn err)
  | Os.EZilHeader err => Some (dyn err)
  end.
#[global, refine] Instance ObjectSetEncodeError_error : StdError Os.EncodeError := {| display := ObjectSetEncodeError_display; source := ObjectSetEncodeError_source; reported := _ |}.
Proof. reports. Defined.

