(* ===== verification/ErrorRecords.v ===== *)
(** * Error texts of the records

    The instances of [StdError] for the DSL records, ZAP objects, uberblocks
    and the regions of labels. *)

From stdpp Require Import pretty.
From S2P Require Import Prelude Errors Decoder Encoder Codec Types Dva BlockPointer Stream Fletcher Sha256 LabelChecksum Dnode ObjectSet.
From S2P Require Import Zap Dsl Acl Uberblock Label ErrorText.

Open Scope string_scope.
Open Scope Z_scope.
Open Scope list_scope.

Definition DslDirectoryDecodeError_display (e : DslDir.DecodeError) : string :=
  match e with
  | DslDir.DBinary err => "DslDirectory decode error" +:+ " | " +:+ display err
  | DslDir.DFlags flags => "DslDirectory decode error, unknown flags " +:+ dec flags
  | DslDir.DMissingChildDirectory => "DslDirectory decode error, child directory ZAP object is 0"
  | DslDir.DMissingProperties => "DslDirectory decode error, properties ZAP object is 0"
  end.
Definition DslDirectoryDecodeError_source (e : DslDir.DecodeError) : option DynError :=
  match e with
  | DslDir.DBinary err => Some (dyn err)
  | _ => None
  end.
#[global, refine] Instance DslDirectoryDecodeError_error : StdError DslDir.DecodeError := {| display := DslDirectoryDecodeError_display; source := DslDirectoryDecodeError_source; reported := _ |}.
Proof. reports. Defined.

Definition DslDirectoryEncodeError_display (e : DslDir.EncodeError) : string :=
  match e with
  | DslDir.EBinary err => "DslDirectory encode error" +:+ " | " +:+ display err
  | DslDir.EMissingChildDirectory => "DslDirectory encode error, child directory ZAP object is 0"
  | DslDir.EMissingProperties => "DslDirectory encode error, properties ZAP object is 0"
  end.
Definition DslDirectoryEncodeError_source (e : DslDir.EncodeError) : option DynError :=
  match e with
  | DslDir.EBinary err => Some (dyn err)
  | _ => None
  end.
#[global, refine] Instance DslDirectoryEncodeError_error : StdError DslDir.EncodeError := {| display := DslDirectoryEncodeError_display; source := DslDirectoryEncodeError_source; reported := _ |}.
Proof. reports. Defined.

Definition DslDataSetDecodeError_display (e : DslDs.DecodeError) : string :=
  match e with
  | DslDs.DBinary err => "DslDataSet decode error" +:+ " | " +:+ display err
  | DslDs.DBlockPointer err => "DslDataSet decode error" +:+ " | " +:+ display err
  | DslDs.DFlags flags => "ObjectSet decode error, unknown flags " +:+ hex 16 flags
  | DslDs.DMissingDirectory => "DslDataSet decode error, missing directory object"
  | DslDs.DPreviousSnapshot prev_snapshot_obj prev_snapshot_txg =>
      "DslDataSet decode error, previous snapshot, obj: " +:+ dec prev_snapshot_obj +:+ " txg: " +:+ dec prev_snapshot_txg
  end.
Definition DslDataSetDecodeError_source (e : DslDs.DecodeError) : option DynError :=
  match e with
  | DslDs.DBinary err => Some (dyn err)
  | DslDs.DBlockPointer err => Some (dyn err)
  | _ => None
  end.
#[global, refine] Instance DslDataSetDecodeError_error : StdError DslDs.DecodeError := {| display := DslDataSetDecodeError_display; source := DslDataSetDecodeError_source; reported := _ |}.
Proof. reports. Defined.

Definition DslDataSetEncodeError_display (e : DslDs.EncodeError) : string :=
  match e with
  | DslDs.EBinary err => "DslDataSet encode error" +:+ " | " +:+ display err
  | DslDs.EBlockPointer err => "DslDataSet encode error" +:+ " | " +:+ display err
  | DslDs.EMissingDirectory => "DslDataSet encode error, missing directory object"
  | DslDs.EPreviousSnapshot prev_snapshot_obj prev_snapshot_txg =>
      "DslDataSet encode error, previous snapshot, obj: " +:+ dec prev_snapshot_obj +:+ " txg: " +:+ dec prev_snapshot_txg
  end.
Definition DslDataSetEncodeError_source (e : DslDs.EncodeError) : option DynError :=
  match e with
  | DslDs.EBinary err => Some (dyn err)
  | DslDs.EBlockPointer err => Some (dyn err)
  | _ => None
  end.
#[global, refine] Instance DslDataSetEncodeError_error : StdError DslDs.EncodeError := {| display := DslDataSetEncodeError_display; source := DslDataSetEncodeError_source; reported := _ |}.
Proof. reports. Defined.

Inductive ZapCaseNormalizationError : Type := ZapCaseNormalizationUnknown (case_normalization : Z).
Definition ZapCaseNormalizationError_display (e : ZapCaseNormalizationError) : string :=
  match e with
  | ZapCaseNormalizationUnknown case_normalization => "Unknown ZapCaseNormalization " +:+ dec case_normalization
  end.
Definition ZapCaseNormalizationError_source (e : ZapCaseNormalizationError) : option DynError := None.
#[global, refine] Instance ZapCaseNormalizationError_error : StdError ZapCaseNormalizationError := {| display := ZapCaseNormalizationError_display; source := ZapCaseNormalizationError_source; reported := _ |}.
Proof. reports. Defined.

Inductive ZapUnicodeNormalizationError : Type := ZapUnicodeNormalizationUnknown (unicode_normalization : Z).
Definition ZapUnicodeNormalizationError_display (e : ZapUnicodeNormalizationError) : string :=
  match e with
  | ZapUnicodeNormalizationUnknown unicode_normalization => "Unknown ZapUnicodeNormalization " +:+ dec unicode_normalization
  end.
Definition ZapUnicodeNormalizationError_source (e : ZapUnicodeNormalizationError) : option DynError := None.
#[global, refine] Instance ZapUnicodeNormalizationError_error : StdError ZapUnicodeNormalizationError := {| display := ZapUnicodeNormalizationError_display; source := ZapUnicodeNormalizationError_source; reported := _ |}.
Proof. reports. Defined.

Definition ZapMicroHeaderDecodeError_display (e : MicroHeader.DecodeError) : string :=
  match e with
  | MicroHeader.DBinary err => "ZapMicroHeader decode error" +:+ " | " +:+ display err
  | MicroHeader.DBlockType block_type => "ZapMicroHeader decode error, invalid block_type " +:+ dec block_type
  | MicroHeader.DCaseNormalization case_normalization =>
      "ZapMicroHeader decode error" +:+ " | " +:+ display (ZapCaseNormalizationUnknown case_normalization)
  | MicroHeader.DNormalization normalization => "ZapMicroHeader decode error, unknown normalization " +:+ dec normalization
  | MicroHeader.DUnicodeNormalization unicode_normalization =>
      "ZapMicroHeader decode error" +:+ " | " +:+ display (ZapUnicodeNormalizationUnknown unicode_normalization)
  end.
Definition ZapMicroHeaderDecodeError_source (e : MicroHeader.DecodeError) : option DynError :=
  match e with
  | MicroHeader.DBinary err => Some (dyn err)
  | MicroHeader.DCaseNormalization case_normalization => Some (dyn (ZapCaseNormalizationUnknown case_normalization))
  | MicroHeader.DUnicodeNormalization unicode_normalization => Some (dyn (ZapUnicodeNormalizationUnknown unicode_normalization))
  | _ => None
  end.
#[global, refine] Instance ZapMicroHeaderDecodeError_error : StdError MicroHeader.DecodeError := {| display := ZapMicroHeaderDecodeError_display; source := ZapMicroHeaderDecodeError_source; reported := _ |}.
Proof. reports. Defined.

Definition ZapMicroHeaderEncodeError_display (e : MicroHeader.EncodeError) : string :=
  match e with
  | MicroHeader.EBinary err => "ZapMicroHeader encode error" +:+ " | " +:+ display err
  end.
Definition ZapMicroHeaderEncodeError_source (e : MicroHeader.EncodeError) : option DynError :=
  match e with
  | MicroHeader.EBinary err => Some (dyn err)
  end.
#[global, refine] Instance ZapMicroHeaderEncodeError_error : StdError MicroHeader.EncodeError := {| display := ZapMicroHeaderEncodeError_display; source := ZapMicroHeaderEncodeError_source; reported := _ |}.
Proof. reports. Defined.

Definition ZapMicroEntryDecodeError_display (e : MicroEntry.DecodeError) : string :=
  match e with
  | MicroEntry.DBinary err => "ZapMicroEntry decode error" +:+ " | " +:+ display err
  | MicroEntry.DNameNotNullTerminated => "ZapMicroEntry decode error, name is not NULL terminated"
  | MicroEntry.DInvalidStr err => "ZapMicroEntry decode error, invalid UTF8 str" +:+ " | " +:+ display err
  end.
Definition ZapMicroEntryDecodeError_source (e : MicroEntry.DecodeError) : option DynError :=
  match e with
  | MicroEntry.DBinary err => Some (dyn err)
  | MicroEntry.DInvalidStr err => Some (dyn err)
  | _ => None
  end.
#[global, refine] Instance ZapMicroEntryDecodeError_error : StdError MicroEntry.DecodeError := {| display := ZapMicroEntryDecodeError_display; source := ZapMicroEntryDecodeError_source; reported := _ |}.
Proof. reports. Defined.

Definition ZapMicroEntryEncodeError_display (e : MicroEntry.EncodeError) : string :=
  match e with
  | MicroEntry.EBinary err => "ZapMicroEntry encode error" +:+ " | " +:+ display err
  | MicroEntry.ENameTooLong length =>
      "ZapMicroEntry encode error, name is too long: " +:+ dec length +:+ " > " +:+ dec MicroEntry.NAME_MAX
  end.
Definition ZapMicroEntryEncodeError_source (e : MicroEntry.EncodeError) : option DynError :=
  match e with
  | MicroEntry.EBinary err => Some (dyn err)
  | _ => None
  end.
#[global, refine] Instance ZapMicroEntryEncodeError_error : StdError MicroEntry.EncodeError := {| display := ZapMicroEntryEncodeError_display; source := ZapMicroEntryEncodeError_source; reported := _ |}.
Proof. reports. Defined.

Definition ZapMicroIteratorError_display (e : MicroIterator.IteratorError) : string :=
  match e with
  | MicroIterator.IBinary err => "ZapMicroIterator decode error" +:+ " | " +:+ display err
  | MicroIterator.ISize size =>
      "ZapMicroIterator decode error, entries size " +:+ dec size +:+ " is not a multiple of " +:+ dec MicroEntry.SIZE
  | MicroIterator.IZapMicroHeader err => "ZapMicroIterator decode error" +:+ " | " +:+ display err
  end.
Definition ZapMicroIteratorError_source (e : MicroIterator.IteratorError) : option DynError :=
  match e with
  | MicroIterator.IBinary err => Some (dyn err)
  | MicroIterator.IZapMicroHeader err => Some (dyn err)
  | _ => None
  end.
#[global, refine] Instance ZapMicroIteratorError_error : StdError MicroIterator.IteratorError := {| display := ZapMicroIteratorError_display; source := ZapMicroIteratorError_source; reported := _ |}.
Proof. reports. Defined.

Definition ZapMegaPointerTableDecodeError_display (e : MegaPointerTable.DecodeError) : string :=
  match e with
  | MegaPointerTable.DBinary err => "ZapMegaPointerTable decode error" +:+ " | " +:+ display err
  end.
Definition ZapMegaPointerTableDecodeError_source (e : MegaPointerTable.DecodeError) : option DynError :=
  match e with
  | MegaPointerTable.DBinary err => Some (dyn err)
  end.
#[global, refine] Instance ZapMegaPointerTableDecodeError_error : StdError MegaPointerTable.DecodeError := {| display := ZapMegaPointerTableDecodeError_display; source := ZapMegaPointerTableDecodeError_source; reported := _ |}.
Proof. reports. Defined.

Definition ZapMegaPointerTableEncodeError_display (e : MegaPointerTable.EncodeError) : string :=
  match e with
  | MegaPointerTable.EBinary err => "ZapMegaPointerTable encode error" +:+ " | " +:+ display err
  end.
Definition ZapMegaPointerTableEncodeError_source (e : MegaPointerTable.EncodeError) : option DynError :=
  match e with
  | MegaPointerTable.EBinary err => Some (dyn err)
  end.
#[global, refine] Instance ZapMegaPointerTableEncodeError_error : StdError MegaPointerTable.EncodeError := {| display := ZapMegaPointerTableEncodeError_display; source := ZapMegaPointerTableEncodeError_source; reported := _ |}.
Proof. reports. Defined.

Definition ZapMegaHeaderDecodeError_display (e : MegaHeader.DecodeError) : string :=
  match e with
  | MegaHeader.DBinary err => "ZapMegaHeader decode error" +:+ " | " +:+ display err
  | MegaHeader.DBlockSize block_size => "ZapMegaHeader decode error, invalid block size " +:+ dec block_size
  | MegaHeader.DBlockType block_type => "ZapMegaHeader decode error, invalid block type " +:+ dec block_type
  | MegaHeader.DCaseNormalization case_normalization =>
      "ZapMegaHeader decode error" +:+ " | " +:+ display (ZapCaseNormalizationUnknown case_normalization)
  | MegaHeader.DFlags flags => "ZapMegaHeader decode error unknown flags " +:+ hex 16 flags
  | MegaHeader.DMagic magic => "ZapMegaHeader decode error, invalid magic " +:+ dec magic
  | MegaHeader.DNormalization normalization => "ZapMegaHeader decode error, unknown normalization " +:+ dec normalization
  | MegaHeader.DUnicodeNormalization unicode_normalization =>
      "ZapMegaHeader decode error" +:+ " | " +:+ display (ZapUnicodeNormalizationUnknown unicode_normalization)
  | MegaHeader.DZapMegaPointerTable err => "ZapMegaHeader decode error" +:+ " | " +:+ display err
  end.
Definition ZapMegaHeaderDecodeError_source (e : MegaHeader.DecodeError) : option DynError :=
  match e with
  | MegaHeader.DBinary err => Some (dyn err)
  | MegaHeader.DCaseNormalization case_normalization => Some (dyn (ZapCaseNormalizationUnknown case_normalization))
  | MegaHeader.DUnicodeNormalization unicode_normalization => Some (dyn (ZapUnicodeNormalizationUnknown unicode_normalization))
  | MegaHeader.DZapMegaPointerTable err => Some (dyn err)
  | _ => None
  end.
#[global, refine] Instance ZapMegaHeaderDecodeError_error : StdError MegaHeader.DecodeError := {| display := ZapMegaHeaderDecodeError_display; source := ZapMegaHeaderDecodeError_source; reported := _ |}.
Proof. reports. Defined.

Definition ZapMegaHeaderEncodeError_display (e : MegaHeader.EncodeError) : string :=
  match e with
  | MegaHeader.EBinary err => "ZapMegaHeader encode error" +:+ " | " +:+ display err
  | MegaHeader.EZapMegaPointerTable err => "ZapMegaHeader encode error" +:+ " | " +:+ display err
  end.
Definition ZapMegaHeaderEncodeError_source (e : MegaHeader.EncodeError) : option DynError :=
  match e with
  | MegaHeader.EBinary err => Some (dyn err)
  | MegaHeader.EZapMegaPointerTable err => Some (dyn err)
  end.
#[global, refine] Instance ZapMegaHeaderEncodeError_error : StdError MegaHeader.EncodeError := {| display := ZapMegaHeaderEncodeError_display; source := ZapMegaHeaderEncodeError_source; reported := _ |}.
Proof. reports. Defined.

Definition ZapHeaderDecodeError_display (e : Header.DecodeError) : string :=
  match e with
  | Header.DBinary err => "ZapHeader decode error" +:+ " | " +:+ display err
  | Header.DBlockType block_type => "ZapHeader decode error, unknown block type " +:+ dec block_type
  | Header.DZapMicroHeader err => "ZapHeader decode error" +:+ " | " +:+ display err
  | Header.DZapMegaHeader err => "ZapHeader decode error" +:+ " | " +:+ display err
  end.
Definition ZapHeaderDecodeError_source (e : Header.DecodeError) : option DynError :=
  match e with
  | Header.DBinary err => Some (dyn err)
  | Header.DZapMicroHeader err => Some (dyn err)
  | Header.DZapMegaHeader err => Some (dyn err)
  | _ => None
  end.
#[global, refine] Instance ZapHeaderDecodeError_error : StdError Header.DecodeError := {| display := ZapHeaderDecodeError_display; source := ZapHeaderDecodeError_source; reported := _ |}.
Proof. reports. Defined.

Definition ZapHeaderEncodeError_display (e : Header.EncodeError) : string :=
  match e with
  | Header.EZapMicroHeader err => "ZapHeader encode error" +:+ " | " +:+ display err
  | Header.EZapMegaHeader err => "ZapHeader encode error" +:+ " | " +:+ display err
  end.
Definition ZapHeaderEncodeError_source (e : Header.EncodeError) : option DynError :=
  match e with
  | Header.EZapMicroHeader err => Some (dyn err)
  | Header.EZapMegaHeader err => Some (dyn err)
  end.
#[global, refine] Instance ZapHeaderEncodeError_error : StdError Header.EncodeError := {| display := ZapHeaderEncodeError_display; source := ZapHeaderEncodeError_source; reported := _ |}.
Proof. reports. Defined.

Definition ZapLeafHeaderDecodeError_display (e : LeafHeader.DecodeError) : string :=
  match e with
  | LeafHeader.DBlockSize block_size => "ZapLeafHeader decode error, invalid block size " +:+ dec block_size
  | LeafHeader.DBlockType block_type => "ZapLeafHeader decode error, invalid block type " +:+ dec block_type
  | LeafHeader.DBinary err => "ZapLeafHeader decode error" +:+ " | " +:+ display err
  | LeafHeader.DFlags flags => "ZapLeafHeader decode error, unknown flags " +:+ dec flags
  | LeafHeader.DMagic magic => "ZapLeafHeader decode error, invalid magic " +:+ dec magic
  end.
Definition ZapLeafHeaderDecodeError_source (e : LeafHeader.DecodeError) : option DynError :=
  match e with
  | LeafHeader.DBinary err => Some (dyn err)
  | _ => None
  end.
#[global, refine] Instance ZapLeafHeaderDecodeError_error : StdError LeafHeader.DecodeError := {| display := ZapLeafHeaderDecodeError_display; source := ZapLeafHeaderDecodeError_source; reported := _ |}.
Proof. reports. Defined.

Definition ZapLeafHeaderEncodeError_display (e : LeafHeader.EncodeError) : string :=
  match e with
  | LeafHeader.EBinary err => "ZapLeafHeader encode error" +:+ " | " +:+ display err
  end.
Definition ZapLeafHeaderEncodeError_source (e : LeafHeader.EncodeError) : option DynError :=
  match e with
  | LeafHeader.EBinary err => Some (dyn err)
  end.
#[global, refine] Instance ZapLeafHeaderEncodeError_error : StdError LeafHeader.EncodeError := {| display := ZapLeafHeaderEncodeError_display; source := ZapLeafHeaderEncodeError_source; reported := _ |}.
Proof. reports. Defined.

Definition ZapLeafChunkDecodeError_display (e : LeafChunk.DecodeError) : string :=
  match e with
  | LeafChunk.DBinary err => "ZapLeafChunk decode error" +:+ " | " +:+ display err
  | LeafChunk.DChunkType chunk_type => "ZapLeafChunk decode error, unknown chunk type " +:+ dec chunk_type
  end.
Definition ZapLeafChunkDecodeError_source (e : LeafChunk.DecodeError) : option DynError :=
  match e with
  | LeafChunk.DBinary err => Some (dyn err)
  | _ => None
  end.
#[global, refine] Instance ZapLeafChunkDecodeError_error : StdError LeafChunk.DecodeError := {| display := ZapLeafChunkDecodeError_display; source := ZapLeafChunkDecodeError_source; reported := _ |}.
Proof. reports. Defined.

Definition ZapLeafChunkEncodeError_display (e : LeafChunk.EncodeError) : string :=
  match e with
  | LeafChunk.EBinary err => "ZapLeafChunk encode error" +:+ " | " +:+ display err
  end.
Definition ZapLeafChunkEncodeError_source (e : LeafChunk.EncodeError) : option DynError :=
  match e with
  | LeafChunk.EBinary err => Some (dyn err)
  end.
#[global, refine] Instance ZapLeafChunkEncodeError_error : StdError LeafChunk.EncodeError := {| display := ZapLeafChunkEncodeError_display; source := ZapLeafChunkEncodeError_source; reported := _ |}.
Proof. reports. Defined.

Inductive SpaVersionError : Type := SpaVersionUnknown (version : Z).
Definition SpaVersionError_display (e : SpaVersionError) : string :=
  match e with
  | SpaVersionUnknown version => "Unknown SpaVersion " +:+ dec version
  end.
Definition SpaVersionError_source (e : SpaVersionError) : option DynError := None.
#[global, refine] Instance SpaVersionError_error : StdError SpaVersionError := {| display := SpaVersionError_display; source := SpaVersionError_source; reported := _ |}.
Proof. reports. Defined.

Definition UberBlockMmpDecodeError_display (e : Mmp.DecodeError) : string :=
  match e with
  | Mmp.DEndian err => "UberBlockMmp decode error" +:+ " | " +:+ display err
  | Mmp.DInvalidMagic magic => "UberBlockMmp decode error, invalid magic " +:+ hex 16 magic
  | Mmp.DNonZeroReservedConfigBits config => "UberBlockMmp decode error, non-zero reserved config bits config " +:+ hex 16 config
  | Mmp.DNonZeroValues magic delay config =>
      "UberBlockMmp decode error, non-zero values delay " +:+ hex 16 delay +:+ " config " +:+ hex 16 config +:+ " for magic "
        +:+ hex 16 magic
  end.
Definition UberBlockMmpDecodeError_source (e : Mmp.DecodeError) : option DynError :=
  match e with
  | Mmp.DEndian err => Some (dyn err)
  | _ => None
  end.
#[global, refine] Instance UberBlockMmpDecodeError_error : StdError Mmp.DecodeError := {| display := UberBlockMmpDecodeError_display; source := UberBlockMmpDecodeError_source; reported := _ |}.
Proof. reports. Defined.

Definition UberBlockMmpEncodeError_display (e : Mmp.EncodeError) : string :=
  match e with
  | Mmp.EBinary err => "UberBlockMmp encode error" +:+ " | " +:+ display err
  | Mmp.EWriteIntervalTooLarge write_interval =>
      "UberBlockMmp encode error, write interval is too large " +:+ dec write_interval +:+ " > "
        +:+ dec Mmp.CONFIG_WRITE_INTERVAL_MASK_DOWN_SHIFTED
  end.
Definition UberBlockMmpEncodeError_source (e : Mmp.EncodeError) : option DynError :=
  match e with
  | Mmp.EBinary err => Some (dyn err)
  | _ => None
  end.
#[global, refine] Instance UberBlockMmpEncodeError_error : StdError Mmp.EncodeError := {| display := UberBlockMmpEncodeError_display; source := UberBlockMmpEncodeError_source; reported := _ |}.
Proof. reports. Defined.

Definition UberBlockDecodeError_display (e : Ub.DecodeError) : string :=
  match e with
  | Ub.DBinary err => "UberBlock decode error" +:+ " | " +:+ display err
  | Ub.DBlockPointer err => "UberBlock decode error" +:+ " | " +:+ display err
  | Ub.DEmptyBlockPointer => "UberBlock decode error, empty block pointer"
  | Ub.DLabelVerify err => "UberBlock decode error" +:+ " | " +:+ display err
  | Ub.DSpaVersion version => "UberBlock decode error" +:+ " | " +:+ display (SpaVersionUnknown version)
  | Ub.DUberBlockMmp err => "UberBlock decode error" +:+ " | " +:+ display err
  end.
Definition UberBlockDecodeError_source (e : Ub.DecodeError) : option DynError :=
  match e with
  | Ub.DBinary err => Some (dyn err)
  | Ub.DBlockPointer err => Some (dyn err)
  | Ub.DLabelVerify err => Some (dyn err)
  | Ub.DSpaVersion version => Some (dyn (SpaVersionUnknown version))
  | Ub.DUberBlockMmp err => Some (dyn err)
  | _ => None
  end.
#[global, refine] Instance UberBlockDecodeError_error : StdError Ub.DecodeError := {| display := UberBlockDecodeError_display; source := UberBlockDecodeError_source; reported := _ |}.
Proof. reports. Defined.

Definition UberBlockEncodeError_display (e : Ub.EncodeError) : string :=
  match e with
  | Ub.EBinary err => "UberBlock encode error" +:+ " | " +:+ display err
  | Ub.EBlockPointer err => "UberBlock encode error" +:+ " | " +:+ display err
  | Ub.ELabelChecksum err => "UberBlock encode error" +:+ " | " +:+ display err
  | Ub.EUberBlockMmp err => "UberBlock encode error" +:+ " | " +:+ display err
  end.
Definition UberBlockEncodeError_source (e : Ub.EncodeError) : option DynError :=
  match e with
  | Ub.EBinary err => Some (dyn err)
  | Ub.EBlockPointer err => Some (dyn err)
  | Ub.ELabelChecksum err => Some (dyn err)
  | Ub.EUberBlockMmp err => Some (dyn err)
  end.
#[global, refine] Instance UberBlockEncodeError_error : StdError Ub.EncodeError := {| display := UberBlockEncodeError_display; source := UberBlockEncodeError_source; reported := _ |}.
Proof. reports. Defined.

Inductive BootBlockDecodeError : Type := BootBlockDecode (err : PlainDecodeError).
Definition BootBlockDecodeError_display (e : BootBlockDecodeError) : string :=
  match e with
  | BootBlockDecode (PdInvalidSize size) => "BootBlock decode error, invalid size " +:+ dec size
  end.
Definition BootBlockDecodeError_source (e : BootBlockDecodeError) : option DynError := None.
#[global, refine] Instance BootBlockDecodeError_error : StdError BootBlockDecodeError := {| display := BootBlockDecodeError_display; source := BootBlockDecodeError_source; reported := _ |}.
Proof. reports. Defined.

Inductive BootBlockEncodeError : Type := BootBlockEncode (err : PlainEncodeError).
Definition BootBlockEncodeError_display (e : BootBlockEncodeError) : string :=
  match e with
  | BootBlockEncode (PeInvalidPayloadSize size) => "BootBlock encode error, invalid payload size " +:+ dec size
  | BootBlockEncode (PeInvalidSize size) => "BootBlock encode error, invalid size " +:+ dec size
  end.
Definition BootBlockEncodeError_source (e : BootBlockEncodeError) : option DynError := None.
#[global, refine] Instance BootBlockEncodeError_error : StdError BootBlockEncodeError := {| display := BootBlockEncodeError_display; source := BootBlockEncodeError_source; reported := _ |}.
Proof. reports. Defined.

Inductive LabelBlankDecodeError : Type := LabelBlankDecode (err : PlainDecodeError).
Definition LabelBlankDecodeError_display (e : LabelBlankDecodeError) : string :=
  match e with
  | LabelBlankDecode (PdInvalidSize size) => "LabelBlank decode error, invalid size " +:+ dec size
  end.
Definition LabelBlankDecodeError_source (e : LabelBlankDecodeError) : option DynError := None.
#[global, refine] Instance LabelBlankDecodeError_error : StdError LabelBlankDecodeError := {| display := LabelBlankDecodeError_display; source := LabelBlankDecodeError_source; reported := _ |}.
Proof. reports. Defined.

Inductive LabelBlankEncodeError : Type := LabelBlankEncode (err : PlainEncodeError).
Definition LabelBlankEncodeError_display (e : LabelBlankEncodeError) : string :=
  match e with
  | LabelBlankEncode (PeInvalidPayloadSize size) => "LabelBlank encode error, invalid payload size " +:+ dec size
  | LabelBlankEncode (PeInvalidSize size) => "LabelBlank encode error, invalid size " +:+ dec size
  end.
Definition LabelBlankEncodeError_source (e : LabelBlankEncodeError) : option DynError := None.
#[global, refine] Instance LabelBlankEncodeError_error : StdError LabelBlankEncodeError := {| display := LabelBlankEncodeError_display; source := LabelBlankEncodeError_source; reported := _ |}.
Proof. reports. Defined.

Inductive LabelBootHeaderDecodeError : Type := LabelBootHeaderDecode (err : SignedDecodeError).
Definition LabelBootHeaderDecodeError_display (e : LabelBootHeaderDecodeError) : string :=
  match e with
  | LabelBootHeaderDecode (SdInvalidSize size) => "LabelBootHeader decode error, invalid size " +:+ dec size
  | LabelBootHeaderDecode (SdLabelVerify err) => "LabelBootHeader decode error" +:+ " | " +:+ display err
  end.
Definition LabelBootHeaderDecodeError_source (e : LabelBootHeaderDecodeError) : option DynError :=
  match e with
  | LabelBootHeaderDecode (SdLabelVerify err) => Some (dyn err)
  | _ => None
  end.
#[global, refine] Instance LabelBootHeaderDecodeError_error : StdError LabelBootHeaderDecodeError := {| display := LabelBootHeaderDecodeError_display; source := LabelBootHeaderDecodeError_source; reported := _ |}.
Proof. reports. Defined.

Inductive LabelBootHeaderEncodeError : Type := LabelBootHeaderEncode (err : SignedEncodeError).
Definition LabelBootHeaderEncodeError_display (e : LabelBootHeaderEncodeError) : string :=
  match e with
  | LabelBootHeaderEncode (SeInvalidPayloadSize size) => "LabelBootHeader encode error, invalid payload size " +:+ dec size
  | LabelBootHeaderEncode (SeInvalidSize size) => "LabelBootHeader encode error, invalid size " +:+ dec size
  | LabelBootHeaderEncode (SeLabelChecksum err) => "LabelBootHeader encode error" +:+ " | " +:+ display err
  end.
Definition LabelBootHeaderEncodeError_source (e : LabelBootHeaderEncodeError) : option DynError :=
  match e with
  | LabelBootHeaderEncode (SeLabelChecksum err) => Some (dyn err)
  | _ => None
  end.
#[global, refine] Instance LabelBootHeaderEncodeError_error : StdError LabelBootHeaderEncodeError := {| display := LabelBootHeaderEncodeError_display; source := LabelBootHeaderEncodeError_source; reported := _ |}.
Proof. reports. Defined.

Inductive LabelNvPairsDecodeError : Type := LabelNvPairsDecode (err : SignedDecodeError).
Definition LabelNvPairsDecodeError_display (e : LabelNvPairsDecodeError) : string :=
  match e with
  | LabelNvPairsDecode (SdInvalidSize size) => "LabelNvPairs decode error, invalid size " +:+ dec size
  | LabelNvPairsDecode (SdLabelVerify err) => "LabelNvPairs decode error" +:+ " | " +:+ display err
  end.
Definition LabelNvPairsDecodeError_source (e : LabelNvPairsDecodeError) : option DynError :=
  match e with
  | LabelNvPairsDecode (SdLabelVerify err) => Some (dyn err)
  | _ => None
  end.
#[global, refine] Instance LabelNvPairsDecodeError_error : StdError LabelNvPairsDecodeError := {| display := LabelNvPairsDecodeError_display; source := LabelNvPairsDecodeError_source; reported := _ |}.
Proof. reports. Defined.

Inductive LabelNvPairsEncodeError : Type := LabelNvPairsEncode (err : SignedEncodeError).
Definition LabelNvPairsEncodeError_display (e : LabelNvPairsEncodeError) : string :=
  match e with
  | LabelNvPairsEncode (SeInvalidPayloadSize size) => "LabelNvPairs encode error, invalid payload size " +:+ dec size
  | LabelNvPairsEncode (SeInvalidSize size) => "LabelNvPairs encode error, invalid size " +:+ dec size
  | LabelNvPairsEncode (SeLabelChecksum err) => "LabelNvPairs encode error" +:+ " | " +:+ display err
  end.
Definition LabelNvPairsEncodeError_source (e : LabelNvPairsEncodeError) : option DynError :=
  match e with
  | LabelNvPairsEncode (SeLabelChecksum err) => Some (dyn err)
  | _ => None
  end.
#[global, refine] Instance LabelNvPairsEncodeError_error : StdError LabelNvPairsEncodeError := {| display := LabelNvPairsEncodeError_display; source := LabelNvPairsEncodeError_source; reported := _ |}.
Proof. reports. Defined.

Definition LabelSectorsError_display (e : Label.SectorsError) : string :=
  match e with
  | Label.TooSmall sectors => "Not enough sectors for Label " +:+ dec sectors
  end.
Definition LabelSectorsError_source (e : Label.SectorsError) : option DynError := None.
#[global, refine] Instance LabelSectorsError_error : StdError Label.SectorsError := {| display := LabelSectorsError_display; source := LabelSectorsError_source; reported := _ |}.
Proof. reports. Defined.

