(* ===== verification/ErrorConfig.v ===== *)
(** * Error texts of lists and configurations

    The instances of [StdError] for access control lists, znodes, space maps,
    name-value lists, features and label configurations, with the [Display] of
    the enumerations that they name; and what holds of the texts of all errors
    of the crate. *)

From stdpp Require Import pretty.
From S2P Require Import Prelude Errors Decoder Encoder Endian Codec Types Dva BlockPointer Stream Fletcher Sha256 LabelChecksum Lzjb.
From S2P Require Import Dnode ObjectSet Zap Dsl Acl Zpl SpaceMap BpObject FixedStr Vocab Uberblock Label Nv Feature LabelConfig.
From S2P Require Import ErrorText ErrorRecords.

Open Scope string_scope.
Open Scope Z_scope.
Open Scope list_scope.

(** ** Names *)
Definition str_text (l : bytes) : string := String.string_of_list_ascii ((fun b => Ascii.ascii_of_N (Z.to_N b)) <$> l).
(** [{:?}] of bytes. *)
Definition debug_bytes (l : bytes) : string := "[" +:+ String.concat ", " (dec <$> l) +:+ "]".
(** A string of fixed capacity, whose size is within it, or its bytes where they are not UTF-8. *)
Definition Fstr_display (f : Fstr) : string :=
  match FixedStr.as_str (E := unit) f with
  | Ok (Some s) => str_text s
  | _ => debug_bytes (ztake (fs_size f) (fs_bytes f))
  end.
Definition EndianOrder_display (x : EndianOrder) : string := match x with Big => "Big" | Little => "Little" end.
Definition Sha256Implementation_display (x : Sha256Implementation) : string := sha_to_str x.
Definition SpaVersion_display (x : SpaVersion.t) : string := dec (SpaVersion.into_u64 x).
Definition ObjectSetType_display (x : ObjectSetType.t) : string :=
  match x with
  | ObjectSetType.None => "None" | ObjectSetType.Meta => "Meta" | ObjectSetType.ZFS => "ZFS" | ObjectSetType.ZVol => "ZVol"
  | ObjectSetType.Other => "Other" | ObjectSetType.Any => "Any"
  end.
Definition ZapCaseNormalization_display (x : ZapCaseNormalization.t) : string :=
  match x with ZapCaseNormalization.None => "None" | ZapCaseNormalization.Upper => "Upper" | ZapCaseNormalization.Lower => "Lower" end.
Definition ZapUnicodeNormalization_display (x : ZapUnicodeNormalization.t) : string :=
  match x with
  | ZapUnicodeNormalization.None => "None" | ZapUnicodeNormalization.NFD => "NFD" | ZapUnicodeNormalization.NFKD => "NFKD"
  | ZapUnicodeNormalization.NFC => "NFC" | ZapUnicodeNormalization.NFKC => "NFKC"
  end.
Definition NvEndianOrder_display (x : NvEndianOrder.t) : string := match x with NvEndianOrder.Big => "Big" | NvEndianOrder.Little => "Little" end.
Definition NvEncoding_display (x : NvEncoding.t) : string := match x with NvEncoding.Native => "Native" | NvEncoding.Xdr => "Xdr" end.
Definition NvUnique_display (x : NvUnique.t) : string :=
  match x with NvUnique.None => "None" | NvUnique.Name => "Name" | NvUnique.NameType => "NameType" end.
Definition NvDataType_display (x : NvDataType.t) : string :=
  match x with
  | NvDataType.Boolean => "Boolean" | NvDataType.Byte => "Byte" | NvDataType.Int16 => "Int16"
  | NvDataType.Uint16 => "Uint16" | NvDataType.Int32 => "Int32" | NvDataType.Uint32 => "Uint32"
  | NvDataType.Int64 => "Int64" | NvDataType.Uint64 => "Uint64" | NvDataType.String => "String"
  | NvDataType.ByteArray => "ByteArray" | NvDataType.Int16Array => "Int16Array" | NvDataType.Uint16Array => "Uint16Array"
  | NvDataType.Int32Array => "Int32Array" | NvDataType.Uint32Array => "Uint32Array" | NvDataType.Int64Array => "Int64Array"
  | NvDataType.Uint64Array => "Uint64Array" | NvDataType.StringArray => "StringArray" | NvDataType.HrTime => "HrTime"
  | NvDataType.NvList => "NvList" | NvDataType.NvListArray => "NvListArray" | NvDataType.BooleanValue => "BooleanValue"
  | NvDataType.Int8 => "Int8" | NvDataType.Uint8 => "Uint8" | NvDataType.BooleanArray => "BooleanArray"
  | NvDataType.Int8Array => "Int8Array" | NvDataType.Uint8Array => "Uint8Array" | NvDataType.Double => "Double"
  end.
Definition Compatibility_display (x : Compatibility) : string := str_text (Compat.into_str x).
Definition Feature_display (x : Feature.t) : string := Feature.name x.
Definition PoolConfigKey_display (x : PoolConfigKey.t) : string := PoolConfigKey.name x.
Definition VdevType_display (x : VdevType.t) : string := VdevType.name x.
Definition VdevTreeKey_display (x : VdevTreeKey.t) : string := VdevTreeKey.name x.

(** ** Instances *)

Inductive AceTypeError : Type := AceTypeUnknown (ace_type : Z).
Definition AceTypeError_display (e : AceTypeError) : string :=
  match e with
  | AceTypeUnknown ace_type => "Unknown AceType " +:+ dec ace_type
  end.
Definition AceTypeError_source (e : AceTypeError) : option DynError := None.
#[global, refine] Instance AceTypeError_error : StdError AceTypeError := {| display := AceTypeError_display; source := AceTypeError_source; reported := _ |}.
Proof. reports. Defined.

Definition AceDecodeError_display (e : AceDecodeError) : string :=
  match e with
  | AceDBinary err => "Ace decode error" +:+ " | " +:+ display err
  | AceDFlags flags => "Ace decode error, unknown flags " +:+ dec flags
  | AceDPermissions permissions => "Ace decode error, unknown permissions " +:+ dec permissions
  | AceDType ace_type => "Ace decode error" +:+ " | " +:+ display (AceTypeUnknown ace_type)
  | AceDUnexpectedType ace_type => "Ace decode error, unexpected AceType " +:+ AceType.display ace_type
  end.
Definition AceDecodeError_source (e : AceDecodeError) : option DynError :=
  match e with
  | AceDBinary err => Some (dyn err)
  | AceDType ace_type => Some (dyn (AceTypeUnknown ace_type))
  | _ => None
  end.
#[global, refine] Instance AceDecodeError_error : StdError AceDecodeError := {| display := AceDecodeError_display; source := AceDecodeError_source; reported := _ |}.
Proof. reports. Defined.

Definition AceEncodeError_display (e : AceEncodeError) : string :=
  match e with
  | AceEBinary err => "Ace encode error" +:+ " | " +:+ display err
  | AceEFlags flags => "Ace encode error, unknown flags " +:+ dec flags
  | AceEPermissions permissions => "Ace encode error, unknown permissions " +:+ dec permissions
  | AceEUnexpectedType ace_type => "Ace encode error, unexpected AceType " +:+ AceType.display ace_type
  end.
Definition AceEncodeError_source (e : AceEncodeError) : option DynError :=
  match e with
  | AceEBinary err => Some (dyn err)
  | _ => None
  end.
#[global, refine] Instance AceEncodeError_error : StdError AceEncodeError := {| display := AceEncodeError_display; source := AceEncodeError_source; reported := _ |}.
Proof. reports. Defined.

Definition AclDecodeError_display (e : AclDecodeError) : string :=
  match e with
  | AclDAce err => "Acl decode error" +:+ " | " +:+ display err
  | AclDBinary err => "Acl decode error" +:+ " | " +:+ display err
  | AclDVersion version => "Acl decode error,  unknown version " +:+ dec version
  end.
Definition AclDecodeError_source (e : AclDecodeError) : option DynError :=
  match e with
  | AclDAce err => Some (dyn err)
  | AclDBinary err => Some (dyn err)
  | _ => None
  end.
#[global, refine] Instance AclDecodeError_error : StdError AclDecodeError := {| display := AclDecodeError_display; source := AclDecodeError_source; reported := _ |}.
Proof. reports. Defined.

Definition AclEncodeError_display (e : AclEncodeError) : string :=
  match e with
  | AclEAce err => "Acl encode error" +:+ " | " +:+ display err
  | AclEBinary err => "Acl encode error" +:+ " | " +:+ display err
  end.
Definition AclEncodeError_source (e : AclEncodeError) : option DynError :=
  match e with
  | AclEAce err => Some (dyn err)
  | AclEBinary err => Some (dyn err)
  end.
#[global, refine] Instance AclEncodeError_error : StdError AclEncodeError := {| display := AclEncodeError_display; source := AclEncodeError_source; reported := _ |}.
Proof. reports. Defined.

Inductive ZplVersionError : Type := ZplVersionUnknown (version : Z).
Definition ZplVersionError_display (e : ZplVersionError) : string :=
  match e with
  | ZplVersionUnknown version => "Unknown ZplVersion " +:+ dec version
  end.
Definition ZplVersionError_source (e : ZplVersionError) : option DynError := None.
#[global, refine] Instance ZplVersionError_error : StdError ZplVersionError := {| display := ZplVersionError_display; source := ZplVersionError_source; reported := _ |}.
Proof. reports. Defined.

Inductive ZnodeFileTypeError : Type := ZnodeFileTypeUnknown (file_type : Z).
Definition ZnodeFileTypeError_display (e : ZnodeFileTypeError) : string :=
  match e with
  | ZnodeFileTypeUnknown file_type => "Unknown ZnodeFileType " +:+ dec file_type
  end.
Definition ZnodeFileTypeError_source (e : ZnodeFileTypeError) : option DynError := None.
#[global, refine] Instance ZnodeFileTypeError_error : StdError ZnodeFileTypeError := {| display := ZnodeFileTypeError_display; source := ZnodeFileTypeError_source; reported := _ |}.
Proof. reports. Defined.

Definition ZnodeDecodeError_display (e : ZnodeDecodeError) : string :=
  match e with
  | ZnDAcl err => "Znode decode error" +:+ " | " +:+ display err
  | ZnDBinary err => "Znode decode error" +:+ " | " +:+ display err
  | ZnDFileType file_type => "Znode decode error" +:+ " | " +:+ display (ZnodeFileTypeUnknown file_type)
  | ZnDMissingParentObjectId => "Znode decode error, missing parent object id"
  | ZnDMode mode => "Znode decode error, unknown mode " +:+ dec mode
  end.
Definition ZnodeDecodeError_source (e : ZnodeDecodeError) : option DynError :=
  match e with
  | ZnDAcl err => Some (dyn err)
  | ZnDBinary err => Some (dyn err)
  | ZnDFileType file_type => Some (dyn (ZnodeFileTypeUnknown file_type))
  | _ => None
  end.
#[global, refine] Instance ZnodeDecodeError_error : StdError ZnodeDecodeError := {| display := ZnodeDecodeError_display; source := ZnodeDecodeError_source; reported := _ |}.
Proof. reports. Defined.

Definition ZnodeEncodeError_display (e : ZnodeEncodeError) : string :=
  match e with
  | ZnEAcl err => "Znode encode error" +:+ " | " +:+ display err
  | ZnEBinary err => "Znode encode error" +:+ " | " +:+ display err
  | ZnEMissingParentObjectId => "Znode encode error, missing parent object id"
  | ZnEPermissions permissions => "Znode encode error, unknown permission " +:+ dec permissions
  end.
Definition ZnodeEncodeError_source (e : ZnodeEncodeError) : option DynError :=
  match e with
  | ZnEAcl err => Some (dyn err)
  | ZnEBinary err => Some (dyn err)
  | _ => None
  end.
#[global, refine] Instance ZnodeEncodeError_error : StdError ZnodeEncodeError := {| display := ZnodeEncodeError_display; source := ZnodeEncodeError_source; reported := _ |}.
Proof. reports. Defined.

Inductive SpaceMapActionError : Type := SpaceMapActionUnknown (action : Z).
Definition SpaceMapActionError_display (e : SpaceMapActionError) : string :=
  match e with
  | SpaceMapActionUnknown action => "Unknown SpaceMapAction " +:+ dec action
  end.
Definition SpaceMapActionError_source (e : SpaceMapActionError) : option DynError := None.
#[global, refine] Instance SpaceMapActionError_error : StdError SpaceMapActionError := {| display := SpaceMapActionError_display; source := SpaceMapActionError_source; reported := _ |}.
Proof. reports. Defined.

Definition SpaceMapHeaderDecodeError_display (e : SpaceMapHeaderDecodeError) : string :=
  match e with
  | SmhDBinary err => "SpaceMapHeader decode error" +:+ " | " +:+ display err
  | SmhDMissingObject => "SpaceMapHeader decode error, missing object number"
  | SmhDNonZeroPadding => "SpaceMapHeader decode error, non-zero padding"
  end.
Definition SpaceMapHeaderDecodeError_source (e : SpaceMapHeaderDecodeError) : option DynError :=
  match e with
  | SmhDBinary err => Some (dyn err)
  | _ => None
  end.
#[global, refine] Instance SpaceMapHeaderDecodeError_error : StdError SpaceMapHeaderDecodeError := {| display := SpaceMapHeaderDecodeError_display; source := SpaceMapHeaderDecodeError_source; reported := _ |}.
Proof. reports. Defined.

Definition SpaceMapHeaderEncodeError_display (e : SpaceMapHeaderEncodeError) : string :=
  match e with
  | SmhEBinary err => "SpaceMapHeader encode error" +:+ " | " +:+ display err
  | SmhEMissingObject => "SpaceMapHeader encode error, missing object number"
  end.
Definition SpaceMapHeaderEncodeError_source (e : SpaceMapHeaderEncodeError) : option DynError :=
  match e with
  | SmhEBinary err => Some (dyn err)
  | _ => None
  end.
#[global, refine] Instance SpaceMapHeaderEncodeError_error : StdError SpaceMapHeaderEncodeError := {| display := SpaceMapHeaderEncodeError_display; source := SpaceMapHeaderEncodeError_source; reported := _ |}.
Proof. reports. Defined.

Definition SpaceMapEntryDecodeError_display (e : SpaceMapEntryDecodeError) : string :=
  match e with
  | SmeDAction action => "SpaceMapEntry decode error" +:+ " | " +:+ display (SpaceMapActionUnknown action)
  | SmeDBinary err => "SpaceMapEntry decode error" +:+ " | " +:+ display err
  | SmeDPadding padding => "SpaceMapEntry decode error, non-zero padding " +:+ dec padding
  end.
Definition SpaceMapEntryDecodeError_source (e : SpaceMapEntryDecodeError) : option DynError :=
  match e with
  | SmeDAction action => Some (dyn (SpaceMapActionUnknown action))
  | SmeDBinary err => Some (dyn err)
  | _ => None
  end.
#[global, refine] Instance SpaceMapEntryDecodeError_error : StdError SpaceMapEntryDecodeError := {| display := SpaceMapEntryDecodeError_display; source := SpaceMapEntryDecodeError_source; reported := _ |}.
Proof. reports. Defined.

Inductive SpaceMapEntryEncodeError : Type := SmeEBinary (err : BinaryEncodeError).
Definition SpaceMapEntryEncodeError_display (e : SpaceMapEntryEncodeError) : string :=
  match e with
  | SmeEBinary err => "SpaceMapEntry encode error" +:+ " | " +:+ display err
  end.
Definition SpaceMapEntryEncodeError_source (e : SpaceMapEntryEncodeError) : option DynError :=
  match e with
  | SmeEBinary err => Some (dyn err)
  end.
#[global, refine] Instance SpaceMapEntryEncodeError_error : StdError SpaceMapEntryEncodeError := {| display := SpaceMapEntryEncodeError_display; source := SpaceMapEntryEncodeError_source; reported := _ |}.
Proof. reports. Defined.

Definition NvDecodeError_display (e : NvDecodeError) : string :=
  match e with
  | NvBinaryDecoder err => "NV decode error" +:+ " | " +:+ display err
  | DataMismatch => "NV decode error, provided data slice does not match decoder data slice"
  | DataTypeMismatch expected actual =>
      "NV decode error, data type mismatch, expected " +:+ NvDataType_display expected +:+ " actual "
        +:+ NvDataType_display actual
  | EndOfArray => "NV decode error, end of array"
  | NvEndOfInput offset capacity count detail =>
      "NV decode error, end of input at offset " +:+ dec offset +:+ " capacity " +:+ dec capacity +:+ " count " +:+ dec count
        +:+ " detail " +:+ detail
  | InvalidCount data_type count =>
      "NV decode error, invalid count " +:+ dec count +:+ " for data type " +:+ NvDataType_display data_type
  | InvalidEncodedSize encoded_size used =>
      "NV decode error, invalid encoded size " +:+ dec encoded_size +:+ " used " +:+ dec used
  | InvalidNestedSize => "NV decode error, invalid nested size"
  | InvalidReservedBytes reserved0 reserved1 =>
      "NV decode error, invalid reserved bytes " +:+ debug_list (hex 2 <$> [reserved0; reserved1])
  | NestedDecoderMismatch => "NV decode error, nested decoder mismatch"
  | UnknownDataType data_type => "NV decode error, unknown data type " +:+ dec data_type
  | UnknownEncoding encoding => "NV decode error, unknown encoding " +:+ dec encoding
  | UnknownEndian order => "NV decode error, unknown endian " +:+ dec order
  | UnknownFlags flags => "NV decode error, unknown flags " +:+ hex 8 flags
  | UnknownUnique unique => "NV decode error, unknown unique " +:+ dec unique
  | UnknownVersion version => "NV decode error, unknown version " +:+ dec version
  end.
Definition NvDecodeError_source (e : NvDecodeError) : option DynError :=
  match e with
  | NvBinaryDecoder err => Some (dyn err)
  | _ => None
  end.
#[global, refine] Instance NvDecodeError_error : StdError NvDecodeError := {| display := NvDecodeError_display; source := NvDecodeError_source; reported := _ |}.
Proof. reports. Defined.

Inductive FeatureDecodeError : Type := FeatureUnknown.
Definition FeatureDecodeError_display (e : FeatureDecodeError) : string :=
  match e with
  | FeatureUnknown => "Feature decode error, unknown feature"
  end.
Definition FeatureDecodeError_source (e : FeatureDecodeError) : option DynError := None.
#[global, refine] Instance FeatureDecodeError_error : StdError FeatureDecodeError := {| display := FeatureDecodeError_display; source := FeatureDecodeError_source; reported := _ |}.
Proof. reports. Defined.

Definition FeatureSetDecodeError_display (e : FeatureSetDecodeError) : string :=
  match e with
  | FsFeature _ => "FeatureSet decode error" +:+ " | " +:+ display FeatureUnknown
  | FsNv err => "FeatureSet decode error" +:+ " | " +:+ display err
  | FsUnknown feature => "FeatureSet decode error, unknown feature '" +:+ Fstr_display feature +:+ "'"
  end.
Definition FeatureSetDecodeError_source (e : FeatureSetDecodeError) : option DynError :=
  match e with
  | FsFeature _ => Some (dyn FeatureUnknown)
  | FsNv err => Some (dyn err)
  | _ => None
  end.
#[global, refine] Instance FeatureSetDecodeError_error : StdError FeatureSetDecodeError := {| display := FeatureSetDecodeError_display; source := FeatureSetDecodeError_source; reported := _ |}.
Proof. reports. Defined.

Inductive PoolStateDecodeError : Type := PoolStateUnknown (pool_state : Z).
Definition PoolStateDecodeError_display (e : PoolStateDecodeError) : string :=
  match e with
  | PoolStateUnknown pool_state => "PoolState decode error, unknown state " +:+ dec pool_state
  end.
Definition PoolStateDecodeError_source (e : PoolStateDecodeError) : option DynError := None.
#[global, refine] Instance PoolStateDecodeError_error : StdError PoolStateDecodeError := {| display := PoolStateDecodeError_display; source := PoolStateDecodeError_source; reported := _ |}.
Proof. reports. Defined.

Inductive PoolErrataDecodeError : Type := PoolErrataUnknown (pool_errata : Z).
Definition PoolErrataDecodeError_display (e : PoolErrataDecodeError) : string :=
  match e with
  | PoolErrataUnknown pool_errata => "PoolErrata decode error, unknown errata " +:+ dec pool_errata
  end.
Definition PoolErrataDecodeError_source (e : PoolErrataDecodeError) : option DynError := None.
#[global, refine] Instance PoolErrataDecodeError_error : StdError PoolErrataDecodeError := {| display := PoolErrataDecodeError_display; source := PoolErrataDecodeError_source; reported := _ |}.
Proof. reports. Defined.

Inductive PoolConfigKeyDecodeError : Type := PoolConfigKeyUnknown.
Definition PoolConfigKeyDecodeError_display (e : PoolConfigKeyDecodeError) : string :=
  match e with
  | PoolConfigKeyUnknown => "PoolConfigKey decode error, unknown key"
  end.
Definition PoolConfigKeyDecodeError_source (e : PoolConfigKeyDecodeError) : option DynError := None.
#[global, refine] Instance PoolConfigKeyDecodeError_error : StdError PoolConfigKeyDecodeError := {| display := PoolConfigKeyDecodeError_display; source := PoolConfigKeyDecodeError_source; reported := _ |}.
Proof. reports. Defined.

Inductive VdevTypeDecodeError : Type := VdevTypeUnknown.
Definition VdevTypeDecodeError_display (e : VdevTypeDecodeError) : string :=
  match e with
  | VdevTypeUnknown => "VdevType decode error, unknown type"
  end.
Definition VdevTypeDecodeError_source (e : VdevTypeDecodeError) : option DynError := None.
#[global, refine] Instance VdevTypeDecodeError_error : StdError VdevTypeDecodeError := {| display := VdevTypeDecodeError_display; source := VdevTypeDecodeError_source; reported := _ |}.
Proof. reports. Defined.

Inductive VdevTreeKeyDecodeError : Type := VdevTreeKeyUnknown.
Definition VdevTreeKeyDecodeError_display (e : VdevTreeKeyDecodeError) : string :=
  match e with
  | VdevTreeKeyUnknown => "VdevTreeKey decode error, unknown key"
  end.
Definition VdevTreeKeyDecodeError_source (e : VdevTreeKeyDecodeError) : option DynError := None.
#[global, refine] Instance VdevTreeKeyDecodeError_error : StdError VdevTreeKeyDecodeError := {| display := VdevTreeKeyDecodeError_display; source := VdevTreeKeyDecodeError_source; reported := _ |}.
Proof. reports. Defined.

Definition LabelVdevTreeDecodeError_display (e : LabelVdevTreeDecodeError) : string :=
  match e with
  | TMissing name => "LabelVdevTree decode error, missing field '" +:+ str_text name +:+ "'"
  | TNv err => "LabelVdevTree decode error" +:+ " | " +:+ display err
  | TUnexpected name => "LabelVdevTree decode error, unexpected field '" +:+ VdevTreeKey_display name +:+ "'"
  | TUnknown name => "LabelVdevTree decode error, unknown field '" +:+ Fstr_display name +:+ "'"
  | TUnknownVdevType vdev_type => "LabelVdevTree decode error, unknown vdev type '" +:+ Fstr_display vdev_type +:+ "'"
  | TUnsupportedVdevType vdev_type => "LabelVdevTree decode error, unsupported vdev type '" +:+ VdevType_display vdev_type +:+ "'"
  end.
Definition LabelVdevTreeDecodeError_source (e : LabelVdevTreeDecodeError) : option DynError :=
  match e with
  | TNv err => Some (dyn err)
  | _ => None
  end.
#[global, refine] Instance LabelVdevTreeDecodeError_error : StdError LabelVdevTreeDecodeError := {| display := LabelVdevTreeDecodeError_display; source := LabelVdevTreeDecodeError_source; reported := _ |}.
Proof. reports. Defined.

Definition LabelConfigDecodeError_display (e : LabelConfigDecodeError) : string :=
  match e with
  | CFeatureSet err => "LabelConfig decode error" +:+ " | " +:+ display err
  | CMissing name => "LabelConfig decode error, missing field '" +:+ str_text name +:+ "'"
  | CNv err => "LabelConfig decode error" +:+ " | " +:+ display err
  | CPoolErrata pool_errata => "LabelConfig decode error" +:+ " | " +:+ display (PoolErrataUnknown pool_errata)
  | CPoolState pool_state => "LabelConfig decode error" +:+ " | " +:+ display (PoolStateUnknown pool_state)
  | CUnexpectedField name => "LabelConfig decode error, unexpected field '" +:+ PoolConfigKey_display name +:+ "'"
  | CUnexpectedState state => "LabelConfig decode error, unexpected state '" +:+ PoolState.display state +:+ "'"
  | CUnknownField name => "LabelConfig decode error, unknown field '" +:+ Fstr_display name +:+ "'"
  | CVdevTree err => "LabelConfig decode error" +:+ " | " +:+ display err
  | CVersion version => "LabelConfig decode error" +:+ " | " +:+ display (SpaVersionUnknown version)
  end.
Definition LabelConfigDecodeError_source (e : LabelConfigDecodeError) : option DynError :=
  match e with
  | CFeatureSet err => Some (dyn err)
  | CNv err => Some (dyn err)
  | CPoolErrata pool_errata => Some (dyn (PoolErrataUnknown pool_errata))
  | CPoolState pool_state => Some (dyn (PoolStateUnknown pool_state))
  | CVdevTree err => Some (dyn err)
  | CVersion version => Some (dyn (SpaVersionUnknown version))
  | _ => None
  end.
#[global, refine] Instance LabelConfigDecodeError_error : StdError LabelConfigDecodeError := {| display := LabelConfigDecodeError_display; source := LabelConfigDecodeError_source; reported := _ |}.
Proof. reports. Defined.

(** ** Every error of the crate *)
Inductive AnyError : Type :=
| AReaderError (e : Error)
| ABinaryDecodeError (e : BinaryDecodeError)
| ABinaryEncodeError (e : BinaryEncodeError)
| AEndianEncodeError (e : EndianEncodeError)
| AChecksumTypeError (e : ChecksumTypeError)
| ACompressionTypeError (e : CompressionTypeError)
| ADmuTypeError (e : DmuTypeError)
| AChecksumValueDecodeError (e : ChecksumValueDecodeError)
| AChecksumValueEncodeError (e : ChecksumValueEncodeError)
| AChecksumTailDecodeError (e : ChecksumTail_.DecodeError)
| AChecksumTailEncodeError (e : ChecksumTail_.EncodeError)
| AChecksumError (e : ChecksumError)
| ALabelChecksumError (e : LabelChecksumError)
| ALabelVerifyError (e : LabelVerifyError)
| ACompressionError (e : CompressionError)
| ADecompressionError (e : DecompressionError)
| ADvaDecodeError (e : Dva.DecodeError)
| ADvaEncodeError (e : Dva.EncodeError)
| ABlockPointerEmbeddedTypeError (e : BlockPointerEmbeddedTypeError)
| ABlockPointerDecodeError (e : Bp.DecodeError)
| ABlockPointerEncodeError (e : Bp.EncodeError)
| ABpObjectHeaderDecodeError (e : BpObjectHeaderDecodeError)
| ABpObjectHeaderEncodeError (e : BpObjectHeaderEncodeError)
| ADnodeDecodeError (e : Dn.DecodeError)
| ADnodeEncodeError (e : Dn.EncodeError)
| AZilHeaderDecodeError (e : Zil.DecodeError)
| AZilHeaderEncodeError (e : Zil.EncodeError)
| AObjectSetTypeError (e : ObjectSetTypeError)
| AObjectSetDecodeError (e : Os.DecodeError)
| AObjectSetEncodeError (e : Os.EncodeError)
| ADslDirectoryDecodeError (e : DslDir.DecodeError)
| ADslDirectoryEncodeError (e : DslDir.EncodeError)
| ADslDataSetDecodeError (e : DslDs.DecodeError)
| ADslDataSetEncodeError (e : DslDs.EncodeError)
| AZapCaseNormalizationError (e : ZapCaseNormalizationError)
| AZapUnicodeNormalizationError (e : ZapUnicodeNormalizationError)
| AZapMicroHeaderDecodeError (e : MicroHeader.DecodeError)
| AZapMicroHeaderEncodeError (e : MicroHeader.EncodeError)
| AZapMicroEntryDecodeError (e : MicroEntry.DecodeError)
| AZapMicroEntryEncodeError (e : MicroEntry.EncodeError)
| AZapMicroIteratorError (e : MicroIterator.IteratorError)
| AZapMegaPointerTableDecodeError (e : MegaPointerTable.DecodeError)
| AZapMegaPointerTableEncodeError (e : MegaPointerTable.EncodeError)
| AZapMegaHeaderDecodeError (e : MegaHeader.DecodeError)
| AZapMegaHeaderEncodeError (e : MegaHeader.EncodeError)
| AZapHeaderDecodeError (e : Header.DecodeError)
| AZapHeaderEncodeError (e : Header.EncodeError)
| AZapLeafHeaderDecodeError (e : LeafHeader.DecodeError)
| AZapLeafHeaderEncodeError (e : LeafHeader.EncodeError)
| AZapLeafChunkDecodeError (e : LeafChunk.DecodeError)
| AZapLeafChunkEncodeError (e : LeafChunk.EncodeError)
| ASpaVersionError (e : SpaVersionError)
| AUberBlockMmpDecodeError (e : Mmp.DecodeError)
| AUberBlockMmpEncodeError (e : Mmp.EncodeError)
| AUberBlockDecodeError (e : Ub.DecodeError)
| AUberBlockEncodeError (e : Ub.EncodeError)
| ABootBlockDecodeError (e : BootBlockDecodeError)
| ABootBlockEncodeError (e : BootBlockEncodeError)
| ALabelBlankDecodeError (e : LabelBlankDecodeError)
| ALabelBlankEncodeError (e : LabelBlankEncodeError)
| ALabelBootHeaderDecodeError (e : LabelBootHeaderDecodeError)
| ALabelBootHeaderEncodeError (e : LabelBootHeaderEncodeError)
| ALabelNvPairsDecodeError (e : LabelNvPairsDecodeError)
| ALabelNvPairsEncodeError (e : LabelNvPairsEncodeError)
| ALabelSectorsError (e : Label.SectorsError)
| AAceTypeError (e : AceTypeError)
| AAceDecodeError (e : AceDecodeError)
| AAceEncodeError (e : AceEncodeError)
| AAclDecodeError (e : AclDecodeError)
| AAclEncodeError (e : AclEncodeError)
| AZplVersionError (e : ZplVersionError)
| AZnodeFileTypeError (e : ZnodeFileTypeError)
| AZnodeDecodeError (e : ZnodeDecodeError)
| AZnodeEncodeError (e : ZnodeEncodeError)
| ASpaceMapActionError (e : SpaceMapActionError)
| ASpaceMapHeaderDecodeError (e : SpaceMapHeaderDecodeError)
| ASpaceMapHeaderEncodeError (e : SpaceMapHeaderEncodeError)
| ASpaceMapEntryDecodeError (e : SpaceMapEntryDecodeError)
| ASpaceMapEntryEncodeError (e : SpaceMapEntryEncodeError)
| ANvDecodeError (e : NvDecodeError)
| AFeatureDecodeError (e : FeatureDecodeError)
| AFeatureSetDecodeError (e : FeatureSetDecodeError)
| APoolStateDecodeError (e : PoolStateDecodeError)
| APoolErrataDecodeError (e : PoolErrataDecodeError)
| APoolConfigKeyDecodeError (e : PoolConfigKeyDecodeError)
| AVdevTypeDecodeError (e : VdevTypeDecodeError)
| AVdevTreeKeyDecodeError (e : VdevTreeKeyDecodeError)
| ALabelVdevTreeDecodeError (e : LabelVdevTreeDecodeError)
| ALabelConfigDecodeError (e : LabelConfigDecodeError).
Definition any_dyn (e : AnyError) : DynError :=
  match e with
  | AReaderError e => dyn e | ABinaryDecodeError e => dyn e | ABinaryEncodeError e => dyn e | AEndianEncodeError e => dyn e
  | AChecksumTypeError e => dyn e | ACompressionTypeError e => dyn e | ADmuTypeError e => dyn e
  | AChecksumValueDecodeError e => dyn e | AChecksumValueEncodeError e => dyn e | AChecksumTailDecodeError e => dyn e
  | AChecksumTailEncodeError e => dyn e | AChecksumError e => dyn e | ALabelChecksumError e => dyn e
  | ALabelVerifyError e => dyn e | ACompressionError e => dyn e | ADecompressionError e => dyn e
  | ADvaDecodeError e => dyn e | ADvaEncodeError e => dyn e | ABlockPointerEmbeddedTypeError e => dyn e
  | ABlockPointerDecodeError e => dyn e | ABlockPointerEncodeError e => dyn e | ABpObjectHeaderDecodeError e => dyn e
  | ABpObjectHeaderEncodeError e => dyn e | ADnodeDecodeError e => dyn e | ADnodeEncodeError e => dyn e
  | AZilHeaderDecodeError e => dyn e | AZilHeaderEncodeError e => dyn e | AObjectSetTypeError e => dyn e
  | AObjectSetDecodeError e => dyn e | AObjectSetEncodeError e => dyn e | ADslDirectoryDecodeError e => dyn e
  | ADslDirectoryEncodeError e => dyn e | ADslDataSetDecodeError e => dyn e | ADslDataSetEncodeError e => dyn e
  | AZapCaseNormalizationError e => dyn e | AZapUnicodeNormalizationError e => dyn e | AZapMicroHeaderDecodeError e => dyn e
  | AZapMicroHeaderEncodeError e => dyn e | AZapMicroEntryDecodeError e => dyn e | AZapMicroEntryEncodeError e => dyn e
  | AZapMicroIteratorError e => dyn e | AZapMegaPointerTableDecodeError e => dyn e
  | AZapMegaPointerTableEncodeError e => dyn e | AZapMegaHeaderDecodeError e => dyn e | AZapMegaHeaderEncodeError e => dyn e
  | AZapHeaderDecodeError e => dyn e | AZapHeaderEncodeError e => dyn e | AZapLeafHeaderDecodeError e => dyn e
  | AZapLeafHeaderEncodeError e => dyn e | AZapLeafChunkDecodeError e => dyn e | AZapLeafChunkEncodeError e => dyn e
  | ASpaVersionError e => dyn e | AUberBlockMmpDecodeError e => dyn e | AUberBlockMmpEncodeError e => dyn e
  | AUberBlockDecodeError e => dyn e | AUberBlockEncodeError e => dyn e | ABootBlockDecodeError e => dyn e
  | ABootBlockEncodeError e => dyn e | ALabelBlankDecodeError e => dyn e | ALabelBlankEncodeError e => dyn e
  | ALabelBootHeaderDecodeError e => dyn e | ALabelBootHeaderEncodeError e => dyn e | ALabelNvPairsDecodeError e => dyn e
  | ALabelNvPairsEncodeError e => dyn e | ALabelSectorsError e => dyn e | AAceTypeError e => dyn e
  | AAceDecodeError e => dyn e | AAceEncodeError e => dyn e | AAclDecodeError e => dyn e | AAclEncodeError e => dyn e
  | AZplVersionError e => dyn e | AZnodeFileTypeError e => dyn e | AZnodeDecodeError e => dyn e
  | AZnodeEncodeError e => dyn e | ASpaceMapActionError e => dyn e | ASpaceMapHeaderDecodeError e => dyn e
  | ASpaceMapHeaderEncodeError e => dyn e | ASpaceMapEntryDecodeError e => dyn e | ASpaceMapEntryEncodeError e => dyn e
  | ANvDecodeError e => dyn e | AFeatureDecodeError e => dyn e | AFeatureSetDecodeError e => dyn e
  | APoolStateDecodeError e => dyn e | APoolErrataDecodeError e => dyn e | APoolConfigKeyDecodeError e => dyn e
  | AVdevTypeDecodeError e => dyn e | AVdevTreeKeyDecodeError e => dyn e | ALabelVdevTreeDecodeError e => dyn e
  | ALabelConfigDecodeError e => dyn e
  end.
Definition any_text (e : AnyError) : string := dyn_text (any_dyn e).
(** What the texts of a type start with. *)
Definition title (e : AnyError) : string :=
  match e with
  | AReaderError _ => "lamzfs:"
  | ABinaryDecodeError _ => "BinaryDecoder error"
  | ABinaryEncodeError _ => "BinaryEncoder error"
  | AEndianEncodeError _ => "Endian end of output"
  | AChecksumTypeError _ => "Unknown ChecksumType"
  | ACompressionTypeError _ => "Unknown CompressionType"
  | ADmuTypeError _ => "Unknown DmuType"
  | AChecksumValueDecodeError _ => "ChecksumValue decode error"
  | AChecksumValueEncodeError _ => "ChecksumValue encode error"
  | AChecksumTailDecodeError _ => "ChecksumTail decode error"
  | AChecksumTailEncodeError _ => "ChecksumTail encode error"
  | AChecksumError _ => "Unsupported Checksum"
  | ALabelChecksumError _ => "Label checksum error"
  | ALabelVerifyError _ => "Label verify error"
  | ACompressionError _ => "Compression error"
  | ADecompressionError _ => "Decompression error"
  | ADvaDecodeError _ => "DVA decode error"
  | ADvaEncodeError _ => "DVA encode error"
  | ABlockPointerEmbeddedTypeError _ => "Unknown BlockPointerEmbeddedType"
  | ABlockPointerDecodeError _ => "BlockPointer decode error"
  | ABlockPointerEncodeError _ => "BlockPointer encode error"
  | ABpObjectHeaderDecodeError _ => "BpObjectHeader decode error"
  | ABpObjectHeaderEncodeError _ => "BpObjectHeader encode error"
  | ADnodeDecodeError _ => "Dnode decode error"
  | ADnodeEncodeError _ => "Dnode encode error"
  | AZilHeaderDecodeError _ => "ZilHeader decode error"
  | AZilHeaderEncodeError _ => "ZilHeader encode error"
  | AObjectSetTypeError _ => "Unknown ObjectSetType"
  | AObjectSetDecodeError _ => "ObjectSet decode error"
  | AObjectSetEncodeError _ => "ObjectSet encode error"
  | ADslDirectoryDecodeError _ => "DslDirectory decode error"
  | ADslDirectoryEncodeError _ => "DslDirectory encode error"
  | ADslDataSetDecodeError _ => "DslDataSet decode error"
  | ADslDataSetEncodeError _ => "DslDataSet encode error"
  | AZapCaseNormalizationError _ => "Unknown ZapCaseNormalization"
  | AZapUnicodeNormalizationError _ => "Unknown ZapUnicodeNormalization"
  | AZapMicroHeaderDecodeError _ => "ZapMicroHeader decode error"
  | AZapMicroHeaderEncodeError _ => "ZapMicroHeader encode error"
  | AZapMicroEntryDecodeError _ => "ZapMicroEntry decode error"
  | AZapMicroEntryEncodeError _ => "ZapMicroEntry encode error"
  | AZapMicroIteratorError _ => "ZapMicroIterator decode error"
  | AZapMegaPointerTableDecodeError _ => "ZapMegaPointerTable decode error"
  | AZapMegaPointerTableEncodeError _ => "ZapMegaPointerTable encode error"
  | AZapMegaHeaderDecodeError _ => "ZapMegaHeader decode error"
  | AZapMegaHeaderEncodeError _ => "ZapMegaHeader encode error"
  | AZapHeaderDecodeError _ => "ZapHeader decode error"
  | AZapHeaderEncodeError _ => "ZapHeader encode error"
  | AZapLeafHeaderDecodeError _ => "ZapLeafHeader decode error"
  | AZapLeafHeaderEncodeError _ => "ZapLeafHeader encode error"
  | AZapLeafChunkDecodeError _ => "ZapLeafChunk decode error"
  | AZapLeafChunkEncodeError _ => "ZapLeafChunk encode error"
  | ASpaVersionError _ => "Unknown SpaVersion"
  | AUberBlockMmpDecodeError _ => "UberBlockMmp decode error"
  | AUberBlockMmpEncodeError _ => "UberBlockMmp encode error"
  | AUberBlockDecodeError _ => "UberBlock decode error"
  | AUberBlockEncodeError _ => "UberBlock encode error"
  | ABootBlockDecodeError _ => "BootBlock decode error"
  | ABootBlockEncodeError _ => "BootBlock encode error"
  | ALabelBlankDecodeError _ => "LabelBlank decode error"
  | ALabelBlankEncodeError _ => "LabelBlank encode error"
  | ALabelBootHeaderDecodeError _ => "LabelBootHeader decode error"
  | ALabelBootHeaderEncodeError _ => "LabelBootHeader encode error"
  | ALabelNvPairsDecodeError _ => "LabelNvPairs decode error"
  | ALabelNvPairsEncodeError _ => "LabelNvPairs encode error"
  | ALabelSectorsError _ => "Not enough sectors for Label"
  | AAceTypeError _ => "Unknown AceType"
  | AAceDecodeError _ => "Ace decode error"
  | AAceEncodeError _ => "Ace encode error"
  | AAclDecodeError _ => "Acl decode error"
  | AAclEncodeError _ => "Acl encode error"
  | AZplVersionError _ => "Unknown ZplVersion"
  | AZnodeFileTypeError _ => "Unknown ZnodeFileType"
  | AZnodeDecodeError _ => "Znode decode error"
  | AZnodeEncodeError _ => "Znode encode error"
  | ASpaceMapActionError _ => "Unknown SpaceMapAction"
  | ASpaceMapHeaderDecodeError _ => "SpaceMapHeader decode error"
  | ASpaceMapHeaderEncodeError _ => "SpaceMapHeader encode error"
  | ASpaceMapEntryDecodeError _ => "SpaceMapEntry decode error"
  | ASpaceMapEntryEncodeError _ => "SpaceMapEntry encode error"
  | ANvDecodeError _ => "NV decode error"
  | AFeatureDecodeError _ => "Feature decode error"
  | AFeatureSetDecodeError _ => "FeatureSet decode error"
  | APoolStateDecodeError _ => "PoolState decode error"
  | APoolErrataDecodeError _ => "PoolErrata decode error"
  | APoolConfigKeyDecodeError _ => "PoolConfigKey decode error"
  | AVdevTypeDecodeError _ => "VdevType decode error"
  | AVdevTreeKeyDecodeError _ => "VdevTreeKey decode error"
  | ALabelVdevTreeDecodeError _ => "LabelVdevTree decode error"
  | ALabelConfigDecodeError _ => "LabelConfig decode error"
  end.
Definition titles : list string := [
  "lamzfs:"; "BinaryDecoder error"; "BinaryEncoder error"; "Endian end of output"; "Unknown ChecksumType"; "Unknown CompressionType";
  "Unknown DmuType"; "ChecksumValue decode error"; "ChecksumValue encode error"; "ChecksumTail decode error";
  "ChecksumTail encode error"; "Unsupported Checksum"; "Label checksum error"; "Label verify error"; "Compression error";
  "Decompression error"; "DVA decode error"; "DVA encode error"; "Unknown BlockPointerEmbeddedType";
  "BlockPointer decode error"; "BlockPointer encode error"; "BpObjectHeader decode error"; "BpObjectHeader encode error";
  "Dnode decode error"; "Dnode encode error"; "ZilHeader decode error"; "ZilHeader encode error"; "Unknown ObjectSetType";
  "ObjectSet decode error"; "ObjectSet encode error"; "DslDirectory decode error"; "DslDirectory encode error";
  "DslDataSet decode error"; "DslDataSet encode error"; "Unknown ZapCaseNormalization"; "Unknown ZapUnicodeNormalization";
  "ZapMicroHeader decode error"; "ZapMicroHeader encode error"; "ZapMicroEntry decode error"; "ZapMicroEntry encode error";
  "ZapMicroIterator decode error"; "ZapMegaPointerTable decode error"; "ZapMegaPointerTable encode error";
  "ZapMegaHeader decode error"; "ZapMegaHeader encode error"; "ZapHeader decode error"; "ZapHeader encode error";
  "ZapLeafHeader decode error"; "ZapLeafHeader encode error"; "ZapLeafChunk decode error"; "ZapLeafChunk encode error";
  "Unknown SpaVersion"; "UberBlockMmp decode error"; "UberBlockMmp encode error"; "UberBlock decode error";
  "UberBlock encode error"; "BootBlock decode error"; "BootBlock encode error"; "LabelBlank decode error";
  "LabelBlank encode error"; "LabelBootHeader decode error"; "LabelBootHeader encode error"; "LabelNvPairs decode error";
  "LabelNvPairs encode error"; "Not enough sectors for Label"; "Unknown AceType"; "Ace decode error"; "Ace encode error";
  "Acl decode error"; "Acl encode error"; "Unknown ZplVersion"; "Unknown ZnodeFileType"; "Znode decode error";
  "Znode encode error"; "Unknown SpaceMapAction"; "SpaceMapHeader decode error"; "SpaceMapHeader encode error";
  "SpaceMapEntry decode error"; "SpaceMapEntry encode error"; "NV decode error"; "Feature decode error";
  "FeatureSet decode error"; "PoolState decode error"; "PoolErrata decode error"; "PoolConfigKey decode error";
  "VdevType decode error"; "VdevTreeKey decode error"; "LabelVdevTree decode error"; "LabelConfig decode error"].

(** The texts that start otherwise than their type's. *)
Definition misattributed (e : AnyError) : bool :=
  match e with
  | ADslDataSetDecodeError (DslDs.DFlags _) => true
  | ALabelVerifyError (LvMismatch _ _) => true
  | ACompressionError (CompUnsupported _) => true
  | _ => false
  end.

(** *** Titles *)
Lemma prefix_nil s : String.prefix "" s = true.
Proof. now destruct s. Qed.
Lemma prefix_both a b t : String.prefix a t = true -> String.prefix b t = true -> String.prefix a b = true \/ String.prefix b a = true.
Proof.
  revert b t. induction a as [|x a IH]; intros b t Ha Hb; [left; apply prefix_nil|].
  destruct b as [|y b]; [right; apply prefix_nil|]. destruct t as [|z t]; [done|]. cbn in *.
  destruct (Ascii.ascii_dec x z) as [->|]; [|done]. destruct (Ascii.ascii_dec y z) as [->|]; [|done].
  destruct (Ascii.ascii_dec z z); [|done]. now apply (IH b t).
Qed.

(** No title is the beginning of another. *)
Lemma titles_prefix_free a b : a ∈ titles -> b ∈ titles -> String.prefix a b = true -> a = b.
Proof.
  assert (H : forallb (fun a => forallb (fun b => implb (String.prefix a b) (String.eqb a b)) titles) titles = true) by (vm_compute; reflexivity).
  rewrite forallb_forall in H. intros Ha%list_elem_of_In Hb%list_elem_of_In Hp. specialize (H a Ha). cbv beta in H.
  rewrite forallb_forall in H. specialize (H b Hb). rewrite Hp in H. now apply String.eqb_eq.
Qed.
Lemma title_listed e : title e ∈ titles.
Proof. apply (bool_decide_unpack _). now destruct e; vm_compute. Qed.
Lemma text_titled e : String.prefix (title e) (any_text e) = negb (misattributed e).
Proof.
  destruct e as [e|e|e|e|e|e|e|e|e|e|e|e|e|e|e|e|e|e|e|e|e|e|e|e|e|e|e|e|e|e|e|e|e|e|e|e|e|e|e|e|e|e|e|e|e
    |e|e|e|e|e|e|e|e|e|e|e|e|e|e|e|e|e|e|e|e|e|e|e|e|e|e|e|e|e|e|e|e|e|e|e|e|e|e|e|e|e|e|e|e]; destruct e; first [reflexivity|destruct err; reflexivity].
Qed.
Lemma any_shown e : shown (any_dyn e).
Proof. destruct e; apply shown_dyn. Qed.
Lemma text_title e : misattributed e = false -> String.prefix (title e) (any_text e) = true.
Proof. intros H. now rewrite text_titled, H. Qed.

(** *** The text of an error *)

(** C38: The text of an error of any type of the crate ends, after a bar, in the
    text of each error of its chain of sources, in order down to the first
    cause; and the texts of two types are never the same: a title for each
    type starts its texts, the three of [misattributed] apart. *)
Theorem error_texts :
  (forall e, Forall (fun c => ends_in (any_text e) (dyn_text c)) (causes (any_dyn e))) /\
  NoDup titles /\
  (forall e1 e2, misattributed e1 = false -> misattributed e2 = false -> any_text e1 = any_text e2 -> title e1 = title e2).
Proof.
  split_and!; [intros e; apply shown_causes, any_shown|apply (bool_decide_unpack _); now vm_compute|].
  intros e1 e2 H1%text_title H2%text_title Heq. rewrite Heq in H1.
  destruct (prefix_both _ _ _ H1 H2) as [H|H]; [|symmetry]; apply titles_prefix_free; auto using title_listed.
Qed.
Lemma error_texts_witness :
  let cause := {| valid_up_to := 1; error_len := Some 1 |} in
  let e := ALabelConfigDecodeError (CNv (NvBinaryDecoder (InvalidStr 8 2 cause))) in
  dyn_text <$> causes (any_dyn e) = [
    "NV decode error | BinaryDecoder error, invalid UTF8 str of length 2 at offset 8 | invalid utf-8 sequence of 1 bytes from index 1";
    "BinaryDecoder error, invalid UTF8 str of length 2 at offset 8 | invalid utf-8 sequence of 1 bytes from index 1";
    "invalid utf-8 sequence of 1 bytes from index 1"] /\
  Forall (fun c => ends_in (any_text e) (dyn_text c)) (causes (any_dyn e)) /\
  (any_text e = any_text (ANvDecodeError (NvBinaryDecoder (InvalidStr 8 2 cause))) -> False).
Proof.
  intros cause e. destruct error_texts as (Hcauses & _ & Htitle). split_and!; [reflexivity|apply Hcauses|].
  intros Heq. apply Htitle in Heq; [discriminate|reflexivity..].
Defined.

(** The text of unknown flags of a dataset is that of unknown flags of an object set. *)
Lemma dataset_flags_misattributed flags : any_text (ADslDataSetDecodeError (DslDs.DFlags flags)) = any_text (AObjectSetDecodeError (Os.DFlags flags)).
Proof. reflexivity. Qed.
