(* ===== verification/Clients.v ===== *)
(** * Programs on the interface (examples/zfsdump.rs, fuzz/fuzz_targets)

    The inspection tool and the three fuzz targets: what they do with a pool,
    on images that are held in memory.  The targets are to end on any input
    without a panic; the tool prints the identity of a pool and the entries of
    the root directory of a dataset, with the sizes of the files. *)

From Stdlib Require Import Strings.Byte.
From S2P Require Import Prelude Errors Decoder Encoder Codec Types Dva BlockPointer Fletcher Sha256 LabelChecksum Cksum Compress.
From S2P Require Import Vdev Heal Dnode FileRead ObjectSet Zap Walk WalkSafe Dsl Dataset Uberblock Label Nv NvSpec Pool PoolSpec Zfs Safe Session.
From S2P Require Import Acl ErrorText ErrorConfig.

Open Scope string_scope.
Open Scope Z_scope.
Open Scope list_scope.

(** ** Images in memory *)

(** The bytes of an image, each an [u8] by its type. *)
Record MemImage : Type := { image_bytes : list byte }.
Definition u8_of (b : byte) : Z := Z.of_N (Byte.to_N b).
(** [usize::try_from] on a 64-bit target, and [checked_add] on [usize]. *)
Definition usize_try_from (x : Z) : option Z := if (0 <=? x) && (x <? 2 ^ 64) then Some x else None.
Definition checked_add (a b : Z) : option Z := if a + b <? 2 ^ 64 then Some (a + b) else None.

Definition mem_read_at (m : MemImage) (off len : Z) : option bytes :=
  off ← usize_try_from off;
  end_ ← checked_add off len;
  get_range (u8_of <$> image_bytes m) off end_.

Lemma u8_of_bytes l : bytes_ok (u8_of <$> l).
Proof. apply Forall_fmap, Forall_true. intros b. pose proof (Byte.to_N_bounded b). unfold compose, is_byte, u8_of. lia. Qed.
#[global] Instance MemImage_read : BlockRead MemImage.
Proof.
  refine {| Errors.read_at := fun m off len => (mem_read_at m off len, m) |}.
  intros m off n bs m' Hn [= Hr _]. unfold mem_read_at, usize_try_from, checked_add in Hr.
  destruct (_ && _); [|done]. cbn in Hr. destruct (_ <? _); [|done]. cbn in Hr. pose proof (blen_get_range _ _ _ _ Hr) as Hl. split; [lia|].
  apply get_range_Some in Hr as (_ & _ & ->). apply bytes_ok_ztake, bytes_ok_zdrop, u8_of_bytes.
Defined.

Definition member_of (bs : list byte) : PoolMember MemImage := Build_PoolMember {| image_bytes := bs |} (blen bs).

(** ** Fuzz targets

    A target ends or panics; results and errors of the calls are dropped. *)
Section targets.
Context {B : Build}.
Abbreviation M := (SM (Zfs MemImage) Empty_set).

(** [let _ = call] *)
Definition ignore {A} (m : SM (Zfs MemImage) Error A) : M unit := sm_catch m (fun _ => mret tt) (fun _ => mret tt).
(** [let Ok(zfs) = import else return]: what is done with the pool, where there is one. *)
Definition on_import (members : list (PoolMember MemImage)) (body : M unit) : outcome Empty_set unit :=
  match import members with
  | Ok zfs => fst (body zfs)
  | Err _ => Ok tt
  | Panic => Panic
  end.

Definition import_target (data : list byte) : outcome Empty_set unit := on_import [member_of data] (mret tt).

Definition walk_entry (e : DirEntry) : M unit :=
  let name := de_name e in
  ignore (stat [] [name]);;
  ignore (exists_ [] [name]);;
  match de_kind e with
  | EntryKind.Regular | EntryKind.Symlink | EntryKind.Other =>
      ignore (read [] [name]);;
      ignore (read_at [] [name] 1 64)
  | EntryKind.Directory =>
      ignore (read_dir [] [name]);;
      ignore (read_dir [name] [])
  end.
Fixpoint walk_entries (entries : list DirEntry) (budget : Z) : M unit :=
  match entries with
  | [] => mret tt
  | e :: entries' => if budget =? 0 then mret tt else walk_entry e;; walk_entries entries' (budget - 1)
  end.
Fixpoint walk_datasets (datasets : list (list bytes)) : M unit :=
  match datasets with
  | [] => mret tt
  | ds :: datasets' => ignore (read_dir ds []);; walk_datasets datasets'
  end.
Definition walk_body : M unit :=
  sm_catch datasets (fun datasets => walk_datasets (take 8 datasets)) (fun _ => mret tt);;
  ignore (child_datasets []);;
  sm_catch (read_dir [] []) (fun entries => walk_entries (take 512 entries) 2048) (fun _ => mret tt).
Definition walk_target (data : list byte) : outcome Empty_set unit := on_import [member_of data] walk_body.

Record Input : Type := { in_members : list (list byte); in_dataset : list (list byte); in_file : list (list byte) }.
(** The components that are UTF-8. *)
Definition utf8_components (l : list (list byte)) : list bytes :=
  omap (fun b => match from_utf8 (u8_of <$> b) with Ok s => Some s | _ => None end) l.
Definition path_body (ds fp : list bytes) : M unit :=
  ignore (read_dir ds fp);;
  ignore (stat ds fp);;
  ignore (exists_ ds fp);;
  ignore (read ds fp);;
  ignore (read_at ds fp 0 4096).
Definition path_target (inp : Input) : outcome Empty_set unit :=
  if bool_decide (in_members inp = []) || (8 <? blen (in_members inp)) then Ok tt
  else on_import (member_of <$> in_members inp) (path_body (utf8_components (in_dataset inp)) (utf8_components (in_file inp))).
End targets.

(** ** The inspection tool *)

(** *** Derived [Debug] of errors *)
Definition quote : string := String (Ascii.ascii_of_nat 34) "".
(** The tokens are printable ASCII without quotes, which [{:?}] does not escape. *)
Definition debug_str (s : string) : string := quote +:+ s +:+ quote.
Definition debug_struct (name : string) (fields : list (string * string)) : string :=
  name +:+ " { " +:+ String.concat ", " ((fun f => fst f +:+ ": " +:+ snd f) <$> fields) +:+ " }".
Definition debug_tuple (name value : string) : string := name +:+ "(" +:+ value +:+ ")".

Definition LabelReason_debug (r : LabelReason) : string :=
  match r with
  | BadMagic => "BadMagic" | BadChecksum => "BadChecksum" | NoLabels => "NoLabels" | PoolGuidMismatch => "PoolGuidMismatch"
  | NotAZfsMember => "NotAZfsMember"
  end.
Definition Location_debug (l : Location) : string :=
  match l with
  | LVdev guid => debug_struct "Vdev" [("guid", dec guid)]
  | LUberblock => "Uberblock"
  | LMos => "Mos"
  | LDsl obj => debug_struct "Dsl" [("obj", dec obj)]
  | LDnode obj => debug_struct "Dnode" [("obj", dec obj)]
  | LIndirect obj level => debug_struct "Indirect" [("obj", dec obj); ("level", dec level)]
  | LZap obj => debug_struct "Zap" [("obj", dec obj)]
  | LZpl obj => debug_struct "Zpl" [("obj", dec obj)]
  end.
Definition Error_debug (e : Error) : string :=
  match e with
  | Io token vdev offset => debug_struct "Io" [("token", debug_str token); ("vdev", dec vdev); ("offset", dec offset)]
  | BadLabel r => debug_tuple "BadLabel" (LabelReason_debug r)
  | NoValidUberblock => "NoValidUberblock"
  | UnsupportedFeature t => debug_tuple "UnsupportedFeature" (debug_str t)
  | UnsupportedTopology t => debug_tuple "UnsupportedTopology" (debug_str t)
  | Unsupported t => debug_tuple "Unsupported" (debug_str t)
  | ChecksumMismatch vdev offset what =>
      debug_struct "ChecksumMismatch" [("vdev", dec vdev); ("offset", dec offset); ("what", debug_str what)]
  | Inconsistent token where_ => debug_struct "Inconsistent" [("token", debug_str token); ("where_", Location_debug where_)]
  | UnsupportedCompression comp => debug_struct "UnsupportedCompression" [("comp", dec comp)]
  | BadCompression comp token => debug_struct "BadCompression" [("comp", dec comp); ("token", debug_str token)]
  | NotFound component => debug_struct "NotFound" [("component", debug_str component)]
  | NotARegularFile => "NotARegularFile"
  | NotADirectory => "NotADirectory"
  | NotASymlink => "NotASymlink"
  | FileTooLarge size max => debug_struct "FileTooLarge" [("size", dec size); ("max", dec max)]
  | OutOfMemory site => debug_struct "OutOfMemory" [("site", debug_str site)]
  end.

(** *** The tool *)
Inductive line : Type := Stdout (text : string) | Stderr (text : string).
Inductive ExitCode : Type := SUCCESS | FAILURE.

(** [{:>10}] *)
Definition right_10 (s : string) : string := String.concat "" (replicate (10 - String.length s) " ") +:+ s.
Definition kind_tag (k : EntryKind.t) : string :=
  match k with
  | EntryKind.Directory => "dir "
  | EntryKind.Regular => "file"
  | EntryKind.Symlink => "link"
  | EntryKind.Other => "??? "
  end.
Definition entry_line (tag size : string) (name : bytes) (suffix : string) : line :=
  Stdout ("  " +:+ tag +:+ " " +:+ right_10 size +:+ "  " +:+ str_text name +:+ suffix).

Section dump.
Context {B : Build}.

Section listing.
Context {R : Type} `{BlockRead R}.
Abbreviation M := (SM (Zfs R) Empty_set).

Fixpoint print_entries (ds : list bytes) (entries : list DirEntry) : M (list line) :=
  match entries with
  | [] => mret []
  | e :: entries' =>
      let tag := kind_tag (de_kind e) in
      first ← (if bool_decide (de_kind e = EntryKind.Regular) then
                 sm_catch (read ds [de_name e])
                   (fun data => mret (entry_line tag (dec (blen data)) (de_name e) ""))
                   (fun err => mret (entry_line tag "-" (de_name e) ("  (read error: " +:+ Error_debug err +:+ ")")))
               else mret (entry_line tag "-" (de_name e) ""));
      rest ← print_entries ds entries';
      mret (first :: rest)
  end.
Definition print_listing (ds : list bytes) (entries : list DirEntry) : M (list line) :=
  lines ← print_entries ds entries;
  mret (Stdout ("/ (" +:+ dec (blen entries) +:+ " entries)") :: lines).

Definition identity (zfs : Zfs R) (ds : list bytes) : list line := [
  Stdout ("pool    " +:+ str_text (pool_name zfs) +:+ " (guid " +:+ hex 18 (pool_guid zfs) +:+ ")");
  Stdout ("txg     " +:+ dec (txg zfs));
  Stdout ("members " +:+ dec (member_count zfs));
  Stdout ("dataset " +:+ (if bool_decide (ds = []) then "<root>" else String.concat "/" (str_text <$> ds)));
  Stdout ""].

(** From the members on. *)
Definition dump (members : list (PoolMember R)) (ds : list bytes) : outcome Empty_set (list line * ExitCode) :=
  match import members with
  | Err e => Ok ([Stderr ("import failed: " +:+ Error_debug e)], FAILURE)
  | Panic => Panic
  | Ok zfs =>
      fst (sm_catch (read_dir ds [])
             (fun entries => lines ← print_listing ds entries; mret (identity zfs ds ++ lines, SUCCESS))
             (fun e => mret (identity zfs ds ++ [Stderr ("read_dir: " +:+ Error_debug e)], FAILURE)) zfs)
  end.
End listing.

Definition is_utf8 (s : bytes) : bool := match from_utf8 s with Ok _ => true | _ => false end.

(** [std::fs::read]: the contents of a file, or the text of the error. *)
Context (fs_read : bytes -> list byte + string).

Fixpoint load (paths : list bytes) : list (PoolMember MemImage) + line :=
  match paths with
  | [] => inl []
  | p :: paths' =>
      match fs_read p with
      | inl bs => match load paths' with inl members => inl (member_of bs :: members) | inr l => inr l end
      | inr e => inr (Stderr ("read " +:+ str_text p +:+ ": " +:+ e))
      end
  end.

(** The arguments before the first [--], and those after it. *)
Fixpoint split_args (argv : list bytes) : list bytes * list bytes :=
  match argv with
  | [] => ([], [])
  | a :: argv' => if bool_decide (a = ascii_bytes "--") then ([], argv') else let '(images, ds) := split_args argv' in (a :: images, ds)
  end.

(** [std::env::args], which panics on an argument that is not Unicode, the program's name included. *)
Definition env_args (args : list bytes) : outcome Empty_set (list bytes) :=
  if forallb is_utf8 args then Ok args else Panic.

(** What is printed is taken: a closed output, on which [println] panics, is outside the model. *)
Definition main (args : list bytes) : outcome Empty_set (list line * ExitCode) :=
  args ← env_args args;
  let '(image_paths, ds) := split_args (drop 1 args) in
  if bool_decide (image_paths = []) then
    Ok ([Stderr "usage: zfsdump <member.img> [<member2.img> ...] [-- <dir>...]"], FAILURE)
  else
    match load image_paths with
    | inl members => dump members ds
    | inr l => Ok ([l], FAILURE)
    end.
End dump.

(** ** What can make them panic *)
Create HintDb clients.
Section survive.
Context {B : Build} {BL : BuildLaws B}.

(** The labels do not describe RAID-Z, on which the offset of a column can overflow. *)
Definition single_or_mirror {R} `{BlockRead R} (members : list (PoolMember R)) : Prop :=
  forall lay ms, described_layout members lay ms -> plain_layout {| layout := lay; Vdev.checksum_salt := None |}.
(** The one fault: a ZAP object with a first block shorter than a word, among those that are read in the
    course of the import, or in the imported pool. *)
Definition client_fault {R} `{BlockRead R} (members : list (PoolMember R)) : Prop :=
  (exists lay o mos ms, described_mos members lay o mos ms /\ short_zap {| layout := lay; Vdev.checksum_salt := None |} o mos ms) \/
  exists z, import members = Ok z /\ pool_fault (z_pool z) (z_members z).

(** A program that has only the panics of its calls. *)
Lemma client_survives {R} `{BlockRead R} {A} (members : list (PoolMember R)) (body : SM (Zfs R) Empty_set A) z :
  single_or_mirror members -> import members = Ok z ->
  (forall p, plain_layout (topology p) -> Dn.dnode_wf (mos_dnode p) ->
     hoare_upto (pool_fault p (z_members z)) (serving_from p (z_members z)) body (fun _ => True)) ->
  fst (body z) = Panic -> client_fault members.
Proof using BL.
  intros Hsm Hi Hbody Hpanic. right. exists z. split; [done|].
  pose proof (upto_import members) as Hup. unfold import in Hi. unfold wp, imported_upto in Hup.
  destruct (Pool.import members) as [[p|e|] ms1] eqn:E; [|done..]. cbn in *. injection Hi as <-. cbn in *.
  destruct (import_described members p ms1 E) as (ms & Hd & _). pose proof (Hsm _ _ Hd : plain_layout (topology p)) as Hp.
  destruct (Hup Hp) as [_ Hok].
  destruct (Hbody p Hp Hok {| z_members := ms1; z_pool := p |}) as [_ Hs]; [split; [done|constructor]|]. cbn in Hs. now rewrite Hpanic in Hs.
Qed.
Lemma import_survives {R} `{BlockRead R} (members : list (PoolMember R)) :
  single_or_mirror members -> import members = Panic -> client_fault members.
Proof using BL.
  intros Hsm Hi. left. pose proof (upto_import members) as Hup. unfold import in Hi. unfold wp, imported_upto in Hup.
  destruct (Pool.import members) as [[p|e|] ms1]; [done..|]. destruct Hup as (lay & ms & Hd & [Hn|(o & mos & ms' & Hm & Hz)]).
  - destruct (Hn (Hsm _ _ Hd)).
  - now exists lay, o, mos, ms'.
Qed.

Section body.
Context {R : Type} `{BlockRead R} (p : ImportedPool) (ms0 : list (PoolMember R)).
Hypothesis Hplain : plain_layout (topology p).
Hypothesis Hmos : Dn.dnode_wf (mos_dnode p).
Abbreviation F := (pool_fault p ms0).
Abbreviation I := (serving_from p ms0).
Abbreviation body_ok m := (hoare_upto F I m (fun _ => True)).

Lemma any_result {E A} (m : SM (Zfs R) E A) P : hoare_upto F I m P -> body_ok m.
Proof using. intros Hm. eapply upto_mono; [exact Hm|done]. Qed.
Lemma ret_ok {E A} (a : A) : hoare_upto F I (mret a : SM (Zfs R) E A) (fun _ => True).
Proof using. now apply upto_hoare, hoare_ret. Qed.
Lemma then_ok {E A C} (m : SM (Zfs R) E A) (k : A -> SM (Zfs R) E C) : body_ok m -> (forall a, body_ok (k a)) -> body_ok (m ≫= k).
Proof using. intros Hm Hk. eapply upto_bind; [exact Hm|auto]. Qed.
Lemma catch_ok {E G A C} (m : SM (Zfs R) E A) (k : A -> SM (Zfs R) G C) h :
  body_ok m -> (forall a, body_ok (k a)) -> (forall e, body_ok (h e)) -> body_ok (sm_catch m k h).
Proof using. intros Hm Hk Hh. eapply upto_catch; [exact Hm|auto..]. Qed.

(** Every call of the interface. *)
Lemma calls_ok :
  (forall ds path, body_ok (read_dir ds path)) /\ (forall ds path, body_ok (stat ds path)) /\ (forall ds path, body_ok (exists_ ds path)) /\
  (forall ds path, body_ok (read ds path)) /\ (forall ds path off len, 0 <= off -> 0 <= len -> body_ok (read_at ds path off len)) /\
  (forall parent, body_ok (child_datasets parent)) /\ body_ok datasets.
Proof using BL Hplain Hmos.
  split_and!; intros.
  - eapply any_result, upto_read_dir; done.
  - eapply any_result, upto_stat; done.
  - eapply any_result, upto_exists; done.
  - eapply any_result, upto_read; done.
  - eapply any_result, upto_read_at; done.
  - apply upto_on_members, (upto_child_names _ _ Hplain _ ms0); seen || (now left).
  - intros z Hz. destruct (upto_datasets p ms0 Hplain Hmos z Hz) as [Hi Hs]. split; [done|]. now destruct (fst _).
Qed.
#[local] Hint Resolve ret_ok then_ok catch_ok : clients.

Lemma print_entries_ok ds entries : body_ok (print_entries ds entries).
Proof using BL Hplain Hmos.
  destruct calls_ok as (_ & _ & _ & Hread & _). induction entries; cbn [print_entries]; [auto with clients|].
  apply then_ok; [destruct (bool_decide _); auto 6 with clients|auto 6 with clients].
Qed.
End body.
#[local] Hint Resolve ret_ok then_ok catch_ok : clients.

Section bodies.
Context (p : ImportedPool) (ms0 : list (PoolMember MemImage)).
Hypothesis Hplain : plain_layout (topology p).
Hypothesis Hmos : Dn.dnode_wf (mos_dnode p).
Abbreviation body_ok m := (hoare_upto (pool_fault p ms0) (serving_from p ms0) m (fun _ => True)).

Lemma ignore_ok {A} (m : SM (Zfs MemImage) Error A) : body_ok m -> body_ok (ignore m).
Proof using. intros Hm. apply catch_ok; auto with clients. Qed.
#[local] Hint Resolve ignore_ok : clients.

Lemma walk_entries_ok entries : forall budget, body_ok (walk_entries entries budget).
Proof using All.
  destruct (calls_ok p ms0 Hplain Hmos) as (Hdir & Hstat & Hexists & Hread & Hread_at & _).
  assert (H1 : forall name, body_ok (read_at [] [name] 1 64)) by (intros; apply Hread_at; lia).
  induction entries as [|e entries IH]; intros budget; cbn [walk_entries]; [auto with clients|].
  destruct (budget =? 0); [auto with clients|]. apply then_ok; [|auto]. unfold walk_entry. destruct (de_kind e); auto 8 with clients.
Qed.
Lemma walk_datasets_ok l : body_ok (walk_datasets l).
Proof using All.
  destruct (calls_ok p ms0 Hplain Hmos) as (Hdir & _). induction l; cbn [walk_datasets]; auto 6 with clients.
Qed.
Lemma walk_body_ok : body_ok walk_body.
Proof using All.
  destruct (calls_ok p ms0 Hplain Hmos) as (Hdir & _ & _ & _ & _ & Hchild & Hdatasets).
  pose proof walk_entries_ok. pose proof walk_datasets_ok. unfold walk_body. auto 8 with clients.
Qed.
Lemma path_body_ok ds fp : body_ok (path_body ds fp).
Proof using All.
  destruct (calls_ok p ms0 Hplain Hmos) as (Hdir & Hstat & Hexists & Hread & Hread_at & _).
  assert (H0 : body_ok (read_at ds fp 0 4096)) by (apply Hread_at; lia). unfold path_body. auto 12 with clients.
Qed.
End bodies.

Lemma target_survives members body :
  (forall p ms0, plain_layout (topology p) -> Dn.dnode_wf (mos_dnode p) ->
     hoare_upto (pool_fault p ms0) (serving_from p ms0) body (fun _ => True)) ->
  single_or_mirror members -> on_import members body = Panic -> client_fault members.
Proof using BL.
  intros Hbody Hsm. unfold on_import. destruct (import members) as [z|e|] eqn:E; [|done|now intros; apply import_survives].
  intros Hp. eapply client_survives; eauto.
Qed.
Lemma dump_survives {R} `{BlockRead R} (members : list (PoolMember R)) ds :
  single_or_mirror members -> dump members ds = Panic -> client_fault members.
Proof using BL.
  intros Hsm. unfold dump. destruct (import members) as [z|e|] eqn:E; [|done|now intros; apply import_survives].
  intros Hp. eapply (client_survives members _ z Hsm E); [|exact Hp]. intros p Hplain Hmos. cbv beta.
  destruct (calls_ok p (z_members z) Hplain Hmos) as (Hdir & _). pose proof (print_entries_ok p (z_members z) Hplain Hmos).
  unfold print_listing. auto 8 with clients.
Qed.
End survive.

Lemma ends_or_panics {A} (m : outcome Empty_set A) (F : Prop) : (m = Panic -> F) -> (exists a, m = Ok a) \/ F.
Proof. destruct m as [a|[]|]; eauto. Qed.
Lemma target_ends (m : outcome Empty_set unit) (F : Prop) : (m = Panic -> F) -> m = Ok tt \/ F.
Proof. intros [[[] ?]|?]%ends_or_panics; auto. Qed.

(** C24: On devices whose labels do not describe RAID-Z, the fuzz targets end on any input, and the tool on any members,
    and on any Unicode arguments and files: there is no panic but that of a ZAP object whose first block is shorter
    than a word.  An argument that is not Unicode does make the tool panic. *)
Theorem clients_survive {B : Build} {BL : BuildLaws B} :
  (forall data, single_or_mirror [member_of data] -> import_target data = Ok tt \/ client_fault [member_of data]) /\
  (forall data, single_or_mirror [member_of data] -> walk_target data = Ok tt \/ client_fault [member_of data]) /\
  (forall inp, single_or_mirror (member_of <$> in_members inp) -> path_target inp = Ok tt \/ client_fault (member_of <$> in_members inp)) /\
  (forall R (HR : BlockRead R) (members : list (PoolMember R)) ds,
     single_or_mirror members -> (exists r, dump members ds = Ok r) \/ client_fault members) /\
  (forall fs_read args images ds, Forall (fun a => is_utf8 a = true) args -> split_args (drop 1 args) = (images, ds) ->
     (forall members, load fs_read images = inl members -> single_or_mirror members) ->
     (exists r, main fs_read args = Ok r) \/ exists members, load fs_read images = inl members /\ client_fault members) /\
  (forall fs_read args, List.Exists (fun a => is_utf8 a = false) args -> main fs_read args = Panic).
Proof.
  split_and!.
  - intros data Hsm. apply target_ends, target_survives; [|done]. intros p ms0 _ _. apply ret_ok.
  - intros data Hsm. apply target_ends, target_survives; [|done]. apply walk_body_ok.
  - intros inp Hsm. apply target_ends. unfold path_target. destruct (_ || _); [done|]. apply target_survives; [|done].
    intros. now apply path_body_ok.
  - intros R HR members ds Hsm. apply ends_or_panics. now apply dump_survives.
  - intros fs_read args images ds Hu Es Hsm. apply ends_or_panics. unfold main, env_args.
    replace (forallb is_utf8 args) with true by (symmetry; apply forallb_forall; intros a Ha%list_elem_of_In; rewrite Forall_forall in Hu; auto).
    cbn [mbind outcome_bind]. rewrite Es. destruct (bool_decide _); [done|].
    destruct (load fs_read images) as [members|l]; [|done]. intros Hp%dump_survives; eauto.
  - intros fs_read args He. unfold main, env_args. replace (forallb is_utf8 args) with false; [done|]. symmetry.
    apply not_true_iff_false. rewrite forallb_forall. intros Hall. apply Exists_exists in He as (a & Ha%list_elem_of_In & Hu).
    rewrite (Hall a Ha) in Hu. discriminate.
Qed.

(** The example pool is not RAID-Z, and the tool ends on it. *)
Lemma tank_single label : configured (B := plain_build) (tank label) [tank_config] tank_description ->
  single_or_mirror (B := plain_build) (tank label).
Proof.
  intros Hconf lay ms Hd. pose proof (import_held (B := plain_build) (tank label) [tank_config] tank_description Hconf (tank_rooted label)) as Hi.
  destruct (import_described (B := plain_build) _ _ _ Hi) as (_ & _ & Hu). rewrite (Hu ms lay (tank_repeatable label) Hd). exact I.
Qed.
Lemma clients_survive_witness : exists label,
  single_or_mirror (B := plain_build) (tank label) /\
  ((exists r, dump (B := plain_build) (tank label) boot = Ok r) \/ client_fault (B := plain_build) (tank label)).
Proof.
  destruct tank_label as [label Hconf]. exists label. pose proof (tank_single label Hconf) as Hsm. split; [exact Hsm|].
  destruct (clients_survive (B := plain_build)) as (_ & _ & _ & Hdump & _). exact (Hdump image _ (tank label) boot Hsm).
Defined.

(** The budget of the walk is never spent: each of at most 512 entries takes one of 2048. *)
Lemma walk_budget_unused {B : Build} entries : forall budget, blen entries <= budget ->
  walk_entries entries budget = fold_right (fun e rest => walk_entry e;; rest) (mret tt) entries.
Proof.
  induction entries as [|e entries IH]; intros budget Hb; [done|]. rewrite blen_cons in Hb. pose proof (blen_nonneg entries).
  cbn [walk_entries fold_right]. destruct (Z.eqb_spec budget 0); [lia|]. f_equal. rewrite IH by lia. done.
Qed.

(** ** What the tool prints *)
Lemma find_name_unique {V} (l : list (bytes * V)) name v : NoDup (fst <$> l) -> (name, v) ∈ l -> find_name name l = Some v.
Proof.
  unfold find_name. intros Hn. induction l as [|x l IH]; [now intros ?%elem_of_nil|].
  rewrite fmap_cons, NoDup_cons in Hn. destruct Hn as [Hnotin Hn]. rewrite elem_of_cons. cbn [List.find]. intros [<-|Hin].
  - now rewrite bool_decide_true.
  - rewrite bool_decide_false; [now apply IH|]. intros Heq. apply Hnotin. rewrite Heq. exact (list_elem_of_fmap_2 fst l (name, v) Hin).
Qed.

(** The line of a directory entry: a file with the length of its contents, unless they are past the limit. *)
Definition listed_entry (e : bytes * (Z * node)) : line :=
  let '(name, (v, n)) := e in
  match dirent_kind v, n with
  | EntryKind.Regular, File c =>
      if MAX_FILE_BYTES <? blen c
      then entry_line "file" "-" name ("  (read error: " +:+ Error_debug (FileTooLarge (blen c) MAX_FILE_BYTES) +:+ ")")
      else entry_line "file" (dec (blen c)) name ""
  | kind, _ => entry_line (kind_tag kind) "-" name ""
  end.
Definition file_of (e : bytes * (Z * node)) : Prop :=
  dirent_kind (fst (snd e)) = EntryKind.Regular -> exists c, snd (snd e) = File c.

Section prints.
Context {B : Build} {R : Type} `{BlockRead R} (z : Zfs R) (t : dsl_tree) (ds : list bytes) (meta : Dnode).
Context (children : list (bytes * dsl_tree)) (entries : list (bytes * (Z * node))).
Hypothesis Hpool : pool_at (topology (z_pool z)) (pool_order (z_pool z)) (z_members z) (mos_dnode (z_pool z)) t.
Hypothesis Hds : ds_find t ds = Some (Ds (Some meta) children).
Hypothesis Hfs : fs_at (topology (z_pool z)) (pool_order (z_pool z)) (z_members z) meta (Dir entries).
Hypothesis Hnames : NoDup (fst <$> entries).

Lemma print_entries_held l : (forall e, e ∈ l -> e ∈ entries) -> Forall file_of l ->
  print_entries ds (dir_entry <$> l) z = (Ok (listed_entry <$> l), z).
Proof using Hpool Hds Hfs Hnames.
  intros Hin Hfile. induction l as [|[name [v n]] l IH]; [done|]. apply Forall_cons in Hfile as [Hf Hfile].
  rewrite !fmap_cons. cbn [print_entries dir_entry de_kind de_name fst snd].
  assert (Hfirst : (if bool_decide (dirent_kind v = EntryKind.Regular) then
                      sm_catch (read ds [name])
                        (fun data => mret (entry_line (kind_tag (dirent_kind v)) (dec (blen data)) name ""))
                        (fun err => mret (entry_line (kind_tag (dirent_kind v)) "-" name ("  (read error: " +:+ Error_debug err +:+ ")")))
                    else mret (entry_line (kind_tag (dirent_kind v)) "-" name "") : SM (Zfs R) Empty_set line) z =
                   (Ok (listed_entry (name, (v, n))), z)).
  { unfold listed_entry. case_bool_decide as Hk; [|now destruct (dirent_kind v), n].
    destruct (Hf Hk) as [c Hc]. cbn in Hc, Hk. subst n. rewrite Hk. unfold sm_catch.
    rewrite (read_held z t ds meta children (Dir entries) Hpool Hds Hfs [name] v c); [now destruct (_ <? _)| |done].
    cbn [fs_find]. now rewrite (find_name_unique entries name (v, File c)) by (done || (apply Hin; now left)). }
  rewrite (SM_run _ _ _ _ _ Hfirst), (SM_run _ _ _ _ _ (IH ltac:(intros; apply Hin; now right) Hfile)). done.
Qed.
End prints.

(** C4: On members that are described by their labels, with a file system in a dataset, the tool prints the name,
    identity and transaction group of the pool that is described, the number of members, and the entries of
    the root directory in order, each with its kind and its name, a file with the exact length of its contents. *)
Theorem dump_prints {B : Build} {R} `{BlockRead R} (ms : list (PoolMember R)) configs d t ds meta children entries :
  configured ms configs d -> rooted ms d -> d_refused d = None ->
  pool_at (topology (d_pool d)) (d_order d) ms (os_dnode (d_set d)) t ->
  ds_find t ds = Some (Ds (Some meta) children) ->
  fs_at (topology (d_pool d)) (d_order d) ms meta (Dir entries) ->
  NoDup (fst <$> entries) -> Forall file_of entries ->
  dump ms ds = Ok ([
    Stdout ("pool    " +:+ str_text (d_name d) +:+ " (guid " +:+ hex 18 (d_guid d) +:+ ")");
    Stdout ("txg     " +:+ dec (Uberblock.txg (d_ub d)));
    Stdout ("members " +:+ dec (blen ms));
    Stdout ("dataset " +:+ (if bool_decide (ds = []) then "<root>" else String.concat "/" (str_text <$> ds)));
    Stdout "";
    Stdout ("/ (" +:+ dec (blen entries) +:+ " entries)")] ++ (listed_entry <$> entries), SUCCESS).
Proof.
  intros Hc Hr Hn Hp Hd Hf Hu Hfile. pose proof (import_held ms configs d Hc Hr) as Hi. rewrite Hn in Hi.
  set (z := {| z_members := ms; z_pool := d_pool d |}). unfold dump, import. rewrite Hi. cbn [mbind outcome_bind].
  change {| z_members := ms; z_pool := d_pool d |} with z. unfold sm_catch.
  rewrite (read_dir_held z t ds meta children (Dir entries) Hp Hd Hf [] 0 entries) by now left. unfold print_listing.
  rewrite SM_assoc, (SM_run _ _ _ _ _ (print_entries_held z t ds meta children entries Hp Hd Hf Hu entries ltac:(done) Hfile)).
  cbn. unfold blen. now rewrite length_fmap.
Qed.

(** The listing of the example pool. *)
Lemma dump_prints_witness : exists label, dump (B := plain_build) (tank label) boot = Ok ([
    Stdout "pool    tank (guid 0x000000000000004d)"; Stdout "txg     4711"; Stdout "members 1"; Stdout "dataset BOOT"; Stdout "";
    Stdout "/ (1 entries)"; Stdout "  file         26  motd"], SUCCESS).
Proof.
  destruct tank_label as [buf Hconf]. exists buf.
  refine (dump_prints (B := plain_build) (tank buf) [tank_config] tank_description pool_tree boot fs_array [] _
            Hconf (tank_rooted buf) eq_refl (tank_pool buf) eq_refl (tank_files buf) _ _).
  - apply NoDup_singleton.
  - repeat constructor. intros _. now eexists.
Defined.

(** The arguments of the tool: the images, each the member of its contents, and the dataset after the dashes. *)
Lemma main_dumps {B : Build} fs_read program images ds contents :
  Forall (fun a => is_utf8 a = true) (program :: images ++ ds) ->
  images <> [] -> Forall (fun a => a <> ascii_bytes "--") images -> Forall2 (fun p c => fs_read p = inl c) images contents ->
  main fs_read (program :: images ++ ascii_bytes "--" :: ds) = dump (member_of <$> contents) ds.
Proof.
  intros Hu Hne Hsep Hread. unfold main, env_args.
  assert (Hall : forallb is_utf8 (program :: images ++ ascii_bytes "--" :: ds) = true).
  { apply forallb_forall. intros a Ha. rewrite Forall_forall in Hu. destruct Ha as [->|[Ha|[<-|Ha]]%in_app_or]; [apply Hu; left| |done|].
    - apply Hu. right. apply elem_of_app. left. now apply list_elem_of_In.
    - apply Hu. right. apply elem_of_app. right. now apply list_elem_of_In. }
  rewrite Hall. cbn [mbind outcome_bind]. clear Hu Hall. change (drop 1 (program :: ?l)) with l.
  assert (Hs : split_args (images ++ ascii_bytes "--" :: ds) = (images, ds)).
  { clear Hne Hread. induction Hsep as [|a images Ha _ IH]; [done|]. cbn [app split_args]. now rewrite bool_decide_false, IH. }
  assert (Hl : load fs_read images = inl (member_of <$> contents)).
  { clear Hne Hsep Hs. induction Hread as [|p c images contents Hp _ IH]; [done|]. cbn [load]. now rewrite Hp, IH. }
  now rewrite Hs, bool_decide_false, Hl.
Qed.
